(* ===== verification/_CoqProject ===== *)
-Q . S2P
Prelude.v
RangeMap.v
DdTypes.v
Vp8.v
Packet.v
RtpMunger.v
Sequencer.v
OrderedMap.v
Vp8Munger.v
DdBits.v
DdReader.v
DdWriter.v
DdCodec.v
DdSafe.v
FrameIntegrity.v
DecisionCache.v
LayerSelectors.v
FrameChain.v
DdParser.v
DdSelector.v
DdSelectorSpec.v
Bitrates.v
Forwarder.v
Allocation.v
AllocationSpec.v
StreamAllocator.v
StreamAllocatorSpec.v
StreamAllocatorEvents.v
Translation.v
TranslationSpec.v
TranslationSafety.v
TranslationExamples.v
KeyFrames.v
H26x.v
H26xSpec.v
H26xExamples.v
StreamTracker.v
StreamTrackerDD.v
Red.v
RedSpec.v
DataPacket.v
DataTracks.v
Extensions.v
Deduper.v
