(* ===== verification/Prelude.v ===== *)
(** * HubLive server: a verification library of the media forwarding core

    HubLive is a WebRTC media server (SFU).  A publisher's packets reach a
    receiver through a [buffer]; each subscriber has a [DownTrack] whose
    forwarder decides which packets to send, rewrites their numbers so that
    the subscriber sees one continuous stream, and answers its NACKs from a
    record of what was sent.  This library models that core
    ([src/SERVER/pkg/sfu/], Go), file by file, and proves what it promises.
    Paths below are relative to that directory, or begin with [pkg].

    ** How the parts interact

<<
  RTP packet -> buffer: VP8 header (buffer/helpers.go), dependency descriptor
                (rtpextension/dependencydescriptor), its parser and the check
                for complete frames (buffer)
             -> selector (videolayerselector): is the packet sent, does the
                layer change
             -> RTP munger (rtpmunger.go), VP8 munger (codecmunger): new
                numbers, picture ids
             -> sequencer (sequencer.go): remembers what was sent, serves NACKs
  congestion -> stream allocator (streamallocator): shares the channel among
                the tracks of a subscriber, through the allocation operations
                of their forwarders (forwarder.go)
>>

    ** Files

    - [Prelude]: record update, machine integers ([u16], [i32], ...), error
      results, the state and error monad [M], Go slices and indexing, tactics.
    - [RangeMap] (utils/rangemap.go): the offset of a sequence number as a
      list of ranges.  State: [RangeMap]; [ExcludeRange], [DecValue],
      [GetValue].  Specified by the function [lookup_ranges].
    - [RtpMunger] (rtpmunger.go): [UpdateAndGetSnTs], [PacketDropped],
      [UpdateAndGetPaddingSnTs], [UpdateSnTsOffsets], [FilterRTX]; the runs of
      a munger are event traces.
    - [Sequencer] (sequencer.go): a ring of [packetMeta]; [push],
      [pushPadding], [getExtPacketMetas], [lookupExtPacketMeta]; specified by
      the log of what was pushed.
    - [Vp8] (buffer/helpers.go): the VP8 payload descriptor.
    - [OrderedMap]: the interface of the third-party ordered map, a class of
      operations and one of laws, with an instance; [Vp8Munger]
      (codecmunger/vp8.go) is proved against the interface.
    - [DdTypes], [DdBits], [DdReader], [DdWriter]
      (rtpextension/dependencydescriptor): the AV1 dependency descriptor.
      [DdCodec] has the format as a bit string, the refinement of reader and
      writer to it and the round trip; [DdSafe] the reader on arbitrary bytes.
    - [DdParser] (buffer/dependencydescriptorparser.go): the parser of a
      stream and the decode targets of a structure; the unwrapping of numbers
      (third party) and [sort.Slice] are parameters, the latter with its
      documented law ([SortsTargets]).
    - [FrameIntegrity] (buffer/frameintegrity.go): which packets arrived and
      which frames are complete.
    - [Packet] (buffer/videolayer.go, buffer/buffer_base.go): layers, and the
      fields of a packet the modelled code reads.
    - [LayerSelectors] (videolayerselector/base.go, simulcast.go, vp9.go,
      temporallayerselector): the stateless selectors.
    - [DecisionCache] (videolayerselector/selectordecisioncache.go): two bits
      per frame in a ring and the callbacks that wait for them.
    - [FrameChain] (framechain.go, decodetarget.go, framenumberwrapper.go):
      chains are objects of a store; a callback of the cache is the reference
      of its chain, so that aliasing is as in the code.
    - [DdSelector] (videolayerselector/dependencydescriptor.go): [Select] and
      all it calls; [DdSelectorSpec] has its invariants and properties.
    - [Bitrates] (forwarder.go): rates per layer, the searches over them, the
      distance to the desired layer; [float64] and [float32] as specified
      floats.
    - [Forwarder] (forwarder.go): the state of a forwarder, codec selection,
      mutes, maximum layers, sender reports.
    - [Allocation] (forwarder.go): how a forwarder is given layers: optimal,
      provisional, cooperative, best weighted, next higher, pause.
      [AllocationSpec] has the invariant and what each of them promises.
    - [StreamAllocator] (streamallocator): the tracks of a subscriber and the
      handlers of the event queue, in a monad that stops at a panic; the order
      of map iteration and of [sort.Sort] on ties is a class ([GoOrder], with
      its laws).  [StreamAllocatorSpec] has the sums over tracks, the bound on
      what is allocated, termination and redistribution;
      [StreamAllocatorEvents] the queue as a state machine.
    - [Translation] (forwarder.go): the path of a packet through the
      forwarder, [GetTranslationParams] with the start and the switch of a
      source, resumption, the reference timestamp, selection and both
      mungers, and the padding and blank frames.  [TranslationSpec] has the
      numbering of what is sent, over every sequence of packets, mutes, layer
      changes and padding; [TranslationSafety] totality, the roll back of a
      failed switch and the granted blank frames; [TranslationExamples] runs
      and the findings.
    - [KeyFrames] (buffer/helpers.go): the key frame detectors of the video
      codecs and the size of a VP8 key frame; [H26x] (buffer/h26xhelper.go):
      the bit reader, the parsers of sequence parameter sets and the sizes
      they give.  [H26xSpec] has the bit strings the parsers read, the round
      trips and when the extraction panics; [H26xExamples] packets and the
      findings.
    - [StreamTracker] (streamtracker/streamtracker.go, streamtracker_packet.go,
      streamtracker_frame.go): whether a layer of a stream is active and its
      bit rate, over the class [StreamTrackerImpl] with its laws and its two
      instances; [System] is a tracker with its goroutines, [run] any
      interleaving of their steps.  [StreamTrackerDD] (streamtracker_dd.go):
      the tracker of all layers of a stream with dependency descriptors, over
      the descriptors that [DdParser] emits.
    - [Red] (redreceiver.go, redprimaryreceiver.go): redundant audio, both
      ways, with buffers in a heap; [RedSpec] has its theorems and findings.
    - [DataPacket] (pkg/rtc/datatrack): the packets of data tracks.
      [DataTracks] (pkg/rtc/datatrack.go, datadowntrack.go,
      updatatrackmanager.go, participant_data_track.go and
      utils/downtrackspreader.go): the data tracks of a participant, from a
      message of the publisher to what each subscriber is sent; the order of a
      Go map is a class with its law ([GoMaps]).
    - [Extensions] (rtpextension/playoutdelay, rtpextension/abscapturetime,
      packettrailer): small codecs.  [Deduper] (pkg/rtc/user_packet_deduper.go):
      the nonces of the last data packets, refining a window.

    Panics (nil, index out of range) are error values; a Go [error] is a value
    of the file's error type; a loop without a structural bound has a bound of
    rounds computed from its input, and the theorems show that it is enough
    (an exceeded bound is an error value as well, which is proved not to
    occur, as in [DdSafe]).

    ** What the theorems show

    - Numbering: in every run of the munger sequence numbers of new packets
      strictly increase, and while one source is followed no two packets, late
      ones included, share a number with each other or with padding; picture
      ids stay continuous across switches and filtering, where a picture that
      is filtered is filtered whole; the range map equals its reference
      lookup.
    - NACKs: a reply is what was sent under that number, at most a bounded
      number of times.
    - Wire formats: reader and writer refine the bit strings; the round trips;
      total and safe on arbitrary input.
    - Frames: a frame reported complete is, while the packets of a frame are in
      the window of the packet history when they arrive; the ring of decisions
      refines the map of decisions, while the newest frame does not jump over
      more than the ring has room for, and every callback fires exactly once.
    - Selection: switches happen at switching points; a frame forwarded by the
      dependency descriptor selector is linked through its chain to frames not
      dropped; dropping an expected frame breaks its chains; the pipeline from
      bytes to selection never panics; what is sent can be read back, where the
      mask fits the structure and the template chosen has the frame's layer.
    - Translation: over a whole run of a forwarder the numbers of what is
      sent strictly increase, across source switches, padding and blank
      frames, which are asked for when the next number directly follows; the
      packet after any number of filtered ones leaves no hole; the first packet
      of a new source follows the last one of the old; the run never panics, a
      switch that fails leaves the numbering as it was, and a reference
      timestamp is extended to the nearest value.
    - Allocation: no sequence of allocations, mutes and layer changes panics or
      leaves a layer out of range; what each allocation decides on every
      branch.  The tracks of a congested channel fit its capacity, are kept
      alive when their lowest layers fit, are boosted in finitely many steps
      within the capacity, and redistribution does not raise the total where
      pausing is allowed; no
      sequence of events makes a handler of the queue fail.
    - Payloads: the key frame detectors answer on every payload, and answer
      whether a parameter set (an AV1 key frame) is in the packet, fragments of
      H.265 apart; a written parameter set, without a scaling matrix and with
      its window inside the picture, gives the size it was written with; where the extraction of
      a size panics, and that the key frame check before it prevents that for
      H.264.
    - Stream trackers: however observers, callers, workers and callbacks
      interleave, the statuses chosen to be reported alternate and end with the
      current one, as do those reported where callbacks are made in the order
      of the choices, and a tracker that watches a stream has exactly one live
      worker; the hysteresis of the
      packet tracker and the sums over temporal layers; which descriptors end
      the process, and that otherwise the last status reported for a layer is
      its status where callbacks are made in order.
    - Redundant audio: over a channel that loses at most two packets in a row
      encoder and decoder deliver the stream whole, every packet under its own
      number and timestamp, and every one that arrives with its own bytes; the
      bytes of the recovered ones are right when each packet has a buffer of
      its own; the two parsers of a redundant payload agree.
    - Data tracks: in every reachable state a packet reaches the subscribers
      of the track with its handle, once, and no one else, and is parsed there
      as it was sent but for the handle; published handles and names are
      distinct; exactly which packets end the process.  The deduper refines
      the window of the last hundred nonces, the zero value apart.
    - Findings are shown by lemmas, and where that is exact by theorems, on
      inputs on which the code does not do what it means to.

    ** Bounds

    Extended numbers are [uint64]; the theorems ask that they stay below
    [2^62] or [2^63], which no stream reaches.  The ring theorems ask that a
    packet is within the ring of the newest one, or no further ahead than the
    ring leaves room for; the findings show what happens beyond.  A layer's
    rate is below [2^40] bits per second, a capacity below [2^62], and a
    subscriber has at most [2^20] tracks, so that sums stay within [int64].
    The boost loop of the allocator has the bound [boostFuel], two rounds more
    than twenty per track; every round but the last raises a target, which has
    at most twenty places.  The loops over the units of a payload have its
    length as fuel, since a round takes two bytes or more; that over the OBUs
    of a packet has five rounds, as the header counts at most three.  A stream
    tracker is run for fewer than 2^32 steps, the range of its generation.

    ** Not modelled

    Logging, locking and object pools; the rest of the buffer, the receiver,
    and the down track (streams of these operations with timers, RTCP and
    statistics around them); the wall clock and the clock rate of a codec,
    which are arguments of the translation; the bandwidth estimators and
    pacers, whose answers are arguments of the handlers that ask them; rooms,
    participants but for their data tracks, signalling, routing and services; the client and the web
    front end; generated fakes.  The manifest lists each
    with the reason.

    ** Plan

    What is left of the core, in order: the ingestion of a packet by the
    buffer with its RTP statistics, the mapping of layers to qualities, the
    frame rate estimation. *)

From Stdlib Require Export ZArith Lia Sorted.
From stdpp Require Export base numbers gmap.
From stdpp Require Export list.
Export list_basics.list.

#[global] Open Scope Z_scope.

(** ** Functional record update

    Go assigns struct fields one at a time.  A record type registers its
    eta-expansion once ([Eta]); [r <| f := v |>] then rebuilds the record with
    the field [f] replaced. *)

Class Eta (T : Type) := eta : T -> T.
Class FieldUpd {T A : Type} (p : T -> A) := field_upd : (A -> A) -> T -> T.
Arguments field_upd {T A} p {_} _ _ / : assert.

Ltac build_field_upd p :=
  lazymatch goal with
  | |- @FieldUpd ?T ?A _ =>
    let i := constr:(_ : Eta T) in
    let e := eval red in i in
    let e' := eval pattern p in e in
    lazymatch e' with
    | (fun _ => ?b) _ => fail "not a field"
    | ?g _ =>
      let u := eval cbv beta in (fun (f : A -> A) (r : T) => g (fun r' => f (p r')) r) in
      exact u
    end
  end.

#[global] Hint Extern 0 (FieldUpd ?p) => build_field_upd p : typeclass_instances.

Declare Scope go_scope.
Delimit Scope go_scope with go.
#[global] Open Scope go_scope.

Notation "r '<|' p ':=' v '|>'" := (field_upd p (fun _ => v) r)
  (at level 12, p at next level, left associativity,
   format "r  '<|'  p  ':='  v  '|>'") : go_scope.

(** ** Machine integers

    A Go integer of type [uintN] is a [Z] in [[0, 2^N)]; every arithmetic
    operation of the source is followed by [wrap].  A conversion [intN(x)] is
    the two's complement reading. *)

Inductive uint_type := U8 | U16 | U32 | U64.

Definition umod (t : uint_type) : Z :=
  match t with
  | U8 => 256
  | U16 => 65536
  | U32 => 4294967296
  | U64 => 18446744073709551616
  end.

Definition wrap (t : uint_type) (x : Z) : Z := x mod umod t.

Definition u8 (x : Z) : Z := x mod 256.
Definition u16 (x : Z) : Z := x mod 65536.
Definition u32 (x : Z) : Z := x mod 4294967296.
Definition u64 (x : Z) : Z := x mod 18446744073709551616.

Definition i8 (x : Z) : Z := (x + 128) mod 256 - 128.
Definition i16 (x : Z) : Z := (x + 32768) mod 65536 - 32768.
Definition i32 (x : Z) : Z := (x + 2147483648) mod 4294967296 - 2147483648.
Definition i64 (x : Z) : Z :=
  (x + 9223372036854775808) mod 18446744073709551616 - 9223372036854775808.

Definition in_uint (t : uint_type) (x : Z) : Prop := 0 <= x < umod t.

#[export] Instance uint_type_eq_dec : EqDecision uint_type.
Proof. solve_decision. Defined.

#[export] Instance in_uint_dec t x : Decision (in_uint t x).
Proof. unfold in_uint. apply _. Defined.

Create HintDb go_int.
#[export] Hint Unfold u8 u16 u32 u64 i8 i16 i32 i64 wrap in_uint : go_int.

(** [glia]: linear arithmetic over wrapped integers. *)
Ltac glia :=
  autounfold with go_int in *; cbn [umod] in *;
  Z.to_euclidean_division_equations; lia.

(** Linear arithmetic with division and remainder. *)
Ltac dlia := Z.to_euclidean_division_equations; lia.

Lemma umod_pos t : 0 < umod t.
Proof. destruct t; reflexivity. Qed.
#[export] Hint Resolve umod_pos : go_int.

Lemma umod_even t : umod t = 2 * (umod t / 2).
Proof. destruct t; reflexivity. Qed.

Lemma wrap_small t x : in_uint t x -> wrap t x = x.
Proof. apply Z.mod_small. Qed.

Lemma wrap_range t x : in_uint t (wrap t x).
Proof. apply Z.mod_pos_bound, umod_pos. Qed.
#[export] Hint Resolve wrap_range : go_int.

Lemma wrap_sub_neg t a b :
  in_uint t a -> in_uint t b -> a < b -> wrap t (a - b) = a - b + umod t.
Proof.
  unfold in_uint, wrap. intros Ha Hb Hlt.
  rewrite <- (Z.mod_small (a - b + umod t) (umod t)) by lia.
  rewrite <- (Z.mul_1_l (umod t)) at 2. now rewrite Z.mod_add by lia.
Qed.

Lemma u64_small x : 0 <= x < 18446744073709551616 -> u64 x = x.
Proof. apply Z.mod_small. Qed.
Lemma u32_small x : 0 <= x < 4294967296 -> u32 x = x.
Proof. apply Z.mod_small. Qed.
Lemma u16_small x : 0 <= x < 65536 -> u16 x = x.
Proof. apply Z.mod_small. Qed.
Lemma i32_small x : -2147483648 <= x < 2147483648 -> i32 x = x.
Proof. intros Hx. unfold i32. rewrite Z.mod_small by lia. lia. Qed.
Lemma u8_small x : 0 <= x < 256 -> u8 x = x.
Proof. apply Z.mod_small. Qed.

Lemma u64_range x : 0 <= u64 x < 18446744073709551616.
Proof. now apply Z.mod_pos_bound. Qed.
Lemma u32_range x : 0 <= u32 x < 4294967296.
Proof. now apply Z.mod_pos_bound. Qed.
Lemma u16_range x : 0 <= u16 x < 65536.
Proof. now apply Z.mod_pos_bound. Qed.
Lemma u8_range x : 0 <= u8 x < 256.
Proof. now apply Z.mod_pos_bound. Qed.
#[export] Hint Resolve u64_range u32_range u16_range u8_range : go_int.

(** Remainders of numbers closer than the modulus. *)
Lemma mod_zero_close a p : 0 < p -> -p < a < p -> (a mod p =? 0) = (a =? 0).
Proof.
  intros Hp Ha. destruct (Z.eqb_spec a 0) as [->|Hne]; [by rewrite Z.mod_0_l by lia|].
  apply Z.eqb_neq. destruct (Z.lt_ge_cases a 0); [|rewrite Z.mod_small; lia].
  rewrite <- (Z.mod_add a 1 p), Z.mod_small by lia. lia.
Qed.

Lemma mod_close_eq a b c : 0 < c -> - c < a - b < c -> a mod c = b mod c -> a = b.
Proof.
  intros Hc Hab E. assert ((a - b) mod c = 0) as H0.
  { rewrite Zminus_mod, E, Z.sub_diag. apply Z.mod_0_l. lia. }
  apply Z.eqb_eq in H0. rewrite mod_zero_close in H0 by lia. apply Z.eqb_eq in H0. lia.
Qed.

(** [x & 0xFF..F0..0]: the low [n] bits cleared. *)
Lemma land_high n x :
  0 <= n <= 64 -> 0 <= x < 2 ^ 64 -> Z.land x (2 ^ 64 - 2 ^ n) = x - x mod 2 ^ n.
Proof.
  intros Hn Hx.
  replace (x - x mod 2 ^ n) with (Z.shiftl (Z.shiftr x n) n)
    by (rewrite Z.shiftl_mul_pow2, Z.shiftr_div_pow2 by lia;
        pose proof (Z.div_mod x (2 ^ n)); lia).
  replace (2 ^ 64 - 2 ^ n) with (Z.shiftl (Z.ones (64 - n)) n)
    by (rewrite Z.shiftl_mul_pow2, Z.ones_equiv, <- Z.sub_1_r, Z.mul_sub_distr_r, <- Z.pow_add_r by lia;
        replace (64 - n + n) with 64 by lia; lia).
  apply Z.bits_inj'. intros i Hi. rewrite Z.land_spec, !Z.shiftl_spec by lia.
  destruct (Z.lt_ge_cases i n) as [Hlt|Hge].
  - rewrite !(Z.testbit_neg_r _ (i - n)) by lia. apply andb_false_r.
  - rewrite Z.shiftr_spec by lia. replace (i - n + n) with i by lia.
    destruct (Z.lt_ge_cases i 64) as [H64|H64].
    + rewrite Z.ones_spec_low by lia. apply andb_true_r.
    + replace (Z.testbit x i) with false; [done|]. symmetry.
      destruct (decide (x = 0)) as [->|Hne]; [apply Z.bits_0|].
      apply Z.bits_above_log2; [lia|]. apply (Z.log2_lt_pow2 x i); [lia|].
      apply (Z.lt_le_trans _ (2 ^ 64)); [lia|]. apply Z.pow_le_mono_r; lia.
Qed.

(** [a << n | b] for a [b] of [n] bits. *)
Lemma lor_disjoint a b n : 0 <= n -> 0 <= b < 2 ^ n -> Z.lor (a * 2 ^ n) b = a * 2 ^ n + b.
Proof.
  intros Hn Hb. rewrite <- Z.shiftl_mul_pow2 by lia. symmetry. apply Z.add_nocarry_lor.
  apply Z.bits_inj'. intros i Hi. rewrite Z.land_spec, Z.bits_0.
  destruct (Z.lt_ge_cases i n) as [Hlt|Hge]; [by rewrite Z.shiftl_spec_low|].
  assert (Z.testbit b i = false) as ->; [|apply andb_false_r].
  destruct (Z.eq_dec b 0) as [->|]; [apply Z.bits_0|]. apply Z.bits_above_log2; [lia|].
  apply (Z.lt_le_trans _ n); [|done]. apply Z.log2_lt_pow2; lia.
Qed.

(** ** Fallible operations

    A Go function that returns [(T, error)] and whose value is not used on the
    error path returns [res E T]. *)

Inductive res (E A : Type) : Type :=
| Ok (a : A)
| Err (e : E).
Arguments Ok {E A} a.
Arguments Err {E A} e.

Definition res_bind {E A B : Type} (m : res E A) (k : A -> res E B) : res E B :=
  match m with
  | Ok a => k a
  | Err e => Err e
  end.

Notation "'let!' x ':=' m 'in' k" := (res_bind m (fun x => k))
  (at level 10, x pattern, m at level 100, k at level 200,
   format "'[v' 'let!'  x  ':='  m  'in' '/' k ']'") : go_scope.

Lemma Ok_inj {E A} (a b : A) : Ok a = (Ok b : res E A) -> a = b.
Proof. by intros [= ->]. Qed.

Lemma res_bind_Ok {E A B : Type} (m : res E A) (k : A -> res E B) b :
  res_bind m k = Ok b <-> exists a, m = Ok a /\ k a = Ok b.
Proof. destruct m; cbn; naive_solver. Qed.

(** ** State and errors

    A method that mutates its receiver and returns [(T, error)]: the state is
    kept on the error path too. *)
Definition M (S E A : Type) : Type := S -> S * res E A.

Definition mret {S E A : Type} (a : A) : M S E A := fun s => (s, Ok a).
Definition mfail {S E A : Type} (e : E) : M S E A := fun s => (s, Err e).
Definition mbind {S E A B : Type} (m : M S E A) (k : A -> M S E B) : M S E B :=
  fun s => match m s with
           | (s, Ok a) => k a s
           | (s, Err e) => (s, Err e)
           end.
Definition mget {S E : Type} : M S E S := fun s => (s, Ok s).
Definition mmodify {S E : Type} (f : S -> S) : M S E unit := fun s => (f s, Ok tt).
(** [if !c { return err }] *)
Definition mcheck {S E : Type} (c : bool) (e : E) : M S E unit := if c then mret tt else mfail e.

Notation "'let*' x ':=' m 'in' k" := (mbind m (fun x => k))
  (at level 10, x pattern, m at level 100, k at level 200,
   format "'[v' 'let*'  x  ':='  m  'in' '/' k ']'") : go_scope.
Notation "m ;;* k" := (mbind m (fun _ => k))
  (at level 100, right associativity, format "'[v' m  ;;* '/' k ']'") : go_scope.

Lemma mbind_Ok {S E A B : Type} (m : M S E A) (k : A -> M S E B) s s' b :
  mbind m k s = (s', Ok b) <-> exists s1 a, m s = (s1, Ok a) /\ k a s1 = (s', Ok b).
Proof.
  unfold mbind. destruct (m s) as [s1 [a|e]]; [|naive_solver].
  split; [eauto|]. by intros (? & ? & [= <- <-] & ?).
Qed.

Lemma mbind_eq {S E A B : Type} (m : M S E A) (k : A -> M S E B) s s1 a :
  m s = (s1, Ok a) -> mbind m k s = k a s1.
Proof. unfold mbind. by intros ->. Qed.

Lemma mbind_assoc {S E A B C : Type} (m : M S E A) (k : A -> M S E B) (h : B -> M S E C) s :
  mbind (mbind m k) h s = mbind m (fun x => mbind (k x) h) s.
Proof. unfold mbind. by destruct (m s) as [? []]. Qed.

(** [for _, x := range l { if err := f(x); err != nil { return err } }] *)
Fixpoint mforeach {S E A : Type} (f : A -> M S E unit) (l : list A) : M S E unit :=
  match l with
  | [] => mret tt
  | x :: l => f x ;;* mforeach f l
  end.

(** The same loop collecting a result per element. *)
Fixpoint mmap {S E A B : Type} (f : A -> M S E B) (l : list A) : M S E (list B) :=
  match l with
  | [] => mret []
  | x :: l => let* y := f x in let* ys := mmap f l in mret (y :: ys)
  end.

(** The same loop with an accumulator. *)
Fixpoint mfoldl {S E A B : Type} (f : B -> A -> M S E B) (b : B) (l : list A) : M S E B :=
  match l with
  | [] => mret b
  | x :: l => let* b := f b x in mfoldl f b l
  end.

(** ** Slices *)

(** [l[i]] for a [Z] index; [None] where Go panics. *)
Definition zlookup {A : Type} (l : list A) (i : Z) : option A :=
  if 0 <=? i then l !! Z.to_nat i else None.

Definition zlen {A : Type} (l : list A) : Z := Z.of_nat (length l).

(** [l[from:]] and [l[:to]] *)
Definition zdrop {A : Type} (n : Z) (l : list A) : list A := drop (Z.to_nat n) l.
Definition ztake {A : Type} (n : Z) (l : list A) : list A := take (Z.to_nat n) l.

(** [l[i] = x] *)
Definition zset {A : Type} (i : Z) (x : A) (l : list A) : list A :=
  <[Z.to_nat i := x]> l.

Lemma zlen_nonneg {A : Type} (l : list A) : 0 <= zlen l.
Proof. unfold zlen. lia. Qed.
#[export] Hint Resolve zlen_nonneg : go_int.

Lemma zlen_app {A : Type} (l k : list A) : zlen (l ++ k) = zlen l + zlen k.
Proof. unfold zlen. rewrite length_app. lia. Qed.

Lemma zlen_zset {A : Type} i (x : A) l : zlen (zset i x l) = zlen l.
Proof. unfold zlen, zset. now rewrite length_insert. Qed.

Lemma zlookup_zset_eq {A : Type} i (x : A) l :
  0 <= i < zlen l -> zlookup (zset i x l) i = Some x.
Proof.
  unfold zlookup, zset, zlen. intros H.
  rewrite (proj2 (Z.leb_le 0 i)) by lia. apply list_lookup_insert_eq. lia.
Qed.

Lemma zlookup_zset_ne {A : Type} i j (x : A) l :
  0 <= i -> i <> j -> zlookup (zset i x l) j = zlookup l j.
Proof.
  unfold zlookup, zset. intros Hi Hne.
  destruct (Z.leb_spec 0 j); [|done]. apply list_lookup_insert_ne. lia.
Qed.

Lemma zlookup_Some {A} (l : list A) i x :
  zlookup l i = Some x -> 0 <= i < zlen l /\ l !! Z.to_nat i = Some x.
Proof.
  unfold zlookup, zlen. destruct (Z.leb_spec 0 i); [|done]. intros Hx. pose proof (lookup_lt_Some _ _ _ Hx).
  split; [lia|done].
Qed.

Lemma zlookup_lt {A} (l : list A) i : 0 <= i < zlen l -> exists x, zlookup l i = Some x.
Proof.
  intros Hi. unfold zlookup, zlen in *. rewrite (proj2 (Z.leb_le _ _)) by lia.
  apply lookup_lt_is_Some_2. lia.
Qed.

(** [buf[i] = x]; [e] stands for the run-time panic of an index out of range. *)
Definition store {E A : Type} (e : E) (buf : list A) (i : Z) (x : A) : res E (list A) :=
  if (0 <=? i) && (i <? zlen buf) then Ok (zset i x buf) else Err e.

(** [buf[i]] *)
Definition load {E A : Type} (e : E) (buf : list A) (i : Z) : res E A :=
  match zlookup buf i with Some x => Ok x | None => Err e end.

Definition byte (x : Z) : Prop := 0 <= x < 256.
Definition bytes (l : list Z) : Prop := Forall byte l.

(** ** Big-endian numbers

    [encoding/binary]: [Uint32], [PutUint16] and [PutUint32]. *)

Definition be32 (b0 b1 b2 b3 : Z) : Z :=
  Z.lor (Z.lor (Z.lor b3 (Z.shiftl b2 8)) (Z.shiftl b1 16)) (Z.shiftl b0 24).

Definition bytes16 (x : Z) : list Z := [u8 (Z.shiftr x 8); u8 x].

Definition bytes32 (x : Z) : list Z :=
  [u8 (Z.shiftr x 24); u8 (Z.shiftr x 16); u8 (Z.shiftr x 8); u8 x].

Lemma land_mask x n : 0 <= n -> Z.land x (2 ^ n - 1) = x mod 2 ^ n.
Proof. intros Hn. rewrite <- Z.land_ones by done. f_equal. rewrite Z.ones_equiv. lia. Qed.

Lemma be32_eq b0 b1 b2 b3 : byte b0 -> byte b1 -> byte b2 -> byte b3 ->
  be32 b0 b1 b2 b3 = b0 * 16777216 + b1 * 65536 + b2 * 256 + b3.
Proof.
  unfold byte, be32. intros H0 H1 H2 H3. rewrite !Z.shiftl_mul_pow2 by lia.
  rewrite (Z.lor_comm b3), (lor_disjoint b2 b3 8) by lia.
  rewrite (Z.lor_comm (b2 * 2 ^ 8 + b3)), (lor_disjoint b1 (b2 * 2 ^ 8 + b3) 16) by lia.
  rewrite (Z.lor_comm (b1 * 2 ^ 16 + (b2 * 2 ^ 8 + b3))), (lor_disjoint b0 (b1 * 2 ^ 16 + (b2 * 2 ^ 8 + b3)) 24) by lia. lia.
Qed.

Lemma bytes32_eq x : bytes32 x = [x / 16777216 mod 256; x / 65536 mod 256; x / 256 mod 256; x mod 256].
Proof. unfold bytes32, u8. by rewrite !Z.shiftr_div_pow2 by lia. Qed.

Lemma bytes16_eq x : bytes16 x = [x / 256 mod 256; x mod 256].
Proof. unfold bytes16, u8. by rewrite !Z.shiftr_div_pow2 by lia. Qed.

Lemma byte_mod x : byte (x mod 256).
Proof. unfold byte. pose proof (Z.mod_pos_bound x 256 eq_refl). lia. Qed.

(** A nil-able Go slice, and its elements as seen by [len] and [range]. *)
Definition slice (A : Type) : Type := option (list A).
Definition elems {A : Type} (s : slice A) : list A := default [] s.

Lemma triple_eta {A B C : Type} (x : A * B * C) : x = (fst (fst x), snd (fst x), snd x).
Proof. by destruct x as [[? ?] ?]. Qed.

(** ** Counted loops

    [for s := lo; s <= hi; s++] visits [zrange lo hi]; [for s := hi; s >= 0;
    s--] visits [zdown hi].  [res_find f l] is a loop over [l] that returns at
    the first element on which [f] does. *)

Definition zrange (lo hi : Z) : list Z := map (fun k => lo + Z.of_nat k) (seq 0 (Z.to_nat (hi - lo + 1))).
Definition zdown (hi : Z) : list Z := rev (zrange 0 hi).

Fixpoint res_find {E A B : Type} (f : A -> res E (option B)) (l : list A) : res E (option B) :=
  match l with
  | [] => Ok None
  | x :: l =>
    match f x with
    | Err e => Err e
    | Ok (Some b) => Ok (Some b)
    | Ok None => res_find f l
    end
  end.

Lemma elem_of_zrange lo hi x : x ∈ zrange lo hi <-> lo <= x <= hi.
Proof.
  unfold zrange. rewrite list_elem_of_In, in_map_iff. split.
  - intros (k & <- & Hk). apply in_seq in Hk. lia.
  - intros Hx. exists (Z.to_nat (x - lo)). rewrite in_seq. lia.
Qed.

Lemma elem_of_zdown hi x : x ∈ zdown hi <-> 0 <= x <= hi.
Proof. unfold zdown. rewrite list_elem_of_In, <- in_rev, <- list_elem_of_In. apply elem_of_zrange. Qed.

Lemma res_find_None {E A B} (f : A -> res E (option B)) l :
  res_find f l = Ok None <-> Forall (fun x => f x = Ok None) l.
Proof.
  induction l as [|x l IH]; cbn; [done|]. rewrite Forall_cons.
  destruct (f x) as [[b|]|e]; [by split; [|intros [? _]]|by rewrite IH; tauto|by split; [|intros [? _]]].
Qed.

Lemma res_find_Some {E A B} (f : A -> res E (option B)) l b :
  res_find f l = Ok (Some b) <->
  exists l1 x l2, l = l1 ++ x :: l2 /\ Forall (fun x => f x = Ok None) l1 /\ f x = Ok (Some b).
Proof.
  induction l as [|x l IH]; cbn.
  { split; [done|]. by intros ([|??] & x & l2 & ? & _). }
  split.
  - destruct (f x) as [[b'|]|e] eqn:Ex; [|rewrite IH|done].
    + intros [= ->]. by exists [], x, l.
    + intros (l1 & y & l2 & -> & H1 & H2). exists (x :: l1), y, l2. split_and!; [done|by constructor|done].
  - intros ([|x' l1] & y & l2 & Hl & H1 & H2); injection Hl as -> ->; [by rewrite H2|].
    apply Forall_cons in H1 as [-> H1]. apply IH. by exists l1, y, l2.
Qed.

Lemma res_find_ok {E A B} (f : A -> res E (option B)) l :
  Forall (fun x => exists o, f x = Ok o) l -> exists o, res_find f l = Ok o.
Proof.
  induction 1 as [|x l (o & Hx) _ IH]; cbn; [by eexists|]. rewrite Hx. destruct o; [by eexists|done].
Qed.

(** ** Finite checks *)

Definition zseq (n : nat) : list Z := map Z.of_nat (seq 0 n).

Lemma zseq_all (n : nat) (p : Z -> bool) :
  forallb p (zseq n) = true -> forall z, 0 <= z < Z.of_nat n -> p z = true.
Proof.
  intros H z Hz. rewrite forallb_forall in H. apply H. unfold zseq.
  apply in_map_iff. exists (Z.to_nat z). split; [lia|]. apply in_seq. lia.
Qed.

(** ** Tactics *)

(** Case analysis on the condition of the [if] or [match] that blocks the
    goal (or a hypothesis), turning boolean comparisons into propositions. *)
Ltac case_if :=
  match goal with
  | |- context [if ?b then _ else _] =>
    lazymatch b with context [if _ then _ else _] => fail | _ => idtac end;
    let E := fresh "E" in destruct b eqn:E
  end.

Ltac case_if_in H :=
  match type of H with
  | context [if ?b then _ else _] =>
    lazymatch b with context [if _ then _ else _] => fail | _ => idtac end;
    let E := fresh "E" in destruct b eqn:E
  end.

(** Boolean hypotheses into arithmetic ones. *)
Ltac bool_prop :=
  repeat match goal with
  | H : andb _ _ = true |- _ => apply andb_true_iff in H as [? ?]
  | H : orb _ _ = false |- _ => apply orb_false_iff in H as [? ?]
  | H : negb _ = true |- _ => apply negb_true_iff in H
  | H : negb _ = false |- _ => apply negb_false_iff in H
  | H : (_ =? _)%Z = true |- _ => apply Z.eqb_eq in H
  | H : (_ =? _)%Z = false |- _ => apply Z.eqb_neq in H
  | H : (_ <? _)%Z = true |- _ => apply Z.ltb_lt in H
  | H : (_ <? _)%Z = false |- _ => apply Z.ltb_ge in H
  | H : (_ <=? _)%Z = true |- _ => apply Z.leb_le in H
  | H : (_ <=? _)%Z = false |- _ => apply Z.leb_gt in H
  | H : (_ >? _)%Z = _ |- _ => rewrite Z.gtb_ltb in H
  | H : (_ >=? _)%Z = _ |- _ => rewrite Z.geb_leb in H
  end.
