(* ===== verification/RangeMap.v ===== *)
(** * RangeMap: run-length map from extended sequence numbers to offsets

    Models [src/SERVER/pkg/sfu/utils/rangemap.go].  A [RangeMap] keeps a list
    of closed ranges followed by one open range; [ExcludeRange] leaves holes
    between ranges, [DecValue] splits without a hole, and [GetValue] searches
    backwards with wrap-around comparisons.  The reference semantics is
    [lookup_ranges], a forward search with plain comparisons. *)

From S2P Require Import Prelude.

(** ** Data *)

Inductive rangemap_error :=
| errReversedOrder
| errKeyNotFound
| errKeyTooOld
| errKeyExcluded.

#[export] Instance rangemap_error_eq_dec : EqDecision rangemap_error.
Proof. solve_decision. Defined.

Definition minRanges : Z := 1.

Record rangeVal := mkRangeVal {
  start : Z;
  end_ : Z;
  value : Z;
}.
#[export] Instance eta_rangeVal : Eta rangeVal :=
  fun r => mkRangeVal (start r) (end_ r) (value r).

Record RangeMap := mkRangeMap {
  halfRange : Z;
  size : Z;
  ranges : list rangeVal;
}.
#[export] Instance eta_RangeMap : Eta RangeMap :=
  fun r => mkRangeMap (halfRange r) (size r) (ranges r).

(** [&r.ranges[len(r.ranges)-1]] written through *)
Definition replace_last (x : rangeVal) (l : list rangeVal) : list rangeVal :=
  removelast l ++ [x].

(** ** Operations

    [RT] and [VT] are the type parameters of the Go type. *)
Section Operations.
Context (RT VT : uint_type).

Definition initRanges (start0 val : Z) (r : RangeMap) : RangeMap :=
  r <| ranges := [mkRangeVal start0 0 val] |>.

Definition NewRangeMap (size0 : Z) : RangeMap :=
  initRanges 0 0 (mkRangeMap (umod RT / 2) (Z.max size0 minRanges) []).

Definition ClearAndResetValue (start0 val : Z) (r : RangeMap) : RangeMap :=
  initRanges start0 val r.

Definition prune (r : RangeMap) : RangeMap :=
  if zlen (ranges r) >? size r + 1 then
    r <| ranges := zdrop (zlen (ranges r) - size r - 1) (ranges r) |>
  else r.

(** On an empty [ranges] the Go code panics; [wf] excludes it. *)
Definition DecValue (end0 dec : Z) (r : RangeMap) : RangeMap :=
  match last (ranges r) with
  | None => r
  | Some lr =>
    if start lr >? end0 then
      r <| ranges := replace_last (lr <| value := wrap VT (value lr - dec) |>) (ranges r) |>
    else
      prune (r <| ranges :=
        replace_last (lr <| end_ := end0 |>) (ranges r) ++
        [mkRangeVal (wrap RT (end0 + 1)) 0 (wrap VT (value lr - dec))] |>)
  end.

Definition ExcludeRange (startInclusive endExclusive : Z) (r : RangeMap)
  : RangeMap * option rangemap_error :=
  if (endExclusive =? startInclusive)
     || (wrap RT (endExclusive - startInclusive) >? halfRange r) then
    (r, Some errReversedOrder)
  else
    match last (ranges r) with
    | None => (r, None)
    | Some lr =>
      if start lr >? startInclusive then (r, Some errReversedOrder)
      else
        let newValue :=
          wrap VT (value lr + wrap VT (wrap RT (endExclusive - startInclusive))) in
        if start lr =? startInclusive then
          (r <| ranges :=
             replace_last (lr <| start := endExclusive |> <| value := newValue |>) (ranges r) |>,
           None)
        else
          (prune (r <| ranges :=
             replace_last (lr <| end_ := wrap RT (startInclusive - 1) |>) (ranges r) ++
             [mkRangeVal endExclusive 0 newValue] |>),
           None)
    end.

(** The [for idx := numRanges - 1; idx >= 0; idx--] loop; [idx] counts the
    ranges still to be visited. *)
Fixpoint GetValue_loop (r : RangeMap) (key : Z) (idx : nat) : Z * option rangemap_error :=
  match idx with
  | O => (0, Some errKeyNotFound)
  | S i =>
    match ranges r !! i with
    | None => (0, Some errKeyNotFound)
    | Some rv =>
      if negb (Z.of_nat i =? zlen (ranges r) - 1)
         && (wrap RT (key - start rv) <? halfRange r)
         && (wrap RT (end_ rv - key) <? halfRange r) then
        (value rv, None)
      else
        match i with
        | O => GetValue_loop r key i
        | S p =>
          match ranges r !! p with
          | None => GetValue_loop r key i
          | Some rvPrev =>
            let beforeDiff := wrap RT (key - end_ rvPrev) in
            let afterDiff := wrap RT (start rv - key) in
            if (beforeDiff >? 0) && (beforeDiff <? halfRange r)
               && (afterDiff >? 0) && (afterDiff <? halfRange r) then
              (0, Some errKeyExcluded)
            else GetValue_loop r key i
          end
        end
    end
  end.

Definition GetValue (r : RangeMap) (key : Z) : Z * option rangemap_error :=
  match last (ranges r), head (ranges r) with
  | Some lr, Some fr =>
    if key >=? start lr then (value lr, None)
    else if key <? start fr then (0, Some errKeyTooOld)
    else GetValue_loop r key (length (ranges r))
  | _, _ => GetValue_loop r key (length (ranges r))
  end.
End Operations.

(** ** Well-formedness and the reference semantics *)

(** Ranges are non-empty, ordered and disjoint; the last one is open. *)
Fixpoint wf_ranges (l : list rangeVal) : Prop :=
  match l with
  | [] => False
  | [o] => 0 <= start o
  | rv :: ((nx :: _) as t) => 0 <= start rv <= end_ rv /\ end_ rv < start nx /\ wf_ranges t
  end.

Definition wf (RT : uint_type) (r : RangeMap) : Prop :=
  halfRange r = umod RT / 2 /\ minRanges <= size r /\
  zlen (ranges r) <= size r + 1 /\ wf_ranges (ranges r) /\
  forall lr, last (ranges r) = Some lr -> start lr <= halfRange r.

Fixpoint find_range (l : list rangeVal) (key : Z) : Z * option rangemap_error :=
  match l with
  | [] => (0, Some errKeyNotFound)
  | [o] => if start o <=? key then (value o, None) else (0, Some errKeyExcluded)
  | rv :: t =>
    if key <=? end_ rv then
      if start rv <=? key then (value rv, None) else (0, Some errKeyExcluded)
    else find_range t key
  end.

Definition lookup_ranges (l : list rangeVal) (key : Z) : Z * option rangemap_error :=
  match l with
  | [] => (0, Some errKeyNotFound)
  | fr :: _ => if key <? start fr then (0, Some errKeyTooOld) else find_range l key
  end.

(** ** Lemmas on well-formed range lists *)

Lemma wf_ranges_cons rv l :
  l <> [] -> wf_ranges (rv :: l) <->
  0 <= start rv <= end_ rv /\ (forall nx, head l = Some nx -> end_ rv < start nx) /\ wf_ranges l.
Proof. destruct l as [|nx t]; cbn; [done|]. naive_solver. Qed.

Lemma wf_ranges_nonempty l : wf_ranges l -> l <> [].
Proof. now destruct l. Qed.



(** Consecutive ranges, by index. *)
Lemma wf_ranges_step l i a b :
  wf_ranges l -> l !! i = Some a -> l !! S i = Some b ->
  0 <= start a <= end_ a /\ end_ a < start b.
Proof.
  revert i. induction l as [|x l IH]; intros i Hwf Ha Hb; [done|].
  destruct l as [|y t]; [by destruct i|].
  destruct i as [|i]; cbn in Ha, Hb; [naive_solver|].
  eapply (IH i); [apply Hwf|done|done].
Qed.

Lemma last_lookup_length {A} (l : list A) : last l = l !! (length l - 1)%nat.
Proof. rewrite last_lookup. f_equal. lia. Qed.

(** Ranges are ordered. *)
Lemma wf_ranges_mono l i j a b :
  wf_ranges l -> l !! i = Some a -> l !! j = Some b -> (i < j)%nat ->
  0 <= start a <= end_ a /\ end_ a < start b.
Proof.
  intros Hwf Ha. revert b. induction j as [|j IH]; intros b Hb Hij; [lia|].
  destruct (decide (i = j)) as [->|]; [eauto using wf_ranges_step|].
  destruct (l !! j) as [c|] eqn:Hc.
  - destruct (IH c eq_refl) as [? ?]; [lia|].
    destruct (wf_ranges_step l j c b Hwf Hc Hb). lia.
  - apply lookup_ge_None in Hc. apply lookup_lt_Some in Hb. lia.
Qed.

Lemma wf_ranges_start_le l i j a b :
  wf_ranges l -> l !! i = Some a -> l !! j = Some b -> (i <= j)%nat -> start a <= start b.
Proof.
  intros Hwf Ha Hb Hij. destruct (decide (i = j)) as [->|]; [by simplify_eq|].
  destruct (wf_ranges_mono l i j a b Hwf Ha Hb); lia.
Qed.

Lemma find_range_cons x y t key :
  find_range (x :: y :: t) key =
  if key <=? end_ x then if start x <=? key then (value x, None) else (0, Some errKeyExcluded)
  else find_range (y :: t) key.
Proof. reflexivity. Qed.

(** A key inside the [i]-th range (open when it is the last) has its value. *)
Lemma find_range_hit l i rv key :
  wf_ranges l -> l !! i = Some rv -> start rv <= key ->
  (S i = length l \/ key <= end_ rv) -> find_range l key = (value rv, None).
Proof.
  revert i. induction l as [|x l IH]; intros i Hwf Hi Hs He; [done|].
  destruct l as [|y t].
  - destruct i; [|done]. cbn in *. simplify_eq. now rewrite (proj2 (Z.leb_le _ _) Hs).
  - rewrite find_range_cons. destruct i as [|i].
    + cbn in Hi. simplify_eq. destruct He as [He|He]; [cbn in He; lia|].
      now rewrite (proj2 (Z.leb_le _ _) He), (proj2 (Z.leb_le _ _) Hs).
    + destruct (wf_ranges_mono _ 0 (S i) x rv Hwf eq_refl Hi) as [_ ?]; [lia|].
      rewrite (proj2 (Z.leb_gt _ _)) by lia.
      apply (IH i); [apply Hwf|done..|]. destruct He as [He|He]; [left; cbn in *; lia|by right].
Qed.

Lemma find_range_found l key : wf_ranges l -> snd (find_range l key) <> Some errKeyNotFound.
Proof.
  induction l as [|x [|y t] IH]; intros Hwf; [done| |].
  - cbn. by case_if.
  - rewrite find_range_cons. repeat case_if; try done. apply IH, Hwf.
Qed.

(** A key strictly between two consecutive ranges is excluded. *)
Lemma find_range_gap l i a b key :
  wf_ranges l -> l !! i = Some a -> l !! S i = Some b -> end_ a < key -> key < start b ->
  find_range l key = (0, Some errKeyExcluded).
Proof.
  revert i. induction l as [|x l IH]; intros i Hwf Ha Hb H1 H2; [done|].
  destruct l as [|y t]; [by destruct i|]. rewrite find_range_cons.
  destruct i as [|i].
  - cbn in Ha, Hb. simplify_eq. rewrite (proj2 (Z.leb_gt _ _)) by lia.
    destruct t as [|z t]; cbn; [now rewrite (proj2 (Z.leb_gt _ _)) by lia|].
    destruct (wf_ranges_step _ 1 b z Hwf eq_refl eq_refl) as [? _].
    now rewrite (proj2 (Z.leb_le key _)), (proj2 (Z.leb_gt _ _)) by lia.
  - destruct (wf_ranges_mono _ 0 (S i) x a Hwf eq_refl Ha) as [_ ?]; [lia|].
    destruct (wf_ranges_step _ _ a b Hwf Ha Hb) as [? _].
    rewrite (proj2 (Z.leb_gt _ _)) by lia. eapply (IH i); eauto. apply Hwf.
Qed.

Lemma wf_ranges_drop n l : wf_ranges l -> (n < length l)%nat -> wf_ranges (drop n l).
Proof.
  revert n. induction l as [|rv l IH]; intros [|n] Hwf Hlen; try done.
  destruct l as [|nx t]; [simpl in Hlen; lia|].
  apply IH; [apply Hwf|simpl in Hlen |- *; lia].
Qed.


(** ** [GetValue] is the reference lookup *)

Section GetValue.
Context (RT : uint_type).

Definition half : Z := umod RT / 2.

(** The wrap-around test of the code decides membership. *)
Lemma in_window key a b :
  in_uint RT key -> 0 <= a <= b -> b <= half ->
  (wrap RT (key - a) <? half) && (wrap RT (b - key) <? half) = true ->
  a <= key <= b.
Proof.
  unfold half. intros Hk Hab Hb. pose proof (umod_even RT) as Hev.
  pose proof (umod_pos RT).
  destruct (Z.lt_ge_cases key a) as [Hka|Hka].
  - rewrite (wrap_sub_neg RT key a) by (unfold in_uint in *; lia).
    intros [? ?]%andb_true_iff. bool_prop. unfold in_uint in Hk. lia.
  - destruct (Z.lt_ge_cases b key) as [Hbk|Hbk]; [|lia].
    rewrite (wrap_small RT (key - a)) by (unfold in_uint in *; lia).
    rewrite (wrap_sub_neg RT b key) by (unfold in_uint in *; lia).
    intros [? ?]%andb_true_iff. bool_prop. unfold in_uint in Hk. lia.
Qed.

Lemma in_window_complete key a b :
  0 <= a <= key -> key <= b -> b < half ->
  (wrap RT (key - a) <? half) && (wrap RT (b - key) <? half) = true.
Proof.
  unfold half. intros Ha Hb Hh. pose proof (umod_even RT). pose proof (umod_pos RT).
  rewrite !wrap_small by (unfold in_uint; lia).
  apply andb_true_iff. split; apply Z.ltb_lt; lia.
Qed.

Lemma GetValue_loop_S r key p :
  GetValue_loop RT r key (S (S p)) =
  match ranges r !! S p with
  | None => (0, Some errKeyNotFound)
  | Some rv =>
    if negb (Z.of_nat (S p) =? zlen (ranges r) - 1)
       && (wrap RT (key - start rv) <? halfRange r)
       && (wrap RT (end_ rv - key) <? halfRange r) then
      (value rv, None)
    else
      match ranges r !! p with
      | None => GetValue_loop RT r key (S p)
      | Some rvPrev =>
        if (wrap RT (key - end_ rvPrev) >? 0) && (wrap RT (key - end_ rvPrev) <? halfRange r)
           && (wrap RT (start rv - key) >? 0) && (wrap RT (start rv - key) <? halfRange r) then
          (0, Some errKeyExcluded)
        else GetValue_loop RT r key (S p)
      end
  end.
Proof. reflexivity. Qed.

Lemma GetValue_loop_find r key i :
  wf RT r -> in_uint RT key ->
  (i < length (ranges r))%nat ->
  (forall fr, head (ranges r) = Some fr -> start fr <= key) ->
  (forall rv, ranges r !! i = Some rv ->
     if decide (S i = length (ranges r)) then key < start rv else key <= end_ rv) ->
  GetValue_loop RT r key (S i) = find_range (ranges r) key.
Proof.
  intros (Hhalf & Hsz & Hlen & Hwf & Hlast) Hkey Hi Hfirst.
  assert (Hbound : forall j a b, ranges r !! j = Some a -> ranges r !! S j = Some b ->
            0 <= start a <= end_ a /\ end_ a < start b /\ start b <= half).
  { intros j a b Ha Hb. destruct (wf_ranges_step _ j a b Hwf Ha Hb) as [? ?].
    destruct (last (ranges r)) as [lr|] eqn:El;
      [|apply last_None in El; rewrite El in Ha; done].
    specialize (Hlast lr eq_refl). rewrite last_lookup_length in El.
    pose proof (lookup_lt_Some _ _ _ Hb).
    pose proof (wf_ranges_start_le _ (S j) _ b lr Hwf Hb El). unfold half. lia. }
  induction i as [|p IH]; intros Hnot.
  - cbn. destruct (ranges r !! 0%nat) as [rv|] eqn:E0;
      [|apply lookup_ge_None in E0; lia].
    specialize (Hnot rv eq_refl).
    assert (start rv <= key) by (apply Hfirst; now rewrite head_lookup).
    case_decide as Hd; [lia|].
    destruct (ranges r !! 1%nat) as [nx|] eqn:E1; [|apply lookup_ge_None in E1; lia].
    destruct (Hbound 0%nat rv nx E0 E1) as (? & ? & ?).
    rewrite <- andb_assoc, Hhalf. fold half.
    rewrite in_window_complete, andb_true_r by lia.
    unfold zlen. rewrite (proj2 (Z.eqb_neq 0 _)) by lia. cbn.
    symmetry. apply (find_range_hit _ 0); auto.
  - rewrite GetValue_loop_S. revert IH.
    generalize (GetValue_loop RT r key (S p)) as rest. intros rest IH.
    destruct (ranges r !! S p) as [rv|] eqn:Erv; [|apply lookup_ge_None in Erv; lia].
    destruct (ranges r !! p) as [pv|] eqn:Epv; [|apply lookup_ge_None in Epv; lia].
    specialize (Hnot rv eq_refl).
    destruct (Hbound p pv rv Epv Erv) as (? & ? & ?).
    rewrite <- andb_assoc, Hhalf. fold half.
    destruct (Z.lt_ge_cases key (start rv)) as [Hks|Hks].
    + assert (negb (Z.of_nat (S p) =? zlen (ranges r) - 1)
              && ((wrap RT (key - start rv) <? half) && (wrap RT (end_ rv - key) <? half)) = false) as ->.
      { apply not_true_iff_false. intros [Hn Hw]%andb_true_iff.
        apply negb_true_iff, Z.eqb_neq in Hn. unfold zlen in Hn.
        destruct (ranges r !! S (S p)) as [nx|] eqn:Enx; [|apply lookup_ge_None in Enx; lia].
        destruct (Hbound (S p) rv nx Erv Enx) as (? & ? & ?).
        apply in_window in Hw; [|done|lia..]. lia. }
      pose proof (umod_even RT) as Hev. pose proof (umod_pos RT).
      rewrite (wrap_small RT (start rv - key)) by (unfold in_uint, half in *; lia).
      destruct (Z.lt_ge_cases (end_ pv) key) as [Hpk|Hpk].
      * rewrite (wrap_small RT (key - end_ pv)) by (unfold in_uint, half in *; lia).
        rewrite !Z.gtb_ltb, !(proj2 (Z.ltb_lt _ _)) by lia. cbn.
        symmetry. by apply (find_range_gap _ p pv rv).
      * destruct (Z.eq_dec key (end_ pv)) as [->|Hne].
        -- rewrite Z.sub_diag, (wrap_small RT 0) by (unfold in_uint; lia). cbn.
           apply IH; [lia|]. intros rv' Hrv'. simplify_eq. case_decide; lia.
        -- rewrite (wrap_sub_neg RT key) by (unfold in_uint, half in *; lia).
           rewrite Z.gtb_ltb, (proj2 (Z.ltb_ge (key - _ + _) _))
             by (unfold in_uint, half in *; lia).
           rewrite andb_false_r. 
           apply IH; [lia|]. intros rv' Hrv'. simplify_eq. case_decide; lia.
    + destruct (decide (S (S p) = length (ranges r))) as [Hd|Hd]; [lia|].
      destruct (ranges r !! S (S p)) as [nx|] eqn:Enx; [|apply lookup_ge_None in Enx; lia].
      destruct (Hbound (S p) rv nx Erv Enx) as (? & ? & ?).
      rewrite in_window_complete, andb_true_r by lia.
      unfold zlen. rewrite (proj2 (Z.eqb_neq (Z.of_nat (S p)) _)) by lia. cbn -[find_range].
      symmetry. apply (find_range_hit _ (S p)); auto.
Qed.
End GetValue.

Lemma GetValue_is_lookup RT r key :
  wf RT r -> in_uint RT key -> GetValue RT r key = lookup_ranges (ranges r) key.
Proof.
  intros Hwf Hkey. destruct (Hwf) as (Hhalf & Hsz & Hlen & Hr & Hlast).
  unfold GetValue, lookup_ranges.
  destruct (last (ranges r)) as [lr|] eqn:El; [|apply last_None in El; by rewrite El in Hr].
  pose proof El as El'. rewrite last_lookup_length in El'.
  destruct (ranges r) as [|fr t] eqn:Er; [done|]. cbn [head]. rewrite <- Er in *.
  assert (start fr <= start lr).
  { eapply (wf_ranges_start_le _ 0); [exact Hr|by rewrite Er|exact El'|lia]. }
  rewrite Z.geb_leb. destruct (Z.leb_spec (start lr) key) as [Hk|Hk].
  - rewrite (proj2 (Z.ltb_ge _ _)) by lia. symmetry.
    eapply find_range_hit; [done|exact El'|done|left].
    rewrite Er; cbn; lia.
  - destruct (Z.ltb_spec key (start fr)) as [Hf|Hf]; [done|].
    assert (length (ranges r) = S (length (ranges r) - 1)) as -> by (rewrite Er; cbn; lia).
    apply GetValue_loop_find; [done..| rewrite Er; cbn; lia | |].
    + rewrite Er. cbn. intros ? [= <-]. done.
    + intros rv Hrv. simplify_eq.
      destruct (decide _) as [|Hd]; [done|]. exfalso. apply Hd. rewrite Er; cbn; lia.
Qed.

Lemma lookup_ranges_found l key :
  wf_ranges l -> snd (lookup_ranges l key) <> Some errKeyNotFound.
Proof.
  unfold lookup_ranges. destruct l as [|fr t]; [done|]. intros Hwf. case_if; [done|].
  by apply find_range_found.
Qed.

(** C37: on a well-formed map the backward search with wrap-around comparisons
    is the reference forward lookup, for every key of the key type; in
    particular it never reports [errKeyNotFound]. *)
Theorem GetValue_lookup RT r key :
  wf RT r -> in_uint RT key ->
  GetValue RT r key = lookup_ranges (ranges r) key /\
  snd (GetValue RT r key) <> Some errKeyNotFound.
Proof.
  intros Hwf Hk. rewrite GetValue_is_lookup by done. split; [done|].
  by apply lookup_ranges_found, Hwf.
Qed.

(** ** Replacing the open range *)

(** [tail_ok t t']: [t'] may stand for the tail [t] of a well-formed list. *)
Lemma wf_ranges_replace_tail pre o t :
  wf_ranges (pre ++ [o]) -> t <> [] -> wf_ranges t ->
  (forall n, head t = Some n -> start o <= start n) -> wf_ranges (pre ++ t).
Proof.
  intros Hwf Hne Ht Hs. induction pre as [|x pre IH]; [done|].
  simpl in *. destruct pre as [|y pre]; simpl in *.
  - destruct t as [|n t']; [done|]. specialize (Hs n eq_refl).
    destruct Hwf as (? & ? & ?). repeat split; try lia. done.
  - destruct Hwf as (? & ? & Hwf). repeat split; [lia..|]. by apply IH.
Qed.

(** Keys at or after the start of the open range skip all closed ranges. *)
Lemma find_range_skip pre o t key :
  wf_ranges (pre ++ [o]) -> start o <= key -> t <> [] ->
  find_range (pre ++ t) key = find_range t key.
Proof.
  intros Hwf Hk Ht. induction pre as [|x pre IH]; [done|].
  assert (end_ x < start o) as Hx.
  { eapply (wf_ranges_mono _ 0 (S (length pre))); [exact Hwf|done| |lia].
    simpl. by rewrite list_lookup_middle. }
  simpl in *. destruct (pre ++ t) as [|a u] eqn:E1; [by destruct pre, t|].
  rewrite (proj2 (Z.leb_gt _ _)) by lia. apply IH.
  destruct (pre ++ [o]) eqn:E2; [by destruct pre|]. apply Hwf.
Qed.

Lemma find_range_tail_ext pre t1 t2 key :
  t1 <> [] -> t2 <> [] -> find_range t1 key = find_range t2 key ->
  find_range (pre ++ t1) key = find_range (pre ++ t2) key.
Proof.
  intros H1 H2 He. induction pre as [|x pre IH]; [done|].
  simpl. destruct (pre ++ t1) as [|a u] eqn:E1; [by destruct pre, t1|].
  destruct (pre ++ t2) as [|b v] eqn:E2; [by destruct pre, t2|].
  by rewrite IH.
Qed.

(** Closing the open range at [e] and opening [n] after it. *)
Lemma find_range_close pre o e n key :
  wf_ranges (pre ++ [o]) -> start o <= e -> e < start n ->
  find_range (pre ++ [o <| end_ := e |>; n]) key =
  if start n <=? key then (value n, None)
  else if e <? key then (0, Some errKeyExcluded)
  else find_range (pre ++ [o]) key.
Proof.
  intros Hwf He Hn.
  destruct (Z.leb_spec (start n) key); [|destruct (Z.ltb_spec e key)].
  - rewrite (find_range_skip pre o) by (done || lia). cbn.
    by rewrite (proj2 (Z.leb_gt _ _)), (proj2 (Z.leb_le _ _)) by lia.
  - rewrite (find_range_skip pre o) by (done || lia). cbn.
    by rewrite !(proj2 (Z.leb_gt _ _)) by lia.
  - apply find_range_tail_ext; [done..|]. cbn. by rewrite (proj2 (Z.leb_le _ _)) by lia.
Qed.

(** Moving the start of the open range. *)
Lemma find_range_move pre o s v key :
  wf_ranges (pre ++ [o]) -> start o <= s ->
  find_range (pre ++ [o <| start := s |> <| value := v |>]) key =
  if s <=? key then (v, None)
  else if start o <=? key then (0, Some errKeyExcluded)
  else find_range (pre ++ [o]) key.
Proof.
  intros Hwf Hs.
  destruct (Z.leb_spec s key); [|destruct (Z.leb_spec (start o) key)].
  - rewrite (find_range_skip pre o) by (done || lia). cbn.
    by rewrite (proj2 (Z.leb_le _ _)) by lia.
  - rewrite (find_range_skip pre o) by (done || lia). cbn.
    by rewrite (proj2 (Z.leb_gt _ _)) by lia.
  - apply find_range_tail_ext; [done..|]. cbn. by rewrite !(proj2 (Z.leb_gt _ _)) by lia.
Qed.

(** ** Pruning *)

(** Start of the oldest range that is still remembered. *)
Definition oldest (r : RangeMap) : Z :=
  match ranges r with [] => 0 | fr :: _ => start fr end.

Lemma find_range_drop l k key rv :
  wf_ranges l -> l !! k = Some rv -> start rv <= key ->
  find_range (drop k l) key = find_range l key.
Proof.
  revert k. induction l as [|x l IH]; intros [|k] Hwf Hk Hs; try done.
  destruct l as [|y t]; [done|].
  destruct (wf_ranges_mono _ 0 (S k) x rv Hwf eq_refl Hk) as [_ ?]; [lia|].
  rewrite find_range_cons, (proj2 (Z.leb_gt _ _)) by lia.
  apply (IH k); [apply Hwf|done..].
Qed.

Lemma lookup_ranges_oldest r key :
  ranges r <> [] ->
  lookup_ranges (ranges r) key =
  if key <? oldest r then (0, Some errKeyTooOld) else find_range (ranges r) key.
Proof. unfold lookup_ranges, oldest. by destruct (ranges r). Qed.

Lemma prune_wf RT r :
  halfRange r = umod RT / 2 -> minRanges <= size r -> wf_ranges (ranges r) ->
  (forall lr, last (ranges r) = Some lr -> start lr <= halfRange r) ->
  wf RT (prune r).
Proof.
  unfold prune, wf, zlen, zdrop, minRanges. intros Hh Hs Hr Hl.
  rewrite Z.gtb_ltb. destruct (Z.ltb_spec (size r + 1) (Z.of_nat (length (ranges r)))); cbn.
  - rewrite length_drop. repeat split; [done|done|lia|apply wf_ranges_drop; [done|lia]|].
    intros lr. rewrite last_lookup_length, lookup_drop, length_drop.
    intros Hlr. apply Hl. rewrite last_lookup_length, <- Hlr. f_equal. lia.
  - by repeat split.
Qed.

Lemma prune_last r : minRanges <= size r -> last (ranges (prune r)) = last (ranges r).
Proof.
  unfold prune, zdrop, zlen, minRanges. intros Hs. case_if; [|done]. cbn.
  rewrite Z.gtb_ltb in E. bool_prop.
  rewrite !last_lookup_length, lookup_drop, length_drop. f_equal. lia.
Qed.

(** Pruning forgets old keys and nothing else. *)
Lemma prune_lookup r key :
  minRanges <= size r -> wf_ranges (ranges r) ->
  lookup_ranges (ranges (prune r)) key =
  if key <? oldest (prune r) then (0, Some errKeyTooOld) else lookup_ranges (ranges r) key.
Proof.
  intros Hs Hwf.
  assert (ranges (prune r) <> []) as Hne.
  { unfold prune, zdrop, zlen, minRanges in *. case_if; cbn; [|by apply wf_ranges_nonempty].
    intros H%(f_equal length). rewrite length_drop in H. simpl in H.
    rewrite Z.gtb_ltb in E. bool_prop. lia. }
  rewrite lookup_ranges_oldest by done.
  destruct (Z.ltb_spec key (oldest (prune r))) as [|Hk]; [done|].
  unfold prune in *. case_if; cbn in *.
  - revert Hk Hne. unfold oldest, zdrop. cbn.
    set (k := Z.to_nat _). intros Hk Hne.
    destruct (drop k (ranges r)) as [|rv u] eqn:Ed; [done|].
    assert (ranges r !! k = Some rv) as Hrv.
    { rewrite <- (Nat.add_0_r k), <- lookup_drop, Ed. done. }
    rewrite <- Ed, (find_range_drop _ _ _ rv) by done.
    rewrite lookup_ranges_oldest by (by apply wf_ranges_nonempty).
    destruct (Z.ltb_spec key (oldest r)) as [Hlt|]; [|done].
    unfold oldest in Hlt. destruct (ranges r) as [|fr t] eqn:Er; [done|].
    pose proof (wf_ranges_start_le _ 0 k fr rv Hwf eq_refl Hrv). lia.
  - rewrite lookup_ranges_oldest by (by apply wf_ranges_nonempty).
    by rewrite (proj2 (Z.ltb_ge _ _)).
Qed.

(** ** The effect of the operations on every lookup *)

Lemma wf_last RT r :
  wf RT r -> exists pre lr, ranges r = pre ++ [lr] /\ last (ranges r) = Some lr /\
    wf_ranges (pre ++ [lr]) /\ 0 <= start lr <= halfRange r.
Proof.
  intros (_ & _ & _ & Hr & Hl).
  destruct (last (ranges r)) as [lr|] eqn:El; [|apply last_None in El; by rewrite El in Hr].
  specialize (Hl lr eq_refl). apply last_Some in El as [pre El].
  exists pre, lr. rewrite El in *. repeat split; try done. clear -Hr.
  induction pre as [|x pre IH]; [done|]. apply IH.
  simpl in Hr. destruct (pre ++ [lr]) eqn:E; [by destruct pre|]. apply Hr.
Qed.

Lemma wf_oldest_le_last RT r lr :
  wf RT r -> last (ranges r) = Some lr -> oldest r <= start lr.
Proof.
  intros (_ & _ & _ & Hr & _) Hl. rewrite last_lookup_length in Hl.
  unfold oldest. destruct (ranges r) as [|fr t] eqn:Er; [done|]. rewrite <- Er in *.
  eapply (wf_ranges_start_le _ 0); [done|by rewrite Er|exact Hl|lia].
Qed.

Lemma GetValue_open RT r lr key :
  wf RT r -> last (ranges r) = Some lr -> start lr <= key -> GetValue RT r key = (value lr, None).
Proof.
  intros (_ & _ & _ & Hr & _) Hl Hk. unfold GetValue. rewrite Hl.
  destruct (ranges r) as [|fr t]; [done|]. cbn [head].
  by rewrite Z.geb_leb, (proj2 (Z.leb_le _ _)).
Qed.

Lemma GetValue_split RT r lr key :
  wf RT r -> in_uint RT key -> last (ranges r) = Some lr ->
  GetValue RT r key =
  if key <? oldest r then (0, Some errKeyTooOld) else find_range (ranges r) key.
Proof.
  intros Hwf Hk Hl. rewrite GetValue_is_lookup by done.
  apply lookup_ranges_oldest. intros H. by rewrite H in Hl.
Qed.

(** Close the open range at [e], open [n], prune. *)
Lemma close_and_open RT r lr e n key :
  wf RT r -> in_uint RT key -> last (ranges r) = Some lr ->
  start lr <= e < start n -> start n <= halfRange r ->
  let r' := prune (r <| ranges := replace_last (lr <| end_ := e |>) (ranges r) ++ [n] |>) in
  wf RT r' /\
  GetValue RT r' key =
  if start n <=? key then (value n, None)
  else if key <? oldest r' then (0, Some errKeyTooOld)
  else if e <? key then (0, Some errKeyExcluded)
  else GetValue RT r key.
Proof.
  intros Hwf Hkey Hl He Hn. destruct (wf_last _ _ Hwf) as (pre & lr' & Hr & Hl' & Hwr & Hs).
  simplify_eq. pose proof Hwf as (Hh & Hsz & _ & _ & _).
  set (r1 := r <| ranges := _ |>). intros r'.
  assert (Hr1 : ranges r1 = pre ++ [lr <| end_ := e |>; n]).
  { subst r1. cbn. unfold replace_last. by rewrite Hr, removelast_last, <- app_assoc. }
  assert (Hwf1 : wf_ranges (ranges r1)).
  { rewrite Hr1. eapply wf_ranges_replace_tail; [exact Hwr|done|cbn; lia|].
    intros ? [= <-]. cbn. lia. }
  assert (Hlast1 : last (ranges r1) = Some n).
  { rewrite Hr1. change [?a; n] with ([a] ++ [n]). by rewrite app_assoc, last_snoc. }
  assert (Hwf' : wf RT r').
  { apply prune_wf; [done..|]. rewrite Hlast1. intros ? [= <-]. done. }
  assert (Hlast' : last (ranges r') = Some n).
  { subst r'. by rewrite prune_last. }
  split; [done|].
  destruct (Z.leb_spec (start n) key); [by apply GetValue_open|].
  rewrite (GetValue_is_lookup RT r' key) by done. subst r'.
  rewrite prune_lookup by done.
  destruct (Z.ltb_spec key (oldest (prune r1))) as [|Hko]; [done|].
  rewrite lookup_ranges_oldest by (by apply wf_ranges_nonempty).
  assert (oldest r1 = oldest r) as ->.
  { unfold oldest. rewrite Hr1, Hr. by destruct pre. }
  rewrite (GetValue_split RT r lr) by done.
  destruct (Z.ltb_spec key (oldest r)) as [Hlt|].
  - destruct (Z.ltb_spec e key); [|done].
    pose proof (wf_oldest_le_last RT r lr Hwf Hl). lia.
  - rewrite Hr1, Hr, find_range_close by (done || lia).
    by rewrite (proj2 (Z.leb_gt _ _)).
Qed.

Lemma DecValue_effect RT VT r lr end0 dec key :
  wf RT r -> in_uint RT key ->
  last (ranges r) = Some lr -> start lr <= end0 < halfRange r ->
  let r' := DecValue RT VT end0 dec r in
  wf RT r' /\
  GetValue RT r' key =
  if end0 <? key then (wrap VT (value lr - dec), None)
  else if key <? oldest r' then (0, Some errKeyTooOld)
  else GetValue RT r key.
Proof.
  intros Hwf Hkey Hl Hend. pose proof Hwf as (Hh & _).
  pose proof (umod_even RT). pose proof (umod_pos RT).
  pose proof (wf_last _ _ Hwf) as (pre & lr2 & _ & Hl2 & _ & Hs). simplify_eq.
  cbv zeta. unfold DecValue. rewrite Hl, Z.gtb_ltb, (proj2 (Z.ltb_ge _ _)) by lia.
  rewrite (wrap_small RT (end0 + 1)) by (unfold in_uint; lia).
  destruct (close_and_open RT r lr end0 (mkRangeVal (end0 + 1) 0 (wrap VT (value lr - dec))) key)
    as [Hwf' ->]; [done..|cbn; lia|cbn; lia|].
  split; [done|]. cbn.
  destruct (Z.ltb_spec end0 key); [by rewrite (proj2 (Z.leb_le _ _)) by lia|].
  by rewrite (proj2 (Z.leb_gt _ _)) by lia.
Qed.

Lemma ExcludeRange_effect RT VT r lr startI endE key :
  wf RT r -> in_uint RT key -> 0 <= startI < halfRange r -> 0 <= endE <= halfRange r ->
  last (ranges r) = Some lr ->
  let '(r', err) := ExcludeRange RT VT startI endE r in
  wf RT r' /\
  if decide (startI < start lr \/ endE <= startI) then err = Some errReversedOrder /\ r' = r
  else
    err = None /\
    GetValue RT r' key =
    if endE <=? key then (wrap VT (value lr + wrap VT (endE - startI)), None)
    else if key <? oldest r' then (0, Some errKeyTooOld)
    else if startI <=? key then (0, Some errKeyExcluded)
    else GetValue RT r key.
Proof.
  intros Hwf Hkey Hst He Hl. destruct (wf_last _ _ Hwf) as (pre & lr2 & Hr & Hl2 & Hwr & Hs).
  simplify_eq. pose proof Hwf as (Hh & Hsz & Hlen & _ & _).
  pose proof (umod_even RT). pose proof (umod_pos RT).
  unfold ExcludeRange. rewrite Hl. rewrite !Z.gtb_ltb.
  destruct (Z.eqb_spec endE startI) as [->|Hne].
  { cbn [orb]. rewrite decide_True by lia. done. }
  cbn [orb]. destruct (Z.lt_ge_cases endE startI) as [Hlt|Hge].
  { (* wrapped difference: either too long, or the open range starts later *)
    unfold in_uint in *. rewrite (wrap_sub_neg RT endE startI) by (unfold in_uint; lia).
    destruct (Z.ltb_spec (halfRange r) (endE - startI + umod RT));
      [by rewrite decide_True by lia|].
    destruct (Z.ltb_spec startI (start lr)); [by rewrite decide_True by lia|]. lia. }
  rewrite (wrap_small RT (endE - startI)) by (unfold in_uint in *; lia).
  rewrite (proj2 (Z.ltb_ge (halfRange r) _)) by (unfold in_uint in *; lia).
  destruct (Z.ltb_spec startI (start lr)).
  { rewrite decide_True by lia. done. }
  destruct (Z.eqb_spec (start lr) startI) as [Heq|Hneq]; rewrite decide_False by lia.
  - set (r' := r <| ranges := _ |>).
    assert (Hr' : ranges r' = pre ++ [lr <| start := endE |>
              <| value := wrap VT (value lr + wrap VT (endE - startI)) |>]).
    { subst r'. cbn. unfold replace_last. by rewrite Hr, removelast_last. }
    assert (Hwf' : wf RT r').
    { repeat split; [done..| | |].
      - rewrite Hr'. unfold zlen in *. rewrite Hr in Hlen.
        rewrite length_app in *. cbn in *. lia.
      - rewrite Hr'. eapply wf_ranges_replace_tail; [exact Hwr|done|cbn; lia|].
        intros ? [= <-]. cbn. lia.
      - rewrite Hr'. intros ?. rewrite last_snoc. intros [= <-]. cbn. lia. }
    split; [done|]. split; [done|].
    rewrite (GetValue_split RT r' _ key Hwf' Hkey) by (by rewrite Hr', last_snoc).
    rewrite Hr', find_range_move, (GetValue_split RT r lr), <- Hr by (done || lia).
    pose proof (wf_oldest_le_last RT r lr Hwf Hl).
    pose proof (wf_oldest_le_last RT r' _ Hwf' ltac:(by rewrite Hr', last_snoc)) as Hol. cbn in Hol.
    assert (oldest r <= oldest r') by (unfold oldest; rewrite Hr, Hr'; destruct pre; cbn; lia).
    rewrite Heq in *.
    destruct (Z.leb_spec endE key); [by rewrite (proj2 (Z.ltb_ge _ _)) by lia|].
    destruct (Z.ltb_spec key (oldest r')); [done|].
    destruct (Z.leb_spec startI key); [done|].
    by rewrite (proj2 (Z.ltb_ge _ _)) by lia.
  - rewrite (wrap_small RT (startI - 1)) by (unfold in_uint in *; lia).
    destruct (close_and_open RT r lr (startI - 1) (mkRangeVal endE 0
      (wrap VT (value lr + wrap VT (endE - startI)))) key) as [Hwf' Hg]; [done..|cbn; lia|cbn; lia|].
    split; [done|]. split; [done|]. rewrite Hg. cbn.
    destruct (Z.leb_spec endE key); [done|]. case_if; [done|].
    destruct (Z.leb_spec startI key); [by rewrite (proj2 (Z.ltb_lt _ _)) by lia|].
    by rewrite (proj2 (Z.ltb_ge _ _)) by lia.
Qed.

(** The map [ExcludeRange] builds for a valid range. *)
Lemma ExcludeRange_ok RT VT r lr s e :
  wf RT r -> last (ranges r) = Some lr -> start lr <= s -> s < e <= halfRange r ->
  ExcludeRange RT VT s e r =
  let nv := wrap VT (value lr + wrap VT (e - s)) in
  (if start lr =? s then
     r <| ranges := replace_last (lr <| start := e |> <| value := nv |>) (ranges r) |>
   else
     prune (r <| ranges := replace_last (lr <| end_ := s - 1 |>) (ranges r) ++ [mkRangeVal e 0 nv] |>),
   None).
Proof.
  intros Hwf Hl Hs He. pose proof (wf_last _ _ Hwf) as (pre & lr2 & _ & Hl2 & _ & Hs2).
  simplify_eq. pose proof Hwf as (Hh & _). pose proof (umod_even RT). pose proof (umod_pos RT).
  unfold ExcludeRange. rewrite Hl, !Z.gtb_ltb, (proj2 (Z.eqb_neq e s)) by lia.
  rewrite (wrap_small RT (e - s)) by (unfold in_uint; lia).
  rewrite (proj2 (Z.ltb_ge (halfRange r) _)), (proj2 (Z.ltb_ge s _)) by lia. cbn [orb].
  destruct (Z.eqb_spec (start lr) s); [done|].
  by rewrite (wrap_small RT (s - 1)) by (unfold in_uint; lia).
Qed.

Lemma ExcludeRange_wf RT VT r lr s e :
  wf RT r -> 0 <= s < halfRange r -> 0 <= e <= halfRange r -> last (ranges r) = Some lr ->
  wf RT (fst (ExcludeRange RT VT s e r)).
Proof.
  intros Hwf Hs He Hl.
  pose proof (ExcludeRange_effect RT VT r lr s e 0 Hwf) as H.
  destruct (ExcludeRange RT VT s e r) as [r' err].
  apply H; try done. pose proof (umod_pos RT). unfold in_uint. lia.
Qed.

(** The map [DecValue] builds. *)
Lemma DecValue_ok RT VT r lr e dec :
  wf RT r -> last (ranges r) = Some lr -> e < halfRange r ->
  DecValue RT VT e dec r =
  let nv := wrap VT (value lr - dec) in
  if start lr >? e then
    r <| ranges := replace_last (lr <| value := nv |>) (ranges r) |>
  else
    prune (r <| ranges := replace_last (lr <| end_ := e |>) (ranges r) ++ [mkRangeVal (e + 1) 0 nv] |>).
Proof.
  intros Hwf Hl He. pose proof (wf_last _ _ Hwf) as (pre & lr2 & _ & Hl2 & _ & Hs2).
  simplify_eq. pose proof Hwf as (Hh & _). pose proof (umod_even RT). pose proof (umod_pos RT).
  unfold DecValue. rewrite Hl, Z.gtb_ltb. destruct (Z.ltb_spec e (start lr)); [done|].
  by rewrite (wrap_small RT (e + 1)) by (unfold in_uint; lia).
Qed.

Lemma ranges_prune r : exists n, ranges (prune r) = drop n (ranges r).
Proof.
  unfold prune, zdrop. case_if; [eauto|]. exists 0%nat. by rewrite drop_0.
Qed.

(** Replacing the open range's value keeps the map well-formed. *)
Lemma set_open_wf RT r lr x :
  wf RT r -> last (ranges r) = Some lr -> start lr <= start x <= halfRange r ->
  wf RT (r <| ranges := replace_last x (ranges r) |>).
Proof.
  intros Hwf Hl Hx. destruct (wf_last _ _ Hwf) as (pre & lr2 & Hr & Hl2 & Hwr & Hs).
  simplify_eq. destruct Hwf as (Hh & Hsz & Hlen & _ & _).
  unfold wf, replace_last. cbn. rewrite Hr, removelast_last in *. repeat split; [done..| | |].
  - unfold zlen in *. rewrite length_app in *. cbn in *. lia.
  - eapply wf_ranges_replace_tail; [exact Hwr|done|cbn; lia|]. intros ? [= <-]. cbn. lia.
  - intros ?. rewrite last_snoc. intros [= <-]. lia.
Qed.

(** Keys at or below [e] keep their answer under [DecValue], or are forgotten. *)
Lemma DecValue_old_eq RT VT r lr e dec key :
  wf RT r -> in_uint RT key -> last (ranges r) = Some lr -> 0 <= e < halfRange r ->
  start lr <= e + 1 -> key <= e ->
  let r' := DecValue RT VT e dec r in
  GetValue RT r' key = if key <? oldest r' then (0, Some errKeyTooOld) else GetValue RT r key.
Proof.
  intros Hwf Hkey Hl He Hs Hk. cbv zeta. destruct (Z.lt_ge_cases e (start lr)) as [Hlt|Hge].
  - rewrite (DecValue_ok _ _ r lr) by (done || lia).
    rewrite Z.gtb_ltb, (proj2 (Z.ltb_lt _ _)) by lia. cbv zeta.
    destruct (wf_last _ _ Hwf) as (pre & lr2 & Hr & Hl2 & Hwr & Hs2). simplify_eq.
    set (x := lr <| value := _ |>). set (r' := r <| ranges := _ |>).
    assert (Hwf' : wf RT r') by (eapply set_open_wf; [done..|cbn; lia]).
    assert (Hr' : ranges r' = pre ++ [x]).
    { subst r'. cbn. unfold replace_last. by rewrite Hr, removelast_last. }
    rewrite (GetValue_split RT r' x key Hwf' Hkey) by (by rewrite Hr', last_snoc).
    rewrite (GetValue_split RT r lr key Hwf Hkey) by done. rewrite Hr', Hr.
    assert (oldest r' = oldest r) as ->.
    { unfold oldest. rewrite Hr', Hr. by destruct pre. }
    change x with (lr <| start := start lr |> <| value := value x |>).
    rewrite find_range_move by (done || lia).
    rewrite !(proj2 (Z.leb_gt (start lr) key)) by lia. by destruct (key <? oldest r).
  - destruct (DecValue_effect RT VT r lr e dec key) as [_ ->]; [done..|lia|].
    by rewrite (proj2 (Z.ltb_ge _ _)) by lia.
Qed.

Lemma DecValue_old_key RT VT r lr e dec key v :
  wf RT r -> in_uint RT key -> last (ranges r) = Some lr -> 0 <= e < halfRange r ->
  start lr <= e + 1 -> key <= e ->
  GetValue RT (DecValue RT VT e dec r) key = (v, None) -> GetValue RT r key = (v, None).
Proof. intros Hwf Hkey Hl He Hs Hk. rewrite (DecValue_old_eq RT VT r lr) by done. by case_if. Qed.

(** ** Constructors *)

Lemma ClearAndReset_wf RT r start0 val :
  halfRange r = umod RT / 2 -> minRanges <= size r -> 0 <= start0 <= halfRange r ->
  wf RT (ClearAndResetValue start0 val r).
Proof.
  intros Hh Hs H0. unfold wf, minRanges, zlen in *. cbn. repeat split; try done; try lia.
  intros lr [= <-]. cbn. lia.
Qed.

Lemma NewRangeMap_wf RT n : wf RT (NewRangeMap RT n).
Proof.
  unfold wf, NewRangeMap, minRanges, zlen. cbn. repeat split; try done; try lia.
  intros lr [= <-]. cbn. by destruct RT.
Qed.

(** ** Properties *)

(** After [DecValue end dec] every key above [end] has the open range's
    value minus [dec], and every key at or below [end] that is still
    remembered keeps the value or the exclusion it had. *)
Theorem DecValue_GetValue RT VT r lr end0 dec key :
  wf RT r -> in_uint RT key ->
  last (ranges r) = Some lr -> start lr <= end0 < halfRange r ->
  let r' := DecValue RT VT end0 dec r in
  wf RT r' /\
  GetValue RT r' key =
  if end0 <? key then (wrap VT (value lr - dec), None)
  else if key <? oldest r' then (0, Some errKeyTooOld)
  else GetValue RT r key.
Proof. apply DecValue_effect. Qed.

(** [ExcludeRange start end] rejects an empty, reversed or too long range
    and one that begins inside an already closed range, without touching the
    map; otherwise every key at or after [end] has the open range's value
    plus the length of the hole, every key of the hole is reported excluded
    (or too old, once forgotten) and older keys keep their answer. *)
Theorem ExcludeRange_GetValue RT VT r lr startI endE key :
  wf RT r -> in_uint RT key -> 0 <= startI < halfRange r -> 0 <= endE <= halfRange r ->
  last (ranges r) = Some lr ->
  let '(r', err) := ExcludeRange RT VT startI endE r in
  wf RT r' /\
  if decide (startI < start lr \/ endE <= startI) then err = Some errReversedOrder /\ r' = r
  else
    err = None /\
    GetValue RT r' key =
    if endE <=? key then (wrap VT (value lr + wrap VT (endE - startI)), None)
    else if key <? oldest r' then (0, Some errKeyTooOld)
    else if startI <=? key then (0, Some errKeyExcluded)
    else GetValue RT r key.
Proof. apply ExcludeRange_effect. Qed.

(** A map with two closed ranges and one hole: the state after dropping 20
    and inserting two padding packets after 30. *)
Definition example_map : RangeMap :=
  DecValue U64 U64 30 2 (fst (ExcludeRange U64 U64 20 21 (NewRangeMap U64 100))).

Lemma example_map_eq : example_map =
  mkRangeMap 9223372036854775808 100
    [mkRangeVal 0 19 0; mkRangeVal 21 30 1; mkRangeVal 31 0 18446744073709551615].
Proof. vm_compute. reflexivity. Qed.

Lemma example_map_wf : wf U64 example_map.
Proof.
  rewrite example_map_eq. unfold wf, zlen, minRanges. cbn.
  repeat split; try lia. intros lr [= <-]. cbn. lia.
Qed.

Lemma GetValue_lookup_witness :
  wf U64 example_map /\
  GetValue U64 example_map 20 = (0, Some errKeyExcluded) /\
  GetValue U64 example_map 25 = lookup_ranges (ranges example_map) 25 /\
  snd (GetValue U64 example_map 25) <> Some errKeyNotFound.
Proof.
  split; [exact example_map_wf|]. split; [reflexivity|].
  apply (GetValue_lookup U64 example_map 25); [exact example_map_wf|split; vm_compute; congruence].
Defined.

Lemma DecValue_GetValue_witness :
  let r' := DecValue U64 U64 40 3 example_map in
  wf U64 r' /\ GetValue U64 r' 41 = (18446744073709551612, None).
Proof.
  pose proof (DecValue_GetValue U64 U64 example_map
    (mkRangeVal 31 0 18446744073709551615) 40 3 41 example_map_wf
    ltac:(split; vm_compute; congruence) eq_refl ltac:(vm_compute; split; congruence)) as H.
  exact H.
Defined.

Lemma ExcludeRange_GetValue_witness :
  let '(r', err) := ExcludeRange U64 U64 40 42 example_map in
  wf U64 r' /\ err = None /\ GetValue U64 r' 41 = (0, Some errKeyExcluded).
Proof.
  pose proof (ExcludeRange_GetValue U64 U64 example_map
    (mkRangeVal 31 0 18446744073709551615) 40 42 41 example_map_wf
    ltac:(split; vm_compute; congruence) ltac:(vm_compute; split; congruence)
    ltac:(vm_compute; split; congruence) eq_refl) as H.
  destruct (ExcludeRange U64 U64 40 42 example_map) as [r' err] eqn:E.
  rewrite decide_False in H by (cbn; lia). destruct H as (Hwf & Herr & Hg).
  repeat split; [apply Hwf..|exact Herr|]. rewrite Hg.
  vm_compute in E. injection E as <- <-. reflexivity.
Defined.
