(* ===== verification/DdTypes.v ===== *)
(** * Data of the AV1 dependency descriptor RTP extension

    Models the types of
    [src/SERVER/pkg/sfu/rtpextension/dependencydescriptor/dependencydescriptorextension.go].
    Slices whose nil-ness the code tests are [slice]s. *)

From S2P Require Import Prelude.

Definition MaxSpatialIds : Z := 4.
Definition MaxTemporalIds : Z := 8.
Definition MaxDecodeTargets : Z := 32.
Definition MaxTemplates : Z := 64.

Inductive DecodeTargetIndication :=
| DecodeTargetNotPresent
| DecodeTargetDiscardable
| DecodeTargetSwitch
| DecodeTargetRequired.

#[export] Instance dti_eq_dec : EqDecision DecodeTargetIndication.
Proof. solve_decision. Defined.

(** [uint64(dti)] *)
Definition dti_to_Z (d : DecodeTargetIndication) : Z :=
  match d with
  | DecodeTargetNotPresent => 0
  | DecodeTargetDiscardable => 1
  | DecodeTargetSwitch => 2
  | DecodeTargetRequired => 3
  end.

(** [DecodeTargetIndication(v)] for a two-bit [v] *)
Definition dti_of_Z (v : Z) : DecodeTargetIndication :=
  match v with
  | 0 => DecodeTargetNotPresent
  | 1 => DecodeTargetDiscardable
  | 2 => DecodeTargetSwitch
  | _ => DecodeTargetRequired
  end.

Lemma dti_of_to_Z d : dti_of_Z (dti_to_Z d) = d.
Proof. by destruct d. Qed.

Record RenderResolution := mkRenderResolution { Width : Z; Height : Z }.

#[export] Instance RenderResolution_eq_dec : EqDecision RenderResolution.
Proof. solve_decision. Defined.

Record FrameDependencyTemplate := mkTemplate {
  SpatialId : Z;
  TemporalId : Z;
  DecodeTargetIndications : slice DecodeTargetIndication;
  FrameDiffs : slice Z;
  ChainDiffs : list Z;
}.
#[export] Instance eta_template : Eta FrameDependencyTemplate := fun t =>
  mkTemplate (SpatialId t) (TemporalId t) (DecodeTargetIndications t) (FrameDiffs t) (ChainDiffs t).

#[export] Instance template_eq_dec : EqDecision FrameDependencyTemplate.
Proof. solve_decision. Defined.

(** [Clone] allocates every slice, so none is nil in the copy. *)
Definition Clone (t : FrameDependencyTemplate) : FrameDependencyTemplate :=
  mkTemplate (SpatialId t) (TemporalId t)
    (Some (elems (DecodeTargetIndications t))) (Some (elems (FrameDiffs t))) (ChainDiffs t).

Record FrameDependencyStructure := mkStructure {
  StructureId : Z;
  NumDecodeTargets : Z;
  NumChains : Z;
  DecodeTargetProtectedByChain : list Z;
  Resolutions : list RenderResolution;
  Templates : list FrameDependencyTemplate;
}.
#[export] Instance eta_structure : Eta FrameDependencyStructure := fun s =>
  mkStructure (StructureId s) (NumDecodeTargets s) (NumChains s)
    (DecodeTargetProtectedByChain s) (Resolutions s) (Templates s).

#[export] Instance structure_eq_dec : EqDecision FrameDependencyStructure.
Proof. solve_decision. Defined.

Record DependencyDescriptor := mkDescriptor {
  FirstPacketInFrame : bool;
  LastPacketInFrame : bool;
  FrameNumber : Z;
  FrameDependencies : option FrameDependencyTemplate;
  Resolution : option RenderResolution;
  ActiveDecodeTargetsBitmask : option Z;
  AttachedStructure : option FrameDependencyStructure;
}.
#[export] Instance eta_descriptor : Eta DependencyDescriptor := fun d =>
  mkDescriptor (FirstPacketInFrame d) (LastPacketInFrame d) (FrameNumber d)
    (FrameDependencies d) (Resolution d) (ActiveDecodeTargetsBitmask d) (AttachedStructure d).

#[export] Instance descriptor_eq_dec : EqDecision DependencyDescriptor.
Proof. solve_decision. Defined.
