(* ===== verification/Vp8.v ===== *)
(** * VP8 payload descriptor

    Models [VP8], [Unmarshal], [Marshal] and [MarshalTo] of
    [src/SERVER/pkg/sfu/buffer/helpers.go]; the key frame detectors of that
    file are in [KeyFrames]. *)

From S2P Require Import Prelude.

Inductive vp8_error :=
| errShortPacket
| errNilPacket
| errInvalidPacket
| panicIndex.  (** index out of range at run time *)

Record VP8 := mkVP8 {
  FirstByte : Z;
  S : bool;
  I : bool;
  M : bool;
  PictureID : Z;
  L : bool;
  TL0PICIDX : Z;
  T : bool;
  TID : Z;
  Y : bool;
  K : bool;
  KEYIDX : Z;
  HeaderSize : Z;
  IsKeyFrame : bool;
}.
#[export] Instance eta_VP8 : Eta VP8 := fun v =>
  mkVP8 (FirstByte v) (S v) (I v) (M v) (PictureID v) (L v) (TL0PICIDX v) (T v) (TID v)
    (Y v) (K v) (KEYIDX v) (HeaderSize v) (IsKeyFrame v).

(** [VP8{}] *)
Definition zeroVP8 : VP8 :=
  mkVP8 0 false false false 0 false 0 false 0 false false 0 0 false.

(** [x & mask > 0] *)
Definition has (x mask : Z) : bool := Z.land x mask >? 0.

(** [if payloadLen < idx+1 { return errShortPacket }] followed by
    [payload[idx]]. *)
Definition need (payload : list Z) (idx : Z) : res vp8_error Z :=
  if zlen payload <? idx + 1 then Err errShortPacket else load panicIndex payload idx.

(** The [if v.I { .. }] block: the picture id, one or two bytes. *)
Definition unmarshalPictureID (v : VP8) (payload : list Z) (idx : Z) : res vp8_error (VP8 * Z) :=
  if I v then
    let idx := idx + 1 in
    let! b := need payload idx in
    let pid := Z.land b 0x7f in
    let v := v <| M := has b 0x80 |> in
    if M v then
      let idx := idx + 1 in
      let! b2 := need payload idx in
      Ok (v <| PictureID := Z.lor (Z.shiftl pid 8) b2 |>, idx)
    else Ok (v <| PictureID := pid |>, idx)
  else Ok (v, idx).

(** [if v.L { .. }] *)
Definition unmarshalTL0 (v : VP8) (payload : list Z) (idx : Z) : res vp8_error (VP8 * Z) :=
  if L v then
    let idx := idx + 1 in
    let! b := need payload idx in
    Ok (v <| TL0PICIDX := b |>, idx)
  else Ok (v, idx).

(** [if v.T || v.K { .. }] *)
Definition unmarshalTK (v : VP8) (payload : list Z) (idx : Z) : res vp8_error (VP8 * Z) :=
  if T v || K v then
    let idx := idx + 1 in
    let! b := need payload idx in
    let v := if T v then
               v <| TID := Z.shiftr (Z.land b 0xc0) 6 |> <| Y := has b 0x20 |>
             else v in
    let v := if K v then v <| KEYIDX := Z.land b 0x1f |> else v in
    Ok (v, idx)
  else Ok (v, idx).

Definition Unmarshal (v : VP8) (payload0 : slice Z) : res vp8_error VP8 :=
  match payload0 with
  | None => Err errNilPacket
  | Some payload =>
    if zlen payload <? 1 then Err errShortPacket
    else
      let idx := 0 in
      let! b0 := load panicIndex payload idx in
      let v := v <| FirstByte := b0 |> <| S := has b0 0x10 |> in
      let! (v, idx) :=
        if has b0 0x80 then
          let idx := idx + 1 in
          let! x := need payload idx in
          let v := v <| I := has x 0x80 |> <| L := has x 0x40 |>
                     <| T := has x 0x20 |> <| K := has x 0x10 |> in
          if L v && negb (T v) then Err errInvalidPacket
          else
            let! (v, idx) := unmarshalPictureID v payload idx in
            let! (v, idx) := unmarshalTL0 v payload idx in
            unmarshalTK v payload idx
        else Ok (v, idx) in
      let idx := idx + 1 in
      let! p := need payload idx in
      let v := v <| IsKeyFrame := (Z.land p 0x01 =? 0) && S v |> in
      Ok (v <| HeaderSize := idx |>)
  end.

(** [MarshalTo]: the bytes written and their number. *)
Definition MarshalTo (v : VP8) (buf : list Z) : res vp8_error (list Z * Z) :=
  if zlen buf <? HeaderSize v then Err errShortPacket
  else
    let idx := 0 in
    let! buf := store panicIndex buf idx (FirstByte v) in
    if I v || L v || T v || K v then
      let! b0 := load panicIndex buf idx in
      let! buf := store panicIndex buf idx (Z.lor b0 0x80) in
      let idx := idx + 1 in
      let xpos := idx in
      let xval := 0 in
      let idx := idx + 1 in
      let! (buf, idx, xval) :=
        if I v then
          let xval := Z.lor xval (Z.shiftl 1 7) in
          if M v then
            let! buf := store panicIndex buf idx
                          (Z.lor 0x80 (u8 (Z.land (Z.shiftr (PictureID v) 8) 0x7f))) in
            let! buf := store panicIndex buf (idx + 1) (u8 (Z.land (PictureID v) 0xff)) in
            Ok (buf, idx + 2, xval)
          else
            let! buf := store panicIndex buf idx (u8 (PictureID v)) in
            Ok (buf, idx + 1, xval)
        else Ok (buf, idx, xval) in
      let! (buf, idx, xval) :=
        if L v then
          let xval := Z.lor xval (Z.shiftl 1 6) in
          let! buf := store panicIndex buf idx (TL0PICIDX v) in
          Ok (buf, idx + 1, xval)
        else Ok (buf, idx, xval) in
      let! (buf, idx, xval) :=
        if T v || K v then
          let! buf := store panicIndex buf idx 0 in
          let! (buf, xval) :=
            if T v then
              let xval := Z.lor xval (Z.shiftl 1 5) in
              let! buf := store panicIndex buf idx (u8 (Z.shiftl (TID v) 6)) in
              if Y v then
                let! b := load panicIndex buf idx in
                let! buf := store panicIndex buf idx (Z.lor b (Z.shiftl 1 5)) in
                Ok (buf, xval)
              else Ok (buf, xval)
            else Ok (buf, xval) in
          let! (buf, xval) :=
            if K v then
              let xval := Z.lor xval (Z.shiftl 1 4) in
              let! b := load panicIndex buf idx in
              let! buf := store panicIndex buf idx (Z.lor b (Z.land (KEYIDX v) 0x1f)) in
              Ok (buf, xval)
            else Ok (buf, xval) in
          Ok (buf, idx + 1, xval)
        else Ok (buf, idx, xval) in
      let! buf := store panicIndex buf xpos xval in
      Ok (buf, idx)
    else
      let! b0 := load panicIndex buf idx in
      let! buf := store panicIndex buf idx (Z.ldiff b0 0x80) in
      Ok (buf, idx + 1).

Definition Marshal (v : VP8) : res vp8_error (list Z) :=
  let! (buf, n) := MarshalTo v (repeat 0 (Z.to_nat (HeaderSize v))) in
  Ok (ztake n buf).

Definition VPxPictureIdSizeDiff (mBit1 mBit2 : bool) : Z :=
  if Bool.eqb mBit1 mBit2 then 0 else if mBit1 then 1 else -1.

(** ** The wire format, as a specification *)

Definition ext (v : VP8) : bool := I v || L v || T v || K v.

Definition pidBytes (v : VP8) : list Z :=
  if I v then
    if M v then [Z.lor 0x80 (Z.shiftr (PictureID v) 8); Z.land (PictureID v) 0xff]
    else [PictureID v]
  else [].

Definition tl0Bytes (v : VP8) : list Z := if L v then [TL0PICIDX v] else [].

Definition tkBytes (v : VP8) : list Z :=
  if T v || K v then
    [Z.lor (Z.lor (Z.shiftl (TID v) 6) (if Y v then 0x20 else 0)) (KEYIDX v)]
  else [].

Definition bit_if (b : bool) (m : Z) : Z := if b then m else 0.

Definition xByte (v : VP8) : Z :=
  bit_if (I v) 0x80 + bit_if (L v) 0x40 + bit_if (T v) 0x20 + bit_if (K v) 0x10.

Definition encode (v : VP8) : list Z :=
  if ext v then
    [Z.lor (FirstByte v) 0x80; xByte v] ++ pidBytes v ++ tl0Bytes v ++ tkBytes v
  else [Z.ldiff (FirstByte v) 0x80].

(** A descriptor whose absent fields are zero and whose present fields fit
    their width; [HeaderSize] is the length of the encoding. *)
Record wf (v : VP8) : Prop := {
  wf_first : byte (FirstByte v);
  wf_ext : has (FirstByte v) 0x80 = ext v;
  wf_S : S v = has (FirstByte v) 0x10;
  wf_pid : if I v then 0 <= PictureID v < (if M v then 32768 else 128)
           else PictureID v = 0 /\ M v = false;
  wf_LT : L v = true -> T v = true;
  wf_tl0 : if L v then byte (TL0PICIDX v) else TL0PICIDX v = 0;
  wf_tid : if T v then 0 <= TID v < 4 else TID v = 0 /\ Y v = false;
  wf_key : if K v then 0 <= KEYIDX v < 32 else KEYIDX v = 0;
  wf_size : HeaderSize v = zlen (encode v);
}.

(** ** Byte arithmetic, decided on the finite range *)

Lemma pid_hi_lo p : 0 <= p < 32768 ->
  Z.land (Z.lor 0x80 (Z.shiftr p 8)) 0x7f = Z.shiftr p 8 /\
  has (Z.lor 0x80 (Z.shiftr p 8)) 0x80 = true /\
  Z.lor (Z.shiftl (Z.shiftr p 8) 8) (Z.land p 0xff) = p /\
  u8 (Z.land (Z.shiftr p 8) 0x7f) = Z.shiftr p 8 /\
  u8 (Z.land p 0xff) = Z.land p 0xff.
Proof.
  intros Hp.
  assert (Hhi : 0 <= Z.shiftr p 8 < 128).
  { rewrite Z.shiftr_div_pow2 by lia. change (2 ^ 8) with 256. glia. }
  assert (Hlo : Z.land p 0xff = p mod 256) by apply (Z.land_ones p 8 ltac:(lia)).
  pose proof (zseq_all 128 (fun h =>
    (Z.land (Z.lor 0x80 h) 0x7f =? h) && has (Z.lor 0x80 h) 0x80 && (u8 (Z.land h 0x7f) =? h))
    ltac:(vm_compute; reflexivity) _ Hhi) as H.
  cbv beta in H. bool_prop. repeat split; try done.
  - apply Z.bits_inj'. intros n Hn. rewrite Z.lor_spec, Z.shiftl_spec, Hlo by lia.
    change 256 with (2 ^ 8). destruct (Z.lt_ge_cases n 8).
    + rewrite Z.mod_pow2_bits_low, (Z.testbit_neg_r _ (n - 8)) by lia. done.
    + rewrite Z.mod_pow2_bits_high, orb_false_r, Z.shiftr_spec by lia. f_equal. lia.
  - rewrite Hlo. apply u8_small. now apply Z.mod_pos_bound.
Qed.

Lemma pid_short p : 0 <= p < 128 -> Z.land p 0x7f = p /\ has p 0x80 = false /\ u8 p = p.
Proof.
  intros Hp.
  pose proof (zseq_all 128 (fun h => (Z.land h 0x7f =? h) && negb (has h 0x80) && (u8 h =? h))
    ltac:(vm_compute; reflexivity) _ Hp) as H.
  cbv beta in H. bool_prop. auto.
Qed.

Lemma tk_byte t (y : bool) k : 0 <= t < 4 -> 0 <= k < 32 ->
  let b := Z.lor (Z.lor (Z.shiftl t 6) (if y then 0x20 else 0)) k in
  Z.shiftr (Z.land b 0xc0) 6 = t /\ has b 0x20 = y /\ Z.land b 0x1f = k /\
  u8 (Z.shiftl t 6) = Z.shiftl t 6 /\ Z.land k 0x1f = k.
Proof.
  intros Ht Hk b. subst b.
  pose proof (zseq_all 4 (fun t => forallb (fun k => forallb (fun y : bool =>
    let b := Z.lor (Z.lor (Z.shiftl t 6) (if y then 0x20 else 0)) k in
    (Z.shiftr (Z.land b 0xc0) 6 =? t) && Bool.eqb (has b 0x20) y && (Z.land b 0x1f =? k)
    && (u8 (Z.shiftl t 6) =? Z.shiftl t 6) && (Z.land k 0x1f =? k)) [true; false]) (zseq 32))
    ltac:(vm_compute; reflexivity) t Ht) as H.
  pose proof (zseq_all 32 _ H k Hk) as H'. cbn [forallb] in H'.
  bool_prop. destruct y; bool_prop;
    repeat match goal with H : Bool.eqb _ _ = true |- _ => apply Bool.eqb_prop in H end; auto.
Qed.

Lemma first_byte f : byte f ->
  has (Z.lor f 0x80) 0x80 = true /\ has (Z.ldiff f 0x80) 0x80 = false /\
  (has f 0x80 = true -> Z.lor f 0x80 = f) /\ (has f 0x80 = false -> Z.ldiff f 0x80 = f).
Proof.
  intros Hf.
  pose proof (zseq_all 256 (fun f => has (Z.lor f 0x80) 0x80 && negb (has (Z.ldiff f 0x80) 0x80)
     && (if has f 0x80 then Z.lor f 0x80 =? f else Z.ldiff f 0x80 =? f))
    ltac:(vm_compute; reflexivity) f Hf) as H.
  cbv beta in H. bool_prop. destruct (has f 0x80); bool_prop; naive_solver.
Qed.

(** ** Marshal writes the specified bytes *)

Lemma Marshal_encode v : wf v -> Marshal v = Ok (encode v).
Proof.
  intros [Hf He HS Hp HLT Htl Htid Hkey Hsz].
  unfold Marshal, MarshalTo. rewrite Hsz. clear Hsz HS He.
  unfold encode, ext, pidBytes, tl0Bytes, tkBytes, xByte, bit_if in *.
  destruct v as [f s i m pid l tl0 t tid y k key hs kf]; cbn [FirstByte S I M PictureID L TL0PICIDX T TID Y K KEYIDX HeaderSize IsKeyFrame] in *.
  assert (Ht4 : 0 <= tid < 4) by (destruct t; lia).
  assert (Hk32 : 0 <= key < 32) by (destruct k; lia).
  pose proof (tk_byte tid y key Ht4 Hk32) as (_ & _ & _ & Ht6 & Hk5).
  destruct i, m; try lia;
  try (pose proof (pid_hi_lo pid ltac:(lia)) as (_ & _ & _ & Hh & Hl); rewrite ?Hh, ?Hl);
  try (pose proof (pid_short pid ltac:(lia)) as (_ & _ & Hs); rewrite ?Hs);
  rewrite ?Ht6, ?Hk5;
  destruct l, t, k, y; try (exfalso; (discriminate (HLT eq_refl) || intuition congruence));
  repeat match goal with H : _ /\ _ |- _ => destruct H end; subst;
  cbv -[Z.land Z.shiftr Z.shiftl Z.lor Z.ldiff u8]; rewrite ?Z.lor_0_r, ?Z.lor_0_l; try reflexivity.
Qed.

(** ** Unmarshal reads them back *)

(** [Marshal] reads nothing of the fields whose flag is clear. *)
Definition canon (v : VP8) : VP8 :=
  mkVP8 (FirstByte v) (has (FirstByte v) 0x10) (I v) (I v && M v) (if I v then PictureID v else 0)
    (L v) (if L v then TL0PICIDX v else 0) (T v) (if T v then TID v else 0) (T v && Y v)
    (K v) (if K v then Z.land (KEYIDX v) 0x1f else 0) (HeaderSize v) (IsKeyFrame v).

Lemma Marshal_canon v : Marshal v = Marshal (canon v).
Proof.
  destruct v as [f s i m pid l tl0 t tid y k key hs kf]. unfold Marshal. do 1 f_equal.
  assert (Hk : Z.land (Z.land key 0x1f) 0x1f = Z.land key 0x1f)
    by (rewrite <- Z.land_assoc; reflexivity).
  unfold canon, MarshalTo.
  cbn [FirstByte S I M PictureID L TL0PICIDX T TID Y K KEYIDX HeaderSize IsKeyFrame].
  destruct i, l, t, k; cbn [orb andb]; rewrite ?Hk; reflexivity.
Qed.

Lemma zlen_encode v :
  zlen (encode v) =
  if ext v then 2 + (if I v then if M v then 2 else 1 else 0) + (if L v then 1 else 0)
                + (if T v || K v then 1 else 0)
  else 1.
Proof.
  unfold encode, pidBytes, tl0Bytes, tkBytes. destruct (ext v); [|done].
  rewrite !zlen_app. destruct (I v), (M v), (L v), (T v), (K v); reflexivity.
Qed.

Lemma need_at pre b post :
  need (pre ++ b :: post) (zlen pre) = Ok b.
Proof.
  unfold need, load, zlookup. rewrite zlen_app. unfold zlen. cbn [length].
  rewrite (proj2 (Z.ltb_ge _ _)) by lia. rewrite (proj2 (Z.leb_le _ _)) by lia.
  by rewrite Nat2Z.id, list_lookup_middle.
Qed.

Lemma need_at' pre b post idx :
  idx = zlen pre -> need (pre ++ b :: post) idx = Ok b.
Proof. intros ->. apply need_at. Qed.

Lemma unmarshalPictureID_encode v v0 pre post :
  wf v -> I v0 = I v -> M v0 = false -> PictureID v0 = 0 ->
  unmarshalPictureID v0 (pre ++ pidBytes v ++ post) (zlen pre - 1) =
  Ok (v0 <| M := M v |> <| PictureID := PictureID v |>, zlen (pre ++ pidBytes v) - 1).
Proof.
  intros Hwf HI HM HP. pose proof (wf_pid v Hwf) as Hp.
  unfold unmarshalPictureID, pidBytes. rewrite HI, zlen_app. destruct (I v).
  - replace (zlen pre - 1 + 1) with (zlen pre) by lia.
    destruct (M v) eqn:EM.
    + cbn [app]. rewrite need_at. cbn [res_bind].
      destruct (pid_hi_lo _ Hp) as (H1 & H2 & H3 & _). rewrite H2. cbn.
      change (?a :: ?b :: post) with ([a] ++ b :: post). rewrite app_assoc.
      rewrite need_at' by (rewrite zlen_app; reflexivity). cbn.
      rewrite H1, H3. f_equal. f_equal. unfold zlen. cbn. lia.
    + cbn [app]. rewrite need_at. cbn [res_bind].
      destruct (pid_short _ Hp) as (H1 & H2 & _). rewrite H1, H2. cbn.
      f_equal. f_equal. unfold zlen. cbn. lia.
  - destruct Hp as [-> ->]. cbn. rewrite Z.add_0_r. destruct v0; cbn in *. by subst.
Qed.

Lemma unmarshalTL0_encode v v0 pre post :
  wf v -> L v0 = L v -> TL0PICIDX v0 = 0 ->
  unmarshalTL0 v0 (pre ++ tl0Bytes v ++ post) (zlen pre - 1) =
  Ok (v0 <| TL0PICIDX := TL0PICIDX v |>, zlen (pre ++ tl0Bytes v) - 1).
Proof.
  intros Hwf HL H0. pose proof (wf_tl0 v Hwf) as Hp.
  unfold unmarshalTL0, tl0Bytes. rewrite HL, zlen_app. destruct (L v).
  - replace (zlen pre - 1 + 1) with (zlen pre) by lia. cbn [app]. rewrite need_at. cbn.
    f_equal. f_equal. unfold zlen. cbn. lia.
  - cbn. rewrite Z.add_0_r, Hp. destruct v0; cbn in *. by subst.
Qed.

Lemma unmarshalTK_encode v v0 pre post :
  wf v -> T v0 = T v -> K v0 = K v -> TID v0 = 0 -> Y v0 = false -> KEYIDX v0 = 0 ->
  unmarshalTK v0 (pre ++ tkBytes v ++ post) (zlen pre - 1) =
  Ok (v0 <| TID := TID v |> <| Y := Y v |> <| KEYIDX := KEYIDX v |>, zlen (pre ++ tkBytes v) - 1).
Proof.
  intros Hwf HT HK H1 H2 H3. pose proof (wf_tid v Hwf) as Ht. pose proof (wf_key v Hwf) as Hk.
  unfold unmarshalTK, tkBytes. rewrite HT, HK, zlen_app.
  assert (Ht4 : 0 <= TID v < 4) by (destruct (T v); lia).
  assert (Hk32 : 0 <= KEYIDX v < 32) by (destruct (K v); lia).
  pose proof (tk_byte (TID v) (Y v) (KEYIDX v) Ht4 Hk32) as (E1 & E2 & E3 & _).
  destruct (T v || K v) eqn:ETK.
  - replace (zlen pre - 1 + 1) with (zlen pre) by lia. cbn [app]. rewrite need_at.
    cbn [res_bind]. rewrite E1, E2, E3.
    replace (zlen pre + zlen _ - 1) with (zlen pre) by (unfold zlen; cbn; lia).
    destruct v0; cbn in *; subst. destruct (T v), (K v); cbn; try done.
    + by rewrite Hk.
    + destruct Ht as [-> ->]. done.
  - apply orb_false_iff in ETK as [ET EK]. rewrite ET, EK in *.
    destruct Ht as [-> ->]. rewrite Hk. cbn. rewrite Z.add_0_r.
    destruct v0; cbn in *. by subst.
Qed.

Lemma xByte_bits v :
  has (xByte v) 0x80 = I v /\ has (xByte v) 0x40 = L v /\
  has (xByte v) 0x20 = T v /\ has (xByte v) 0x10 = K v.
Proof. unfold xByte. destruct (I v), (L v), (T v), (K v); repeat split; reflexivity. Qed.

(** The decoded descriptor: [IsKeyFrame] is read from the payload. *)
Lemma Unmarshal_encode v p body :
  wf v ->
  Unmarshal zeroVP8 (Some (encode v ++ p :: body)) =
  Ok (v <| IsKeyFrame := (Z.land p 0x01 =? 0) && S v |>).
Proof.
  intros Hwf. pose proof (wf_first v Hwf) as Hf. pose proof (wf_ext v Hwf) as He.
  pose proof (wf_S v Hwf) as HS. pose proof (wf_size v Hwf) as Hsz.
  destruct (first_byte _ Hf) as (Hf1 & Hf2 & Hf3 & Hf4).
  unfold Unmarshal.
  assert (Hlen : zlen (encode v ++ p :: body) <? 1 = false).
  { apply Z.ltb_ge. rewrite zlen_app. unfold zlen. cbn [length]. lia. }
  rewrite Hlen. clear Hlen. unfold encode in *. rewrite <- He in *.
  destruct (has (FirstByte v) 0x80) eqn:EX.
  - specialize (Hf3 eq_refl). rewrite Hf3 in *. clear Hf4 Hf2.
    change (load panicIndex _ 0) with (@Ok vp8_error _ (FirstByte v)). cbn [res_bind].
    rewrite EX.
    set (rest := pidBytes v ++ tl0Bytes v ++ tkBytes v) in *.
    replace (([FirstByte v; xByte v] ++ rest) ++ p :: body)
      with ([FirstByte v; xByte v] ++ pidBytes v ++ tl0Bytes v ++ tkBytes v ++ p :: body)
      by (subst rest; by rewrite <- !app_assoc).
    change (need _ (0 + 1)) with (need ([FirstByte v] ++ xByte v ::
      pidBytes v ++ tl0Bytes v ++ tkBytes v ++ p :: body) (zlen [FirstByte v])).
    rewrite need_at. cbn [res_bind].
    destruct (xByte_bits v) as (-> & -> & -> & ->).
    assert (L v && negb (T v) = false) as HLT.
    { destruct (L v) eqn:EL; [|done]. by rewrite (wf_LT v Hwf EL). }
    match goal with |- context [L ?r && negb (T ?r)] =>
      change (L r && negb (T r)) with (L v && negb (T v)) end.
    rewrite HLT.
    change (0 + 1) with (zlen [FirstByte v; xByte v] - 1).
    rewrite (unmarshalPictureID_encode v) by done. cbn [res_bind].
    rewrite app_assoc, (unmarshalTL0_encode v) by done. cbn [res_bind].
    rewrite app_assoc, (unmarshalTK_encode v) by done. cbn [res_bind].
    rewrite app_assoc, need_at' by lia. cbn.
    rewrite <- HS. subst rest. rewrite <- !app_assoc in *.
    replace (zlen _ - 1 + 1) with (HeaderSize v) by (rewrite Hsz; simpl app; lia).
    by destruct v.
  - specialize (Hf4 eq_refl). rewrite Hf4 in *.
    change (load panicIndex _ 0) with (@Ok vp8_error _ (FirstByte v)). cbn [res_bind].
    rewrite EX. cbn [res_bind].
    change (need _ (0 + 1)) with (need ([FirstByte v] ++ p :: body) (zlen [FirstByte v])).
    rewrite need_at. cbn [res_bind].
    symmetry in He. unfold ext in He.
    pose proof (wf_pid v Hwf) as Hp. pose proof (wf_tl0 v Hwf) as Htl.
    pose proof (wf_tid v Hwf) as Ht. pose proof (wf_key v Hwf) as Hk.
    rewrite !orb_false_iff in He. destruct He as [[[HI HL] HT] HK].
    rewrite HI, HL, HT, HK in *. destruct Hp, Ht. cbn. rewrite <- HS.
    destruct v; cbn in *; subst. reflexivity.
Qed.

(** A well-formed VP8 descriptor survives [Marshal] followed by
    [Unmarshal]: whatever payload follows the header, every field comes back
    and only [IsKeyFrame] is recomputed from the payload. *)
Theorem Marshal_Unmarshal v p body :
  wf v ->
  exists hdr, Marshal v = Ok hdr /\ zlen hdr = HeaderSize v /\
    Unmarshal zeroVP8 (Some (hdr ++ p :: body)) =
    Ok (v <| IsKeyFrame := (Z.land p 0x01 =? 0) && S v |>).
Proof.
  intros Hwf. exists (encode v). split; [by apply Marshal_encode|].
  split; [by rewrite (wf_size v Hwf)|by apply Unmarshal_encode].
Qed.

Definition example_vp8 : VP8 :=
  mkVP8 0x90 true true true 300 true 7 true 2 true true 9 6 true.

Lemma Marshal_Unmarshal_witness :
  wf example_vp8 /\
  exists hdr, Marshal example_vp8 = Ok hdr /\ zlen hdr = 6 /\
    Unmarshal zeroVP8 (Some (hdr ++ 0x10 :: [1; 2])) = Ok (example_vp8 <| IsKeyFrame := true |>).
Proof.
  assert (wf example_vp8) as Hwf.
  { split; try (cbn; unfold byte; lia || done); try reflexivity; vm_compute; intuition congruence. }
  split; [exact Hwf|]. exact (Marshal_Unmarshal example_vp8 0x10 [1; 2] Hwf).
Defined.
