(* ===== verification/Packet.v ===== *)
(** * Packets as the forwarding path sees them

    Models [VideoLayer] ([src/SERVER/pkg/sfu/buffer/videolayer.go]), the parts
    of [ExtPacket] ([.../buffer/buffer_base.go]) and of
    [ExtDependencyDescriptor] ([.../buffer/dependencydescriptorparser.go]) that
    the munger, the layer selectors and the sequencer read.  The VP9 payload
    type belongs to a third-party package: [VP9Packet] keeps only the flags the
    source reads. *)

From S2P Require Import Prelude DdTypes.
From S2P Require Import Vp8.

(** ** Video layers *)

Record VideoLayer := mkLayer { Spatial : Z; Temporal : Z }.
#[export] Instance eta_VideoLayer : Eta VideoLayer :=
  fun l => mkLayer (Spatial l) (Temporal l).

#[export] Instance VideoLayer_eq_dec : EqDecision VideoLayer.
Proof. solve_decision. Defined.

Definition InvalidLayerSpatial : Z := -1.
Definition InvalidLayerTemporal : Z := -1.
Definition DefaultMaxLayerSpatial : Z := 2.
Definition DefaultMaxLayerTemporal : Z := 3.
Definition InvalidLayer : VideoLayer := mkLayer InvalidLayerSpatial InvalidLayerTemporal.
Definition DefaultMaxLayer : VideoLayer := mkLayer DefaultMaxLayerSpatial DefaultMaxLayerTemporal.

Definition GreaterThan (v v2 : VideoLayer) : bool :=
  (Spatial v >? Spatial v2) || ((Spatial v =? Spatial v2) && (Temporal v >? Temporal v2)).

Definition IsValid (v : VideoLayer) : bool :=
  negb (Spatial v =? InvalidLayerSpatial) && negb (Temporal v =? InvalidLayerTemporal).

Lemma GreaterThan_irrefl v : GreaterThan v v = false.
Proof. unfold GreaterThan. rewrite !Z.gtb_ltb, !Z.ltb_irrefl. by destruct (_ =? _). Qed.

Lemma GreaterThan_trans a b c :
  GreaterThan a b = true -> GreaterThan b c = true -> GreaterThan a c = true.
Proof. unfold GreaterThan. rewrite !Z.gtb_ltb. lia. Qed.

Lemma GreaterThan_total a b :
  GreaterThan a b = true \/ a = b \/ GreaterThan b a = true.
Proof.
  unfold GreaterThan. rewrite !Z.gtb_ltb. destruct a as [s t], b as [s' t']; cbn.
  destruct (Z.lt_trichotomy s s') as [|[->|]]; [lia| |lia].
  destruct (Z.lt_trichotomy t t') as [|[->|]]; [lia|tauto|lia].
Qed.

(** ** Packets *)

Record DecodeTargetLayer := mkDecodeTargetLayer {
  Target : Z;
  Layer : VideoLayer;
}.

Record ExtDependencyDescriptor := mkExtDD {
  Descriptor : DependencyDescriptor;
  DecodeTargets : list DecodeTargetLayer;
  StructureUpdated : bool;
  ActiveDecodeTargetsUpdated : bool;
  Integrity : bool;
  ExtFrameNum : Z;
  ExtKeyFrameNum : Z;
  RestartGeneration : Z;
}.

Record VP9Packet := mkVP9Packet { VP9_P : bool; VP9_B : bool; VP9_E : bool; VP9_U : bool }.

(** [ExtPacket.Payload] *)
Inductive PayloadInfo :=
| PayloadNone
| PayloadVP8 (vp8 : VP8)
| PayloadVP9 (vp9 : VP9Packet).

Record ExtPacket := mkExtPacket {
  Layers : VideoLayer;
  ExtSequenceNumber : Z;
  ExtTimestamp : Z;
  Marker : bool;
  PayloadLen : Z;      (** [len(Packet.Payload)] *)
  Payload : PayloadInfo;
  PktIsKeyFrame : bool;
  PktDD : option ExtDependencyDescriptor;
  IsOutOfOrder : bool;
}.
#[export] Instance eta_ExtPacket : Eta ExtPacket := fun p =>
  mkExtPacket (Layers p) (ExtSequenceNumber p) (ExtTimestamp p) (Marker p) (PayloadLen p)
    (Payload p) (PktIsKeyFrame p) (PktDD p) (IsOutOfOrder p).

(** A packet of a plain stream, for examples. *)
Definition plain_packet (sn ts : Z) (marker key : bool) (len : Z) : ExtPacket :=
  mkExtPacket (mkLayer 0 0) sn ts marker len PayloadNone key None false.
