(* ===== verification/RtpMunger.v ===== *)
(** * RTPMunger: rewriting sequence numbers and timestamps

    Models [src/SERVER/pkg/sfu/rtpmunger.go] on top of [RangeMap].  Logging
    calls are dropped.  The theorems show that the sequence numbers the munger
    emits in order are strictly increasing with no gap of its own making,
    that dropping a packet gives its number to the next one, that padding
    takes fresh numbers, and that while one source is followed no two packets,
    late ones included, leave with the same number. *)

From S2P Require Import Prelude DdTypes.
From S2P Require Import Packet RangeMap.

Inductive SequenceNumberOrdering :=
| SequenceNumberOrderingContiguous
| SequenceNumberOrderingOutOfOrder
| SequenceNumberOrderingGap
| SequenceNumberOrderingDuplicate.

#[export] Instance sn_ordering_eq_dec : EqDecision SequenceNumberOrdering.
Proof. solve_decision. Defined.

Inductive munger_error :=
| errOutOfOrderSequenceNumberCacheMiss
| errPaddingOnlyPacket
| errDuplicatePacket
| errPaddingNotOnFrameBoundary.

Definition RtxGateWindow : Z := 2000.

Record TranslationParamsRTP := mkParams {
  snOrdering : SequenceNumberOrdering;
  extSequenceNumber : Z;
  extTimestamp : Z;
}.

Record SnTs := mkSnTs { snts_sn : Z; snts_ts : Z }.
#[export] Instance eta_SnTs : Eta SnTs := fun v => mkSnTs (snts_sn v) (snts_ts v).

Record RTPMunger := mkRTPMunger {
  extHighestIncomingSN : Z;
  snRangeMap : RangeMap;
  extLastSN : Z;
  extSecondLastSN : Z;
  snOffset : Z;
  extLastTS : Z;
  extSecondLastTS : Z;
  tsOffset : Z;
  lastMarker : bool;
  secondLastMarker : bool;
  extRtxGateSn : Z;
  isInRtxGateRegion : bool;
}.
#[export] Instance eta_RTPMunger : Eta RTPMunger := fun r =>
  mkRTPMunger (extHighestIncomingSN r) (snRangeMap r) (extLastSN r) (extSecondLastSN r)
    (snOffset r) (extLastTS r) (extSecondLastTS r) (tsOffset r) (lastMarker r)
    (secondLastMarker r) (extRtxGateSn r) (isInRtxGateRegion r).

(** [hublive.RTPMungerState] *)
Record RTPMungerState := mkMungerState {
  ExtLastSequenceNumber : Z;
  ExtSecondLastSequenceNumber : Z;
  ExtLastTimestamp : Z;
  ExtSecondLastTimestamp : Z;
  LastMarker : bool;
  SecondLastMarker : bool;
}.

Definition NewRTPMunger : RTPMunger :=
  mkRTPMunger 0 (NewRangeMap U64 100) 0 0 0 0 0 0 false false 0 false.

Definition GetState (r : RTPMunger) : RTPMungerState :=
  mkMungerState (extLastSN r) (extSecondLastSN r) (extLastTS r) (extSecondLastTS r)
    (lastMarker r) (secondLastMarker r).

Definition SeedState (state : RTPMungerState) (r : RTPMunger) : RTPMunger :=
  r <| extLastSN := ExtLastSequenceNumber state |>
    <| extSecondLastSN := ExtSecondLastSequenceNumber state |>
    <| extLastTS := ExtLastTimestamp state |>
    <| extSecondLastTS := ExtSecondLastTimestamp state |>
    <| lastMarker := LastMarker state |>
    <| secondLastMarker := SecondLastMarker state |>.

(** The value is used even when the lookup fails (it is zero then). *)
Definition updateSnOffset (r : RTPMunger) : RTPMunger :=
  r <| snOffset := fst (GetValue U64 (snRangeMap r) (u64 (extHighestIncomingSN r + 1))) |>.

Definition SetLastSnTs (p : ExtPacket) (r : RTPMunger) : RTPMunger :=
  let r := r <| extHighestIncomingSN := u64 (ExtSequenceNumber p - 1) |>
             <| extLastSN := ExtSequenceNumber p |> in
  let r := r <| extSecondLastSN := u64 (extLastSN r - 1) |>
             <| snRangeMap := ClearAndResetValue (ExtSequenceNumber p) 0 (snRangeMap r) |> in
  let r := updateSnOffset r in
  r <| extLastTS := ExtTimestamp p |> <| extSecondLastTS := ExtTimestamp p |> <| tsOffset := 0 |>.

Definition UpdateSnTsOffsets (p : ExtPacket) (snAdjust tsAdjust : Z) (r : RTPMunger) : RTPMunger :=
  let r := r <| extHighestIncomingSN := u64 (ExtSequenceNumber p - 1) |> in
  let r := r <| snRangeMap := ClearAndResetValue (ExtSequenceNumber p)
                  (u64 (u64 (ExtSequenceNumber p - extLastSN r) - snAdjust)) (snRangeMap r) |> in
  let r := updateSnOffset r in
  r <| tsOffset := u64 (u64 (ExtTimestamp p - extLastTS r) - tsAdjust) |>.

Definition PacketDropped (p : ExtPacket) (r : RTPMunger) : RTPMunger :=
  if negb (extHighestIncomingSN r =? ExtSequenceNumber p) then r
  else
    let r := r <| snRangeMap := fst (ExcludeRange U64 U64 (extHighestIncomingSN r)
                    (u64 (extHighestIncomingSN r + 1)) (snRangeMap r)) |> in
    let r := r <| extLastSN := extSecondLastSN r |> in
    let r := updateSnOffset r in
    r <| extLastTS := extSecondLastTS r |> <| lastMarker := secondLastMarker r |>.

(** The key frame gate of [UpdateAndGetSnTs]. *)
Definition updateRtxGate (p : ExtPacket) (extMungedSN : Z) (r : RTPMunger) : RTPMunger :=
  let r := if PktIsKeyFrame p then
             r <| extRtxGateSn := extMungedSN |> <| isInRtxGateRegion := true |>
           else r in
  if isInRtxGateRegion r && (u64 (extMungedSN - extRtxGateSn r) >? RtxGateWindow) then
    r <| isInRtxGateRegion := false |>
  else r.

Definition UpdateAndGetSnTs (p : ExtPacket) (marker : bool) (r : RTPMunger)
  : RTPMunger * TranslationParamsRTP * option munger_error :=
  let diff := i64 (u64 (ExtSequenceNumber p - extHighestIncomingSN r)) in
  if ((diff =? 1) && negb (PayloadLen p =? 0)) || (diff >? 1) then
    let r := r <| extHighestIncomingSN := ExtSequenceNumber p |> in
    let ordering := if diff >? 1 then SequenceNumberOrderingGap
                    else SequenceNumberOrderingContiguous in
    let extMungedSN := u64 (ExtSequenceNumber p - snOffset r) in
    let extMungedTS := u64 (ExtTimestamp p - tsOffset r) in
    let r := r <| extSecondLastSN := extLastSN r |> <| extLastSN := extMungedSN |>
               <| extSecondLastTS := extLastTS r |> <| extLastTS := extMungedTS |>
               <| secondLastMarker := lastMarker r |> <| lastMarker := marker |> in
    (updateRtxGate p extMungedSN r, mkParams ordering extMungedSN extMungedTS, None)
  else if diff <? 0 then
    let '(off, err) := GetValue U64 (snRangeMap r) (ExtSequenceNumber p) in
    match err with
    | Some _ => (r, mkParams SequenceNumberOrderingOutOfOrder 0 0,
                 Some errOutOfOrderSequenceNumberCacheMiss)
    | None =>
      let sn := u64 (ExtSequenceNumber p - off) in
      if sn >=? extLastSN r then
        (r, mkParams SequenceNumberOrderingOutOfOrder 0 0,
         Some errOutOfOrderSequenceNumberCacheMiss)
      else
        (r, mkParams SequenceNumberOrderingOutOfOrder sn (u64 (ExtTimestamp p - tsOffset r)), None)
    end
  else if diff =? 1 then
    let r := r <| extHighestIncomingSN := ExtSequenceNumber p |> in
    let r := r <| snRangeMap := fst (ExcludeRange U64 U64 (extHighestIncomingSN r)
                    (u64 (extHighestIncomingSN r + 1)) (snRangeMap r)) |> in
    let r := updateSnOffset r in
    (r, mkParams SequenceNumberOrderingContiguous 0 0, Some errPaddingOnlyPacket)
  else
    (r, mkParams SequenceNumberOrderingDuplicate 0 0, Some errDuplicatePacket).

Definition FilterRTX (nacks : list Z) (r : RTPMunger) : list Z :=
  if negb (isInRtxGateRegion r) then nacks
  else List.filter (fun sn => u16 (sn - u16 (extRtxGateSn r)) <? Z.shiftl 1 15) nacks.

(** One iteration of the padding loop: the new [extLastSN], the new
    [extLastTS] and [vals[i]]. *)
Definition padding_step (clockRate frameRate tsOff : Z) (useLastTSForFirst : bool)
  (extRtpTimestamp lastTS0 : Z) (i extLastSN extLastTS : Z) : Z * Z * SnTs :=
  let extLastSN := u64 (extLastSN + 1) in
  if negb (frameRate =? 0) then
    if useLastTSForFirst && (i =? 0) then (extLastSN, extLastTS, mkSnTs extLastSN lastTS0)
    else
      let ets := u64 (extRtpTimestamp +
                   u32 (u32 (u32 (u32 (i + 1 - tsOff) * clockRate) + frameRate) - 1) / frameRate) in
      let ets := if i64 (u64 (ets - extLastTS)) <=? 0 then u64 (extLastTS + 1) else ets in
      (extLastSN, ets, mkSnTs extLastSN ets)
  else (extLastSN, extLastTS, mkSnTs extLastSN lastTS0).

(** [for i := range num], counting [k] remaining iterations. *)
Fixpoint padding_loop (clockRate frameRate tsOff : Z) (useLastTSForFirst : bool)
  (extRtpTimestamp lastTS0 : Z) (k : nat) (i extLastSN extLastTS : Z) : Z * Z * list SnTs :=
  match k with
  | O => (extLastSN, extLastTS, [])
  | S k =>
    let '(sn, ts, v) := padding_step clockRate frameRate tsOff useLastTSForFirst
                          extRtpTimestamp lastTS0 i extLastSN extLastTS in
    let '(sn', ts', vs) := padding_loop clockRate frameRate tsOff useLastTSForFirst
                             extRtpTimestamp lastTS0 k (i + 1) sn ts in
    (sn', ts', v :: vs)
  end.

(** The state update that follows the padding loop: [sn] and [ts] are the last
    sequence number and timestamp used. *)
Definition paddingUpdate (num : Z) (forceMarker : bool) (sn ts : Z) (vals : list SnTs)
  (r : RTPMunger) : RTPMunger :=
  let r := r <| extSecondLastSN := u64 (sn - 1) |> <| extLastSN := sn |>
             <| snRangeMap := DecValue U64 U64 (extHighestIncomingSN r) num (snRangeMap r) |> in
  let r := updateSnOffset r in
  let r := if zlen vals =? 1 then r <| extSecondLastTS := extLastTS r |>
           else match zlookup vals (zlen vals - 2) with
                | Some v => r <| extSecondLastTS := snts_ts v |>
                | None => r
                end in
  let r := r <| tsOffset := u64 (tsOffset r - u64 (ts - extLastTS r)) |> in
  let r := r <| extLastTS := ts |> <| secondLastMarker := lastMarker r |> in
  if forceMarker then r <| lastMarker := true |> else r.

Definition UpdateAndGetPaddingSnTs (num clockRate frameRate : Z) (forceMarker : bool)
  (extRtpTimestamp : Z) (r : RTPMunger) : RTPMunger * res munger_error (list SnTs) :=
  if num =? 0 then (r, Ok [])
  else if negb (lastMarker r) && negb forceMarker then (r, Err errPaddingNotOnFrameBoundary)
  else
    (* when forcing a frame end the first padding packet takes the latest frame's timestamp *)
    let useLastTSForFirst := negb (lastMarker r) in
    let tsOff := if negb (lastMarker r) then 1 else 0 in
    let '(sn, ts, vals) := padding_loop clockRate frameRate tsOff useLastTSForFirst
                             extRtpTimestamp (extLastTS r) (Z.to_nat num) 0
                             (extLastSN r) (extLastTS r) in
    (paddingUpdate num forceMarker sn ts vals r, Ok vals).

Definition IsOnFrameBoundary (r : RTPMunger) : bool := lastMarker r.

(** ** The invariant *)

(** Outgoing number of the first key of a range. *)
Definition out_start (x : rangeVal) : Z := u64 (start x - value x).

(** Consecutive ranges map to increasing outgoing numbers. *)
Fixpoint out_mono (l : list rangeVal) : Prop :=
  match l with
  | x :: ((y :: _) as t) => out_start x + (end_ x - start x) < out_start y /\ out_mono t
  | _ => True
  end.

(** Outgoing number that the incoming packet [h + 1] will get. *)
Definition next_out (lr : rangeVal) (h : Z) : Z := out_start lr + (h + 1 - start lr).

Definition max_sn : Z := 9223372036854775807.

(** The map is ordered, the cached offset is the open range's, and the next
    incoming number maps to [extLastSN + a].  Between two packets of a source
    [a = 1]; after a source switch [a] is the requested jump. *)
Record inv_at (lr : rangeVal) (a : Z) (m : RTPMunger) : Prop := {
  inv_wf : wf U64 (snRangeMap m);
  inv_last : last (ranges (snRangeMap m)) = Some lr;
  inv_start : start lr <= extHighestIncomingSN m + 1;
  inv_high : 0 <= extHighestIncomingSN m < max_sn;
  inv_off : snOffset m = value lr;
  inv_val : 0 <= value lr < 18446744073709551616;
  inv_mono : out_mono (ranges (snRangeMap m));
  inv_next : next_out lr (extHighestIncomingSN m) = extLastSN m + a;
  inv_bound : 0 <= extLastSN m < max_sn;
}.

(** The next incoming number maps to [extLastSN + a]. *)
Definition inv_plus (a : Z) (m : RTPMunger) : Prop := exists lr, inv_at lr a m.
Definition inv (m : RTPMunger) : Prop := inv_plus 1 m.

Lemma out_start_range x : 0 <= out_start x < 18446744073709551616.
Proof. apply u64_range. Qed.

(** Within a range the outgoing number advances with the key. *)
Lemma out_key x k :
  start x <= k -> out_start x + (k - start x) < 18446744073709551616 ->
  u64 (k - value x) = out_start x + (k - start x).
Proof.
  intros Hk Hb. pose proof (out_start_range x). unfold out_start in *.
  replace (k - value x) with ((start x - value x) + (k - start x)) by lia.
  unfold u64 in *. rewrite <- Z.add_mod_idemp_l by lia. apply Z.mod_small. lia.
Qed.

Lemma out_mono_drop n l : out_mono l -> out_mono (drop n l).
Proof.
  revert n. induction l as [|x l IH]; intros [|n] H; try done.
  simpl drop. apply IH. destruct l; [done|apply H].
Qed.

Lemma out_mono_app pre o t :
  out_mono (pre ++ [o]) -> out_mono t ->
  (forall n, head t = Some n -> out_start o <= out_start n) -> out_mono (pre ++ t).
Proof.
  intros Ho Ht Hn. induction pre as [|x pre IH]; [done|].
  destruct pre as [|y pre].
  - destruct t as [|n t]; [done|]. specialize (Hn n eq_refl). destruct Ho. split; [lia|done].
  - destruct Ho as [H1 H2]. split; [done|]. by apply IH.
Qed.

Lemma out_mono_step l i a b :
  out_mono l -> l !! i = Some a -> l !! S i = Some b ->
  out_start a + (end_ a - start a) < out_start b.
Proof.
  revert i. induction l as [|x l IH]; intros i Hm Ha Hb; [done|].
  destruct l as [|y t]; [by destruct i|].
  destruct i as [|i]; cbn in Ha, Hb; [simplify_eq; apply Hm|].
  eapply (IH i); [apply Hm|done|done].
Qed.

(** Earlier ranges stay below later ones. *)
Lemma out_mono_lt l i j a b :
  wf_ranges l -> out_mono l -> l !! i = Some a -> l !! j = Some b -> (i < j)%nat ->
  out_start a + (end_ a - start a) < out_start b.
Proof.
  intros Hwf Hm Ha. revert b. induction j as [|j IH]; intros b Hb Hij; [lia|].
  destruct (decide (i = j)) as [->|]; [eauto using out_mono_step|].
  destruct (l !! j) as [c|] eqn:Hc.
  - pose proof (IH c eq_refl ltac:(lia)).
    pose proof (out_mono_step l j c b Hm Hc Hb).
    destruct (wf_ranges_step l j c b Hwf Hc Hb). lia.
  - apply lookup_ge_None in Hc. apply lookup_lt_Some in Hb. lia.
Qed.

(** ** Where a successful lookup lands *)

Lemma find_range_inv l key v :
  find_range l key = (v, None) ->
  exists i rv, l !! i = Some rv /\ value rv = v /\ start rv <= key /\
    (Datatypes.S i = length l \/ key <= end_ rv).
Proof.
  induction l as [|x [|y t] IH]; intros H; [done| |].
  - cbn in H. destruct (Z.leb_spec (start x) key); simplify_eq.
    exists 0%nat, x. auto.
  - rewrite find_range_cons in H. destruct (Z.leb_spec key (end_ x)).
    + destruct (Z.leb_spec (start x) key); simplify_eq. exists 0%nat, x. auto.
    + destruct (IH H) as (i & rv & Hi & Hv & Hs & He).
      exists (Datatypes.S i), rv. repeat split; try done.
      destruct He as [He|He]; [left; cbn in *; lia|by right].
Qed.

Lemma GetValue_inv r key v :
  wf U64 r -> in_uint U64 key -> GetValue U64 r key = (v, None) ->
  exists i rv, ranges r !! i = Some rv /\ value rv = v /\ start rv <= key /\
    (Datatypes.S i = length (ranges r) \/ key <= end_ rv).
Proof.
  intros Hwf Hk H. rewrite GetValue_is_lookup in H by done.
  unfold lookup_ranges in H. destruct (ranges r) as [|fr t] eqn:E; [done|].
  case_if_in H; [done|]. by apply find_range_inv.
Qed.

(** The outgoing number of a mapped key, without wrap-around. *)
Lemma mapped_key lr m key v :
  inv_at lr 1 m -> 0 <= key <= extHighestIncomingSN m ->
  GetValue U64 (snRangeMap m) key = (v, None) ->
  exists i rv, ranges (snRangeMap m) !! i = Some rv /\ start rv <= key /\
    (Datatypes.S i = length (ranges (snRangeMap m)) \/ key <= end_ rv) /\
    u64 (key - v) = out_start rv + (key - start rv) /\ u64 (key - v) <= extLastSN m.
Proof.
  intros Hi Hk H. destruct Hi as [Hwf Hl Hst Hh Ho Hv Hm Hn Hb].
  apply GetValue_inv in H as (i & rv & Hi & <- & Hs & He);
    [|done|unfold in_uint, umod, max_sn in *; lia].
  exists i, rv. do 3 (split; [done|]).
  pose proof Hl as Hl'. rewrite last_lookup_length in Hl'.
  unfold next_out, max_sn in *.
  enough (out_start rv + (key - start rv) <= extLastSN m).
  { rewrite (out_key rv key); lia. }
  pose proof (lookup_lt_Some _ _ _ Hi).
  destruct (decide (i = length (ranges (snRangeMap m)) - 1)%nat) as [->|Hne].
  - simplify_eq. lia.
  - destruct He as [He|He]; [lia|].
    pose proof (out_mono_lt _ i (length (ranges (snRangeMap m)) - 1) rv lr
      ltac:(apply Hwf) Hm Hi Hl' ltac:(lia)). lia.
Qed.

(** ** Effect of the range map updates on the outgoing numbers *)

Lemma u64_add_1 x : 0 <= x < max_sn -> u64 (x + 1) = x + 1.
Proof. unfold max_sn. intros. apply u64_small. lia. Qed.

(** [RangeMap.ExcludeRange(h, h+1)]: the next key inherits the number that
    [h] would have had. *)
Lemma exclude_one r lr h :
  wf U64 r -> last (ranges r) = Some lr -> start lr <= h -> 0 <= h < max_sn ->
  out_mono (ranges r) -> next_out lr h < 18446744073709551616 ->
  0 <= value lr < 18446744073709551616 ->
  exists lr', let r' := fst (ExcludeRange U64 U64 h (u64 (h + 1)) r) in
    wf U64 r' /\ last (ranges r') = Some lr' /\ start lr' = h + 1 /\
    0 <= value lr' < 18446744073709551616 /\
    out_mono (ranges r') /\ out_start lr' = next_out lr (h - 1).
Proof.
  intros Hwf Hl Hs Hh Hm Hb Hv. rewrite u64_add_1 by done.
  assert (halfRange r = 9223372036854775808) as Hhalf by apply Hwf.
  assert (wf U64 (fst (ExcludeRange U64 U64 h (h + 1) r))) as Hwf'.
  { eapply ExcludeRange_wf; [done|unfold max_sn in *; lia..|done]. }
  rewrite (ExcludeRange_ok _ _ r lr) in * by (done || unfold max_sn in *; lia).
  cbv zeta in *. replace (h + 1 - h) with 1 in * by lia.
  set (nv := wrap U64 (value lr + wrap U64 1)) in *.
  assert (Hnv : 0 <= nv < 18446744073709551616) by apply (wrap_range U64).
  assert (Hout : u64 (h + 1 - nv) = next_out lr (h - 1)).
  { unfold next_out in *. replace (h - 1 + 1) with h in * by lia.
    rewrite <- (out_key lr h) by lia. subst nv.
    clear -Hv. glia. }
  pose proof (wf_last _ _ Hwf) as (pre & lr2 & Hr & Hl2 & _ & _). simplify_eq.
  cbn [fst] in *. destruct (start lr =? h) eqn:E.
  - exists (lr <| start := h + 1 |> <| value := nv |>).
    split; [exact Hwf'|]. cbn [ranges field_upd]. unfold replace_last.
    rewrite Hr, removelast_last in *. rewrite last_snoc.
    repeat split; try done; try (cbn; lia).
    eapply out_mono_app; [exact Hm|done|]. intros ? [= <-].
    bool_prop. unfold out_start at 2. cbn. rewrite Hout. unfold next_out. lia.
  - exists (mkRangeVal (h + 1) 0 nv). split; [exact Hwf'|].
    bool_prop. rewrite prune_last by apply Hwf.
    set (r1 := r <| ranges := _ |>) in *.
    assert (Hr1 : ranges r1 = pre ++ [lr <| end_ := h - 1 |>; mkRangeVal (h + 1) 0 nv]).
    { subst r1. cbn. unfold replace_last. by rewrite Hr, removelast_last, <- app_assoc. }
    rewrite Hr1. split; [change [?a; ?n] with ([a] ++ [n]); by rewrite app_assoc, last_snoc|].
    repeat split; try done; try (cbn; lia).
    destruct (ranges_prune r1) as [n ->]. apply out_mono_drop. rewrite Hr1, Hr in *.
    eapply out_mono_app; [exact Hm| |intros ? [= <-]; unfold out_start; cbn; lia].
    split; [|done]. change (out_start lr + (h - 1 - start lr) < u64 (h + 1 - nv)).
    rewrite Hout. unfold next_out. lia.
Qed.

(** [RangeMap.DecValue(h, num)]: [num] fresh numbers before those of the keys
    above [h]. *)
Lemma dec_num r lr h num :
  wf U64 r -> last (ranges r) = Some lr -> start lr <= h + 1 -> 0 <= h < max_sn ->
  out_mono (ranges r) -> 0 <= num -> next_out lr h + num < 18446744073709551616 ->
  0 <= value lr < 18446744073709551616 ->
  exists lr', let r' := DecValue U64 U64 h num r in
    wf U64 r' /\ last (ranges r') = Some lr' /\ start lr' = h + 1 /\
    0 <= value lr' < 18446744073709551616 /\
    out_mono (ranges r') /\ out_start lr' = next_out lr h + num.
Proof.
  intros Hwf Hl Hs Hh Hm Hn Hb Hv.
  assert (halfRange r = 9223372036854775808) as Hhalf by apply Hwf.
  rewrite (DecValue_ok _ _ r lr) by (done || unfold max_sn in *; lia).
  set (nv := wrap U64 (value lr - num)).
  assert (Hnv : 0 <= nv < 18446744073709551616) by apply (wrap_range U64).
  assert (Hout : u64 (h + 1 - nv) = next_out lr h + num).
  { unfold next_out in *. rewrite <- (Z.mod_small (_ + num) 18446744073709551616)
      by (pose proof (out_start_range lr); lia).
    subst nv. unfold out_start. clear -Hv Hn. unfold u64, wrap, umod.
    rewrite Zminus_mod_idemp_r, <- (Z.add_assoc (_ mod _)), Z.add_mod_idemp_l by lia.
    f_equal. lia. }
  pose proof (wf_last _ _ Hwf) as (pre & lr2 & Hr & Hl2 & _ & _). simplify_eq.
  rewrite Z.gtb_ltb. destruct (Z.ltb_spec h (start lr)).
  - exists (lr <| value := nv |>). cbv zeta.
    split; [eapply set_open_wf; [done..|cbn; unfold max_sn in *; lia]|].
    cbn [ranges field_upd]. unfold replace_last. rewrite Hr, removelast_last in *.
    rewrite last_snoc. assert (start lr = h + 1) as Hst by lia.
    repeat split; try done; try (cbn; lia).
    + eapply out_mono_app; [exact Hm|done|]. intros ? [= <-].
      unfold out_start at 2. cbn. rewrite Hst, Hout. unfold next_out. lia.
    + unfold out_start at 1. cbn. by rewrite Hst, Hout.
  - exists (mkRangeVal (h + 1) 0 nv). cbv zeta.
    set (r1 := r <| ranges := _ |>) in *.
    destruct (close_and_open U64 r lr h (mkRangeVal (h + 1) 0 nv) 0 Hwf) as [Hwf' _];
      [unfold in_uint, umod; lia|done|cbn; lia|cbn; unfold max_sn in *; lia|].
    split; [exact Hwf'|]. rewrite prune_last by apply Hwf.
    assert (Hr1 : ranges r1 = pre ++ [lr <| end_ := h |>; mkRangeVal (h + 1) 0 nv]).
    { subst r1. cbn. unfold replace_last. by rewrite Hr, removelast_last, <- app_assoc. }
    rewrite Hr1. split; [change [?a; ?n] with ([a] ++ [n]); by rewrite app_assoc, last_snoc|].
    repeat split; try done; try (cbn; lia).
    destruct (ranges_prune r1) as [n ->]. apply out_mono_drop. rewrite Hr1, Hr in *.
    eapply out_mono_app; [exact Hm| |intros ? [= <-]; unfold out_start; cbn; lia].
    split; [|done]. change (out_start lr + (h - start lr) < u64 (h + 1 - nv)).
    rewrite Hout. unfold next_out. lia.
Qed.

(** ** One operation at a time *)

Lemma sn_diff a b :
  0 <= a < max_sn -> 0 <= b < max_sn -> i64 (u64 (a - b)) = a - b.
Proof. unfold max_sn. intros. glia. Qed.

(** The updates that follow the offset computation do not touch the
    translation state. *)
Definition same_translation (m m' : RTPMunger) : Prop :=
  extHighestIncomingSN m' = extHighestIncomingSN m /\ snRangeMap m' = snRangeMap m /\
  extLastSN m' = extLastSN m /\ snOffset m' = snOffset m.

Lemma inv_at_same lr a m m' : inv_at lr a m -> same_translation m m' -> inv_at lr a m'.
Proof.
  intros [] (Hh & Hr & Hl & Ho). split; rewrite ?Hh, ?Hr, ?Hl, ?Ho; done.
Qed.

(** A packet ahead of everything seen: contiguous with payload, or after a gap. *)
Definition in_order (p : ExtPacket) (m : RTPMunger) : Prop :=
  let d := ExtSequenceNumber p - extHighestIncomingSN m in
  1 < d \/ (d = 1 /\ PayloadLen p <> 0).

(** The state after forwarding an in-order packet. *)
Definition forwarded (p : ExtPacket) (marker : bool) (r : RTPMunger) : RTPMunger :=
  let sn := u64 (ExtSequenceNumber p - snOffset r) in
  updateRtxGate p sn
    (r <| extHighestIncomingSN := ExtSequenceNumber p |>
       <| extSecondLastSN := extLastSN r |> <| extLastSN := sn |>
       <| extSecondLastTS := extLastTS r |> <| extLastTS := u64 (ExtTimestamp p - tsOffset r) |>
       <| secondLastMarker := lastMarker r |> <| lastMarker := marker |>).

Lemma updateRtxGate_same p sn m :
  let m' := updateRtxGate p sn m in
  same_translation m m' /\ extSecondLastSN m' = extSecondLastSN m /\
  extLastTS m' = extLastTS m /\ extSecondLastTS m' = extSecondLastTS m /\
  lastMarker m' = lastMarker m /\ secondLastMarker m' = secondLastMarker m /\
  tsOffset m' = tsOffset m.
Proof. cbv zeta. unfold updateRtxGate. destruct (PktIsKeyFrame p); case_if; repeat split. Qed.

Lemma UpdateAndGetSnTs_forward m p marker :
  0 <= extHighestIncomingSN m < max_sn -> in_order p m -> ExtSequenceNumber p < max_sn ->
  UpdateAndGetSnTs p marker m =
  (forwarded p marker m,
   mkParams (if ExtSequenceNumber p - extHighestIncomingSN m >? 1 then SequenceNumberOrderingGap
             else SequenceNumberOrderingContiguous)
     (u64 (ExtSequenceNumber p - snOffset m)) (u64 (ExtTimestamp p - tsOffset m)), None).
Proof.
  intros Hh Hio Hsn. unfold in_order in Hio. unfold UpdateAndGetSnTs.
  rewrite sn_diff by (unfold max_sn in *; lia).
  set (d := ExtSequenceNumber p - extHighestIncomingSN m) in *.
  assert ((d =? 1) && negb (PayloadLen p =? 0) || (d >? 1) = true) as -> by lia.
  reflexivity.
Qed.

Lemma forwarded_inv lr a m p marker :
  inv_at lr a m -> extHighestIncomingSN m < ExtSequenceNumber p < max_sn ->
  let sn := extLastSN m + a + (ExtSequenceNumber p - extHighestIncomingSN m - 1) in
  0 <= sn < max_sn ->
  u64 (ExtSequenceNumber p - snOffset m) = sn /\
  inv_at lr 1 (forwarded p marker m) /\ extLastSN (forwarded p marker m) = sn.
Proof.
  intros [Hwf Hl Hst Hh Ho Hv Hm Hn Hlb] Hp sn Hb.
  assert (Hout : u64 (ExtSequenceNumber p - snOffset m) = sn).
  { rewrite Ho, out_key; unfold next_out, max_sn, sn in *; lia. }
  split; [done|]. unfold forwarded. rewrite Hout.
  match goal with |- context [updateRtxGate p ?s ?m1] =>
    destruct (updateRtxGate_same p s m1) as (Hs & _); set (m2 := m1) in * end.
  split; [|by destruct Hs as (_ & _ & -> & _)].
  eapply inv_at_same; [|exact Hs]. unfold m2.
  split; cbn; try assumption; unfold next_out, sn, max_sn in *; lia.
Qed.

(** Excluding the packet at [h] from the map gives the number [h] would have
    had to the next one. *)
Lemma exclude_inv lr r h m a :
  wf U64 r -> last (ranges r) = Some lr -> start lr <= h -> 0 <= h < max_sn ->
  out_mono (ranges r) -> next_out lr h < 18446744073709551616 ->
  0 <= value lr < 18446744073709551616 ->
  extHighestIncomingSN m = h ->
  snRangeMap m = fst (ExcludeRange U64 U64 h (u64 (h + 1)) r) ->
  next_out lr (h - 1) = extLastSN m + a -> 0 <= extLastSN m < max_sn ->
  inv_plus a (updateSnOffset m).
Proof.
  intros Hwf Hl Hs Hh Hm Hb Hv Hhm Hr Hn Hlb.
  destruct (exclude_one r lr h) as (lr' & Hwf' & Hl' & Hs' & Hv' & Hm' & Ho'); try done.
  rewrite <- Hr in *. exists lr'. unfold updateSnOffset.
  split; cbn; rewrite ?Hhm; try assumption; try lia.
  - rewrite u64_add_1 by done. by rewrite (GetValue_open U64 _ lr') by (done || lia).
  - unfold next_out at 1. rewrite Hs', Ho'. lia.
Qed.

(** A padding-only packet that directly follows is absorbed. *)
Lemma UpdateAndGetSnTs_padding_only m p marker a :
  inv_plus a m -> 0 <= a <= 1 -> ExtSequenceNumber p = extHighestIncomingSN m + 1 -> PayloadLen p = 0 ->
  ExtSequenceNumber p < max_sn -> extLastSN m + 1 < max_sn ->
  let '(m', tp, err) := UpdateAndGetSnTs p marker m in
  err = Some errPaddingOnlyPacket /\ inv_plus a m' /\ extLastSN m' = extLastSN m /\
  extHighestIncomingSN m' = ExtSequenceNumber p.
Proof.
  intros [lr Hi] Ha Hp Hl0 Hsn Hb. pose proof Hi as [Hwf Hl Hst Hh Ho Hv Hm Hn Hlb].
  unfold UpdateAndGetSnTs. rewrite sn_diff by (unfold max_sn in *; lia).
  replace (ExtSequenceNumber p - extHighestIncomingSN m) with 1 by lia. rewrite Hl0.
  cbn [Z.eqb Z.gtb Z.ltb Z.compare Pos.eqb Pos.compare Pos.compare_cont negb andb orb].
  cbv zeta. repeat split.
  eapply (exclude_inv lr (snRangeMap m) (ExtSequenceNumber p)); try assumption; try reflexivity;
    cbn; unfold next_out, max_sn in *; lia.
Qed.

(** Dropping a contiguous packet right after it was translated. *)
Definition forward_then_drop (p : ExtPacket) (marker : bool) (m : RTPMunger) : RTPMunger :=
  PacketDropped p (fst (fst (UpdateAndGetSnTs p marker m))).

Lemma forward_then_drop_restores m p marker a :
  inv_plus a m -> 0 <= a <= 1 -> ExtSequenceNumber p = extHighestIncomingSN m + 1 -> PayloadLen p <> 0 ->
  ExtSequenceNumber p < max_sn -> extLastSN m + 1 < max_sn ->
  let m' := forward_then_drop p marker m in
  inv_plus a m' /\ extLastSN m' = extLastSN m /\ extLastTS m' = extLastTS m /\
  lastMarker m' = lastMarker m /\ extHighestIncomingSN m' = ExtSequenceNumber p.
Proof.
  intros [lr Hi] Ha Hp Hl0 Hsn Hb. pose proof Hi as [Hwf Hl Hst Hh Ho Hv Hm Hn Hlb].
  cbv zeta. unfold forward_then_drop.
  rewrite UpdateAndGetSnTs_forward by (try done; right; lia). cbn [fst].
  unfold forwarded. set (sn := u64 _).
  match goal with |- context [updateRtxGate p sn ?m1] =>
    destruct (updateRtxGate_same p sn m1) as ((Hh2 & Hr2 & Hl2 & Ho2) & H2 & H3 & H4 & H5 & H6 & H7);
    set (m2 := updateRtxGate p sn m1) in * end.
  cbn in Hh2, Hr2, Hl2, Ho2, H2, H3, H4, H5, H6, H7.
  unfold PacketDropped. rewrite Hh2, Z.eqb_refl. cbn [negb]. cbv zeta.
  assert (Hinv : inv_plus a (updateSnOffset (m2 <| snRangeMap :=
      fst (ExcludeRange U64 U64 (ExtSequenceNumber p) (u64 (ExtSequenceNumber p + 1))
        (snRangeMap m2)) |> <| extLastSN := extSecondLastSN m2 |>))).
  { eapply (exclude_inv lr (snRangeMap m) (ExtSequenceNumber p)); try assumption; cbn;
      rewrite ?Hr2, ?H2; try reflexivity; try assumption; unfold next_out, max_sn in *; lia. }
  destruct Hinv as [lr' Hinv].
  split; [exists lr'; eapply inv_at_same; [exact Hinv|repeat split]|].
  cbn. rewrite H2, H4, H6, Hh2. done.
Qed.

(** ** Padding *)

(** RTP timestamps advance (in the modular order). *)
Fixpoint ts_increasing (t0 : Z) (l : list SnTs) : Prop :=
  match l with
  | [] => True
  | v :: l => 0 < i64 (u64 (snts_ts v - t0)) /\ ts_increasing (snts_ts v) l
  end.

Fixpoint consecutive (a : Z) (k : nat) : list Z :=
  match k with O => [] | S k => (a + 1) :: consecutive (a + 1) k end.

Lemma consecutive_lookup a k i : (i < k)%nat -> consecutive a k !! i = Some (a + 1 + Z.of_nat i).
Proof.
  revert a i. induction k as [|k IH]; intros a [|i] H; try lia; cbn [consecutive lookup list_lookup].
  - f_equal. lia.
  - rewrite IH by lia. f_equal. lia.
Qed.

Lemma padding_loop_sn clk fr off u ets ts0 k i sn ts :
  0 <= sn -> sn + Z.of_nat k < 18446744073709551616 ->
  let '(sn', ts', vals) := padding_loop clk fr off u ets ts0 k i sn ts in
  sn' = sn + Z.of_nat k /\ map snts_sn vals = consecutive sn k.
Proof.
  revert i sn ts. induction k as [|k IH]; intros i sn ts H0 Hb; cbn [padding_loop].
  { split; [lia|done]. }
  assert (Hsn : u64 (sn + 1) = sn + 1) by (apply u64_small; lia).
  assert (exists ts1 v, padding_step clk fr off u ets ts0 i sn ts = (sn + 1, ts1, v) /\
            snts_sn v = sn + 1) as (ts1 & v & -> & Hv).
  { unfold padding_step. rewrite Hsn. repeat case_if; eauto. }
  specialize (IH (i + 1) (sn + 1) ts1 ltac:(lia) ltac:(lia)).
  destruct (padding_loop clk fr off u ets ts0 k (i + 1) (sn + 1) ts1) as [[sn' ts'] vals].
  destruct IH as [-> IH]. split; [lia|]. cbn. by rewrite Hv, IH.
Qed.

Lemma i64_succ t : 0 < i64 (u64 (u64 (t + 1) - t)).
Proof. glia. Qed.

Lemma padding_loop_ts clk fr off u ets ts0 k i sn ts :
  fr <> 0 -> u = false \/ 0 < i ->
  let '(_, _, vals) := padding_loop clk fr off u ets ts0 k i sn ts in ts_increasing ts vals.
Proof.
  intros Hfr. revert i sn ts. induction k as [|k IH]; intros i sn ts Hu; cbn [padding_loop]; [done|].
  unfold padding_step. rewrite (proj2 (Z.eqb_neq fr 0)) by done.
  assert (u && (i =? 0) = false) as -> by (destruct Hu as [-> | Hi]; [done|]; rewrite (proj2 (Z.eqb_neq i 0)) by lia; apply andb_false_r).
  cbn [negb].
  case_if;
  (match goal with |- context [padding_loop _ _ _ _ _ _ k ?i ?s ?t] =>
    specialize (IH i s t ltac:(destruct Hu; [by left|right; lia]));
    destruct (padding_loop clk fr off u ets ts0 k i s t) as [[sn' ts'] vals] end;
  split; [|exact IH]; cbn).
  - apply i64_succ.
  - bool_prop. exact E.
Qed.

(** The numbers of the padding packets follow the last one sent, and the next
    media packet follows them. *)
Lemma UpdateAndGetPaddingSnTs_inv m num clk fr force ets a :
  inv_plus a m -> 0 <= a <= 1 -> 0 < num -> lastMarker m = true \/ force = true -> extLastSN m + num < max_sn ->
  let '(m', out) := UpdateAndGetPaddingSnTs num clk fr force ets m in
  inv_plus a m' /\ extLastSN m' = extLastSN m + num /\
  extHighestIncomingSN m' = extHighestIncomingSN m /\
  exists vals, out = Ok vals /\ map snts_sn vals = consecutive (extLastSN m) (Z.to_nat num) /\
    (fr <> 0 -> lastMarker m = true -> ts_increasing (extLastTS m) vals).
Proof.
  intros [lr Hi] Ha Hnum Hmk Hb. pose proof Hi as [Hwf Hl Hst Hh Ho Hv Hm Hn Hlb].
  unfold UpdateAndGetPaddingSnTs. rewrite (proj2 (Z.eqb_neq num 0)) by lia.
  assert (negb (lastMarker m) && negb force = false) as ->.
  { destruct Hmk as [-> | ->]; [done|by rewrite andb_false_r]. }
  pose proof (padding_loop_sn clk fr (if negb (lastMarker m) then 1 else 0) (negb (lastMarker m))
    ets (extLastTS m) (Z.to_nat num) 0 (extLastSN m) (extLastTS m)
    ltac:(lia) ltac:(unfold max_sn in *; lia)) as Hloop.
  assert (Hts : fr <> 0 -> lastMarker m = true ->
    let '(_, _, vals) := padding_loop clk fr (if negb (lastMarker m) then 1 else 0)
      (negb (lastMarker m)) ets (extLastTS m) (Z.to_nat num) 0 (extLastSN m) (extLastTS m) in
    ts_increasing (extLastTS m) vals).
  { intros Hfr ->. apply padding_loop_ts; [done|by left]. }
  destruct (padding_loop _ _ _ _ _ _ _ _ _ _) as [[sn ts] vals].
  destruct Hloop as [Hsn Hvals]. rewrite Z2Nat.id in Hsn by lia.
  destruct (dec_num (snRangeMap m) lr (extHighestIncomingSN m) num) as
    (lr' & Hwf' & Hl' & Hs' & Hv' & Hm' & Ho'); try done; [lia|unfold max_sn in *; lia|].
  set (m2 := paddingUpdate num force sn ts vals m).
  set (r' := DecValue U64 U64 (extHighestIncomingSN m) num (snRangeMap m)) in *.
  assert (Hoff : fst (GetValue U64 r' (u64 (extHighestIncomingSN m + 1))) = value lr').
  { rewrite u64_add_1 by done. by rewrite (GetValue_open U64 _ lr') by (done || lia). }
  assert (Hsame : same_translation (m <| extLastSN := sn |> <| snRangeMap := r' |>
                                      <| snOffset := value lr' |>) m2).
  { rewrite <- Hoff. subst m2. unfold paddingUpdate.
    destruct (zlen vals =? 1), (zlookup vals (zlen vals - 2)), force; repeat split. }
  split; [exists lr'; eapply inv_at_same; [|exact Hsame]|].
  { split; cbn; try assumption; try lia. unfold next_out at 1. rewrite Hs', Ho', Hn. lia. }
  destruct Hsame as (-> & _ & -> & _). repeat split; [done|].
  exists vals. repeat split; [done|]. intros H1 H2. by apply Hts.
Qed.

(** The timestamps of a burst and the frame boundary it leaves: a burst that
    ends a frame starts with the timestamp of that frame. *)
Lemma UpdateAndGetPaddingSnTs_ts m m' num clk fr force ets vals :
  UpdateAndGetPaddingSnTs num clk fr force ets m = (m', Ok vals) -> 0 < num ->
  lastMarker m' = lastMarker m || force /\
  (fr <> 0 ->
   if lastMarker m then ts_increasing (extLastTS m) vals
   else exists v tl, vals = v :: tl /\ snts_ts v = extLastTS m /\ ts_increasing (extLastTS m) tl).
Proof.
  unfold UpdateAndGetPaddingSnTs. intros E Hnum. rewrite (proj2 (Z.eqb_neq num 0)) in E by lia.
  case_if_in E; [done|]. split.
  { destruct (padding_loop _ _ _ _ _ _ _ _ _ _) as [[sn ts] vs]. injection E as <- _. unfold paddingUpdate.
    destruct (zlen vs =? 1), (zlookup vs (zlen vs - 2)), force; cbn; by rewrite ?orb_true_r, ?orb_false_r. }
  intros Hfr. destruct (lastMarker m); cbn [negb] in E.
  - pose proof (padding_loop_ts clk fr 0 false ets (extLastTS m) (Z.to_nat num) 0 (extLastSN m) (extLastTS m) Hfr
      (or_introl eq_refl)) as Hts.
    destruct (padding_loop _ _ _ _ _ _ _ _ _ _) as [[sn ts] vs]. by injection E as _ <-.
  - destruct (Z.to_nat num) as [|k] eqn:Ek; [lia|]. cbn [padding_loop] in E. unfold padding_step at 1 in E.
    rewrite (proj2 (Z.eqb_neq fr 0)) in E by done. cbn [negb andb Z.eqb] in E.
    pose proof (padding_loop_ts clk fr 1 true ets (extLastTS m) k (0 + 1) (u64 (extLastSN m + 1)) (extLastTS m) Hfr
      ltac:(right; lia)) as Hts.
    destruct (padding_loop _ _ _ _ _ _ _ _ _ _) as [[sn ts] vs]. injection E as _ <-. by eexists _, _.
Qed.

(** ** Source switches *)

Lemma reset_inv m m0 p v :
  1 <= ExtSequenceNumber p < max_sn -> wf U64 (snRangeMap m0) ->
  0 <= v < 18446744073709551616 -> 0 <= extLastSN m < max_sn ->
  extHighestIncomingSN m = ExtSequenceNumber p - 1 ->
  snRangeMap m = ClearAndResetValue (ExtSequenceNumber p) v (snRangeMap m0) ->
  inv_at (mkRangeVal (ExtSequenceNumber p) 0 v) (u64 (ExtSequenceNumber p - v) - extLastSN m)
    (updateSnOffset m).
Proof.
  intros Hsn Hwf Hv Hlb Hh Hr. destruct Hwf as (Hhalf & Hsz & _).
  assert (Hwf' : wf U64 (snRangeMap m)).
  { rewrite Hr. apply ClearAndReset_wf; [done..|]. rewrite Hhalf. change (umod U64 / 2) with 9223372036854775808. unfold max_sn in *. lia. }
  assert (Hl : last (ranges (snRangeMap m)) = Some (mkRangeVal (ExtSequenceNumber p) 0 v))
    by (by rewrite Hr).
  unfold updateSnOffset. split; cbn; rewrite ?Hh; try done; try lia.
  - rewrite (GetValue_open U64 _ _ _ Hwf' Hl); [done|].
    rewrite u64_small by (unfold max_sn in *; lia). cbn. lia.
  - by rewrite Hr.
  - unfold next_out, out_start. cbn. lia.
Qed.

Lemma UpdateSnTsOffsets_inv m p snAdjust tsAdjust a :
  inv_plus a m -> 1 <= ExtSequenceNumber p < max_sn -> 0 <= extLastSN m + snAdjust < max_sn ->
  let m' := UpdateSnTsOffsets p snAdjust tsAdjust m in
  inv_plus snAdjust m' /\ extLastSN m' = extLastSN m /\
  extHighestIncomingSN m' = ExtSequenceNumber p - 1.
Proof.
  intros [lr [Hwf Hl Hst Hh Ho Hv Hm Hn Hlb]] Hsn Hb. cbv zeta. unfold UpdateSnTsOffsets.
  assert (Hh1 : u64 (ExtSequenceNumber p - 1) = ExtSequenceNumber p - 1)
    by (apply u64_small; unfold max_sn in *; lia).
  cbn. rewrite Hh1.
  set (v := u64 (u64 (ExtSequenceNumber p - extLastSN m) - snAdjust)).
  pose proof (u64_range (u64 (ExtSequenceNumber p - extLastSN m) - snAdjust)) as Hvr. fold v in Hvr.
  assert (Hout : u64 (ExtSequenceNumber p - v) = extLastSN m + snAdjust).
  { rewrite <- (u64_small (extLastSN m + snAdjust)) by (unfold max_sn in *; lia).
    subst v. clear. unfold u64. set (M := 18446744073709551616). rewrite Zminus_mod_idemp_r.
    replace (ExtSequenceNumber p - ((ExtSequenceNumber p - extLastSN m) mod M - snAdjust))
      with (ExtSequenceNumber p + snAdjust - (ExtSequenceNumber p - extLastSN m) mod M) by lia.
    rewrite Zminus_mod_idemp_r. f_equal. lia. }
  split; [|done]. eexists.
  set (m1 := m <| extHighestIncomingSN := ExtSequenceNumber p - 1 |>
    <| snRangeMap := ClearAndResetValue (ExtSequenceNumber p) v (snRangeMap m) |>).
  pose proof (reset_inv m1 m p v Hsn Hwf Hvr Hlb ltac:(reflexivity) ltac:(reflexivity)) as Hr.
  rewrite Hout in Hr. change (extLastSN m1) with (extLastSN m) in Hr.
  replace (extLastSN m + snAdjust - extLastSN m) with snAdjust in Hr by lia.
  eapply inv_at_same; [exact Hr|]. repeat split.
Qed.

Lemma SetLastSnTs_inv m p :
  wf U64 (snRangeMap m) -> 1 <= ExtSequenceNumber p < max_sn ->
  let m' := SetLastSnTs p m in
  inv_plus 0 m' /\ extLastSN m' = ExtSequenceNumber p /\
  extHighestIncomingSN m' = ExtSequenceNumber p - 1.
Proof.
  intros Hwf Hsn. cbv zeta. unfold SetLastSnTs.
  assert (Hh1 : u64 (ExtSequenceNumber p - 1) = ExtSequenceNumber p - 1)
    by (apply u64_small; unfold max_sn in *; lia).
  cbn. rewrite Hh1. split; [|done]. eexists.
  set (m1 := m <| extHighestIncomingSN := ExtSequenceNumber p - 1 |>
    <| extLastSN := ExtSequenceNumber p |>
    <| snRangeMap := ClearAndResetValue (ExtSequenceNumber p) 0 (snRangeMap m) |>).
  pose proof (reset_inv m1 m p 0 Hsn Hwf ltac:(lia) ltac:(cbn; unfold max_sn in *; lia) ltac:(reflexivity) ltac:(reflexivity)) as Hr.
  change (extLastSN m1) with (ExtSequenceNumber p) in Hr.
  rewrite Z.sub_0_r, u64_small, Z.sub_diag in Hr by (unfold max_sn in *; lia).
  eapply inv_at_same; [exact Hr|]. repeat split.
Qed.

(** ** Runs of the munger *)

(** The number newly taken by a translation, if any. *)
Definition fresh (out : RTPMunger * TranslationParamsRTP * option munger_error) : list Z :=
  match out with
  | (_, tp, None) => if decide (snOrdering tp = SequenceNumberOrderingOutOfOrder) then []
                     else [extSequenceNumber tp]
  | _ => []
  end.

(** Room left in the extended counters. *)
Definition room (m : RTPMunger) (n : Z) : Prop := extLastSN m + n < max_sn.

(** What the forwarder does with the munger, and the fresh numbers it emits. *)
Inductive step : RTPMunger -> list Z -> RTPMunger -> Prop :=
| step_packet m p marker :
    0 <= ExtSequenceNumber p < max_sn ->
    room m (Z.max 1 (ExtSequenceNumber p - extHighestIncomingSN m)) ->
    let out := UpdateAndGetSnTs p marker m in
    step m (fresh out) (fst (fst out))
| step_drop m p marker :
    ExtSequenceNumber p = extHighestIncomingSN m + 1 -> PayloadLen p <> 0 ->
    ExtSequenceNumber p < max_sn -> room m 1 ->
    step m [] (forward_then_drop p marker m)
| step_padding m num clk fr force ets vals m' :
    0 < num -> room m num ->
    UpdateAndGetPaddingSnTs num clk fr force ets m = (m', Ok vals) ->
    step m (map snts_sn vals) m'
| step_switch m p snAdjust tsAdjust marker :
    1 <= ExtSequenceNumber p < max_sn -> PayloadLen p <> 0 -> 1 <= snAdjust -> room m snAdjust ->
    let out := UpdateAndGetSnTs p marker (UpdateSnTsOffsets p snAdjust tsAdjust m) in
    step m (fresh out) (fst (fst out)).

Inductive steps : RTPMunger -> list Z -> RTPMunger -> Prop :=
| steps_refl m : steps m [] m
| steps_step m l m1 l' m2 : step m l m1 -> steps m1 l' m2 -> steps m (l ++ l') m2.

(** A late or repeated packet leaves the munger as it was. *)
Lemma UpdateAndGetSnTs_late lr m p marker :
  inv_at lr 1 m -> 0 <= ExtSequenceNumber p <= extHighestIncomingSN m ->
  let '(m', tp, err) := UpdateAndGetSnTs p marker m in
  m' = m /\
  match err with
  | None => snOrdering tp = SequenceNumberOrderingOutOfOrder /\ extSequenceNumber tp < extLastSN m /\
      exists v, GetValue U64 (snRangeMap m) (ExtSequenceNumber p) = (v, None) /\
                extSequenceNumber tp = u64 (ExtSequenceNumber p - v)
  | Some errDuplicatePacket => ExtSequenceNumber p = extHighestIncomingSN m
  | Some errOutOfOrderSequenceNumberCacheMiss => ExtSequenceNumber p < extHighestIncomingSN m
  | _ => False
  end.
Proof.
  intros Hi Hp. pose proof Hi as [Hwf Hl Hst Hh Ho Hv Hm Hn Hlb].
  unfold UpdateAndGetSnTs. rewrite sn_diff by (unfold max_sn in *; lia).
  set (d := ExtSequenceNumber p - extHighestIncomingSN m).
  assert ((d =? 1) && negb (PayloadLen p =? 0) || (d >? 1) = false) as -> by (subst d; lia).
  destruct (Z.ltb_spec d 0).
  - destruct (GetValue U64 (snRangeMap m) (ExtSequenceNumber p)) as [v [e|]] eqn:Eg; cbv zeta.
    { split; [done|subst d; lia]. }
    case_if; [split; [done|subst d; lia]|]. split; [done|].
    rewrite Z.geb_leb in E. bool_prop. cbn. split; [done|]. split; [lia|]. exists v. done.
  - rewrite (proj2 (Z.eqb_neq d 1)) by (subst d; lia). split; [done|subst d; lia].
Qed.

(** The same whatever number comes next. *)
Lemma UpdateAndGetSnTs_behind a m p marker :
  inv_plus a m -> 0 <= ExtSequenceNumber p <= extHighestIncomingSN m ->
  let '(m', tp, err) := UpdateAndGetSnTs p marker m in
  m' = m /\
  match err with
  | None => snOrdering tp = SequenceNumberOrderingOutOfOrder
  | Some e => e = errDuplicatePacket \/ e = errOutOfOrderSequenceNumberCacheMiss
  end.
Proof.
  intros [lr Hi] Hp. pose proof (inv_high _ _ _ Hi) as Hh. unfold UpdateAndGetSnTs.
  rewrite sn_diff by (unfold max_sn in *; lia). set (d := ExtSequenceNumber p - extHighestIncomingSN m).
  assert ((d =? 1) && negb (PayloadLen p =? 0) || (d >? 1) = false) as -> by (subst d; lia).
  destruct (Z.ltb_spec d 0).
  - destruct (GetValue U64 (snRangeMap m) (ExtSequenceNumber p)) as [v [e|]]; [by auto|]. case_if; by auto.
  - rewrite (proj2 (Z.eqb_neq d 1)) by (subst d; lia). by auto.
Qed.

Definition advance (m : RTPMunger) (l : list Z) (m' : RTPMunger) : Prop :=
  inv m' /\ StronglySorted Z.lt (extLastSN m :: l) /\
  Forall (fun x => x <= extLastSN m') (extLastSN m :: l).

Lemma advance_none m m' : inv m' -> extLastSN m' = extLastSN m -> advance m [] m'.
Proof. intros H He. split; [done|]. split; repeat constructor; lia. Qed.

Lemma advance_one m m' : inv m' -> extLastSN m < extLastSN m' -> advance m [extLastSN m'] m'.
Proof. intros H He. split; [done|]. split; repeat constructor; lia. Qed.

Lemma consecutive_range a k x : In x (consecutive a k) -> a < x <= a + Z.of_nat k.
Proof.
  revert a. induction k as [|k IH]; intros a H; [done|].
  destruct H as [<-|H]; [lia|]. specialize (IH _ H). lia.
Qed.

Lemma consecutive_sorted a k : StronglySorted Z.lt (a :: consecutive a k).
Proof.
  revert a. induction k as [|k IH]; intros a; [repeat constructor|].
  constructor; [apply IH|]. apply List.Forall_forall. intros x Hx.
  apply (consecutive_range a (Datatypes.S k)) in Hx. lia.
Qed.

Lemma step_advance m l m' : step m l m' -> inv m -> advance m l m'.
Proof.
  intros Hstep Hinv. destruct Hstep as
    [m p marker Hp Hroom out|m p marker Hp Hl0 Hb Hroom|m num clk fr force ets vals m' Hnum Hroom He
    |m p a ts marker Hp Hl0 Ha Hroom out]; unfold room in *.
  - destruct Hinv as [lr Hi]. pose proof (inv_high _ _ _ Hi) as Hh.
    destruct (Z.le_gt_cases (ExtSequenceNumber p) (extHighestIncomingSN m)) as [Hle|Hgt].
    + pose proof (UpdateAndGetSnTs_late lr m p marker Hi ltac:(lia)) as H. subst out.
      destruct (UpdateAndGetSnTs p marker m) as [[m2 tp] [e|]]; destruct H as [-> H]; cbn.
      * apply advance_none; [by exists lr|done].
      * destruct H as (-> & _). rewrite decide_True by done. apply advance_none; [by exists lr|done].
    + destruct (decide (ExtSequenceNumber p = extHighestIncomingSN m + 1 /\ PayloadLen p = 0)) as [[H1 H2]|Hn].
      * pose proof (UpdateAndGetSnTs_padding_only m p marker 1 (ex_intro _ lr Hi) ltac:(lia) H1 H2 ltac:(lia)
          ltac:(lia)) as H.
        subst out. destruct (UpdateAndGetSnTs p marker m) as [[m2 tp] e].
        destruct H as (-> & H3 & H4 & _). by apply advance_none.
      * subst out. rewrite UpdateAndGetSnTs_forward; [|lia|unfold in_order; lia|lia].
        pose proof (inv_bound _ _ _ Hi) as Hlb.
        destruct (forwarded_inv lr 1 m p marker Hi ltac:(lia)) as (Hsn & Hi' & Hl'); [lia|].
        cbn. rewrite decide_False by (case_if; done). rewrite Hsn, <- Hl'.
        apply advance_one; [by exists lr|lia].
  - destruct (forward_then_drop_restores m p marker 1 Hinv ltac:(lia) Hp Hl0 Hb Hroom) as (H1 & H2 & _).
    by apply advance_none.
  - assert (Hmk : lastMarker m = true \/ force = true).
    { unfold UpdateAndGetPaddingSnTs in He. rewrite (proj2 (Z.eqb_neq num 0)) in He by lia.
      destruct (lastMarker m), force; auto; discriminate He. }
    pose proof (UpdateAndGetPaddingSnTs_inv m num clk fr force ets 1 Hinv ltac:(lia) Hnum Hmk Hroom) as H.
    rewrite He in H. destruct H as (Hi' & Hl' & _ & vals' & [= <-] & Hv & _).
    split; [done|]. rewrite Hv. split; [apply consecutive_sorted|].
    constructor; [lia|]. apply List.Forall_forall. intros x Hx%consecutive_range. lia.
  - pose proof Hinv as [lr0 Hi0]. pose proof (inv_bound _ _ _ Hi0) as Hlb.
    destruct (UpdateSnTsOffsets_inv m p a ts 1 Hinv Hp ltac:(lia)) as ([lr Hi] & Hl & Hh).
    subst out. rewrite UpdateAndGetSnTs_forward; [|unfold max_sn in *; lia|right; lia|lia].
    destruct (forwarded_inv lr a _ p marker Hi ltac:(lia)) as (Hsn & Hi' & Hl'); [lia|].
    cbn [fresh snOrdering extSequenceNumber fst].
    rewrite decide_False by (case_if; done). rewrite Hsn, <- Hl'.
    apply advance_one; [by exists lr|]. lia.
Qed.

(** ** Properties *)

(** C1: whatever sequence of packets, losses, drops, padding bursts and source
    switches the forwarder drives the munger through, the invariant holds and
    the sequence numbers it newly emits are strictly increasing, so no number
    is used twice. *)
Theorem munger_trace_increasing m l m' :
  steps m l m' -> inv m ->
  inv m' /\ StronglySorted Z.lt (extLastSN m :: l) /\
  Forall (fun x => x <= extLastSN m') l.
Proof.
  induction 1 as [m|m l m1 l' m2 Hs Hss IH]; intros Hinv.
  { split; [done|]. repeat constructor. }
  destruct (step_advance _ _ _ Hs Hinv) as (Hi1 & Hsort1 & Hle1).
  destruct (IH Hi1) as (Hi2 & Hsort2 & Hle2).
  inversion Hle1 as [|? ? Hm1 Hl1]; subst. inversion Hsort2 as [|? ? Hs2 Hf2]; subst.
  assert (extLastSN m1 <= extLastSN m2).
  { clear -Hs Hss Hi1. revert Hi1. clear Hs. induction Hss as [|? ? ? ? ? Hs ? IH]; intros Hi; [lia|].
    destruct (step_advance _ _ _ Hs Hi) as (Hi1 & _ & Hle). inversion Hle; subst.
    specialize (IH Hi1). lia. }
  split; [done|]. split.
  - rewrite app_comm_cons. clear -Hsort1 Hs2 Hf2 Hle1.
    revert Hsort1 Hle1. generalize (extLastSN m :: l). intros k Hk Hle.
    induction k as [|x k IH]; [done|]. inversion Hk; inversion Hle; subst.
    constructor; [by apply IH|]. apply Forall_app. split; [done|].
    eapply List.Forall_impl; [|exact Hf2]. intros y Hy. cbn in *. lia.
  - apply Forall_app. split; [|done]. eapply List.Forall_impl; [|exact Hl1]. intros y Hy. cbn in *. lia.
Qed.

(** Dropping the packet that was just translated gives its number back:
    the last number, timestamp and marker are restored, and the next
    contiguous packet leaves with the number the dropped one had. *)
Theorem dropped_number_reused m p q mp mq :
  inv m -> ExtSequenceNumber p = extHighestIncomingSN m + 1 -> PayloadLen p <> 0 ->
  ExtSequenceNumber q = ExtSequenceNumber p + 1 -> PayloadLen q <> 0 ->
  ExtSequenceNumber q < max_sn -> room m 1 ->
  let '(m1, tp, _) := UpdateAndGetSnTs p mp m in
  let m2 := PacketDropped p m1 in
  let '(m3, tq, err) := UpdateAndGetSnTs q mq m2 in
  extLastSN m2 = extLastSN m /\ extLastTS m2 = extLastTS m /\ lastMarker m2 = lastMarker m /\
  err = None /\ extSequenceNumber tq = extSequenceNumber tp /\
  snOrdering tq = SequenceNumberOrderingContiguous.
Proof.
  unfold room. intros Hinv Hp Hl Hq Hlq Hb Hroom.
  destruct (forward_then_drop_restores m p mp 1 Hinv ltac:(lia) Hp Hl ltac:(lia) Hroom)
    as ([lr2 Hi2] & H2 & H3 & H4 & H5).
  pose proof Hinv as [lr Hi]. pose proof (inv_high _ _ _ Hi). pose proof (inv_bound _ _ _ Hi).
  unfold forward_then_drop in *.
  rewrite (UpdateAndGetSnTs_forward m p) in * by (done || lia || (right; lia)). cbn [fst] in *.
  rewrite UpdateAndGetSnTs_forward by (lia || (right; lia)).
  destruct (forwarded_inv lr 1 m p mp Hi ltac:(lia)) as (Hsn & _); [lia|].
  destruct (forwarded_inv lr2 1 _ q mq Hi2 ltac:(lia)) as (Hsn2 & _); [lia|].
  repeat split; try done.
  - cbn [extSequenceNumber]. rewrite Hsn, Hsn2. lia.
  - cbn. rewrite H5. replace (ExtSequenceNumber q - ExtSequenceNumber p) with 1 by lia. done.
Qed.

(** The numbers that the map gives to keys are ordered as the keys, and the last
    number sent bounds them. *)
Lemma late_order m k1 k2 v1 v2 :
  inv m -> 0 <= k1 < k2 -> k2 <= extHighestIncomingSN m ->
  GetValue U64 (snRangeMap m) k1 = (v1, None) ->
  GetValue U64 (snRangeMap m) k2 = (v2, None) ->
  u64 (k1 - v1) < u64 (k2 - v2) <= extLastSN m.
Proof.
  intros [lr Hi] Hk Hk2 H1 H2.
  destruct (mapped_key lr m k1 v1 Hi ltac:(lia) H1) as (i & a & Ha & Hsa & Hea & -> & _).
  destruct (mapped_key lr m k2 v2 Hi ltac:(lia) H2) as (j & b & Hb & Hsb & Heb & -> & ?).
  split; [|done]. destruct Hi as [Hwf _ _ _ _ _ Hm _ _].
  assert (Hwr : wf_ranges (ranges (snRangeMap m))) by apply Hwf.
  pose proof (lookup_lt_Some _ _ _ Ha). pose proof (lookup_lt_Some _ _ _ Hb).
  destruct (Nat.lt_trichotomy i j) as [Hij|[->|Hji]].
  - destruct Hea as [Hea|Hea]; [lia|].
    pose proof (out_mono_lt _ i j a b Hwr Hm Ha Hb Hij). lia.
  - simplify_eq. lia.
  - destruct Heb as [Heb|Heb]; [lia|].
    destruct (wf_ranges_mono _ j i b a Hwr Hb Ha Hji). lia.
Qed.

(** ** The numbers of one source *)

(** What happens to the munger while one source is followed: the packets that
    are sent, with their incoming and outgoing numbers, and the numbers of the
    padding. *)
Inductive source_step : RTPMunger -> list (Z * Z) -> list Z -> RTPMunger -> Prop :=
| source_packet m p marker m' tp err :
    0 <= ExtSequenceNumber p < max_sn ->
    room m (Z.max 1 (ExtSequenceNumber p - extHighestIncomingSN m)) ->
    UpdateAndGetSnTs p marker m = (m', tp, err) ->
    source_step m (match err with None => [(ExtSequenceNumber p, extSequenceNumber tp)] | Some _ => [] end) [] m'
| source_drop m p marker :
    ExtSequenceNumber p = extHighestIncomingSN m + 1 -> PayloadLen p <> 0 ->
    ExtSequenceNumber p < max_sn -> room m 1 ->
    source_step m [] [] (forward_then_drop p marker m)
| source_padding m num clk fr force ets vals m' :
    0 < num -> room m num ->
    UpdateAndGetPaddingSnTs num clk fr force ets m = (m', Ok vals) ->
    source_step m [] (map snts_sn vals) m'.

Inductive source_steps : RTPMunger -> list (Z * Z) -> list Z -> RTPMunger -> Prop :=
| source_refl m : source_steps m [] [] m
| source_trans m H P m1 H' P' m2 :
    source_step m H P m1 -> source_steps m1 H' P' m2 -> source_steps m (H ++ H') (P ++ P') m2.

(** The map gives the incoming number [k] the outgoing number [o]. *)
Definition gives (m : RTPMunger) (k o : Z) : Prop :=
  0 <= k <= extHighestIncomingSN m /\ exists v, GetValue U64 (snRangeMap m) k = (v, None) /\ o = u64 (k - v).

Lemma gives_mono m k1 k2 o1 o2 : inv m -> gives m k1 o1 -> gives m k2 o2 -> k1 < k2 -> o1 < o2.
Proof. intros Hi (Hk1 & v1 & G1 & ->) (Hk2 & v2 & G2 & ->) Hlt. by apply (late_order m k1 k2 v1 v2 Hi); [lia..| |]. Qed.

Lemma gives_fun m k o1 o2 : gives m k o1 -> gives m k o2 -> o1 = o2.
Proof. intros (_ & v1 & G1 & ->) (_ & v2 & G2 & ->). congruence. Qed.

Lemma gives_last m k o : inv m -> gives m k o -> o <= extLastSN m.
Proof. intros [lr Hi] (Hk & v & G & ->). by destruct (mapped_key lr m k v Hi Hk G) as (_ & _ & _ & _ & _ & _ & ?). Qed.

(** Later states of the munger: what the map gives to the packets seen so far
    stays, or is forgotten from the oldest on, and the others get numbers above
    the last one sent. *)
Record extends (m m' : RTPMunger) : Prop := {
  ext_high : extHighestIncomingSN m <= extHighestIncomingSN m';
  ext_last : extLastSN m <= extLastSN m';
  ext_old k o : gives m' k o -> k <= extHighestIncomingSN m -> gives m k o;
  ext_keep k o : gives m k o -> gives m' k o \/ forall k' o', gives m' k' o' -> k < k';
  ext_new k o : gives m' k o -> extHighestIncomingSN m < k -> extLastSN m < o;
}.

(** What is known of the packets [H] and of the padding [P] sent so far. *)
Record issued (H : list (Z * Z)) (P : list Z) (m : RTPMunger) : Prop := {
  iss_known k o : (k, o) ∈ H -> o <= extLastSN m /\ k <= extHighestIncomingSN m /\
    (gives m k o \/ forall k' o', gives m k' o' -> k < k' /\ o < o');
  iss_order k1 o1 k2 o2 : (k1, o1) ∈ H -> (k2, o2) ∈ H -> (k1 < k2 -> o1 < o2) /\ (k1 = k2 -> o1 = o2);
  iss_padding x : x ∈ P -> x <= extLastSN m /\ (forall k o, (k, o) ∈ H -> o <> x) /\ forall k o, gives m k o -> o <> x;
}.

Lemma issued_nil m : issued [] [] m.
Proof. by split; intros *; rewrite elem_of_nil. Qed.

Lemma issued_extends H P m m' : inv m -> extends m m' -> issued H P m -> issued H P m'.
Proof.
  intros Hi [Hh Hl Ho Hk Hn] [H1 H2 H3]. split.
  - intros k o Hin. destruct (H1 k o Hin) as (Hle & Hkh & Hg). split; [lia|]. split; [lia|].
    assert (forall k' o', gives m' k' o' -> extHighestIncomingSN m < k' -> k < k' /\ o < o') as Hnew.
    { intros k' o' Hg' Hlt. pose proof (Hn k' o' Hg' Hlt). lia. }
    destruct Hg as [Hg|Hg].
    + destruct (Hk k o Hg) as [Hg'|Hg']; [by left|]. right. intros k' o' G. specialize (Hg' k' o' G).
      destruct (Z.le_gt_cases k' (extHighestIncomingSN m)) as [Hle'|]; [|by apply Hnew; [|lia]].
      split; [done|]. by apply (gives_mono m k k' o o' Hi Hg (Ho k' o' G Hle')).
    + right. intros k' o' G. destruct (Z.le_gt_cases k' (extHighestIncomingSN m)) as [Hle'|]; [|by apply Hnew; [|lia]].
      by apply Hg, Ho.
  - exact H2.
  - intros x Hx. destruct (H3 x Hx) as (Hle & Hp & Hg). split; [lia|]. split; [done|]. intros k o G.
    destruct (Z.le_gt_cases k (extHighestIncomingSN m)) as [Hle'|]; [by eapply Hg, Ho|]. specialize (Hn k o G). lia.
Qed.

Lemma issued_packet H P m k o : inv m -> gives m k o -> issued H P m -> issued (H ++ [(k, o)]) P m.
Proof.
  intros Hi Hg [H1 H2 H3].
  assert (forall k' o', (k', o') ∈ H -> (k < k' -> o < o') /\ (k' < k -> o' < o) /\ (k = k' -> o = o')) as Hnew.
  { intros k' o' Hin. destruct (H1 k' o' Hin) as (_ & _ & [Hg'|Hg']).
    - split_and!; [by apply (gives_mono m)|by apply (gives_mono m)|intros <-; by apply (gives_fun m k)].
    - destruct (Hg' k o Hg). lia. }
  split.
  - intros k' o' [Hin|Hin%list_elem_of_singleton]%elem_of_app; [by apply H1|]. injection Hin as -> ->.
    split; [by eapply gives_last|]. split; [apply Hg|by left].
  - intros k1 o1 k2 o2 [Hin1|Hin1%list_elem_of_singleton]%elem_of_app [Hin2|Hin2%list_elem_of_singleton]%elem_of_app.
    + by apply H2.
    + injection Hin2 as -> ->. destruct (Hnew k1 o1 Hin1) as (_ & ? & He). split; [done|]. intros ->. by rewrite He.
    + injection Hin1 as -> ->. by destruct (Hnew k2 o2 Hin2) as (? & _ & ?).
    + injection Hin1 as -> ->. injection Hin2 as -> ->. split; [lia|done].
  - intros x Hx. destruct (H3 x Hx) as (Hle & Hp & Hgx). split; [done|]. split; [|done].
    intros k' o' [Hin|Hin%list_elem_of_singleton]%elem_of_app; [by apply (Hp k')|]. injection Hin as -> ->. by apply (Hgx k).
Qed.

Lemma issued_padding H P Q m m' : inv m -> extends m m' -> extHighestIncomingSN m' = extHighestIncomingSN m ->
  (forall x, x ∈ Q -> extLastSN m < x <= extLastSN m') -> issued H P m -> issued H (P ++ Q) m'.
Proof.
  intros Hi He Hh HQ Hiss. pose proof (issued_extends H P m m' Hi He Hiss) as [K1 K2 K3]. split; [done..|].
  intros x [Hx|Hx]%elem_of_app; [by apply K3|]. specialize (HQ x Hx). split; [lia|]. split.
  - intros k o Hin. destruct (iss_known _ _ _ Hiss k o Hin). lia.
  - intros k o G. assert (gives m k o) as G' by (apply (ext_old _ _ He); [done|]; destruct G; lia).
    pose proof (gives_last m k o Hi G'). lia.
Qed.

Lemma extends_refl m : extends m m.
Proof. split; try done; [by left|]. intros k o [Hk _]. lia. Qed.

(** A map that only forgets or excludes keys. *)
Lemma gives_shrunk m m' (oldest' : Z) : extHighestIncomingSN m <= extHighestIncomingSN m' ->
  (forall k, 0 <= k <= extHighestIncomingSN m ->
     GetValue U64 (snRangeMap m') k = if k <? oldest' then (0, Some errKeyTooOld) else GetValue U64 (snRangeMap m) k) ->
  (forall k o, gives m' k o -> extHighestIncomingSN m < k -> oldest' <= k) ->
  (forall k o, gives m' k o -> k <= extHighestIncomingSN m -> gives m k o) /\
  (forall k o, gives m k o -> gives m' k o \/ forall k' o', gives m' k' o' -> k < k').
Proof.
  intros Hh Heq Hnew. split.
  - intros k o (Hk & v & G & ->) Hle. rewrite Heq in G by lia. case_if_in G; [done|]. split; [lia|by exists v].
  - intros k o (Hk & v & G & ->). destruct (Z.ltb_spec k oldest') as [Hlt|Hge].
    + right. intros k' o' G'. destruct (Z.le_gt_cases k' (extHighestIncomingSN m)) as [Hle|]; [|by pose proof (Hnew k' o' G'); lia].
      destruct G' as (Hk' & v' & G' & _). rewrite Heq in G' by lia. case_if_in G'; [done|]. bool_prop. lia.
    + left. split; [lia|]. exists v. rewrite Heq by lia. by rewrite (proj2 (Z.ltb_ge _ _)) by lia.
Qed.

Lemma extends_forwarded lr m p marker :
  inv_at lr 1 m -> extHighestIncomingSN m < ExtSequenceNumber p < max_sn ->
  extLastSN m + (ExtSequenceNumber p - extHighestIncomingSN m) < max_sn ->
  let m' := forwarded p marker m in
  inv m' /\ extends m m' /\ gives m' (ExtSequenceNumber p) (u64 (ExtSequenceNumber p - snOffset m)).
Proof.
  intros Hi Hp Hroom. pose proof Hi as [Hwf Hl Hst Hh Ho Hv Hm Hn Hlb].
  destruct (forwarded_inv lr 1 m p marker Hi Hp) as (Hsn & Hi' & Hl'); [lia|]. cbv zeta.
  assert (snRangeMap (forwarded p marker m) = snRangeMap m /\ extHighestIncomingSN (forwarded p marker m) = ExtSequenceNumber p)
    as [Hr Hh'].
  { unfold forwarded. match goal with |- context [updateRtxGate p ?x ?y] => destruct (updateRtxGate_same p x y) as ((-> & -> & _) & _) end. done. }
  assert (forall k, extHighestIncomingSN m < k -> GetValue U64 (snRangeMap m) k = (value lr, None)) as Hopen.
  { intros k Hk. apply GetValue_open; [done..|lia]. }
  split; [by exists lr|]. split.
  - split; rewrite ?Hh', ?Hl'; try lia.
    + intros k o (Hk & v & G & ->) Hle. split; [lia|]. exists v. by rewrite Hr in G.
    + intros k o (Hk & v & G & ->). left. split; [lia|]. exists v. by rewrite Hr.
    + intros k o (Hk & v & G & ->) Hlt. rewrite Hr, Hopen in G by done. injection G as <-. unfold next_out in Hn.
      rewrite out_key; unfold max_sn in *; lia.
  - split; [lia|]. exists (value lr). rewrite Hr, Hopen, Ho by lia. done.
Qed.

Lemma excluded_value lr m k : inv_at lr 1 m -> extHighestIncomingSN m + 1 < max_sn -> 0 <= k <= extHighestIncomingSN m + 1 ->
  let h := extHighestIncomingSN m + 1 in
  let r' := fst (ExcludeRange U64 U64 h (u64 (h + 1)) (snRangeMap m)) in
  GetValue U64 r' k = if k <? oldest r' then (0, Some errKeyTooOld) else if h <=? k then (0, Some errKeyExcluded)
                      else GetValue U64 (snRangeMap m) k.
Proof.
  intros [Hwf Hl Hst Hh Ho Hv Hm Hn Hlb] Hmax Hk. cbv zeta. set (h := extHighestIncomingSN m + 1) in *.
  rewrite u64_add_1 by (unfold max_sn in *; lia).
  assert (halfRange (snRangeMap m) = 9223372036854775808) as Hhalf by apply Hwf.
  pose proof (ExcludeRange_effect U64 U64 (snRangeMap m) lr h (h + 1) k Hwf ltac:(unfold in_uint, umod, max_sn in *; lia)
    ltac:(unfold max_sn in *; lia) ltac:(unfold max_sn in *; lia) Hl) as He.
  destruct (ExcludeRange _ _ _ _ _) as [r' err]. destruct He as [_ He]. rewrite decide_False in He by lia.
  cbn [fst].
  destruct He as [_ ->]. by rewrite (proj2 (Z.leb_gt (h + 1) k)) by lia.
Qed.

Lemma extends_excluded lr m m' : inv_at lr 1 m -> extHighestIncomingSN m + 1 < max_sn ->
  extHighestIncomingSN m' = extHighestIncomingSN m + 1 -> extLastSN m' = extLastSN m ->
  snRangeMap m' = fst (ExcludeRange U64 U64 (extHighestIncomingSN m + 1) (u64 (extHighestIncomingSN m + 1 + 1)) (snRangeMap m)) ->
  extends m m'.
Proof.
  intros Hi Hmax Hh Hl Hr. pose proof (fun k => excluded_value lr m k Hi Hmax) as Hval. cbv zeta in Hval. rewrite <- Hr in Hval.
  assert (forall k o, gives m' k o -> extHighestIncomingSN m < k -> False) as Hno.
  { intros k o (Hk & v & G & _) Hlt. rewrite Hval in G by lia. case_if_in G; [done|].
    rewrite (proj2 (Z.leb_le _ k)) in G by lia. done. }
  destruct (gives_shrunk m m' (oldest (snRangeMap m'))) as [H1 H2]; [lia| |intros k o G Hlt; by destruct (Hno k o G Hlt)|].
  { intros k Hk. rewrite Hval by lia. by rewrite (proj2 (Z.leb_gt _ k)) by lia. }
  split; [lia|lia|exact H1|exact H2|]. intros k o G Hlt. by destruct (Hno k o G Hlt).
Qed.

Lemma padding_map m num clk fr force ets m' vals :
  0 < num -> UpdateAndGetPaddingSnTs num clk fr force ets m = (m', Ok vals) ->
  snRangeMap m' = DecValue U64 U64 (extHighestIncomingSN m) num (snRangeMap m) /\ (lastMarker m = true \/ force = true).
Proof.
  intros Hnum He. unfold UpdateAndGetPaddingSnTs in He. rewrite (proj2 (Z.eqb_neq num 0)) in He by lia.
  case_if_in He; [done|]. destruct (padding_loop _ _ _ _ _ _ _ _ _ _) as [[sn ts] vs]. injection He as <- _.
  split; [|by destruct (lastMarker m), force; auto]. unfold paddingUpdate.
  destruct (zlen vs =? 1), (zlookup vs (zlen vs - 2)), force; reflexivity.
Qed.

Lemma extends_padding m num clk fr force ets m' vals :
  inv m -> 0 < num -> room m num -> UpdateAndGetPaddingSnTs num clk fr force ets m = (m', Ok vals) ->
  inv m' /\ extends m m' /\ extHighestIncomingSN m' = extHighestIncomingSN m /\
  forall x, x ∈ map snts_sn vals -> extLastSN m < x <= extLastSN m'.
Proof.
  unfold room. intros Hinv Hnum Hroom He. destruct (padding_map _ _ _ _ _ _ _ _ Hnum He) as [Hr Hmk].
  pose proof (UpdateAndGetPaddingSnTs_inv m num clk fr force ets 1 Hinv ltac:(lia) Hnum Hmk Hroom) as H.
  rewrite He in H. destruct H as (Hi' & Hl' & Hh' & vals' & [= <-] & Hv & _).
  split; [done|]. split; [|split; [done|]].
  - destruct Hinv as [lr [Hwf Hl Hst Hh Ho Hva Hm Hn Hlb]].
    assert (halfRange (snRangeMap m) = 9223372036854775808) as Hhalf by apply Hwf.
    destruct (gives_shrunk m m' (oldest (snRangeMap m'))) as [H1 H2]; [lia| |intros k o [Hk _] Hlt; lia|].
    { intros k Hk. rewrite Hr. apply (DecValue_old_eq U64 U64 _ lr); try done; unfold in_uint, umod, max_sn in *; lia. }
    split; [lia|lia|exact H1|exact H2|]. intros k o [Hk _] Hlt. lia.
  - intros x Hx. rewrite Hv in Hx. apply list_elem_of_In, consecutive_range in Hx. lia.
Qed.

Lemma source_step_issued m H P m' H0 P0 : source_step m H P m' -> inv m -> issued H0 P0 m ->
  inv m' /\ issued (H0 ++ H) (P0 ++ P) m'.
Proof.
  intros Hs Hinv Hiss. destruct Hs as [m p marker m' tp err Hp Hroom E|m p marker Hp Hl0 Hb Hroom
    |m num clk fr force ets vals m' Hnum Hroom E]; unfold room in *.
  - rewrite app_nil_r. pose proof Hinv as [lr Hi]. pose proof (inv_high _ _ _ Hi) as Hh.
    destruct (Z.le_gt_cases (ExtSequenceNumber p) (extHighestIncomingSN m)) as [Hle|Hgt].
    + pose proof (UpdateAndGetSnTs_late lr m p marker Hi ltac:(lia)) as Hlate. rewrite E in Hlate.
      destruct err as [e|]; destruct Hlate as [-> Hlate]; [by rewrite app_nil_r|]. split; [done|].
      destruct Hlate as (_ & _ & v & G & ->). apply issued_packet; [done| |done]. split; [lia|by exists v].
    + destruct (decide (ExtSequenceNumber p = extHighestIncomingSN m + 1 /\ PayloadLen p = 0)) as [[H1 H2]|Hn].
      * pose proof (UpdateAndGetSnTs_padding_only m p marker 1 Hinv ltac:(lia) H1 H2 ltac:(lia) ltac:(lia)) as Hpad.
        pose proof E as E'. unfold UpdateAndGetSnTs in E'. rewrite sn_diff in E' by (unfold max_sn in *; lia).
        replace (ExtSequenceNumber p - extHighestIncomingSN m) with 1 in E' by lia. rewrite H2 in E'.
        cbn [Z.eqb Z.gtb Z.ltb Z.compare Pos.eqb Pos.compare Pos.compare_cont negb andb orb] in E'. cbv zeta in E'.
        rewrite E in Hpad. destruct Hpad as (-> & Hi' & Hl & Hh'). injection E' as Em _. rewrite app_nil_r. split; [done|].
        apply (issued_extends _ _ m); [done| |done]. apply (extends_excluded lr); [done|lia|lia|done|]. rewrite <- Em, <- H1. done.
      * rewrite UpdateAndGetSnTs_forward in E; [|lia|unfold in_order; lia|lia]. injection E as <- <- <-.
        destruct (extends_forwarded lr m p marker Hi ltac:(lia) ltac:(lia)) as (Hi' & He & Hg). split; [done|].
        apply issued_packet; [done|exact Hg|]. by apply (issued_extends _ _ m).
  - rewrite !app_nil_r. destruct (forward_then_drop_restores m p marker 1 Hinv ltac:(lia) Hp Hl0 Hb Hroom) as (Hi' & Hl & _ & _ & Hh).
    split; [done|]. apply (issued_extends _ _ m); [done| |done]. destruct Hinv as [lr Hi]. pose proof (inv_high _ _ _ Hi).
    apply (extends_excluded lr); [done|lia|lia|done|]. clear Hl Hh. unfold forward_then_drop.
    rewrite UpdateAndGetSnTs_forward by (lia || (right; lia)). cbn [fst]. unfold forwarded.
    match goal with |- context [updateRtxGate p ?x ?y] => destruct (updateRtxGate_same p x y) as ((Hh2 & Hr2 & _) & _);
      set (m2 := updateRtxGate p x y) in * end.
    cbn in Hh2, Hr2. unfold PacketDropped. rewrite Hh2, Z.eqb_refl. cbn. by rewrite Hr2, Hp.
  - rewrite app_nil_r. destruct (extends_padding _ _ _ _ _ _ _ _ Hinv Hnum Hroom E) as (Hi' & He & Hh & HQ). split; [done|].
    by apply (issued_padding H0 P0 _ m).
Qed.


(** A padding burst takes the numbers that follow the last one sent, with
    advancing timestamps, and no late packet is ever translated into one of
    them. *)
Theorem padding_fresh m num clk fr force ets m' vals :
  inv m -> 0 < num -> room m num ->
  UpdateAndGetPaddingSnTs num clk fr force ets m = (m', Ok vals) ->
  inv m' /\ extLastSN m' = extLastSN m + num /\
  map snts_sn vals = consecutive (extLastSN m) (Z.to_nat num) /\
  (fr <> 0 -> lastMarker m = true -> ts_increasing (extLastTS m) vals) /\
  forall key v, 0 <= key <= extHighestIncomingSN m ->
    GetValue U64 (snRangeMap m') key = (v, None) ->
    ~ In (u64 (key - v)) (map snts_sn vals).
Proof.
  unfold room. intros Hinv Hnum Hroom He.
  assert (Hmk : negb (lastMarker m) && negb force = false).
  { unfold UpdateAndGetPaddingSnTs in He. rewrite (proj2 (Z.eqb_neq num 0)) in He by lia.
    destruct (lastMarker m), force; done. }
  pose proof (UpdateAndGetPaddingSnTs_inv m num clk fr force ets 1 Hinv ltac:(lia) Hnum
    ltac:(destruct (lastMarker m), force; auto) Hroom) as H.
  rewrite He in H. destruct H as (Hi' & Hl' & _ & vals' & [= <-] & Hv & Hts).
  repeat split; try done. intros key v Hk Hg. rewrite Hv. intros Hin%consecutive_range.
  destruct Hinv as [lr Hi].
  destruct (mapped_key lr m key v Hi Hk) as (_ & _ & _ & _ & _ & _ & Hle); [|lia].
  pose proof Hi as [Hwf Hl Hst Hh Ho Hva Hm Hn Hlb].
  eapply (DecValue_old_key U64 U64 _ lr (extHighestIncomingSN m) num); try done.
  - unfold in_uint, umod, max_sn in *. lia.
  - assert (halfRange (snRangeMap m) = 9223372036854775808) as -> by apply Hwf.
    unfold max_sn in *. lia.
  - lia.
  - rewrite <- Hg. f_equal. clear -He Hmk Hnum.
    unfold UpdateAndGetPaddingSnTs in He. rewrite (proj2 (Z.eqb_neq num 0)), Hmk in He by lia.
    destruct (padding_loop _ _ _ _ _ _ _ _ _ _) as [[sn ts] vs]. injection He as <- _.
    unfold paddingUpdate.
    destruct (zlen vs =? 1), (zlookup vs (zlen vs - 2)), force; reflexivity.
Qed.

(** ** Examples *)

(** A munger that has forwarded packet 1000 as its first one. *)
Definition example_munger : RTPMunger :=
  fst (fst (UpdateAndGetSnTs (plain_packet 1000 90000 true true 100) true
    (SetLastSnTs (plain_packet 1000 90000 true true 100) NewRTPMunger))).

Lemma example_munger_inv : inv example_munger.
Proof.
  unfold example_munger. set (p := plain_packet 1000 90000 true true 100).
  destruct (SetLastSnTs_inv NewRTPMunger p (NewRangeMap_wf U64 100)) as ([lr Hi] & Hl & Hh).
  { unfold max_sn. cbn. lia. }
  exists lr. rewrite UpdateAndGetSnTs_forward; [|rewrite Hh; unfold max_sn; cbn; lia
    |right; rewrite Hh; cbn; lia|unfold max_sn; cbn; lia].
  apply (forwarded_inv lr 0 _ p true Hi); rewrite ?Hl, ?Hh; unfold max_sn; cbn; lia.
Qed.

Lemma munger_trace_increasing_witness :
  exists l m', steps example_munger l m' /\ l = [1003; 1004; 1005] /\ inv m' /\
    StronglySorted Z.lt (1000 :: l).
Proof.
  set (p := plain_packet 1003 93000 true false 50).
  set (m1 := fst (fst (UpdateAndGetSnTs p true example_munger))).
  assert (Hs : steps example_munger ([1003] ++ [1004; 1005] ++ [])
    (fst (UpdateAndGetPaddingSnTs 2 90000 30 false 93000 m1))).
  { eapply steps_step; [apply (step_packet example_munger p true); vm_compute; split; congruence || done|].
    eapply steps_step; [|apply steps_refl].
    apply (step_padding m1 2 90000 30 false 93000 [mkSnTs 1004 96000; mkSnTs 1005 99000]);
      vm_compute; reflexivity. }
  eexists _, _. split; [exact Hs|]. split; [reflexivity|].
  destruct (munger_trace_increasing _ _ _ Hs example_munger_inv) as (Hi & Hsort & _).
  split; [exact Hi|exact Hsort].
Defined.

Lemma dropped_number_reused_witness :
  let p := plain_packet 1001 93000 true false 50 in
  let q := plain_packet 1002 96000 true false 50 in
  let '(m1, tp, _) := UpdateAndGetSnTs p true example_munger in
  let '(_, tq, err) := UpdateAndGetSnTs q true (PacketDropped p m1) in
  err = None /\ extSequenceNumber tq = extSequenceNumber tp.
Proof.
  pose proof (dropped_number_reused example_munger (plain_packet 1001 93000 true false 50)
    (plain_packet 1002 96000 true false 50) true true example_munger_inv ltac:(vm_compute; reflexivity)
    ltac:(done) ltac:(reflexivity) ltac:(done) ltac:(vm_compute; reflexivity)
    ltac:(vm_compute; reflexivity)) as H.
  cbv zeta in H |- *. destruct (UpdateAndGetSnTs _ true example_munger) as [[m1 tp] e1].
  destruct (UpdateAndGetSnTs _ true (PacketDropped _ m1)) as [[m3 tq] e3].
  destruct H as (_ & _ & _ & H1 & H2 & _). split; [exact H1|exact H2].
Defined.


(** A gap, a dropped packet, two padding packets, the next packet, and two late
    ones from the gap, one of which comes again. *)
Definition ex_sent (sn : Z) : ExtPacket := plain_packet sn (90 * sn) true false 50.
Definition after_packet (sn : Z) (m : RTPMunger) : RTPMunger := fst (fst (UpdateAndGetSnTs (ex_sent sn) true m)).
Definition ex_source1 : RTPMunger := after_packet 1003 example_munger.
Definition ex_source2 : RTPMunger := forward_then_drop (ex_sent 1004) true ex_source1.
Definition ex_source3 : RTPMunger := fst (UpdateAndGetPaddingSnTs 2 90000 30 false 93000 ex_source2).
Definition ex_source4 : RTPMunger := after_packet 1005 ex_source3.

Lemma ex_packet_step sn o m : 0 <= sn < max_sn -> room m (Z.max 1 (sn - extHighestIncomingSN m)) ->
  (let '(_, tp, err) := UpdateAndGetSnTs (ex_sent sn) true m in (err, extSequenceNumber tp)) = (None, o) ->
  source_step m [(sn, o)] [] (after_packet sn m).
Proof.
  intros H1 H2 H3. unfold after_packet. destruct (UpdateAndGetSnTs (ex_sent sn) true m) as [[m' tp] err] eqn:E.
  injection H3 as -> <-. exact (source_packet m (ex_sent sn) true m' tp None H1 H2 E).
Qed.

Lemma ex_padding_step : source_step ex_source2 [] [1004; 1005] ex_source3.
Proof.
  assert (match snd (UpdateAndGetPaddingSnTs 2 90000 30 false 93000 ex_source2) with Ok v => map snts_sn v | Err _ => [] end =
    [1004; 1005]) as E2 by (vm_compute; reflexivity).
  unfold ex_source3. destruct (UpdateAndGetPaddingSnTs 2 90000 30 false 93000 ex_source2) as [m' [vals|e]] eqn:E; [|discriminate E2].
  cbn [snd] in E2. rewrite <- E2. apply (source_padding _ 2 90000 30 false 93000); [lia|vm_compute; reflexivity|exact E].
Qed.


Lemma padding_fresh_witness :
  let '(m', out) := UpdateAndGetPaddingSnTs 3 90000 30 false 90000 example_munger in
  exists vals, out = Ok vals /\ inv m' /\ extLastSN m' = 1003 /\
    map snts_sn vals = [1001; 1002; 1003].
Proof.
  destruct (UpdateAndGetPaddingSnTs 3 90000 30 false 90000 example_munger) as [m' [vals|e]] eqn:E;
    [|vm_compute in E; discriminate E].
  destruct (padding_fresh example_munger 3 90000 30 false 90000 m' vals example_munger_inv
    ltac:(lia) ltac:(vm_compute; reflexivity) E) as (Hi & Hl & Hv & _).
  exists vals. split; [reflexivity|]. split; [exact Hi|]. split; [exact Hl|exact Hv].
Defined.
