(* ===== verification/Sequencer.v ===== *)
(** * Sequencer: the retransmission index of a down track

    Models [src/SERVER/pkg/sfu/sequencer.go]: a ring of [size] packet
    descriptions indexed by the outgoing sequence number, compacted over
    padding by a [RangeMap] when the track may be sparse.  [time.Now] is the
    argument [now]; locking and logging are dropped (each operation holds the
    lock for its whole body). *)

From S2P Require Import Prelude RangeMap.

Definition defaultRtt : Z := 70.
Definition ignoreRetransmission : Z := 100.
Definition maxAck : Z := 3.

Record packetMeta := mkMeta {
  sourceSeqNo : Z;
  targetSeqNo : Z;
  timestamp : Z;
  marker : bool;
  lastNack : Z;
  nacked : Z;
  layer : Z;
  codecBytes : list Z;       (** the inline [8]byte array *)
  numCodecBytesIn : Z;
  numCodecBytesOut : Z;
  codecBytesSlice : list Z;
  ddBytes : list Z;          (** the inline [8]byte array *)
  ddBytesSize : Z;
  ddBytesSlice : list Z;
  actBytes : list Z;
}.
#[export] Instance eta_packetMeta : Eta packetMeta := fun m =>
  mkMeta (sourceSeqNo m) (targetSeqNo m) (timestamp m) (marker m) (lastNack m) (nacked m) (layer m)
    (codecBytes m) (numCodecBytesIn m) (numCodecBytesOut m) (codecBytesSlice m)
    (ddBytes m) (ddBytesSize m) (ddBytesSlice m) (actBytes m).

Definition zero8 : list Z := [0; 0; 0; 0; 0; 0; 0; 0].

(** [packetMeta{}] *)
Definition zeroMeta : packetMeta := mkMeta 0 0 0 false 0 0 0 zero8 0 0 [] zero8 0 [] [].

Record extPacketMeta := mkExtMeta {
  meta_ : packetMeta;
  extSequenceNumber : Z;
  extTimestamp : Z;
}.

Record sequencer := mkSequencer {
  size : Z;
  startTime : Z;
  initialized : bool;
  extStartSN : Z;
  extHighestSN : Z;
  snOffset : Z;
  extHighestTS : Z;
  meta : list packetMeta;
  snRangeMap : option RangeMap;
  rtt : Z;
}.
#[export] Instance eta_sequencer : Eta sequencer := fun s =>
  mkSequencer (size s) (startTime s) (initialized s) (extStartSN s) (extHighestSN s) (snOffset s)
    (extHighestTS s) (meta s) (snRangeMap s) (rtt s).

Definition newSequencer (size0 : Z) (maybeSparse : bool) (now : Z) : option sequencer :=
  if size0 =? 0 then None
  else Some (mkSequencer size0 now false 0 0 0 0 (repeat zeroMeta (Z.to_nat size0))
               (if maybeSparse then Some (NewRangeMap U64 (Z.quot (size0 + 1) 2)) else None)
               defaultRtt).

Definition setRTT (rtt0 : Z) (s : sequencer) : sequencer :=
  if rtt0 =? 0 then s <| rtt := defaultRtt |> else s <| rtt := rtt0 |>.

Definition getRefTime (at0 : Z) (s : sequencer) : Z := u32 (Z.quot (at0 - startTime s) 1000000).

Definition updateSNOffset (s : sequencer) : sequencer :=
  match snRangeMap s with
  | None => s
  | Some r =>
    match GetValue U64 r (u64 (extHighestSN s + 1)) with
    | (off, None) => s <| snOffset := off |>
    | (_, Some _) => s
    end
  end.

Definition invalidateSlot (slot : Z) (s : sequencer) : sequencer :=
  if slot >=? zlen (meta s) then s
  else s <| meta := zset slot zeroMeta (meta s) |>.

Definition isInvalidSlot (slot : Z) (s : sequencer) : bool :=
  if slot >=? zlen (meta s) then true
  else match zlookup (meta s) slot with
       | Some m => (sourceSeqNo m =? 0) && (targetSeqNo m =? 0) && (lastNack m =? 0)
       | None => true
       end.

(** The invalidation loop of [push]; it breaks after [size] slots, so [k]
    starts at [size]. *)
Fixpoint invalidate_loop (k : nat) (esn target : Z) (s : sequencer) : sequencer :=
  match k with
  | O => s
  | S k =>
    if esn =? target then s
    else invalidate_loop k (u64 (esn + 1)) target (invalidateSlot (esn mod size s) s)
  end.

(** [copy(arr[:n], bs)] into a zeroed [8]byte array *)
Definition inline8 (bs : list Z) : list Z := ztake 8 (bs ++ zero8).

(** The [packetMeta] that [push] stores. *)
Definition pushed_meta (refTime extIncomingSN extModifiedSN extModifiedTS : Z) (marker0 : bool)
  (layer0 : Z) (codec : list Z) (numIn : Z) (dd act : list Z) : packetMeta :=
  mkMeta extIncomingSN (u16 extModifiedSN) (u32 extModifiedTS) marker0 refTime 0 layer0
    (if zlen codec >? 8 then zero8 else inline8 codec) (u8 numIn) (u8 (zlen codec))
    (if zlen codec >? 8 then codec else [])
    (if zlen dd >? 8 then zero8 else inline8 dd) (u8 (zlen dd))
    (if zlen dd >? 8 then dd else []) act.

(** [push] after the offset of the packet is known. *)
Definition push_at (extHighestSNAdjusted extModifiedSNAdjusted extModifiedSN extModifiedTS : Z)
  (pm : packetMeta) (s : sequencer) : sequencer :=
  if i64 (u64 (extModifiedSNAdjusted - extHighestSNAdjusted)) <=? - size s then s
  else
    let s := if extModifiedSNAdjusted >? extHighestSNAdjusted then
               invalidate_loop (Z.to_nat (size s)) (u64 (extHighestSNAdjusted + 1))
                 extModifiedSNAdjusted s
             else s in
    let slot := extModifiedSNAdjusted mod size s in
    let s := s <| meta := zset slot pm (meta s) |> in
    let s := if extModifiedSN >? extHighestSN s then s <| extHighestSN := extModifiedSN |> else s in
    if extModifiedTS >? extHighestTS s then s <| extHighestTS := extModifiedTS |> else s.

Definition push (packetTime extIncomingSN extModifiedSN extModifiedTS : Z) (marker0 : bool)
  (layer0 : Z) (codec : list Z) (numIn : Z) (dd act : list Z) (s : sequencer) : sequencer :=
  let s := if negb (initialized s) then
             updateSNOffset (s <| initialized := true |> <| extStartSN := extModifiedSN |>
                               <| extHighestSN := extModifiedSN |> <| extHighestTS := extModifiedTS |>)
           else s in
  if extModifiedSN <? extStartSN s then s
  else
    let extHighestSNAdjusted := u64 (extHighestSN s - snOffset s) in
    let pm := pushed_meta (getRefTime packetTime s) extIncomingSN extModifiedSN extModifiedTS
                marker0 layer0 codec numIn dd act in
    match (if extModifiedSN <? extHighestSN s then snRangeMap s else None) with
    | Some r =>
      match GetValue U64 r extModifiedSN with
      | (_, Some _) => s
      | (off, None) =>
        push_at extHighestSNAdjusted (u64 (extModifiedSN - off)) extModifiedSN extModifiedTS pm s
      end
    | None =>
      push_at extHighestSNAdjusted (u64 (extModifiedSN - snOffset s)) extModifiedSN extModifiedTS pm s
    end.

(** The loop of [pushPadding] over an old range; [k] is its length. *)
Fixpoint invalidate_old (k : nat) (esn : Z) (s : sequencer) : sequencer :=
  match k with
  | O => s
  | S k =>
    let s' :=
      let diff := i64 (u64 (esn - extHighestSN s)) in
      if (diff >=? 0) || (diff <? - size s) then s
      else
        match snRangeMap s with
        | None => s
        | Some r =>
          match GetValue U64 r esn with
          | (_, Some _) => s
          | (off, None) => invalidateSlot (u64 (esn - off) mod size s) s
          end
        end in
    invalidate_old k (u64 (esn + 1)) s'
  end.

Definition pushPadding (extStartSNInclusive extEndSNInclusive : Z) (s : sequencer) : sequencer :=
  match snRangeMap s with
  | None => s
  | Some r =>
    if negb (initialized s) then s
    else if extStartSNInclusive <=? extHighestSN s then
      invalidate_old (Z.to_nat (u64 (extEndSNInclusive + 1 - extStartSNInclusive)))
        extStartSNInclusive s
    else
      match ExcludeRange U64 U64 extStartSNInclusive (u64 (extEndSNInclusive + 1)) r with
      | (r', Some _) => s <| snRangeMap := Some r' |>
      | (r', None) =>
        updateSNOffset (s <| snRangeMap := Some r' |> <| extHighestSN := extEndSNInclusive |>)
      end
  end.

(** The extended timestamp rebuilt from the stored low half. *)
Definition metaExtTS (m : packetMeta) (s : sequencer) : Z :=
  let extTS := u64 (timestamp m + Z.land (extHighestTS s) 0xFFFFFFFF00000000) in
  if timestamp m >? u32 (extHighestTS s) then u64 (extTS - Z.shiftl 1 32) else extTS.

(** [s.snRangeMap.GetValue(extSN)], zero without a range map. *)
Definition offsetOf (extSN : Z) (s : sequencer) : option Z :=
  match snRangeMap s with
  | None => Some 0
  | Some r => match GetValue U64 r extSN with (off, None) => Some off | (_, Some _) => None end
  end.

(** One iteration of the loop of [getExtPacketMetas]. *)
Definition getOne (refTime highestSN : Z) (sn : Z) (s : sequencer)
  : sequencer * option extPacketMeta :=
  let diff := u16 (highestSN - sn) in
  if diff >? Z.shiftl 1 15 then (s, None)
  else
    let extSN := u64 (sn + Z.land (extHighestSN s) 0xFFFFFFFFFFFF0000) in
    let extSN := if sn >? highestSN then u64 (extSN - Z.shiftl 1 16) else extSN in
    match offsetOf extSN s with
    | None => (s, None)
    | Some off =>
      let extSNAdjusted := u64 (extSN - off) in
      let extHighestSNAdjusted := u64 (extHighestSN s - snOffset s) in
      if u64 (extHighestSNAdjusted - extSNAdjusted) >=? size s then (s, None)
      else
        let slot := extSNAdjusted mod size s in
        match zlookup (meta s) slot with
        | None => (s, None)
        | Some m =>
          if negb (targetSeqNo m =? sn) || isInvalidSlot slot s then (s, None)
          else if (nacked m <? maxAck)
                  && (u32 (refTime - lastNack m) >? Z.min ignoreRetransmission (u32 (2 * rtt s))) then
            let m := m <| nacked := u8 (nacked m + 1) |> <| lastNack := refTime |> in
            (s <| meta := zset slot m (meta s) |>, Some (mkExtMeta m extSN (metaExtTS m s)))
          else (s, None)
        end
    end.

Fixpoint getLoop (refTime highestSN : Z) (seqNo : list Z) (s : sequencer)
  : sequencer * list extPacketMeta :=
  match seqNo with
  | [] => (s, [])
  | sn :: rest =>
    let '(s, o) := getOne refTime highestSN sn s in
    let '(s, out) := getLoop refTime highestSN rest s in
    (s, match o with Some e => e :: out | None => out end)
  end.

Definition getExtPacketMetas (now : Z) (seqNo : list Z) (s : sequencer)
  : sequencer * list extPacketMeta :=
  if negb (initialized s) then (s, [])
  else getLoop (getRefTime now s) (u16 (extHighestSN s)) seqNo s.

Definition lookupExtPacketMeta (extSN : Z) (s : sequencer) : option extPacketMeta :=
  if negb (initialized s) then None
  else
    match offsetOf extSN s with
    | None => None
    | Some off =>
      let extSNAdjusted := u64 (extSN - off) in
      let extHighestSNAdjusted := u64 (extHighestSN s - snOffset s) in
      if u64 (extHighestSNAdjusted - extSNAdjusted) >=? size s then None
      else
        let slot := extSNAdjusted mod size s in
        match zlookup (meta s) slot with
        | None => None
        | Some m =>
          if isInvalidSlot slot s then None else Some (mkExtMeta m extSN (metaExtTS m s))
        end
    end.

(** ** Traces and the ghost log

    [log] remembers every packet pushed: its description, its extended
    timestamp, how often it was handed out for a NACK and when it was last sent.  [kept] is the set
    of numbers whose slot must still be readable. *)

Inductive op :=
| OPush (packetTime extIncomingSN extModifiedSN extModifiedTS : Z) (marker0 : bool)
    (layer0 : Z) (codec : list Z) (numIn : Z) (dd act : list Z)
| OPad (extStartSNInclusive extEndSNInclusive : Z)
| ORtt (rtt0 : Z)
| ONack (now : Z) (seqNo : list Z).

Record entry := mkEntry {
  g_meta : packetMeta;
  g_ts : Z;
  g_sent : Z;
  g_last : Z;
}.

Notation log := (gmap Z entry).

Definition run (o : op) (s : sequencer) : sequencer * list extPacketMeta :=
  match o with
  | OPush pt inc esn ts mk ly cd ni dd act => (push pt inc esn ts mk ly cd ni dd act s, [])
  | OPad a b => (pushPadding a b s, [])
  | ORtt r => (setRTT r s, [])
  | ONack now sns => getExtPacketMetas now sns s
  end.

(** [push] records the packet unless its offset is unknown. *)
Definition accepted (esn : Z) (s : sequencer) : bool :=
  negb (initialized s)
  || ((extStartSN s <=? esn)
      && ((extHighestSN s <=? esn) || bool_decide (is_Some (offsetOf esn s)))).

Definition sent_again (refTime : Z) (g : entry) : entry :=
  mkEntry (g_meta g) (g_ts g) (g_sent g + 1) refTime.

Definition bump (l : log) (e : extPacketMeta) : log :=
  alter (sent_again (lastNack (meta_ e))) (extSequenceNumber e) l.

Definition new_entry (pm : packetMeta) (ts : Z) : entry := mkEntry pm ts 0 (lastNack pm).

Definition log_op (o : op) (s : sequencer) (out : list extPacketMeta) (l : log) : log :=
  match o with
  | OPush pt inc esn ts mk ly cd ni dd act =>
    <[esn := new_entry (pushed_meta (getRefTime pt s) inc esn ts mk ly cd ni dd act) ts]> l
  | ONack _ _ => fold_left bump out l
  | _ => l
  end.

Definition kept_op (o : op) (s : sequencer) (kept : gset Z) : gset Z :=
  match o with
  | OPush _ _ esn _ _ _ _ _ _ _ => if accepted esn s then {[esn]} ∪ kept else kept
  | OPad a b => if bool_decide (is_Some (snRangeMap s)) && (a <=? extHighestSN s) then ∅ else kept
  | _ => kept
  end.

Definition bound : Z := 2 ^ 62.

(** What the down track guarantees of each call: a number is pushed once, and
    padding is either old or follows the highest number. *)
Definition valid_op (o : op) (s : sequencer) (l : log) : Prop :=
  match o with
  | OPush _ _ esn ts _ _ _ _ _ _ =>
    0 <= esn < bound /\ 0 <= ts < bound /\ l !! esn = None /\
    (initialized s = true -> esn <> extHighestSN s)
  | OPad a b => initialized s = true -> 0 <= a <= b /\ b < bound /\ a <= extHighestSN s + 1
  | ONack _ sns => Forall (fun sn => 0 <= sn < 65536) sns
  | _ => True
  end.

(** ** The invariant *)

(** The slot description of a logged packet: as pushed, with its NACK accounting. *)
Definition slot_of (g : entry) : packetMeta :=
  g_meta g <| nacked := g_sent g |> <| lastNack := g_last g |>.

Definition same_packet (m : packetMeta) (g : entry) : Prop := m = slot_of g.

Definition highAdj (s : sequencer) : Z := extHighestSN s - snOffset s.

(** [adj] is the sequence number with the padding below it taken out; [live]
    numbers are those that are not padding. *)
Record inv_at (adj : Z -> Z) (live : Z -> Prop) (l : log) (kept : gset Z) (s : sequencer) : Prop := {
  a_size : 0 < size s < 2 ^ 31;
  a_meta : zlen (meta s) = size s;
  a_high : 0 <= extHighestSN s < bound;
  a_off : 0 <= snOffset s <= extHighestSN s;
  a_start : extStartSN s <= extHighestSN s;
  a_highTS : 0 <= extHighestTS s < bound;
  a_wf : forall r, snRangeMap s = Some r -> wf U64 r /\
           exists lr, last (ranges r) = Some lr /\ start lr <= extHighestSN s + 1 /\
                      value lr = snOffset s;
  a_none : snRangeMap s = None -> snOffset s = 0;
  a_mono : forall x y, live x -> live y -> x < y -> adj x < adj y;
  a_nonneg : forall x, 0 <= x -> live x -> 0 <= adj x;
  a_above : forall x, extHighestSN s < x -> live x /\ adj x = x - snOffset s;
  a_get : forall x off, 0 <= x < umod U64 -> offsetOf x s = Some off ->
            live x /\ adj x = x - off /\ 0 <= off;
  a_log : forall esn g, l !! esn = Some g ->
            0 <= esn <= extHighestSN s /\ 0 <= g_sent g <= maxAck /\
            targetSeqNo (g_meta g) = u16 esn /\ timestamp (g_meta g) = u32 (g_ts g) /\ 0 <= g_ts g;
  a_slot : forall i m, zlookup (meta s) i = Some m -> m = zeroMeta \/
            exists esn g, l !! esn = Some g /\ live esn /\ adj esn mod size s = i /\
              highAdj s - size s < adj esn /\ same_packet m g /\ g_ts g <= extHighestTS s;
  a_kept : forall esn, esn ∈ kept -> live esn /\ (highAdj s - size s < adj esn ->
             exists m g, zlookup (meta s) (adj esn mod size s) = Some m /\
               l !! esn = Some g /\ same_packet m g);
}.

(** Numbers up to the highest one stay in the window after adjustment. *)
Lemma adj_le_high adj live l kept s x :
  inv_at adj live l kept s -> live x -> x <= extHighestSN s -> adj x <= highAdj s.
Proof.
  intros I Hl Hx. destruct (a_above _ _ _ _ _ I (extHighestSN s + 1)) as [H1 H2]; [lia|].
  pose proof (a_mono _ _ _ _ _ I x _ Hl H1). unfold highAdj. lia.
Qed.

Lemma adj_inj adj live l kept s x y :
  inv_at adj live l kept s -> live x -> live y -> adj x = adj y -> x = y.
Proof.
  intros I Hx Hy E. pose proof (a_mono _ _ _ _ _ I x y Hx Hy).
  pose proof (a_mono _ _ _ _ _ I y x Hy Hx). lia.
Qed.

Lemma window_unique n h a b :
  0 < n -> h - n < a <= h -> h - n < b <= h -> a mod n = b mod n -> a = b.
Proof.
  intros Hn Ha Hb E.
  pose proof (Z.div_mod a n). pose proof (Z.div_mod b n).
  assert (a / n = b / n) by nia. nia.
Qed.

(** The slot of a live number in the window can only describe that number. *)
Lemma slot_owner adj live l kept s x m :
  inv_at adj live l kept s -> live x -> x <= extHighestSN s -> highAdj s - size s < adj x ->
  zlookup (meta s) (adj x mod size s) = Some m ->
  m = zeroMeta \/ exists g, l !! x = Some g /\ same_packet m g /\ g_ts g <= extHighestTS s.
Proof.
  intros I Hl Hx Hw Hm. destruct (a_slot _ _ _ _ _ I _ _ Hm) as [->|(esn & g & Hg & He & Hi & Hw' & Hs & Ht)];
    [by left|right]. exists g. split; [|done].
  replace x with esn; [done|]. eapply (adj_inj _ _ _ _ _ _ _ I); [done..|].
  pose proof (a_size _ _ _ _ _ I).
  apply (window_unique (size s) (highAdj s)); [lia| |split; [lia|]|done].
  - split; [lia|]. eapply adj_le_high; [exact I|done|]. by apply (a_log _ _ _ _ _ I _ _ Hg).
  - by eapply adj_le_high.
Qed.

(** ** Invalidating the slots of lost packets *)

Lemma invalidateSlot_meta i s :
  0 <= i < zlen (meta s) -> invalidateSlot i s = s <| meta := zset i zeroMeta (meta s) |>.
Proof. unfold invalidateSlot. intros H. rewrite Z.geb_leb, (proj2 (Z.leb_gt _ _)) by lia. done. Qed.

(** The loop clears the slots of [esn .. target-1], at most [k] of them. *)
Lemma invalidate_loop_meta k esn target s :
  0 < size s -> zlen (meta s) = size s -> 0 <= esn <= target -> target < umod U64 ->
  exists M, invalidate_loop k esn target s = s <| meta := M |> /\ zlen M = size s /\
    forall i, 0 <= i < size s ->
      ((exists x, esn <= x < target /\ x < esn + Z.of_nat k /\ x mod size s = i) /\
         zlookup M i = Some zeroMeta) \/
      ((forall x, esn <= x < target -> x < esn + Z.of_nat k -> x mod size s <> i) /\
         zlookup M i = zlookup (meta s) i).
Proof.
  revert esn s. induction k as [|k IH]; intros esn s Hsz Hlen He Ht; cbn [invalidate_loop].
  { exists (meta s). split; [by destruct s|]. split; [done|]. intros i Hi. right. split; [lia|done]. }
  destruct (Z.eqb_spec esn target) as [->|Hne].
  { exists (meta s). split; [by destruct s|]. split; [done|]. intros i Hi. right. split; [lia|done]. }
  pose proof (Z.mod_pos_bound esn (size s) Hsz) as Hm.
  rewrite invalidateSlot_meta by lia. rewrite u64_small by (cbn in Ht; lia).
  set (s' := s <| meta := _ |>).
  destruct (IH (esn + 1) s' ltac:(cbn; lia) ltac:(cbn; rewrite zlen_zset; lia) ltac:(lia) Ht)
    as (M & HM & HlM & Hi).
  exists M. split; [by rewrite HM|]. split; [done|]. intros i Hir.
  change (size s') with (size s) in Hi.
  change (meta s') with (zset (esn mod size s) zeroMeta (meta s)) in Hi.
  destruct (Hi i Hir) as [[(x & Hx & Hk & Hxi) Hz]|[Hno Hz]].
  - left. split; [exists x; repeat split; lia|done].
  - destruct (decide (esn mod size s = i)) as [<-|Hni].
    + left. split; [exists esn; repeat split; lia|]. rewrite Hz. apply zlookup_zset_eq. lia.
    + right. split.
      * intros x Hx1 Hx2. destruct (decide (x = esn)) as [->|]; [done|]. apply Hno; lia.
      * rewrite Hz. apply zlookup_zset_ne; lia.
Qed.

(** After [size] slots everything between the window and [target] is clear:
    a slot either holds nothing or a number whose window still reaches [target]. *)
Lemma invalidate_loop_window esn target s :
  0 < size s -> zlen (meta s) = size s -> 0 <= esn <= target -> target < umod U64 ->
  exists M, invalidate_loop (Z.to_nat (size s)) esn target s = s <| meta := M |> /\ zlen M = size s /\
    forall i, 0 <= i < size s ->
      (exists x, esn <= x < target /\ x mod size s = i /\ zlookup M i = Some zeroMeta) \/
      ((forall x, esn <= x < target -> x mod size s <> i) /\ zlookup M i = zlookup (meta s) i).
Proof.
  intros Hsz Hlen He Ht.
  destruct (invalidate_loop_meta (Z.to_nat (size s)) esn target s Hsz Hlen He Ht) as (M & H1 & H2 & H3).
  exists M. split; [done|]. split; [done|]. intros i Hi.
  destruct (H3 i Hi) as [[(x & ? & ? & ?) ?]|[Hno Hz]]; [left; eauto|]. right. split; [|done].
  intros x Hx Hxi. destruct (Z.lt_ge_cases x (esn + size s)) as [|Hge]; [by apply (Hno x); lia|].
  (* a number congruent to [x] among the first [size] *)
  pose proof (Z.mod_pos_bound (x - esn) (size s) Hsz).
  apply (Hno (esn + (x - esn) mod size s)); [lia..|].
  rewrite <- Hxi. rewrite Zplus_mod_idemp_r. f_equal. lia.
Qed.

(** ** [push] preserves the invariant *)

Lemma i64_u64_small d : - bound < d < bound -> i64 (u64 d) = d.
Proof. unfold bound. cbn. intros. glia. Qed.

Lemma set_max (f : Z) (b : Z) : (if f >? b then f else b) = Z.max f b.
Proof. rewrite Z.gtb_ltb. destruct (Z.ltb_spec b f); lia. Qed.

Definition pushed (esn ts : Z) (M : list packetMeta) (s : sequencer) : sequencer :=
  s <| meta := M |> <| extHighestSN := Z.max esn (extHighestSN s) |>
    <| extHighestTS := Z.max ts (extHighestTS s) |>.

(** The new slots: the pushed packet, cleared slots of lost numbers, the rest. *)
Definition overwrites (h a : Z) (pm : packetMeta) (M M' : list packetMeta) : Prop :=
  zlen M' = zlen M /\
  zlookup M' (a mod zlen M) = Some pm /\
  forall i, 0 <= i < zlen M -> i <> a mod zlen M ->
    (exists x, h < x < a /\ x mod zlen M = i /\ zlookup M' i = Some zeroMeta) \/
    ((forall x, h < x < a -> x mod zlen M <> i) /\ zlookup M' i = zlookup M i).

Lemma push_at_effect h a esn ts pm s :
  0 < size s -> zlen (meta s) = size s -> 0 <= h < bound -> 0 <= a < bound ->
  if decide (a <= h - size s) then push_at h a esn ts pm s = s
  else exists M, push_at h a esn ts pm s = pushed esn ts M s /\ overwrites h a pm (meta s) M.
Proof.
  intros Hsz Hlen Hh Ha. unfold push_at. rewrite i64_u64_small by lia.
  destruct (decide (a <= h - size s)) as [Hd|Hd].
  { by rewrite (proj2 (Z.leb_le _ _)) by lia. }
  rewrite (proj2 (Z.leb_gt _ _)) by lia.
  pose proof (Z.mod_pos_bound a (size s) Hsz) as Hslot.
  assert (exists M1, (if a >? h then invalidate_loop (Z.to_nat (size s)) (u64 (h + 1)) a s else s)
            = s <| meta := M1 |> /\ zlen M1 = size s /\
          forall i, 0 <= i < size s ->
            (exists x, h < x < a /\ x mod size s = i /\ zlookup M1 i = Some zeroMeta) \/
            ((forall x, h < x < a -> x mod size s <> i) /\ zlookup M1 i = zlookup (meta s) i))
    as (M1 & -> & HM1 & Hi).
  { rewrite Z.gtb_ltb. destruct (Z.ltb_spec h a).
    - rewrite u64_small by (unfold bound in *; lia).
      destruct (invalidate_loop_window (h + 1) a s Hsz Hlen ltac:(lia)
                  ltac:(unfold bound in *; cbn; lia)) as (M1 & -> & HM1 & Hi).
      exists M1. split; [done|]. split; [done|]. intros i Hir.
      destruct (Hi i Hir) as [(x & ? & ? & ?)|[Hno Hz]]; [left; exists x; repeat split; (done || lia)|].
      right. split; [|done]. intros x Hx. apply Hno. lia.
    - exists (meta s). split; [by destruct s|]. split; [done|]. intros i Hir. right. split; [lia|done]. }
  exists (zset (a mod size s) pm M1). split.
  { unfold pushed. rewrite <- !set_max. cbv zeta. destruct s as [? ? ? ? eh ? et]. cbn -[Z.gtb].
    destruct (esn >? eh); cbn -[Z.gtb]; by destruct (ts >? et). }
  unfold overwrites. rewrite zlen_zset, Hlen, HM1. split; [done|].
  split; [apply zlookup_zset_eq; lia|]. intros i Hir Hne.
  rewrite zlookup_zset_ne by lia. by apply Hi.
Qed.

Section PushAt.
Context (adj : Z -> Z) (live : Z -> Prop) (l : log) (kept : gset Z) (s : sequencer).
Context (I : inv_at adj live l kept s).
Context (esn ts : Z) (g : entry).
Context (Hesn : 0 <= esn < bound) (Hlive : live esn) (Hfresh : l !! esn = None).
Context (Hts : 0 <= ts < bound) (Hgts : g_ts g = ts) (Hsent : g_sent g = 0).
Context (Hnack : nacked (g_meta g) = 0) (Hlast : g_last g = lastNack (g_meta g)).
Context (Htarget : targetSeqNo (g_meta g) = u16 esn) (Htime : timestamp (g_meta g) = u32 ts).
Context (Hstart : extStartSN s <= esn).

Lemma adj_bounds : 0 <= adj esn < bound.
Proof.
  destruct I. destruct (Z.le_gt_cases esn (extHighestSN s)).
  - pose proof (adj_le_high _ _ _ _ _ _ I Hlive ltac:(done)). specialize (a_nonneg0 esn ltac:(lia) Hlive).
    unfold highAdj in *. lia.
  - destruct (a_above0 esn ltac:(lia)) as [_ ->]. lia.
Qed.

Lemma high_bounds : 0 <= highAdj s < bound.
Proof. destruct I. unfold highAdj. lia. Qed.

Lemma log_insert_ok H : extHighestSN s <= H -> esn <= H ->
  forall x e, <[esn := g]> l !! x = Some e ->
    0 <= x <= H /\ 0 <= g_sent e <= maxAck /\
    targetSeqNo (g_meta e) = u16 x /\ timestamp (g_meta e) = u32 (g_ts e) /\ 0 <= g_ts e.
Proof.
  clear Hlive Hstart. intros H1 H2 x e He. apply lookup_insert_Some in He as [[<- <-]|[_ He]].
  - rewrite Hsent, Hgts. unfold maxAck. repeat split; (done || lia).
  - destruct (a_log _ _ _ _ _ I _ _ He) as (? & ? & ? & ? & ?). repeat split; (done || lia).
Qed.

Lemma lookup_insert_fresh x e : l !! x = Some e -> <[esn := g]> l !! x = Some e.
Proof. clear Hlive Hstart. intros He. rewrite lookup_insert_ne; [done|]. intros ->. by rewrite Hfresh in He. Qed.

Lemma log_only_inv :
  esn <= extHighestSN s -> inv_at adj live (<[esn := g]> l) kept s.
Proof.
  clear Hlive Hstart. intros HleH. destruct I. constructor; try done.
  - apply log_insert_ok; lia.
  - intros i m Hm. destruct (a_slot0 i m Hm) as [->|(x & e & He & ? & ? & ? & ? & ?)]; [by left|].
    right. exists x, e. split; [by apply lookup_insert_fresh|]. done.
  - intros x Hx. destruct (a_kept0 x Hx) as [? Hk]. split; [done|]. intros Hw.
    destruct (Hk Hw) as (m & e & ? & He & ?). exists m, e. split; [done|].
    split; [by apply lookup_insert_fresh|done].
Qed.

Lemma push_at_old :
  adj esn <= highAdj s - size s -> inv_at adj live (<[esn := g]> l) ({[esn]} ∪ kept) s.
Proof.
  intros Hold. destruct I.
  assert (esn <= extHighestSN s) as HleH.
  { destruct (Z.le_gt_cases esn (extHighestSN s)); [done|].
    destruct (a_above0 esn ltac:(lia)) as [_ E]. unfold highAdj in Hold. lia. }
  destruct (log_only_inv HleH). constructor; try done.
  intros x [->%elem_of_singleton|Hx]%elem_of_union; [split; [done|lia]|auto].
Qed.

Lemma high_pushed_cases :
  (esn <= extHighestSN s /\ adj esn <= highAdj s /\ Z.max esn (extHighestSN s) - snOffset s = highAdj s)
  \/ (extHighestSN s < esn /\ highAdj s < adj esn /\ Z.max esn (extHighestSN s) - snOffset s = adj esn).
Proof.
  destruct (Z.le_gt_cases esn (extHighestSN s)) as [H|H].
  - left. pose proof (adj_le_high _ _ _ _ _ _ I Hlive H). unfold highAdj in *. lia.
  - right. destruct (a_above _ _ _ _ _ I esn ltac:(lia)) as [_ E]. rewrite E. unfold highAdj. lia.
Qed.

Lemma pushed_slot M i m :
  highAdj s - size s < adj esn -> overwrites (highAdj s) (adj esn) (g_meta g) (meta s) M ->
  zlookup M i = Some m -> m = zeroMeta \/
  exists x e, <[esn := g]> l !! x = Some e /\ live x /\ adj x mod size s = i /\
    Z.max esn (extHighestSN s) - snOffset s - size s < adj x /\ same_packet m e /\
    g_ts e <= Z.max ts (extHighestTS s).
Proof.
  intros Hnew (Hlen & Hslot & Hrest) Hm. pose proof (a_size _ _ _ _ _ I) as Hsz.
  rewrite (a_meta _ _ _ _ _ I) in *.
  assert (0 <= i < size s) as Hir.
  { unfold zlookup in Hm. destruct (Z.leb_spec 0 i); [|done].
    apply lookup_lt_Some in Hm. unfold zlen in Hlen. lia. }
  pose proof high_pushed_cases as Hc.
  destruct (decide (i = adj esn mod size s)) as [->|Hne].
  - right. exists esn, g. rewrite lookup_insert_eq. assert (m = g_meta g) as -> by congruence.
    repeat split; try (done || lia).
    unfold same_packet, slot_of. rewrite Hsent, <- Hnack, Hlast. by destruct (g_meta g).
  - destruct (Hrest i Hir Hne) as [(x & _ & _ & Hz)|[Hno Hz]]; [left; congruence|].
    rewrite Hz in Hm. destruct (a_slot _ _ _ _ _ I i m Hm) as [->|(x & e & He & Hl & Hi & Hw & Hs & Ht)];
      [by left|right]. exists x, e. split; [by apply lookup_insert_fresh|].
    repeat split; try (done || lia).
    destruct Hc as [(_ & _ & ->)|(_ & _ & ->)]; [lia|].
    destruct (Z.lt_ge_cases (adj esn - size s) (adj x)) as [|Hge]; [lia|exfalso].
    assert ((adj x + size s) mod size s = i) as Hc.
    { rewrite <- Hi. rewrite <- (Z.mul_1_l (size s)) at 1. apply Z.mod_add. lia. }
    destruct (decide (adj x + size s = adj esn)) as [E|]; [congruence|].
    apply (Hno (adj x + size s)); [lia|done].
Qed.

Lemma pushed_kept M x :
  highAdj s - size s < adj esn ->
  overwrites (highAdj s) (adj esn) (g_meta g) (meta s) M -> x ∈ ({[esn]} ∪ kept : gset Z) ->
  live x /\ (Z.max esn (extHighestSN s) - snOffset s - size s < adj x ->
    exists m e, zlookup M (adj x mod size s) = Some m /\
      <[esn := g]> l !! x = Some e /\ same_packet m e).
Proof.
  intros Hnew (Hlen & Hslot & Hrest). pose proof (a_size _ _ _ _ _ I) as Hsz.
  rewrite (a_meta _ _ _ _ _ I) in *.
  intros [->%elem_of_singleton|Hx]%elem_of_union.
  { split; [done|]. intros _. exists (g_meta g), g. rewrite lookup_insert_eq.
    repeat split; [done|]. unfold same_packet, slot_of. rewrite Hsent, <- Hnack, Hlast. by destruct (g_meta g). }
  destruct (a_kept _ _ _ _ _ I x Hx) as [Hl Hk]. split; [done|]. intros Hw.
  destruct Hk as (m & e & Hm & He & Hs).
  { destruct high_pushed_cases as [(_ & _ & E)|(_ & ? & E)]; lia. }
  exists m, e. split; [|split; [by apply lookup_insert_fresh|done]].
  pose proof (a_log _ _ _ _ _ I x e He) as (Hxr & _).
  pose proof (adj_le_high _ _ _ _ _ _ I Hl ltac:(lia)) as Hxh.
  assert (x <> esn) as Hxe by congruence.
  assert (forall y, Z.max (highAdj s) (adj esn) - size s < y <= Z.max (highAdj s) (adj esn) ->
            y mod size s = adj x mod size s -> y = adj x) as Huniq.
  { intros y Hy E. destruct (high_pushed_cases) as [(_ & ? & E2)|(_ & ? & E2)];
      (eapply (window_unique (size s)); [lia|exact Hy| |done]; lia). }
  assert (adj x <> adj esn) as Hae by (intros E; apply Hxe; by eapply adj_inj).
  pose proof (Z.mod_pos_bound (adj x) (size s) ltac:(lia)) as Hr.
  destruct (decide (adj x mod size s = adj esn mod size s)) as [E|Hd].
  { exfalso. apply Hae. symmetry. apply Huniq; [lia|done]. }
  destruct (Hrest _ Hr Hd) as [(y & Hy & Hyi & _)|[_ Hz]]; [|congruence].
  exfalso. assert (y = adj x); [|lia]. apply Huniq; [|done].
  destruct high_pushed_cases as [(_ & ? & E2)|(_ & ? & E2)]; lia.
Qed.

Lemma push_at_inv :
  inv_at adj live (<[esn := g]> l) ({[esn]} ∪ kept)
    (push_at (highAdj s) (adj esn) esn ts (g_meta g) s).
Proof.
  pose proof (push_at_effect (highAdj s) (adj esn) esn ts (g_meta g) s) as He.
  pose proof high_bounds. pose proof adj_bounds.
  pose proof (a_size _ _ _ _ _ I). pose proof (a_meta _ _ _ _ _ I).
  specialize (He ltac:(lia) ltac:(done) ltac:(done) ltac:(done)).
  destruct (decide _) as [Hold|Hnew]; [rewrite He; by apply push_at_old|].
  destruct He as (M & -> & Hover). pose proof (proj1 Hover).
  destruct I. constructor; try done; cbn; try lia.
  - intros r Hr. destruct (a_wf0 r Hr) as (? & lr & ? & ? & ?). split; [done|].
    exists lr. repeat split; (done || lia).
  - intros x Hx. apply a_above0. lia.
  - apply log_insert_ok; lia.
  - intros i m. apply (pushed_slot M); [lia|done].
  - intros x. apply pushed_kept; [lia|done].
Qed.
End PushAt.

Definition push_meta_of (o : op) (s : sequencer) : packetMeta :=
  match o with
  | OPush pt inc esn ts mk ly cd ni dd act =>
    pushed_meta (getRefTime pt s) inc esn ts mk ly cd ni dd act
  | _ => zeroMeta
  end.

(** [push] on a state where the packet's number is not the recorded highest. *)
Lemma push_ready_inv adj live l kept s pt inc esn ts mk ly cd ni dd act :
  inv_at adj live l kept s -> initialized s = true ->
  0 <= esn < bound -> 0 <= ts < bound -> l !! esn = None ->
  (esn = extHighestSN s -> live esn /\ adj esn = highAdj s) ->
  let g := new_entry (pushed_meta (getRefTime pt s) inc esn ts mk ly cd ni dd act) ts in
  inv_at adj live (<[esn := g]> l) (if accepted esn s then {[esn]} ∪ kept else kept)
    (push pt inc esn ts mk ly cd ni dd act s).
Proof.
  intros I Hini Hesn Hts Hfresh Heq g. pose proof I as I0. destruct I0.
  assert (u64 (extHighestSN s - snOffset s) = highAdj s) as Hh.
  { unfold highAdj. apply u64_small. unfold bound in *. lia. }
  unfold push, accepted. rewrite Hini. cbn [negb orb]. rewrite Hh. fold g.
  change (pushed_meta (getRefTime pt s) inc esn ts mk ly cd ni dd act) with (g_meta g).
  destruct (Z.ltb_spec esn (extStartSN s)) as [Hlt|Hge].
  { rewrite (proj2 (Z.leb_gt (extStartSN s) esn)) by lia. cbn [andb].
    by apply (log_only_inv _ _ _ _ _ I esn ts g); try done; lia. }
  rewrite (proj2 (Z.leb_le (extStartSN s) esn)) by lia. cbn [andb].
  assert (live esn -> forall a, a = adj esn ->
     inv_at adj live (<[esn := g]> l) ({[esn]} ∪ kept)
       (push_at (highAdj s) (u64 a) esn ts (g_meta g) s)) as Hgo.
  { intros Hl a ->. pose proof (adj_bounds _ _ _ _ _ I esn Hesn Hl) as Ha.
    rewrite u64_small by (unfold bound in *; lia).
    by apply (push_at_inv _ _ _ _ _ I esn ts g). }
  destruct (Z.ltb_spec esn (extHighestSN s)) as [HltH|HgeH].
  - rewrite (proj2 (Z.leb_gt (extHighestSN s) esn)) by lia. cbn [orb].
    specialize (a_get0 esn). unfold offsetOf in *.
    destruct (snRangeMap s) as [r|].
    + destruct (GetValue U64 r esn) as [off [e|]].
      * by apply (log_only_inv _ _ _ _ _ I esn ts g); try done; lia.
      * destruct (a_get0 off) as (Hl & Ha & _); [unfold bound in *; cbn; lia|done|].
        by apply Hgo.
    + destruct (a_get0 0) as (Hl & Ha & _); [unfold bound in *; cbn; lia|done|].
      rewrite a_none0 by done. by apply Hgo.
  - rewrite (proj2 (Z.leb_le (extHighestSN s) esn)) by lia. cbn [orb].
    assert (live esn /\ adj esn = esn - snOffset s) as [Hl Ha].
    { destruct (decide (esn = extHighestSN s)) as [->|]; [by apply Heq|apply a_above0; lia]. }
    by apply Hgo.
Qed.

(** ** Padding preserves the invariant *)

Lemma invalidate_old_meta k esn s :
  exists M, invalidate_old k esn s = s <| meta := M |> /\ zlen M = zlen (meta s) /\
    forall i m, zlookup M i = Some m -> m = zeroMeta \/ zlookup (meta s) i = Some m.
Proof.
  assert (forall s : sequencer, exists M, s = s <| meta := M |> /\ zlen M = zlen (meta s) /\
    forall i m, zlookup M i = Some m -> m = zeroMeta \/ zlookup (meta s) i = Some m) as Hid.
  { intros s0. exists (meta s0). split; [by destruct s0|]. split; [done|]. auto. }
  assert (forall j s0, exists M, invalidateSlot j s0 = s0 <| meta := M |> /\ zlen M = zlen (meta s0) /\
    forall i m, zlookup M i = Some m -> m = zeroMeta \/ zlookup (meta s0) i = Some m) as Hinv.
  { intros j s0. unfold invalidateSlot. case_if; [apply Hid|].
    exists (zset j zeroMeta (meta s0)). split; [done|]. split; [apply zlen_zset|]. intros i m.
    unfold zlookup, zset. case_if; [|done]. rewrite list_lookup_insert_Some.
    intros [(_ & <- & _)|[_ H]]; auto. }
  revert esn s. induction k as [|k IH]; intros esn s; cbn [invalidate_old]; [apply Hid|].
  match goal with |- context [invalidate_old k _ ?s1] => set (s' := s1) end.
  assert (exists M, s' = s <| meta := M |> /\ zlen M = zlen (meta s) /\
    forall i m, zlookup M i = Some m -> m = zeroMeta \/ zlookup (meta s) i = Some m)
    as (M1 & Hs1 & Hl1 & Hm1).
  { unfold s'. cbv zeta. repeat case_match; apply Hid || apply Hinv. }
  destruct (IH (u64 (esn + 1)) s') as (M & HM & Hl & Hm). exists M.
  rewrite HM. clearbody s'. subst s'. split; [by destruct s|]. cbn in *. split; [congruence|].
  intros i m Hi. destruct (Hm i m Hi) as [->|Hi1]; [by left|]. by apply Hm1.
Qed.

Lemma clear_slots_inv adj live l kept s M :
  inv_at adj live l kept s -> zlen M = zlen (meta s) ->
  (forall i m, zlookup M i = Some m -> m = zeroMeta \/ zlookup (meta s) i = Some m) ->
  inv_at adj live l ∅ (s <| meta := M |>).
Proof.
  intros I Hl HM. destruct I. constructor; try done.
  - cbn. congruence.
  - intros i m Hm. destruct (HM i m Hm) as [->|Hm']; [by left|]. by apply a_slot0.
Qed.

(** What an exclusion at the head does to the range map. *)
Lemma ExcludeRange_head r lr a b :
  wf U64 r -> last (ranges r) = Some lr -> start lr <= a -> 0 <= a <= b -> b < bound ->
  0 <= value lr < bound ->
  exists r' lr', ExcludeRange U64 U64 a (b + 1) r = (r', None) /\ wf U64 r' /\
    last (ranges r') = Some lr' /\ start lr' = b + 1 /\ value lr' = value lr + (b + 1 - a) /\
    forall key off, 0 <= key < umod U64 -> GetValue U64 r' key = (off, None) ->
      (b < key /\ off = value lr') \/ (key < a /\ GetValue U64 r key = (off, None)).
Proof.
  intros Hwf Hl Hs Hab Hb Hv. pose proof (Hwf) as (Hh & Hsz & _).
  assert (halfRange r = 2 ^ 63) as Hh' by (rewrite Hh; done).
  assert (wrap U64 (value lr + wrap U64 (b + 1 - a)) = value lr + (b + 1 - a)) as Hw.
  { unfold bound in *. unfold wrap. cbn. rewrite !Z.mod_small; rewrite ?Z.mod_small; lia. }
  pose proof (ExcludeRange_ok U64 U64 r lr a (b + 1) Hwf Hl Hs ltac:(unfold bound in *; lia)) as Hok.
  assert (0 <= a < halfRange r /\ 0 <= b + 1 <= halfRange r) as [Ha Hb1] by (unfold bound in *; lia).
  pose proof (fun key Hk => ExcludeRange_effect U64 U64 r lr a (b + 1) key Hwf Hk Ha Hb1 Hl) as Heff.
  rewrite Hok in Heff. rewrite Hok. cbv zeta in *. rewrite Hw in *.
  match type of Hok with _ = (?x, _) => set (r' := x) in * end.
  assert (exists lr', last (ranges r') = Some lr' /\ start lr' = b + 1 /\
            value lr' = value lr + (b + 1 - a)) as (lr' & Hl' & Hs' & Hv').
  { unfold r', replace_last. destruct (start lr =? a); [|rewrite prune_last by done]; cbn [ranges];
      (eexists; split; [cbn; rewrite ?app_assoc, ?last_snoc; reflexivity|done]). }
  exists r', lr'. rewrite Hv'.
  assert (wf U64 r') as Hwf'. { apply (Heff 0). unfold in_uint. cbn. lia. }
  do 4 (split; [done|]). split; [done|].
  intros key off Hk Hg. destruct (Heff key Hk) as [_ He].
  rewrite decide_False in He by lia. destruct He as [_ He]. rewrite Hg in He.
  destruct (Z.leb_spec (b + 1) key); [left; split; [lia|congruence]|].
  destruct (Z.ltb_spec key (oldest r')); [done|].
  destruct (Z.leb_spec a key); [done|]. by right.
Qed.

(** The adjusted numbers once [a .. b] is known to be padding. *)
Definition adj_pad (a off : Z) (adj : Z -> Z) (x : Z) : Z := if x <? a then adj x else x - off.
Definition live_pad (a b : Z) (live : Z -> Prop) (x : Z) : Prop := live x /\ (x < a \/ b < x).

Lemma pad_head_inv adj live l kept s a b r r' lr' :
  inv_at adj live l kept s -> snRangeMap s = Some r -> a = extHighestSN s + 1 -> a <= b -> b < bound ->
  wf U64 r' -> last (ranges r') = Some lr' -> start lr' = b + 1 ->
  value lr' = snOffset s + (b + 1 - a) ->
  (forall key off, 0 <= key < umod U64 -> GetValue U64 r' key = (off, None) ->
      (b < key /\ off = value lr') \/ (key < a /\ GetValue U64 r key = (off, None))) ->
  inv_at (adj_pad a (value lr') adj) (live_pad a b live) l kept
    (s <| snRangeMap := Some r' |> <| extHighestSN := b |> <| snOffset := value lr' |>).
Proof.
  intros I Hr Ha Hab Hb Hwf Hl Hs Hv Hget. pose proof I as I0. destruct I0.
  set (s' := s <| snRangeMap := _ |> <| extHighestSN := _ |> <| snOffset := _ |>).
  assert (highAdj s' = highAdj s) as Hh by (unfold highAdj; cbn; lia).
  assert (Hlow : forall x, x < a -> adj_pad a (value lr') adj x = adj x).
  { intros x Hx. unfold adj_pad. by rewrite (proj2 (Z.ltb_lt x a)). }
  assert (Hup : forall x, a <= x -> adj_pad a (value lr') adj x = x - value lr').
  { intros x Hx. unfold adj_pad. by rewrite (proj2 (Z.ltb_ge x a)). }
  assert (Hlog : forall x e, l !! x = Some e -> x < a).
  { intros x e He. pose proof (a_log0 x e He). lia. }
  constructor; rewrite ?Hh; try done; try (cbn; lia).
  - intros r0 [= <-]. split; [done|]. exists lr'. cbn. repeat split; (done || lia).
  - intros x y [Hx Hxr] [Hy Hyr] Hxy. destruct (Z.lt_ge_cases y a).
    + rewrite !Hlow by lia. by apply a_mono0.
    + rewrite (Hup y) by lia. destruct (Z.lt_ge_cases x a); [|rewrite Hup; lia].
      rewrite Hlow by lia. pose proof (adj_le_high _ _ _ _ _ _ I Hx ltac:(lia)).
      unfold highAdj in *. lia.
  - intros x Hx [Hlx Hxr]. destruct (Z.lt_ge_cases x a); [rewrite Hlow by lia; by apply a_nonneg0|].
    rewrite Hup by lia. lia.
  - cbn. intros x Hx. rewrite Hup by lia. split; [|lia]. split; [apply a_above0; lia|lia].
  - intros x off Hx Ho. unfold offsetOf in Ho. change (snRangeMap s') with (Some r') in Ho.
    cbv iota in Ho. destruct (GetValue U64 r' x) as [o [?|]] eqn:E; [done|].
    injection Ho as ->.
    destruct (Hget x off Hx E) as [[? ->]|[? Hg]].
    + rewrite Hup by lia. repeat split; [apply a_above0; lia|lia|lia].
    + rewrite Hlow by lia. destruct (a_get0 x off Hx) as (? & ? & ?);
        [unfold offsetOf; by rewrite Hr, Hg|]. repeat split; (done || lia).
  - intros x e He. pose proof (a_log0 x e He). cbn. lia.
  - intros i m Hm. destruct (a_slot0 i m Hm) as [->|(x & e & He & ? & ? & ? & ? & ?)]; [by left|right].
    exists x, e. pose proof (Hlog _ _ He). rewrite Hlow by lia.
    repeat split; try done. lia.
  - intros x Hx. destruct (a_kept0 x Hx) as [Hlx Hk].
    destruct (Z.lt_ge_cases x a) as [Hxa|Hxa].
    + rewrite Hlow by lia. split; [split; [done|lia]|done].
    + destruct (a_above0 x ltac:(lia)) as [_ E]. exfalso.
      destruct Hk as (m & e & _ & He & _); [unfold highAdj; lia|]. pose proof (Hlog x e He). lia.
Qed.

Lemma pushPadding_inv adj live l kept s a b :
  inv_at adj live l kept s -> initialized s = true -> 0 <= a <= b -> b < bound ->
  a <= extHighestSN s + 1 ->
  exists adj' live', inv_at adj' live' l (kept_op (OPad a b) s kept) (pushPadding a b s).
Proof.
  intros I Hini Hab Hb Ha. unfold pushPadding, kept_op. rewrite Hini. cbn [negb].
  destruct (snRangeMap s) as [r|] eqn:Hr; cbn [bool_decide is_Some_dec decide]; [|eauto].
  destruct (Z.leb_spec a (extHighestSN s)) as [Hold|Hnew]; cbn [andb].
  - destruct (invalidate_old_meta (Z.to_nat (u64 (b + 1 - a))) a s) as (M & -> & HlM & HM).
    exists adj, live. by eapply clear_slots_inv.
  - destruct (a_wf _ _ _ _ _ I r Hr) as (Hwf & lr & Hl & Hls & Hv).
    pose proof (a_high _ _ _ _ _ I). pose proof (a_off _ _ _ _ _ I).
    destruct (ExcludeRange_head r lr a b Hwf Hl) as (r' & lr' & He & Hwf' & Hl' & Hs' & Hv' & Hg); try lia.
    rewrite u64_small by (unfold bound in *; lia). rewrite He.
    unfold updateSNOffset. cbn [snRangeMap extHighestSN field_upd].
    change (snRangeMap (s <| snRangeMap := Some r' |> <| extHighestSN := b |>)) with (Some r').
    change (extHighestSN (s <| snRangeMap := Some r' |> <| extHighestSN := b |>)) with b.
    cbv iota. rewrite u64_small by (unfold bound in *; lia).
    rewrite (GetValue_open U64 r' lr') by (done || lia).
    exists (adj_pad a (value lr') adj), (live_pad a b live).
    eapply pad_head_inv; try done; lia.
Qed.

(** ** Reading a slot *)

(** What a successful index computation says about the number looked up. *)
Lemma index_hit adj live l kept s x off m :
  inv_at adj live l kept s -> 0 <= x <= extHighestSN s -> offsetOf x s = Some off ->
  u64 (u64 (extHighestSN s - snOffset s) - u64 (x - off)) < size s ->
  zlookup (meta s) (u64 (x - off) mod size s) = Some m -> m <> zeroMeta ->
  exists g, u64 (x - off) mod size s = adj x mod size s /\ live x /\
    highAdj s - size s < adj x /\
    l !! x = Some g /\ same_packet m g /\ g_ts g <= extHighestTS s.
Proof.
  intros I Hx Ho Hw Hm Hne. pose proof I as I0. destruct I0.
  destruct (a_get0 x off) as (Hl & Ha & Hoff); [unfold bound in *; cbn; lia|done|].
  pose proof (a_nonneg0 x ltac:(lia) Hl). rewrite <- Ha in *.
  pose proof (adj_le_high _ _ _ _ _ _ I Hl ltac:(lia)). unfold highAdj in *.
  rewrite !u64_small in Hw by (rewrite ?u64_small; unfold bound in *; lia).
  rewrite u64_small in Hm |- * by (unfold bound in *; lia).
  destruct (slot_owner _ _ _ _ _ x m I Hl) as [?|(g & ? & ? & ?)]; try done; [lia|unfold highAdj; lia|].
  exists g. repeat split; (done || lia).
Qed.

Lemma valid_slot_nonzero s i m :
  zlookup (meta s) i = Some m -> isInvalidSlot i s = false -> m <> zeroMeta.
Proof. unfold isInvalidSlot. intros -> H ->. revert H. by case_if. Qed.

(** The rebuilt timestamp is the pushed one. *)
Lemma metaExtTS_ok m s ts :
  timestamp m = u32 ts -> 0 <= ts <= extHighestTS s -> extHighestTS s < bound ->
  extHighestTS s - ts < 2 ^ 32 -> metaExtTS m s = ts.
Proof.
  intros Ht Hts Hb Hd. unfold metaExtTS. rewrite Ht.
  change 0xFFFFFFFF00000000 with (2 ^ 64 - 2 ^ 32).
  rewrite land_high by (unfold bound in *; lia). rewrite Z.gtb_ltb. unfold bound in *.
  change (Z.shiftl 1 32) with (2 ^ 32). cbn in *.
  destruct (Z.ltb_spec (u32 (extHighestTS s)) (u32 ts)); glia.
Qed.

(** The number [getExtPacketMetas] rebuilds from 16 bits. *)
Definition extSN_of (sn h : Z) : Z :=
  let extSN := u64 (sn + Z.land h 0xFFFFFFFFFFFF0000) in
  if sn >? u16 h then u64 (extSN - Z.shiftl 1 16) else extSN.

Lemma extSN_of_cases sn h :
  0 <= sn < 65536 -> 0 <= h < bound ->
  (0 <= extSN_of sn h <= h /\ u16 (extSN_of sn h) = sn) \/ (h < 65536 /\ h < sn).
Proof.
  intros Hsn Hh. unfold extSN_of. change 0xFFFFFFFFFFFF0000 with (2 ^ 64 - 2 ^ 16).
  rewrite land_high by (unfold bound in *; lia). rewrite Z.gtb_ltb. unfold bound in *.
  change (Z.shiftl 1 16) with 65536. change (2 ^ 16) with 65536.
  destruct (Z.ltb_spec (u16 h) sn).
  - destruct (Z.lt_ge_cases h 65536); [right; glia|left; glia].
  - left. glia.
Qed.

(** A number from before the first cycle has no packet to find. *)
Lemma no_wrapped_target adj live l kept s sn i m :
  inv_at adj live l kept s -> extHighestSN s < 65536 -> extHighestSN s < sn ->
  zlookup (meta s) i = Some m -> m <> zeroMeta -> targetSeqNo m <> sn.
Proof.
  intros I Hh Hsn Hm Hne.
  destruct (a_slot _ _ _ _ _ I i m Hm) as [?|(x & g & Hg & _ & _ & _ & Hs & _)]; [done|].
  destruct (a_log _ _ _ _ _ I x g Hg) as (? & _ & Ht & _).
  rewrite Hs. change (targetSeqNo (g_meta g) <> sn). rewrite Ht, u16_small by lia. lia.
Qed.

Definition served (m : packetMeta) (refTime : Z) : packetMeta :=
  m <| nacked := u8 (nacked m + 1) |> <| lastNack := refTime |>.

Definition due (m : packetMeta) (refTime : Z) (s : sequencer) : bool :=
  (nacked m <? maxAck) && (u32 (refTime - lastNack m) >? Z.min ignoreRetransmission (u32 (2 * rtt s))).

(** A reply comes from a slot that matches, is due, and is then marked served. *)
Lemma getOne_hit refTime sn s s' e :
  getOne refTime (u16 (extHighestSN s)) sn s = (s', Some e) ->
  exists off m,
    let x := extSN_of sn (extHighestSN s) in
    let i := u64 (x - off) mod size s in
    offsetOf x s = Some off /\
    u64 (u64 (extHighestSN s - snOffset s) - u64 (x - off)) < size s /\
    zlookup (meta s) i = Some m /\ targetSeqNo m = sn /\ m <> zeroMeta /\ due m refTime s = true /\
    s' = s <| meta := zset i (served m refTime) (meta s) |> /\
    e = mkExtMeta (served m refTime) x (metaExtTS m s).
Proof.
  unfold getOne. case_if; [done|]. fold (extSN_of sn (extHighestSN s)).
  set (x := extSN_of sn (extHighestSN s)).
  destruct (offsetOf x s) as [off|] eqn:Eo; [|done]. case_if; [done|].
  set (i := u64 (x - off) mod size s).
  destruct (zlookup (meta s) i) as [m|] eqn:Em; [|done]. case_if; [done|].
  apply orb_false_iff in E1 as [Et Ev]. bool_prop.
  fold (due m refTime s). case_if; [|done]. intros [= <- <-].
  exists off, m. repeat split; try done. by eapply valid_slot_nonzero.
Qed.

Lemma getOne_miss refTime h sn s s' : getOne refTime h sn s = (s', None) -> s' = s.
Proof. unfold getOne. repeat case_match; congruence. Qed.

Lemma same_packet_served m g refTime :
  same_packet m g -> 0 <= g_sent g < maxAck -> same_packet (served m refTime) (sent_again refTime g).
Proof.
  unfold same_packet, served, sent_again, slot_of, maxAck. intros -> H. cbn.
  by rewrite u8_small by lia.
Qed.

Lemma serve_inv adj live l kept s x g m refTime :
  inv_at adj live l kept s -> live x -> l !! x = Some g ->
  highAdj s - size s < adj x -> zlookup (meta s) (adj x mod size s) = Some m ->
  same_packet m g -> g_ts g <= extHighestTS s -> nacked m < maxAck ->
  inv_at adj live (alter (sent_again refTime) x l) kept
    (s <| meta := zset (adj x mod size s) (served m refTime) (meta s) |>).
Proof.
  intros I Hl Hg Hw Hm Hs Hts Hn. pose proof I as I0. destruct I0.
  set (i := adj x mod size s) in *.
  assert (0 <= i < size s) as Hi by (apply Z.mod_pos_bound; lia).
  assert (g_sent g = nacked m) as Hsent by (by rewrite Hs).
  destruct (a_log0 x g Hg) as (Hx & Hgs & Htg & Htm & Htn).
  assert (Hs' : same_packet (served m refTime) (sent_again refTime g)) by (apply same_packet_served; [done|lia]).
  assert (Hown : forall y, y <> x -> live y -> y <= extHighestSN s -> highAdj s - size s < adj y ->
            adj y mod size s <> i).
  { intros y Hne Hly Hy Hwy E. apply Hne. eapply (adj_inj _ _ _ _ _ _ _ I); [done..|].
    pose proof (adj_le_high _ _ _ _ _ _ I Hly Hy). pose proof (adj_le_high _ _ _ _ _ _ I Hl ltac:(lia)).
    eapply (window_unique (size s) (highAdj s)); (done || lia). }
  constructor; try done.
  - cbn. by rewrite zlen_zset.
  - intros y e. destruct (decide (y = x)) as [->|Hne].
    + rewrite lookup_alter_eq, Hg. cbn. intros [= <-]. cbn. unfold maxAck in *. lia.
    + rewrite lookup_alter_ne by done. apply a_log0.
  - cbn. intros j mj. destruct (decide (j = i)) as [->|Hne].
    + rewrite zlookup_zset_eq by lia. intros [= <-]. right. exists x, (sent_again refTime g).
      rewrite lookup_alter_eq, Hg. by repeat split.
    + rewrite zlookup_zset_ne by lia. intros Hj.
      destruct (a_slot0 j mj Hj) as [->|(y & e & He & ? & Hyi & ? & ? & ?)]; [by left|right].
      exists y, e. rewrite lookup_alter_ne; [done|]. intros E. apply Hne. by subst y.
  - cbn. intros y Hy. destruct (a_kept0 y Hy) as [Hly Hk]. split; [done|]. intros Hwy.
    destruct (Hk Hwy) as (my & e & Hmy & He & Hsy). destruct (decide (y = x)) as [->|Hne].
    + exists (served m refTime), (sent_again refTime g).
      rewrite zlookup_zset_eq, lookup_alter_eq, Hg by lia. done.
    + exists my, e. rewrite zlookup_zset_ne, lookup_alter_ne; try done; try lia.
      intros E. by apply (Hown y Hne Hly) in Hwy; [|apply (a_log0 y e He)].
Qed.

(** Replies [out] to the NACKs [sns] at [refTime]: each is the packet pushed
    under its number, which was asked for, with its own timestamp, served less
    than [maxAck] times so far and not within [limit] of its last transmission. *)
Fixpoint good_replies (refTime limit highTS : Z) (sns : list Z) (l : log)
  (out : list extPacketMeta) : Prop :=
  match out with
  | [] => True
  | e :: out =>
    (exists g, l !! extSequenceNumber e = Some g /\ u16 (extSequenceNumber e) ∈ sns /\
      meta_ e = slot_of (sent_again refTime g) /\ g_sent g < maxAck /\
      limit < u32 (refTime - g_last g) /\
      (highTS - g_ts g < 2 ^ 32 -> extTimestamp e = g_ts g)) /\
    good_replies refTime limit highTS sns (bump l e) out
  end.

Definition nackLimit (s : sequencer) : Z := Z.min ignoreRetransmission (u32 (2 * rtt s)).

Lemma good_replies_weaken refTime limit highTS sns sns' l out :
  (forall sn, sn ∈ sns -> sn ∈ sns') ->
  good_replies refTime limit highTS sns l out -> good_replies refTime limit highTS sns' l out.
Proof.
  intros Hs. revert l. induction out as [|e out IH]; intros l; cbn; [done|].
  intros [(g & ? & ? & ?) Hr]. split; [|by apply IH]. exists g. auto.
Qed.

Lemma getOne_inv adj live l kept s refTime sn s' o :
  inv_at adj live l kept s -> 0 <= sn < 65536 ->
  getOne refTime (u16 (extHighestSN s)) sn s = (s', o) ->
  extHighestSN s' = extHighestSN s /\ extHighestTS s' = extHighestTS s /\
  initialized s' = initialized s /\ nackLimit s' = nackLimit s /\
  match o with
  | None => s' = s
  | Some e => good_replies refTime (nackLimit s) (extHighestTS s) [sn] l [e] /\
              inv_at adj live (bump l e) kept s'
  end.
Proof.
  intros I Hsn Hget. destruct o as [e|]; [|apply getOne_miss in Hget as ->; done].
  apply getOne_hit in Hget as (off & m & H). cbv zeta in H.
  remember (extSN_of sn (extHighestSN s)) as x eqn:Ex.
  destruct H as (Ho & Hw & Hm & Ht & Hne & Hdue & -> & ->). do 4 (split; [done|]).
  pose proof I as I0. destruct I0.
  unfold due in Hdue. fold (nackLimit s) in Hdue. apply andb_true_iff in Hdue as [Hnack Hlim].
  bool_prop.
  destruct (extSN_of_cases sn (extHighestSN s) Hsn a_high0) as [[Hx Hu]|[H1 H2]];
    [rewrite <- Ex in Hx, Hu|].
  2:{ exfalso. by eapply no_wrapped_target. }
  destruct (index_hit _ _ _ _ _ x off m I Hx Ho Hw Hm Hne) as (g & Hi & Hl & Hwin & Hg & Hs & Hts).
  destruct (a_log0 x g Hg) as (_ & Hgs & _ & Htime & Hts0).
  assert (g_sent g = nacked m) as Hsent by (by rewrite Hs).
  split.
  - split; [|done]. exists g. cbn. rewrite Hu. split; [done|]. split; [left|].
    split; [apply same_packet_served; [done|lia]|]. split; [lia|].
    replace (g_last g) with (lastNack m) by (by rewrite Hs). split; [done|]. intros Hd.
    apply metaExtTS_ok; [|lia..]. by rewrite Hs.
  - unfold bump. cbn. rewrite Hi in *. by eapply serve_inv.
Qed.

Lemma getLoop_inv adj live l kept s refTime h sns s' out :
  inv_at adj live l kept s -> initialized s = true -> h = u16 (extHighestSN s) ->
  Forall (fun sn => 0 <= sn < 65536) sns ->
  getLoop refTime h sns s = (s', out) ->
  initialized s' = true /\ inv_at adj live (fold_left bump out l) kept s' /\
  good_replies refTime (nackLimit s) (extHighestTS s) sns l out.
Proof.
  intros I Hini -> Hsns. revert l s s' out I Hini.
  induction Hsns as [|sn sns Hsn _ IH]; intros l s s' out I Hini; cbn [getLoop].
  { by intros [= <- <-]. }
  destruct (getOne refTime (u16 (extHighestSN s)) sn s) as [s1 o] eqn:E1.
  destruct (getOne_inv _ _ _ _ _ _ _ _ _ I Hsn E1) as (Hh & Hts & Hi & Hlim & Ho).
  rewrite <- Hh. destruct (getLoop refTime (u16 (extHighestSN s1)) sns s1) as [s2 out1] eqn:E2.
  intros [= <- <-]. destruct o as [e|].
  - destruct Ho as [Hgood I1].
    destruct (IH (bump l e) s1 s2 out1 I1 ltac:(congruence) E2) as (? & ? & Hall).
    split; [done|]. split; [done|]. rewrite Hlim, Hts in Hall.
    apply (good_replies_weaken _ _ _ _ (sn :: sns)) in Hgood; [|set_solver].
    cbn [good_replies] in *. split; [apply Hgood|].
    eapply good_replies_weaken; [|exact Hall]. set_solver.
  - subst s1. destruct (IH l s s2 out1 I Hini E2) as (? & ? & Hall).
    split; [done|]. split; [done|]. eapply good_replies_weaken; [|exact Hall]. set_solver.
Qed.

(** ** Whole traces *)

Definition fresh (s : sequencer) : Prop :=
  initialized s = false /\ 0 < size s < 2 ^ 31 /\ meta s = repeat zeroMeta (Z.to_nat (size s)) /\
  snOffset s = 0 /\
  (snRangeMap s = None \/ exists n, snRangeMap s = Some (NewRangeMap U64 n)).

Definition inv (l : log) (kept : gset Z) (s : sequencer) : Prop :=
  (fresh s /\ l = ∅ /\ kept = ∅) \/
  (initialized s = true /\ exists adj live, inv_at adj live l kept s).

Lemma newSequencer_fresh n sparse now s :
  newSequencer n sparse now = Some s -> 0 < n < 2 ^ 31 -> fresh s.
Proof.
  unfold newSequencer. case_if; [done|]. intros [= <-] Hn. unfold fresh. cbn.
  repeat split; try lia. destruct sparse; [right; eauto|by left].
Qed.

Lemma zlookup_repeat {A} (x y : A) n i : zlookup (repeat x n) i = Some y -> y = x.
Proof.
  unfold zlookup. case_if; [|done]. intros H. apply list_elem_of_lookup_2 in H.
  by apply list_elem_of_In, repeat_spec in H.
Qed.

Lemma NewRangeMap_get n x : 0 <= x -> GetValue U64 (NewRangeMap U64 n) x = (0, None).
Proof. intros Hx. unfold GetValue. cbn. by rewrite Z.geb_leb, (proj2 (Z.leb_le 0 x)). Qed.

Definition init_push (esn ts : Z) (s : sequencer) : sequencer :=
  updateSNOffset (s <| initialized := true |> <| extStartSN := esn |>
                    <| extHighestSN := esn |> <| extHighestTS := ts |>).

(** The first [push] starts from an empty index at its own number. *)
Lemma init_push_inv esn ts s :
  fresh s -> 0 <= esn < bound -> 0 <= ts < bound ->
  let s1 := init_push esn ts s in
  inv_at (fun x => x) (fun _ => True) ∅ ∅ s1 /\ initialized s1 = true /\
  startTime s1 = startTime s /\ extHighestSN s1 = esn /\ extStartSN s1 = esn /\ highAdj s1 = esn.
Proof.
  intros (Hini & Hsz & Hmeta & Hoff & Hrm) Hesn Hts s1.
  set (s0 := s <| initialized := true |> <| extStartSN := esn |>
               <| extHighestSN := esn |> <| extHighestTS := ts |>).
  assert (s1 = s0) as ->.
  { unfold s1, init_push, updateSNOffset. fold s0. change (snRangeMap s0) with (snRangeMap s).
    destruct Hrm as [->|[n ->]]; [done|].
    change (extHighestSN s0) with esn. rewrite NewRangeMap_get by (apply u64_range).
    unfold s0. cbn. by rewrite Hoff. }
  split; [|by unfold highAdj; cbn; rewrite Hoff; repeat split; lia].
  constructor; try (cbn; done || lia).
  - cbn. rewrite Hmeta. unfold zlen. rewrite repeat_length. lia.
  - cbn. intros r Hr. destruct Hrm as [E|[n E]]; rewrite E in Hr; [done|]. injection Hr as <-.
    split; [apply NewRangeMap_wf|].
    exists (mkRangeVal 0 0 0). cbn. rewrite Hoff. repeat split; lia.
  - cbn. intros x off Hx Ho. unfold offsetOf in Ho. cbn in Ho.
    destruct Hrm as [E|[n E]]; rewrite E in Ho; [injection Ho as <-; repeat split; lia|].
    rewrite NewRangeMap_get in Ho by lia. injection Ho as <-. repeat split; lia.
  - cbn. rewrite Hmeta. intros i m Hm. left. by eapply zlookup_repeat.
Qed.

Lemma invalidate_loop_initialized k a b s :
  initialized (invalidate_loop k a b s) = initialized s.
Proof.
  revert a s. induction k as [|k IH]; intros a s; cbn [invalidate_loop]; [done|].
  case_if; [done|]. rewrite IH. unfold invalidateSlot. by case_if.
Qed.

Lemma push_at_initialized h a esn ts pm s : initialized (push_at h a esn ts pm s) = initialized s.
Proof.
  unfold push_at. case_if; [done|]. cbv zeta.
  match goal with |- context [if a >? h then ?x else s] => set (s1 := if a >? h then x else s) end.
  assert (initialized s1 = initialized s) as <- by
    (unfold s1; case_if; [apply invalidate_loop_initialized|done]).
  by repeat case_if.
Qed.

Lemma push_initialized pt inc esn ts mk ly cd ni dd act s :
  initialized s = true -> initialized (push pt inc esn ts mk ly cd ni dd act s) = true.
Proof.
  intros H. unfold push. rewrite H. cbn [negb]. case_if; [done|].
  repeat case_match; try done; by rewrite push_at_initialized.
Qed.

Lemma push_inv l kept s pt inc esn ts mk ly cd ni dd act :
  let o := OPush pt inc esn ts mk ly cd ni dd act in
  inv l kept s -> valid_op o s l -> inv (log_op o s [] l) (kept_op o s kept) (fst (run o s)).
Proof.
  intros o Hinv (Hesn & Hts & Hfr & Hne). right. cbn [run fst o].
  destruct Hinv as [(Hf & -> & ->)|[Hini (adj & live & I)]].
  - destruct (init_push_inv esn ts s Hf Hesn Hts) as (I & Hini & Hst & Hh & Hs & Ha).
    set (s1 := init_push esn ts s) in *.
    assert (push pt inc esn ts mk ly cd ni dd act s = push pt inc esn ts mk ly cd ni dd act s1) as ->.
    { unfold push at 1. destruct Hf as [-> _]. cbn [negb]. fold (init_push esn ts s). fold s1.
      unfold push. rewrite Hini. reflexivity. }
    split; [by apply push_initialized|]. do 2 eexists.
    pose proof (push_ready_inv _ _ _ _ _ pt inc esn ts mk ly cd ni dd act I Hini Hesn Hts Hfr
                  ltac:(by rewrite Ha)) as H.
    unfold accepted in H. rewrite Hini, Hs, Hh, Z.leb_refl in H. cbn [negb orb andb] in H.
    cbn [kept_op o]. unfold accepted. destruct Hf as [-> _]. cbn [negb orb].
    unfold getRefTime in *. rewrite Hst in H. exact H.
  - split; [by apply push_initialized|]. exists adj, live.
    apply push_ready_inv; try done. intros ->. by destruct Hne.
Qed.

Lemma pushPadding_initialized a b s : initialized (pushPadding a b s) = initialized s.
Proof.
  unfold pushPadding. destruct (snRangeMap s) as [r|]; [|done].
  case_if; [done|]. case_if.
  - by destruct (invalidate_old_meta (Z.to_nat (u64 (b + 1 - a))) a s) as (M & -> & _).
  - destruct (ExcludeRange _ _ _ _ _) as [r' [e|]]; [done|].
    unfold updateSNOffset. repeat case_match; done.
Qed.

(** Every operation preserves the invariant. *)
Lemma run_inv l kept o s :
  inv l kept s -> valid_op o s l ->
  inv (log_op o s (snd (run o s)) l) (kept_op o s kept) (fst (run o s)).
Proof.
  destruct o as [pt inc esn ts mk ly cd ni dd act|a b|r|now sns]; intros Hinv Hv.
  - by apply push_inv.
  - cbn in Hv. cbn [run fst log_op]. destruct Hinv as [(Hf & -> & ->)|[Hini (adj & live & I)]].
    + left. unfold pushPadding, kept_op. pose proof Hf as (Hi & _). rewrite Hi. cbn [negb].
      split; [by case_match|]. split; [done|]. by case_if.
    + right. rewrite pushPadding_initialized. split; [done|].
      destruct (Hv Hini) as (? & ? & ?). by eapply pushPadding_inv.
  - cbn. assert (exists r', setRTT r s = s <| rtt := r' |>) as [r' ->]
      by (unfold setRTT; case_if; eauto).
    destruct Hinv as [(Hf & ?)|[Hini (adj & live & [])]]; [by left|right].
    split; [done|]. exists adj, live. by constructor.
  - cbn in Hv. cbn [run log_op kept_op]. unfold getExtPacketMetas.
    destruct Hinv as [(Hf & -> & ->)|[Hini (adj & live & I)]].
    + destruct Hf as [Hi Hf]. rewrite Hi. by left.
    + rewrite Hini. cbn [negb]. right. destruct (getLoop _ _ _ _) as [s' out] eqn:E.
      destruct (getLoop_inv _ _ _ _ _ _ _ _ _ _ I Hini eq_refl Hv E) as (? & ? & _). eauto.
Qed.

(** A trace, with its ghost log and kept set. *)
Fixpoint exec (ops : list op) (s : sequencer) (l : log) (kept : gset Z)
  : sequencer * log * gset Z :=
  match ops with
  | [] => (s, l, kept)
  | o :: ops =>
    let '(s', out) := run o s in exec ops s' (log_op o s out l) (kept_op o s kept)
  end.

Fixpoint valid_ops (ops : list op) (s : sequencer) (l : log) : Prop :=
  match ops with
  | [] => True
  | o :: ops =>
    valid_op o s l /\ valid_ops ops (fst (run o s)) (log_op o s (snd (run o s)) l)
  end.

Lemma exec_inv ops s l kept :
  inv l kept s -> valid_ops ops s l ->
  let '(s', l', kept') := exec ops s l kept in inv l' kept' s'.
Proof.
  revert s l kept. induction ops as [|o ops IH]; intros s l kept Hinv; [done|].
  intros [Hv Hvs]. cbn [exec]. pose proof (run_inv l kept o s Hinv Hv) as H.
  destruct (run o s) as [s' out]. by apply IH.
Qed.

(** ** Properties *)

Lemma getExtPacketMetas_good l kept s now sns s' out :
  inv l kept s -> Forall (fun sn => 0 <= sn < 65536) sns ->
  getExtPacketMetas now sns s = (s', out) ->
  good_replies (getRefTime now s) (nackLimit s) (extHighestTS s) sns l out.
Proof.
  intros Hinv Hsns. unfold getExtPacketMetas.
  destruct Hinv as [((Hi & _) & -> & ->)|[Hini (adj & live & I)]].
  - rewrite Hi. by intros [= <- <-].
  - rewrite Hini. cbn [negb]. intros H. eapply getLoop_inv; eauto.
Qed.

Lemma inv_sent l kept s esn g : inv l kept s -> l !! esn = Some g -> 0 <= g_sent g <= maxAck.
Proof.
  intros [(_ & -> & _)|[_ (adj & live & I)]] Hg; [done|]. by apply (a_log _ _ _ _ _ I esn g Hg).
Qed.

(** C4: whatever packets, losses, reorderings, padding, RTT updates and NACKs
    the index has seen, every reply to a NACK is exactly the packet that was
    pushed under the requested number (its source number, timestamp, codec
    header and extension bytes), at most [maxAck] replies are ever given for
    a packet, and none within [min 100 (2 * rtt)] ms of its last
    transmission. *)
Theorem nack_replies_sound size0 sparse now0 ops s0 s l kept now sns s' out :
  newSequencer size0 sparse now0 = Some s0 -> 0 < size0 < 2 ^ 31 ->
  valid_ops ops s0 ∅ -> exec ops s0 ∅ ∅ = (s, l, kept) ->
  Forall (fun sn => 0 <= sn < 65536) sns ->
  getExtPacketMetas now sns s = (s', out) ->
  good_replies (getRefTime now s) (nackLimit s) (extHighestTS s) sns l out /\
  forall esn g, fold_left bump out l !! esn = Some g -> g_sent g <= maxAck.
Proof.
  intros Hnew Hsz Hv He Hsns Hget.
  pose proof (exec_inv ops s0 ∅ ∅ ltac:(left; eauto using newSequencer_fresh) Hv) as Hinv.
  rewrite He in Hinv. split; [by eapply getExtPacketMetas_good|]. intros esn g Hg.
  pose proof (run_inv l kept (ONack now sns) s Hinv Hsns) as H. cbn [run] in H. rewrite Hget in H.
  cbn [fst snd log_op] in H. by apply (inv_sent _ _ _ _ _ H Hg).
Qed.

(** The lookup finds what [index_hit] describes and nothing else. *)
Lemma lookup_cases adj live l kept s x :
  inv_at adj live l kept s -> initialized s = true -> 0 <= x < bound ->
  match lookupExtPacketMeta x s with
  | Some e => exists g, l !! x = Some g /\ meta_ e = slot_of g /\ extSequenceNumber e = x /\
                (extHighestTS s - g_ts g < 2 ^ 32 -> extTimestamp e = g_ts g)
  | None => True
  end.
Proof.
  intros I Hini Hx. unfold lookupExtPacketMeta. rewrite Hini. cbn [negb].
  destruct (offsetOf x s) as [off|] eqn:Eo; [|done]. case_if; [done|].
  rewrite Z.geb_leb in E. bool_prop.
  destruct (zlookup _ _) as [m|] eqn:Em; [|done]. case_if; [done|].
  pose proof I as I0. destruct I0.
  assert (x <= extHighestSN s) as Hle.
  { destruct (Z.le_gt_cases x (extHighestSN s)); [done|exfalso].
    destruct (a_above0 x ltac:(lia)) as [_ Ea].
    destruct (a_get0 x off) as (_ & Ea2 & _); [unfold bound in *; cbn; lia|done|].
    assert (off = snOffset s) as -> by lia. unfold bound in *.
    rewrite !(u64_small (_ - snOffset s)) in E by lia. glia. }
  destruct (index_hit _ _ _ _ _ x off m I ltac:(lia) Eo E Em) as (g & _ & Hl & _ & Hg & Hs & Hts).
  { by eapply valid_slot_nonzero. }
  exists g. split; [done|]. split; [done|]. split; [done|]. cbn. intros Hd.
  destruct (a_log0 x g Hg) as (_ & _ & _ & Ht & ?).
  apply metaExtTS_ok; [by rewrite Hs|lia..].
Qed.

Lemma lookup_hit adj live l kept s x off :
  inv_at adj live l kept s -> initialized s = true -> 0 <= x < bound -> x ∈ kept ->
  offsetOf x s = Some off -> highAdj s - (x - off) < size s ->
  exists g, l !! x = Some g /\
    (sourceSeqNo (g_meta g) <> 0 -> is_Some (lookupExtPacketMeta x s)).
Proof.
  intros I Hini Hx Hk Ho Hw. pose proof I as I0. destruct I0.
  destruct (a_get0 x off) as (Hl & Ha & _); [unfold bound in *; cbn; lia|done|].
  destruct (a_kept0 x Hk) as [_ Hs].
  destruct Hs as (m & g & Hm & Hg & Hs); [lia|]. exists g. split; [done|]. intros Hne.
  pose proof (a_log0 x g Hg). pose proof (a_nonneg0 x ltac:(lia) Hl).
  pose proof (adj_le_high _ _ _ _ _ x I Hl ltac:(lia)). unfold highAdj in *.
  unfold lookupExtPacketMeta. rewrite Hini, Ho. cbn [negb]. cbv zeta. rewrite <- Ha in *.
  rewrite !u64_small by (rewrite ?u64_small; unfold bound in *; lia).
  rewrite Z.geb_leb, (proj2 (Z.leb_gt _ _)) by lia. rewrite Hm.
  unfold isInvalidSlot. rewrite Hm.
  assert (0 <= adj x mod size s < zlen (meta s)) by (rewrite a_meta0; apply Z.mod_pos_bound; lia).
  rewrite Z.geb_leb, (proj2 (Z.leb_gt _ _)) by lia.
  replace (sourceSeqNo m) with (sourceSeqNo (g_meta g)) by (by rewrite Hs).
  by rewrite (proj2 (Z.eqb_neq _ _) Hne).
Qed.

(** After any trace, a lookup by extended number returns nothing but the
    packet pushed under that number; and a packet still inside the ring's
    window, not forgotten by the range map and not cleared by late padding,
    is always found. *)
Theorem lookup_exact size0 sparse now0 ops s0 s l kept x :
  newSequencer size0 sparse now0 = Some s0 -> 0 < size0 < 2 ^ 31 ->
  valid_ops ops s0 ∅ -> exec ops s0 ∅ ∅ = (s, l, kept) -> 0 <= x < bound ->
  (forall e, lookupExtPacketMeta x s = Some e -> exists g, l !! x = Some g /\
     meta_ e = slot_of g /\ extSequenceNumber e = x /\
     (extHighestTS s - g_ts g < 2 ^ 32 -> extTimestamp e = g_ts g)) /\
  (forall off g, x ∈ kept -> offsetOf x s = Some off ->
     extHighestSN s - snOffset s - (x - off) < size s -> l !! x = Some g ->
     sourceSeqNo (g_meta g) <> 0 -> is_Some (lookupExtPacketMeta x s)).
Proof.
  intros Hnew Hsz Hv He Hx.
  pose proof (exec_inv ops s0 ∅ ∅ ltac:(left; eauto using newSequencer_fresh) Hv) as Hinv.
  rewrite He in Hinv. destruct Hinv as [((Hi & _) & -> & ->)|[Hini (adj & live & I)]].
  - unfold lookupExtPacketMeta. rewrite Hi. split; [done|set_solver].
  - split.
    + intros e Hl. pose proof (lookup_cases _ _ _ _ _ x I Hini Hx) as H. by rewrite Hl in H.
    + intros off g Hk Ho Hw Hg Hs.
      destruct (lookup_hit _ _ _ _ _ x off I Hini Hx Hk Ho Hw) as (g' & Hg' & H).
      apply H. congruence.
Qed.

#[export] Instance valid_op_dec o s l : Decision (valid_op o s l).
Proof. destruct o; cbn; apply _. Defined.

#[export] Instance valid_ops_dec ops s l : Decision (valid_ops ops s l).
Proof. revert s l. induction ops as [|o ops IH]; intros s l; cbn; apply _. Defined.

(** Packets 100, 101, 105 and late 104 around the padding 102-103. *)
Definition ex_push (esn : Z) : op :=
  OPush (1000000 * esn) (esn + 7) esn (3000 * esn) false 0 [1; 2] 3 [] [].
Definition ex_ops : list op :=
  [ex_push 100; ex_push 101; OPad 102 103; ex_push 105; ex_push 104; ORtt 30;
   ONack 900000000 [101]].
Definition ex_seq : sequencer := default (mkSequencer 0 0 false 0 0 0 0 [] None 0) (newSequencer 8 true 0).
Notation ex_run := (exec ex_ops ex_seq ∅ ∅) (only parsing).
Notation ex_state := (fst (fst ex_run)) (only parsing).
Notation ex_out := (getExtPacketMetas 990000000 [101; 102; 104; 105; 105] ex_state) (only parsing).

Lemma ex_valid : valid_ops ex_ops ex_seq ∅.
Proof. apply (bool_decide_unpack _). vm_compute. exact I. Qed.

Lemma nack_replies_sound_witness :
  map extSequenceNumber (snd ex_out) = [101; 104; 105] /\
  map (fun e => nacked (meta_ e)) (snd ex_out) = [2; 1; 1] /\
  good_replies (getRefTime 990000000 ex_state) (nackLimit ex_state) (extHighestTS ex_state)
    [101; 102; 104; 105; 105] (snd (fst ex_run)) (snd ex_out).
Proof.
  split; [vm_compute; reflexivity|]. split; [vm_compute; reflexivity|].
  refine (proj1 (nack_replies_sound 8 true 0 ex_ops ex_seq ex_state (snd (fst ex_run)) (snd ex_run)
           990000000 [101; 102; 104; 105; 105] (fst ex_out) (snd ex_out) _ _ _ _ _ _)).
  - reflexivity.
  - lia.
  - apply ex_valid.
  - exact (triple_eta ex_run).
  - repeat constructor; lia.
  - exact (surjective_pairing ex_out).
Defined.

Lemma lookup_exact_witness :
  is_Some (lookupExtPacketMeta 104 ex_state) /\ lookupExtPacketMeta 102 ex_state = None.
Proof.
  split; [|vm_compute; reflexivity].
  refine (proj2 (lookup_exact 8 true 0 ex_ops ex_seq ex_state (snd (fst ex_run)) (snd ex_run) 104
           _ _ _ _ _) 2 (mkEntry (pushed_meta 104 111 104 312000 false 0 [1; 2] 3 [] []) 312000 0 104)
           _ _ _ _ _).
  - reflexivity.
  - lia.
  - apply ex_valid.
  - exact (triple_eta ex_run).
  - unfold bound. lia.
  - apply (bool_decide_unpack _). vm_compute. exact I.
  - vm_compute. reflexivity.
  - vm_compute. reflexivity.
  - vm_compute. reflexivity.
  - vm_compute. discriminate.
Defined.

(** Padding exactly [size] numbers behind the highest packet clears the
    slot of the highest packet: the test that skips numbers that are too old
    lets through the one number that shares its slot. *)
Theorem old_padding_clears_newest :
  let s0 := ex_seq in
  let s1 := fold_left (fun s o => fst (run o s)) (map ex_push [100; 101; 102; 103; 104; 105; 106; 107; 108]) s0 in
  is_Some (lookupExtPacketMeta 108 s1) /\ lookupExtPacketMeta 108 (pushPadding 100 100 s1) = None.
Proof. split; vm_compute; [by eexists|reflexivity]. Qed.
