(* ===== verification/OrderedMap.v ===== *)
(** * Ordered maps

    The munger and the dependency tracking code use
    [github.com/elliotchance/orderedmap/v2], a third-party map that remembers
    the order of first insertion.  [OrderedMap] is its interface, a parameter
    of the models that use it; [OrderedMapLaws] states its documented
    behaviour over the list of its entries; [alist] is a concrete instance. *)

From S2P Require Import Prelude.

Class OrderedMap (om : Type -> Type) := {
  NewOrderedMap {V : Type} : om V;
  Get {V : Type} : Z -> om V -> option V;
  Set_ {V : Type} : Z -> V -> om V -> om V;
  Delete {V : Type} : Z -> om V -> om V;
  Front {V : Type} : om V -> option Z;   (** the key of the oldest entry *)
  Len {V : Type} : om V -> Z;
}.

Definition alist_get {V : Type} (k : Z) (l : list (Z * V)) : option V :=
  snd <$> list_find (fun e => fst e = k) l ≫= (fun p => Some (snd p)).

Definition alist_delete {V : Type} (k : Z) (l : list (Z * V)) : list (Z * V) :=
  filter (fun e => fst e <> k) l.

Definition alist_set {V : Type} (k : Z) (v : V) (l : list (Z * V)) : list (Z * V) :=
  if bool_decide (k ∈ l.*1) then map (fun e => if fst e =? k then (k, v) else e) l
  else l ++ [(k, v)].

Class OrderedMapLaws (om : Type -> Type) `{OrderedMap om} := {
  entries {V : Type} : om V -> list (Z * V);
  entries_new {V : Type} : entries (NewOrderedMap (V := V)) = [];
  entries_nodup {V : Type} (m : om V) : NoDup (entries m).*1;
  entries_set {V : Type} k (v : V) m : entries (Set_ k v m) = alist_set k v (entries m);
  entries_delete {V : Type} k (m : om V) : entries (Delete k m) = alist_delete k (entries m);
  Get_entries {V : Type} k (m : om V) : Get k m = alist_get k (entries m);
  Front_entries {V : Type} (m : om V) : Front m = head (entries m).*1;
  Len_entries {V : Type} (m : om V) : Len m = zlen (entries m);
}.

Lemma alist_get_cons {V} k (e : Z * V) l :
  alist_get k (e :: l) = if decide (fst e = k) then Some (snd e) else alist_get k l.
Proof.
  unfold alist_get. cbn. destruct (decide (fst e = k)); [done|].
  by destruct (list_find _ l) as [[i x]|].
Qed.

Lemma alist_get_Some {V} k (v : V) l : NoDup l.*1 -> alist_get k l = Some v <-> (k, v) ∈ l.
Proof.
  induction l as [|[k' v'] l IH]; [by split; [|inversion 1]|].
  cbn [fmap list_fmap fst]. rewrite NoDup_cons, alist_get_cons. intros [Hn Hd].
  rewrite elem_of_cons. cbn. case_decide as E; [subst k'|rewrite IH by done].
  - split; [intros [= ->]; by left|]. intros [[= ->]|Hin]; [done|]. exfalso. apply Hn.
    apply list_elem_of_fmap. by exists (k, v).
  - split; [by right|]. by intros [[= -> ->]|?].
Qed.

Lemma alist_get_None {V} k (l : list (Z * V)) : alist_get k l = None <-> k ∉ l.*1.
Proof.
  induction l as [|[k' v'] l IH]; [by split; [inversion 2|]|].
  cbn [fmap list_fmap fst]. rewrite alist_get_cons, not_elem_of_cons. cbn.
  case_decide; naive_solver.
Qed.

Lemma alist_get_app_new {V} k (v : V) l k' :
  k ∉ l.*1 -> alist_get k' (l ++ [(k, v)]) = if decide (k = k') then Some v else alist_get k' l.
Proof.
  induction l as [|[k0 v0] l IH]; intros Hk; [cbn [app]; by rewrite alist_get_cons|].
  cbn [fmap list_fmap fst] in Hk. apply not_elem_of_cons in Hk as [Hk0 Hk].
  cbn [app]. rewrite !alist_get_cons, IH by done. cbn. repeat case_decide; congruence.
Qed.

Lemma alist_get_set {V} k (v : V) l k' :
  alist_get k' (alist_set k v l) = if decide (k = k') then Some v else alist_get k' l.
Proof.
  unfold alist_set. case_bool_decide as Hin; [|by apply alist_get_app_new].
  induction l as [|[k0 v0] l IH]; [by inversion Hin|].
  cbn [map]. rewrite !alist_get_cons. cbn [fmap list_fmap fst] in Hin |- *.
  destruct (Z.eqb_spec k0 k) as [->|Hne]; cbn.
  - destruct (decide (k = k')) as [->|Hkk]; [done|].
    destruct (decide (k ∈ l.*1)) as [Hl|Hl]; [by apply IH|].
    f_equal. clear -Hl. induction l as [|[k1 v1] l IH]; [done|].
    cbn in Hl. apply not_elem_of_cons in Hl as [H1 Hl]. cbn [map fst].
    rewrite (proj2 (Z.eqb_neq k1 k)) by congruence. by rewrite IH.
  - apply elem_of_cons in Hin as [?|Hin]; [congruence|]. rewrite IH by done.
    repeat case_decide; congruence.
Qed.

Lemma alist_get_delete {V} k (l : list (Z * V)) k' :
  alist_get k' (alist_delete k l) = if decide (k = k') then None else alist_get k' l.
Proof.
  unfold alist_delete. induction l as [|[k0 v0] l IH]; [by case_decide|].
  rewrite filter_cons, alist_get_cons. cbn. destruct (decide (k0 <> k)) as [Hne|He].
  - rewrite alist_get_cons, IH. cbn. repeat case_decide; congruence.
  - apply dec_stable in He as ->. rewrite IH. repeat case_decide; congruence.
Qed.

Lemma alist_set_keys {V} k (v : V) l :
  (alist_set k v l).*1 = if bool_decide (k ∈ l.*1) then l.*1 else l.*1 ++ [k].
Proof.
  unfold alist_set. case_bool_decide; [|by rewrite fmap_app].
  clear H. induction l as [|[k0 v0] l IH]; [done|]. cbn. f_equal; [|done].
  by destruct (Z.eqb_spec k0 k).
Qed.

Lemma alist_set_nodup {V} k (v : V) l : NoDup l.*1 -> NoDup (alist_set k v l).*1.
Proof.
  intros Hd. rewrite alist_set_keys. case_bool_decide as Hin; [done|].
  apply NoDup_app. split; [done|]. split; [|apply NoDup_singleton].
  intros x Hx ->%list_elem_of_singleton. done.
Qed.

Lemma alist_delete_nodup {V} k (l : list (Z * V)) : NoDup l.*1 -> NoDup (alist_delete k l).*1.
Proof.
  unfold alist_delete. induction l as [|[k0 v0] l IH]; [done|]. cbn [fmap list_fmap fst].
  intros [Hn Hd]%NoDup_cons. rewrite filter_cons. case_decide; [|by apply IH].
  cbn. apply NoDup_cons. split; [|by apply IH]. intros Hin. apply Hn.
  apply list_elem_of_fmap in Hin as (e & -> & He). apply list_elem_of_filter in He as [_ He].
  apply list_elem_of_fmap. by exists e.
Qed.

(** The concrete instance: an association list without duplicate keys. *)
Record alist (V : Type) := mkAlist { alist_entries : list (Z * V); alist_nodup : NoDup alist_entries.*1 }.
Arguments mkAlist {V}.
Arguments alist_entries {V}.
Arguments alist_nodup {V}.

#[export] Instance alist_OrderedMap : OrderedMap alist := {
  NewOrderedMap V := mkAlist [] (NoDup_nil_2);
  Get V k m := alist_get k (alist_entries m);
  Set_ V k v m := mkAlist (alist_set k v (alist_entries m)) (alist_set_nodup k v _ (alist_nodup m));
  Delete V k m := mkAlist (alist_delete k (alist_entries m)) (alist_delete_nodup k _ (alist_nodup m));
  Front V m := head (alist_entries m).*1;
  Len V m := zlen (alist_entries m);
}.

#[export] Instance alist_Laws : OrderedMapLaws alist.
Proof. refine {| entries V m := alist_entries m |}; try done. intros V m. apply alist_nodup. Defined.

(** ** What clients use *)
Section Client.
Context {om : Type -> Type} `{OrderedMapLaws om}.

Lemma Get_new {V} k : Get k (NewOrderedMap (V := V)) = None.
Proof. by rewrite Get_entries, entries_new. Qed.

Lemma Get_set {V} k (v : V) m k' : Get k' (Set_ k v m) = if decide (k = k') then Some v else Get k' m.
Proof. by rewrite !Get_entries, entries_set, alist_get_set. Qed.

Lemma Get_delete {V} k (m : om V) k' : Get k' (Delete k m) = if decide (k = k') then None else Get k' m.
Proof. by rewrite !Get_entries, entries_delete, alist_get_delete. Qed.

(** [for m.Len() > threshold { el := m.Front(); m.Delete(el.Key) }] *)
Fixpoint trim_loop {V : Type} (fuel : nat) (threshold : Z) (m : om V) : om V :=
  match fuel with
  | O => m
  | S fuel =>
    if Len m >? threshold then
      match Front m with
      | Some k => trim_loop fuel threshold (Delete k m)
      | None => m
      end
    else m
  end.

Definition trim {V : Type} (threshold : Z) (m : om V) : om V :=
  trim_loop (Z.to_nat (Len m)) threshold m.

Lemma delete_front {V} (m : om V) e l :
  entries m = e :: l -> entries (Delete (fst e) m) = l.
Proof.
  intros E. rewrite entries_delete, E. pose proof (entries_nodup m) as Hd. rewrite E in Hd.
  cbn in Hd. apply NoDup_cons in Hd as [Hn _]. unfold alist_delete.
  rewrite filter_cons. rewrite decide_False by (intros H'; by apply H').
  clear -Hn. induction l as [|x l IH]; [done|]. cbn in Hn. apply not_elem_of_cons in Hn as [H1 H2].
  rewrite filter_cons, decide_True by congruence. by rewrite IH.
Qed.

(** Trimming keeps exactly the newest [threshold] entries. *)
Lemma trim_entries {V} threshold (m : om V) :
  0 <= threshold ->
  entries (trim threshold m) = drop (Z.to_nat (Len m - threshold)) (entries m).
Proof.
  intros Hth. unfold trim. remember (Z.to_nat (Len m)) as fuel eqn:Ef.
  revert m Ef. induction fuel as [|fuel IH]; intros m Ef; cbn [trim_loop];
    rewrite Len_entries in *; unfold zlen in *.
  - destruct (entries m); [by rewrite drop_nil|cbn in *; lia].
  - rewrite Z.gtb_ltb. destruct (Z.ltb_spec threshold (Z.of_nat (length (entries m)))) as [Hlt|Hge].
    + rewrite Front_entries. destruct (entries m) as [|e l] eqn:E; [cbn in *; lia|]. cbn [fmap list_fmap head].
      pose proof (delete_front m e l E) as Hd.
      rewrite IH; rewrite Len_entries, Hd; unfold zlen; cbn [length] in *; [|lia].
      replace (Z.to_nat (Z.of_nat (S (length l)) - threshold))
        with (S (Z.to_nat (Z.of_nat (length l) - threshold))) by lia. done.
    + replace (Z.to_nat _) with 0%nat by lia. by rewrite drop_0.
Qed.

Lemma trim_len {V} threshold (m : om V) : 0 <= threshold -> Len (trim threshold m) <= threshold.
Proof.
  intros Hth. rewrite Len_entries, trim_entries by done. unfold zlen.
  rewrite length_drop, Len_entries. unfold zlen. lia.
Qed.

Lemma trim_sub {V} threshold (m : om V) k v :
  0 <= threshold -> Get k (trim threshold m) = Some v -> Get k m = Some v.
Proof.
  intros Hth. rewrite !Get_entries. rewrite !alist_get_Some by apply entries_nodup.
  rewrite trim_entries by done. intros H'.
  rewrite <- (take_drop (Z.to_nat (Len m - threshold)) (entries m)). apply elem_of_app. by right.
Qed.

(** The newest entry survives. *)
Lemma trim_newest {V} threshold (m : om V) l e :
  1 <= threshold -> entries m = l ++ [e] -> Get (fst e) (trim threshold m) = Some (snd e).
Proof.
  intros Hth E. rewrite Get_entries, alist_get_Some by apply entries_nodup.
  rewrite trim_entries, Len_entries, E by lia. unfold zlen. rewrite length_app. cbn [length].
  rewrite drop_app_le by lia. apply elem_of_app. right. destruct e. by left.
Qed.

Lemma trim_set_newest {V} threshold (m : om V) k v :
  1 <= threshold -> Get k m = None -> Get k (trim threshold (Set_ k v m)) = Some v.
Proof.
  intros Hth Hk. apply (trim_newest threshold _ (entries m) (k, v) Hth).
  rewrite entries_set. unfold alist_set. rewrite bool_decide_false; [done|].
  rewrite Get_entries in Hk. by apply alist_get_None in Hk.
Qed.
End Client.
