(* ===== verification/Vp8Munger.v ===== *)
(** * VP8 munger: picture ids, TL0PICIDX and KEYIDX of a forwarded VP8 stream

    Models [src/SERVER/pkg/sfu/codecmunger/vp8.go] and [null.go]: rewriting
    the VP8 payload descriptor so that the receiver sees one continuous
    stream although layers are switched and temporal layers filtered.  The
    three ordered maps are parameters ([OrderedMap]); [int32] arithmetic is
    written with [i32], [uint8] with [u8]. *)

From S2P Require Import Prelude Packet OrderedMap.
From S2P Require Import Vp8.

(** ** Unwrapping picture ids *)

Definition isWrapping7Bit (val1 val2 : Z) : bool :=
  (val2 <? val1) && (i32 (val1 - val2) >? Z.shiftl 1 6).

Definition isWrapping15Bit (val1 val2 : Z) : bool :=
  (val2 <? val1) && (i32 (val1 - val2) >? Z.shiftl 1 14).

Record VP8PictureIdWrapHandler := mkWrap {
  maxPictureId : Z;
  maxMBit : bool;
  totalWrap : Z;
  lastWrap : Z;
}.
#[export] Instance eta_Wrap : Eta VP8PictureIdWrapHandler := fun v =>
  mkWrap (maxPictureId v) (maxMBit v) (totalWrap v) (lastWrap v).

Definition Init (extPictureId : Z) (mBit : bool) (v : VP8PictureIdWrapHandler)
  : VP8PictureIdWrapHandler := mkWrap extPictureId mBit 0 0.

Definition MaxPictureId (v : VP8PictureIdWrapHandler) : Z := maxPictureId v.

Definition Unwrap (pictureId : Z) (mBit : bool) (v : VP8PictureIdWrapHandler)
  : VP8PictureIdWrapHandler * Z :=
  let maxPid :=
    if maxPictureId v >? 0 then
      if maxMBit v then Z.land (maxPictureId v) 0x7fff else Z.land (maxPictureId v) 0x7f
    else maxPictureId v in
  let newPictureId := if mBit then Z.land pictureId 0x7fff else Z.land pictureId 0x7f in
  if (totalWrap v >? 0)
     && (i32 (maxPictureId v + Z.shiftr (lastWrap v) 1) <? i32 (newPictureId + totalWrap v)) then
    (v, i32 (i32 (newPictureId + totalWrap v) - lastWrap v))
  else
    let wrap :=
      if maxMBit v then (if isWrapping15Bit maxPid newPictureId then Z.shiftl 1 15 else 0)
      else (if isWrapping7Bit maxPid newPictureId then Z.shiftl 1 7 else 0) in
    let v := v <| totalWrap := i32 (totalWrap v + wrap) |> in
    let v := if negb (wrap =? 0) then v <| lastWrap := wrap |> else v in
    (v, i32 (newPictureId + totalWrap v)).

Definition UpdateMaxPictureId (extPictureId : Z) (mBit : bool) (v : VP8PictureIdWrapHandler)
  : VP8PictureIdWrapHandler :=
  v <| maxPictureId := extPictureId |> <| maxMBit := mBit |>.

(** ** The munger *)

Definition missingPictureIdsThreshold : Z := 50.
Definition droppedPictureIdsThreshold : Z := 20.
Definition exemptedPictureIdsThreshold : Z := 20.

Inductive vp8munger_error :=
| ErrNotVP8
| ErrOutOfOrderVP8PictureIdCacheMiss
| ErrFilteredVP8TemporalLayer
| ErrMarshal (e : vp8_error).

(** The fields of [hublive.VP8MungerState] that the munger uses. *)
Record VP8MungerState := mkVP8MungerState {
  ExtLastPictureId : Z;
  PictureIdUsed : bool;
  LastTl0PicIdx : Z;
  Tl0PicIdxUsed : bool;
  TidUsed : bool;
  LastKeyIdx : Z;
  KeyIdxUsed : bool;
}.

Section Munger.
Context {om : Type -> Type} `{OrderedMap om}.

Record VP8M := mkVP8M {
  pictureIdWrapHandler : VP8PictureIdWrapHandler;
  extLastPictureId : Z;
  pictureIdOffset : Z;
  pictureIdUsed : bool;
  lastTl0PicIdx : Z;
  tl0PicIdxOffset : Z;
  tl0PicIdxUsed : bool;
  tidUsed : bool;
  lastKeyIdx : Z;
  keyIdxOffset : Z;
  keyIdxUsed : bool;
  missingPictureIds : om Z;
  droppedPictureIds : om bool;
  exemptedPictureIds : om bool;
}.
#[local] Instance eta_VP8M : Eta VP8M := fun v =>
  mkVP8M (pictureIdWrapHandler v) (extLastPictureId v) (pictureIdOffset v) (pictureIdUsed v)
    (lastTl0PicIdx v) (tl0PicIdxOffset v) (tl0PicIdxUsed v) (tidUsed v) (lastKeyIdx v)
    (keyIdxOffset v) (keyIdxUsed v) (missingPictureIds v) (droppedPictureIds v)
    (exemptedPictureIds v).

Definition NewVP8 : VP8M :=
  mkVP8M (mkWrap 0 false 0 0) 0 0 false 0 0 false false 0 0 false
    NewOrderedMap NewOrderedMap NewOrderedMap.

Definition GetState (v : VP8M) : VP8MungerState :=
  mkVP8MungerState (extLastPictureId v) (pictureIdUsed v) (u32 (lastTl0PicIdx v))
    (tl0PicIdxUsed v) (tidUsed v) (u32 (lastKeyIdx v)) (keyIdxUsed v).

(** Both wrappers of the state the type switch accepts are the state itself. *)
Definition SeedState (seed : option VP8MungerState) (v : VP8M) : VP8M :=
  match seed with
  | None => v
  | Some st =>
    v <| extLastPictureId := ExtLastPictureId st |> <| pictureIdUsed := PictureIdUsed st |>
      <| lastTl0PicIdx := u8 (LastTl0PicIdx st) |> <| tl0PicIdxUsed := Tl0PicIdxUsed st |>
      <| tidUsed := TidUsed st |> <| lastKeyIdx := u8 (LastKeyIdx st) |>
      <| keyIdxUsed := KeyIdxUsed st |>
  end.

(** [CodecMunger]: the two implementations. *)
Inductive CodecMunger := CMNull (seededState : option VP8MungerState) | CMVP8 (v : VP8M).

Definition NewVP8FromOther (cm : CodecMunger) : VP8M :=
  match cm with
  | CMNull seeded => SeedState seeded NewVP8
  | CMVP8 v => SeedState (Some (GetState v)) NewVP8
  end.

Definition SetLast (extPkt : ExtPacket) (v : VP8M) : VP8M :=
  match Payload extPkt with
  | PayloadVP8 vp8 =>
    let v := v <| pictureIdUsed := I vp8 |> in
    let v := if pictureIdUsed v then
               v <| pictureIdWrapHandler :=
                      Init (i32 (PictureID vp8 - 1)) (M vp8) (pictureIdWrapHandler v) |>
                 <| extLastPictureId := PictureID vp8 |>
             else v in
    let v := v <| tl0PicIdxUsed := L vp8 |> in
    let v := if tl0PicIdxUsed v then v <| lastTl0PicIdx := TL0PICIDX vp8 |> else v in
    let v := v <| tidUsed := T vp8 |> in
    let v := v <| keyIdxUsed := K vp8 |> in
    if keyIdxUsed v then v <| lastKeyIdx := KEYIDX vp8 |> else v
  | _ => v
  end.

Definition UpdateOffsets (extPkt : ExtPacket) (v : VP8M) : VP8M :=
  match Payload extPkt with
  | PayloadVP8 vp8 =>
    let v := if pictureIdUsed v then
               v <| pictureIdWrapHandler :=
                      Init (i32 (PictureID vp8 - 1)) (M vp8) (pictureIdWrapHandler v) |>
                 <| pictureIdOffset := i32 (i32 (PictureID vp8 - extLastPictureId v) - 1) |>
             else v in
    let v := if tl0PicIdxUsed v then
               v <| tl0PicIdxOffset := u8 (u8 (TL0PICIDX vp8 - lastTl0PicIdx v) - 1) |>
             else v in
    let v := if keyIdxUsed v then
               v <| keyIdxOffset := Z.land (u8 (u8 (KEYIDX vp8 - lastKeyIdx v) - 1)) 0x1f |>
             else v in
    v <| missingPictureIds := NewOrderedMap |> <| droppedPictureIds := NewOrderedMap |>
      <| exemptedPictureIds := NewOrderedMap |>
  | _ => v
  end.

(** The descriptor written for an incoming one. *)
Definition mungedVP8 (vp8 : VP8) (mungedPictureId tl0 keyIdx : Z) : VP8 :=
  mkVP8 (FirstByte vp8) false (I vp8) (mungedPictureId >? 127) mungedPictureId (L vp8) tl0
    (T vp8) (TID vp8) (Y vp8) (K vp8) keyIdx
    (HeaderSize vp8 + VPxPictureIdSizeDiff (mungedPictureId >? 127) (M vp8)) (IsKeyFrame vp8).

Definition marshalled (vp8 packet : VP8) : res vp8munger_error (Z * list Z) :=
  match Marshal packet with
  | Ok bs => Ok (HeaderSize vp8, bs)
  | Err e => Err (ErrMarshal e)
  end.

(** [uint16(x & 0x7fff)] *)
Definition pid15 (x : Z) : Z := u16 (Z.land x 0x7fff).

(** [for lost := from; lost <= to; lost++]; [n] is the number of iterations. *)
Fixpoint recordMissing (n : nat) (lost offset : Z) (dropped : om bool) (missing : om Z) : om Z :=
  match n with
  | O => missing
  | Datatypes.S n =>
    let missing :=
      match Get lost dropped with
      | Some _ => missing
      | None => Set_ lost offset missing
      end in
    recordMissing n (i32 (lost + 1)) offset dropped missing
  end.

Definition gapUpdate (prevMax extPictureId : Z) (temporal maxTemporalLayer : Z) (v : VP8M) : VP8M :=
  let missing := recordMissing (Z.to_nat (extPictureId - prevMax + 1)) prevMax (pictureIdOffset v)
                   (droppedPictureIds v) (missingPictureIds v) in
  let v := v <| missingPictureIds := trim missingPictureIdsThreshold missing |> in
  if temporal >? maxTemporalLayer then
    v <| exemptedPictureIds :=
           trim exemptedPictureIdsThreshold (Set_ extPictureId true (exemptedPictureIds v)) |>
  else v.

(** The packet is filtered: count the picture once. *)
Definition filterPicture (vp8 : VP8) (prevMax extPictureId : Z) (v : VP8M) : VP8M :=
  if I vp8 && negb (prevMax =? extPictureId) then
    v <| droppedPictureIds :=
           trim droppedPictureIdsThreshold (Set_ extPictureId true (droppedPictureIds v)) |>
      <| pictureIdOffset := i32 (pictureIdOffset v + 1) |>
  else v.

(** The tail of [UpdateAndGet], for a packet that is forwarded. *)
Definition forward (vp8 : VP8) (extPictureId : Z) (v : VP8M)
  : VP8M * res vp8munger_error (Z * list Z) :=
  let extMungedPictureId := i32 (extPictureId - pictureIdOffset v) in
  let mungedTl0PicIdx := u8 (TL0PICIDX vp8 - tl0PicIdxOffset v) in
  let mungedKeyIdx := Z.land (u8 (KEYIDX vp8 - keyIdxOffset v)) 0x1f in
  let v := v <| extLastPictureId := extMungedPictureId |> <| lastTl0PicIdx := mungedTl0PicIdx |>
             <| lastKeyIdx := mungedKeyIdx |> in
  (v, marshalled vp8 (mungedVP8 vp8 (pid15 extMungedPictureId) mungedTl0PicIdx mungedKeyIdx)).

Definition UpdateAndGet (extPkt : ExtPacket) (snOutOfOrder snHasGap : bool) (maxTemporalLayer : Z)
  (v : VP8M) : VP8M * res vp8munger_error (Z * list Z) :=
  match Payload extPkt with
  | PayloadVP8 vp8 =>
    let '(h, extPictureId) := Unwrap (PictureID vp8) (M vp8) (pictureIdWrapHandler v) in
    let v := v <| pictureIdWrapHandler := h |> in
    if snOutOfOrder then
      match Get extPictureId (missingPictureIds v) with
      | None => (v, Err ErrOutOfOrderVP8PictureIdCacheMiss)
      | Some offset =>
        (v, marshalled vp8 (mungedVP8 vp8 (pid15 (i32 (extPictureId - offset)))
              (u8 (TL0PICIDX vp8 - tl0PicIdxOffset v)) (u8 (KEYIDX vp8 - keyIdxOffset v))))
      end
    else
      let prevMax := MaxPictureId (pictureIdWrapHandler v) in
      let v := v <| pictureIdWrapHandler :=
                 UpdateMaxPictureId extPictureId (M vp8) (pictureIdWrapHandler v) |> in
      if snHasGap then
        forward vp8 extPictureId
          (gapUpdate prevMax extPictureId (Temporal (Layers extPkt)) maxTemporalLayer v)
      else if Temporal (Layers extPkt) >? maxTemporalLayer then
        match Get extPictureId (exemptedPictureIds v) with
        | None => (filterPicture vp8 prevMax extPictureId v, Err ErrFilteredVP8TemporalLayer)
        | Some _ => forward vp8 extPictureId v
        end
      else forward vp8 extPictureId v
  | _ => (v, Err ErrNotVP8)
  end.

(** The descriptor of a padding frame, and the state it leaves. *)
Definition paddingVP8 (newPicture : bool) (v : VP8M) : VP8M * VP8 :=
  let offset := if newPicture then 1 else 0 in
  let headerSize := 1 in
  let headerSize := if pictureIdUsed v || tl0PicIdxUsed v || tidUsed v || keyIdxUsed v
                    then headerSize + 1 else headerSize in
  let extPictureId := extLastPictureId v in
  let '(v, headerSize, extPictureId) :=
    if pictureIdUsed v then
      let extPictureId := i32 (extLastPictureId v + offset) in
      (v <| extLastPictureId := extPictureId |>
         <| pictureIdOffset := i32 (pictureIdOffset v - offset) |>,
       if Z.land extPictureId 0x7fff >? 127 then headerSize + 2 else headerSize + 1,
       extPictureId)
    else (v, headerSize, extPictureId) in
  let pictureId := pid15 extPictureId in
  let '(v, headerSize, tl0PicIdx) :=
    if tl0PicIdxUsed v then
      let tl0 := u8 (lastTl0PicIdx v + offset) in
      (v <| lastTl0PicIdx := tl0 |> <| tl0PicIdxOffset := u8 (tl0PicIdxOffset v - offset) |>,
       headerSize + 1, tl0)
    else (v, headerSize, 0) in
  let headerSize := if tidUsed v || keyIdxUsed v then headerSize + 1 else headerSize in
  let '(v, keyIdx) :=
    if keyIdxUsed v then
      let k := Z.land (u8 (lastKeyIdx v + offset)) 0x1f in
      (v <| lastKeyIdx := k |> <| keyIdxOffset := u8 (keyIdxOffset v - offset) |>, k)
    else (v, 0) in
  (v, mkVP8 0x10 false (pictureIdUsed v) (pictureId >? 127) pictureId (tl0PicIdxUsed v) tl0PicIdx
        (tidUsed v) 0 true (keyIdxUsed v) keyIdx headerSize true).

Definition UpdateAndGetPadding (newPicture : bool) (v : VP8M) : VP8M * res vp8_error (list Z) :=
  let '(v, packet) := paddingVP8 newPicture v in (v, Marshal packet).

Definition PictureIdOffset (extPictureId : Z) (v : VP8M) : option Z :=
  Get extPictureId (missingPictureIds v).
End Munger.
Arguments VP8M om : clear implicits.
#[export] Existing Instance eta_VP8M.

(** ** The rewritten descriptor *)

Lemma pid15_range x : 0 <= pid15 x < 32768.
Proof.
  unfold pid15. change 0x7fff with (Z.ones 15). rewrite Z.land_ones by lia.
  pose proof (Z.mod_pos_bound x (2 ^ 15) ltac:(lia)). rewrite u16_small; lia.
Qed.

Lemma pid15_mod x : pid15 x = x mod 32768.
Proof.
  pose proof (pid15_range x). unfold pid15 in *. change 0x7fff with (Z.ones 15) in *.
  rewrite Z.land_ones in * by lia. rewrite u16_small; [done|].
  pose proof (Z.mod_pos_bound x (2 ^ 15) ltac:(lia)). lia.
Qed.

Lemma land_1f x : 0 <= Z.land x 0x1f < 32.
Proof. change 0x1f with (Z.ones 5). rewrite Z.land_ones by lia. apply Z.mod_pos_bound. lia. Qed.

Lemma munged_wf vp8 pid tl0 key :
  Vp8.wf vp8 -> I vp8 = true -> 0 <= pid < 32768 -> byte tl0 ->
  Vp8.wf (canon (mungedVP8 vp8 pid tl0 key)).
Proof.
  intros Hwf HI Hpid Htl. pose proof (wf_size vp8 Hwf) as Hsz. rewrite zlen_encode in Hsz.
  destruct Hwf as [Hf He HS Hp HLT Htl0 Htid Hkey _].
  unfold ext in *. rewrite HI in *. cbn [orb] in *.
  constructor; unfold mungedVP8, canon, ext; cbn [FirstByte S I M PictureID L TL0PICIDX T TID Y K KEYIDX HeaderSize];
    rewrite ?HI; cbn [andb orb]; try done.
  - rewrite Z.gtb_ltb. destruct (Z.ltb_spec 127 pid); lia.
  - by destruct (L vp8).
  - destruct (T vp8); [done|by split].
  - destruct (K vp8); [apply land_1f|done].
  - rewrite zlen_encode. unfold ext, VPxPictureIdSizeDiff.
    cbn [I M L T K]. cbn [orb andb]. rewrite Hsz.
    destruct (pid >? 127), (M vp8); cbn [Bool.eqb]; lia.
Qed.

(** What the receiver decodes from the rewritten header. *)
Definition decoded (vp8 : VP8) (pid tl0 key : Z) (hdr : list Z) (p : Z) : VP8 :=
  mkVP8 (FirstByte vp8) (S vp8) true (pid >? 127) pid (L vp8) (if L vp8 then tl0 else 0)
    (T vp8) (TID vp8) (Y vp8) (K vp8) (if K vp8 then Z.land key 0x1f else 0) (zlen hdr)
    ((Z.land p 0x01 =? 0) && S vp8).

Definition parses_as (vp8 : VP8) (pid tl0 key : Z) (out : res vp8munger_error (Z * list Z)) : Prop :=
  exists hdr, out = Ok (HeaderSize vp8, hdr) /\
    forall p body, Unmarshal zeroVP8 (Some (hdr ++ p :: body)) = Ok (decoded vp8 pid tl0 key hdr p).

Lemma marshalled_parses vp8 pid tl0 key :
  Vp8.wf vp8 -> I vp8 = true -> 0 <= pid < 32768 -> byte tl0 ->
  parses_as vp8 pid tl0 key (marshalled vp8 (mungedVP8 vp8 pid tl0 key)).
Proof.
  intros Hwf HI Hpid Htl. pose proof (munged_wf vp8 pid tl0 key Hwf HI Hpid Htl) as Hwf'.
  unfold parses_as, marshalled. rewrite Marshal_canon, Marshal_encode by done.
  eexists. split; [reflexivity|]. intros p body. rewrite Unmarshal_encode by done.
  f_equal. unfold decoded. rewrite <- (wf_size _ Hwf').
  destruct Hwf as [_ _ HS _ _ _ Ht _ _]. unfold canon, mungedVP8.
  cbn [FirstByte S I M PictureID L TL0PICIDX T TID Y K KEYIDX HeaderSize].
  cbn. rewrite HI, <- HS. cbn [andb]. destruct (T vp8); [done|]. destruct Ht as [-> ->]. done.
Qed.

(** ** Unwrapping is exact

    [h] follows a stream whose picture numbers are all sent in 15 bits:
    [maxPictureId] is the number of the newest picture. *)
Record follows (h : VP8PictureIdWrapHandler) : Prop := {
  f_bit : maxMBit h = true;
  f_max : -1 <= maxPictureId h < 2 ^ 30;
  f_total : totalWrap h = 32768 * Z.max 0 (maxPictureId h / 32768);
  f_last : 0 <= lastWrap h <= 32768 /\ (0 < totalWrap h -> lastWrap h = 32768);
}.

Lemma Init_follows pid h : 0 <= pid < 32768 -> follows (Init (i32 (pid - 1)) true h).
Proof.
  intros Hp. assert (i32 (pid - 1) = pid - 1) as -> by glia.
  unfold Init. constructor; cbn; try done; try lia.
  destruct (Z.eq_dec pid 0) as [->|]; [done|]. rewrite Z.div_small; lia.
Qed.


Lemma land_7fff x : Z.land x 0x7fff = x mod 32768.
Proof. change 0x7fff with (Z.ones 15). by rewrite Z.land_ones. Qed.

(** [Unwrap] in 15-bit mode, without the machine arithmetic. *)
Lemma Unwrap_eq h n :
  maxMBit h = true -> -1 <= maxPictureId h < 2 ^ 30 + 2 ^ 14 -> 0 <= totalWrap h <= 2 ^ 30 ->
  0 <= lastWrap h <= 32768 -> 0 <= n < 32768 ->
  let maxPid := if maxPictureId h >? 0 then maxPictureId h mod 32768 else maxPictureId h in
  Unwrap n true h =
  if (totalWrap h >? 0) && (maxPictureId h + lastWrap h / 2 <? n + totalWrap h) then
    (h, n + totalWrap h - lastWrap h)
  else if maxPid - n >? 16384 then
    (h <| totalWrap := totalWrap h + 32768 |> <| lastWrap := 32768 |>, n + totalWrap h + 32768)
  else (h, n + totalWrap h).
Proof.
  intros Hb Hm Ht Hl Hn maxPid. unfold Unwrap. rewrite Hb, !land_7fff. fold maxPid.
  rewrite (Z.mod_small n) by lia. cbv zeta.
  assert (Hmp : -1 <= maxPid < 2 ^ 30 + 2 ^ 14).
  { subst maxPid. pose proof (Z.mod_pos_bound (maxPictureId h) 32768 ltac:(lia)).
    rewrite Z.gtb_ltb. destruct (Z.ltb_spec 0 (maxPictureId h)); [|lia].
    pose proof (Z.mod_le (maxPictureId h) 32768). lia. }
  rewrite Z.shiftr_div_pow2 by lia. change (2 ^ 1) with 2.
  assert (0 <= lastWrap h / 2 <= 16384) by (split; [apply Z.div_pos|apply Z.div_le_upper_bound]; lia).
  rewrite (i32_small (maxPictureId h + _)), (i32_small (n + totalWrap h)) by lia.
  case_if; [by rewrite i32_small by lia|].
  unfold isWrapping15Bit. rewrite i32_small by lia.
  change (Z.shiftl 1 14) with 16384. change (Z.shiftl 1 15) with 32768.
  destruct (Z.ltb_spec n maxPid) as [Hlt|Hge]; cbn [andb].
  - destruct (maxPid - n >? 16384); cbn [Z.eqb negb].
    + change (totalWrap (h <| totalWrap := i32 (totalWrap h + 32768) |> <| lastWrap := 32768 |>))
        with (i32 (totalWrap h + 32768)).
      rewrite (i32_small (totalWrap h + 32768)) by lia. rewrite i32_small by lia. f_equal. lia.
    + rewrite Z.add_0_r, (i32_small (totalWrap h)) by lia. cbn [totalWrap field_upd].
      rewrite i32_small by lia. f_equal. by destruct h.
  - rewrite Z.gtb_ltb, (proj2 (Z.ltb_ge _ _)) by lia. cbn [Z.eqb negb].
    rewrite Z.add_0_r, (i32_small (totalWrap h)) by lia. cbn [totalWrap field_upd].
    rewrite i32_small by lia. f_equal. by destruct h.
Qed.

(** A picture less than [2^14] away from the newest one is unwrapped to its
    number; a late one leaves the handler alone. *)
Lemma Unwrap_exact h e :
  follows h -> 0 <= e < 2 ^ 30 -> maxPictureId h - 2 ^ 14 < e < maxPictureId h + 2 ^ 14 ->
  exists h', Unwrap (e mod 32768) true h = (h', e) /\
    (e <= maxPictureId h -> h' = h) /\ maxPictureId h' = maxPictureId h /\
    (maxPictureId h <= e -> follows (UpdateMaxPictureId e true h')).
Proof.
  intros [Hb Hm Ht Hl] He Hd.
  set (n := e mod 32768). set (q := e / 32768).
  pose proof (Z.div_mod e 32768 ltac:(lia)) as Ede. fold n q in Ede.
  pose proof (Z.mod_pos_bound e 32768 ltac:(lia)) as Hn. fold n in Hn.
  assert (Hq : 0 <= q) by (apply Z.div_pos; lia).
  set (mx := maxPictureId h) in *. set (p := mx / 32768) in *. set (r := mx mod 32768).
  pose proof (Z.div_mod mx 32768 ltac:(lia)) as Emx. fold p r in Emx.
  pose proof (Z.mod_pos_bound mx 32768 ltac:(lia)) as Hr. fold r in Hr.
  destruct Hl as [Hlw Hl].
  assert (Htw : 0 <= totalWrap h <= 2 ^ 30) by lia.
  rewrite Unwrap_eq by (unfold mx in *; done || lia). fold mx. fold r.
  set (tw := totalWrap h) in *.
  assert (Hcase : forall h' x, x = e -> maxPictureId h' = mx -> maxMBit h' = true ->
    (h' = h \/ (mx < e /\ totalWrap h' = tw + 32768 /\ lastWrap h' = 32768)) ->
    (mx <= e -> totalWrap h' = 32768 * q) ->
    exists h'', (h', x) = (h'', e) /\ (e <= mx -> h'' = h) /\ maxPictureId h'' = mx /\
      (mx <= e -> follows (UpdateMaxPictureId e true h''))).
  { intros h' x -> Hm' Hb' Hc Ht'. exists h'. split; [done|]. split; [by destruct Hc; [|lia]|].
    split; [done|]. intros Hle. specialize (Ht' Hle).
    constructor; cbn; [done|lia|fold q; lia|]. destruct Hc as [->|(_ & _ & ->)]; [done|lia]. }
  destruct (Z.gtb_spec tw 0) as [Htw0|Htw0]; cbn [andb].
  - rewrite (Hl ltac:(lia)). change (32768 / 2) with 16384.
    destruct (Z.ltb_spec (mx + 16384) (n + tw)).
    + apply Hcase; [lia|done|done|by left|lia].
    + destruct (Z.gtb_spec mx 0); [|lia]. destruct (Z.gtb_spec (r - n) 16384).
      * apply Hcase; [lia|done|done|right; split; [lia|done]|cbn; lia].
      * apply Hcase; [lia|done|done|by left|lia].
  - set (mp := if mx >? 0 then r else mx).
    assert ((0 <= mx /\ mp = r) \/ (mx = -1 /\ mp = -1)).
    { subst mp. destruct (Z.gtb_spec mx 0); lia. }
    destruct (Z.gtb_spec (mp - n) 16384).
    + apply Hcase; [lia|done|done|right; split; [lia|done]|cbn; lia].
    + apply Hcase; [lia|done|done|by left|lia].
Qed.

(** ** Whole streams

    A source sends pictures numbered in 15 bits; a packet event carries the
    number [pic] of its picture since the last switch.  [assigned] is a ghost:
    the number each picture has on the way out. *)
Section Stream.
Context {om : Type -> Type} `{OrderedMapLaws om}.

Record event := mkEvent {
  ev_pkt : ExtPacket;
  ev_vp8 : VP8;
  ev_pic : Z;
  ev_ooo : bool;
  ev_gap : bool;
  ev_maxT : Z;
}.

Definition newest (v : VP8M om) : Z := maxPictureId (pictureIdWrapHandler v).

(** Every number of [[lo, lo+n)] that was not dropped gets [number - offset]. *)
Fixpoint assignRange (n : nat) (lo offset : Z) (dropped : om bool) (A : gmap Z Z) : gmap Z Z :=
  match n with
  | O => A
  | Datatypes.S n =>
    assignRange n (lo + 1) offset dropped
      (match Get lo dropped with Some _ => A | None => <[lo := lo - offset]> A end)
  end.

Definition gapLength (prevMax pic : Z) : nat := Z.to_nat (pic - prevMax + 1).

Definition assign (ev : event) (v v' : VP8M om) (ok : bool) (A : gmap Z Z) : gmap Z Z :=
  if ev_ooo ev then A
  else if ev_gap ev then
    assignRange (gapLength (newest v) (ev_pic ev)) (newest v) (pictureIdOffset v)
      (droppedPictureIds v) A
  else if ok then <[ev_pic ev := extLastPictureId v']> A else A.

Definition step (ev : event) (v : VP8M om) := UpdateAndGet (ev_pkt ev) (ev_ooo ev) (ev_gap ev) (ev_maxT ev) v.

Definition is_ok {E A} (r : res E A) : bool := match r with Ok _ => true | Err _ => false end.

Definition filtered (ev : event) : bool := Temporal (Layers (ev_pkt ev)) >? ev_maxT ev.

Definition well_sent (ev : event) : Prop :=
  Payload (ev_pkt ev) = PayloadVP8 (ev_vp8 ev) /\ Vp8.wf (ev_vp8 ev) /\ I (ev_vp8 ev) = true /\
  M (ev_vp8 ev) = true /\ PictureID (ev_vp8 ev) = ev_pic ev mod 32768 /\ 0 <= ev_pic ev < 2 ^ 30.

(** A late packet is near the newest picture; a contiguous one continues the
    newest picture or starts the next; a picture whose start was filtered is
    filtered to its end. *)
Definition ordered_ok (ev : event) (v : VP8M om) (A : gmap Z Z) : Prop :=
  if ev_ooo ev then newest v - 2 ^ 14 < ev_pic ev <= newest v
  else
    (if ev_gap ev then newest v <= ev_pic ev < newest v + 2 ^ 14
     else newest v <= ev_pic ev <= newest v + 1) /\
    (ev_pic ev = newest v -> A !! newest v = None -> ev_gap ev = false /\ filtered ev = true).

#[export] Instance ordered_ok_dec ev v A : Decision (ordered_ok ev v A).
Proof.
  unfold ordered_ok. destruct (ev_ooo ev); [apply _|].
  apply and_dec; [destruct (ev_gap ev); apply _|apply _].
Defined.

Definition valid_event (ev : event) (v : VP8M om) (A : gmap Z Z) : Prop :=
  well_sent ev /\ ordered_ok ev v A.

Record stream_inv (A : gmap Z Z) (v : VP8M om) : Prop := {
  s_follows : follows (pictureIdWrapHandler v);
  s_aligned : extLastPictureId v = newest v - pictureIdOffset v;
  s_last : -1 <= extLastPictureId v <= newest v + 2 ^ 30;
  s_assigned : forall k m, A !! k = Some m -> k <= newest v /\ -1 <= m <= extLastPictureId v;
  s_mono : forall j k m n, A !! j = Some m -> A !! k = Some n -> j < k -> m < n;
  s_newest : match A !! newest v with
             | Some m => m = extLastPictureId v
             | None => is_Some (Get (newest v) (droppedPictureIds v)) \/ A = ∅
             end;
  s_dropped : forall k b, Get k (droppedPictureIds v) = Some b -> A !! k = None /\ k <= newest v;
  s_missing : forall k off, Get k (missingPictureIds v) = Some off -> A !! k = Some (k - off);
  s_exempted : forall k b, Get k (exemptedPictureIds v) = Some b -> is_Some (A !! k);
}.

Lemma recordMissing_get n lo off dropped (missing : om Z) k :
  0 <= lo + 1 -> lo + Z.of_nat n < 2 ^ 31 ->
  Get k (recordMissing n lo off dropped missing) =
  if decide (lo <= k < lo + Z.of_nat n /\ Get k dropped = None) then Some off else Get k missing.
Proof.
  revert lo missing. induction n as [|n IH]; intros lo missing Hlo Hn; cbn [recordMissing].
  { rewrite decide_False by lia. done. }
  rewrite i32_small by lia. rewrite IH by lia.
  destruct (Get lo dropped) as [b|] eqn:E.
  - destruct (decide (k = lo)) as [->|]; repeat case_decide; try done; exfalso; naive_solver lia.
  - rewrite Get_set. repeat case_decide; subst; try done; exfalso; try naive_solver lia.
Qed.

Lemma assignRange_get n lo off dropped A k :
  assignRange n lo off dropped A !! k =
  if decide (lo <= k < lo + Z.of_nat n /\ Get k dropped = None) then Some (k - off) else A !! k.
Proof.
  revert lo A. induction n as [|n IH]; intros lo A; cbn [assignRange].
  { rewrite decide_False by lia. done. }
  rewrite IH. destruct (Get lo dropped) as [b|] eqn:E.
  - destruct (decide (k = lo)) as [->|]; repeat case_decide; try done; exfalso; naive_solver lia.
  - destruct (decide (k = lo)) as [->|].
    + rewrite lookup_insert_eq. repeat case_decide; try done; exfalso; naive_solver lia.
    + rewrite lookup_insert_ne by done. repeat case_decide; try done; exfalso; naive_solver lia.
Qed.

(** The state after the handler has seen picture [pic] of an in-order packet. *)
Definition advanced (pic : Z) (h : VP8PictureIdWrapHandler) (v : VP8M om) : VP8M om :=
  v <| pictureIdWrapHandler := UpdateMaxPictureId pic true h |>.

Lemma step_unwrap ev v A :
  stream_inv A v -> valid_event ev v A ->
  exists h, Unwrap (PictureID (ev_vp8 ev)) (M (ev_vp8 ev)) (pictureIdWrapHandler v) = (h, ev_pic ev) /\
    maxPictureId h = newest v /\
    (ev_pic ev <= newest v -> h = pictureIdWrapHandler v) /\
    (newest v <= ev_pic ev -> follows (UpdateMaxPictureId (ev_pic ev) true h)).
Proof.
  intros I0 ((_ & _ & _ & HM & Hpid & Hpic) & Hord). unfold ordered_ok in Hord. rewrite HM, Hpid.
  destruct (Unwrap_exact (pictureIdWrapHandler v) (ev_pic ev)) as (h & Hu & Hl & Hm & Hf).
  - apply I0.
  - done.
  - fold (newest v). destruct (ev_ooo ev); [lia|]. destruct Hord as [Hord _].
    destruct (ev_gap ev); lia.
  - exists h. fold (newest v) in *. done.
Qed.

(** The offset in force for a picture from the newest one on. *)
Lemma offset_range A v : stream_inv A v -> - 2 ^ 30 <= pictureIdOffset v <= 2 ^ 30.
Proof.
  intros I0. pose proof (s_aligned _ _ I0). pose proof (s_last _ _ I0).
  pose proof (f_max _ (s_follows _ _ I0)). unfold newest in *. lia.
Qed.

(** Assigning [pic], at or after the newest picture, keeps the assignment monotone. *)
Lemma insert_newest_mono A v pic :
  stream_inv A v -> newest v <= pic -> (pic = newest v -> A !! newest v <> None) ->
  let m := pic - pictureIdOffset v in
  forall j k x y, <[pic := m]> A !! j = Some x -> <[pic := m]> A !! k = Some y -> j < k -> x < y.
Proof.
  intros I0 Hle Hin m j k x y Hj Hk Hjk.
  pose proof (s_aligned _ _ I0) as Hal. pose proof (s_newest _ _ I0) as Hn.
  apply lookup_insert_Some in Hj as [[<- <-]|[Hnej Hj]];
    apply lookup_insert_Some in Hk as [[<- <-]|[Hnek Hk]]; [lia| | |by eapply s_mono].
  - destruct (s_assigned _ _ I0 _ _ Hk). lia.
  - destruct (Z.eq_dec pic (newest v)) as [->|].
    + destruct (A !! newest v) as [mm|] eqn:E; [|by destruct Hin].
      pose proof (s_mono _ _ I0 j (newest v) x mm Hj E Hjk). lia.
    + destruct (s_assigned _ _ I0 _ _ Hj). lia.
Qed.

(** Forwarding [pic], whatever maps and assignment the step builds. *)
Lemma forward_inv A v A' h vp8 pic missing exempted :
  stream_inv A v -> newest v <= pic < 2 ^ 30 -> follows (UpdateMaxPictureId pic true h) ->
  let off := pictureIdOffset v in
  A' !! pic = Some (pic - off) ->
  (forall k m, A' !! k = Some m -> k <= pic /\ -1 <= m <= pic - off) ->
  (forall j k m n, A' !! j = Some m -> A' !! k = Some n -> j < k -> m < n) ->
  (forall k b, Get k (droppedPictureIds v) = Some b -> A' !! k = None) ->
  (forall k o, Get k missing = Some o -> A' !! k = Some (k - o)) ->
  (forall k b, Get k exempted = Some b -> is_Some (A' !! k)) ->
  let v1 := advanced pic h v <| missingPictureIds := missing |> <| exemptedPictureIds := exempted |> in
  stream_inv A' (fst (forward vp8 pic v1)) /\
  extLastPictureId (fst (forward vp8 pic v1)) = pic - off.
Proof.
  intros I0 Hpic Hf off Hp Hb Hmono Hdr Hmi Hex v1.
  pose proof (s_aligned _ _ I0) as Hal. pose proof (s_last _ _ I0) as Hlast.
  pose proof (offset_range _ _ I0) as Hoff. fold off in Hal, Hoff.
  pose proof (f_max _ (s_follows _ _ I0)) as Hmax. fold (newest v) in Hmax.
  assert (i32 (pic - off) = pic - off) as Hi by (apply i32_small; lia).
  assert (extLastPictureId (fst (forward vp8 pic v1)) = pic - off) as Hel by exact Hi.
  split; [|done].
  assert (newest (fst (forward vp8 pic v1)) = pic) as Hnew by done.
  constructor; rewrite ?Hel, ?Hnew; try done.
  - lia.
  - by rewrite Hp.
  - intros k b Hk. split; [by eapply Hdr|]. destruct (s_dropped _ _ I0 k b Hk). lia.
Qed.

Lemma advanced_same pic h v :
  advanced pic h v = advanced pic h v <| missingPictureIds := missingPictureIds v |>
                       <| exemptedPictureIds := exemptedPictureIds v |>.
Proof. by destruct v. Qed.

Lemma insert_newest_sub A v pic k m :
  stream_inv A v -> newest v <= pic -> A !! k = Some m ->
  <[pic := pic - pictureIdOffset v]> A !! k = Some m.
Proof.
  intros I0 Hle Hk. destruct (decide (k = pic)) as [->|]; [|by rewrite lookup_insert_ne].
  destruct (s_assigned _ _ I0 _ _ Hk) as (? & _). assert (pic = newest v) as -> by lia.
  pose proof (s_newest _ _ I0) as Hn. rewrite Hk in Hn. rewrite lookup_insert_eq.
  pose proof (s_aligned _ _ I0). f_equal. lia.
Qed.

Lemma contiguous_inv A v h vp8 pic :
  stream_inv A v -> newest v <= pic < 2 ^ 30 -> follows (UpdateMaxPictureId pic true h) ->
  (pic = newest v -> A !! newest v <> None) ->
  let r := forward vp8 pic (advanced pic h v) in
  stream_inv (<[pic := extLastPictureId (fst r)]> A) (fst r) /\
  extLastPictureId (fst r) = pic - pictureIdOffset v.
Proof.
  intros I0 Hpic Hf Hin. cbv zeta. rewrite advanced_same.
  pose proof (s_aligned _ _ I0) as Hal.
  assert (Hex : extLastPictureId (fst (forward vp8 pic (advanced pic h v
      <| missingPictureIds := missingPictureIds v |>
      <| exemptedPictureIds := exemptedPictureIds v |>))) = pic - pictureIdOffset v).
  { pose proof (offset_range _ _ I0). pose proof (f_max _ (s_follows _ _ I0)).
    unfold newest in *. cbn -[i32]. apply i32_small. lia. }
  rewrite Hex. split; [|done]. eapply forward_inv; try done.
  - apply lookup_insert_eq.
  - intros k m Hk. apply lookup_insert_Some in Hk as [[<- <-]|[Hne Hk]].
    + pose proof (s_last _ _ I0). lia.
    + destruct (s_assigned _ _ I0 _ _ Hk). lia.
  - intros j k x y. by apply (insert_newest_mono A v pic I0 ltac:(lia) Hin).
  - intros k b Hk. destruct (s_dropped _ _ I0 k b Hk) as [Hn Hle].
    rewrite lookup_insert_ne; [done|]. intros <-. assert (pic = newest v) as -> by lia. by apply Hin.
  - intros k o Hk. eapply insert_newest_sub; [done|lia|]. by apply (s_missing _ _ I0).
  - intros k b Hk. destruct (s_exempted _ _ I0 k b Hk) as [m Hm]. exists m.
    eapply insert_newest_sub; (done || lia).
Qed.

Lemma gap_assign_get A v pic k :
  stream_inv A v -> newest v <= pic -> (pic = newest v -> A !! newest v <> None) ->
  assignRange (gapLength (newest v) pic) (newest v) (pictureIdOffset v) (droppedPictureIds v) A !! k =
  if decide (newest v <= k <= pic /\ Get k (droppedPictureIds v) = None)
  then Some (k - pictureIdOffset v) else A !! k.
Proof.
  intros I0 Hle Hin. rewrite assignRange_get. unfold gapLength.
  repeat case_decide; try done; exfalso; naive_solver lia.
Qed.

(** A gap assigns numbers to the newest picture and to those after it. *)
Lemma gap_assign_ok A v pic :
  stream_inv A v -> newest v <= pic -> (pic = newest v -> A !! newest v <> None) ->
  let A' := assignRange (gapLength (newest v) pic) (newest v) (pictureIdOffset v)
              (droppedPictureIds v) A in
  (forall k m, A !! k = Some m -> A' !! k = Some m) /\
  A' !! pic = Some (pic - pictureIdOffset v) /\
  (forall k m, A' !! k = Some m -> k <= pic /\ -1 <= m <= pic - pictureIdOffset v) /\
  (forall j k m n, A' !! j = Some m -> A' !! k = Some n -> j < k -> m < n) /\
  (forall k b, Get k (droppedPictureIds v) = Some b -> A' !! k = None).
Proof.
  intros I0 Hle Hin A'. pose proof (s_aligned _ _ I0) as Hal.
  pose proof (s_newest _ _ I0) as Hn. pose proof (f_max _ (s_follows _ _ I0)) as Hmax.
  fold (newest v) in Hmax.
  assert (Hget := gap_assign_get A v pic). fold A' in Hget.
  assert (Hpd : Get pic (droppedPictureIds v) = None).
  { destruct (Get pic (droppedPictureIds v)) as [b|] eqn:E; [|done].
    destruct (s_dropped _ _ I0 _ _ E). assert (pic = newest v) as -> by lia. naive_solver. }
  pose proof (s_last _ _ I0) as Hlast. split; [|split; [|split; [|split]]].
  - intros k m Hk. rewrite Hget by done. case_decide as Hd; [|done].
    destruct (s_assigned _ _ I0 _ _ Hk) as (? & _). assert (k = newest v) as -> by lia.
    rewrite Hk in Hn. f_equal. lia.
  - rewrite Hget by done. rewrite decide_True; [done|]. split; [lia|done].
  - intros k m Hk. rewrite Hget in Hk by done. case_decide; [injection Hk as <-; lia|].
    destruct (s_assigned _ _ I0 _ _ Hk). lia.
  - intros j k m n Hj Hk Hjk. rewrite Hget in Hj, Hk by done.
    destruct (decide _) as [[Hjr _]|] in Hj; destruct (decide _) as [[Hkr Hkd]|] in Hk.
    + injection Hj as <-. injection Hk as <-. lia.
    + destruct (s_assigned _ _ I0 _ _ Hk). lia.
    + injection Hk as <-. destruct (s_assigned _ _ I0 _ _ Hj) as (_ & Hm).
      destruct (Z.eq_dec k (newest v)) as [->|]; [|lia].
      destruct (A !! newest v) as [mm|] eqn:E.
      * pose proof (s_mono _ _ I0 j (newest v) m mm Hj E Hjk). lia.
      * destruct Hn as [Hn| ->]; [rewrite Hkd in Hn; by destruct Hn|done].
    + by eapply (s_mono _ _ I0).
  - intros k b Hk. rewrite Hget by done. rewrite decide_False by naive_solver.
    by eapply (s_dropped _ _ I0).
Qed.

Lemma gap_inv A v h vp8 pic temporal maxT :
  stream_inv A v -> newest v <= pic < 2 ^ 30 -> follows (UpdateMaxPictureId pic true h) ->
  (pic = newest v -> A !! newest v <> None) ->
  let r := forward vp8 pic (gapUpdate (newest v) pic temporal maxT (advanced pic h v)) in
  stream_inv (assignRange (gapLength (newest v) pic) (newest v) (pictureIdOffset v)
                (droppedPictureIds v) A) (fst r) /\
  extLastPictureId (fst r) = pic - pictureIdOffset v.
Proof.
  intros I0 Hpic Hf Hin. cbv zeta.
  destruct (gap_assign_ok A v pic I0 ltac:(lia) Hin) as (Hsub & Hp & Hb & Hmono & Hdr).
  set (A' := assignRange _ _ _ _ _) in *.
  set (missing := recordMissing (Z.to_nat (pic - newest v + 1)) (newest v) (pictureIdOffset v)
                    (droppedPictureIds v) (missingPictureIds v)).
  set (ex := if temporal >? maxT then
               trim exemptedPictureIdsThreshold (Set_ pic true (exemptedPictureIds v))
             else exemptedPictureIds v).
  assert (gapUpdate (newest v) pic temporal maxT (advanced pic h v) =
          advanced pic h v <| missingPictureIds := trim missingPictureIdsThreshold missing |>
            <| exemptedPictureIds := ex |>) as ->.
  { unfold gapUpdate, ex. by destruct (temporal >? maxT). }
  eapply forward_inv; try done.
  - intros k o Hk. apply trim_sub in Hk; [|done]. unfold missing in Hk.
    pose proof (f_max _ (s_follows _ _ I0)) as Hmax. fold (newest v) in Hmax.
    rewrite recordMissing_get in Hk by lia.
    unfold A'. rewrite assignRange_get. unfold gapLength. case_decide as Hd.
    + injection Hk as <-. done.
    + by apply (s_missing _ _ I0).
  - intros k b Hk. unfold ex in Hk.
    assert (k = pic \/ Get k (exemptedPictureIds v) = Some b) as [->|Hk'].
    { destruct (temporal >? maxT); [|by right]. apply trim_sub in Hk; [|done].
      rewrite Get_set in Hk. case_decide; auto. }
    + by eexists.
    + destruct (s_exempted _ _ I0 k b Hk') as [m Hm]. exists m. by apply Hsub.
Qed.

Lemma filter_inv A v h vp8 pic :
  stream_inv A v -> newest v <= pic <= newest v + 1 -> pic < 2 ^ 30 -> I vp8 = true ->
  follows (UpdateMaxPictureId pic true h) ->
  (pic = newest v -> h = pictureIdWrapHandler v) ->
  let v' := filterPicture vp8 (newest v) pic (advanced pic h v) in
  stream_inv A v' /\ extLastPictureId v' = extLastPictureId v.
Proof.
  intros I0 Hpic Hb HI Hf Hsame. cbv zeta. unfold filterPicture. rewrite HI. cbn [andb].
  destruct (Z.eqb_spec (newest v) pic) as [E|Hne]; cbn [negb].
  - split; [|done]. subst pic. rewrite Hsame in * by done.
    assert (advanced (newest v) (pictureIdWrapHandler v) v = v) as ->; [|done].
    unfold advanced, UpdateMaxPictureId, newest. pose proof (f_bit _ (s_follows _ _ I0)) as Hbit.
    destruct v as [[mx mb tw lw]]. cbn in *. by subst mb.
  - assert (pic = newest v + 1) as -> by lia.
    pose proof (offset_range _ _ I0) as Hoff.
    pose proof (s_aligned _ _ I0). pose proof (s_last _ _ I0).
    split; [|done]. set (d := trim droppedPictureIdsThreshold _).
    set (v' := advanced _ _ _ <| droppedPictureIds := d |> <| pictureIdOffset := _ |>).
    assert (newest v' = newest v + 1) as Hn' by done.
    assert (pictureIdOffset v' = pictureIdOffset v + 1) as Ho' by (cbn; apply i32_small; lia).
    assert (Hd : forall k b, Get k d = Some b -> k = newest v + 1 \/ Get k (droppedPictureIds v) = Some b).
    { intros k b Hk. apply trim_sub in Hk; [|done]. rewrite Get_set in Hk. case_decide; auto. }
    assert (Hnone : A !! (newest v + 1) = None).
    { destruct (A !! (newest v + 1)) eqn:E; [|done]. destruct (s_assigned _ _ I0 _ _ E). lia. }
    constructor; rewrite ?Hn', ?Ho'; try apply I0; try done.
    + change (extLastPictureId v') with (extLastPictureId v). lia.
    + change (extLastPictureId v') with (extLastPictureId v). lia.
    + intros k m Hk. change (extLastPictureId v') with (extLastPictureId v).
      destruct (s_assigned _ _ I0 _ _ Hk). lia.
    + rewrite Hnone. left. exists true. change (droppedPictureIds v') with d.
      apply trim_set_newest; [done|]. change (droppedPictureIds (advanced (newest v + 1) h v))
        with (droppedPictureIds v). destruct (Get _ _) as [b|] eqn:E; [|done].
      destruct (s_dropped _ _ I0 _ _ E). lia.
    + intros k b Hk. change (droppedPictureIds v') with d in Hk.
      destruct (Hd k b Hk) as [->|Hk']; [split; [done|lia]|].
      destruct (s_dropped _ _ I0 k b Hk'). split; [done|lia].
Qed.

(** What the receiver gets for a forwarded packet of picture [ev_pic]. *)
Definition output_ok (A : gmap Z Z) (ev : event) (out : res vp8munger_error (Z * list Z)) : Prop :=
  out = Err ErrFilteredVP8TemporalLayer \/ out = Err ErrOutOfOrderVP8PictureIdCacheMiss \/
  exists m tl0 key, A !! ev_pic ev = Some m /\ byte tl0 /\
    parses_as (ev_vp8 ev) (m mod 32768) tl0 key out.

Lemma forward_output ev (v : VP8M om) A m :
  Vp8.wf (ev_vp8 ev) -> I (ev_vp8 ev) = true -> A !! ev_pic ev = Some m ->
  extLastPictureId (fst (forward (ev_vp8 ev) (ev_pic ev) v)) = m ->
  output_ok A ev (snd (forward (ev_vp8 ev) (ev_pic ev) v)).
Proof.
  intros Hwf HI HA Hm. right. right. exists m. do 2 eexists. split; [done|]. split; [apply u8_range|].
  rewrite <- pid15_mod, <- Hm. apply marshalled_parses; [done|done|apply pid15_range|apply u8_range].
Qed.

Lemma step_eq ev v A h :
  valid_event ev v A ->
  Unwrap (PictureID (ev_vp8 ev)) (M (ev_vp8 ev)) (pictureIdWrapHandler v) = (h, ev_pic ev) ->
  maxPictureId h = newest v ->
  step ev v =
  if ev_ooo ev then
    let v := v <| pictureIdWrapHandler := h |> in
    match Get (ev_pic ev) (missingPictureIds v) with
    | None => (v, Err ErrOutOfOrderVP8PictureIdCacheMiss)
    | Some offset =>
      (v, marshalled (ev_vp8 ev) (mungedVP8 (ev_vp8 ev) (pid15 (i32 (ev_pic ev - offset)))
            (u8 (TL0PICIDX (ev_vp8 ev) - tl0PicIdxOffset v)) (u8 (KEYIDX (ev_vp8 ev) - keyIdxOffset v))))
    end
  else
    let v1 := advanced (ev_pic ev) h v in
    if ev_gap ev then
      forward (ev_vp8 ev) (ev_pic ev)
        (gapUpdate (newest v) (ev_pic ev) (Temporal (Layers (ev_pkt ev))) (ev_maxT ev) v1)
    else if filtered ev then
      match Get (ev_pic ev) (exemptedPictureIds v) with
      | None => (filterPicture (ev_vp8 ev) (newest v) (ev_pic ev) v1, Err ErrFilteredVP8TemporalLayer)
      | Some _ => forward (ev_vp8 ev) (ev_pic ev) v1
      end
    else forward (ev_vp8 ev) (ev_pic ev) v1.
Proof.
  intros ((Hp & _ & _ & HM & _) & _) Hu Hmax. unfold step, UpdateAndGet. rewrite Hp, Hu, HM.
  unfold MaxPictureId. change (pictureIdWrapHandler (v <| pictureIdWrapHandler := h |>)) with h.
  rewrite Hmax. reflexivity.
Qed.

(** The numbers given out between two states. *)
Definition covers (v v' : VP8M om) (A : gmap Z Z) : Prop :=
  forall m, extLastPictureId v < m <= extLastPictureId v' -> exists k, A !! k = Some m.

(** Every event keeps the invariant, extends the assignment without skipping a
    number and gives a forwarded packet the number of its picture. *)
Lemma step_inv ev v A :
  stream_inv A v -> valid_event ev v A ->
  let v' := fst (step ev v) in
  let A' := assign ev v v' (is_ok (snd (step ev v))) A in
  stream_inv A' v' /\ (forall k m, A !! k = Some m -> A' !! k = Some m) /\ covers v v' A' /\
  output_ok A' ev (snd (step ev v)).
Proof.
  intros I0 Hv. cbv zeta. destruct (step_unwrap ev v A I0 Hv) as (h & Hu & Hmax & Hlate & Hf).
  rewrite (step_eq ev v A h Hv Hu Hmax). unfold assign.
  destruct Hv as ((Hp & Hwf & HI & HM & Hpid & Hpic) & Hord). unfold ordered_ok in Hord.
  destruct (ev_ooo ev).
  { rewrite Hlate by lia. cbv zeta.
    assert (v <| pictureIdWrapHandler := pictureIdWrapHandler v |> = v) as -> by (by destruct v).
    destruct (Get (ev_pic ev) (missingPictureIds v)) as [off|] eqn:Em; cbn [fst snd];
      (split; [done|]; split; [done|]; split; [unfold covers; lia|]); [right; right|by right; left].
    pose proof (s_missing _ _ I0 _ _ Em) as Ha.
    pose proof (s_assigned _ _ I0 _ _ Ha). pose proof (s_last _ _ I0).
    pose proof (f_max _ (s_follows _ _ I0)) as Hmx. fold (newest v) in Hmx.
    exists (ev_pic ev - off). do 2 eexists. split; [done|]. split; [apply u8_range|].
    rewrite <- pid15_mod, i32_small by lia.
    apply marshalled_parses; [done|done|apply pid15_range|apply u8_range]. }
  destruct Hord as [Hord Hdrop]. cbv zeta.
  assert (newest v <= ev_pic ev < 2 ^ 30) as Hrange by (destruct (ev_gap ev); lia).
  specialize (Hf ltac:(lia)). destruct (ev_gap ev).
  - assert (ev_pic ev = newest v -> A !! newest v <> None) as Hin by naive_solver.
    destruct (gap_inv A v h (ev_vp8 ev) (ev_pic ev) (Temporal (Layers (ev_pkt ev))) (ev_maxT ev)
                I0 Hrange Hf Hin) as [Hinv Hel].
    destruct (gap_assign_ok A v (ev_pic ev) I0 ltac:(lia) Hin) as (Hsub & Hpic' & _).
    split; [exact Hinv|]. split; [exact Hsub|]. split; [|by eapply forward_output].
    unfold covers. rewrite Hel. pose proof (s_aligned _ _ I0) as Hal. intros m Hm.
    exists (m + pictureIdOffset v). rewrite gap_assign_get by (done || lia).
    rewrite decide_True; [f_equal; lia|]. split; [lia|].
    destruct (Get _ _) as [b|] eqn:E; [|done]. destruct (s_dropped _ _ I0 _ _ E). lia.
  - destruct (filtered ev && negb (bool_decide (is_Some (Get (ev_pic ev) (exemptedPictureIds v)))))
      eqn:Efil.
    + apply andb_true_iff in Efil as [-> Hex]. apply negb_true_iff, bool_decide_eq_false in Hex.
      destruct (Get (ev_pic ev) (exemptedPictureIds v)); [by destruct Hex|]. cbn [fst snd is_ok].
      destruct (filter_inv A v h (ev_vp8 ev) (ev_pic ev) I0 Hord ltac:(lia) HI Hf
                  ltac:(intros; apply Hlate; lia)) as [Hinv Hsame].
      split; [exact Hinv|]. split; [done|]. split; [unfold covers; lia|by left].
    + assert (ev_pic ev = newest v -> A !! newest v <> None) as Hin.
      { intros E HA. destruct (Hdrop E HA) as [_ Hfil]. rewrite Hfil in Efil. cbn [andb] in Efil.
        apply negb_false_iff, bool_decide_eq_true in Efil as [b Hb].
        destruct (s_exempted _ _ I0 _ _ Hb). rewrite E in *. congruence. }
      destruct (contiguous_inv A v h (ev_vp8 ev) (ev_pic ev) I0 Hrange Hf Hin) as [Hinv Hel].
      assert ((if filtered ev then
                 match Get (ev_pic ev) (exemptedPictureIds v) with
                 | Some _ => forward (ev_vp8 ev) (ev_pic ev) (advanced (ev_pic ev) h v)
                 | None => (filterPicture (ev_vp8 ev) (newest v) (ev_pic ev) (advanced (ev_pic ev) h v),
                            Err ErrFilteredVP8TemporalLayer)
                 end
               else forward (ev_vp8 ev) (ev_pic ev) (advanced (ev_pic ev) h v))
              = forward (ev_vp8 ev) (ev_pic ev) (advanced (ev_pic ev) h v)) as ->.
      { destruct (filtered ev); [|done]. cbn [andb] in Efil.
        apply negb_false_iff, bool_decide_eq_true in Efil as [b ->]. done. }
      assert (Hok : is_ok (snd (forward (ev_vp8 ev) (ev_pic ev) (advanced (ev_pic ev) h v))) = true).
      { destruct (forward_output ev (advanced (ev_pic ev) h v)
          (<[ev_pic ev := ev_pic ev - pictureIdOffset v]> A) _ Hwf HI (lookup_insert_eq _ _ _) Hel)
          as [E|[E|(? & ? & ? & _ & _ & ? & E & _)]];
          [exfalso..|by rewrite E];
          unfold forward, marshalled in E; cbn [snd] in E; by destruct (Marshal _) in E. }
      rewrite Hok. rewrite Hel in *. split; [exact Hinv|]. split.
      * intros k m Hk. eapply insert_newest_sub; (done || lia).
      * split; [|eapply forward_output; [done..|apply lookup_insert_eq|done]].
        unfold covers. rewrite Hel. pose proof (s_aligned _ _ I0) as Hal. intros m Hm.
        exists (ev_pic ev). rewrite lookup_insert_eq. f_equal. lia.
Qed.


Fixpoint run_events (evs : list event) (v : VP8M om) (A : gmap Z Z)
  : VP8M om * gmap Z Z * list (event * res vp8munger_error (Z * list Z)) :=
  match evs with
  | [] => (v, A, [])
  | ev :: evs =>
    let '(v', out) := step ev v in
    let '(v'', A'', outs) := run_events evs v' (assign ev v v' (is_ok out) A) in
    (v'', A'', (ev, out) :: outs)
  end.

Fixpoint valid_events (evs : list event) (v : VP8M om) (A : gmap Z Z) : Prop :=
  match evs with
  | [] => True
  | ev :: evs =>
    valid_event ev v A /\
    valid_events evs (fst (step ev v)) (assign ev v (fst (step ev v)) (is_ok (snd (step ev v))) A)
  end.

(** A decidable way to check a concrete trace. *)
Fixpoint orders_ok (evs : list event) (v : VP8M om) (A : gmap Z Z) : bool :=
  match evs with
  | [] => true
  | ev :: evs =>
    bool_decide (ordered_ok ev v A) &&
    (let r := step ev v in orders_ok evs (fst r) (assign ev v (fst r) (is_ok (snd r)) A))
  end.

Lemma valid_events_check evs v A :
  Forall well_sent evs -> orders_ok evs v A = true -> valid_events evs v A.
Proof.
  intros Hw. revert v A. induction Hw as [|ev evs Hev _ IH]; intros v A; cbn; [done|].
  intros [H1%bool_decide_eq_true H2]%andb_true_iff. split; [by split|]. by apply IH.
Qed.

Lemma output_ok_sub A A' ev out :
  (forall k m, A !! k = Some m -> A' !! k = Some m) -> output_ok A ev out -> output_ok A' ev out.
Proof.
  intros Hs [?|[?|(m & tl & key & Hm & ?)]]; [by left|by right; left|].
  right. right. exists m, tl, key. split; [by apply Hs|done].
Qed.

Lemma run_events_inv evs v A v' A' outs :
  stream_inv A v -> valid_events evs v A -> run_events evs v A = (v', A', outs) ->
  stream_inv A' v' /\ (forall k m, A !! k = Some m -> A' !! k = Some m) /\ covers v v' A' /\
  Forall (fun '(ev, out) => output_ok A' ev out) outs.
Proof.
  revert v A v' A' outs. induction evs as [|ev evs IH]; intros v A v' A' outs I0 Hv; cbn [run_events].
  { intros [= <- <- <-]. split; [done|]. split; [done|]. split; [|done]. intros m Hm. lia. }
  destruct Hv as [Hv Hvs]. destruct (step_inv ev v A I0 Hv) as (I1 & Hsub & Hcov & Hout).
  destruct (step ev v) as [v1 out]. cbn [fst snd] in *.
  set (A1 := assign _ _ _ _ _) in *.
  destruct (run_events evs v1 A1) as [[v2 A2] outs2] eqn:E. intros [= <- <- <-].
  destruct (IH v1 A1 v2 A2 outs2 I1 Hvs E) as (I2 & Hsub2 & Hcov2 & Houts).
  split; [done|]. split; [auto|]. split.
  - intros m Hm. destruct (Z.le_gt_cases m (extLastPictureId v1)).
    + destruct (Hcov m ltac:(lia)) as [k Hk]. eauto.
    + apply Hcov2. lia.
  - constructor; [|done]. by eapply output_ok_sub.
Qed.

(** The state a switch to a new source leaves. *)
Lemma UpdateOffsets_start p vp8 v :
  Payload p = PayloadVP8 vp8 -> Vp8.wf vp8 -> I vp8 = true -> M vp8 = true ->
  pictureIdUsed v = true -> -1 <= extLastPictureId v < 2 ^ 30 ->
  stream_inv ∅ (UpdateOffsets p v) /\ extLastPictureId (UpdateOffsets p v) = extLastPictureId v /\
  newest (UpdateOffsets p v) = PictureID vp8 - 1.
Proof.
  intros Hp Hwf HI HM Hu He. pose proof (wf_pid vp8 Hwf) as Hpid. rewrite HI, HM in Hpid.
  pose proof (Init_follows (PictureID vp8) (pictureIdWrapHandler v) Hpid) as Hf.
  unfold UpdateOffsets. rewrite Hp, Hu, HM.
  set (v' := _ <| exemptedPictureIds := NewOrderedMap |>).
  assert (Hpw : pictureIdWrapHandler v' = Init (i32 (PictureID vp8 - 1)) true (pictureIdWrapHandler v))
    by (unfold v'; destruct (tl0PicIdxUsed _); destruct (keyIdxUsed _); reflexivity).
  assert (Hel : extLastPictureId v' = extLastPictureId v)
    by (unfold v'; destruct (tl0PicIdxUsed _); destruct (keyIdxUsed _); reflexivity).
  assert (Hof : pictureIdOffset v' = i32 (i32 (PictureID vp8 - extLastPictureId v) - 1))
    by (unfold v'; destruct (tl0PicIdxUsed _); destruct (keyIdxUsed _); reflexivity).
  assert (Hnew : newest v' = PictureID vp8 - 1).
  { unfold newest. rewrite Hpw. cbn -[i32]. apply i32_small. lia. }
  rewrite !i32_small in Hof by (rewrite ?i32_small; lia).
  split; [|done]. constructor; rewrite ?Hpw, ?Hel, ?Hnew; try done; try lia.
  - by right.
  - intros k b. unfold v'. cbn. by rewrite Get_new.
  - intros k b. unfold v'. cbn. by rewrite Get_new.
  - intros k b. unfold v'. cbn. by rewrite Get_new.
Qed.

(** C6: after a switch to a source with 15-bit picture ids, whatever temporal
    filtering, losses, gaps and late packets follow in [valid_events], every
    forwarded packet leaves with the number of its picture: all packets of a
    picture carry the same number, late ones included, later pictures have
    later numbers, the numbers continue where the previous source stopped
    without a hole, and the rewritten header parses back with no other change.
    The events are valid when every packet has a 15-bit id; a late one is less
    than 2^14 pictures behind the newest; one that directly follows is of the
    newest picture or the next, and one after a gap less than 2^14 pictures
    ahead; and when the first packet received of a picture was filtered, the
    others that are not late come without a gap and are filtered too.  The last
    condition is needed: a packet of a filtered picture that comes after a gap
    is forwarded with the number of the picture before
    ([filtered_picture_reuses_id]). *)
Theorem munger_pictures_continuous p vp8 v evs v' A outs :
  Payload p = PayloadVP8 vp8 -> Vp8.wf vp8 -> I vp8 = true -> M vp8 = true ->
  pictureIdUsed v = true -> -1 <= extLastPictureId v < 2 ^ 30 ->
  valid_events evs (UpdateOffsets p v) ∅ ->
  run_events evs (UpdateOffsets p v) ∅ = (v', A, outs) ->
  Forall (fun '(ev, out) => output_ok A ev out) outs /\
  (forall j k m n, A !! j = Some m -> A !! k = Some n -> j < k -> m < n) /\
  (forall m, extLastPictureId v < m <= extLastPictureId v' -> exists k, A !! k = Some m).
Proof.
  intros Hp Hwf HI HM Hu He Hv Hrun.
  destruct (UpdateOffsets_start p vp8 v Hp Hwf HI HM Hu He) as (I0 & Hel & _).
  destruct (run_events_inv _ _ _ _ _ _ I0 Hv Hrun) as (I1 & _ & Hcov & Hout).
  split; [done|]. split; [apply I1|]. intros m Hm. apply Hcov. by rewrite Hel.
Qed.

(** The caches never outgrow their thresholds by an update: after any
    packet they hold at most what they held before or their threshold. *)
Theorem caches_bounded p ooo gap maxT v :
  let v' := fst (UpdateAndGet p ooo gap maxT v) in
  (Len (missingPictureIds v) <= missingPictureIdsThreshold ->
   Len (missingPictureIds v') <= missingPictureIdsThreshold) /\
  (Len (droppedPictureIds v) <= droppedPictureIdsThreshold ->
   Len (droppedPictureIds v') <= droppedPictureIdsThreshold) /\
  (Len (exemptedPictureIds v) <= exemptedPictureIdsThreshold ->
   Len (exemptedPictureIds v') <= exemptedPictureIdsThreshold).
Proof.
  cbv zeta. unfold UpdateAndGet. destruct (Payload p) as [|vp8|]; [by cbn| |by cbn].
  destruct (Unwrap _ _ _) as [h pic]. destruct ooo; [destruct (Get _ _); by cbn|].
  destruct gap; [|destruct (_ >? _); [destruct (Get _ _)|]].
  - unfold forward, gapUpdate. cbn [fst]. case_if; cbn;
      (split; [intros _; by apply trim_len|]); (split; [done|]); [intros _; by apply trim_len|done].
  - by cbn.
  - unfold filterPicture. case_if; cbn; [|done].
    split; [done|]. split; [intros _; by apply trim_len|done].
  - by cbn.
Qed.
End Stream.

(** ** A concrete stream *)

(** A descriptor with all fields, and packets of pictures around the 15-bit wrap. *)
Definition ex_vp8 (pid tl0 tid : Z) : VP8 :=
  mkVP8 0x90 true true true pid true tl0 true tid false true 5 6 false.

Lemma ex_vp8_wf pid tl0 tid :
  0 <= pid < 32768 -> byte tl0 -> 0 <= tid < 4 -> Vp8.wf (ex_vp8 pid tl0 tid).
Proof. intros. constructor; try (cbn; unfold byte; lia || done); reflexivity. Qed.

Definition ex_event (pic tid : Z) (ooo gap : bool) : event :=
  mkEvent (mkExtPacket (mkLayer 0 tid) 0 0 false 100 (PayloadVP8 (ex_vp8 (pic mod 32768) 7 tid))
             false None false)
    (ex_vp8 (pic mod 32768) 7 tid) pic ooo gap 1.

(** 32766, its successor filtered, the wrap, a gap over 32769, its late packet. *)
Definition ex_events : list event :=
  [ex_event 32766 0 false false; ex_event 32767 2 false false; ex_event 32767 2 false false;
   ex_event 32768 1 false false; ex_event 32770 0 false true; ex_event 32769 2 true false].

Definition ex_munger : VP8M alist := NewVP8 <| pictureIdUsed := true |> <| extLastPictureId := 126 |>.
Notation ex_start := (UpdateOffsets (ev_pkt (ex_event 32766 0 false false)) ex_munger) (only parsing).
Notation ex_result := (run_events ex_events ex_start ∅) (only parsing).

Lemma munger_pictures_continuous_witness :
  map (fun k => snd (fst ex_result) !! k) [32766; 32767; 32768; 32769; 32770]
    = [Some 127; None; Some 128; Some 129; Some 130] /\
  map (fun o => is_ok (snd o)) (snd ex_result) = [true; false; false; true; true; true] /\
  Forall (fun '(ev, out) => output_ok (snd (fst ex_result)) ev out) (snd ex_result).
Proof.
  split; [vm_compute; reflexivity|]. split; [vm_compute; reflexivity|].
  refine (proj1 (munger_pictures_continuous (ev_pkt (ex_event 32766 0 false false))
    (ex_vp8 32766 7 0) ex_munger ex_events (fst (fst ex_result)) (snd (fst ex_result)) (snd ex_result)
    _ _ _ _ _ _ _ _)).
  - reflexivity.
  - by apply ex_vp8_wf.
  - reflexivity.
  - reflexivity.
  - reflexivity.
  - cbn. lia.
  - apply valid_events_check; [|vm_compute; reflexivity].
    repeat constructor; try done; by apply ex_vp8_wf.
  - exact (triple_eta ex_result).
Defined.

(** A packet of a filtered picture that follows a gap is forwarded, and it
    carries the picture id of the previously forwarded picture. *)
Theorem filtered_picture_reuses_id :
  let evs := [ex_event 32766 0 false false; ex_event 32767 2 false false; ex_event 32767 2 false true] in
  map (fun o => match snd o with Ok (_, hdr) => ztake 4 hdr | Err _ => [] end)
      (snd (run_events evs ex_start ∅)) = [[0x90; 0xf0; 0x7f; 0x07]; []; [0x90; 0xf0; 0x7f; 0x07]].
Proof. vm_compute. reflexivity. Qed.

(** Unwrap and advance, over a list of received ids. *)
Fixpoint unwrap_all (ids : list (Z * bool)) (h : VP8PictureIdWrapHandler) : list Z :=
  match ids with
  | [] => []
  | (pid, m) :: ids =>
    let '(h, e) := Unwrap pid m h in e :: unwrap_all ids (UpdateMaxPictureId e m h)
  end.

(** A sender that wraps once in 7 bits, then extends to 15 bits and wraps
    there: the second wrap is not seen, so the newest picture is unwrapped
    behind all the previous ones. *)
Theorem mixed_wrap_goes_backwards :
  let ids := [(127, false); (0, false); (50, false); (100, false); (127, false)]
             ++ map (fun k => (128 + 60 * Z.of_nat k, true)) (seq 0 544) ++ [(0, true); (1, true)] in
  drop 547 (unwrap_all ids (Init 126 false (mkWrap 0 false 0 0))) = [32776; 32836; 128; 129].
Proof. vm_compute. reflexivity. Qed.
