(* ===== verification/DdBits.v ===== *)
(** * Bit streams of the dependency descriptor

    Models [BitStreamReader] and [BitStreamWriter]
    ([src/SERVER/pkg/sfu/rtpextension/dependencydescriptor/bitstreamreader.go],
    [bitstreamwriter.go]) byte by byte, and proves that they read and write
    the bit string of the buffer, most significant bit first. *)

From S2P Require Import Prelude.

Inductive dd_error :=
| EOF
| errInvalidBits          (** invalid number of bits *)
| errInvalidNumValues     (** invalid number of values / argument *)
| errInsufficientSpace
| errNoTemplate           (** no template found for the frame's layer *)
| errInvalidArguments     (** structure id or number of decode targets *)
| errInvalidTemplates
| errInvalidNextLayerIdc
| ErrDDReaderNoStructure
| ErrDDReaderTemplateWithoutStructure
| ErrDDReaderTooManyTemplates
| ErrDDReaderTooManyTemporalLayers
| ErrDDReaderTooManySpatialLayers
| ErrDDReaderInvalidTemplateIndex
| ErrDDReaderInvalidSpatialLayer
| ErrDDReaderNumDTIMismatch
| ErrDDReaderNumChainDiffsMismatch
| panicIndex              (** index out of range at run time *)
| panicNil                (** nil dereference at run time *)
| outOfFuel.              (** the model's bound on loops; never returned *)

#[export] Instance dd_error_eq_dec : EqDecision dd_error.
Proof. solve_decision. Defined.

(** ** The reader *)

Record BitStreamReader := mkReader {
  r_buf : list Z;
  r_pos : Z;
  remainingBits : Z;
}.
#[export] Instance eta_BitStreamReader : Eta BitStreamReader := fun b =>
  mkReader (r_buf b) (r_pos b) (remainingBits b).

Definition NewBitStreamReader (buf : list Z) : BitStreamReader := mkReader buf 0 (zlen buf * 8).

Definition RemainingBits (b : BitStreamReader) : Z := remainingBits b.

(** [b.buf[b.pos]] *)
Definition r_byte (b : BitStreamReader) : res dd_error Z := load panicIndex (r_buf b) (r_pos b).

(** [for bits >= 8 { .. }]; [n] is the number of whole bytes. *)
Fixpoint read_full (n : nat) (bits result : Z) (b : BitStreamReader)
  : BitStreamReader * res dd_error (Z * Z) :=
  match n with
  | O => (b, Ok (bits, result))
  | S n =>
    let bits := bits - 8 in
    match r_byte b with
    | Err e => (b, Err e)
    | Ok x => read_full n bits (Z.lor result (u64 (Z.shiftl x bits))) (b <| r_pos := r_pos b + 1 |>)
    end
  end.

Definition ReadBits (bits : Z) : M BitStreamReader dd_error Z := fun b =>
  if (bits <? 0) || (bits >? 64) then (b, Err errInvalidBits)
  else if remainingBits b <? bits then (b <| remainingBits := remainingBits b - bits |>, Err EOF)
  else
    let remainingBitsInFirstByte := remainingBits b mod 8 in
    let b := b <| remainingBits := remainingBits b - bits |> in
    if bits <? remainingBitsInFirstByte then
      match r_byte b with
      | Err e => (b, Err e)
      | Ok x => (b, Ok (Z.land (Z.shiftr x (remainingBitsInFirstByte - bits))
                               (u8 (Z.shiftl 1 bits - 1))))
      end
    else
      let '(b, r) :=
        if remainingBitsInFirstByte >? 0 then
          match r_byte b with
          | Err e => (b, Err e)
          | Ok x =>
            (b <| r_pos := r_pos b + 1 |>,
             Ok (bits - remainingBitsInFirstByte,
                 u64 (Z.shiftl (Z.land x (u8 (Z.shiftl 1 remainingBitsInFirstByte - 1)))
                               (bits - remainingBitsInFirstByte))))
          end
        else (b, Ok (bits, 0)) in
      match r with
      | Err e => (b, Err e)
      | Ok (bits, result) =>
        match read_full (Z.to_nat (bits / 8)) bits result b with
        | (b, Err e) => (b, Err e)
        | (b, Ok (bits, result)) =>
          if bits >? 0 then
            match r_byte b with
            | Err e => (b, Err e)
            | Ok x => (b, Ok (Z.lor result (Z.shiftr x (8 - bits))))
            end
          else (b, Ok result)
        end
      end.

Definition ReadBool : M BitStreamReader dd_error bool :=
  let* val := ReadBits 1 in mret (negb (val =? 0)).

Definition ReaderOk (b : BitStreamReader) : bool := remainingBits b >=? 0.

Definition Invalidate (b : BitStreamReader) : BitStreamReader := b <| remainingBits := -1 |>.

(** [for n != 0 { n >>= 1; w++ }]; a [uint32] has at most 32 bits. *)
Fixpoint bitwidth_loop (fuel : nat) (n w : Z) : Z :=
  match fuel with
  | O => w
  | S fuel => if n =? 0 then w else bitwidth_loop fuel (Z.shiftr n 1) (w + 1)
  end.

Definition bitwidth (n : Z) : Z := bitwidth_loop 32 n 0.

Definition ReadNonSymmetric (numValues : Z) : M BitStreamReader dd_error Z :=
  if numValues >=? Z.shiftl 1 31 then mfail errInvalidNumValues
  else
    let width := bitwidth numValues in
    let numMinBitsValues := u32 (u32 (Z.shiftl 1 width) - numValues) in
    let* val := ReadBits (width - 1) in
    if val <? numMinBitsValues then mret (u32 val)
    else
      let* bit := ReadBits 1 in
      mret (u32 (u64 (u64 (u64 (Z.shiftl val 1) + bit) - numMinBitsValues))).

Definition BytesRead (b : BitStreamReader) : Z :=
  if Z.rem (remainingBits b) 8 >? 0 then r_pos b + 1 else r_pos b.

(** ** The writer *)

Record BitStreamWriter := mkWriter {
  w_buf : list Z;
  w_pos : Z;
  bitOffset : Z;
}.
#[export] Instance eta_BitStreamWriter : Eta BitStreamWriter := fun w =>
  mkWriter (w_buf w) (w_pos w) (bitOffset w).

Definition NewBitStreamWriter (buf : list Z) : BitStreamWriter := mkWriter buf 0 0.

Definition WriterRemainingBits (w : BitStreamWriter) : Z :=
  (zlen (w_buf w) - w_pos w) * 8 - bitOffset w.

Definition writePartialByte (source sourceBitCount target targetBitOffset : Z) : Z :=
  let mask := Z.shiftr (u8 (Z.shiftl 0xff (8 - sourceBitCount))) targetBitOffset in
  Z.lor (Z.land target (u8 (Z.lnot mask))) (Z.shiftr source targetBitOffset).

Definition consumeBits (bitCount : Z) : M BitStreamWriter dd_error unit := fun w =>
  if bitCount >? WriterRemainingBits w then (w, Err errInsufficientSpace)
  else (w <| w_pos := w_pos w + Z.quot (bitOffset w + bitCount) 8 |>
          <| bitOffset := Z.rem (bitOffset w + bitCount) 8 |>, Ok tt).

(** [for bitCount >= 8 { buf[0] = uint8(val >> 56); buf = buf[1:]; .. }] from
    index [at0]; [n] is the number of whole bytes. *)
Fixpoint write_full (n : nat) (at0 val : Z) (buf : list Z) : res dd_error (list Z * Z * Z) :=
  match n with
  | O => Ok (buf, at0, val)
  | S n =>
    let! buf := store panicIndex buf at0 (u8 (Z.shiftr val 56)) in
    write_full n (at0 + 1) (u64 (Z.shiftl val 8)) buf
  end.

(** The bytes [WriteBits] leaves in the buffer. *)
Definition write_bytes (val bitCount : Z) (w : BitStreamWriter) : res dd_error (list Z) :=
  let val := u64 (Z.shiftl val (64 - bitCount)) in
  let remainingBitsInCurrentByte := 8 - bitOffset w in
  let bitsInFirstByte := Z.min bitCount remainingBitsInCurrentByte in
  let! b0 := load panicIndex (w_buf w) (w_pos w) in
  let! buf := store panicIndex (w_buf w) (w_pos w)
                (writePartialByte (u8 (Z.shiftr val 56)) bitsInFirstByte b0 (bitOffset w)) in
  if bitCount <=? remainingBitsInCurrentByte then Ok buf
  else
    let val := u64 (Z.shiftl val bitsInFirstByte) in
    let bitCount := bitCount - bitsInFirstByte in
    let! (buf, at0, val) := write_full (Z.to_nat (bitCount / 8)) (w_pos w + 1) val buf in
    let bitCount := bitCount mod 8 in
    if bitCount >? 0 then
      let! b1 := load panicIndex buf at0 in
      store panicIndex buf at0 (writePartialByte (u8 (Z.shiftr val 56)) bitCount b1 0)
    else Ok buf.

Definition WriteBits (val bitCount : Z) : M BitStreamWriter dd_error unit := fun w =>
  if bitCount >? WriterRemainingBits w then (w, Err errInsufficientSpace)
  else
    match write_bytes val bitCount w with
    | Err e => (w, Err e)
    | Ok buf => consumeBits bitCount (w <| w_buf := buf |>)
    end.

Definition WriteNonSymmetric (val numValues : Z) : M BitStreamWriter dd_error unit :=
  if negb ((val <? numValues) && (numValues <=? Z.shiftl 1 31)) then mfail errInvalidNumValues
  else if numValues =? 1 then mret tt
  else
    let countBits := bitwidth numValues in
    let numMinBitsValues := u32 (u32 (Z.shiftl 1 countBits) - numValues) in
    if val <? numMinBitsValues then WriteBits val (countBits - 1)
    else WriteBits (u32 (val + numMinBitsValues)) countBits.

Definition SizeNonSymmetricBits (val numValues : Z) : Z :=
  let countBits := bitwidth numValues in
  let numMinBitsValues := u32 (u32 (Z.shiftl 1 countBits) - numValues) in
  if val <? numMinBitsValues then countBits - 1 else countBits.

(** ** Bit strings, most significant bit first *)

Fixpoint bits_of (n : nat) (v : Z) : list bool :=
  match n with
  | O => []
  | S n => Z.testbit v (Z.of_nat n) :: bits_of n v
  end.

Fixpoint Z_of_bits (l : list bool) : Z :=
  match l with
  | [] => 0
  | b :: l => Z.b2z b * 2 ^ zlen l + Z_of_bits l
  end.

Definition bits_of_bytes (buf : list Z) : list bool := mjoin (bits_of 8 <$> buf).

Lemma length_bits_of n v : length (bits_of n v) = n.
Proof. induction n; cbn; congruence. Qed.

Lemma zlen_bits_of n v : zlen (bits_of n v) = Z.of_nat n.
Proof. unfold zlen. by rewrite length_bits_of. Qed.

Lemma Z_of_bits_app l k : Z_of_bits (l ++ k) = Z_of_bits l * 2 ^ zlen k + Z_of_bits k.
Proof.
  induction l as [|b l IH]; cbn [app Z_of_bits]; [lia|].
  rewrite IH, zlen_app, Z.pow_add_r by (apply zlen_nonneg). ring.
Qed.

Lemma Z_of_bits_range l : 0 <= Z_of_bits l < 2 ^ zlen l.
Proof.
  induction l as [|b l IH]; cbn [Z_of_bits]; [done|].
  replace (zlen (b :: l)) with (1 + zlen l) by (unfold zlen; cbn [length]; lia).
  rewrite Z.pow_add_r by (try apply zlen_nonneg; lia). destruct b; cbn [Z.b2z]; lia.
Qed.

Lemma Z_of_bits_of n v : Z_of_bits (bits_of n v) = v mod 2 ^ Z.of_nat n.
Proof.
  induction n as [|n IH]; cbn [bits_of Z_of_bits]; [cbn; by rewrite Z.mod_1_r|].
  rewrite IH, zlen_bits_of. rewrite Z.testbit_spec' by lia.
  rewrite Nat2Z.inj_succ, Z.pow_succ_r by lia.
  rewrite (Z.mul_comm 2), Z.rem_mul_r by lia. lia.
Qed.

Lemma bits_of_app a b v : bits_of (a + b) v = bits_of a (Z.shiftr v (Z.of_nat b)) ++ bits_of b v.
Proof.
  induction a as [|a IH]; [done|]. cbn [Nat.add bits_of app]. rewrite IH, Z.shiftr_spec by lia.
  do 2 f_equal. lia.
Qed.

Lemma bits_of_mod n v : bits_of n (v mod 2 ^ Z.of_nat n) = bits_of n v.
Proof.
  assert (forall k, (k <= n)%nat -> bits_of k (v mod 2 ^ Z.of_nat n) = bits_of k v) as H; [|by apply H].
  induction k as [|k IH]; intros Hk; [done|]. cbn [bits_of]. rewrite IH by lia.
  f_equal. apply Z.mod_pow2_bits_low. lia.
Qed.

Lemma bits_of_ext n v w : v mod 2 ^ Z.of_nat n = w mod 2 ^ Z.of_nat n -> bits_of n v = bits_of n w.
Proof. intros E. by rewrite <- bits_of_mod, E, bits_of_mod. Qed.

Lemma bits_of_Z_of l : bits_of (length l) (Z_of_bits l) = l.
Proof.
  induction l as [|b l IH]; [done|]. cbn [length bits_of Z_of_bits].
  assert (bits_of (length l) (Z.b2z b * 2 ^ zlen l + Z_of_bits l) = l) as ->.
  { etransitivity; [|exact IH]. apply bits_of_ext. unfold zlen. rewrite Z.add_comm, Z.mod_add; lia. }
  f_equal. pose proof (Z_of_bits_range l) as Hr. unfold zlen in *.
  apply Z.b2z_inj. rewrite Z.testbit_spec' by lia.
  rewrite Z.add_comm, Z.div_add, Z.div_small by lia. by destruct b.
Qed.

Lemma bits_of_bytes_cons x buf : bits_of_bytes (x :: buf) = bits_of 8 x ++ bits_of_bytes buf.
Proof. done. Qed.

Lemma bits_of_bytes_app b1 b2 : bits_of_bytes (b1 ++ b2) = bits_of_bytes b1 ++ bits_of_bytes b2.
Proof. unfold bits_of_bytes. by rewrite fmap_app, join_app. Qed.

Lemma zlen_bits_of_bytes buf : zlen (bits_of_bytes buf) = 8 * zlen buf.
Proof.
  induction buf as [|x buf IH]; [done|]. rewrite bits_of_bytes_cons, zlen_app, IH, zlen_bits_of.
  unfold zlen. cbn [length]. lia.
Qed.

Lemma byte_bits r x k : 0 <= x < 256 -> r = Z.of_nat k -> (k <= 8)%nat ->
  Z.land x (u8 (Z.shiftl 1 r - 1)) = Z_of_bits (bits_of k x).
Proof.
  intros Hx -> Hk. rewrite Z_of_bits_of, Z.shiftl_mul_pow2, Z.mul_1_l by lia.
  assert (0 < 2 ^ Z.of_nat k <= 2 ^ 8) by (split; [lia|apply Z.pow_le_mono_r; lia]).
  rewrite u8_small by lia. rewrite Z.sub_1_r, <- Z.ones_equiv, Z.land_ones by lia. done.
Qed.

Lemma load_ok {A} (buf : list A) i : 0 <= i < zlen buf -> exists x,
  load panicIndex buf i = Ok x /\ buf !! Z.to_nat i = Some x /\
  drop (Z.to_nat i) buf = x :: drop (Z.to_nat (i + 1)) buf.
Proof.
  unfold zlen. intros Hi. destruct (lookup_lt_is_Some_2 buf (Z.to_nat i)) as [x Hx]; [lia|].
  exists x. unfold load, zlookup. rewrite (proj2 (Z.leb_le _ _)), Hx by lia.
  do 2 (split; [done|]). replace (Z.to_nat (i + 1)) with (S (Z.to_nat i)) by lia.
  by apply drop_S.
Qed.

(** ** The reader reads its stream *)

(** What is left to read. *)
Definition stream (b : BitStreamReader) : list bool :=
  drop (Z.to_nat (8 * zlen (r_buf b) - remainingBits b)) (bits_of_bytes (r_buf b)).

Record rok (b : BitStreamReader) : Prop := {
  rok_bytes : bytes (r_buf b);
  rok_rem : 0 <= remainingBits b <= 8 * zlen (r_buf b);
  rok_pos : r_pos b = (8 * zlen (r_buf b) - remainingBits b) / 8;
}.

Lemma zlen_stream b : rok b -> zlen (stream b) = remainingBits b.
Proof.
  intros [_ Hr _]. unfold stream, zlen at 1. rewrite length_drop.
  pose proof (zlen_bits_of_bytes (r_buf b)) as Hl. unfold zlen in *. lia.
Qed.

Lemma NewBitStreamReader_rok buf : bytes buf ->
  rok (NewBitStreamReader buf) /\ stream (NewBitStreamReader buf) = bits_of_bytes buf.
Proof.
  intros Hb. split.
  - constructor; [done|cbn; unfold zlen; lia|]. cbn. replace (8 * zlen buf - zlen buf * 8) with 0 by lia. done.
  - unfold stream. cbn. replace (8 * zlen buf - zlen buf * 8) with 0 by lia. done.
Qed.

(** [stream] in terms of the bytes from [r_pos] on. *)
Lemma stream_bytes b : rok b ->
  remainingBits b mod 8 = 0 -> stream b = bits_of_bytes (drop (Z.to_nat (r_pos b)) (r_buf b)).
Proof.
  intros [_ Hr Hp] Hm. unfold stream.
  set (p := r_pos b) in *. assert (8 * zlen (r_buf b) - remainingBits b = 8 * p) as -> by dlia.
  rewrite <- (take_drop (Z.to_nat p) (r_buf b)) at 1. rewrite bits_of_bytes_app.
  rewrite drop_app_length'; [done|].
  pose proof (zlen_bits_of_bytes (take (Z.to_nat p) (r_buf b))) as Hl. unfold zlen in *.
  rewrite length_take in Hl. dlia.
Qed.

Lemma stream_partial b k : rok b -> remainingBits b mod 8 = Z.of_nat k -> (0 < k)%nat ->
  exists x, r_byte b = Ok x /\ 0 <= x < 256 /\
    stream b = bits_of k x ++ bits_of_bytes (drop (Z.to_nat (r_pos b + 1)) (r_buf b)).
Proof.
  intros [Hb Hr Hp] Hm Hk. pose proof (Z.mod_pos_bound (remainingBits b) 8 ltac:(lia)) as Hm8.
  assert (0 <= r_pos b < zlen (r_buf b)) as Hpos by dlia.
  destruct (load_ok (r_buf b) (r_pos b) Hpos) as (x & Hx & Hlx & Hd).
  exists x. split; [done|]. split; [by eapply (Forall_lookup_1 _ _ _ _ Hb)|].
  unfold stream. rewrite <- (take_drop (Z.to_nat (r_pos b)) (r_buf b)) at 2.
  rewrite Hd, bits_of_bytes_app, bits_of_bytes_cons.
  replace (bits_of 8 x) with (bits_of (8 - k + k) x) by (f_equal; lia).
  rewrite bits_of_app, <- app_assoc, (app_assoc (bits_of_bytes _)).
  apply drop_app_length'. rewrite length_app, length_bits_of.
  pose proof (zlen_bits_of_bytes (take (Z.to_nat (r_pos b)) (r_buf b))) as Hl. unfold zlen in *.
  rewrite length_take in Hl. dlia.
Qed.

Lemma read_full_ok n bits a b :
  bytes (r_buf b) -> 0 <= r_pos b -> r_pos b + Z.of_nat n <= zlen (r_buf b) ->
  8 * Z.of_nat n <= bits <= 64 -> 0 <= a ->
  let bs := bits_of_bytes (take n (drop (Z.to_nat (r_pos b)) (r_buf b))) in
  read_full n bits (a * 2 ^ bits) b =
  (b <| r_pos := r_pos b + Z.of_nat n |>,
   Ok (bits - 8 * Z.of_nat n,
       (a * 2 ^ (8 * Z.of_nat n) + Z_of_bits bs) * 2 ^ (bits - 8 * Z.of_nat n))).
Proof.
  revert bits a b. induction n as [|n IH]; intros bits a b Hb Hp Hlen Hbits Ha bs; cbn [read_full].
  { subst bs. rewrite take_0. cbn [Z_of_bits bits_of_bytes fmap list_fmap mjoin list_join].
    rewrite Z.add_0_r, Z.sub_0_r, Z.mul_1_r, !Z.add_0_r. by destruct b. }
  destruct (load_ok (r_buf b) (r_pos b) ltac:(lia)) as (x & Hx & Hlx & Hd).
  unfold r_byte. rewrite Hx. assert (byte x) as Hbx by (by eapply (Forall_lookup_1 _ _ _ _ Hb)).
  unfold byte in Hbx.
  assert (2 ^ bits = 256 * 2 ^ (bits - 8)) as Epow.
  { replace bits with (8 + (bits - 8)) at 1 by lia. by rewrite Z.pow_add_r by lia. }
  assert (0 < 2 ^ (bits - 8)) by lia.
  assert (2 ^ bits <= 2 ^ 64) by (apply Z.pow_le_mono_r; lia).
  rewrite Z.shiftl_mul_pow2, u64_small by nia.
  rewrite lor_disjoint by nia.
  replace (a * 2 ^ bits + x * 2 ^ (bits - 8)) with ((a * 256 + x) * 2 ^ (bits - 8)) by nia.
  rewrite IH; try (cbn; done || lia); [|cbn; lia..]. cbn [r_pos r_buf field_upd].
  f_equal; [f_equal; lia|]. f_equal. f_equal; [lia|].
  replace (bits - 8 - 8 * Z.of_nat n) with (bits - 8 * Z.of_nat (S n)) by lia. f_equal.
  subst bs. rewrite Hd. cbn [take]. rewrite bits_of_bytes_cons, Z_of_bits_app, Z_of_bits_of.
  rewrite zlen_bits_of_bytes. unfold zlen. rewrite length_take, length_drop. unfold zlen in Hlen.
  rewrite (Z.mod_small x) by (cbn; lia).
  replace (Z.of_nat (n `min` _)) with (Z.of_nat n) by lia.
  replace (8 * Z.of_nat (S n)) with (8 + 8 * Z.of_nat n) by lia. rewrite Z.pow_add_r by lia.
  change (2 ^ 8) with 256. ring.
Qed.

(** The reader after [n] bits. *)
Definition advance (n : Z) (b : BitStreamReader) : BitStreamReader :=
  mkReader (r_buf b) ((8 * zlen (r_buf b) - (remainingBits b - n)) / 8) (remainingBits b - n).

Lemma advance_rok n b : rok b -> 0 <= n <= remainingBits b ->
  rok (advance n b) /\ stream (advance n b) = drop (Z.to_nat n) (stream b).
Proof.
  intros [Hb Hr Hp] Hn. split; [constructor; cbn; (done || lia)|].
  unfold stream, advance. cbn. rewrite drop_drop. f_equal. lia.
Qed.

Lemma bits_of_bytes_take n (buf : list Z) :
  (n <= length buf)%nat -> take (8 * n) (bits_of_bytes buf) = bits_of_bytes (take n buf).
Proof.
  intros Hn. rewrite <- (take_drop n buf) at 1. rewrite bits_of_bytes_app.
  apply take_app_length'. pose proof (zlen_bits_of_bytes (take n buf)) as H. unfold zlen in H.
  rewrite length_take in H. lia.
Qed.

(** The whole bytes and the last partial byte, from a byte boundary. *)
Lemma read_tail_ok b n a :
  bytes (r_buf b) -> 0 <= r_pos b -> 8 * r_pos b + n <= 8 * zlen (r_buf b) -> 0 <= n <= 64 -> 0 <= a ->
  match read_full (Z.to_nat (n / 8)) n (a * 2 ^ n) b with
  | (b1, Ok (bits, result)) =>
    r_buf b1 = r_buf b /\ remainingBits b1 = remainingBits b /\ r_pos b1 = r_pos b + n / 8 /\
    (if bits >? 0 then
       match r_byte b1 with
       | Err e => (b1, Err e)
       | Ok x => (b1, Ok (Z.lor result (Z.shiftr x (8 - bits))))
       end
     else (b1, Ok result))
    = (b1, Ok (a * 2 ^ n + Z_of_bits (take (Z.to_nat n)
                 (bits_of_bytes (drop (Z.to_nat (r_pos b)) (r_buf b))))))
  | (_, Err _) => False
  end.
Proof.
  intros Hb Hp Hlen Hn Ha. rewrite read_full_ok by (done || dlia).
  cbn [r_buf remainingBits r_pos field_upd].
  set (buf' := drop (Z.to_nat (r_pos b)) (r_buf b)). set (q := Z.to_nat (n / 8)).
  assert (n - 8 * Z.of_nat q = n mod 8) as -> by (unfold q; dlia).
  assert (length buf' = (length (r_buf b) - Z.to_nat (r_pos b))%nat) as Hlb by apply length_drop.
  unfold zlen in Hlen.
  assert ((q <= length buf')%nat) as Hq by (unfold q; dlia).
  do 2 (split; [done|]). split; [unfold q; dlia|].
  pose proof (Z.mod_pos_bound n 8 ltac:(lia)) as Hm.
  assert (Htake : take (Z.to_nat n) (bits_of_bytes buf') =
            bits_of_bytes (take q buf') ++
            take (Z.to_nat (n mod 8)) (bits_of_bytes (drop q buf'))).
  { rewrite <- (bits_of_bytes_take q) by done.
    assert (drop (8 * q) (bits_of_bytes buf') = bits_of_bytes (drop q buf')) as <-.
    { rewrite <- (take_drop q buf') at 1. rewrite bits_of_bytes_app. apply drop_app_length'.
      pose proof (zlen_bits_of_bytes (take q buf')) as H. unfold zlen in H.
      rewrite length_take in H. lia. }
    rewrite take_take_drop. f_equal. unfold q. dlia. }
  rewrite Htake, Z_of_bits_app.
  assert (En : 2 ^ n = 2 ^ (8 * Z.of_nat q) * 2 ^ (n mod 8)).
  { rewrite <- Z.pow_add_r by lia. f_equal. unfold q. dlia. }
  rewrite En. rewrite Z.gtb_ltb. destruct (Z.ltb_spec 0 (n mod 8)) as [Hpos|Hz].
  - unfold r_byte. cbn [r_buf r_pos].
    destruct (load_ok (r_buf b) (r_pos b + Z.of_nat q)) as (x & Hx & Hlx & Hd);
      [unfold zlen, q; dlia|]. rewrite Hx.
    assert (byte x) as Hbx by (by eapply (Forall_lookup_1 _ _ _ _ Hb)). unfold byte in Hbx.
    assert (drop q buf' = x :: drop (Z.to_nat (r_pos b + Z.of_nat q + 1)) (r_buf b)) as ->.
    { unfold buf'. rewrite drop_drop. rewrite <- Hd. f_equal. lia. }
    set (m := Z.to_nat (n mod 8)). assert (n mod 8 = Z.of_nat m) as -> by (unfold m; lia).
    rewrite bits_of_bytes_cons. replace 8%nat with (m + (8 - m))%nat by lia.
    rewrite bits_of_app, <- app_assoc, take_app_length' by (by rewrite length_bits_of).
    rewrite Z_of_bits_of, zlen_bits_of.
    replace (Z.of_nat (8 - m)) with (8 - Z.of_nat m) by lia.
    assert (0 <= Z.shiftr x (8 - Z.of_nat m) < 2 ^ Z.of_nat m).
    { rewrite Z.shiftr_div_pow2 by lia. split; [apply Z.div_pos; lia|].
      apply Z.div_lt_upper_bound; [lia|]. rewrite <- Z.pow_add_r by lia.
      replace (8 - Z.of_nat m + Z.of_nat m) with 8 by lia. lia. }
    rewrite Z.mod_small by done. rewrite lor_disjoint by lia.
    do 2 f_equal. ring.
  - assert (n mod 8 = 0) as -> by lia. change (Z.to_nat 0) with 0%nat. rewrite take_0.
    cbn [Z_of_bits]. change (zlen []) with 0. change (2 ^ 0) with 1. do 2 f_equal. ring.
Qed.

Lemma ReadBits_ok b n l rest :
  rok b -> 0 <= n <= 64 -> stream b = l ++ rest -> zlen l = n ->
  ReadBits n b = (advance n b, Ok (Z_of_bits l)) /\ rok (advance n b) /\ stream (advance n b) = rest.
Proof.
  intros Hrok Hn Hs Hl. pose proof (zlen_stream b Hrok) as Hzs. rewrite Hs, zlen_app in Hzs.
  pose proof (zlen_nonneg rest).
  destruct (advance_rok n b Hrok ltac:(lia)) as [Hrok' Hs'].
  assert (stream (advance n b) = rest) as Hrest.
  { rewrite Hs', Hs. apply drop_app_length'. unfold zlen in Hl. lia. }
  split; [|done]. pose proof Hrok as [Hb Hr Hp].
  unfold ReadBits. rewrite (proj2 (Z.ltb_ge n 0)), Z.gtb_ltb, (proj2 (Z.ltb_ge 64 n)) by lia. cbn [orb].
  rewrite (proj2 (Z.ltb_ge _ _)) by lia.
  pose proof (Z.mod_pos_bound (remainingBits b) 8 ltac:(lia)) as Hm.
  set (r := remainingBits b mod 8) in *. set (k := Z.to_nat r).
  assert (Hrk : remainingBits b mod 8 = Z.of_nat k) by (unfold k, r in *; lia).
  destruct (Z.ltb_spec n r) as [Hlt|Hge].
  - destruct (stream_partial b k Hrok Hrk ltac:(unfold k; lia)) as (x & Hx & Hxb & Hsx).
    unfold r_byte in *. cbn [r_buf r_pos field_upd]. 
    change (r_buf (b <| remainingBits := remainingBits b - n |>)) with (r_buf b).
    change (r_pos (b <| remainingBits := remainingBits b - n |>)) with (r_pos b).
    rewrite Hx. f_equal.
    + unfold advance. destruct b. cbn in *. f_equal. subst r. dlia.
    + f_equal. replace k with (Z.to_nat n + (k - Z.to_nat n))%nat in Hsx by (unfold k; lia).
      rewrite bits_of_app, <- app_assoc, Hs in Hsx.
      apply app_inj_1 in Hsx as [-> _]; [|rewrite length_bits_of; unfold zlen in Hl; lia].
      replace (Z.of_nat (k - Z.to_nat n)) with (r - n) by (unfold k; lia).
      apply byte_bits; [|lia|unfold k in *; lia].
      rewrite Z.shiftr_div_pow2 by lia. split; [apply Z.div_pos; lia|].
      apply Z.div_lt_upper_bound; [lia|].
      assert (1 <= 2 ^ (r - n)) by (apply (Z.pow_le_mono_r 2 0); lia). lia.
  - set (b0 := b <| remainingBits := remainingBits b - n |>).
    (* the rest of the first byte, then whole bytes and a last partial byte *)
    assert (Hfin : forall b1 a, r_buf b1 = r_buf b -> remainingBits b1 = remainingBits b - n ->
      0 <= a -> 0 <= r_pos b1 -> 8 * r_pos b1 + (n - r) <= 8 * zlen (r_buf b) ->
      r_pos b1 + (n - r) / 8 = (8 * zlen (r_buf b) - (remainingBits b - n)) / 8 ->
      a * 2 ^ (n - r) + Z_of_bits (take (Z.to_nat (n - r))
          (bits_of_bytes (drop (Z.to_nat (r_pos b1)) (r_buf b)))) = Z_of_bits l ->
      match read_full (Z.to_nat ((n - r) / 8)) (n - r) (a * 2 ^ (n - r)) b1 with
      | (b, Err e) => (b, Err e)
      | (b, Ok (bits, result)) =>
        if bits >? 0 then
          match r_byte b with
          | Err e => (b, Err e)
          | Ok x => (b, Ok (Z.lor result (Z.shiftr x (8 - bits))))
          end
        else (b, Ok result)
      end = (advance n b, Ok (Z_of_bits l))).
    { intros b1 a Hbuf Hrem Ha Hp1 Hle Hpos Hval.
      pose proof (read_tail_ok b1 (n - r) a) as Ht. rewrite Hbuf in Ht.
      specialize (Ht Hb Hp1 Hle ltac:(lia) Ha).
      destruct (read_full _ _ _ _) as [b2 [[bits result]|e]]; [|done].
      destruct Ht as (Hb2 & Hr2 & Hp2 & ->). rewrite Hval. f_equal. unfold advance.
      destruct b2. cbn in *. congruence. }
    rewrite Z.gtb_ltb. destruct (Z.ltb_spec 0 r) as [Hr0|Hr0].
    + destruct (stream_partial b k Hrok Hrk ltac:(unfold k; lia)) as (x & Hx & Hxb & Hsx).
      change (r_byte b0) with (r_byte b). rewrite Hx.
      rewrite (byte_bits r x k) by (unfold k; lia).
      pose proof (Z_of_bits_range (bits_of k x)) as Hrange. rewrite zlen_bits_of in Hrange.
      assert (2 ^ (Z.of_nat k) * 2 ^ (n - r) = 2 ^ n) as Hpw.
      { rewrite <- Z.pow_add_r by (unfold k; lia). f_equal. unfold k. lia. }
      assert (2 ^ n <= 2 ^ 64) by (apply Z.pow_le_mono_r; lia).
      rewrite Z.shiftl_mul_pow2, u64_small by nia.
      apply Hfin; try done; try lia.
      * cbn. rewrite Hp. dlia.
      * cbn. rewrite Hp. unfold r in *. dlia.
      * cbn. rewrite Hp. unfold r in *. dlia.
      * change (r_pos (b0 <| r_pos := r_pos b0 + 1 |>)) with (r_pos b + 1).
        replace l with (take (Z.to_nat n) (stream b)).
        2:{ rewrite Hs. apply take_app_length'. unfold zlen in Hl. lia. }
        rewrite Hsx, take_app. rewrite length_bits_of, (take_ge (bits_of k x)) by (rewrite length_bits_of; unfold k; lia).
        rewrite Z_of_bits_app. replace (Z.to_nat n - k)%nat with (Z.to_nat (n - r)) by (unfold k; lia).
        f_equal. f_equal. f_equal. unfold zlen. rewrite length_take.
        assert ((Z.to_nat (n - r) <= length (bits_of_bytes (drop (Z.to_nat (r_pos b + 1)) (r_buf b))))%nat).
        { pose proof (f_equal length Hsx) as Hlen. rewrite length_app, length_bits_of, Hs, length_app in Hlen.
          unfold zlen in Hl. unfold k in Hlen. lia. }
        lia.
    + assert (r = 0) as Hrz by lia. rewrite Hrz in *. rewrite Z.sub_0_r in *.
      change 0 with (0 * 2 ^ n) at 1.
      apply Hfin; try done; try lia.
      * cbn. rewrite Hp. dlia.
      * cbn. rewrite Hp. unfold r in *. dlia.
      * cbn. rewrite Hp. unfold r in *. dlia.
      * change (r_pos b0) with (r_pos b). rewrite <- (stream_bytes b Hrok) by (unfold r in *; lia).
        rewrite Hs, take_app_length' by (unfold zlen in Hl; lia). lia.
Qed.

(** ** The writer writes its bits *)

Definition w_at (w : BitStreamWriter) : Z := 8 * w_pos w + bitOffset w.

(** What has been written so far. *)
Definition written (w : BitStreamWriter) : list bool :=
  take (Z.to_nat (w_at w)) (bits_of_bytes (w_buf w)).

Record wok (w : BitStreamWriter) : Prop := {
  wok_bytes : bytes (w_buf w);
  wok_pos : 0 <= w_pos w;
  wok_off : 0 <= bitOffset w < 8;
  wok_at : w_at w <= 8 * zlen (w_buf w);
}.

Lemma WriterRemainingBits_at w : WriterRemainingBits w = 8 * zlen (w_buf w) - w_at w.
Proof. unfold WriterRemainingBits, w_at. lia. Qed.

(** [val] holds the bits [l] at the top of a [uint64]. *)
Definition top_bits (val : Z) (l : list bool) : Prop :=
  (length l <= 64)%nat /\ val = Z_of_bits l * 2 ^ (64 - zlen l).

Lemma pow2_split a b : 0 <= a -> 0 <= b -> 2 ^ (a + b) = 2 ^ a * 2 ^ b.
Proof. intros. by apply Z.pow_add_r. Qed.

Lemma top_bits_start v n : 1 <= n <= 64 ->
  top_bits (u64 (Z.shiftl v (64 - n))) (bits_of (Z.to_nat n) v).
Proof.
  intros Hn. split; [rewrite length_bits_of; lia|].
  rewrite zlen_bits_of, Z_of_bits_of, Z2Nat.id, Z.shiftl_mul_pow2 by lia.
  unfold u64. change 18446744073709551616 with (2 ^ 64).
  replace 64 with (n + (64 - n)) at 2 by lia. rewrite pow2_split by lia.
  by rewrite Z.mul_mod_distr_r by lia.
Qed.

Lemma top_bits_shift val l1 l2 :
  top_bits val (l1 ++ l2) -> top_bits (u64 (Z.shiftl val (zlen l1))) l2.
Proof.
  intros [Hl Hv]. rewrite length_app in Hl. split; [lia|].
  rewrite Z.shiftl_mul_pow2, Hv, Z_of_bits_app, zlen_app by apply zlen_nonneg.
  unfold u64. change 18446744073709551616 with (2 ^ 64). unfold zlen in *.
  set (a := Z.of_nat (length l1)) in *. set (b := Z.of_nat (length l2)) in *.
  assert (0 <= a /\ 0 <= b /\ a + b <= 64) as (? & ? & ?) by lia.
  replace ((Z_of_bits l1 * 2 ^ b + Z_of_bits l2) * 2 ^ (64 - (a + b)) * 2 ^ a)
    with (Z_of_bits l2 * 2 ^ (64 - b) + Z_of_bits l1 * 2 ^ 64).
  - rewrite Z.mod_add by lia. apply Z.mod_small.
    pose proof (Z_of_bits_range l2) as Hr. unfold zlen in Hr. fold b in Hr.
    assert (2 ^ 64 = 2 ^ b * 2 ^ (64 - b)) by (rewrite <- pow2_split by lia; f_equal; lia).
    assert (0 < 2 ^ (64 - b)) by lia. nia.
  - replace (2 ^ 64) with (2 ^ b * (2 ^ (64 - (a + b)) * 2 ^ a))
      by (rewrite <- !pow2_split by lia; f_equal; lia).
    replace (2 ^ (64 - b)) with (2 ^ (64 - (a + b)) * 2 ^ a)
      by (rewrite <- pow2_split by lia; f_equal; lia). ring.
Qed.

Lemma top_byte val l1 l2 : top_bits val (l1 ++ l2) -> length l1 = 8%nat ->
  u8 (Z.shiftr val 56) = Z_of_bits l1.
Proof.
  intros [Hl Hv] H8. rewrite length_app in Hl.
  rewrite Hv, Z_of_bits_app, zlen_app, Z.shiftr_div_pow2 by lia.
  pose proof (Z_of_bits_range l1) as Hr1. pose proof (Z_of_bits_range l2) as Hr2. unfold zlen in *.
  set (b := Z.of_nat (length l2)) in *. rewrite H8 in *. change (Z.of_nat 8) with 8 in *.
  assert (2 ^ 56 = 2 ^ b * 2 ^ (64 - (8 + b))) as E by (rewrite <- pow2_split by lia; f_equal; lia).
  assert (0 < 2 ^ (64 - (8 + b))) by lia.
  replace ((Z_of_bits l1 * 2 ^ b + Z_of_bits l2) * 2 ^ (64 - (8 + b)))
    with (Z_of_bits l2 * 2 ^ (64 - (8 + b)) + Z_of_bits l1 * 2 ^ 56) by (rewrite E; ring).
  rewrite Z.div_add, Z.div_small by nia. rewrite Z.add_0_l, u8_small; [done|].
  change (2 ^ 8) with 256 in Hr1. lia.
Qed.

Lemma top_byte_last val l : top_bits val l -> (length l <= 8)%nat ->
  u8 (Z.shiftr val 56) = Z_of_bits l * 2 ^ (8 - zlen l).
Proof.
  intros [Hl Hv] H8. rewrite Hv, Z.shiftr_div_pow2 by lia.
  pose proof (Z_of_bits_range l) as Hr. unfold zlen in *. set (a := Z.of_nat (length l)) in *.
  assert (2 ^ (64 - a) = 2 ^ (8 - a) * 2 ^ 56) as -> by (rewrite <- pow2_split by lia; f_equal; lia).
  rewrite Z.mul_assoc, Z.div_mul by lia. apply u8_small.
  assert (2 ^ 8 = 2 ^ a * 2 ^ (8 - a)) by (rewrite <- pow2_split by lia; f_equal; lia).
  assert (0 < 2 ^ (8 - a)) by lia. nia.
Qed.

Lemma byte_high x i : 0 <= x < 256 -> 8 <= i -> Z.testbit x i = false.
Proof.
  intros Hx Hi. destruct (Z.eq_dec x 0) as [->|]; [apply Z.bits_0|].
  apply Z.bits_above_log2; [lia|]. apply (Z.lt_le_trans _ 8); [|done]. apply Z.log2_lt_pow2; lia.
Qed.

Lemma low_zero x j i : x mod 2 ^ j = 0 -> 0 <= i < j -> Z.testbit x i = false.
Proof. intros Hx Hi. rewrite <- (Z.mod_pow2_bits_low x j i) by lia. rewrite Hx. apply Z.bits_0. Qed.

Lemma byte_log2 x : 0 <= x -> Z.log2 x < 8 -> x < 256.
Proof.
  intros Hx Hl. destruct (Z.eq_dec x 0) as [->|]; [done|]. apply (Z.log2_lt_pow2 x 8); lia.
Qed.

Lemma log2_byte x : 0 <= x < 256 -> Z.log2 x < 8.
Proof. intros Hx. destruct (Z.eq_dec x 0) as [->|]; [done|]. apply Z.log2_lt_pow2; lia. Qed.

Lemma lor_byte a b : 0 <= a < 256 -> 0 <= b < 256 -> 0 <= Z.lor a b < 256.
Proof.
  intros Ha Hb. assert (0 <= Z.lor a b) by (apply Z.lor_nonneg; lia). split; [done|].
  apply byte_log2; [done|]. rewrite Z.log2_lor by lia.
  pose proof (log2_byte a Ha). pose proof (log2_byte b Hb). lia.
Qed.

Lemma land_byte a b : 0 <= a < 256 -> 0 <= b -> 0 <= Z.land a b < 256.
Proof.
  intros Ha Hb. assert (0 <= Z.land a b) by (apply Z.land_nonneg; lia). split; [done|].
  apply byte_log2; [done|]. pose proof (Z.log2_land a b ltac:(lia) Hb).
  pose proof (log2_byte a Ha). lia.
Qed.

(** Bit [i] of the byte [writePartialByte] returns. *)
Definition mask_bit (m off i : nat) : bool := (8 - m - off <=? i)%nat && (i <? 8 - off)%nat.

Lemma mask_bits m off i : (off + m <= 8)%nat -> (i < 8)%nat ->
  Z.testbit (u8 (Z.lnot (Z.shiftr (u8 (Z.shiftl 255 (8 - Z.of_nat m))) (Z.of_nat off)))) (Z.of_nat i)
  = negb (mask_bit m off i).
Proof.
  intros Hm Hi.
  assert (forallb (fun off => forallb (fun m => forallb (fun i =>
     implb (off + m <=? 8)%nat
       (Bool.eqb (Z.testbit (u8 (Z.lnot (Z.shiftr (u8 (Z.shiftl 255 (8 - Z.of_nat m))) (Z.of_nat off))))
                   (Z.of_nat i)) (negb (mask_bit m off i)))) (seq 0 8)) (seq 0 9)) (seq 0 9) = true) as H
    by (vm_compute; reflexivity).
  rewrite forallb_forall in H. specialize (H off ltac:(apply in_seq; lia)).
  rewrite forallb_forall in H. specialize (H m ltac:(apply in_seq; lia)).
  rewrite forallb_forall in H. specialize (H i ltac:(apply in_seq; lia)).
  rewrite (proj2 (Nat.leb_le _ _)) in H by done. by apply Bool.eqb_prop in H.
Qed.

Lemma writePartialByte_bit source m target off i :
  (off + m <= 8)%nat -> (i < 8)%nat ->
  Z.testbit (writePartialByte source (Z.of_nat m) target (Z.of_nat off)) (Z.of_nat i) =
  (Z.testbit target (Z.of_nat i) && negb (mask_bit m off i)) || Z.testbit source (Z.of_nat (i + off)).
Proof.
  intros Hm Hi. unfold writePartialByte.
  rewrite Z.lor_spec, Z.land_spec, mask_bits, Z.shiftr_spec by (done || lia). do 2 f_equal. lia.
Qed.

(** [bits_of] by index. *)
Lemma bits_of_lookup n v j : (j < n)%nat -> bits_of n v !! j = Some (Z.testbit v (Z.of_nat (n - 1 - j))).
Proof.
  revert j. induction n as [|n IH]; intros j Hj; [lia|]. cbn [bits_of]. destruct j as [|j]; cbn [lookup list_lookup].
  - do 2 f_equal. lia.
  - rewrite IH by lia. do 2 f_equal. lia.
Qed.

(** [writePartialByte] replaces [m] bits at [off] by the top bits of [source]. *)
Lemma writePartialByte_bits source m target off :
  0 <= source < 256 -> 0 <= target < 256 -> (off + m <= 8)%nat ->
  (off + m = 8)%nat \/ source mod 2 ^ (8 - Z.of_nat m) = 0 ->
  bits_of 8 (writePartialByte source (Z.of_nat m) target (Z.of_nat off)) =
  take off (bits_of 8 target) ++ take m (bits_of 8 source) ++ drop (off + m) (bits_of 8 target).
Proof.
  intros Hs Ht Hm Hz. apply list_eq. intros j.
  destruct (decide (j < 8)%nat) as [Hj|Hj].
  2:{ trans (@None bool); [|symmetry]; apply lookup_ge_None_2;
        rewrite ?length_app, ?length_take, ?length_drop, ?length_bits_of; lia. }
  rewrite bits_of_lookup, writePartialByte_bit by lia. unfold mask_bit.
  destruct (decide (j < off)%nat) as [H1|H1].
  - rewrite lookup_app_l by (rewrite length_take, length_bits_of; lia).
    rewrite lookup_take_lt, bits_of_lookup by lia. f_equal.
    rewrite (byte_high source) by lia. rewrite (proj2 (Nat.ltb_ge _ _)) by lia.
    by rewrite andb_false_r, andb_true_r, orb_false_r.
  - rewrite lookup_app_r by (rewrite length_take, length_bits_of; lia).
    rewrite length_take, length_bits_of. replace (off `min` 8)%nat with off by lia.
    destruct (decide (j < off + m)%nat) as [H2|H2].
    + rewrite lookup_app_l by (rewrite length_take, length_bits_of; lia).
      rewrite lookup_take_lt, bits_of_lookup by lia. f_equal.
      rewrite (proj2 (Nat.leb_le _ _)), (proj2 (Nat.ltb_lt _ _)) by lia.
      cbn [andb negb]. rewrite andb_false_r. cbn [orb]. do 2 f_equal. lia.
    + rewrite lookup_app_r by (rewrite length_take, length_bits_of; lia).
      rewrite lookup_drop, bits_of_lookup by (rewrite length_take, length_bits_of; lia).
      rewrite length_take, length_bits_of. f_equal.
      rewrite (proj2 (Nat.leb_gt _ _)) by lia. cbn [andb negb]. rewrite andb_true_r.
      rewrite (low_zero source (8 - Z.of_nat m)), orb_false_r; [|destruct Hz; [lia|done]|lia].
      do 2 f_equal. lia.
Qed.

Lemma writePartialByte_range source m target off :
  0 <= source < 256 -> 0 <= target < 256 -> 0 <= off ->
  0 <= writePartialByte source m target off < 256.
Proof.
  intros Hs Ht Ho. unfold writePartialByte. apply lor_byte.
  - apply land_byte; [done|]. apply u8_range.
  - rewrite Z.shiftr_div_pow2 by lia. assert (0 < 2 ^ off) by lia.
    split; [apply Z.div_pos; lia|]. apply Z.div_lt_upper_bound; nia.
Qed.

(** The bits at the top of the word, as the source byte of a partial write. *)
Lemma top_byte_take val l m :
  top_bits val l -> (m <= 8)%nat -> (m <= length l)%nat ->
  take m (bits_of 8 (u8 (Z.shiftr val 56))) = take m l.
Proof.
  intros Ht Hm Hl. destruct (decide (8 <= length l)%nat) as [H8|H8].
  - rewrite <- (take_drop 8 l) in Ht.
    rewrite (top_byte val (take 8 l) (drop 8 l)) by (done || (rewrite length_take; lia)).
    assert (length (take 8 l) = 8%nat) as Hlt by (rewrite length_take; lia).
    rewrite <- Hlt at 1. rewrite bits_of_Z_of, take_take. f_equal. lia.
  - rewrite (top_byte_last val l) by (done || lia).
    replace 8%nat with (length l + (8 - length l))%nat by lia.
    rewrite bits_of_app, take_app_le by (rewrite length_bits_of; lia). f_equal.
    rewrite Z.shiftr_div_pow2 by lia. unfold zlen.
    replace (8 - Z.of_nat (length l)) with (Z.of_nat (8 - length l)) by lia.
    rewrite Z.div_mul by lia. apply bits_of_Z_of.
Qed.

Lemma top_byte_low val l : top_bits val l -> (length l <= 8)%nat ->
  u8 (Z.shiftr val 56) mod 2 ^ (8 - zlen l) = 0.
Proof. intros Ht Hl. rewrite (top_byte_last val l) by done. apply Z.mod_mul. unfold zlen. lia. Qed.

Lemma store_at {A} (pre : list A) x y post :
  store panicIndex (pre ++ x :: post) (zlen pre) y = Ok (pre ++ y :: post).
Proof.
  unfold store. rewrite zlen_app, (proj2 (Z.leb_le _ _)) by apply zlen_nonneg.
  rewrite (proj2 (Z.ltb_lt _ _)) by (unfold zlen; cbn [length]; lia). cbn [andb].
  unfold zset, zlen. rewrite Nat2Z.id. rewrite <- (Nat.add_0_r (length pre)) at 1. by rewrite insert_app_r.
Qed.

Lemma load_at {A} (pre : list A) x post : load panicIndex (pre ++ x :: post) (zlen pre) = Ok x.
Proof.
  unfold load, zlookup. rewrite (proj2 (Z.leb_le _ _)) by apply zlen_nonneg.
  unfold zlen. by rewrite Nat2Z.id, list_lookup_middle.
Qed.

Lemma write_full_ok n pre mid post val l :
  top_bits val l -> (8 * n <= length l)%nat -> length mid = n ->
  exists bs val', write_full n (zlen pre) val (pre ++ mid ++ post) =
      Ok (pre ++ bs ++ post, zlen pre + Z.of_nat n, val') /\
    bytes bs /\ length bs = n /\ bits_of_bytes bs = take (8 * n) l /\ top_bits val' (drop (8 * n) l).
Proof.
  revert pre mid val l. induction n as [|n IH]; intros pre mid val l Ht Hl Hm; cbn [write_full].
  { destruct mid; [|done]. exists [], val. rewrite Z.add_0_r. split; [done|].
    split; [apply Forall_nil_2|]. split; [done|]. split; [done|exact Ht]. }
  destruct mid as [|y mid]; [done|]. injection Hm as Hm. cbn [app]. rewrite store_at. cbn [res_bind].
  assert (top_bits val (take 8 l ++ drop 8 l)) as Ht' by (by rewrite take_drop).
  assert (length (take 8 l) = 8%nat) as Hlt by (rewrite length_take; lia).
  rewrite (top_byte _ _ _ Ht' Hlt). set (x := Z_of_bits (take 8 l)).
  pose proof (Z_of_bits_range (take 8 l)) as Hx. fold x in Hx. unfold zlen in Hx. rewrite Hlt in Hx.
  apply top_bits_shift in Ht'. unfold zlen in Ht'. rewrite Hlt in Ht'. change (Z.of_nat 8) with 8 in Ht'.
  destruct (IH (pre ++ [x]) mid _ _ Ht') as (bs & val' & Hw & Hb & Hlb & Hbits & Ht2);
    [rewrite length_drop; lia|done|].
  replace (zlen pre + 1) with (zlen (pre ++ [x])) by (rewrite zlen_app; done).
  rewrite <- app_assoc in Hw. cbn [app] in Hw. rewrite Hw. exists (x :: bs), val'.
  split; [|split; [|split; [|split]]].
  - rewrite zlen_app, <- !app_assoc. unfold zlen at 2. cbn [app length]. do 2 f_equal. f_equal. lia.
  - constructor; [exact Hx|done].
  - cbn. lia.
  - rewrite bits_of_bytes_cons, Hbits. replace (8 * S n)%nat with (8 + 8 * n)%nat by lia.
    rewrite <- take_take_drop. f_equal. rewrite <- Hlt at 1. apply bits_of_Z_of.
  - rewrite drop_drop in Ht2. replace (8 * S n)%nat with (8 + 8 * n)%nat by lia. done.
Qed.

Lemma split_at {A} (l : list A) p x : l !! p = Some x -> exists pre post,
  l = pre ++ x :: post /\ length pre = p.
Proof.
  intros H. exists (take p l), (drop (S p) l). split; [by rewrite take_drop_middle|].
  apply lookup_lt_Some in H. rewrite length_take. lia.
Qed.

(** The buffer after [WriteBits]: what was written, then the new bits. *)
Lemma write_bytes_ok w v n :
  wok w -> 1 <= n <= 64 -> n <= 8 * zlen (w_buf w) - w_at w ->
  exists buf tail, write_bytes v n w = Ok buf /\ bytes buf /\ zlen buf = zlen (w_buf w) /\
    bits_of_bytes buf = (written w ++ bits_of (Z.to_nat n) v) ++ tail.
Proof.
  intros [Hb Hp Ho Ha] Hn Hr. unfold w_at in *.
  destruct (lookup_lt_is_Some_2 (w_buf w) (Z.to_nat (w_pos w))) as [x Hx]; [unfold zlen in *; lia|].
  destruct (split_at _ _ _ Hx) as (pre & post & E & Hpre).
  assert (w_pos w = zlen pre) as Ep by (unfold zlen; lia).
  assert (0 <= x < 256) as Hxb by (by eapply (Forall_lookup_1 _ _ _ _ Hb)).
  rewrite E in Hb. apply Forall_app in Hb as [Hbpre Hbpost]. apply Forall_cons in Hbpost as [_ Hbpost].
  set (off := Z.to_nat (bitOffset w)). assert (Eo : bitOffset w = Z.of_nat off) by (unfold off; lia).
  assert (Hwr : written w = bits_of_bytes pre ++ take off (bits_of 8 x)).
  { unfold written, w_at. rewrite E, bits_of_bytes_app, bits_of_bytes_cons.
    pose proof (zlen_bits_of_bytes pre) as Hlp. unfold zlen in *.
    rewrite take_app. rewrite take_ge by lia. f_equal.
    rewrite take_app_le by (rewrite length_bits_of; lia). f_equal. lia. }
  pose proof (top_bits_start v n Hn) as Ht.
  set (l := bits_of (Z.to_nat n) v) in *. assert (length l = Z.to_nat n) as Hll by apply length_bits_of.
  unfold write_bytes. rewrite Ep, E, load_at. cbn [res_bind]. rewrite store_at. cbn [res_bind].
  set (val := u64 (Z.shiftl v (64 - n))) in *. rewrite Eo.
  set (m := Z.to_nat (Z.min n (8 - Z.of_nat off))).
  assert (Z.min n (8 - Z.of_nat off) = Z.of_nat m) as -> by (unfold m; lia).
  set (x' := writePartialByte _ _ _ _).
  assert (0 <= x' < 256) as Hx'b by (apply writePartialByte_range; [apply u8_range|done|lia]).
  assert (Hx' : bits_of 8 x' = take off (bits_of 8 x) ++ take m l ++ drop (off + m) (bits_of 8 x)).
  { unfold x'. rewrite writePartialByte_bits; [|apply u8_range|done|unfold m; lia|].
    - do 2 f_equal. apply top_byte_take; [done|unfold m; lia|unfold m; lia].
    - destruct (decide (off + m = 8)%nat); [by left|right].
      assert (m = length l /\ (length l <= 8)%nat) as [-> Hl8] by (unfold m in *; lia).
      by apply (top_byte_low val l Ht). }
  assert (Hsz : zlen (pre ++ x' :: post) = zlen (pre ++ x :: post)) by (rewrite !zlen_app; done).
  rewrite E in Hr.
  destruct (Z.leb_spec n (8 - Z.of_nat off)) as [Hfit|Hmore].
  - exists (pre ++ x' :: post), (drop (off + m) (bits_of 8 x) ++ bits_of_bytes post).
    split; [done|]. split; [apply Forall_app; split; [done|by constructor]|]. split; [done|].
    rewrite bits_of_bytes_app, bits_of_bytes_cons, Hx', Hwr.
    assert (take m l = l) as -> by (apply take_ge; unfold m; lia). by rewrite <- !app_assoc.
  - assert (off + m = 8)%nat as Hom by (unfold m; lia).
    rewrite <- (take_drop m l) in Ht. apply top_bits_shift in Ht.
    assert (zlen (take m l) = Z.of_nat m) as Hzm by (unfold zlen; rewrite length_take; unfold m in *; lia).
    rewrite Hzm in Ht. set (n' := n - Z.of_nat m). set (q := Z.to_nat (n' / 8)).
    set (l' := drop m l) in *. assert (length l' = Z.to_nat n') as Hl' by (unfold l', n'; rewrite length_drop; lia).
    assert (q <= length post)%nat as Hq.
    { rewrite <- Hsz, zlen_app in Hr. unfold zlen in Hr. cbn [length] in Hr. unfold q, n', m in *. dlia. }
    destruct (write_full_ok q (pre ++ [x']) (take q post) (drop q post) _ l' Ht)
      as (bs & val' & Hw & Hbs & Hlbs & Hbits & Ht'); [unfold q; dlia|rewrite length_take; lia|].
    rewrite take_drop, zlen_app, <- !app_assoc in Hw. change (zlen [x']) with 1 in Hw. cbn [app] in Hw.
    rewrite Hw. cbn [res_bind]. clear Hw.
    assert (Hsplit : l = take m l ++ take (8 * q) l' ++ drop (8 * q) l')
      by (rewrite (take_drop (8 * q)); unfold l'; by rewrite take_drop).
    rewrite Z.gtb_ltb. destruct (Z.ltb_spec 0 (n' mod 8)) as [Hrem|Hrem].
    + set (k := Z.to_nat (n' mod 8)). assert (n' mod 8 = Z.of_nat k) as -> by (unfold k; lia).
      assert (Hk8 : (0 < k < 8)%nat) by (unfold k; dlia).
      assert (Hk : length (drop (8 * q) l') = k) by (rewrite length_drop, Hl'; unfold q, k; dlia).
      destruct (drop q post) as [|y post'] eqn:Ed.
      { exfalso. apply (f_equal length) in Ed. rewrite length_drop in Ed. cbn in Ed.
        rewrite <- Hsz, zlen_app in Hr. unfold zlen in Hr. cbn [length] in Hr. unfold q, n', m, k in *. dlia. }
      replace (zlen pre + 1 + Z.of_nat q) with (zlen (pre ++ x' :: bs))
        by (rewrite zlen_app; unfold zlen; cbn [length]; lia).
      replace (pre ++ x' :: bs ++ y :: post') with ((pre ++ x' :: bs) ++ y :: post')
        by (by rewrite <- app_assoc).
      rewrite load_at. cbn [res_bind]. rewrite store_at.
      assert (byte y) as Hy.
      { apply (Forall_drop _ q) in Hbpost. rewrite Ed in Hbpost. by apply Forall_cons in Hbpost as [? _]. }
      set (y' := writePartialByte _ _ _ _).
      assert (0 <= y' < 256) as Hy'b by (apply writePartialByte_range; [apply u8_range|exact Hy|lia]).
      assert (Hy' : bits_of 8 y' = drop (8 * q) l' ++ drop k (bits_of 8 y)).
      { unfold y'. change 0 with (Z.of_nat 0). clearbody k.
        rewrite writePartialByte_bits; [|apply u8_range|exact Hy|lia|].
        - rewrite take_0. cbn [app]. f_equal. rewrite (top_byte_take _ _ _ Ht') by lia. apply take_ge. lia.
        - right. pose proof (top_byte_low _ _ Ht') as Hlow. unfold zlen in Hlow. rewrite Hk in Hlow.
          apply Hlow. lia. }
      eexists _, (drop k (bits_of 8 y) ++ bits_of_bytes post').
      split; [reflexivity|]. split; [|split].
      * apply Forall_app. split; [apply Forall_app; split; [done|by constructor]|].
        constructor; [done|]. apply (Forall_drop _ q) in Hbpost. rewrite Ed in Hbpost.
        by apply Forall_cons in Hbpost as [_ ?].
      * rewrite <- Hsz, !zlen_app. unfold zlen. cbn [length].
        apply (f_equal length) in Ed. rewrite length_drop in Ed. cbn in Ed. lia.
      * rewrite !bits_of_bytes_app, !bits_of_bytes_cons, Hx', Hy', Hbits, Hwr.
        rewrite (drop_ge (bits_of 8 x)) by (rewrite length_bits_of; lia).
        rewrite app_nil_r. trans ((bits_of_bytes pre ++ take off (bits_of 8 x)) ++
          (take m l ++ take (8 * q) l' ++ drop (8 * q) l') ++ drop k (bits_of 8 y) ++ bits_of_bytes post');
          [by rewrite <- !app_assoc|]. rewrite <- Hsplit. by rewrite app_assoc.
    + exists (pre ++ x' :: bs ++ drop q post), (bits_of_bytes (drop q post)).
      split; [done|]. split; [|split].
      * apply Forall_app. split; [done|]. constructor; [done|]. apply Forall_app.
        split; [done|]. by apply Forall_drop.
      * rewrite <- Hsz, !zlen_app. unfold zlen. cbn [length]. rewrite length_app, length_drop. lia.
      * assert (drop (8 * q) l' = []) as Hnil
          by (apply length_zero_iff_nil; rewrite length_drop, Hl'; unfold q; dlia).
        rewrite Hnil, app_nil_r in Hsplit.
        rewrite bits_of_bytes_app, bits_of_bytes_cons, bits_of_bytes_app, Hx', Hbits, Hwr.
        rewrite (drop_ge (bits_of 8 x)) by (rewrite length_bits_of; lia).
        rewrite app_nil_r. trans ((bits_of_bytes pre ++ take off (bits_of 8 x)) ++
          (take m l ++ take (8 * q) l') ++ bits_of_bytes (drop q post));
          [by rewrite <- !app_assoc|]. rewrite <- Hsplit. by rewrite app_assoc.
Qed.

(** ** Composition

    [writes m l]: given room, [m] appends the bits [l].  [reads m l a]: on a
    stream that starts with [l], [m] consumes [l] and returns [a]. *)

Definition writes (m : M BitStreamWriter dd_error unit) (l : list bool) : Prop :=
  forall w, wok w -> zlen l <= WriterRemainingBits w ->
  exists w', m w = (w', Ok tt) /\ wok w' /\ zlen (w_buf w') = zlen (w_buf w) /\
    written w' = written w ++ l.

Definition reads {A : Type} (m : M BitStreamReader dd_error A) (l : list bool) (a : A) : Prop :=
  forall b rest, rok b -> stream b = l ++ rest -> m b = (advance (zlen l) b, Ok a).

Lemma zlen_written w : wok w -> zlen (written w) = w_at w.
Proof.
  intros [_ Hp Ho Ha]. unfold written, zlen. rewrite length_take.
  pose proof (zlen_bits_of_bytes (w_buf w)) as H. unfold zlen, w_at in *. lia.
Qed.

Lemma writes_bits v n : 1 <= n <= 64 -> writes (WriteBits v n) (bits_of (Z.to_nat n) v).
Proof.
  intros Hn w Hw Hr. rewrite zlen_bits_of in Hr. rewrite WriterRemainingBits_at in Hr.
  destruct (write_bytes_ok w v n Hw Hn ltac:(lia)) as (buf & tail & Hwb & Hb & Hlb & Hbits).
  pose proof (zlen_written w Hw) as Hzw.
  destruct Hw as [_ Hp Ho Ha]. unfold WriteBits.
  rewrite Z.gtb_ltb, WriterRemainingBits_at, (proj2 (Z.ltb_ge _ _)), Hwb by lia.
  unfold consumeBits. rewrite Z.gtb_ltb, WriterRemainingBits_at.
  change (w_buf (w <| w_buf := buf |>)) with buf. change (w_at (w <| w_buf := buf |>)) with (w_at w).
  rewrite Hlb, (proj2 (Z.ltb_ge _ _)) by lia.
  eexists. split; [reflexivity|]. unfold w_at in *.
  cbn [w_buf w_pos bitOffset field_upd]. rewrite Z.quot_div_nonneg, Z.rem_mod_nonneg by lia.
  match goal with |- wok ?x /\ _ => set (w' := x) end.
  assert (Hat : w_at w' = 8 * w_pos w + bitOffset w + n) by (unfold w', w_at; cbn; dlia).
  split; [|split; [done|]].
  - constructor; rewrite ?Hat; unfold w'; cbn; [done|dlia|dlia|lia].
  - unfold written at 1. rewrite Hat. change (w_buf w') with buf. rewrite Hbits.
    apply take_app_length'. rewrite length_app, length_bits_of. unfold zlen in Hzw. lia.
Qed.

Lemma writes_ret : writes (mret tt) [].
Proof. intros w Hw _. exists w. rewrite app_nil_r. done. Qed.

Lemma writes_bind m k l1 l2 : writes m l1 -> writes k l2 -> writes (m ;;* k) (l1 ++ l2).
Proof.
  intros Hm Hk w Hw Hr. rewrite zlen_app in Hr. pose proof (zlen_nonneg l2).
  destruct (Hm w Hw ltac:(lia)) as (w1 & E1 & Hw1 & Hl1 & Ew1).
  destruct (Hk w1 Hw1) as (w2 & E2 & Hw2 & Hl2 & Ew2).
  { rewrite !WriterRemainingBits_at in *. pose proof (zlen_written w1 Hw1) as H1.
    pose proof (zlen_written w Hw) as H0. rewrite Ew1, zlen_app in H1. lia. }
  exists w2. rewrite (mbind_eq _ _ _ _ _ E1). split; [done|]. split; [done|]. split; [lia|].
  by rewrite Ew2, Ew1, app_assoc.
Qed.

Lemma writes_foreach {A} (f : A -> M BitStreamWriter dd_error unit) (enc : A -> list bool) l :
  Forall (fun x => writes (f x) (enc x)) l -> writes (mforeach f l) (mjoin (enc <$> l)).
Proof. induction 1; cbn; [apply writes_ret|by apply writes_bind]. Qed.

Lemma advance_advance m n b : advance n (advance m b) = advance (m + n) b.
Proof. unfold advance. cbn. f_equal; [f_equal|]; lia. Qed.

Lemma reads_next {A} (m : M BitStreamReader dd_error A) l a b rest :
  reads m l a -> rok b -> stream b = l ++ rest ->
  rok (advance (zlen l) b) /\ stream (advance (zlen l) b) = rest.
Proof.
  intros _ Hb Hs. pose proof (zlen_stream b Hb) as Hz. rewrite Hs, zlen_app in Hz.
  pose proof (zlen_nonneg rest). pose proof (zlen_nonneg l).
  destruct (advance_rok (zlen l) b Hb ltac:(lia)) as [H1 H2]. split; [done|].
  rewrite H2, Hs. apply drop_app_length'. unfold zlen. lia.
Qed.

Lemma advance_0 b : rok b -> advance 0 b = b.
Proof. intros [_ _ Hp]. unfold advance. rewrite Z.sub_0_r, <- Hp. by destruct b. Qed.

Lemma reads_ret {A} (a : A) : reads (mret a) [] a.
Proof. intros b rest Hb _. change (zlen []) with 0. by rewrite advance_0. Qed.

Lemma reads_bind {A B} (m : M BitStreamReader dd_error A) (k : A -> M BitStreamReader dd_error B) l1 l2 a c :
  reads m l1 a -> reads (k a) l2 c -> reads (mbind m k) (l1 ++ l2) c.
Proof.
  intros Hm Hk b rest Hb Hs. rewrite <- app_assoc in Hs.
  destruct (reads_next m l1 a b _ Hm Hb Hs) as [Hb1 Hs1].
  rewrite (mbind_eq _ _ _ _ _ (Hm b _ Hb Hs)), (Hk _ _ Hb1 Hs1), advance_advance, zlen_app. done.
Qed.

Lemma reads_map {A B} (m : M BitStreamReader dd_error A) (f : A -> B) l a :
  reads m l a -> reads (let* x := m in mret (f x)) l (f a).
Proof. intros Hm. rewrite <- (app_nil_r l). apply (reads_bind _ _ _ _ a); [done|apply reads_ret]. Qed.

Lemma reads_bits v n : 0 <= n <= 64 -> 0 <= v < 2 ^ n -> reads (ReadBits n) (bits_of (Z.to_nat n) v) v.
Proof.
  intros Hn Hv b rest Hb Hs.
  destruct (ReadBits_ok b n _ _ Hb Hn Hs) as (E & _); [rewrite zlen_bits_of; lia|].
  rewrite E, Z_of_bits_of, zlen_bits_of. rewrite Z2Nat.id by lia. by rewrite Z.mod_small.
Qed.

Lemma reads_bool (f : bool) : reads ReadBool [f] f.
Proof.
  unfold ReadBool. pose proof (reads_map (ReadBits 1) (fun val => negb (val =? 0)) (bits_of 1 (Z.b2z f))
    (Z.b2z f) (reads_bits (Z.b2z f) 1 ltac:(lia) ltac:(destruct f; cbn; lia))) as H.
  destruct f; exact H.
Qed.

Lemma reads_mmap {A B} (f : A -> M BitStreamReader dd_error B) (enc : B -> list bool) xs ys :
  Forall2 (fun x y => reads (f x) (enc y) y) xs ys -> reads (mmap f xs) (mjoin (enc <$> ys)) ys.
Proof.
  induction 1 as [|x y xs ys Hxy _ IH]; cbn [mmap]; [apply reads_ret|].
  cbn [fmap list_fmap mjoin list_join].
  apply (reads_bind (f x) _ (enc y) _ y); [exact Hxy|]. exact (reads_map (mmap f xs) (cons y) _ ys IH).
Qed.

(** A short stream is reported. *)
Lemma ReadBits_short b n : 0 <= n <= 64 -> remainingBits b < n -> snd (ReadBits n b) = Err EOF.
Proof.
  intros Hn Hr. unfold ReadBits.
  rewrite (proj2 (Z.ltb_ge n 0)), Z.gtb_ltb, (proj2 (Z.ltb_ge 64 n)) by lia. cbn [orb].
  by rewrite (proj2 (Z.ltb_lt _ _)).
Qed.

(** ** Non-symmetric values *)

Lemma bitwidth_loop_ok fuel n w : 0 <= n < 2 ^ Z.of_nat fuel ->
  bitwidth_loop fuel n w = w + (if n =? 0 then 0 else Z.log2 n + 1).
Proof.
  revert n w. induction fuel as [|fuel IH]; intros n w Hn; cbn [bitwidth_loop].
  { assert (n = 0) as -> by (change (2 ^ Z.of_nat 0) with 1 in Hn; lia). cbn. lia. }
  destruct (Z.eqb_spec n 0) as [|Hne]; [lia|].
  rewrite Nat2Z.inj_succ, Z.pow_succ_r in Hn by lia.
  assert (0 <= Z.shiftr n 1 < 2 ^ Z.of_nat fuel).
  { rewrite Z.shiftr_div_pow2 by lia. change (2 ^ 1) with 2. dlia. }
  rewrite IH by done. destruct (Z.eqb_spec (Z.shiftr n 1) 0) as [E|E].
  - rewrite Z.shiftr_div_pow2 in E by lia. change (2 ^ 1) with 2 in E.
    assert (n = 1) as -> by dlia. cbn. lia.
  - rewrite Z.log2_shiftr by lia.
    assert (2 <= n) by (rewrite Z.shiftr_div_pow2 in E by lia; change (2 ^ 1) with 2 in E; dlia).
    pose proof (Z.log2_le_mono 2 n ltac:(lia)) as Hl. change (Z.log2 2) with 1 in Hl. lia.
Qed.

(** The width [w] of [N]: [2^(w-1) <= N < 2^w]. *)
Lemma bitwidth_spec N : 1 <= N < 2 ^ 32 ->
  1 <= bitwidth N <= 32 /\ 2 ^ (bitwidth N - 1) <= N < 2 ^ bitwidth N.
Proof.
  intros HN. unfold bitwidth. rewrite bitwidth_loop_ok by (cbn in *; lia).
  rewrite (proj2 (Z.eqb_neq _ _)) by lia. pose proof (Z.log2_spec N ltac:(lia)) as [H1 H2].
  pose proof (Z.log2_nonneg N). pose proof (proj1 (Z.log2_lt_pow2 N 32 ltac:(lia)) ltac:(lia)).
  rewrite Z.add_0_l, Z.add_simpl_r. rewrite Z.add_1_r. split; [lia|done].
Qed.

Definition enc_ns (v N : Z) : list bool :=
  let w := bitwidth N in
  let k := 2 ^ w - N in
  if N =? 1 then []
  else if v <? k then bits_of (Z.to_nat (w - 1)) v else bits_of (Z.to_nat w) (v + k).

Lemma ns_min N : 1 <= N <= 2 ^ 31 ->
  u32 (u32 (Z.shiftl 1 (bitwidth N)) - N) = 2 ^ bitwidth N - N.
Proof.
  intros HN. destruct (bitwidth_spec N ltac:(lia)) as [Hw [H1 H2]].
  rewrite Z.shiftl_mul_pow2, Z.mul_1_l by lia.
  destruct (Z.eq_dec (bitwidth N) 32) as [E|E].
  - rewrite E in *. change (2 ^ (32 - 1)) with (2 ^ 31) in H1. assert (N = 2 ^ 31) as -> by lia. done.
  - assert (2 ^ bitwidth N <= 2 ^ 31) by (apply Z.pow_le_mono_r; lia). unfold u32.
    rewrite (Z.mod_small (2 ^ _)) by lia. apply Z.mod_small. lia.
Qed.

Lemma pow2_half w : 1 <= w -> 2 ^ w = 2 * 2 ^ (w - 1).
Proof. intros H. rewrite <- Z.pow_succ_r by lia. f_equal. lia. Qed.

Lemma writes_ns v N : 0 <= v < N -> N <= 2 ^ 31 -> writes (WriteNonSymmetric v N) (enc_ns v N).
Proof.
  intros Hv HN. destruct (bitwidth_spec N ltac:(lia)) as [Hw [H1 H2]].
  unfold WriteNonSymmetric, enc_ns. rewrite (proj2 (Z.ltb_lt v N)) by lia.
  change (Z.shiftl 1 31) with (2 ^ 31). rewrite (proj2 (Z.leb_le N _)) by lia. cbn [andb negb].
  destruct (Z.eqb_spec N 1) as [->|Hne]; [apply writes_ret|].
  rewrite ns_min by lia. destruct (Z.ltb_spec v (2 ^ bitwidth N - N)) as [Hlt|Hge].
  - apply writes_bits. assert (bitwidth N <> 1) by (intros E; rewrite E in H2; cbn in H2; lia). lia.
  - rewrite u32_small; [apply writes_bits; lia|].
    assert (2 ^ bitwidth N <= 2 ^ 32) by (apply Z.pow_le_mono_r; lia). lia.
Qed.

Lemma reads_ns v N : 0 <= v < N -> N < 2 ^ 31 -> reads (ReadNonSymmetric N) (enc_ns v N) v.
Proof.
  intros Hv HN. destruct (bitwidth_spec N ltac:(lia)) as [Hw [H1 H2]].
  unfold ReadNonSymmetric, enc_ns. change (Z.shiftl 1 31) with (2 ^ 31).
  rewrite Z.geb_leb, (proj2 (Z.leb_gt _ _)) by lia. rewrite ns_min by lia.
  pose proof (pow2_half (bitwidth N) ltac:(lia)) as Hhalf.
  set (w := bitwidth N) in *. set (k := 2 ^ w - N) in *.
  assert (2 ^ w <= 2 ^ 32) by (apply Z.pow_le_mono_r; lia).
  assert (Hshort : v < k -> reads (let* val := ReadBits (w - 1) in
     if val <? k then mret (u32 val)
     else let* bit := ReadBits 1 in mret (u32 (u64 (u64 (u64 (Z.shiftl val 1) + bit) - k))))
     (bits_of (Z.to_nat (w - 1)) v) v).
  { intros Hlt. rewrite <- (app_nil_r (bits_of _ v)). eapply reads_bind.
    - apply reads_bits; lia.
    - rewrite (proj2 (Z.ltb_lt v k)) by lia. rewrite u32_small by lia. apply reads_ret. }
  destruct (Z.eqb_spec N 1) as [HN1|Hne].
  - assert (w = 1) as Hw1 by (subst w; rewrite HN1; reflexivity).
    specialize (Hshort ltac:(lia)). rewrite Hw1 in *. exact Hshort.
  - destruct (Z.ltb_spec v k) as [Hlt|Hge]; [by apply Hshort|].
    replace (Z.to_nat w) with (Z.to_nat (w - 1) + 1)%nat by lia. rewrite bits_of_app.
    set (h := Z.shiftr (v + k) (Z.of_nat 1)).
    assert (Hh : h = (v + k) / 2) by (unfold h; rewrite Z.shiftr_div_pow2 by lia; done).
    eapply reads_bind.
    { apply (reads_bits h); [lia|]. rewrite Hh. split; [dlia|]. apply Z.div_lt_upper_bound; lia. }
    rewrite (proj2 (Z.ltb_ge h k)) by (rewrite Hh; dlia).
    rewrite <- (bits_of_mod 1). change (2 ^ Z.of_nat 1) with 2.
    set (F := fun bit => u32 (u64 (u64 (u64 (Z.shiftl h 1) + bit) - k))).
    assert (v = F ((v + k) mod 2)) as Ev.
    { unfold F. rewrite Z.shiftl_mul_pow2, Hh by lia. change (2 ^ 1) with 2.
      rewrite (u64_small (_ * _)) by dlia. rewrite (u64_small (_ + _)) by dlia.
      rewrite (u64_small (_ - _)) by dlia. rewrite u32_small by dlia. dlia. }
    rewrite Ev at 2. apply (reads_map (ReadBits 1) F). apply (reads_bits _ 1); [lia|].
    change (2 ^ 1) with 2. dlia.
Qed.

Lemma SizeNonSymmetricBits_ok v N : 0 <= v < N -> N <= 2 ^ 31 ->
  SizeNonSymmetricBits v N = zlen (enc_ns v N).
Proof.
  intros Hv HN. destruct (bitwidth_spec N ltac:(lia)) as [Hw [H1 H2]].
  unfold SizeNonSymmetricBits, enc_ns. rewrite ns_min by lia.
  destruct (Z.eqb_spec N 1) as [->|Hne].
  - rewrite (proj2 (Z.ltb_lt _ _)) by (change (2 ^ bitwidth 1 - 1) with 1; lia). done.
  - destruct (Z.ltb_spec v (2 ^ bitwidth N - N)); rewrite zlen_bits_of; lia.
Qed.

(** ** Properties *)

(** The byte-wise reader returns exactly the next [n] bits of the buffer,
    most significant first, and moves past them; when fewer are left it
    reports EOF and never indexes out of range. *)
Theorem ReadBits_refines b n :
  rok b -> 0 <= n <= 64 ->
  if decide (n <= remainingBits b) then
    ReadBits n b = (advance n b, Ok (Z_of_bits (take (Z.to_nat n) (stream b)))) /\
    rok (advance n b) /\ stream (advance n b) = drop (Z.to_nat n) (stream b)
  else snd (ReadBits n b) = Err EOF.
Proof.
  intros Hb Hn. destruct (decide _) as [Hle|Hgt]; [|apply ReadBits_short; lia].
  pose proof (zlen_stream b Hb) as Hz. unfold zlen in Hz.
  apply ReadBits_ok; [done|done|by rewrite take_drop|].
  unfold zlen. rewrite length_take. lia.
Qed.

Lemma ReadBits_refines_witness :
  rok (mkReader [0xA5; 0x3C; 0xFF] 0 21) /\
  ReadBits 7 (mkReader [0xA5; 0x3C; 0xFF] 0 21) = (mkReader [0xA5; 0x3C; 0xFF] 1 14, Ok 20).
Proof.
  assert (rok (mkReader [0xA5; 0x3C; 0xFF] 0 21)) as H
    by (constructor; [repeat constructor; unfold byte; lia|unfold zlen; cbn; lia|reflexivity]).
  split; [exact H|]. exact (proj1 (ReadBits_refines _ 7 H ltac:(lia))).
Defined.

(** The byte-wise writer appends exactly the low [n] bits of the value to
    what it has written before, leaving earlier bits as they were, whenever
    they fit; otherwise it reports the lack of space and writes nothing. *)
Theorem WriteBits_refines w v n :
  wok w -> 1 <= n <= 64 ->
  if decide (n <= WriterRemainingBits w) then
    exists w', WriteBits v n w = (w', Ok tt) /\ wok w' /\ zlen (w_buf w') = zlen (w_buf w) /\
      written w' = written w ++ bits_of (Z.to_nat n) v
  else WriteBits v n w = (w, Err errInsufficientSpace).
Proof.
  intros Hw Hn. destruct (decide _) as [Hle|Hgt].
  - apply writes_bits; [done|done|]. rewrite zlen_bits_of. lia.
  - unfold WriteBits. by rewrite Z.gtb_ltb, (proj2 (Z.ltb_lt _ _)) by lia.
Qed.

Lemma WriteBits_refines_witness :
  wok (mkWriter [0xE0; 0xFF; 0x12] 0 3) /\
  exists w', WriteBits 0x1A5 9 (mkWriter [0xE0; 0xFF; 0x12] 0 3) = (w', Ok tt) /\ wok w' /\
    zlen (w_buf w') = 3 /\ written w' = [true; true; true] ++ bits_of 9 0x1A5.
Proof.
  assert (wok (mkWriter [0xE0; 0xFF; 0x12] 0 3)) as H
    by (constructor; [repeat constructor; unfold byte; lia|cbn; lia|cbn; lia|unfold w_at, zlen; cbn; lia]).
  split; [exact H|]. exact (WriteBits_refines _ 0x1A5 9 H ltac:(lia)).
Defined.

(** A value below [numValues] written non-symmetrically takes exactly
    [SizeNonSymmetricBits] bits and is read back, whatever follows it. *)
Theorem NonSymmetric_roundtrip v numValues w :
  0 <= v < numValues -> numValues < 2 ^ 31 -> wok w ->
  SizeNonSymmetricBits v numValues <= WriterRemainingBits w ->
  exists w' l, WriteNonSymmetric v numValues w = (w', Ok tt) /\ written w' = written w ++ l /\
    zlen l = SizeNonSymmetricBits v numValues /\
    forall b rest, rok b -> stream b = l ++ rest ->
      ReadNonSymmetric numValues b = (advance (zlen l) b, Ok v) /\ stream (advance (zlen l) b) = rest.
Proof.
  intros Hv HN Hw Hr. rewrite SizeNonSymmetricBits_ok in * by lia.
  destruct (writes_ns v numValues Hv ltac:(lia) w Hw Hr) as (w' & E & _ & _ & Hwr).
  exists w', (enc_ns v numValues). split; [done|]. split; [done|]. split; [done|].
  intros b rest Hb Hs. pose proof (reads_ns v numValues Hv HN) as Hrd.
  split; [by eapply Hrd|]. by eapply (reads_next _ _ _ _ _ Hrd).
Qed.

Lemma NonSymmetric_roundtrip_witness :
  exists w' l, WriteNonSymmetric 4 5 (mkWriter [0; 0] 0 2) = (w', Ok tt) /\
    written w' = [false; false] ++ l /\ zlen l = 3 /\
    forall b rest, rok b -> stream b = l ++ rest ->
      ReadNonSymmetric 5 b = (advance (zlen l) b, Ok 4) /\ stream (advance (zlen l) b) = rest.
Proof.
  apply (NonSymmetric_roundtrip 4 5 (mkWriter [0; 0] 0 2)); [lia|lia| |vm_compute; discriminate].
  constructor; [repeat constructor; unfold byte; lia|cbn; lia|cbn; lia|unfold w_at, zlen; cbn; lia].
Defined.
