(* ===== verification/DdReader.v ===== *)
(** * Reading a dependency descriptor

    Models [src/SERVER/pkg/sfu/rtpextension/dependencydescriptor/
    dependencydescriptorreader.go].  The methods that fill the attached
    structure return it; the others act on the reader's record.  A descriptor
    left half filled on an error path is dropped by every caller and is not
    kept here. *)

From S2P Require Import Prelude DdTypes DdBits.

(** [append(s, x)] *)
Definition append {A : Type} (s : slice A) (x : A) : slice A := Some (elems s ++ [x]).

Notation R := (M BitStreamReader dd_error).

(** ** The template dependency structure *)

Inductive nextLayerIdcType := sameLayer | nextTemporalLayer | nextSpatialLayer | noMoreLayer | invalidLayer.

#[export] Instance nextLayerIdcType_eq_dec : EqDecision nextLayerIdcType.
Proof. solve_decision. Defined.

(** [nextLayerIdcType(idc)] for the value of two bits *)
Definition idc_of_Z (v : Z) : nextLayerIdcType :=
  match v with
  | 0 => sameLayer
  | 1 => nextTemporalLayer
  | 2 => nextSpatialLayer
  | 3 => noMoreLayer
  | _ => invalidLayer
  end.

(** The loop of [readTemplateLayers]; [fuel] is [MaxTemplates - len(templates)]. *)
Fixpoint readTemplateLayers_loop (fuel : nat) (temporalId spatialId : Z)
  (templates : list FrameDependencyTemplate) : R (list FrameDependencyTemplate) :=
  match fuel with
  | O => mfail ErrDDReaderTooManyTemplates
  | S fuel =>
    let templates := templates ++ [mkTemplate spatialId temporalId None None []] in
    let* idc := ReadBits 2 in
    let nextLayerIdc := idc_of_Z idc in
    match nextLayerIdc with
    | nextTemporalLayer =>
      if temporalId + 1 >=? MaxTemporalIds then mfail ErrDDReaderTooManyTemporalLayers
      else readTemplateLayers_loop fuel (temporalId + 1) spatialId templates
    | nextSpatialLayer =>
      if spatialId + 1 >=? MaxSpatialIds then mfail ErrDDReaderTooManySpatialLayers
      else readTemplateLayers_loop fuel 0 (spatialId + 1) templates
    | noMoreLayer => mret templates
    | _ =>
      let* b := mget in
      if ReaderOk b then readTemplateLayers_loop fuel temporalId spatialId templates
      else mret templates
    end
  end.

Definition readTemplateLayers : R (list FrameDependencyTemplate) :=
  readTemplateLayers_loop (Z.to_nat MaxTemplates) 0 0 [].

(** [DecodeTargetIndication(r.buffer.ReadBits(2))] *)
Definition readDti : R DecodeTargetIndication :=
  let* indication := ReadBits 2 in mret (dti_of_Z indication).

Definition readTemplateDti (numDecodeTargets : Z) (t : FrameDependencyTemplate)
  : R FrameDependencyTemplate :=
  let cur := elems (DecodeTargetIndications t) in
  let dtis :=
    if zlen cur <? numDecodeTargets then
      cur ++ repeat DecodeTargetNotPresent (Z.to_nat (numDecodeTargets - zlen cur))
    else ztake numDecodeTargets cur in
  let* dtis := mmap (fun _ => readDti) dtis in
  mret (t <| DecodeTargetIndications := Some dtis |>).

Definition readTemplateDtis (numDecodeTargets : Z) : list FrameDependencyTemplate ->
  R (list FrameDependencyTemplate) := mmap (readTemplateDti numDecodeTargets).

(** Every round of the loop consumes a bit, so [remainingBits + 1] rounds are enough. *)
Fixpoint readTemplateFdiffs_loop (fuel : nat) (fdiffs : slice Z) : R (slice Z) :=
  match fuel with
  | O => mfail outOfFuel
  | S fuel =>
    let* fdiffFollow := ReadBool in
    if negb fdiffFollow then mret fdiffs
    else
      let* fDiffMinusOne := ReadBits 4 in
      readTemplateFdiffs_loop fuel (append fdiffs (fDiffMinusOne + 1))
  end.

Definition readTemplateFdiff (t : FrameDependencyTemplate) : R FrameDependencyTemplate :=
  let* b := mget in
  let* fdiffs := readTemplateFdiffs_loop (S (Z.to_nat (remainingBits b))) (FrameDiffs t) in
  mret (t <| FrameDiffs := fdiffs |>).

Definition readTemplateFdiffs : list FrameDependencyTemplate -> R (list FrameDependencyTemplate) :=
  mmap readTemplateFdiff.

Definition readTemplateChain (numChains : Z) (t : FrameDependencyTemplate) : R FrameDependencyTemplate :=
  let* diffs := mmap (fun _ => ReadBits 4) (repeat tt (Z.to_nat numChains)) in
  mret (t <| ChainDiffs := ChainDiffs t ++ diffs |>).

Definition readTemplateChains (st : FrameDependencyStructure) : R FrameDependencyStructure :=
  let* numChains := ReadNonSymmetric (u32 (u32 (NumDecodeTargets st) + 1)) in
  let st := st <| NumChains := numChains |> in
  if NumChains st =? 0 then mret st
  else
    let* protectedBy := mmap (fun _ => ReadNonSymmetric (u32 (NumChains st)))
                          (repeat tt (Z.to_nat (NumDecodeTargets st))) in
    let* templates := mmap (readTemplateChain (NumChains st)) (Templates st) in
    mret (st <| DecodeTargetProtectedByChain := DecodeTargetProtectedByChain st ++ protectedBy |>
             <| Templates := templates |>).

Definition readResolution : R RenderResolution :=
  let* widthMinus1 := ReadBits 16 in
  let* heightMinus1 := ReadBits 16 in
  mret (mkRenderResolution (widthMinus1 + 1) (heightMinus1 + 1)).

Definition readResolutions (st : FrameDependencyStructure) : R FrameDependencyStructure :=
  match last (Templates st) with
  | None => mfail panicIndex
  | Some t =>
    let* resolutions := mmap (fun _ => readResolution) (repeat tt (Z.to_nat (SpatialId t + 1))) in
    mret (st <| Resolutions := Resolutions st ++ resolutions |>)
  end.

Definition readTemplateDependencyStructure : R FrameDependencyStructure :=
  let* structureId := ReadBits 6 in
  let* numDecodeTargets := ReadBits 5 in
  let numDecodeTargets := numDecodeTargets + 1 in
  let* templates := readTemplateLayers in
  let* templates := readTemplateDtis numDecodeTargets templates in
  let* templates := readTemplateFdiffs templates in
  let* st := readTemplateChains (mkStructure structureId numDecodeTargets 0 [] [] templates) in
  let* flag := ReadBool in
  if flag then readResolutions st else mret st.

(** ** The reader *)

Record DependencyDescriptorReader := mkDDReader {
  rd_descriptor : DependencyDescriptor;
  rd_buffer : BitStreamReader;
  frameDependencyTemplateId : Z;
  activeDecodeTargetsPresentFlag : bool;
  customDtisFlag : bool;
  customFdiffsFlag : bool;
  customChainsFlag : bool;
  rd_structure : option FrameDependencyStructure;
}.
#[export] Instance eta_DDReader : Eta DependencyDescriptorReader := fun r =>
  mkDDReader (rd_descriptor r) (rd_buffer r) (frameDependencyTemplateId r)
    (activeDecodeTargetsPresentFlag r) (customDtisFlag r) (customFdiffsFlag r)
    (customChainsFlag r) (rd_structure r).

Notation DR := (M DependencyDescriptorReader dd_error).

Definition NewDependencyDescriptorReader (buf : list Z) (structure : option FrameDependencyStructure)
  (descriptor : DependencyDescriptor) : DependencyDescriptorReader :=
  mkDDReader descriptor (NewBitStreamReader buf) 0 false false false false structure.

(** A read of [r.buffer]. *)
Definition on_buffer {A : Type} (m : R A) : DR A := fun r =>
  let '(b, x) := m (rd_buffer r) in (r <| rd_buffer := b |>, x).

Definition set_descriptor (f : DependencyDescriptor -> DependencyDescriptor) : DR unit :=
  mmodify (fun r => r <| rd_descriptor := f (rd_descriptor r) |>).

Definition readMandatoryFields : DR unit :=
  let* first := on_buffer ReadBool in
  set_descriptor (fun d => d <| FirstPacketInFrame := first |>) ;;*
  let* last := on_buffer ReadBool in
  set_descriptor (fun d => d <| LastPacketInFrame := last |>) ;;*
  let* templateID := on_buffer (ReadBits 6) in
  mmodify (fun r => r <| frameDependencyTemplateId := templateID |>) ;;*
  let* frameNumber := on_buffer (ReadBits 16) in
  set_descriptor (fun d => d <| FrameNumber := u16 frameNumber |>).

Definition readExtendedFields : DR unit :=
  let* templateDependencyStructurePresentFlag := on_buffer ReadBool in
  let* flag := on_buffer ReadBool in
  mmodify (fun r => r <| activeDecodeTargetsPresentFlag := flag |>) ;;*
  let* flag := on_buffer ReadBool in
  mmodify (fun r => r <| customDtisFlag := flag |>) ;;*
  let* flag := on_buffer ReadBool in
  mmodify (fun r => r <| customFdiffsFlag := flag |>) ;;*
  let* flag := on_buffer ReadBool in
  mmodify (fun r => r <| customChainsFlag := flag |>) ;;*
  if templateDependencyStructurePresentFlag then
    let* st := on_buffer readTemplateDependencyStructure in
    set_descriptor (fun d =>
      d <| AttachedStructure := Some st |>
        <| ActiveDecodeTargetsBitmask := Some (u32 (u64 (Z.shiftl 1 (NumDecodeTargets st)) - 1)) |>)
  else mret tt.

(** The three overrides act on the frame's copy of the template. *)
Definition readFrameDtis (st : FrameDependencyStructure) (t : FrameDependencyTemplate)
  : R FrameDependencyTemplate :=
  let cur := elems (DecodeTargetIndications t) in
  mcheck (zlen cur =? NumDecodeTargets st) ErrDDReaderNumDTIMismatch ;;*
  let* dtis := mmap (fun _ => readDti) cur in
  mret (t <| DecodeTargetIndications := Some dtis |>).

Fixpoint readFrameFdiffs_loop (fuel : nat) (fdiffs : slice Z) : R (slice Z) :=
  match fuel with
  | O => mfail outOfFuel
  | S fuel =>
    let* nexFdiffSize := ReadBits 2 in
    if nexFdiffSize =? 0 then mret fdiffs
    else
      let* fDiffMinusOne := ReadBits (nexFdiffSize * 4) in
      readFrameFdiffs_loop fuel (append fdiffs (fDiffMinusOne + 1))
  end.

(** [FrameDiffs[:0]] of a non-nil slice is empty and not nil. *)
Definition readFrameFdiffs (t : FrameDependencyTemplate) : R FrameDependencyTemplate :=
  let* b := mget in
  let* fdiffs := readFrameFdiffs_loop (S (Z.to_nat (remainingBits b)))
                   (match FrameDiffs t with Some _ => Some [] | None => None end) in
  mret (t <| FrameDiffs := fdiffs |>).

Definition readFrameChains (st : FrameDependencyStructure) (t : FrameDependencyTemplate)
  : R FrameDependencyTemplate :=
  mcheck (zlen (ChainDiffs t) =? NumChains st) ErrDDReaderNumChainDiffsMismatch ;;*
  let* diffs := mmap (fun _ => ReadBits 8) (ChainDiffs t) in
  mret (t <| ChainDiffs := diffs |>).

Definition when_ {A : Type} (c : bool) (f : A -> R A) (x : A) : R A := if c then f x else mret x.

Definition readFrameDependencyDefinition (st : FrameDependencyStructure) : DR unit := fun r =>
  let templateIndex := Z.rem (frameDependencyTemplateId r + MaxTemplates - StructureId st) MaxTemplates in
  if templateIndex >=? zlen (Templates st) then
    (r <| rd_buffer := Invalidate (rd_buffer r) |>, Err ErrDDReaderInvalidTemplateIndex)
  else
    match zlookup (Templates st) templateIndex with
    | None => (r, Err panicIndex)
    | Some template =>
      (let* t := on_buffer (
         let* t := when_ (customDtisFlag r) (readFrameDtis st) (Clone template) in
         let* t := when_ (customFdiffsFlag r) readFrameFdiffs t in
         when_ (customChainsFlag r) (readFrameChains st) t) in
       set_descriptor (fun d => d <| FrameDependencies := Some t |>) ;;*
       match Resolutions st with
       | [] => set_descriptor (fun d => d <| Resolution := None |>)
       | _ =>
         if SpatialId t >=? zlen (Resolutions st) then
           fun r => (r <| rd_buffer := Invalidate (rd_buffer r) |>, Err ErrDDReaderInvalidSpatialLayer)
         else
           match zlookup (Resolutions st) (SpatialId t) with
           | None => mfail panicIndex
           | Some res => set_descriptor (fun d => d <| Resolution := Some res |>)
           end
       end) r
    end.

Definition Parse : DR Z :=
  readMandatoryFields ;;*
  let* r := mget in
  (if zlen (r_buf (rd_buffer r)) >? 3 then readExtendedFields else mret tt) ;;*
  let* r := mget in
  let structure := match AttachedStructure (rd_descriptor r) with
                   | Some st => Some st
                   | None => rd_structure r
                   end in
  match structure with
  | None => fun r => (r <| rd_buffer := Invalidate (rd_buffer r) |>, Err ErrDDReaderNoStructure)
  | Some st =>
    (if activeDecodeTargetsPresentFlag r then
       let* bitmask := on_buffer (ReadBits (NumDecodeTargets st)) in
       set_descriptor (fun d => d <| ActiveDecodeTargetsBitmask := Some (u32 bitmask) |>)
     else mret tt) ;;*
    readFrameDependencyDefinition st ;;*
    let* r := mget in
    mret (BytesRead (rd_buffer r))
  end.

(** ** [DependencyDescriptorExtension.Unmarshal]

    The result is the descriptor filled in and the number of bytes read. *)
Definition Unmarshal (buf : list Z) (structure : option FrameDependencyStructure)
  (descriptor : DependencyDescriptor) : res dd_error (DependencyDescriptor * Z) :=
  match Parse (NewDependencyDescriptorReader buf structure descriptor) with
  | (r, Ok n) => Ok (rd_descriptor r, n)
  | (_, Err e) => Err e
  end.
