(* ===== verification/DdWriter.v ===== *)
(** * Writing a dependency descriptor

    Models [src/SERVER/pkg/sfu/rtpextension/dependencydescriptor/
    dependencydescriptorwriter.go] and the marshalling half of
    [dependencydescriptorextension.go].  [DdCodec] proves that a marshalled
    descriptor is read back by [DdReader.Unmarshal]. *)

From S2P Require Import Prelude DdTypes DdBits DdReader.

Notation W := (M BitStreamWriter dd_error).

Record TemplateMatch := mkMatch {
  TemplateIdx : Z;
  NeedCustomDtis : bool;
  NeedCustomFdiffs : bool;
  NeedCustomChains : bool;
  ExtraSizeBits : Z;
}.
#[export] Instance eta_TemplateMatch : Eta TemplateMatch := fun m =>
  mkMatch (TemplateIdx m) (NeedCustomDtis m) (NeedCustomFdiffs m) (NeedCustomChains m) (ExtraSizeBits m).

(** The writer without its bit stream, which the monad [W] threads. *)
Record DependencyDescriptorWriter := mkDDWriter {
  wr_descriptor : DependencyDescriptor;
  wr_frame : FrameDependencyTemplate;   (** [*descriptor.FrameDependencies] *)
  wr_structure : FrameDependencyStructure;
  activeChains : Z;
  bestTemplate : TemplateMatch;
}.

(** ** Choosing the template *)

Definition same_layer (f t : FrameDependencyTemplate) : bool :=
  (SpatialId f =? SpatialId t) && (TemporalId f =? TemporalId t).

(** [w.activeChains&(1<<i) != 0] *)
Definition chain_active (activeChains i : Z) : bool :=
  negb (Z.land activeChains (u32 (Z.shiftl 1 i)) =? 0).

(** The loop over the chains breaks at the first mismatch. *)
Definition needCustomChains (w_structure : FrameDependencyStructure) (activeChains : Z)
  (f t : FrameDependencyTemplate) : bool :=
  existsb (fun i =>
    chain_active activeChains i &&
    ((zlen (ChainDiffs f) <=? i) || (zlen (ChainDiffs t) <=? i) ||
     match zlookup (ChainDiffs f) i, zlookup (ChainDiffs t) i with
     | Some a, Some b => negb (a =? b)
     | _, _ => true
     end)) (zseq (Z.to_nat (NumChains w_structure))).

Definition fdiffBits (fdiff : Z) : Z :=
  if fdiff <=? Z.shiftl 1 4 then 4 else if fdiff <=? Z.shiftl 1 8 then 8 else 12.

(** [s != nil && !slices.Equal(s, t)] *)
Definition differs {A : Type} `{EqDecision A} (s t : slice A) : bool :=
  match s with
  | None => false
  | Some l => negb (bool_decide (l = elems t))
  end.

Definition sumZ (l : list Z) : Z := foldr Z.add 0 l.

Definition calculateMatch (st : FrameDependencyStructure) (activeChains : Z)
  (f : FrameDependencyTemplate) (idx : Z) (template : FrameDependencyTemplate) : TemplateMatch :=
  let fdiffs := differs (FrameDiffs f) (FrameDiffs template) in
  let dtis := differs (DecodeTargetIndications f) (DecodeTargetIndications template) in
  let chains := needCustomChains st activeChains f template in
  let size := 0 in
  let size := if fdiffs then
                2 * (1 + zlen (elems (FrameDiffs f))) + sumZ (map fdiffBits (elems (FrameDiffs f)))
              else size in
  let size := if dtis then size + 2 * zlen (elems (DecodeTargetIndications f)) else size in
  let size := if chains then size + 8 * NumChains st else size in
  mkMatch idx dtis fdiffs chains size.

(** The first template of the frame's layer and its index. *)
Fixpoint findFirst (f : FrameDependencyTemplate) (i : Z) (l : list FrameDependencyTemplate)
  : option (Z * FrameDependencyTemplate) :=
  match l with
  | [] => None
  | t :: l => if same_layer f t then Some (i, t) else findFirst f (i + 1) l
  end.

(** The second loop: the last index from [i] on whose template has another layer. *)
Fixpoint findLast (f : FrameDependencyTemplate) (i : Z) (l : list FrameDependencyTemplate) (acc : Z) : Z :=
  match l with
  | [] => acc
  | t :: l => findLast f (i + 1) l (if same_layer f t then acc else i)
  end.

(** The third loop, over [templates[i..]] up to index [last]. *)
Fixpoint improve (st : FrameDependencyStructure) (activeChains : Z) (f : FrameDependencyTemplate)
  (i last : Z) (l : list FrameDependencyTemplate) (best : TemplateMatch) : TemplateMatch :=
  match l with
  | [] => best
  | t :: l =>
    if i <=? last then
      let match_ := calculateMatch st activeChains f i t in
      improve st activeChains f (i + 1) last l
        (if ExtraSizeBits match_ <? ExtraSizeBits best then match_ else best)
    else best
  end.

Definition findBestTemplate (st : FrameDependencyStructure) (activeChains : Z)
  (f : FrameDependencyTemplate) : res dd_error TemplateMatch :=
  match findFirst f 0 (Templates st) with
  | None => Err errNoTemplate
  | Some (firstSameLayerIdx, firstSameLayer) =>
    let lastSameLayerIdx := findLast f firstSameLayerIdx (zdrop firstSameLayerIdx (Templates st)) 0 in
    Ok (improve st activeChains f (firstSameLayerIdx + 1) lastSameLayerIdx
          (zdrop (firstSameLayerIdx + 1) (Templates st))
          (calculateMatch st activeChains f firstSameLayerIdx firstSameLayer))
  end.

(** [NewDependencyDescriptorWriter]: a nil structure or frame is dereferenced. *)
Definition NewDependencyDescriptorWriter (structure : option FrameDependencyStructure)
  (activeChains : Z) (descriptor : DependencyDescriptor) : res dd_error DependencyDescriptorWriter :=
  match structure with
  | None => Err panicNil
  | Some st =>
    match FrameDependencies descriptor with
    | None => Err panicNil
    | Some f =>
      let! best := findBestTemplate st activeChains f in
      Ok (mkDDWriter descriptor f st activeChains best)
    end
  end.

(** ** Writing *)

Definition writeBool (val : bool) : W unit := WriteBits (if val then 1 else 0) 1.

Definition hasExtendedFields (w : DependencyDescriptorWriter) : bool :=
  (ExtraSizeBits (bestTemplate w) >? 0) || bool_decide (is_Some (AttachedStructure (wr_descriptor w)))
  || bool_decide (is_Some (ActiveDecodeTargetsBitmask (wr_descriptor w))).

Definition shouldWriteActiveDecodeTargetsBitmask (w : DependencyDescriptorWriter) : bool :=
  match ActiveDecodeTargetsBitmask (wr_descriptor w) with
  | None => false
  | Some mask =>
    let allDecodeTargetsBitmask := u64 (u64 (Z.shiftl 1 (NumDecodeTargets (wr_structure w))) - 1) in
    negb (bool_decide (is_Some (AttachedStructure (wr_descriptor w)))
          && (mask =? allDecodeTargetsBitmask))
  end.

Definition writeMandatoryFields (w : DependencyDescriptorWriter) : W unit :=
  writeBool (FirstPacketInFrame (wr_descriptor w)) ;;*
  writeBool (LastPacketInFrame (wr_descriptor w)) ;;*
  WriteBits (u64 (Z.rem (TemplateIdx (bestTemplate w) + StructureId (wr_structure w)) MaxTemplates)) 6 ;;*
  WriteBits (FrameNumber (wr_descriptor w)) 16.

Definition idc_to_Z (i : nextLayerIdcType) : Z :=
  match i with
  | sameLayer => 0
  | nextTemporalLayer => 1
  | nextSpatialLayer => 2
  | noMoreLayer => 3
  | invalidLayer => 4
  end.

Definition getNextLayerIdc (prevTemplate nextTemplate : FrameDependencyTemplate) : nextLayerIdcType :=
  if (SpatialId nextTemplate =? SpatialId prevTemplate)
     && (TemporalId nextTemplate =? TemporalId prevTemplate) then sameLayer
  else if (SpatialId nextTemplate =? SpatialId prevTemplate)
          && (TemporalId nextTemplate =? TemporalId prevTemplate + 1) then nextTemporalLayer
  else if (SpatialId nextTemplate =? SpatialId prevTemplate + 1) && (TemporalId nextTemplate =? 0)
  then nextSpatialLayer
  else invalidLayer.

Fixpoint writeTemplateLayers_loop (prev : FrameDependencyTemplate)
  (l : list FrameDependencyTemplate) : W unit :=
  match l with
  | [] => mret tt
  | t :: l =>
    let nextLayerIdc := getNextLayerIdc prev t in
    mcheck (idc_to_Z nextLayerIdc <? 3) errInvalidNextLayerIdc ;;*
    WriteBits (idc_to_Z nextLayerIdc) 2 ;;*
    writeTemplateLayers_loop t l
  end.

(** An empty template list panics while the error message is built. *)
Definition writeTemplateLayers (st : FrameDependencyStructure) : W unit :=
  match Templates st with
  | [] => mfail panicIndex
  | t0 :: l =>
    mcheck ((zlen (Templates st) <=? MaxTemplates) && (SpatialId t0 =? 0) && (TemporalId t0 =? 0))
      errInvalidTemplates ;;*
    writeTemplateLayers_loop t0 l ;;*
    WriteBits (idc_to_Z noMoreLayer) 2
  end.

Definition writeDti (dti : DecodeTargetIndication) : W unit := WriteBits (dti_to_Z dti) 2.

Definition writeTemplateDtis (st : FrameDependencyStructure) : W unit :=
  mforeach (fun t => mforeach writeDti (elems (DecodeTargetIndications t))) (Templates st).

Definition writeTemplateFdiffs (st : FrameDependencyStructure) : W unit :=
  mforeach (fun t =>
    mforeach (fun fdiff => WriteBits (Z.lor (Z.shiftl 1 4) (u64 (fdiff - 1))) 5) (elems (FrameDiffs t)) ;;*
    WriteBits 0 1) (Templates st).

Definition writeTemplateChains (st : FrameDependencyStructure) : W unit :=
  WriteNonSymmetric (u32 (NumChains st)) (u32 (NumDecodeTargets st + 1)) ;;*
  if NumChains st =? 0 then mret tt
  else
    mforeach (fun protectedBy => WriteNonSymmetric (u32 protectedBy) (u32 (NumChains st)))
      (DecodeTargetProtectedByChain st) ;;*
    mforeach (fun t => mforeach (fun chainDiff => WriteBits (u64 chainDiff) 4) (ChainDiffs t)) (Templates st).

Definition writeResolutions (st : FrameDependencyStructure) : W unit :=
  mforeach (fun res => WriteBits (u64 (u64 (Width res) - 1)) 16 ;;*
                       WriteBits (u64 (u64 (Height res) - 1)) 16) (Resolutions st).

Definition writeTemplateDependencyStructure (st : FrameDependencyStructure) : W unit :=
  mcheck ((0 <=? StructureId st) && (StructureId st <? MaxTemplates)
          && (0 <? NumDecodeTargets st) && (NumDecodeTargets st <=? MaxDecodeTargets))
    errInvalidArguments ;;*
  WriteBits (u64 (StructureId st)) 6 ;;*
  WriteBits (u64 (NumDecodeTargets st - 1)) 5 ;;*
  writeTemplateLayers st ;;*
  writeTemplateDtis st ;;*
  writeTemplateFdiffs st ;;*
  writeTemplateChains st ;;*
  writeBool (zlen (Resolutions st) >? 0) ;;*
  writeResolutions st.

Definition writeExtendedFields (w : DependencyDescriptorWriter) : W unit :=
  writeBool (bool_decide (is_Some (AttachedStructure (wr_descriptor w)))) ;;*
  writeBool (shouldWriteActiveDecodeTargetsBitmask w) ;;*
  writeBool (NeedCustomDtis (bestTemplate w)) ;;*
  writeBool (NeedCustomFdiffs (bestTemplate w)) ;;*
  writeBool (NeedCustomChains (bestTemplate w)) ;;*
  (if bool_decide (is_Some (AttachedStructure (wr_descriptor w))) then
     writeTemplateDependencyStructure (wr_structure w)
   else mret tt) ;;*
  if shouldWriteActiveDecodeTargetsBitmask w then
    match ActiveDecodeTargetsBitmask (wr_descriptor w) with
    | Some mask => WriteBits mask (NumDecodeTargets (wr_structure w))
    | None => mfail panicNil
    end
  else mret tt.

Definition writeFrameDtis (w : DependencyDescriptorWriter) : W unit :=
  mforeach writeDti (elems (DecodeTargetIndications (wr_frame w))).

Definition writeFrameFdiff (fdiff : Z) : W unit :=
  if fdiff <=? Z.shiftl 1 4 then WriteBits (Z.lor (Z.shiftl 1 4) (u64 (fdiff - 1))) (2 + 4)
  else if fdiff <=? Z.shiftl 1 8 then WriteBits (Z.lor (Z.shiftl 2 8) (u64 (fdiff - 1))) (2 + 8)
  else WriteBits (Z.lor (Z.shiftl 3 12) (u64 (fdiff - 1))) (2 + 12).

Definition writeFrameFdiffs (w : DependencyDescriptorWriter) : W unit :=
  mforeach writeFrameFdiff (elems (FrameDiffs (wr_frame w))) ;;* WriteBits 0 2.

Definition writeFrameChains (w : DependencyDescriptorWriter) : W unit :=
  mforeach (fun i =>
    if chain_active (activeChains w) i then
      match zlookup (ChainDiffs (wr_frame w)) i with
      | None => mfail panicIndex
      | Some chainDiff => WriteBits (u64 chainDiff) 8
      end
    else WriteBits 0 8) (zseq (Z.to_nat (NumChains (wr_structure w)))).

Definition writeFrameDependencyDefinition (w : DependencyDescriptorWriter) : W unit :=
  (if NeedCustomDtis (bestTemplate w) then writeFrameDtis w else mret tt) ;;*
  (if NeedCustomFdiffs (bestTemplate w) then writeFrameFdiffs w else mret tt) ;;*
  if NeedCustomChains (bestTemplate w) then writeFrameChains w else mret tt.

(** [Write]; it looks for the best template again, with the same result. *)
Definition Write (w : DependencyDescriptorWriter) : W unit :=
  match findBestTemplate (wr_structure w) (activeChains w) (wr_frame w) with
  | Err e => mfail e
  | Ok best =>
    let w := mkDDWriter (wr_descriptor w) (wr_frame w) (wr_structure w) (activeChains w) best in
    writeMandatoryFields w ;;*
    (if hasExtendedFields w then
       writeExtendedFields w ;;* writeFrameDependencyDefinition w
     else mret tt) ;;*
    let* b := mget in
    let remainingBits := WriterRemainingBits b in
    (if negb (Z.rem remainingBits 64 =? 0) then WriteBits 0 (Z.rem remainingBits 64) else mret tt) ;;*
    mforeach (fun _ => WriteBits 0 64) (repeat tt (Z.to_nat (Z.quot remainingBits 64)))
  end.

(** ** Sizes *)

Definition mandatoryFieldSize : Z := 1 + 1 + 6 + 16.

Definition structureSizeBits (st : FrameDependencyStructure) : Z :=
  let bits := 11 in
  let bits := bits + 2 * zlen (Templates st) in
  let bits := bits + 2 * zlen (Templates st) * NumDecodeTargets st in
  let bits := bits + zlen (Templates st) in
  let bits := bits + sumZ (map (fun t => 5 * zlen (elems (FrameDiffs t))) (Templates st)) in
  let bits := bits + SizeNonSymmetricBits (u32 (NumChains st)) (u32 (NumDecodeTargets st + 1)) in
  let bits :=
    if NumChains st >? 0 then
      bits + sumZ (map (fun protectedBy => SizeNonSymmetricBits (u32 protectedBy) (u32 (NumChains st)))
                     (DecodeTargetProtectedByChain st))
           + 4 * zlen (Templates st) * NumChains st
    else bits in
  bits + (1 + 32 * zlen (Resolutions st)).

Definition ValueSizeBits (w : DependencyDescriptorWriter) : Z :=
  let valueSizeBits := mandatoryFieldSize + ExtraSizeBits (bestTemplate w) in
  if hasExtendedFields w then
    let valueSizeBits := valueSizeBits + 5 in
    let valueSizeBits :=
      if bool_decide (is_Some (AttachedStructure (wr_descriptor w)))
      then valueSizeBits + structureSizeBits (wr_structure w) else valueSizeBits in
    if shouldWriteActiveDecodeTargetsBitmask w
    then valueSizeBits + NumDecodeTargets (wr_structure w) else valueSizeBits
  else valueSizeBits.

(** [int(math.Ceil(float64(bits)/8))] *)
Definition bytesFor (bits : Z) : Z := (bits + 7) / 8.

(** ** The extension *)

Definition MarshalWithActiveChains (structure : option FrameDependencyStructure) (activeChains : Z)
  (d : DependencyDescriptor) : res dd_error (list Z) :=
  let! writer := NewDependencyDescriptorWriter structure activeChains d in
  let buf := repeat 0 (Z.to_nat (bytesFor (ValueSizeBits writer))) in
  match Write writer (NewBitStreamWriter buf) with
  | (b, Ok _) => Ok (w_buf b)
  | (_, Err e) => Err e
  end.

(** [^uint32(0)] *)
Definition allChains : Z := 0xFFFFFFFF.

Definition Marshal (structure : option FrameDependencyStructure) (d : DependencyDescriptor)
  : res dd_error (list Z) := MarshalWithActiveChains structure allChains d.

Definition MarshalSizeWithActiveChains (activeChains : Z) (d : DependencyDescriptor) : res dd_error Z :=
  let! writer := NewDependencyDescriptorWriter (AttachedStructure d) activeChains d in
  Ok (bytesFor (ValueSizeBits writer)).

Definition MarshalSize (d : DependencyDescriptor) : res dd_error Z :=
  MarshalSizeWithActiveChains allChains d.
