(* ===== verification/DdCodec.v ===== *)
(** * The dependency descriptor on the wire

    The bit-level format as a specification ([enc_*]), the refinement lemmas
    that [DdWriter] writes it and [DdReader] reads it, the round trip of
    [Marshal] and [Unmarshal], and the size and safety theorems. *)

From S2P Require Import Prelude DdTypes DdBits DdReader DdWriter.

(** ** The format *)

Definition bare (t : FrameDependencyTemplate) : FrameDependencyTemplate :=
  mkTemplate (SpatialId t) (TemporalId t) None None [].

Fixpoint enc_layers (prev : FrameDependencyTemplate) (l : list FrameDependencyTemplate) : list bool :=
  match l with
  | [] => bits_of 2 3
  | t :: l => bits_of 2 (idc_to_Z (getNextLayerIdc prev t)) ++ enc_layers t l
  end.

Definition enc_dtis (l : list DecodeTargetIndication) : list bool :=
  mjoin ((fun d => bits_of 2 (dti_to_Z d)) <$> l).

Definition enc_template_fdiffs (l : list Z) : list bool :=
  mjoin ((fun d => true :: bits_of 4 (d - 1)) <$> l) ++ [false].

Definition enc_chain_diffs (l : list Z) : list bool := mjoin (bits_of 4 <$> l).

Definition enc_chains (st : FrameDependencyStructure) : list bool :=
  enc_ns (NumChains st) (NumDecodeTargets st + 1) ++
  (if NumChains st =? 0 then []
   else mjoin ((fun c => enc_ns c (NumChains st)) <$> DecodeTargetProtectedByChain st) ++
        mjoin ((fun t => enc_chain_diffs (ChainDiffs t)) <$> Templates st)).

Definition enc_resolution (r : RenderResolution) : list bool :=
  bits_of 16 (Width r - 1) ++ bits_of 16 (Height r - 1).

Definition enc_structure (st : FrameDependencyStructure) : list bool :=
  bits_of 6 (StructureId st) ++ bits_of 5 (NumDecodeTargets st - 1) ++
  (match Templates st with [] => [] | t0 :: l => enc_layers t0 l end) ++
  mjoin ((fun t => enc_dtis (elems (DecodeTargetIndications t))) <$> Templates st) ++
  mjoin ((fun t => enc_template_fdiffs (elems (FrameDiffs t))) <$> Templates st) ++
  enc_chains st ++
  [zlen (Resolutions st) >? 0] ++ mjoin (enc_resolution <$> Resolutions st).

(** ** Well-formed structures *)

Record template_ok (st : FrameDependencyStructure) (t : FrameDependencyTemplate) : Prop := {
  t_spatial : 0 <= SpatialId t < MaxSpatialIds;
  t_temporal : 0 <= TemporalId t < MaxTemporalIds;
  t_dtis : exists l, DecodeTargetIndications t = Some l /\ zlen l = NumDecodeTargets st;
  t_fdiffs : Forall (fun d => 1 <= d <= 16) (elems (FrameDiffs t));
  t_fdiffs_nil : FrameDiffs t <> Some [];
  t_chains : zlen (ChainDiffs t) = NumChains st;
  t_chain_diffs : Forall (fun c => 0 <= c < 16) (ChainDiffs t);
}.

Fixpoint layers_ok (prev : FrameDependencyTemplate) (l : list FrameDependencyTemplate) : Prop :=
  match l with
  | [] => True
  | t :: l => getNextLayerIdc prev t <> invalidLayer /\ layers_ok t l
  end.

Record structure_ok (st : FrameDependencyStructure) : Prop := {
  s_id : 0 <= StructureId st < MaxTemplates;
  s_targets : 1 <= NumDecodeTargets st <= MaxDecodeTargets;
  s_chains : 0 <= NumChains st <= NumDecodeTargets st;
  s_protected : if NumChains st =? 0 then DecodeTargetProtectedByChain st = []
                else zlen (DecodeTargetProtectedByChain st) = NumDecodeTargets st;
  s_protected_range : Forall (fun c => 0 <= c < NumChains st) (DecodeTargetProtectedByChain st);
  s_templates : zlen (Templates st) <= MaxTemplates;
  s_template_ok : Forall (template_ok st) (Templates st);
  s_layers : match Templates st with
             | [] => False
             | t0 :: l => SpatialId t0 = 0 /\ TemporalId t0 = 0 /\ layers_ok t0 l
             end;
  s_resolutions : Resolutions st = [] \/
                  exists t, last (Templates st) = Some t /\ zlen (Resolutions st) = SpatialId t + 1;
  s_resolution_ok : Forall (fun r => 1 <= Width r <= 65536 /\ 1 <= Height r <= 65536) (Resolutions st);
}.

(** ** The writer writes the format *)

Lemma writes_bool (b : bool) : writes (writeBool b) [b].
Proof. destruct b; [exact (writes_bits 1 1 ltac:(lia)) | exact (writes_bits 0 1 ltac:(lia))]. Qed.

Lemma writes_check c e k l : c = true -> writes k l -> writes (mcheck c e ;;* k) l.
Proof. intros -> Hk w Hw Hr. exact (Hk w Hw Hr). Qed.

Lemma bits_of_S_pow n v : 0 <= v < 2 ^ Z.of_nat n ->
  bits_of (S n) (Z.lor (2 ^ Z.of_nat n) v) = true :: bits_of n v.
Proof.
  intros Hv. pose proof (lor_disjoint 1 v (Z.of_nat n) ltac:(lia) Hv) as E.
  rewrite Z.mul_1_l in E. rewrite E. cbn [bits_of]. f_equal.
  - rewrite Z.testbit_true by lia. rewrite <- (Z.mul_1_l (2 ^ _)) at 1.
    rewrite Z.add_comm, Z.div_add, Z.div_small by lia. done.
  - apply bits_of_ext. rewrite <- (Z.mul_1_l (2 ^ _)) at 1. by rewrite Z.add_comm, Z.mod_add by lia.
Qed.

Lemma writes_dtis l : writes (mforeach writeDti l) (enc_dtis l).
Proof.
  apply (writes_foreach writeDti (fun d => bits_of 2 (dti_to_Z d))). apply Forall_true. intros d.
  exact (writes_bits (dti_to_Z d) 2 ltac:(lia)).
Qed.

Lemma idc_to_Z_ok p t : getNextLayerIdc p t <> invalidLayer -> idc_to_Z (getNextLayerIdc p t) < 3.
Proof. unfold getNextLayerIdc. repeat case_if; cbn; try lia. done. Qed.

Lemma writes_layers prev l : layers_ok prev l ->
  writes (writeTemplateLayers_loop prev l ;;* WriteBits (idc_to_Z noMoreLayer) 2) (enc_layers prev l).
Proof.
  revert prev. induction l as [|t l IH]; intros prev; cbn [layers_ok writeTemplateLayers_loop enc_layers].
  - intros _. exact (writes_bits 3 2 ltac:(lia)).
  - intros [Ht Hl]. pose proof (idc_to_Z_ok _ _ Ht) as Hi.
    pose proof (writes_bind _ _ _ _ (writes_bits (idc_to_Z (getNextLayerIdc prev t)) 2 ltac:(lia)) (IH t Hl)) as H.
    intros w Hw Hr. destruct (H w Hw Hr) as (w' & E & H'). exists w'. split; [|done]. rewrite <- E.
    unfold mbind, mcheck. rewrite (proj2 (Z.ltb_lt _ _)) by done. cbn [mret].
    by destruct (WriteBits _ 2 w) as [w1 [[]|]].
Qed.

Lemma writes_template_layers st : structure_ok st ->
  writes (writeTemplateLayers st) (match Templates st with [] => [] | t0 :: l => enc_layers t0 l end).
Proof.
  intros Hst. pose proof (s_layers _ Hst) as Hl. pose proof (s_templates _ Hst) as Hn.
  unfold writeTemplateLayers. destruct (Templates st) as [|t0 l]; [done|].
  destruct Hl as (H1 & H2 & Hl). apply writes_check; [|by apply writes_layers].
  rewrite H1, H2. by rewrite (proj2 (Z.leb_le _ _)).
Qed.

Lemma writes_template_fdiffs l : Forall (fun d => 1 <= d <= 16) l ->
  writes (mforeach (fun fdiff => WriteBits (Z.lor (Z.shiftl 1 4) (u64 (fdiff - 1))) 5) l ;;* WriteBits 0 1)
    (enc_template_fdiffs l).
Proof.
  intros Hl. apply writes_bind; [|exact (writes_bits 0 1 ltac:(lia))].
  apply (writes_foreach _ (fun d => true :: bits_of 4 (d - 1))).
  eapply Forall_impl; [exact Hl|]. intros d Hd. cbv beta in *. rewrite u64_small by lia.
  change (Z.shiftl 1 4) with (2 ^ Z.of_nat 4). rewrite <- bits_of_S_pow by (cbn; lia).
  exact (writes_bits _ 5 ltac:(lia)).
Qed.

Lemma writes_chain_diffs l : Forall (fun c => 0 <= c < 16) l ->
  writes (mforeach (fun c => WriteBits (u64 c) 4) l) (enc_chain_diffs l).
Proof.
  intros Hl. apply (writes_foreach _ (bits_of 4)). eapply Forall_impl; [exact Hl|].
  intros c Hc. cbv beta in *. rewrite u64_small by lia. exact (writes_bits c 4 ltac:(lia)).
Qed.

Lemma writes_chains st : structure_ok st -> writes (writeTemplateChains st) (enc_chains st).
Proof.
  intros [_ Ht Hc Hp Hpr _ Htok _ _ _]. unfold MaxDecodeTargets in Ht. unfold writeTemplateChains, enc_chains.
  rewrite !u32_small by lia. apply writes_bind; [apply writes_ns; lia|].
  destruct (Z.eqb_spec (NumChains st) 0) as [E|E]; [apply writes_ret|]. apply writes_bind.
  - apply (writes_foreach _ (fun c => enc_ns c (NumChains st))).
    eapply Forall_impl; [exact Hpr|]. intros c Hcr. cbv beta in *. rewrite u32_small by lia.
    apply writes_ns; lia.
  - apply (writes_foreach _ (fun t => enc_chain_diffs (ChainDiffs t))).
    eapply Forall_impl; [exact Htok|]. intros t Hto. apply writes_chain_diffs, Hto.
Qed.

Lemma writes_resolutions st : structure_ok st ->
  writes (writeResolutions st) (mjoin (enc_resolution <$> Resolutions st)).
Proof.
  intros Hst. apply (writes_foreach _ enc_resolution).
  eapply Forall_impl; [apply Hst|]. intros r [Hw Hh]. cbv beta in *.
  rewrite !(u64_small (Width r)), !(u64_small (Height r)), !u64_small by lia.
  apply writes_bind; [exact (writes_bits (Width r - 1) 16 ltac:(lia)) | exact (writes_bits (Height r - 1) 16 ltac:(lia))].
Qed.

Lemma writes_structure st : structure_ok st ->
  writes (writeTemplateDependencyStructure st) (enc_structure st).
Proof.
  intros Hst. pose proof (s_id _ Hst) as Hid. pose proof (s_targets _ Hst) as Ht.
  unfold MaxTemplates, MaxDecodeTargets in *. unfold writeTemplateDependencyStructure, enc_structure.
  apply writes_check.
  { unfold MaxTemplates, MaxDecodeTargets. lia. }
  rewrite !u64_small by lia.
  apply writes_bind; [exact (writes_bits _ 6 ltac:(lia))|].
  apply writes_bind; [exact (writes_bits _ 5 ltac:(lia))|].
  apply writes_bind; [by apply writes_template_layers|].
  apply writes_bind; [apply (writes_foreach _ (fun t => enc_dtis (elems (DecodeTargetIndications t)))),
    Forall_true; intros t; apply writes_dtis|].
  apply writes_bind.
  { apply (writes_foreach _ (fun t => enc_template_fdiffs (elems (FrameDiffs t)))).
    eapply Forall_impl; [apply Hst|]. intros t Hto. apply writes_template_fdiffs, Hto. }
  apply writes_bind; [by apply writes_chains|].
  apply writes_bind; [apply writes_bool|]. by apply writes_resolutions.
Qed.

(** ** The reader reads the format *)

Lemma reads_mget {A} (k : BitStreamReader -> M BitStreamReader dd_error A) l a :
  (forall b, rok b -> zlen l <= remainingBits b -> reads (k b) l a) -> reads (let* b := mget in k b) l a.
Proof.
  intros H b rest Hb Hs. unfold mget, mbind. apply (H b) with (rest := rest); [done| |done|done].
  rewrite <- (zlen_stream b Hb), Hs, zlen_app. pose proof (zlen_nonneg rest). lia.
Qed.

Lemma reads_mmap_map {A B C} (f : B -> M BitStreamReader dd_error C) (g : A -> B) (h : A -> C)
  (enc : A -> list bool) (l : list A) :
  Forall (fun t => reads (f (g t)) (enc t) (h t)) l ->
  reads (mmap f (map g l)) (mjoin (enc <$> l)) (map h l).
Proof.
  induction 1 as [|x l Hx _ IH]; cbn [mmap map]; [apply reads_ret|].
  cbn [fmap list_fmap mjoin list_join].
  apply (reads_bind (f (g x)) _ (enc x) _ (h x)); [exact Hx|]. exact (reads_map _ (cons (h x)) _ _ IH).
Qed.

(** The same read, a number of times. *)
Lemma reads_repeat {A B} (m : M BitStreamReader dd_error B) (enc : B -> list bool) (x : A) n ys :
  n = length ys -> Forall (fun y => reads m (enc y) y) ys ->
  reads (mmap (fun _ => m) (repeat x n)) (mjoin (enc <$> ys)) ys.
Proof.
  intros -> H. apply reads_mmap. induction H; cbn; constructor; done.
Qed.

Lemma reads_dti d : reads readDti (bits_of 2 (dti_to_Z d)) d.
Proof.
  rewrite <- (dti_of_to_Z d) at 2. apply (reads_map (ReadBits 2) dti_of_Z).
  exact (reads_bits (dti_to_Z d) 2 ltac:(lia) ltac:(destruct d; cbn; lia)).
Qed.

Lemma reads_dtis {A} (x : A) n l : n = length l ->
  reads (mmap (fun _ => readDti) (repeat x n)) (enc_dtis l) l.
Proof.
  intros Hn. apply (reads_repeat readDti (fun d => bits_of 2 (dti_to_Z d))); [done|].
  apply Forall_true. intros d. apply reads_dti.
Qed.

Lemma idc_of_to_Z p t : getNextLayerIdc p t <> invalidLayer ->
  reads (ReadBits 2) (bits_of 2 (idc_to_Z (getNextLayerIdc p t))) (idc_to_Z (getNextLayerIdc p t)) /\
  idc_of_Z (idc_to_Z (getNextLayerIdc p t)) = getNextLayerIdc p t.
Proof.
  intros H. pose proof (idc_to_Z_ok _ _ H). split.
  - refine (reads_bits _ 2 ltac:(lia) _). change (2 ^ 2) with 4. unfold getNextLayerIdc in *.
    repeat case_if; cbn in *; lia.
  - by destruct (getNextLayerIdc p t).
Qed.

Lemma reads_layers_loop fuel st acc l : forall t, (length l < fuel)%nat ->
  Forall (template_ok st) l -> layers_ok t l ->
  reads (readTemplateLayers_loop fuel (TemporalId t) (SpatialId t) acc) (enc_layers t l)
    (acc ++ map bare (t :: l)).
Proof.
  revert fuel acc. induction l as [|u l IH]; intros fuel acc t Hf Hok Hl;
    (destruct fuel as [|fuel]; [cbn in Hf; lia|]); cbn [readTemplateLayers_loop enc_layers map].
  { rewrite <- (app_nil_r (bits_of 2 3)). eapply reads_bind.
    - exact (reads_bits 3 2 ltac:(lia) ltac:(lia)).
    - apply reads_ret. }
  destruct Hl as [Hidc Hl]. apply Forall_cons in Hok as [Hu Hok].
  destruct (idc_of_to_Z t u Hidc) as [Hr Hv].
  assert (acc ++ bare t :: bare u :: map bare l = (acc ++ [bare t]) ++ map bare (u :: l)) as ->
    by (rewrite <- app_assoc; done).
  eapply reads_bind; [exact Hr|]. cbv zeta. rewrite Hv.
  specialize (IH fuel (acc ++ [bare t]) u ltac:(cbn in Hf; lia) Hok Hl).
  pose proof (t_spatial _ _ Hu) as Hs. pose proof (t_temporal _ _ Hu) as Ht. clear Hr Hv.
  unfold getNextLayerIdc in *. repeat case_if; bool_prop; [..|done];
    repeat match goal with E : SpatialId u = _ |- _ => rewrite E in IH, Hs; clear E
                         | E : TemporalId u = _ |- _ => rewrite E in IH, Ht; clear E end.
  - apply reads_mget. intros b Hb Hlen. unfold ReaderOk. rewrite Z.geb_leb, (proj2 (Z.leb_le _ _)) by apply Hb.
    exact IH.
  - unfold MaxTemporalIds in *. lia.
  - exact IH.
  - unfold MaxSpatialIds in *. lia.
  - exact IH.
Qed.

Definition with_dtis (t : FrameDependencyTemplate) : FrameDependencyTemplate :=
  mkTemplate (SpatialId t) (TemporalId t) (DecodeTargetIndications t) None [].
Definition with_fdiffs (t : FrameDependencyTemplate) : FrameDependencyTemplate :=
  mkTemplate (SpatialId t) (TemporalId t) (DecodeTargetIndications t) (FrameDiffs t) [].

Lemma reads_template_dtis st : Forall (template_ok st) (Templates st) ->
  reads (readTemplateDtis (NumDecodeTargets st) (map bare (Templates st)))
    (mjoin ((fun t => enc_dtis (elems (DecodeTargetIndications t))) <$> Templates st))
    (map with_dtis (Templates st)).
Proof.
  intros H. apply (reads_mmap_map _ bare with_dtis). eapply Forall_impl; [exact H|]. cbv beta.
  intros t Ht. destruct (t_dtis _ _ Ht) as (l & E & Hlen). pose proof (zlen_nonneg l).
  unfold readTemplateDti, with_dtis. rewrite E. cbn [bare DecodeTargetIndications].
  change (zlen (@elems DecodeTargetIndication None)) with 0. rewrite Z.sub_0_r.
  set (cur := if 0 <? NumDecodeTargets st then _ else _).
  assert (cur = repeat DecodeTargetNotPresent (length l)) as ->.
  { unfold cur. replace (Z.to_nat (NumDecodeTargets st)) with (length l) by (unfold zlen in *; lia).
    case_if; bool_prop; [done|]. assert (length l = 0%nat) as -> by (unfold zlen in *; lia).
    unfold ztake, elems. cbn. by rewrite take_nil. }
  refine (reads_map (mmap (fun _ => readDti) (repeat DecodeTargetNotPresent (length l)))
    (fun dtis => bare t <| DecodeTargetIndications := Some dtis |>) _ l _).
  by apply reads_dtis.
Qed.

Lemma reads_fdiffs_loop fuel l acc : (length l < fuel)%nat -> Forall (fun d => 1 <= d <= 16) l ->
  reads (readTemplateFdiffs_loop fuel acc) (enc_template_fdiffs l)
    (match l with [] => acc | _ => Some (elems acc ++ l) end).
Proof.
  revert fuel acc. induction l as [|d l IH]; intros fuel acc Hf Hd;
    (destruct fuel as [|fuel]; [cbn in Hf; lia|]); cbn [readTemplateFdiffs_loop].
  { change (enc_template_fdiffs []) with ([false] ++ []). eapply reads_bind; [apply reads_bool|apply reads_ret]. }
  apply Forall_cons in Hd as [Hd1 Hd].
  change (enc_template_fdiffs (d :: l)) with ([true] ++ ((bits_of 4 (d - 1) ++ mjoin ((fun d => true :: bits_of 4 (d - 1)) <$> l)) ++ [false])).
  rewrite <- (app_assoc (bits_of 4 _)).
  eapply reads_bind; [apply reads_bool|]. cbn [negb]. eapply reads_bind.
  { exact (reads_bits (d - 1) 4 ltac:(lia) ltac:(lia)). }
  specialize (IH fuel (append acc (d - 1 + 1)) ltac:(cbn in Hf; lia) Hd).
  replace (d - 1 + 1) with d in * by lia. destruct l; [exact IH|].
  change (elems (append acc d)) with (elems acc ++ [d]) in IH. rewrite <- app_assoc in IH. exact IH.
Qed.

Lemma zlen_template_fdiffs l : zlen (enc_template_fdiffs l) = 5 * zlen l + 1.
Proof.
  induction l as [|d l IH]; [done|]. change (enc_template_fdiffs (d :: l)) with
    ((true :: bits_of 4 (d - 1)) ++ mjoin ((fun d => true :: bits_of 4 (d - 1)) <$> l) ++ [false]).
  rewrite zlen_app. change (mjoin _ ++ [false]) with (enc_template_fdiffs l). rewrite IH.
  unfold zlen. cbn [length]. rewrite length_bits_of. lia.
Qed.

Lemma reads_template_fdiffs st : Forall (template_ok st) (Templates st) ->
  reads (readTemplateFdiffs (map with_dtis (Templates st)))
    (mjoin ((fun t => enc_template_fdiffs (elems (FrameDiffs t))) <$> Templates st))
    (map with_fdiffs (Templates st)).
Proof.
  intros H. apply (reads_mmap_map _ with_dtis with_fdiffs). eapply Forall_impl; [exact H|]. cbv beta.
  intros t Ht. unfold readTemplateFdiff. apply reads_mget. intros b Hb Hlen.
  rewrite zlen_template_fdiffs in Hlen.
  assert (with_fdiffs t = with_dtis t <| FrameDiffs := FrameDiffs t |>) as -> by done.
  refine (reads_map _ (fun fdiffs => with_dtis t <| FrameDiffs := fdiffs |>) _ (FrameDiffs t) _).
  pose proof (reads_fdiffs_loop (S (Z.to_nat (remainingBits b))) (elems (FrameDiffs t)) None) as R.
  pose proof (t_fdiffs_nil _ _ Ht). specialize (R ltac:(unfold zlen in *; lia) (t_fdiffs _ _ Ht)).
  destruct (FrameDiffs t) as [[|d l]|]; [done|exact R|exact R].
Qed.

Lemma with_fdiffs_ChainDiffs t : with_fdiffs t <| ChainDiffs := ChainDiffs t |> = t.
Proof. by destruct t. Qed.

Lemma reads_chain_diffs st : Forall (template_ok st) (Templates st) ->
  reads (mmap (readTemplateChain (NumChains st)) (map with_fdiffs (Templates st)))
    (mjoin ((fun t => enc_chain_diffs (ChainDiffs t)) <$> Templates st)) (Templates st).
Proof.
  intros H. rewrite <- (map_id (Templates st)) at 3.
  apply (reads_mmap_map _ with_fdiffs (fun t => t)). eapply Forall_impl; [exact H|].
  intros t Ht. pose proof (t_chains _ _ Ht) as Hn. unfold enc_chain_diffs.
  assert (E : forall l a, reads (mmap (fun _ => ReadBits 4) (repeat tt (Z.to_nat (NumChains st)))) l a ->
    a = ChainDiffs t -> reads (readTemplateChain (NumChains st) (with_fdiffs t)) l t).
  { intros l a Hr ->. pose proof (reads_map _ (fun diffs => with_fdiffs t <| ChainDiffs := diffs |>) _ _ Hr) as R.
    cbv beta in R. rewrite with_fdiffs_ChainDiffs in R. exact R. }
  eapply E; [|reflexivity].
  apply (reads_repeat (ReadBits 4) (bits_of 4)); [unfold zlen in *; lia|].
  eapply Forall_impl; [apply Ht|]. intros c Hc. cbv beta in Hc. exact (reads_bits c 4 ltac:(lia) ltac:(lia)).
Qed.

Lemma reads_chains st : structure_ok st ->
  reads (readTemplateChains (mkStructure (StructureId st) (NumDecodeTargets st) 0 [] []
                               (map with_fdiffs (Templates st))))
    (enc_chains st) (st <| Resolutions := [] |>).
Proof.
  intros [_ Ht Hc Hp Hpr _ Htok _ _ _]. unfold MaxDecodeTargets in Ht. unfold readTemplateChains, enc_chains.
  cbn [NumDecodeTargets]. rewrite !u32_small by (rewrite ?u32_small; lia).
  eapply reads_bind; [apply (reads_ns (NumChains st)); lia|]. cbv zeta.
  cbn [NumChains field_upd]. destruct (Z.eqb_spec (NumChains st) 0) as [E|E].
  - assert (map with_fdiffs (Templates st) = Templates st) as ->.
    { rewrite <- (map_id (Templates st)) at 2. apply map_ext_Forall. eapply Forall_impl; [exact Htok|].
      intros t Hto. pose proof (t_chains _ _ Hto) as Hn. rewrite E in Hn. unfold with_fdiffs.
      destruct t as [? ? ? ? [|]]; [done|]. unfold zlen in Hn. cbn in Hn. lia. }
    destruct st; cbn in *. subst. apply reads_ret.
  - rewrite u32_small by lia. eapply reads_bind.
    { cbn [NumDecodeTargets]. apply (reads_repeat (ReadNonSymmetric (NumChains st)) (fun c => enc_ns c (NumChains st)));
        [unfold zlen in *; lia|].
      eapply Forall_impl; [exact Hpr|]. intros c Hcr. cbv beta in *. apply reads_ns; lia. }
    cbn [Templates DecodeTargetProtectedByChain]. pose proof (reads_chain_diffs st Htok) as R.
    pose proof (reads_map _ (fun templates => st <| Resolutions := [] |> <| Templates := templates |>) _ _ R) as R'.
    destruct st. exact R'.
Qed.

Lemma reads_resolution r : 1 <= Width r <= 65536 -> 1 <= Height r <= 65536 ->
  reads readResolution (enc_resolution r) r.
Proof.
  intros Hw Hh. unfold readResolution, enc_resolution. eapply reads_bind.
  { exact (reads_bits (Width r - 1) 16 ltac:(lia) ltac:(lia)). }
  pose proof (reads_map (ReadBits 16) (fun h => mkRenderResolution (Width r - 1 + 1) (h + 1)) _ (Height r - 1)
    (reads_bits (Height r - 1) 16 ltac:(lia) ltac:(lia))) as R.
  cbv beta in R. rewrite Z.sub_add in R. destruct r. rewrite !Z.sub_add in *. exact R.
Qed.

Lemma reads_resolutions st : structure_ok st -> Resolutions st <> [] ->
  reads (readResolutions (st <| Resolutions := [] |>)) (mjoin (enc_resolution <$> Resolutions st)) st.
Proof.
  intros Hst Hne. destruct (s_resolutions _ Hst) as [|(t & Hlast & Hlen)]; [done|].
  unfold readResolutions. change (Templates (st <| Resolutions := [] |>)) with (Templates st). rewrite Hlast.
  assert (st = st <| Resolutions := [] |> <| Resolutions := Resolutions st |>) as E by (by destruct st).
  assert (reads (mmap (fun _ => readResolution) (repeat tt (Z.to_nat (SpatialId t + 1))))
    (mjoin (enc_resolution <$> Resolutions st)) (Resolutions st)) as R.
  { apply (reads_repeat readResolution enc_resolution); [unfold zlen in *; lia|].
    eapply Forall_impl; [apply Hst|]. intros r [Hw Hh]. by apply reads_resolution. }
  pose proof (reads_map _ (fun rs => st <| Resolutions := [] |> <| Resolutions := rs |>) _ _ R) as R'.
  cbv beta in R'. rewrite <- E in R'. exact R'.
Qed.

(** The reader returns every well-formed structure the writer wrote. *)
Lemma reads_structure st : structure_ok st ->
  reads readTemplateDependencyStructure (enc_structure st) st.
Proof.
  intros Hst. pose proof (s_id _ Hst) as Hid. pose proof (s_targets _ Hst) as Ht.
  pose proof (s_template_ok _ Hst) as Htok. pose proof (s_templates _ Hst) as Hn.
  unfold MaxTemplates, MaxDecodeTargets in *. unfold readTemplateDependencyStructure, enc_structure.
  eapply reads_bind; [exact (reads_bits (StructureId st) 6 ltac:(lia) ltac:(lia))|].
  eapply reads_bind; [exact (reads_bits (NumDecodeTargets st - 1) 5 ltac:(lia) ltac:(lia))|].
  cbv zeta. rewrite Z.sub_add.
  eapply (reads_bind _ _ _ _ (map bare (Templates st))).
  { pose proof (s_layers _ Hst) as Hl. destruct (Templates st) as [|t0 l]; [done|].
    destruct Hl as (H1 & H2 & Hl). apply Forall_cons in Htok as [_ Htok].
    unfold readTemplateLayers. rewrite <- H1 at 2. rewrite <- H2 at 1.
    apply (reads_layers_loop _ st []); [|done|done]. unfold zlen in Hn. cbn [length] in Hn.
    unfold MaxTemplates. lia. }
  eapply reads_bind; [by apply reads_template_dtis|].
  eapply reads_bind; [by apply reads_template_fdiffs|].
  eapply reads_bind; [by apply reads_chains|].
  eapply reads_bind; [apply reads_bool|].
  destruct (Resolutions st) as [|r rs] eqn:E.
  - change (zlen [] >? 0) with false. assert (st <| Resolutions := [] |> = st) as -> by (destruct st; cbn in *; by subst).
    apply reads_ret.
  - assert ((zlen (r :: rs) >? 0) = true) as -> by (unfold zlen; cbn [length]; rewrite Z.gtb_ltb; apply Z.ltb_lt; lia).
    rewrite <- E. apply reads_resolutions; [done|]. by rewrite E.
Qed.

(** ** The frame *)

Definition enc_frame_fdiff (d : Z) : list bool :=
  if d <=? 16 then bits_of 2 1 ++ bits_of 4 (d - 1)
  else if d <=? 256 then bits_of 2 2 ++ bits_of 8 (d - 1)
  else bits_of 2 3 ++ bits_of 12 (d - 1).

Definition enc_frame_fdiffs (l : list Z) : list bool := mjoin (enc_frame_fdiff <$> l) ++ bits_of 2 0.

Definition enc_when (c : bool) (l : list bool) : list bool := if c then l else [].

Definition enc_frame (w : DependencyDescriptorWriter) : list bool :=
  let f := wr_frame w in
  enc_when (NeedCustomDtis (bestTemplate w)) (enc_dtis (elems (DecodeTargetIndications f))) ++
  enc_when (NeedCustomFdiffs (bestTemplate w)) (enc_frame_fdiffs (elems (FrameDiffs f))) ++
  enc_when (NeedCustomChains (bestTemplate w)) (mjoin (bits_of 8 <$> ChainDiffs f)).

Definition attached (w : DependencyDescriptorWriter) : bool :=
  bool_decide (is_Some (AttachedStructure (wr_descriptor w))).

Definition enc_extended (w : DependencyDescriptorWriter) : list bool :=
  [attached w; shouldWriteActiveDecodeTargetsBitmask w; NeedCustomDtis (bestTemplate w);
   NeedCustomFdiffs (bestTemplate w); NeedCustomChains (bestTemplate w)] ++
  enc_when (attached w) (enc_structure (wr_structure w)) ++
  enc_when (shouldWriteActiveDecodeTargetsBitmask w)
    (bits_of (Z.to_nat (NumDecodeTargets (wr_structure w)))
       (default 0 (ActiveDecodeTargetsBitmask (wr_descriptor w)))).

Definition templateField (w : DependencyDescriptorWriter) : Z :=
  Z.rem (TemplateIdx (bestTemplate w) + StructureId (wr_structure w)) MaxTemplates.

Definition enc_mandatory (w : DependencyDescriptorWriter) : list bool :=
  [FirstPacketInFrame (wr_descriptor w); LastPacketInFrame (wr_descriptor w)] ++
  bits_of 6 (templateField w) ++ bits_of 16 (FrameNumber (wr_descriptor w)).

Definition enc_descriptor (w : DependencyDescriptorWriter) : list bool :=
  enc_mandatory w ++ enc_when (hasExtendedFields w) (enc_extended w ++ enc_frame w).

(** A descriptor that can be sent with the structure [st]: the frame fits the
    structure, the fields fit their widths, and the fields the reader
    derives are the ones it will derive. *)
Record descriptor_ok (st : FrameDependencyStructure) (d : DependencyDescriptor)
  (f : FrameDependencyTemplate) : Prop := {
  d_frame : FrameDependencies d = Some f;
  d_number : 0 <= FrameNumber d < 65536;
  d_bitmask : forall m, ActiveDecodeTargetsBitmask d = Some m -> 0 <= m < 2 ^ NumDecodeTargets st;
  d_attached : AttachedStructure d = None \/
               AttachedStructure d = Some st /\ is_Some (ActiveDecodeTargetsBitmask d);
  d_resolution : match Resolutions st with
                 | [] => Resolution d = None
                 | _ => is_Some (Resolution d) /\ Resolution d = zlookup (Resolutions st) (SpatialId f)
                 end;
  d_dtis : exists l, DecodeTargetIndications f = Some l /\ zlen l = NumDecodeTargets st;
  d_fdiffs : exists l, FrameDiffs f = Some l /\ Forall (fun x => 1 <= x <= 4096) l;
  d_chains : zlen (ChainDiffs f) = NumChains st;
  d_chain_range : Forall (fun c => 0 <= c < 256) (ChainDiffs f);
}.

(** The writer of such a descriptor. *)
Record writer_ok (w : DependencyDescriptorWriter) : Prop := {
  w_structure : structure_ok (wr_structure w);
  w_descriptor : descriptor_ok (wr_structure w) (wr_descriptor w) (wr_frame w);
  w_chains : activeChains w = allChains;
  w_best : findBestTemplate (wr_structure w) (activeChains w) (wr_frame w) = Ok (bestTemplate w);
}.

Lemma writes_when (c : bool) m l : writes m l -> writes (if c then m else mret tt) (enc_when c l).
Proof. destruct c; [done|]. intros _. apply writes_ret. Qed.

Lemma writes_frame_fdiff d : 1 <= d <= 4096 -> writes (writeFrameFdiff d) (enc_frame_fdiff d).
Proof.
  intros Hd. unfold writeFrameFdiff, enc_frame_fdiff. rewrite u64_small by lia.
  change (Z.shiftl 1 4) with (1 * 2 ^ 4). change (Z.shiftl 1 8) with (1 * 2 ^ 8).
  change (Z.shiftl 2 8) with (2 * 2 ^ 8). change (Z.shiftl 3 12) with (3 * 2 ^ 12).
  change (1 * 2 ^ 4) with 16 at 1. change (1 * 2 ^ 8) with 256 at 1.
  assert (E : forall a n, 0 <= a < 4 -> (2 <= n <= 60)%nat -> 0 <= d - 1 < 2 ^ Z.of_nat n ->
    writes (WriteBits (Z.lor (a * 2 ^ Z.of_nat n) (d - 1)) (2 + Z.of_nat n)) (bits_of 2 a ++ bits_of n (d - 1))).
  { intros a n Ha Hn Hdn. rewrite lor_disjoint by lia.
    assert (bits_of 2 a ++ bits_of n (d - 1) = bits_of (Z.to_nat (2 + Z.of_nat n)) (a * 2 ^ Z.of_nat n + (d - 1))) as ->;
      [|apply writes_bits; lia].
    replace (Z.to_nat (2 + Z.of_nat n)) with (2 + n)%nat by lia. rewrite bits_of_app. f_equal.
    - rewrite Z.shiftr_div_pow2, Z.add_comm, Z.div_add, Z.div_small by lia. done.
    - apply bits_of_ext. by rewrite Z.add_comm, Z.mod_add by lia. }
  destruct (Z.leb_spec d 16); [exact (E 1 4%nat ltac:(lia) ltac:(lia) ltac:(cbn; lia))|].
  destruct (Z.leb_spec d 256); [exact (E 2 8%nat ltac:(lia) ltac:(lia) ltac:(cbn; lia))|].
  exact (E 3 12%nat ltac:(lia) ltac:(lia) ltac:(cbn; lia)).
Qed.

Lemma writes_frame_fdiffs w : writer_ok w ->
  writes (writeFrameFdiffs w) (enc_frame_fdiffs (elems (FrameDiffs (wr_frame w)))).
Proof.
  intros Hw. destruct (d_fdiffs _ _ _ (w_descriptor _ Hw)) as (l & E & Hl).
  unfold writeFrameFdiffs. rewrite E. apply writes_bind; [|exact (writes_bits 0 2 ltac:(lia))].
  apply (writes_foreach _ enc_frame_fdiff). eapply Forall_impl; [exact Hl|]. intros d. apply writes_frame_fdiff.
Qed.

Lemma chain_active_all i : 0 <= i < 32 -> chain_active allChains i = true.
Proof.
  intros Hi. apply (zseq_all 32 (chain_active allChains)); [reflexivity|exact Hi].
Qed.

(** The loop over the chain indices goes through the list. *)
Lemma writes_indexed (f : Z -> M BitStreamWriter dd_error unit) (enc : Z -> list bool) (l : list Z) :
  (forall i x, zlookup l i = Some x -> writes (f i) (enc x)) ->
  writes (mforeach f (zseq (length l))) (mjoin (enc <$> l)).
Proof.
  unfold zseq. assert (forall k : nat, (forall (i : nat) x, l !! i = Some x -> writes (f (Z.of_nat (k + i)%nat)) (enc x)) ->
    writes (mforeach f (map Z.of_nat (seq k (length l)))) (mjoin (enc <$> l))) as G.
  { induction l as [|x l IH]; intros k H; cbn [length seq map mforeach]; [apply writes_ret|].
    cbn [fmap list_fmap mjoin list_join]. apply writes_bind.
    - specialize (H O x eq_refl). by rewrite Nat.add_0_r in H.
    - apply IH. intros i y Hi. specialize (H (Datatypes.S i) y Hi). by rewrite Nat.add_succ_r in H. }
  intros H. apply G. intros i x Hi. apply H. unfold zlookup. rewrite (proj2 (Z.leb_le _ _)) by lia.
  by rewrite Nat.add_0_l, Nat2Z.id.
Qed.

Lemma writes_frame_chains w : writer_ok w ->
  writes (writeFrameChains w) (mjoin (bits_of 8 <$> ChainDiffs (wr_frame w))).
Proof.
  intros [[_ Ht Hc _ _ _ _ _ _ _] Hd Ha _]. pose proof (d_chains _ _ _ Hd) as Hlen.
  pose proof (d_chain_range _ _ _ Hd) as Hr. unfold MaxDecodeTargets in Ht. unfold writeFrameChains.
  replace (Z.to_nat (NumChains _)) with (length (ChainDiffs (wr_frame w))) by (unfold zlen in *; lia).
  apply writes_indexed. intros i x Hi. destruct (zlookup_Some _ _ _ Hi) as [Hir Hix].
  rewrite Ha, chain_active_all, Hi by lia. eapply Forall_lookup_1 in Hr; [|exact Hix].
  rewrite u64_small by lia. exact (writes_bits x 8 ltac:(lia)).
Qed.

Lemma writes_frame w : writer_ok w -> writes (writeFrameDependencyDefinition w) (enc_frame w).
Proof.
  intros Hw. unfold writeFrameDependencyDefinition, enc_frame. apply writes_bind; [|apply writes_bind].
  - apply writes_when. apply writes_dtis.
  - apply writes_when. by apply writes_frame_fdiffs.
  - apply writes_when. by apply writes_frame_chains.
Qed.

Lemma writes_extended w : writer_ok w -> writes (writeExtendedFields w) (enc_extended w).
Proof.
  intros Hw. pose proof (s_targets _ (w_structure _ Hw)) as Ht. unfold MaxDecodeTargets in Ht.
  unfold writeExtendedFields, enc_extended.
  do 5 (apply (writes_bind _ _ [_]); [apply writes_bool|]). fold (attached w).
  apply writes_bind; [apply writes_when, writes_structure, Hw|].
  destruct (shouldWriteActiveDecodeTargetsBitmask w) eqn:E; [|apply writes_ret]. cbn [enc_when].
  unfold shouldWriteActiveDecodeTargetsBitmask in E.
  destruct (ActiveDecodeTargetsBitmask (wr_descriptor w)) as [m|]; [|done].
  apply writes_bits. lia.
Qed.

Lemma writes_mandatory w : writer_ok w -> writes (writeMandatoryFields w) (enc_mandatory w).
Proof.
  intros Hw. unfold writeMandatoryFields, enc_mandatory.
  do 2 (apply (writes_bind _ _ [_]); [apply writes_bool|]).
  apply writes_bind; [|exact (writes_bits _ 16 ltac:(lia))]. fold (templateField w).
  assert (bits_of 6 (templateField w) = bits_of 6 (u64 (templateField w))) as ->;
    [|exact (writes_bits _ 6 ltac:(lia))].
  apply bits_of_ext. unfold u64. change 18446744073709551616 with (2 ^ 64).
  symmetry. apply Z.mod_mod_divide. exists (2 ^ 58). reflexivity.
Qed.

(** The whole descriptor followed by less than a byte of zero padding. *)
Lemma Write_ok w n : writer_ok w -> zlen (enc_descriptor w) <= 8 * Z.of_nat n < zlen (enc_descriptor w) + 8 ->
  exists b k, Write w (NewBitStreamWriter (repeat 0 n)) = (b, Ok tt) /\ bytes (w_buf b) /\
    length (w_buf b) = n /\ bits_of_bytes (w_buf b) = enc_descriptor w ++ bits_of k 0.
Proof.
  intros Hw Hn. unfold Write. rewrite (w_best _ Hw).
  replace (mkDDWriter _ _ _ _ _) with w by (by destruct w).
  assert (writes (writeMandatoryFields w ;;* if hasExtendedFields w then
            writeExtendedFields w ;;* writeFrameDependencyDefinition w else mret tt) (enc_descriptor w)) as Henc.
  { apply writes_bind; [by apply writes_mandatory|]. apply writes_when.
    apply writes_bind; [by apply writes_extended|by apply writes_frame]. }
  set (w0 := NewBitStreamWriter (repeat 0 n)).
  assert (Hlen : zlen (w_buf w0) = Z.of_nat n) by (unfold zlen; cbn; by rewrite repeat_length).
  assert (wok w0) as Hw0.
  { constructor; [apply Forall_forall; intros x Hx; apply list_elem_of_In, repeat_spec in Hx; subst; done
                 |cbn; lia|cbn; lia|unfold w_at; rewrite Hlen; cbn; lia]. }
  destruct (Henc w0 Hw0) as (w1 & E1 & Hw1 & Hl1 & Hwr).
  { rewrite WriterRemainingBits_at, Hlen. change (w_at w0) with 0. lia. }
  pose proof (zlen_written w1 Hw1) as Hat. rewrite Hwr, zlen_app in Hat.
  change (written w0) with (@nil bool) in *. change (zlen []) with 0 in Hat. cbn [app] in Hwr.
  rewrite <- mbind_assoc. rewrite (mbind_eq _ _ _ _ _ E1). cbv beta. unfold mget at 1. unfold mbind at 1.
  assert (Hrem : WriterRemainingBits w1 = 8 * Z.of_nat n - zlen (enc_descriptor w))
    by (rewrite WriterRemainingBits_at; lia).
  rewrite Z.rem_small, Z.quot_small by lia.
  assert (exists b k, (if negb (WriterRemainingBits w1 =? 0) then WriteBits 0 (WriterRemainingBits w1) else mret tt) w1
     = (b, Ok tt) /\ wok b /\ zlen (w_buf b) = zlen (w_buf w1) /\ written b = enc_descriptor w ++ bits_of k 0
       /\ Z.of_nat k = WriterRemainingBits w1)
    as (b & k & Eb & Hb & Hlb & Hwb & Hk).
  { destruct (Z.eqb_spec (WriterRemainingBits w1) 0) as [E|E]; cbn [negb].
    - exists w1, O. rewrite app_nil_r. done.
    - destruct (writes_bits 0 (WriterRemainingBits w1) ltac:(lia) w1 Hw1) as (b & Hb).
      { rewrite zlen_bits_of. lia. }
      exists b, (Z.to_nat (WriterRemainingBits w1)). rewrite Hwr in Hb. split_and!; try apply Hb. lia. }
  exists b, k. rewrite (mbind_eq _ _ _ _ _ Eb). cbv beta. change (repeat tt (Z.to_nat 0)) with (@nil ()).
  split; [done|]. split; [apply Hb|]. split; [unfold zlen in *; lia|]. rewrite <- Hwb.
  pose proof (zlen_written b Hb) as Hatb. rewrite Hwb, zlen_app, zlen_bits_of in Hatb. unfold written.
  pose proof (zlen_bits_of_bytes (w_buf b)) as Hz. rewrite take_ge; [done|]. unfold zlen in *. lia.
Qed.

(** ** The chosen template *)

Lemma findFirst_lookup f l i j t : findFirst f i l = Some (j, t) ->
  i <= j /\ l !! Z.to_nat (j - i) = Some t.
Proof.
  revert i. induction l as [|u l IH]; intros i; cbn [findFirst]; [done|]. case_if.
  - intros [= -> ->]. split; [lia|]. by rewrite Z.sub_diag.
  - intros H. destruct (IH _ H) as [Hle Hl]. split; [lia|].
    replace (Z.to_nat (j - i)) with (Datatypes.S (Z.to_nat (j - (i + 1)))) by lia. done.
Qed.

(** The template at the index of a match, and the match is computed for it. *)
Definition match_at (st : FrameDependencyStructure) (ac : Z) (f : FrameDependencyTemplate)
  (m : TemplateMatch) : Prop :=
  exists t, zlookup (Templates st) (TemplateIdx m) = Some t /\ m = calculateMatch st ac f (TemplateIdx m) t.

Lemma match_at_intro st ac f i t : 0 <= i -> Templates st !! Z.to_nat i = Some t ->
  match_at st ac f (calculateMatch st ac f i t).
Proof.
  intros Hi Ht. exists t. split; [|done]. cbn [calculateMatch TemplateIdx].
  unfold zlookup. by rewrite (proj2 (Z.leb_le _ _)).
Qed.

Lemma improve_match st ac f lst l i best : 0 <= i -> l = zdrop i (Templates st) ->
  match_at st ac f best -> match_at st ac f (improve st ac f i lst l best).
Proof.
  revert i best. induction l as [|t l IH]; intros i best Hi Hl Hb; cbn [improve]; [done|].
  case_if; [|done]. assert (Templates st !! Z.to_nat i = Some t /\ l = zdrop (i + 1) (Templates st)) as [Ht Hl'].
  { unfold zdrop in *. replace (Z.to_nat (i + 1)) with (Z.to_nat i + 1)%nat by lia.
    rewrite <- drop_drop, <- Hl. split; [|done]. rewrite <- (Nat.add_0_r (Z.to_nat i)), <- lookup_drop.
    by rewrite <- Hl. }
  apply IH; [lia|done|]. cbv zeta. case_if; [by apply match_at_intro|done].
Qed.

Lemma findBestTemplate_match st ac f m : findBestTemplate st ac f = Ok m -> match_at st ac f m.
Proof.
  unfold findBestTemplate. destruct (findFirst f 0 (Templates st)) as [[i t]|] eqn:E; [|done].
  destruct (findFirst_lookup _ _ _ _ _ E) as [Hi Ht]. rewrite Z.sub_0_r in Ht. intros [= <-].
  apply improve_match; [lia|done|]. by apply match_at_intro.
Qed.

(** The template written has the layer of the frame. *)
Definition best_in_layer (st : FrameDependencyStructure) (f : FrameDependencyTemplate) (idx : Z) : bool :=
  match zlookup (Templates st) idx with
  | Some t => same_layer f t
  | None => false
  end.

Lemma differs_false {A} `{EqDecision A} (l : list A) t : differs (Some l) t = false -> elems t = l.
Proof. unfold differs. intros H. apply negb_false_iff, bool_decide_eq_true in H. done. Qed.

Lemma zlookup_ext {A} (l k : list A) : zlen l = zlen k ->
  (forall i, 0 <= i < zlen l -> zlookup l i = zlookup k i) -> l = k.
Proof.
  intros Hlen H. apply list_eq. intros i. unfold zlen, zlookup in *.
  destruct (Nat.lt_ge_cases i (length l)) as [Hi|Hi].
  - specialize (H (Z.of_nat i) ltac:(lia)). rewrite (proj2 (Z.leb_le _ _)) in H by lia.
    by rewrite !Nat2Z.id in H.
  - rewrite !lookup_ge_None_2 by lia. done.
Qed.

Lemma needCustomChains_false st f t : NumChains st <= 32 ->
  zlen (ChainDiffs f) = NumChains st -> zlen (ChainDiffs t) = NumChains st ->
  needCustomChains st allChains f t = false -> ChainDiffs t = ChainDiffs f.
Proof.
  intros Hn Hf Ht H. apply zlookup_ext; [lia|]. intros i Hi. rewrite Ht in Hi.
  destruct (zlookup_lt (ChainDiffs f) i ltac:(lia)) as [a Ha].
  destruct (zlookup_lt (ChainDiffs t) i ltac:(lia)) as [b Hb]. rewrite Ha, Hb. f_equal.
  unfold needCustomChains in H.
  assert (negb (a =? b) = false) as E; [|apply negb_false_iff, Z.eqb_eq in E; done].
  apply not_true_is_false. intros Hne. apply not_true_iff_false in H. apply H. apply existsb_exists.
  exists i. split.
  - unfold zseq. apply in_map_iff. exists (Z.to_nat i). split; [lia|]. apply in_seq. lia.
  - rewrite chain_active_all, Ha, Hb, Hne by lia. by rewrite !orb_true_r.
Qed.

(** ** Reading the frame *)

Lemma reads_const {A B} (m : M BitStreamReader dd_error B) (enc : B -> list bool) (xs : list A) ys :
  length xs = length ys -> Forall (fun y => reads m (enc y) y) ys ->
  reads (mmap (fun _ => m) xs) (mjoin (enc <$> ys)) ys.
Proof.
  intros Hl H. apply reads_mmap. revert xs Hl. induction H; intros [|z zs] Hl; try done; constructor; auto.
Qed.

Lemma reads_frame_fdiffs_loop fuel l acc : (length l < fuel)%nat -> Forall (fun d => 1 <= d <= 4096) l ->
  reads (readFrameFdiffs_loop fuel (Some acc)) (enc_frame_fdiffs l) (Some (acc ++ l)).
Proof.
  revert fuel acc. induction l as [|d l IH]; intros fuel acc Hf Hd;
    (destruct fuel as [|fuel]; [cbn in Hf; lia|]); cbn [readFrameFdiffs_loop].
  { rewrite app_nil_r. change (enc_frame_fdiffs []) with (bits_of 2 0 ++ []). eapply reads_bind.
    { exact (reads_bits 0 2 ltac:(lia) ltac:(lia)). }
    apply reads_ret. }
  apply Forall_cons in Hd as [Hd1 Hd].
  assert (enc_frame_fdiffs (d :: l) = enc_frame_fdiff d ++ enc_frame_fdiffs l) as ->
    by (unfold enc_frame_fdiffs; cbn; by rewrite <- app_assoc).
  assert (E : forall c, 1 <= c <= 3 -> d <= 2 ^ (c * 4) ->
    reads (let* nexFdiffSize := ReadBits 2 in
           if nexFdiffSize =? 0 then mret (Some acc)
           else let* fDiffMinusOne := ReadBits (nexFdiffSize * 4) in
                readFrameFdiffs_loop fuel (append (Some acc) (fDiffMinusOne + 1)))
      ((bits_of 2 c ++ bits_of (Z.to_nat (c * 4)) (d - 1)) ++ enc_frame_fdiffs l) (Some (acc ++ d :: l))).
  { intros c Hc Hdc. rewrite <- app_assoc. eapply reads_bind.
    { exact (reads_bits c 2 ltac:(lia) ltac:(lia)). }
    rewrite (proj2 (Z.eqb_neq c 0)) by lia. eapply reads_bind.
    { apply (reads_bits (d - 1) (c * 4)); lia. }
    replace (d - 1 + 1) with d by lia. change (append (Some acc) d) with (Some (acc ++ [d])).
    replace (acc ++ d :: l) with ((acc ++ [d]) ++ l) by (by rewrite <- app_assoc).
    apply IH; [cbn in Hf; lia|done]. }
  unfold enc_frame_fdiff. destruct (Z.leb_spec d 16); [exact (E 1 ltac:(lia) ltac:(cbn; lia))|].
  destruct (Z.leb_spec d 256); [exact (E 2 ltac:(lia) ltac:(cbn; lia))|exact (E 3 ltac:(lia) ltac:(cbn; lia))].
Qed.

Lemma zlen_frame_fdiffs l : zlen (enc_frame_fdiffs l) = 2 * (1 + zlen l) + sumZ (map fdiffBits l).
Proof.
  induction l as [|d l IH]; [done|].
  assert (enc_frame_fdiffs (d :: l) = enc_frame_fdiff d ++ enc_frame_fdiffs l) as ->
    by (unfold enc_frame_fdiffs; cbn; by rewrite <- app_assoc).
  rewrite zlen_app, IH. cbn [map sumZ foldr]. fold (sumZ (map fdiffBits l)).
  replace (zlen (d :: l)) with (1 + zlen l) by (unfold zlen; cbn [length]; lia).
  unfold enc_frame_fdiff, fdiffBits. change (Z.shiftl 1 4) with 16. change (Z.shiftl 1 8) with 256.
  repeat case_if; rewrite zlen_app, !zlen_bits_of; lia.
Qed.

Lemma sumZ_nonneg l : Forall (fun x => 0 <= x) l -> 0 <= sumZ l.
Proof. induction 1; cbn; [lia|]. fold (sumZ l). lia. Qed.

Lemma fdiffBits_nonneg l : 0 <= sumZ (map fdiffBits l).
Proof.
  apply sumZ_nonneg, Forall_map, Forall_true. intros d. unfold fdiffBits. repeat case_if; lia.
Qed.

Lemma reads_when {A} (c : bool) (f : A -> M BitStreamReader dd_error A) x l y :
  (c = true -> reads (f x) l y) -> (c = false -> x = y) -> reads (when_ c f x) (enc_when c l) y.
Proof. destruct c; intros H1 H2; [by apply H1|]. rewrite H2 by done. apply reads_ret. Qed.

(** The overrides turn the template into the frame. *)
Lemma reads_frame w t : writer_ok w ->
  zlookup (Templates (wr_structure w)) (TemplateIdx (bestTemplate w)) = Some t ->
  bestTemplate w = calculateMatch (wr_structure w) allChains (wr_frame w) (TemplateIdx (bestTemplate w)) t ->
  same_layer (wr_frame w) t = true ->
  reads (let* t := when_ (NeedCustomDtis (bestTemplate w)) (readFrameDtis (wr_structure w)) (Clone t) in
         let* t := when_ (NeedCustomFdiffs (bestTemplate w)) readFrameFdiffs t in
         when_ (NeedCustomChains (bestTemplate w)) (readFrameChains (wr_structure w)) t)
    (enc_frame w) (wr_frame w).
Proof.
  intros Hw Ht Hm Hl. set (st := wr_structure w) in *. set (f := wr_frame w) in *.
  pose proof (w_descriptor _ Hw) as Hd. fold st in Hd. fold f in Hd.
  assert (template_ok st t) as Hto.
  { destruct (zlookup_Some _ _ _ Ht) as [_ Htl].
    exact (Forall_lookup_1 _ _ _ _ (s_template_ok _ (w_structure _ Hw)) Htl). }
  destruct (d_dtis _ _ _ Hd) as (ld & Ed & Hld). destruct (d_fdiffs _ _ _ Hd) as (lf & Ef & Hlf).
  destruct (t_dtis _ _ Hto) as (td & Etd & Htd). unfold same_layer in Hl. bool_prop.
  unfold enc_frame. fold f. rewrite Ed, Ef. rewrite Hm. unfold calculateMatch. cbn [NeedCustomDtis NeedCustomFdiffs NeedCustomChains].
  rewrite Ed, Ef.
  apply (reads_bind _ _ _ _ (Clone t <| DecodeTargetIndications := Some ld |>)).
  { apply reads_when; intros E.
    - intros b rest Hb Hs. unfold readFrameDtis. unfold Clone at 1 2. cbn [DecodeTargetIndications]. rewrite Etd.
      change (elems (Some (elems (Some td)))) with td. unfold mcheck. rewrite (proj2 (Z.eqb_eq _ _)) by done.
      unfold mbind at 1. cbn [mret]. revert b rest Hb Hs.
      refine (reads_map _ (fun dtis => Clone t <| DecodeTargetIndications := Some dtis |>) _ ld _).
      apply (reads_const readDti (fun d => bits_of 2 (dti_to_Z d))); [unfold zlen in *; lia|].
      apply Forall_true. intros d. apply reads_dti.
    - apply differs_false in E. unfold Clone. rewrite E. done. }
  apply (reads_bind _ _ _ _ (Clone t <| DecodeTargetIndications := Some ld |> <| FrameDiffs := Some lf |>)).
  { apply reads_when; intros E.
    - change (elems (Some lf)) with lf. apply reads_mget. intros b Hb Hlen. rewrite zlen_frame_fdiffs in Hlen. pose proof (fdiffBits_nonneg lf).
      refine (reads_map _ (fun fdiffs => Clone t <| DecodeTargetIndications := Some ld |> <| FrameDiffs := fdiffs |>)
                _ (Some lf) _).
      apply (reads_frame_fdiffs_loop _ lf []); [unfold zlen in *; lia|done].
    - apply differs_false in E. unfold Clone. rewrite E. done. }
  assert (f = Clone t <| DecodeTargetIndications := Some ld |> <| FrameDiffs := Some lf |>
                      <| ChainDiffs := ChainDiffs f |>) as Ef'.
  { clearbody f. destruct f, t. cbn in *. by subst. }
  apply reads_when; intros E.
  - intros b rest Hb Hs. unfold readFrameChains. cbn [ChainDiffs field_upd Clone].
    rewrite (t_chains _ _ Hto), Z.eqb_refl. unfold mcheck, mbind at 1. cbn [mret].
    assert (reads (mmap (fun _ => ReadBits 8) (ChainDiffs t)) (mjoin (bits_of 8 <$> ChainDiffs f)) (ChainDiffs f)) as R.
    { apply (reads_const (ReadBits 8) (bits_of 8)).
      - pose proof (t_chains _ _ Hto). pose proof (d_chains _ _ _ Hd). unfold zlen in *. lia.
      - eapply Forall_impl; [apply Hd|]. intros c Hc. cbv beta in Hc. exact (reads_bits c 8 ltac:(lia) ltac:(lia)). }
    pose proof (reads_map _ (fun diffs => Clone t <| DecodeTargetIndications := Some ld |> <| FrameDiffs := Some lf |>
                      <| ChainDiffs := diffs |>) _ _ R) as R'. cbv beta in R'. rewrite <- Ef' in R'.
    exact (R' b rest Hb Hs).
  - apply needCustomChains_false in E; [|pose proof (s_chains _ (w_structure _ Hw));
      pose proof (s_targets _ (w_structure _ Hw)); unfold MaxDecodeTargets in *; unfold st in *; lia|apply Hd|apply Hto].
    rewrite Ef', <- E. done.
Qed.

(** ** Reading the descriptor *)

Lemma on_buffer_step {A B} (m : M BitStreamReader dd_error A) (k : A -> M DependencyDescriptorReader dd_error B)
  l a rest d b t f1 f2 f3 f4 st :
  reads m l a -> rok b -> stream b = l ++ rest ->
  exists b', mbind (on_buffer m) k (mkDDReader d b t f1 f2 f3 f4 st) = k a (mkDDReader d b' t f1 f2 f3 f4 st) /\
    rok b' /\ stream b' = rest /\ r_buf b' = r_buf b.
Proof.
  intros Hm Hb Hs. exists (advance (zlen l) b). destruct (reads_next _ _ _ _ _ Hm Hb Hs) as [H1 H2].
  split_and!; [|done|done|done]. unfold mbind, on_buffer. cbn [rd_buffer]. by rewrite (Hm b rest Hb Hs).
Qed.

Lemma set_descriptor_step {B} f (k : unit -> M DependencyDescriptorReader dd_error B) d b t f1 f2 f3 f4 st :
  mbind (set_descriptor f) k (mkDDReader d b t f1 f2 f3 f4 st) = k tt (mkDDReader (f d) b t f1 f2 f3 f4 st).
Proof. done. Qed.

Lemma modify_step {B} g (k : unit -> M DependencyDescriptorReader dd_error B) r :
  mbind (mmodify g) k r = k tt (g r).
Proof. done. Qed.

Ltac reader_simpl :=
  cbn [field_upd rd_descriptor rd_buffer frameDependencyTemplateId activeDecodeTargetsPresentFlag
       customDtisFlag customFdiffsFlag customChainsFlag rd_structure FirstPacketInFrame LastPacketInFrame
       FrameNumber FrameDependencies Resolution ActiveDecodeTargetsBitmask AttachedStructure].

(** Reads the next field: [H] says what it reads. *)
Ltac next_field H :=
  let b := fresh "b" in
  match goal with
  | Hb : rok ?b0, Hs : stream ?b0 = ?l ++ ?rest
    |- context [mbind (on_buffer ?m) ?k (mkDDReader ?d ?b0 ?t ?f1 ?f2 ?f3 ?f4 ?st)] =>
    let E := fresh "E" in let Hb' := fresh "Hb" in let Hs' := fresh "Hs" in let Hq := fresh "Hq" in
    destruct (on_buffer_step m k l _ rest d b0 t f1 f2 f3 f4 st H Hb Hs) as (b & E & Hb' & Hs' & Hq);
    rewrite E; clear E; cbv beta; clear Hs Hb; rename Hs' into Hs; rename Hb' into Hb
  end;
  rewrite ?set_descriptor_step; rewrite ?modify_step; reader_simpl.

Lemma readMandatoryFields_ok w d b t st rest : writer_ok w -> rok b -> stream b = enc_mandatory w ++ rest ->
  exists b', readMandatoryFields (mkDDReader d b t false false false false st) =
    (mkDDReader (d <| FirstPacketInFrame := FirstPacketInFrame (wr_descriptor w) |>
                   <| LastPacketInFrame := LastPacketInFrame (wr_descriptor w) |>
                   <| FrameNumber := FrameNumber (wr_descriptor w) |>)
       b' (templateField w) false false false false st, Ok tt) /\
    rok b' /\ stream b' = rest /\ r_buf b' = r_buf b.
Proof.
  intros Hw Hb Hs. pose proof (d_number _ _ _ (w_descriptor _ Hw)) as Hn.
  pose proof (s_id _ (w_structure _ Hw)) as Hid.
  destruct (findBestTemplate_match _ _ _ _ (w_best _ Hw)) as (u & Hu & _).
  destruct (zlookup_Some _ _ _ Hu) as [Hi _].
  assert (0 <= templateField w < 64) as Hf.
  { unfold templateField. rewrite Z.rem_mod_nonneg by (unfold MaxTemplates in *; lia).
    apply Z.mod_pos_bound. done. }
  unfold enc_mandatory in Hs. rewrite <- !app_assoc in Hs. unfold readMandatoryFields.
  set (r := stream b) in Hs. revert Hs. subst r. cbn [app].
  intros Hs. change (?a :: ?c :: ?l) with ([a] ++ [c] ++ l) in Hs.
  next_field (reads_bool (FirstPacketInFrame (wr_descriptor w))).
  next_field (reads_bool (LastPacketInFrame (wr_descriptor w))).
  next_field (reads_bits (templateField w) 6 ltac:(lia) Hf).
  next_field (reads_bits (FrameNumber (wr_descriptor w)) 16 ltac:(lia) Hn).
  exists b3. split; [|split_and!; [done|done|congruence]].
  rewrite u16_small by lia. done.
Qed.

(** [r.structure] of the reader: the attached structure or the one passed in. *)
Definition allTargets (st : FrameDependencyStructure) : Z := u32 (u64 (Z.shiftl 1 (NumDecodeTargets st)) - 1).

Definition with_structure (w : DependencyDescriptorWriter) (d : DependencyDescriptor) : DependencyDescriptor :=
  if attached w then
    d <| AttachedStructure := Some (wr_structure w) |>
      <| ActiveDecodeTargetsBitmask := Some (allTargets (wr_structure w)) |>
  else d.

Lemma readExtendedFields_ok w d b t st rest : writer_ok w -> rok b -> stream b = enc_extended w ++ rest ->
  exists b', readExtendedFields (mkDDReader d b t false false false false st) =
    (mkDDReader (with_structure w d) b' t (shouldWriteActiveDecodeTargetsBitmask w)
       (NeedCustomDtis (bestTemplate w)) (NeedCustomFdiffs (bestTemplate w))
       (NeedCustomChains (bestTemplate w)) st, Ok tt) /\ rok b' /\ r_buf b' = r_buf b /\
    stream b' = enc_when (shouldWriteActiveDecodeTargetsBitmask w)
      (bits_of (Z.to_nat (NumDecodeTargets (wr_structure w)))
         (default 0 (ActiveDecodeTargetsBitmask (wr_descriptor w)))) ++ rest.
Proof.
  intros Hw Hb Hs. unfold enc_extended in Hs. rewrite <- !app_assoc in Hs. unfold readExtendedFields, with_structure.
  cbn [app] in Hs. change (?x :: ?y :: ?z :: ?u :: ?v :: ?l) with ([x] ++ [y] ++ [z] ++ [u] ++ [v] ++ l) in Hs.
  next_field (reads_bool (attached w)). next_field (reads_bool (shouldWriteActiveDecodeTargetsBitmask w)).
  next_field (reads_bool (NeedCustomDtis (bestTemplate w))).
  next_field (reads_bool (NeedCustomFdiffs (bestTemplate w))).
  next_field (reads_bool (NeedCustomChains (bestTemplate w))).
  destruct (attached w); cbn [enc_when app] in Hs.
  - next_field (reads_structure _ (w_structure _ Hw)).
    exists b5. split; [done|]. split; [done|]. split; [congruence|done].
  - exists b4. split; [done|]. split; [done|]. split; [congruence|done].
Qed.

Lemma all_targets st : structure_ok st ->
  u64 (u64 (Z.shiftl 1 (NumDecodeTargets st)) - 1) = allTargets st /\
  allTargets st = 2 ^ NumDecodeTargets st - 1.
Proof.
  intros Hst. pose proof (s_targets _ Hst) as Ht. unfold MaxDecodeTargets in Ht. unfold allTargets.
  rewrite Z.shiftl_mul_pow2, Z.mul_1_l by lia.
  assert (1 <= 2 ^ NumDecodeTargets st <= 2 ^ 32) by (split; [lia|apply Z.pow_le_mono_r; lia]).
  rewrite (u64_small (2 ^ _)) by lia. by rewrite u64_small, u32_small by lia.
Qed.

(** The frame of the writer, as the reader sees it. *)
Definition with_frame (w : DependencyDescriptorWriter) (d : DependencyDescriptor) : DependencyDescriptor :=
  d <| FrameDependencies := Some (wr_frame w) |> <| Resolution := Resolution (wr_descriptor w) |>.

Lemma readFrame_ok w d b af st rest : writer_ok w ->
  best_in_layer (wr_structure w) (wr_frame w) (TemplateIdx (bestTemplate w)) = true ->
  rok b -> stream b = enc_frame w ++ rest ->
  exists b', readFrameDependencyDefinition (wr_structure w) (mkDDReader d b (templateField w) af
       (NeedCustomDtis (bestTemplate w)) (NeedCustomFdiffs (bestTemplate w))
       (NeedCustomChains (bestTemplate w)) st) =
    (mkDDReader (with_frame w d) b' (templateField w) af (NeedCustomDtis (bestTemplate w))
       (NeedCustomFdiffs (bestTemplate w)) (NeedCustomChains (bestTemplate w)) st, Ok tt) /\
    rok b' /\ stream b' = rest /\ r_buf b' = r_buf b.
Proof.
  intros Hw Hbl Hb Hs. pose proof (s_id _ (w_structure _ Hw)) as Hid.
  pose proof (s_templates _ (w_structure _ Hw)) as Hn.
  destruct (findBestTemplate_match _ _ _ _ (w_best _ Hw)) as (u & Hu & Hm). rewrite (w_chains _ Hw) in Hm.
  destruct (zlookup_Some _ _ _ Hu) as [Hi _]. unfold best_in_layer in Hbl. rewrite Hu in Hbl.
  unfold readFrameDependencyDefinition. cbn [frameDependencyTemplateId].
  assert (Z.rem (templateField w + MaxTemplates - StructureId (wr_structure w)) MaxTemplates =
          TemplateIdx (bestTemplate w)) as ->.
  { unfold templateField, MaxTemplates in *. dlia. }
  rewrite Z.geb_leb, (proj2 (Z.leb_gt _ _)), Hu by lia. cbn [customDtisFlag customFdiffsFlag customChainsFlag].
  next_field (reads_frame w u Hw Hu Hm Hbl).
  pose proof (d_resolution _ _ _ (w_descriptor _ Hw)) as Hres. exists b0. unfold with_frame.
  destruct (Resolutions (wr_structure w)) as [|r rs].
  - rewrite Hres. split_and!; done.
  - destruct Hres as [[x Hx] Hz]. rewrite Hx in *. destruct (zlookup_Some _ _ _ (eq_sym Hz)) as [Hr _].
    rewrite Z.geb_leb, (proj2 (Z.leb_gt _ _)), <- Hz by lia. split_and!; done.
Qed.

Definition emptyDescriptor : DependencyDescriptor := mkDescriptor false false 0 None None None None.

Lemma BytesRead_end b : rok b -> remainingBits b < 8 -> BytesRead b = zlen (r_buf b).
Proof.
  intros [_ Hr Hp] H8. unfold BytesRead. rewrite Z.gtb_ltb, Hp. rewrite Z.rem_small by lia.
  destruct (Z.ltb_spec 0 (remainingBits b)); dlia.
Qed.

Lemma zlen_join {A} (enc : A -> list bool) (l : list A) :
  zlen (mjoin (enc <$> l)) = sumZ (map (fun x => zlen (enc x)) l).
Proof.
  induction l as [|x l IH]; [done|]. cbn [fmap list_fmap mjoin list_join map sumZ foldr].
  rewrite zlen_app. f_equal. exact IH.
Qed.

Lemma sumZ_const {A} (f : A -> Z) c (l : list A) : Forall (fun x => f x = c) l -> sumZ (map f l) = c * zlen l.
Proof.
  induction 1 as [|x l Hx _ IH]; [unfold zlen; cbn; lia|]. unfold zlen in *. cbn [map sumZ foldr length] in *.
  fold (sumZ (map f l)). lia.
Qed.

Lemma zlen_join_const {A} (enc : A -> list bool) c (l : list A) : (forall x, zlen (enc x) = c) ->
  zlen (mjoin (enc <$> l)) = c * zlen l.
Proof. intros H. rewrite zlen_join. apply sumZ_const, Forall_true, H. Qed.

Lemma ExtraSizeBits_ok w : writer_ok w ->
  ExtraSizeBits (bestTemplate w) = zlen (enc_frame w) /\
  (NeedCustomDtis (bestTemplate w) || NeedCustomFdiffs (bestTemplate w) || NeedCustomChains (bestTemplate w)
    = true -> 0 < ExtraSizeBits (bestTemplate w)).
Proof.
  intros Hw. destruct (findBestTemplate_match _ _ _ _ (w_best _ Hw)) as (u & Hu & Hm).
  pose proof (w_descriptor _ Hw) as Hd. destruct (d_dtis _ _ _ Hd) as (ld & Ed & Hld).
  destruct (d_fdiffs _ _ _ Hd) as (lf & Ef & Hlf). pose proof (d_chains _ _ _ Hd) as Hch.
  pose proof (s_targets _ (w_structure _ Hw)) as Ht. pose proof (s_chains _ (w_structure _ Hw)) as Hc.
  assert (Hdt : zlen (enc_dtis ld) = 2 * zlen ld) by (apply zlen_join_const; intros d; apply zlen_bits_of).
  assert (Hcd : zlen (mjoin (bits_of 8 <$> ChainDiffs (wr_frame w))) = 8 * zlen (ChainDiffs (wr_frame w)))
    by (apply zlen_join_const; intros d; apply zlen_bits_of).
  assert (Hpos : NeedCustomChains (bestTemplate w) = true -> 0 < NumChains (wr_structure w)).
  { rewrite Hm. cbn [calculateMatch NeedCustomChains]. unfold needCustomChains.
    intros H. apply existsb_exists in H as (i & Hi & _). unfold zseq in Hi.
    apply in_map_iff in Hi as (j & <- & Hj). apply in_seq in Hj. lia. }
  pose proof (fdiffBits_nonneg lf). pose proof (zlen_nonneg lf).
  unfold enc_frame. rewrite Ed, Ef, !zlen_app. rewrite Hm in *. revert Hpos. unfold calculateMatch.
  cbn [NeedCustomDtis NeedCustomFdiffs NeedCustomChains ExtraSizeBits]. rewrite Ed, Ef.
  change (elems (Some ld)) with ld. change (elems (Some lf)) with lf. intros Hpos.
  destruct (differs (Some ld) _), (differs (Some lf) _), (needCustomChains _ _ _ _);
    cbn [enc_when orb]; rewrite ?Hdt, ?Hcd, ?zlen_frame_fdiffs; change (zlen []) with 0; split; lia.
Qed.

Lemma no_extended w : writer_ok w -> hasExtendedFields w = false ->
  (NeedCustomDtis (bestTemplate w) = false /\ NeedCustomFdiffs (bestTemplate w) = false /\
   NeedCustomChains (bestTemplate w) = false) /\ enc_frame w = [] /\
  attached w = false /\ shouldWriteActiveDecodeTargetsBitmask w = false.
Proof.
  intros Hw H. unfold hasExtendedFields in H. bool_prop. destruct (ExtraSizeBits_ok w Hw) as [Hs Hp].
  assert (ExtraSizeBits (bestTemplate w) = 0) as E0 by (pose proof (zlen_nonneg (enc_frame w)); lia).
  assert (NeedCustomDtis (bestTemplate w) || NeedCustomFdiffs (bestTemplate w) ||
          NeedCustomChains (bestTemplate w) = false) as Hf.
  { apply not_true_is_false. intros Ht. specialize (Hp Ht). lia. }
  split; [bool_prop; done|]. split.
  { rewrite E0 in Hs. destruct (enc_frame w); [done|]. unfold zlen in Hs. cbn [length] in Hs. lia. }
  split; [done|]. unfold shouldWriteActiveDecodeTargetsBitmask.
  destruct (ActiveDecodeTargetsBitmask (wr_descriptor w)); [|done].
  match goal with E : bool_decide (is_Some (Some _)) = false |- _ => apply bool_decide_eq_false in E; destruct E; eauto end.
Qed.

Definition mandatory_read (w : DependencyDescriptorWriter) : DependencyDescriptor :=
  emptyDescriptor <| FirstPacketInFrame := FirstPacketInFrame (wr_descriptor w) |>
    <| LastPacketInFrame := LastPacketInFrame (wr_descriptor w) |>
    <| FrameNumber := FrameNumber (wr_descriptor w) |>.

(** The reader after the header fields, in the state the writer's choices give it. *)
Definition reader_at (w : DependencyDescriptorWriter) (d : DependencyDescriptor) (b : BitStreamReader)
  (s0 : option FrameDependencyStructure) : DependencyDescriptorReader :=
  mkDDReader d b (templateField w) (shouldWriteActiveDecodeTargetsBitmask w)
    (NeedCustomDtis (bestTemplate w)) (NeedCustomFdiffs (bestTemplate w))
    (NeedCustomChains (bestTemplate w)) s0.

Definition enc_bitmask (w : DependencyDescriptorWriter) : list bool :=
  enc_when (shouldWriteActiveDecodeTargetsBitmask w)
    (bits_of (Z.to_nat (NumDecodeTargets (wr_structure w)))
       (default 0 (ActiveDecodeTargetsBitmask (wr_descriptor w)))).

(** The bitmask read, or the one implied by the structure, is the descriptor's. *)
Lemma Parse_bitmask w b s0 rest : writer_ok w -> rok b -> stream b = enc_bitmask w ++ rest ->
  exists b', (if shouldWriteActiveDecodeTargetsBitmask w then
       let* bitmask := on_buffer (ReadBits (NumDecodeTargets (wr_structure w))) in
       set_descriptor (fun d => d <| ActiveDecodeTargetsBitmask := Some (u32 bitmask) |>)
     else mret tt) (reader_at w (with_structure w (mandatory_read w)) b s0) =
    (reader_at w (mandatory_read w <| AttachedStructure := AttachedStructure (wr_descriptor w) |>
       <| ActiveDecodeTargetsBitmask := ActiveDecodeTargetsBitmask (wr_descriptor w) |>) b' s0, Ok tt) /\
    rok b' /\ stream b' = rest /\ r_buf b' = r_buf b.
Proof.
  intros Hw Hb Hs. pose proof (w_descriptor _ Hw) as Hdo.
  pose proof (s_targets _ (w_structure _ Hw)) as Ht. unfold MaxDecodeTargets in Ht.
  destruct (all_targets _ (w_structure _ Hw)) as [Hall Hall'].
  unfold with_structure, attached, reader_at, enc_bitmask in *. pose proof (d_attached _ _ _ Hdo) as Hatt.
  pose proof (d_bitmask _ _ _ Hdo) as Hmask. unfold shouldWriteActiveDecodeTargetsBitmask in *.
  fold (attached w) in *. rewrite Hall in *.
  destruct (ActiveDecodeTargetsBitmask (wr_descriptor w)) as [m|] eqn:Em.
  - specialize (Hmask m eq_refl). pose proof (Z.pow_le_mono_r 2 (NumDecodeTargets (wr_structure w)) 32) as H32.
    specialize (H32 ltac:(lia) ltac:(lia)).
    destruct (negb (attached w && (m =? allTargets (wr_structure w)))) eqn:En; cbn [enc_when app] in Hs.
    + next_field (reads_bits m (NumDecodeTargets (wr_structure w)) ltac:(lia) ltac:(lia)).
      exists b0. split_and!; [|done|done|done]. unfold set_descriptor, mmodify. rewrite u32_small by lia.
      unfold attached. destruct Hatt as [Ea|[Ea _]]; rewrite Ea; done.
    + apply negb_false_iff, andb_true_iff in En as [Ea Ee]. apply Z.eqb_eq in Ee. exists b. rewrite Ea.
      split_and!; [|done|done|done]. unfold mret. unfold attached in Ea.
      destruct Hatt as [Ea'|[Ea' _]]; rewrite Ea' in *; [done|]. rewrite Ee. done.
  - cbn [enc_when app] in Hs. exists b. split_and!; [|done|done|done]. unfold mret, attached.
    destruct Hatt as [Ea|[_ [? ?]]]; [|done]. rewrite Ea. done.
Qed.

(** The tail of [Parse], once a structure is known. *)
Lemma Parse_tail w b s0 rest : writer_ok w ->
  best_in_layer (wr_structure w) (wr_frame w) (TemplateIdx (bestTemplate w)) = true ->
  rok b -> stream b = enc_bitmask w ++ enc_frame w ++ rest -> zlen rest < 8 ->
  exists r, ((if shouldWriteActiveDecodeTargetsBitmask w then
       let* bitmask := on_buffer (ReadBits (NumDecodeTargets (wr_structure w))) in
       set_descriptor (fun d => d <| ActiveDecodeTargetsBitmask := Some (u32 bitmask) |>)
     else mret tt) ;;*
    readFrameDependencyDefinition (wr_structure w) ;;*
    let* r := mget in
    mret (BytesRead (rd_buffer r)))
    (reader_at w (with_structure w (mandatory_read w)) b s0) = (r, Ok (zlen (r_buf b))) /\
    rd_descriptor r = wr_descriptor w.
Proof.
  intros Hw Hbl Hb Hs Hrest. destruct (Parse_bitmask w b s0 _ Hw Hb Hs) as (b' & E & Hb' & Hs' & Hq).
  rewrite (mbind_eq _ _ _ _ _ E). cbv beta.
  destruct (readFrame_ok w (mandatory_read w <| AttachedStructure := AttachedStructure (wr_descriptor w) |>
                   <| ActiveDecodeTargetsBitmask := ActiveDecodeTargetsBitmask (wr_descriptor w) |>) b'
    (shouldWriteActiveDecodeTargetsBitmask w) s0 rest Hw Hbl Hb' Hs') as (b2 & E2 & Hb2 & Hs2 & Hq2).
  unfold reader_at. rewrite (mbind_eq _ _ _ _ _ E2). unfold mget, mbind at 1, mret. cbn [rd_buffer].
  rewrite BytesRead_end; [|done|rewrite <- (zlen_stream _ Hb2), Hs2; lia]. rewrite Hq2, Hq.
  eexists. split; [reflexivity|]. cbn [rd_descriptor]. pose proof (d_frame _ _ _ (w_descriptor _ Hw)) as Hf.
  unfold with_frame, mandatory_read. destruct (wr_descriptor w). cbn in *. by subst.
Qed.

Lemma zlen_mandatory w : zlen (enc_mandatory w) = 24.
Proof. unfold enc_mandatory. rewrite !zlen_app, !zlen_bits_of. done. Qed.

Lemma AttachedStructure_attached w : writer_ok w ->
  AttachedStructure (wr_descriptor w) = if attached w then Some (wr_structure w) else None.
Proof.
  intros Hw. unfold attached.
  destruct (d_attached _ _ _ (w_descriptor _ Hw)) as [E|[E _]]; rewrite E; reflexivity.
Qed.

(** The reader parses what the writer wrote. *)
Lemma Unmarshal_ok w buf s0 k : writer_ok w ->
  best_in_layer (wr_structure w) (wr_frame w) (TemplateIdx (bestTemplate w)) = true ->
  bytes buf -> bits_of_bytes buf = enc_descriptor w ++ bits_of k 0 -> (k < 8)%nat ->
  (AttachedStructure (wr_descriptor w) = None -> s0 = Some (wr_structure w)) ->
  Unmarshal buf s0 emptyDescriptor = Ok (wr_descriptor w, zlen buf).
Proof.
  intros Hw Hbl Hbuf Hbits Hk Hs0. destruct (NewBitStreamReader_rok buf Hbuf) as [Hb Hs].
  rewrite Hbits in Hs. unfold enc_descriptor in Hs. rewrite <- app_assoc in Hs.
  rewrite AttachedStructure_attached in Hs0 by done.
  assert (Hz : 8 * zlen buf = 24 + zlen (enc_when (hasExtendedFields w) (enc_extended w ++ enc_frame w)) + Z.of_nat k).
  { rewrite <- zlen_bits_of_bytes, Hbits, zlen_app, zlen_bits_of. unfold enc_descriptor.
    rewrite zlen_app, zlen_mandatory. done. }
  unfold Unmarshal, Parse, NewDependencyDescriptorReader.
  destruct (readMandatoryFields_ok w emptyDescriptor _ 0 s0 _ Hw Hb Hs) as (b1 & E1 & Hb1 & Hs1 & Hq1).
  rewrite (mbind_eq _ _ _ _ _ E1). fold (mandatory_read w). unfold mget at 1, mbind at 1. cbn [rd_buffer].
  rewrite Hq1. cbn [r_buf NewBitStreamReader].
  (* both ways the reader ends up in [reader_at] *)
  assert (exists b2, (if zlen buf >? 3 then readExtendedFields else mret tt)
      (mkDDReader (mandatory_read w) b1 (templateField w) false false false false s0) =
      (reader_at w (with_structure w (mandatory_read w)) b2 s0, Ok tt) /\ rok b2 /\
      stream b2 = enc_bitmask w ++ enc_frame w ++ bits_of k 0 /\ r_buf b2 = buf) as (b2 & E2 & Hb2 & Hs2 & Hq2).
  { rewrite Z.gtb_ltb. destruct (hasExtendedFields w) eqn:Hext; cbn [enc_when] in *.
    - rewrite (proj2 (Z.ltb_lt _ _)).
      + rewrite <- app_assoc in Hs1.
        destruct (readExtendedFields_ok w (mandatory_read w) b1 (templateField w) s0 _ Hw Hb1 Hs1)
          as (b2 & E2 & Hb2 & Hq2 & Hs2).
        exists b2. split_and!; [exact E2|done|exact Hs2|by rewrite Hq2, Hq1].
      + unfold enc_extended in Hz. rewrite !zlen_app in Hz. change (zlen [_; _; _; _; _]) with 5 in Hz.
        pose proof (zlen_nonneg (enc_when (attached w) (enc_structure (wr_structure w)))).
        fold (enc_bitmask w) in Hz. pose proof (zlen_nonneg (enc_bitmask w)).
        pose proof (zlen_nonneg (enc_frame w)). lia.
    - change (zlen []) with 0 in Hz. rewrite (proj2 (Z.ltb_ge _ _)) by lia.
      destruct (no_extended w Hw Hext) as ((H1 & H2 & H3) & H4 & H5 & H6).
      exists b1. unfold reader_at, with_structure, enc_bitmask. rewrite H1, H2, H3, H4, H5, H6. split_and!; done. }
  rewrite (mbind_eq _ _ _ _ _ E2). unfold mget at 1, mbind at 1. cbn [rd_descriptor rd_structure reader_at].
  assert (match AttachedStructure (with_structure w (mandatory_read w)) with
          | Some st => Some st | None => s0 end = Some (wr_structure w)) as ->.
  { unfold with_structure. destruct (attached w); [done|]. cbn. by apply Hs0. }
  cbn [activeDecodeTargetsPresentFlag].
  destruct (Parse_tail w b2 s0 _ Hw Hbl Hb2 Hs2) as (r & E3 & Hd); [rewrite zlen_bits_of; lia|].
  unfold reader_at in E3 |- *. cbn [activeDecodeTargetsPresentFlag] in E3 |- *. rewrite E3. by rewrite Hd, Hq2.
Qed.

(** ** Sizes *)

Lemma zlen_layers p l : zlen (enc_layers p l) = 2 * zlen l + 2.
Proof.
  revert p. induction l as [|t l IH]; intros p; cbn [enc_layers]; [done|].
  rewrite zlen_app, IH, zlen_bits_of. unfold zlen. cbn [length]. lia.
Qed.

Lemma sumZ_add {A} (f g : A -> Z) l : sumZ (map (fun x => f x + g x) l) = sumZ (map f l) + sumZ (map g l).
Proof. induction l as [|x l IH]; [done|]. cbn [map sumZ foldr] in *. unfold sumZ in *. lia. Qed.

Lemma sumZ_ext {A} (f g : A -> Z) l : Forall (fun x => f x = g x) l -> sumZ (map f l) = sumZ (map g l).
Proof. induction 1 as [|x l E _ IH]; [done|]. cbn [map sumZ foldr] in *. unfold sumZ in *. lia. Qed.

Lemma zlen_chains st : structure_ok st -> zlen (enc_chains st) =
  SizeNonSymmetricBits (u32 (NumChains st)) (u32 (NumDecodeTargets st + 1)) +
  (if NumChains st >? 0 then
     sumZ (map (fun p => SizeNonSymmetricBits (u32 p) (u32 (NumChains st))) (DecodeTargetProtectedByChain st)) +
     4 * zlen (Templates st) * NumChains st
   else 0).
Proof.
  intros [_ Ht Hc _ Hpr _ Htok _ _ _]. unfold MaxDecodeTargets in Ht. unfold enc_chains.
  rewrite zlen_app, !u32_small, SizeNonSymmetricBits_ok by lia. f_equal.
  rewrite Z.gtb_ltb. destruct (Z.eqb_spec (NumChains st) 0) as [E|E].
  { by rewrite (proj2 (Z.ltb_ge _ _)) by lia. }
  rewrite (proj2 (Z.ltb_lt _ _)), zlen_app, !zlen_join by lia. f_equal.
  - apply sumZ_ext. eapply Forall_impl; [exact Hpr|]. intros c Hcr. cbv beta in *.
    by rewrite u32_small, SizeNonSymmetricBits_ok by lia.
  - rewrite (sumZ_const _ (4 * NumChains st)); [lia|]. eapply Forall_impl; [exact Htok|].
    intros t Hto. cbv beta. unfold enc_chain_diffs. rewrite (zlen_join_const _ 4), (t_chains _ _ Hto); [done|].
    intros c. apply zlen_bits_of.
Qed.

Lemma structureSizeBits_ok st : structure_ok st -> structureSizeBits st = zlen (enc_structure st).
Proof.
  intros Hst. unfold enc_structure, structureSizeBits. rewrite !zlen_app, !zlen_bits_of, !zlen_join, zlen_chains by done.
  assert (zlen (match Templates st with [] => [] | t0 :: l => enc_layers t0 l end) = 2 * zlen (Templates st)) as ->.
  { pose proof (s_layers _ Hst) as Hl. destruct (Templates st); [done|]. rewrite zlen_layers.
    unfold zlen. cbn [length]. lia. }
  assert (sumZ (map (fun t => zlen (enc_dtis (elems (DecodeTargetIndications t)))) (Templates st)) =
          2 * NumDecodeTargets st * zlen (Templates st)) as ->.
  { apply sumZ_const. eapply Forall_impl; [apply Hst|]. intros t Ht. destruct (t_dtis _ _ Ht) as (l & -> & Hlen).
    cbv beta. rewrite <- Hlen. apply zlen_join_const. intros d. apply zlen_bits_of. }
  assert (sumZ (map (fun t => zlen (enc_template_fdiffs (elems (FrameDiffs t)))) (Templates st)) =
          sumZ (map (fun t => 5 * zlen (elems (FrameDiffs t))) (Templates st)) + zlen (Templates st)) as ->.
  { rewrite <- (Z.mul_1_l (zlen (Templates st))), <- (sumZ_const (fun _ => 1)) by (by apply Forall_true).
    rewrite <- sumZ_add. apply sumZ_ext, Forall_true. intros t. cbv beta. apply zlen_template_fdiffs. }
  assert (sumZ (map (fun r => zlen (enc_resolution r)) (Resolutions st)) = 32 * zlen (Resolutions st)) as ->.
  { apply sumZ_const, Forall_true. intros r. unfold enc_resolution. by rewrite zlen_app, !zlen_bits_of. }
  change (zlen [_]) with 1. destruct (NumChains st >? 0); lia.
Qed.

Lemma ValueSizeBits_ok w : writer_ok w -> ValueSizeBits w = zlen (enc_descriptor w).
Proof.
  intros Hw. pose proof (s_targets _ (w_structure _ Hw)) as Ht.
  unfold ValueSizeBits, enc_descriptor, mandatoryFieldSize. rewrite zlen_app, zlen_mandatory.
  rewrite (proj1 (ExtraSizeBits_ok w Hw)). destruct (hasExtendedFields w) eqn:E; cbn [enc_when].
  - unfold enc_extended. rewrite !zlen_app. change (zlen [_; _; _; _; _]) with 5.
    fold (attached w). rewrite (structureSizeBits_ok _ (w_structure _ Hw)).
    destruct (attached w), (shouldWriteActiveDecodeTargetsBitmask w); cbn [enc_when];
      rewrite ?zlen_bits_of; change (zlen []) with 0; lia.
  - destruct (no_extended w Hw E) as (_ & -> & _). change (zlen []) with 0. lia.
Qed.

(** What [Marshal] produces for a writer. *)
Lemma Marshal_ok st d f best : structure_ok st -> descriptor_ok st d f ->
  findBestTemplate st allChains f = Ok best ->
  let w := mkDDWriter d f st allChains best in
  exists buf k, Marshal (Some st) d = Ok buf /\ bytes buf /\ zlen buf = bytesFor (ValueSizeBits w) /\
    bits_of_bytes buf = enc_descriptor w ++ bits_of k 0 /\ (k < 8)%nat.
Proof.
  intros Hst Hd Hbest w. assert (writer_ok w) as Hw by (constructor; done).
  pose proof (ValueSizeBits_ok w Hw) as Hsz. pose proof (zlen_nonneg (enc_descriptor w)).
  destruct (Write_ok w (Z.to_nat (bytesFor (ValueSizeBits w))) Hw) as (b & k & E & Hb & Hl & Hbits).
  { unfold bytesFor. dlia. }
  exists (w_buf b), k. unfold Marshal, MarshalWithActiveChains, NewDependencyDescriptorWriter.
  rewrite (d_frame _ _ _ Hd), Hbest. cbn [res_bind]. fold w. rewrite E. split_and!; [done|done| |done|].
  - unfold zlen. rewrite Hl. unfold bytesFor. dlia.
  - assert (zlen (bits_of_bytes (w_buf b)) = zlen (enc_descriptor w) + Z.of_nat k) as Hz
      by (by rewrite Hbits, zlen_app, zlen_bits_of).
    rewrite zlen_bits_of_bytes in Hz. unfold zlen in Hz at 1. rewrite Hl in Hz. unfold bytesFor in Hz. dlia.
Qed.

(** ** Properties *)

(** C9: every well-formed descriptor that [Marshal] writes with a well-formed
    structure, choosing a template of the frame's layer, is read back by
    [Unmarshal]: all fields equal, all bytes consumed, and the buffer has the
    size computed before the writing. *)
Theorem Marshal_Unmarshal_dd st d f best s0 :
  structure_ok st -> descriptor_ok st d f ->
  findBestTemplate st allChains f = Ok best -> best_in_layer st f (TemplateIdx best) = true ->
  (AttachedStructure d = None -> s0 = Some st) ->
  exists buf, Marshal (Some st) d = Ok buf /\ bytes buf /\
    zlen buf = bytesFor (ValueSizeBits (mkDDWriter d f st allChains best)) /\
    Unmarshal buf s0 emptyDescriptor = Ok (d, zlen buf).
Proof.
  intros Hst Hd Hbest Hbl Hs0.
  destruct (Marshal_ok st d f best Hst Hd Hbest) as (buf & k & E & Hb & Hl & Hbits & Hk).
  exists buf. split_and!; [done|done|done|].
  apply (Unmarshal_ok (mkDDWriter d f st allChains best) buf s0 k); try done.
Qed.

(** *** An L2T2 structure *)

Definition ex_template (s t : Z) (dtis : list DecodeTargetIndication) (fdiffs : slice Z) (chains : list Z)
  : FrameDependencyTemplate := mkTemplate s t (Some dtis) fdiffs chains.

Definition ex_structure : FrameDependencyStructure :=
  let N := DecodeTargetNotPresent in let D := DecodeTargetDiscardable in
  let W := DecodeTargetSwitch in let Q := DecodeTargetRequired in
  mkStructure 3 4 2 [0; 0; 1; 1] [mkRenderResolution 320 180; mkRenderResolution 640 360]
    [ex_template 0 0 [W; W; W; W] None [0; 0]; ex_template 0 1 [N; D; N; Q] (Some [1]) [1; 1];
     ex_template 1 0 [N; N; W; W] (Some [1]) [1; 1]; ex_template 1 1 [N; N; N; D] (Some [2; 1]) [1; 2]].

Definition ex_frame : FrameDependencyTemplate :=
  ex_template 1 1 [DecodeTargetNotPresent; DecodeTargetNotPresent; DecodeTargetNotPresent; DecodeTargetSwitch]
    (Some [17; 1; 300]) [1; 200].

Definition ex_descriptor : DependencyDescriptor :=
  mkDescriptor true false 1234 (Some ex_frame) (Some (mkRenderResolution 640 360)) (Some 7) (Some ex_structure).

Lemma ex_structure_ok : structure_ok ex_structure.
Proof.
  constructor; try (cbn; unfold MaxTemplates, MaxDecodeTargets, zlen; cbn; lia).
  - repeat (apply Forall_cons; split; [cbn; lia|]). constructor.
  - repeat (apply Forall_cons; split; [|]); [..|constructor];
      (constructor; cbn; unfold MaxSpatialIds, MaxTemporalIds;
       [lia|lia|eexists; split; reflexivity| |done|done|]);
      repeat (apply Forall_cons; split; [lia|]); constructor.
  - cbn. by split_and!.
  - right. eexists. split; reflexivity.
  - repeat (apply Forall_cons; split; [cbn; lia|]). constructor.
Qed.

Lemma ex_descriptor_ok : descriptor_ok ex_structure ex_descriptor ex_frame.
Proof.
  constructor;
    [done|done|cbn; intros m [= <-]; lia|right; split; [done|by eexists]|split; [by eexists|done]
    |by eexists|eexists; split; [reflexivity|]|done|cbn];
    repeat (apply Forall_cons; split; [lia|]); constructor.
Qed.

Notation ex_best := (match findBestTemplate ex_structure allChains ex_frame with
                     | Ok m => m | Err _ => mkMatch 0 false false false 0 end) (only parsing).

Lemma Marshal_Unmarshal_dd_witness :
  structure_ok ex_structure /\ descriptor_ok ex_structure ex_descriptor ex_frame /\
  exists buf, Marshal (Some ex_structure) ex_descriptor = Ok buf /\ bytes buf /\
    zlen buf = 34 /\ Unmarshal buf None emptyDescriptor = Ok (ex_descriptor, zlen buf).
Proof.
  split; [exact ex_structure_ok|]. split; [exact ex_descriptor_ok|].
  destruct (Marshal_Unmarshal_dd ex_structure ex_descriptor ex_frame ex_best None
    ex_structure_ok ex_descriptor_ok eq_refl eq_refl ltac:(intros H; discriminate H)) as (buf & H1 & H2 & H3 & H4).
  exists buf. split; [exact H1|]. split; [exact H2|]. split; [rewrite H3; vm_compute; reflexivity|exact H4].
Defined.

(** The search for the best template runs to the last template of any
    other layer instead of the last one of the frame's layer, so a well-formed
    frame of layer (0, 0) that looks like the template of layer (0, 1) is
    marshalled with that template and read back as a frame of temporal
    layer 1. *)
Theorem findBestTemplate_other_layer :
  exists d f buf d' f',
    descriptor_ok ex_structure d f /\ SpatialId f = 0 /\ TemporalId f = 0 /\
    Marshal (Some ex_structure) d = Ok buf /\
    Unmarshal buf None emptyDescriptor = Ok (d', zlen buf) /\
    FrameDependencies d' = Some f' /\ SpatialId f' = 0 /\ TemporalId f' = 1.
Proof.
  set (f := ex_template 0 0 [DecodeTargetNotPresent; DecodeTargetDiscardable; DecodeTargetNotPresent;
                             DecodeTargetRequired] (Some [1]) [1; 1]).
  exists (ex_descriptor <| FrameDependencies := Some f |> <| Resolution := Some (mkRenderResolution 320 180) |>), f.
  do 3 eexists. split.
  { constructor;
    [done|done|cbn; intros m [= <-]; lia|right; split; [done|by eexists]|split; [by eexists|done]
    |by eexists|eexists; split; [reflexivity|]|done|cbn];
    repeat (apply Forall_cons; split; [lia|]); constructor. }
  split; [reflexivity|]. split; [reflexivity|]. split; [vm_compute; reflexivity|].
  split; [vm_compute; reflexivity|]. split_and!; reflexivity.
Qed.
