(* ===== verification/DdSafe.v ===== *)
(** * The dependency descriptor reader on arbitrary input

    Whatever bytes arrive, [DdReader.Unmarshal] does not panic, its loops
    stop, and a structure or descriptor it accepts is well formed in the
    sense of [DdCodec]: the reader's range is the writer's domain. *)

From S2P Require Import Prelude DdTypes DdBits DdReader DdWriter DdCodec.

(** Errors that stand for a run-time panic or a loop that does not stop. *)
Definition panics (e : dd_error) : bool :=
  match e with
  | panicIndex | panicNil | outOfFuel => true
  | _ => false
  end.

(** From a good reader, [m] fails without a panic, or leaves a good reader of
    the same buffer that has not gained bits, and returns a value in [P]. *)
Definition safe {A : Type} (m : M BitStreamReader dd_error A) (P : A -> Prop) : Prop :=
  forall b, rok b ->
  match m b with
  | (b', Ok a) => rok b' /\ r_buf b' = r_buf b /\ remainingBits b' <= remainingBits b /\ P a
  | (_, Err e) => panics e = false
  end.

Lemma safe_ret {A} (a : A) (P : A -> Prop) : P a -> safe (mret a) P.
Proof. intros H b Hb. cbn. split_and!; [done|done|lia|done]. Qed.

Lemma safe_fail {A} e (P : A -> Prop) : panics e = false -> safe (mfail e) P.
Proof. intros H b Hb. exact H. Qed.

Lemma safe_weaken {A} (m : M BitStreamReader dd_error A) (P Q : A -> Prop) :
  safe m P -> (forall a, P a -> Q a) -> safe m Q.
Proof.
  intros H HQ b Hb. specialize (H b Hb). destruct (m b) as [b' [a|e]]; [|done].
  destruct H as (H1 & H2 & H3 & H4). auto.
Qed.

Lemma safe_bind {A B} (m : M BitStreamReader dd_error A) (k : A -> M BitStreamReader dd_error B) P Q :
  safe m P -> (forall a, P a -> safe (k a) Q) -> safe (mbind m k) Q.
Proof.
  intros Hm Hk b Hb. specialize (Hm b Hb). unfold mbind. destruct (m b) as [b1 [a|e]]; [|done].
  destruct Hm as (H1 & H2 & H3 & H4). specialize (Hk a H4 b1 H1). destruct (k a b1) as [b2 [c|e]]; [|done].
  destruct Hk as (H5 & H6 & H7 & H8). split_and!; [done|congruence|lia|done].
Qed.

Lemma safe_map {A B} (m : M BitStreamReader dd_error A) (f : A -> B) P (Q : B -> Prop) :
  safe m P -> (forall a, P a -> Q (f a)) -> safe (let* x := m in mret (f x)) Q.
Proof. intros Hm H. apply (safe_bind _ _ P); [done|]. intros a Ha. by apply safe_ret, H. Qed.

Lemma safe_mmap {A B} (f : A -> M BitStreamReader dd_error B) (P : A -> Prop) (Q : B -> Prop) l :
  (forall x, P x -> safe (f x) Q) -> Forall P l -> safe (mmap f l) (fun ys => Forall Q ys /\ zlen ys = zlen l).
Proof.
  intros Hf. induction 1 as [|x l Hx _ IH]; cbn [mmap]; [by apply safe_ret|].
  apply (safe_bind _ _ Q); [by apply Hf|]. intros y Hy. apply (safe_map _ _ _ _ IH).
  intros ys [H1 H2]. split; [by constructor|]. unfold zlen in *. cbn [length]. lia.
Qed.

(** A repeated read. *)
Lemma safe_times {A B} (m : M BitStreamReader dd_error B) (x : A) n (Q : B -> Prop) : 0 <= n ->
  safe m Q -> safe (mmap (fun _ => m) (repeat x (Z.to_nat n))) (fun ys => Forall Q ys /\ zlen ys = n).
Proof.
  intros Hn Hm. eapply safe_weaken; [apply (safe_mmap _ (fun _ => True) Q); [by intros|by apply Forall_true]|].
  intros ys [H1 H2]. split; [done|]. rewrite H2. unfold zlen. rewrite repeat_length. lia.
Qed.

(** [ReadBits] also makes progress. *)
Lemma ReadBits_progress n b : rok b ->
  match ReadBits n b with
  | (b', Ok v) => rok b' /\ r_buf b' = r_buf b /\ remainingBits b' = remainingBits b - n /\ 0 <= v < 2 ^ n /\ 0 <= n
  | (_, Err e) => panics e = false
  end.
Proof.
  intros Hb. destruct (decide (0 <= n <= 64)) as [Hn|Hn].
  - destruct (decide (n <= remainingBits b)) as [Hr|Hr].
    + pose proof (zlen_stream b Hb) as Hz. unfold zlen in Hz.
      destruct (ReadBits_ok b n (take (Z.to_nat n) (stream b)) (drop (Z.to_nat n) (stream b)) Hb Hn) as (E & H1 & _).
      * by rewrite take_drop.
      * unfold zlen. rewrite length_take. lia.
      * rewrite E. pose proof (Z_of_bits_range (take (Z.to_nat n) (stream b))) as Hv. unfold zlen in Hv.
        rewrite length_take in Hv. replace (Z.of_nat _) with n in Hv by lia. split_and!; try done; lia.
    + pose proof (ReadBits_short b n Hn ltac:(lia)) as E. destruct (ReadBits n b) as [b' [v|e]]; cbn in E; [done|].
      by injection E as ->.
  - unfold ReadBits. assert ((n <? 0) || (n >? 64) = true) as ->; [|done].
    rewrite Z.gtb_ltb. destruct (Z.ltb_spec n 0); [done|]. apply Z.ltb_lt. lia.
Qed.

Lemma safe_bits n : safe (ReadBits n) (fun v => 0 <= v < 2 ^ n /\ 0 <= n).
Proof.
  intros b Hb. pose proof (ReadBits_progress n b Hb) as H. destruct (ReadBits n b) as [b' [v|e]]; [|done].
  destruct H as (H1 & H2 & H3 & H4 & H5). split_and!; try done; lia.
Qed.

Lemma safe_bool : safe ReadBool (fun _ => True).
Proof. apply (safe_map _ _ _ _ (safe_bits 1)). done. Qed.

Lemma safe_dti : safe readDti (fun _ => True).
Proof. apply (safe_map _ _ _ _ (safe_bits 2)). done. Qed.

Lemma safe_ns N : 1 <= N < 2 ^ 31 -> safe (ReadNonSymmetric N) (fun v => 0 <= v < N).
Proof.
  intros HN. destruct (bitwidth_spec N ltac:(lia)) as [Hw [H1 H2]]. unfold ReadNonSymmetric.
  change (Z.shiftl 1 31) with (2 ^ 31). rewrite Z.geb_leb, (proj2 (Z.leb_gt _ _)) by lia. rewrite ns_min by lia.
  pose proof (pow2_half (bitwidth N) ltac:(lia)) as Hhalf.
  assert (2 ^ bitwidth N <= 2 ^ 32) by (apply Z.pow_le_mono_r; lia).
  set (w := bitwidth N) in *. cbv zeta.
  apply (safe_bind _ _ _ _ (safe_bits (w - 1))). intros v [Hv _]. destruct (Z.ltb_spec v (2 ^ w - N)).
  - apply safe_ret. rewrite u32_small by lia. lia.
  - apply (safe_map _ _ _ _ (safe_bits 1)). intros bit [Hbit _]. rewrite Z.shiftl_mul_pow2 by lia.
    change (2 ^ 1) with 2 in *. rewrite (u64_small (_ * _)), (u64_small (_ + _)), (u64_small (_ - _)), u32_small by lia. lia.
Qed.

(** ** The structure *)

Lemma safe_mget {A} (k : BitStreamReader -> M BitStreamReader dd_error A) P :
  (forall b, rok b -> safe (k b) P) -> safe (let* b := mget in k b) P.
Proof. intros H b Hb. exact (H b Hb b Hb). Qed.

Definition layers_chain (l : list FrameDependencyTemplate) : Prop :=
  match l with
  | [] => False
  | t0 :: l => SpatialId t0 = 0 /\ TemporalId t0 = 0 /\ layers_ok t0 l
  end.

Lemma layers_ok_snoc p l x y : layers_ok p (l ++ [x]) -> getNextLayerIdc x y <> invalidLayer ->
  layers_ok p ((l ++ [x]) ++ [y]).
Proof.
  revert p. induction l as [|t l IH]; intros p; cbn [app layers_ok]; [by intros [H _] H'|].
  intros [H1 H2] H3. split; [done|]. by apply IH.
Qed.

Lemma layers_chain_snoc l x y : layers_chain (l ++ [x]) -> getNextLayerIdc x y <> invalidLayer ->
  layers_chain ((l ++ [x]) ++ [y]).
Proof.
  destruct l as [|t l]; cbn [app layers_chain].
  - intros (H1 & H2 & _) H. by split_and!.
  - intros (H1 & H2 & H3) H. split_and!; [done|done|by apply layers_ok_snoc].
Qed.

Definition bare_ok (t : FrameDependencyTemplate) : Prop :=
  0 <= SpatialId t < MaxSpatialIds /\ 0 <= TemporalId t < MaxTemporalIds /\ t = bare t.

Definition at_layer (s t : Z) : FrameDependencyTemplate := mkTemplate s t None None [].

Lemma safe_layers_loop fuel : forall t s acc, 0 <= s < MaxSpatialIds -> 0 <= t < MaxTemporalIds ->
  layers_chain (acc ++ [at_layer s t]) -> Forall bare_ok acc -> (length acc + fuel <= 64)%nat ->
  safe (readTemplateLayers_loop fuel t s acc)
    (fun l => layers_chain l /\ Forall bare_ok l /\ zlen l <= MaxTemplates).
Proof.
  induction fuel as [|fuel IH]; intros t s acc Hs Ht Hc Hb Hf; cbn [readTemplateLayers_loop];
    [by apply safe_fail|]. cbv zeta. fold (at_layer s t).
  assert (Forall bare_ok (acc ++ [at_layer s t])) as Hb'.
  { apply Forall_app. split; [done|]. by apply Forall_singleton. }
  assert (length (acc ++ [at_layer s t]) = Datatypes.S (length acc)) as Hl
    by (rewrite length_app; cbn [length]; lia).
  assert (zlen (acc ++ [at_layer s t]) <= MaxTemplates) by (unfold zlen, MaxTemplates; lia).
  assert (Hnext : forall s' t', 0 <= s' < MaxSpatialIds -> 0 <= t' < MaxTemporalIds ->
    getNextLayerIdc (at_layer s t) (at_layer s' t') <> invalidLayer ->
    safe (readTemplateLayers_loop fuel t' s' (acc ++ [at_layer s t]))
      (fun l => layers_chain l /\ Forall bare_ok l /\ zlen l <= MaxTemplates)).
  { intros s' t' Hs' Ht' Hn. apply IH; try done; [by apply layers_chain_snoc|lia]. }
  unfold getNextLayerIdc in Hnext. cbn [at_layer SpatialId TemporalId] in Hnext.
  apply (safe_bind _ _ _ _ (safe_bits 2)). intros v _.
  assert (safe (let* b := mget in if ReaderOk b then readTemplateLayers_loop fuel t s (acc ++ [at_layer s t])
                                  else mret (acc ++ [at_layer s t]))
     (fun l => layers_chain l /\ Forall bare_ok l /\ zlen l <= MaxTemplates)) as Hsame.
  { apply safe_mget. intros b _. destruct (ReaderOk b); [|by apply safe_ret].
    apply Hnext; [done|done|]. by rewrite !Z.eqb_refl. }
  destruct (idc_of_Z v); try exact Hsame.
  - case_if; [by apply safe_fail|]. bool_prop. apply Hnext; [done|lia|].
    rewrite !Z.eqb_refl, (proj2 (Z.eqb_neq _ _)) by lia. done.
  - case_if; [by apply safe_fail|]. bool_prop. apply Hnext; [lia|unfold MaxTemporalIds; lia|].
    rewrite !Z.eqb_refl, (proj2 (Z.eqb_neq (s + 1) s)) by lia. done.
  - by apply safe_ret.
Qed.

Lemma safe_layers : safe readTemplateLayers
  (fun l => layers_chain l /\ Forall bare_ok l /\ zlen l <= MaxTemplates).
Proof. apply safe_layers_loop; [done|done|done|done|]. cbn. unfold MaxTemplates. lia. Qed.

Lemma append_ne {A} (s : slice A) x : append s x <> Some [].
Proof. unfold append. intros [= E]. by destruct (elems s). Qed.

(** The loops over frame diffs: every round consumes a bit. *)
Lemma safe_template_fdiffs_loop fuel : forall acc b, rok b -> remainingBits b < Z.of_nat fuel ->
  Forall (fun d => 1 <= d <= 16) (elems acc) -> acc <> Some [] ->
  match readTemplateFdiffs_loop fuel acc b with
  | (b', Ok l) => rok b' /\ r_buf b' = r_buf b /\ remainingBits b' <= remainingBits b /\
                  Forall (fun d => 1 <= d <= 16) (elems l) /\ l <> Some []
  | (_, Err e) => panics e = false
  end.
Proof.
  induction fuel as [|fuel IH]; intros acc b Hb Hf Hacc Hne; cbn [readTemplateFdiffs_loop].
  { pose proof (rok_rem b Hb). lia. }
  unfold ReadBool. rewrite mbind_assoc. unfold mbind at 1.
  pose proof (ReadBits_progress 1 b Hb) as H1. destruct (ReadBits 1 b) as [b1 [v|e]]; [|done].
  destruct H1 as (Hb1 & Hq1 & Hr1 & Hv & _). unfold mret at 1, mbind at 1.
  case_if; [unfold mret; split_and!; [done|done|lia|done|done]|]. unfold mbind.
  pose proof (ReadBits_progress 4 b1 Hb1) as H2. destruct (ReadBits 4 b1) as [b2 [d|e]]; [|done].
  destruct H2 as (Hb2 & Hq2 & Hr2 & Hd & _). change (2 ^ 4) with 16 in Hd.
  specialize (IH (append acc (d + 1)) b2 Hb2 ltac:(lia)).
  destruct (readTemplateFdiffs_loop fuel _ b2) as [b3 [l|e]]; [|apply IH].
  - destruct IH as (H3 & H4 & H5 & H6 & H7).
    + change (elems (append acc (d + 1))) with (elems acc ++ [d + 1]).
      apply Forall_app. split; [done|]. apply Forall_singleton. lia.
    + apply append_ne.
    + split_and!; [done|congruence|lia|done|done].
  - change (elems (append acc (d + 1))) with (elems acc ++ [d + 1]).
      apply Forall_app. split; [done|]. apply Forall_singleton. lia.
  - apply append_ne.
Qed.

Lemma safe_frame_fdiffs_loop fuel : forall acc b, rok b -> remainingBits b < Z.of_nat fuel ->
  Forall (fun d => 1 <= d <= 4096) acc ->
  match readFrameFdiffs_loop fuel (Some acc) b with
  | (b', Ok l) => rok b' /\ r_buf b' = r_buf b /\ remainingBits b' <= remainingBits b /\
                  exists ds, l = Some ds /\ Forall (fun d => 1 <= d <= 4096) ds
  | (_, Err e) => panics e = false
  end.
Proof.
  induction fuel as [|fuel IH]; intros acc b Hb Hf Hacc; cbn [readFrameFdiffs_loop].
  { pose proof (rok_rem b Hb). lia. }
  unfold mbind at 1. pose proof (ReadBits_progress 2 b Hb) as H1. destruct (ReadBits 2 b) as [b1 [v|e]]; [|done].
  destruct H1 as (Hb1 & Hq1 & Hr1 & Hv & _). change (2 ^ 2) with 4 in Hv.
  case_if; [unfold mret; split_and!; [done|done|lia|by exists acc]|]. bool_prop. unfold mbind.
  pose proof (ReadBits_progress (v * 4) b1 Hb1) as H2. destruct (ReadBits (v * 4) b1) as [b2 [d|e]]; [|done].
  destruct H2 as (Hb2 & Hq2 & Hr2 & Hd & _).
  assert (2 ^ (v * 4) <= 2 ^ 12) by (apply Z.pow_le_mono_r; lia). change (2 ^ 12) with 4096 in *.
  change (append (Some acc) (d + 1)) with (Some (acc ++ [d + 1])).
  specialize (IH (acc ++ [d + 1]) b2 Hb2 ltac:(lia)).
  destruct (readFrameFdiffs_loop fuel _ b2) as [b3 [l|e]]; [|apply IH].
  - destruct IH as (H3 & H4 & H5 & H6).
    + apply Forall_app. split; [done|]. apply Forall_singleton. lia.
    + split_and!; [done|congruence|lia|done].
  - apply Forall_app. split; [done|]. apply Forall_singleton. lia.
Qed.

Definition same_ids (x y : FrameDependencyTemplate) : Prop :=
  SpatialId y = SpatialId x /\ TemporalId y = TemporalId x.

Lemma getNextLayerIdc_ids p q x y : same_ids p q -> same_ids x y -> getNextLayerIdc q y = getNextLayerIdc p x.
Proof. intros [H1 H2] [H3 H4]. unfold getNextLayerIdc. by rewrite H1, H2, H3, H4. Qed.

Lemma layers_chain_ids l l' : Forall2 same_ids l l' -> layers_chain l -> layers_chain l'.
Proof.
  intros [|x y l0 l0' [H1 H2] Hl]; [done|]. cbn [layers_chain]. rewrite H1, H2. intros (H3 & H4 & H5).
  split_and!; [done|done|]. clear H3 H4. assert (same_ids x y) as Hxy by done. clear H1 H2. revert x y Hxy H5.
  induction Hl as [|u v l1 l2 Huv _ IH]; intros x y Hxy; cbn [layers_ok]; [done|].
  intros [H1 H2]. rewrite (getNextLayerIdc_ids x y u v) by done. split; [done|]. by apply (IH u v).
Qed.

(** A pass over the templates that keeps their layers. *)
Definition stage (Q : FrameDependencyTemplate -> Prop) (l : list FrameDependencyTemplate) : Prop :=
  layers_chain l /\ Forall Q l /\ zlen l <= MaxTemplates.

Lemma safe_stage f (P Q : FrameDependencyTemplate -> Prop) l :
  (forall x, P x -> safe (f x) (fun y => same_ids x y /\ Q y)) -> stage P l -> safe (mmap f l) (stage Q).
Proof.
  intros Hf (Hc & Hp & Hn). apply (safe_weaken _ (fun ys => Forall2 (fun x y => same_ids x y /\ Q y) l ys)).
  - clear Hc Hn. induction Hp as [|x l Hx _ IH]; cbn [mmap]; [by apply safe_ret|].
    apply (safe_bind _ _ _ _ (Hf x Hx)). intros y Hy. apply (safe_map _ _ _ _ IH).
    intros ys Hys. by constructor.
  - intros ys H. split_and!.
    + refine (layers_chain_ids _ _ _ Hc). eapply Forall2_impl; [exact H|]. by intros x y [? _].
    + clear -H. induction H as [|x y l ys [_ Hy] _ IH]; by constructor.
    + apply Forall2_length in H. unfold zlen in *. lia.
Qed.

(** What is known of a template after each pass. *)
Record tpl_dtis (n : Z) (t : FrameDependencyTemplate) : Prop := {
  td_spatial : 0 <= SpatialId t < MaxSpatialIds;
  td_temporal : 0 <= TemporalId t < MaxTemporalIds;
  td_dtis : exists l, DecodeTargetIndications t = Some l /\ zlen l = n;
}.

Definition tpl_fdiffs (n : Z) (t : FrameDependencyTemplate) : Prop :=
  tpl_dtis n t /\ Forall (fun d => 1 <= d <= 16) (elems (FrameDiffs t)) /\ FrameDiffs t <> Some [].

Definition tpl_chains (n c : Z) (t : FrameDependencyTemplate) : Prop :=
  tpl_fdiffs n t /\ zlen (ChainDiffs t) = c /\ Forall (fun x => 0 <= x < 16) (ChainDiffs t).

Lemma tpl_chains_ok st t : tpl_chains (NumDecodeTargets st) (NumChains st) t -> template_ok st t.
Proof. intros (([? ? ?] & ? & ?) & ? & ?). by constructor. Qed.

Lemma safe_template_dtis n l : 1 <= n -> stage bare_ok l ->
  safe (readTemplateDtis n l) (stage (fun t => tpl_dtis n t /\ FrameDiffs t = None /\ ChainDiffs t = [])).
Proof.
  intros Hn. apply safe_stage. intros t (Hs & Ht & ->). unfold readTemplateDti. cbn [bare DecodeTargetIndications].
  change (zlen (@elems DecodeTargetIndication None)) with 0. rewrite (proj2 (Z.ltb_lt 0 n)), Z.sub_0_r by lia.
  change (elems None ++ repeat DecodeTargetNotPresent (Z.to_nat n)) with (repeat DecodeTargetNotPresent (Z.to_nat n)).
  eapply safe_map; [apply (safe_times readDti); [lia|apply safe_dti]|].
  intros ys [_ Hl]. split; [done|]. split; [|done]. constructor; [done|done|by exists ys].
Qed.

Lemma safe_template_fdiffs n l :
  stage (fun t => tpl_dtis n t /\ FrameDiffs t = None /\ ChainDiffs t = []) l ->
  safe (readTemplateFdiffs l) (stage (fun t => tpl_fdiffs n t /\ ChainDiffs t = [])).
Proof.
  apply safe_stage. intros t ([Hs Ht Hd] & Hf & Hc). unfold readTemplateFdiff. rewrite Hf.
  intros b Hb. unfold mget, mbind at 1.
  pose proof (safe_template_fdiffs_loop (Datatypes.S (Z.to_nat (remainingBits b))) None b Hb ltac:(lia)
    ltac:(constructor) ltac:(done)) as H.
  unfold mbind. destruct (readTemplateFdiffs_loop _ None b) as [b' [fd|e]]; [|done].
  destruct H as (H1 & H2 & H3 & H4 & H5). cbn. split_and!; try done.
Qed.

Lemma safe_template_chains n c l : 0 <= c -> stage (fun t => tpl_fdiffs n t /\ ChainDiffs t = []) l ->
  safe (mmap (readTemplateChain c) l) (stage (tpl_chains n c)).
Proof.
  intros Hc0. apply safe_stage. intros t [Hf Hc]. unfold readTemplateChain. rewrite Hc.
  eapply safe_map; [apply (safe_times (ReadBits 4)); [lia|apply safe_bits]|].
  intros ys [Hy Hl]. split; [done|]. destruct Hf as ([? ? ?] & ? & ?).
  split; [by split_and!|]. cbn. split; [done|].
  eapply Forall_impl; [exact Hy|]. intros x [Hx _]. exact Hx.
Qed.

(** Every structure the reader accepts is well formed. *)
Lemma safe_structure : safe readTemplateDependencyStructure structure_ok.
Proof.
  unfold readTemplateDependencyStructure.
  apply (safe_bind _ _ _ _ (safe_bits 6)). intros sid [Hsid _].
  apply (safe_bind _ _ _ _ (safe_bits 5)). intros n0 [Hn0 _]. cbv zeta. set (n := n0 + 1).
  apply (safe_bind _ _ _ _ safe_layers). intros l1 Hl1.
  apply (safe_bind _ _ _ _ (safe_template_dtis n l1 ltac:(lia) Hl1)). intros l2 Hl2.
  apply (safe_bind _ _ _ _ (safe_template_fdiffs n l2 Hl2)). intros l3 Hl3.
  apply (safe_bind _ _ (fun st => structure_ok st /\ Resolutions st = [])).
  - unfold readTemplateChains. cbn [NumDecodeTargets]. rewrite !u32_small by (rewrite ?u32_small; lia).
    apply (safe_bind _ _ _ _ (safe_ns (n + 1) ltac:(lia))). intros c Hc. cbv zeta. cbn [NumChains field_upd].
    destruct (Z.eqb_spec c 0) as [->|Hc0].
    + apply safe_ret. split; [|done]. destruct Hl3 as (H1 & H2 & H3).
      constructor; cbn; unfold MaxTemplates, MaxDecodeTargets in *; try done; try lia; [|by left].
      eapply Forall_impl; [exact H2|]. intros t [Hf Hch]. apply tpl_chains_ok. split; [exact Hf|]. rewrite Hch. done.
    + cbn [NumDecodeTargets Templates DecodeTargetProtectedByChain]. rewrite u32_small by lia.
      eapply safe_bind; [apply (safe_times (ReadNonSymmetric c)); [lia|apply safe_ns; lia]|].
      intros ps [Hps Hpl]. eapply safe_map; [apply (safe_template_chains n c l3 ltac:(lia) Hl3)|].
      intros l4 (H1 & H2 & H3). split; [|done].
      constructor; cbn; rewrite ?(proj2 (Z.eqb_neq c 0)) by done;
        unfold MaxTemplates, MaxDecodeTargets in *; try done; try lia; [|by left].
      eapply Forall_impl; [exact H2|]. intros t Ht. by apply tpl_chains_ok.
  - intros st [Hst Hres]. apply (safe_bind _ _ _ _ safe_bool). intros flag _. destruct flag; [|by apply safe_ret].
    unfold readResolutions. pose proof (s_layers _ Hst) as Hlay. pose proof (s_template_ok _ Hst) as Htok.
    destruct (last (Templates st)) as [t|] eqn:Hlast.
    2: { apply last_None in Hlast. by rewrite Hlast in Hlay. }
    assert (template_ok st t) as Ht.
    { apply last_Some in Hlast as [l' E]. rewrite E in Htok. apply Forall_app in Htok as [_ Htok].
      exact (proj1 (Forall_singleton _ _) Htok). }
    eapply (safe_map _ _ (fun rs => Forall (fun r => 1 <= Width r <= 65536 /\ 1 <= Height r <= 65536) rs /\
                                    zlen rs = SpatialId t + 1)).
    { apply safe_times; [pose proof (t_spatial _ _ Ht); lia|]. unfold readResolution.
      apply (safe_bind _ _ _ _ (safe_bits 16)). intros wd [Hwd _].
      apply (safe_map _ _ _ _ (safe_bits 16)). intros h [Hh _]. cbn in *. lia. }
    intros rs [Hrs Hrl]. rewrite Hres. destruct Hst. constructor; cbn; try done.
    + eapply Forall_impl; [done|]. intros u []. by constructor.
    + right. by exists t.
Qed.

(** ** The descriptor *)

(** Fails without a panic or ends in [J]. *)
Definition ends {A : Type} (J : A -> DependencyDescriptorReader -> Prop)
  (x : DependencyDescriptorReader * res dd_error A) : Prop :=
  match x with
  | (r, Ok a) => J a r
  | (_, Err e) => panics e = false
  end.

Lemma ends_read {A B} (m : M BitStreamReader dd_error A) (k : A -> M DependencyDescriptorReader dd_error B)
  P J d b t f1 f2 f3 f4 st :
  safe m P -> rok b ->
  (forall b' a, rok b' -> r_buf b' = r_buf b -> P a -> ends J (k a (mkDDReader d b' t f1 f2 f3 f4 st))) ->
  ends J (mbind (on_buffer m) k (mkDDReader d b t f1 f2 f3 f4 st)).
Proof.
  intros Hm Hb Hk. specialize (Hm b Hb). unfold mbind, on_buffer. cbn [rd_buffer].
  destruct (m b) as [b' [a|e]]; [|exact Hm]. destruct Hm as (H1 & H2 & _ & H3). exact (Hk b' a H1 H2 H3).
Qed.

Lemma ends_bind {A B} (m : M DependencyDescriptorReader dd_error A) (k : A -> M DependencyDescriptorReader dd_error B)
  I J r : ends I (m r) -> (forall a r', I a r' -> ends J (k a r')) -> ends J (mbind m k r).
Proof. unfold mbind. destruct (m r) as [r' [a|e]]; cbn; auto. Qed.

(** Reads the next field of an arbitrary buffer. *)
Ltac any_field H :=
  eapply ends_read; [exact H|assumption|];
  let b := fresh "b" in let a := fresh "a" in let Hb := fresh "Hb" in let Hq := fresh "Hq" in let Ha := fresh "Ha" in
  intros b a Hb Hq Ha; cbv beta; rewrite ?set_descriptor_step; rewrite ?modify_step; reader_simpl.

(** After the header: the descriptor holds the header fields and nothing else. *)
Definition header (r : DependencyDescriptorReader) : Prop :=
  exists first last number b tid af f2 f3 f4 s0 att,
    r = mkDDReader (mkDescriptor first last number None None
                      (match att with Some st => Some (allTargets st) | None => None end) att)
          b tid af f2 f3 f4 s0 /\
    0 <= number < 65536 /\ 0 <= tid < 64 /\ match att with Some st => structure_ok st | None => True end.

Definition keeps (buf : list Z) (s0 : option FrameDependencyStructure) (r : DependencyDescriptorReader) : Prop :=
  rok (rd_buffer r) /\ r_buf (rd_buffer r) = buf /\ rd_structure r = s0.

Lemma ends_mandatory buf s0 : bytes buf ->
  ends (fun _ r => keeps buf s0 r /\ exists first last number b tid, 0 <= number < 65536 /\ 0 <= tid < 64 /\
          r = mkDDReader (mkDescriptor first last number None None None None) b tid false false false false s0)
    (readMandatoryFields (NewDependencyDescriptorReader buf s0 emptyDescriptor)).
Proof.
  intros Hbuf. destruct (NewBitStreamReader_rok buf Hbuf) as [Hb _].
  unfold readMandatoryFields, NewDependencyDescriptorReader, emptyDescriptor.
  any_field safe_bool. any_field safe_bool. any_field (safe_bits 6). any_field (safe_bits 16).
  cbn [ends set_descriptor mmodify]. split.
  - change (r_buf (NewBitStreamReader buf)) with buf in *. unfold keeps. cbn. split_and!; [done|congruence|done].
  - destruct Ha1 as [Ha1 _]. do 5 eexists. split; [apply (u16_range a2)|]. split; [exact Ha1|]. done.
Qed.

Lemma ends_extended buf s0 first last number b tid : rok b -> r_buf b = buf ->
  0 <= number < 65536 -> 0 <= tid < 64 ->
  ends (fun _ r => keeps buf s0 r /\ header r)
    (readExtendedFields (mkDDReader (mkDescriptor first last number None None None None) b tid
       false false false false s0)).
Proof.
  intros Hb Hq0 Hn Ht. unfold readExtendedFields.
  do 5 (any_field safe_bool). destruct a.
  - any_field safe_structure. cbn [ends set_descriptor mmodify]. split.
    + unfold keeps. cbn. split_and!; [done|congruence|done].
    + do 10 eexists. exists (Some a). split; [reflexivity|done].
  - cbn [ends mret]. split.
    + unfold keeps. cbn. split_and!; [done|congruence|done].
    + do 10 eexists. exists None. split; [reflexivity|done].
Qed.

(** The frame has the layer of a template. *)
Definition in_layer (st : FrameDependencyStructure) (f : FrameDependencyTemplate) : Prop :=
  exists t, t ∈ Templates st /\ SpatialId t = SpatialId f /\ TemporalId t = TemporalId f.

(** A frame read for a structure. *)
Record frame_ok (st : FrameDependencyStructure) (f : FrameDependencyTemplate) : Prop := {
  f_spatial : 0 <= SpatialId f < MaxSpatialIds;
  f_dtis : exists l, DecodeTargetIndications f = Some l /\ zlen l = NumDecodeTargets st;
  f_fdiffs : exists l, FrameDiffs f = Some l /\ Forall (fun x => 1 <= x <= 4096) l;
  f_chains : zlen (ChainDiffs f) = NumChains st;
  f_chain_range : Forall (fun c => 0 <= c < 256) (ChainDiffs f);
  f_layer : in_layer st f;
}.

Lemma Clone_ok st t : t ∈ Templates st -> template_ok st t -> frame_ok st (Clone t).
Proof.
  intros Hin [Hs Ht (l & E & Hl) Hf _ Hc Hcr]. constructor; cbn; [done| | |done| |].
  - exists l. by rewrite E.
  - eexists. split; [reflexivity|]. eapply Forall_impl; [exact Hf|]. cbv beta. lia.
  - eapply Forall_impl; [exact Hcr|]. cbv beta. lia.
  - by exists t.
Qed.

Lemma safe_when {A} (c : bool) f (x : A) P : P x -> safe (f x) P -> safe (when_ c f x) P.
Proof. intros Hx Hf. destruct c; [done|by apply safe_ret]. Qed.

Lemma safe_check {A} c e (k : M BitStreamReader dd_error A) P :
  panics e = false -> (c = true -> safe k P) -> safe (mcheck c e ;;* k) P.
Proof. intros He Hk. destruct c; [exact (Hk eq_refl)|]. intros b Hb. exact He. Qed.

Lemma safe_frame st t c1 c2 c3 : t ∈ Templates st -> template_ok st t ->
  safe (let* t := when_ c1 (readFrameDtis st) (Clone t) in
        let* t := when_ c2 readFrameFdiffs t in
        when_ c3 (readFrameChains st) t) (frame_ok st).
Proof.
  intros Hin Ht. apply (safe_bind _ _ (frame_ok st)).
  { apply safe_when; [by apply Clone_ok|]. apply safe_check; [done|]. intros E. apply Z.eqb_eq in E.
    eapply safe_map; [apply (safe_mmap _ (fun _ => True) (fun _ => True)); [intros _ _; apply safe_dti|by apply Forall_true]|].
    intros ys [_ Hl]. destruct (Clone_ok st t Hin Ht) as [? _ ? ? ? ?]. constructor; cbn; try done.
    exists ys. split; [done|]. by rewrite Hl. }
  intros f1 Hf1. apply (safe_bind _ _ (frame_ok st)).
  { apply safe_when; [done|]. destruct Hf1 as [Hs Hd (lf & Ef & Hlf) Hc Hcr Hly]. unfold readFrameFdiffs. rewrite Ef.
    intros b Hb. unfold mget, mbind at 1. unfold mbind.
    pose proof (safe_frame_fdiffs_loop (Datatypes.S (Z.to_nat (remainingBits b))) [] b Hb ltac:(lia)
      ltac:(constructor)) as H.
    destruct (readFrameFdiffs_loop _ (Some []) b) as [b' [l|e]]; [|done].
    destruct H as (H1 & H2 & H3 & H4). cbn. split_and!; done. }
  intros f2 Hf2. apply safe_when; [done|]. apply safe_check; [done|]. intros E. apply Z.eqb_eq in E.
  eapply safe_map; [apply (safe_mmap _ (fun _ => True)); [intros _ _; apply (safe_bits 8)|by apply Forall_true]|].
  intros ys [Hy Hl]. destruct Hf2. constructor; cbn; [done|done|done|lia| |done].
  eapply Forall_impl; [exact Hy|]. intros x [Hx _]. exact Hx.
Qed.

(** The descriptor once the frame is known. *)
Definition frame_read (st : FrameDependencyStructure) (d d' : DependencyDescriptor) : Prop :=
  exists f res, d' = d <| FrameDependencies := Some f |> <| Resolution := res |> /\ frame_ok st f /\
    match Resolutions st with
    | [] => res = None
    | _ => is_Some res /\ res = zlookup (Resolutions st) (SpatialId f)
    end.

Lemma ends_frame st d b tid af f2 f3 f4 s0 buf : structure_ok st -> rok b -> r_buf b = buf -> 0 <= tid < 64 ->
  ends (fun _ r => rok (rd_buffer r) /\ r_buf (rd_buffer r) = buf /\ frame_read st d (rd_descriptor r))
    (readFrameDependencyDefinition st (mkDDReader d b tid af f2 f3 f4 s0)).
Proof.
  intros Hst Hb Hq Ht. unfold readFrameDependencyDefinition. cbn [frameDependencyTemplateId].
  pose proof (s_id _ Hst) as Hid. case_if; [reflexivity|]. bool_prop.
  assert (0 <= Z.rem (tid + MaxTemplates - StructureId st) MaxTemplates) as Hi.
  { rewrite Z.rem_mod_nonneg by (unfold MaxTemplates in *; lia). apply Z.mod_pos_bound. done. }
  set (i := Z.rem _ MaxTemplates) in *. destruct (zlookup_lt (Templates st) i ltac:(lia)) as [t Et]. rewrite Et.
  destruct (zlookup_Some _ _ _ Et) as [_ Htl].
  assert (template_ok st t) as Hto.
  { exact (Forall_lookup_1 _ _ _ _ (s_template_ok _ Hst) Htl). }
  cbn [customDtisFlag customFdiffsFlag customChainsFlag].
  any_field (safe_frame st t f2 f3 f4 (list_elem_of_lookup_2 _ _ _ Htl) Hto).
  destruct (Resolutions st) as [|r rs] eqn:Er.
  - cbn. split_and!; [done|congruence|]. exists a, None. split; [done|]. split; [done|]. by rewrite Er.
  - case_if; [reflexivity|]. bool_prop. pose proof (f_spatial _ _ Ha).
    destruct (zlookup_lt (r :: rs) (SpatialId a) ltac:(lia)) as [res Eres]. rewrite Eres.
    cbn. split_and!; [done|congruence|]. exists a, (Some res). split; [done|]. split; [done|].
    rewrite Er. split; [eauto|]. by symmetry.
Qed.

(** Descriptor fields outside the frame. *)
Lemma frame_read_ok st d d' : frame_read st d d' -> structure_ok st ->
  0 <= FrameNumber d < 65536 ->
  (forall m, ActiveDecodeTargetsBitmask d = Some m -> 0 <= m < 2 ^ NumDecodeTargets st) ->
  (AttachedStructure d = None \/ AttachedStructure d = Some st /\ is_Some (ActiveDecodeTargetsBitmask d)) ->
  exists f, descriptor_ok st d' f /\ in_layer st f.
Proof.
  intros (f & res & -> & [? ? ? ? ? ?] & Hres) Hst Hn Hm Ha. exists f. split; [|done].
  constructor; cbn; try done.
Qed.

Definition active_structure (s0 : option FrameDependencyStructure) (d : DependencyDescriptor)
  : option FrameDependencyStructure :=
  match AttachedStructure d with
  | Some st => Some st
  | None => s0
  end.

(** What is established for a descriptor accepted from any bytes. *)
Definition accepted (s0 : option FrameDependencyStructure) (d : DependencyDescriptor) : Prop :=
  exists st f, active_structure s0 d = Some st /\ structure_ok st /\ descriptor_ok st d f /\ in_layer st f.

Lemma BytesRead_range b : rok b -> 0 <= BytesRead b <= zlen (r_buf b).
Proof.
  intros [_ Hr Hp]. unfold BytesRead. rewrite Hp. pose proof (zlen_nonneg (r_buf b)).
  case_if; bool_prop; [rewrite Z.rem_mod_nonneg in * by lia|]; dlia.
Qed.

Lemma ends_tail buf s0 r st : keeps buf s0 r -> header r ->
  active_structure s0 (rd_descriptor r) = Some st -> structure_ok st ->
  ends (fun n r' => 0 <= n <= zlen buf /\ accepted s0 (rd_descriptor r'))
    (((if activeDecodeTargetsPresentFlag r then
         let* bitmask := on_buffer (ReadBits (NumDecodeTargets st)) in
         set_descriptor (fun d => d <| ActiveDecodeTargetsBitmask := Some (u32 bitmask) |>)
       else mret tt) ;;*
      readFrameDependencyDefinition st ;;*
      let* r := mget in
      mret (BytesRead (rd_buffer r))) r).
Proof.
  intros (Hb & Hq & Hs) (first & last & number & b & tid & af & f2 & f3 & f4 & s1 & att & -> & Hn & Ht & Hatt) Hst Hok.
  cbn [rd_descriptor rd_buffer rd_structure activeDecodeTargetsPresentFlag active_structure] in *.
  destruct (all_targets st Hok) as [_ Hall]. pose proof (s_targets _ Hok) as Htg. unfold MaxDecodeTargets in Htg.
  assert (Hpow : 2 ^ NumDecodeTargets st <= 2 ^ 32) by (apply Z.pow_le_mono_r; lia).
  assert (Hbm : forall m, (match att with Some st => Some (allTargets st) | None => None end) = Some m ->
            0 <= m < 2 ^ NumDecodeTargets st).
  { destruct att as [st'|]; [|done]. cbn in Hst. injection Hst as ->. intros m [= <-]. rewrite Hall. lia. }
  eapply (ends_bind _ _ (fun _ r => exists d b mask, rok b /\ r_buf b = buf /\
      r = mkDDReader d b tid af f2 f3 f4 s1 /\ d = mkDescriptor first last number None None mask att /\
      (forall m, mask = Some m -> 0 <= m < 2 ^ NumDecodeTargets st) /\
      (is_Some att -> is_Some mask))).
  { destruct af.
    - any_field (safe_bits (NumDecodeTargets st)). cbn [ends set_descriptor mmodify].
      eexists _, b0, _. split; [done|]. split; [congruence|]. split; [reflexivity|]. split; [reflexivity|].
      split; [|eauto]. intros m [= <-]. cbn in Ha; rewrite u32_small; lia.
    - cbn [ends mret]. eexists _, b, _. do 4 (split; [done|]). split; [exact Hbm|]. intros [? ->]. eauto. }
  intros _ r (d & b1 & mask & Hb1 & Hq1 & -> & -> & Hmask & Hsome).
  eapply ends_bind; [by apply ends_frame|]. intros _ r' (Hb2 & Hq2 & Hfr). cbn.
  split; [rewrite <- Hq2; by apply BytesRead_range|].
  pose proof Hfr as (f0 & res & Ed & _). rewrite Ed in Hfr |- *.
  destruct (frame_read_ok st _ _ Hfr Hok Hn Hmask) as [f Hf].
  { cbn. destruct att as [st'|]; [|by left]. right. injection Hst as ->. eauto. }
  exists st, f. split; [exact Hst|done].
Qed.

Lemma Unmarshal_accepted buf s0 :
  bytes buf -> (forall st, s0 = Some st -> structure_ok st) ->
  match Unmarshal buf s0 emptyDescriptor with
  | Ok (d, n) => 0 <= n <= zlen buf /\ accepted s0 d
  | Err e => panics e = false
  end.
Proof.
  intros Hbuf Hs0. unfold Unmarshal.
  enough (ends (fun n r => 0 <= n <= zlen buf /\ accepted s0 (rd_descriptor r))
            (Parse (NewDependencyDescriptorReader buf s0 emptyDescriptor))) as H.
  { destruct (Parse _) as [r [n|e]]; exact H. }
  unfold Parse. eapply ends_bind; [by apply ends_mandatory|].
  intros _ r [Hk (first & last & number & b & tid & Hn & Ht & ->)]. unfold mget at 1, mbind at 1.
  eapply (ends_bind _ _ (fun _ r => keeps buf s0 r /\ header r)).
  { case_if.
    - destruct Hk as (H1 & H2 & _). by apply ends_extended.
    - cbn [ends mret]. split; [exact Hk|]. do 10 eexists. exists None. split; [reflexivity|done]. }
  intros _ r [Hk' Hh]. unfold mget at 1, mbind at 1. pose proof Hk' as (_ & _ & ->).
  fold (active_structure s0 (rd_descriptor r)).
  destruct (active_structure s0 (rd_descriptor r)) as [st|] eqn:Hst; [|reflexivity].
  apply ends_tail; [done|done|done|].
  destruct Hh as (? & ? & ? & ? & ? & ? & ? & ? & ? & ? & att & -> & _ & _ & Hatt). cbn in Hst.
  destruct att as [st'|]; cbn in Hst; [by injection Hst as <-|by apply Hs0].
Qed.

(** C14: on any bytes, with any structure the reader accepted before, parsing
    ends without a panic and every loop within its bound; a descriptor that
    is accepted is well formed for its structure (attached or current), which
    is well formed too, and no more bytes are consumed than there are. *)
Theorem Unmarshal_total buf s0 :
  bytes buf -> (forall st, s0 = Some st -> structure_ok st) ->
  match Unmarshal buf s0 emptyDescriptor with
  | Ok (d, n) => 0 <= n <= zlen buf /\ exists st f,
      active_structure s0 d = Some st /\ structure_ok st /\ descriptor_ok st d f
  | Err e => panics e = false
  end.
Proof.
  intros Hbuf Hs0. pose proof (Unmarshal_accepted buf s0 Hbuf Hs0) as H.
  destruct (Unmarshal buf s0 emptyDescriptor) as [[d n]|e]; [|done].
  destruct H as (Hn & st & f & H1 & H2 & H3 & _). split; [exact Hn|]. by exists st, f.
Qed.

Lemma Unmarshal_total_witness :
  match Unmarshal [0x85; 0x04; 0xD2; 0x91; 0xFF; 0x30] (Some ex_structure) emptyDescriptor with
  | Ok (d, n) => 0 <= n <= 6 /\ exists st f,
      active_structure (Some ex_structure) d = Some st /\ structure_ok st /\ descriptor_ok st d f
  | Err e => panics e = false
  end.
Proof.
  apply (Unmarshal_total [0x85; 0x04; 0xD2; 0x91; 0xFF; 0x30] (Some ex_structure)).
  - repeat (apply Forall_cons; split; [unfold byte; lia|]). constructor.
  - intros st [= <-]. exact ex_structure_ok.
Defined.
