(* ===== verification/FrameIntegrity.v ===== *)
(** * Frame integrity

    Models [src/SERVER/pkg/sfu/buffer/frameintegrity.go]: a ring of bits that
    remembers which packets arrived, and a ring of frames that remembers
    which frames are complete.  The bit ring is proved to be the set of
    received sequence numbers inside its window. *)

From S2P Require Import Prelude DdTypes DdBits.

(** ** Packet history *)

Record PacketHistory := mkHistory {
  ph_base : Z;
  ph_last : Z;
  ph_bits : list Z;       (** [uint64] words *)
  packetCount : Z;
  ph_inited : bool;
}.
#[export] Instance eta_PacketHistory : Eta PacketHistory := fun ph =>
  mkHistory (ph_base ph) (ph_last ph) (ph_bits ph) (packetCount ph) (ph_inited ph).

Definition NewPacketHistory (count : Z) : PacketHistory :=
  let packetCount := Z.quot (count + 63) 64 * 64 in
  mkHistory 0 0 (repeat 0 (Z.to_nat (Z.quot packetCount 64))) packetCount false.

(** The word and the bit in it. *)
Definition getPos (ph : PacketHistory) (seq : Z) : Z * Z :=
  let idx := u64 (seq - ph_base ph) mod packetCount ph in
  (Z.shiftr idx 6, idx mod 64).

(** [ph.bits[i]]; every index used is in range ([getPos_range]). *)
Definition word (bits : list Z) (i : Z) : Z := default 0 (zlookup bits i).

Definition set (ph : PacketHistory) (seq : Z) (received : bool) : PacketHistory :=
  let '(idx, offset) := getPos ph seq in
  let w := word (ph_bits ph) idx in
  ph <| ph_bits := zset idx
          (if received then Z.lor w (u64 (Z.shiftl 1 offset))
           else Z.land w (u64 (Z.lnot (Z.shiftl 1 offset)))) (ph_bits ph) |>.

(** [for i := from; i < to; i++ { ph.set(i, false) }]; [n] is [to - from]. *)
Fixpoint clear_loop (n : nat) (i : Z) (ph : PacketHistory) : PacketHistory :=
  match n with
  | O => ph
  | S n => clear_loop n (i + 1) (set ph i false)
  end.

(** [ph.AddPacket] *)
Definition AddSeq (ph : PacketHistory) (extSeq : Z) : PacketHistory :=
  if negb (ph_inited ph) then
    let base := if extSeq >? 100 then extSeq - 100 else 0 in
    set (ph <| ph_inited := true |> <| ph_base := base |> <| ph_last := extSeq |>) extSeq true
  else if extSeq <=? ph_base ph then ph
  else if extSeq <=? ph_last ph then
    if u64 (ph_last ph - extSeq) <? packetCount ph then set ph extSeq true else ph
  else
    let ph := clear_loop (Z.to_nat (extSeq - (ph_last ph + 1))) (ph_last ph + 1) ph in
    set ph extSeq true <| ph_last := extSeq |>.

(** The words strictly between the first and the last one; the index wraps
    at [len(ph.bits)], so [len(ph.bits)] rounds reach [endIndex]. *)
Fixpoint full_words (fuel : nat) (bits : list Z) (i endIndex : Z) : bool :=
  match fuel with
  | O => false
  | S fuel =>
    if i =? endIndex then true
    else
      let wrapped := i =? zlen bits in
      let i := if wrapped then 0 else i in
      if wrapped && (i =? endIndex) then true
      else if negb (u64 (word bits i + 1) =? 0) then false
      else full_words fuel bits (i + 1) endIndex
  end.

Definition PacketsConsecutive (ph : PacketHistory) (start stop : Z) : bool :=
  if start >? stop then false
  else if u64 (stop - start) >=? packetCount ph then false
  else
    let '(startIndex, startOffset) := getPos ph start in
    let '(endIndex, endOffset) := getPos ph stop in
    if (startIndex =? endIndex) && (u64 (stop - start) <=? 64) then
      let testBits := u64 (Z.shiftl (u64 (u64 (Z.shiftl 1 (endOffset - startOffset + 1)) - 1)) startOffset) in
      Z.land (word (ph_bits ph) startIndex) testBits =? testBits
    else if negb (u64 (Z.shiftr (word (ph_bits ph) startIndex) startOffset + 1)
                  =? u64 (Z.shiftl 1 (64 - startOffset))) then false
    else if negb (full_words (S (S (length (ph_bits ph)))) (ph_bits ph) (startIndex + 1) endIndex) then false
    else
      let testBits := u64 (u64 (Z.shiftl 1 (endOffset + 1)) - 1) in
      Z.land (word (ph_bits ph) endIndex) testBits =? testBits.

(** ** Frames *)

Record FrameEntity := mkFrame {
  startSeq : option Z;
  endSeq : option Z;
  integrity : bool;
}.
#[export] Instance eta_FrameEntity : Eta FrameEntity := fun fe =>
  mkFrame (startSeq fe) (endSeq fe) (integrity fe).

Definition ResetFrame (fe : FrameEntity) : FrameEntity := mkFrame None None false.

(** [fe.AddPacket]; [ph] is the shared [*fe.pktHistory]. *)
Definition AddFramePacket (ph : PacketHistory) (fe : FrameEntity) (extSeq : Z)
  (ddVal : DependencyDescriptor) : FrameEntity :=
  if integrity fe then fe
  else
    let fe := match startSeq fe with
              | None => if FirstPacketInFrame ddVal then fe <| startSeq := Some extSeq |> else fe
              | Some _ => fe
              end in
    let fe := match endSeq fe with
              | None => if LastPacketInFrame ddVal then fe <| endSeq := Some extSeq |> else fe
              | Some _ => fe
              end in
    match startSeq fe, endSeq fe with
    | Some s, Some e => if PacketsConsecutive ph s e then fe <| integrity := true |> else fe
    | _, _ => fe
    end.

Record FrameIntegrityChecker := mkChecker {
  frameCount : Z;
  frames : list FrameEntity;
  fc_base : Z;
  fc_last : Z;
  pktHistory : PacketHistory;
  fc_inited : bool;
}.
#[export] Instance eta_FrameIntegrityChecker : Eta FrameIntegrityChecker := fun fc =>
  mkChecker (frameCount fc) (frames fc) (fc_base fc) (fc_last fc) (pktHistory fc) (fc_inited fc).

Definition NewFrameIntegrityChecker (count packets : Z) : FrameIntegrityChecker :=
  mkChecker count (repeat (mkFrame None None false) (Z.to_nat count)) 0 0 (NewPacketHistory packets) false.

(** [fc.frames[int(n-fc.base)%fc.frameCount]] *)
Definition slot (fc : FrameIntegrityChecker) (n : Z) : Z := Z.rem (i64 (u64 (n - fc_base fc))) (frameCount fc).

Definition update_frame (f : FrameEntity -> FrameEntity) (n : Z) (fc : FrameIntegrityChecker)
  : FrameIntegrityChecker :=
  match zlookup (frames fc) (slot fc n) with
  | Some fe => fc <| frames := zset (slot fc n) (f fe) (frames fc) |>
  | None => fc
  end.

(** [for i := from; i <= to; i++ { frames[..].Reset() }]; [n] is [to - from + 1]. *)
Fixpoint reset_loop (n : nat) (i : Z) (fc : FrameIntegrityChecker) : FrameIntegrityChecker :=
  match n with
  | O => fc
  | S n => reset_loop n (i + 1) (update_frame ResetFrame i fc)
  end.

Definition AddPacket (fc : FrameIntegrityChecker) (extSeq extFrameNum : Z) (ddVal : DependencyDescriptor)
  : FrameIntegrityChecker :=
  let fc := fc <| pktHistory := AddSeq (pktHistory fc) extSeq |> in
  let fc := if negb (fc_inited fc) then
              fc <| fc_inited := true |> <| fc_base := extFrameNum |> <| fc_last := extFrameNum |>
            else fc in
  let add := update_frame (fun fe => AddFramePacket (pktHistory fc) fe extSeq ddVal) extFrameNum in
  if extFrameNum <? fc_base fc then fc
  else if extFrameNum <=? fc_last fc then
    if u64 (fc_last fc - extFrameNum) >=? frameCount fc then fc else add fc
  else
    add (reset_loop (Z.to_nat (extFrameNum - fc_last fc)) (fc_last fc + 1) fc) <| fc_last := extFrameNum |>.

Definition FrameIntegrity (fc : FrameIntegrityChecker) (extFrameNum : Z) : bool :=
  if (extFrameNum <? fc_base fc) || (extFrameNum >? fc_last fc)
     || (u64 (fc_last fc - extFrameNum) >=? frameCount fc) then false
  else match zlookup (frames fc) (slot fc extFrameNum) with
       | Some fe => integrity fe
       | None => false
       end.

(** ** Bits of words *)

Definition u64_word (w : Z) : Prop := 0 <= w < 18446744073709551616.

Lemma u64_mod x : u64 x = x mod 2 ^ 64.
Proof. reflexivity. Qed.

Lemma word_high w i : u64_word w -> 64 <= i -> Z.testbit w i = false.
Proof.
  intros Hw Hi. unfold u64_word in Hw. destruct (Z.eq_dec w 0) as [->|]; [apply Z.bits_0|].
  apply Z.bits_above_log2; [lia|]. apply (Z.lt_le_trans _ 64); [|done]. apply Z.log2_lt_pow2; [lia|].
  change (2 ^ 64) with 18446744073709551616. lia.
Qed.

Lemma u64_testbit x i : 0 <= i -> Z.testbit (u64 x) i = (i <? 64) && Z.testbit x i.
Proof.
  intros Hi. rewrite u64_mod. destruct (Z.ltb_spec i 64); [by rewrite Z.mod_pow2_bits_low by lia|].
  by rewrite Z.mod_pow2_bits_high by lia.
Qed.

(** The mask [((1 << n) - 1) << o] in 64 bits. *)
Lemma mask_testbit n o i : 0 <= n -> 0 <= o -> n + o <= 64 -> 0 <= i ->
  Z.testbit (u64 (Z.shiftl (u64 (u64 (Z.shiftl 1 n) - 1)) o)) i = (o <=? i) && (i <? o + n).
Proof.
  intros Hn Ho Hno Hi. assert (u64 (u64 (Z.shiftl 1 n) - 1) = Z.ones n) as ->.
  { rewrite Z.ones_equiv, <- Z.sub_1_r, Z.shiftl_mul_pow2, Z.mul_1_l by lia.
    destruct (Z.eq_dec n 64) as [->|]; [reflexivity|].
    assert (1 <= 2 ^ n < 2 ^ 64) by (split; [lia|apply Z.pow_lt_mono_r; lia]).
    change (2 ^ 64) with 18446744073709551616 in *. by rewrite (u64_small (2 ^ n)), u64_small by lia. }
  rewrite u64_testbit, Z.shiftl_spec by lia. destruct (Z.leb_spec o i); cbn [andb].
  - rewrite Z.testbit_ones by lia. rewrite (proj2 (Z.leb_le 0 _)) by lia. cbn [andb].
    destruct (Z.ltb_spec i 64), (Z.ltb_spec (i - o) n), (Z.ltb_spec i (o + n)); cbn; try done; lia.
  - rewrite Z.testbit_neg_r by lia. apply andb_false_r.
Qed.

(** [w & m == m] for a mask of the bits [o .. o + n - 1] *)
Lemma mask_all w n o : 0 <= n -> 0 <= o -> n + o <= 64 ->
  let m := u64 (Z.shiftl (u64 (u64 (Z.shiftl 1 n) - 1)) o) in
  Z.land w m = m <-> forall i, o <= i < o + n -> Z.testbit w i = true.
Proof.
  intros Hn Ho Hno m. split.
  - intros E i Hi. assert (Z.testbit (Z.land w m) i = true) as Ht.
    { rewrite E. unfold m. rewrite mask_testbit by lia. lia. }
    rewrite Z.land_spec in Ht. by apply andb_true_iff in Ht as [Ht _].
  - intros H. apply Z.bits_inj'. intros i Hi. rewrite Z.land_spec. unfold m. rewrite mask_testbit by lia.
    destruct ((o <=? i) && (i <? o + n)) eqn:E; [|apply andb_false_r]. bool_prop. by rewrite H by lia.
Qed.

Lemma low_mask_all w n : 1 <= n <= 64 ->
  Z.land w (u64 (u64 (Z.shiftl 1 n) - 1)) = u64 (u64 (Z.shiftl 1 n) - 1) <->
  forall i, 0 <= i < n -> Z.testbit w i = true.
Proof.
  intros Hn. pose proof (mask_all w n 0 ltac:(lia) ltac:(lia) ltac:(lia)) as H. cbv zeta in H.
  rewrite Z.shiftl_0_r in H. set (x := u64 (u64 (Z.shiftl 1 n) - 1)) in *.
  assert (u64 x = x) as Ex by (apply Z.mod_small, Z.mod_pos_bound; lia). rewrite Ex in H. exact H.
Qed.

(** [(w >> o) + 1 == 1 << (64 - o)] in 64 bits *)
Lemma tail_ones w o : u64_word w -> 0 <= o < 64 ->
  u64 (Z.shiftr w o + 1) = u64 (Z.shiftl 1 (64 - o)) <-> forall i, o <= i < 64 -> Z.testbit w i = true.
Proof.
  intros Hw Ho. unfold u64_word in Hw. rewrite Z.shiftl_mul_pow2, Z.mul_1_l, Z.shiftr_div_pow2 by lia.
  assert (Hpow : 2 ^ o * 2 ^ (64 - o) = 18446744073709551616)
    by (rewrite <- Z.pow_add_r by lia; replace (o + (64 - o)) with 64 by lia; reflexivity).
  assert (0 < 2 ^ o) by lia. assert (0 < 2 ^ (64 - o)) by lia.
  assert (Hd : 0 <= w / 2 ^ o < 2 ^ (64 - o)) by (split; [apply Z.div_pos; lia|apply Z.div_lt_upper_bound; lia]).
  assert (Hle : 2 ^ (64 - o) <= 18446744073709551616).
  { change 18446744073709551616 with (2 ^ 64). apply Z.pow_le_mono_r; lia. }
  transitivity (w / 2 ^ o = Z.ones (64 - o)).
  - rewrite Z.ones_equiv, <- Z.sub_1_r. split; [|intros ->; f_equal; lia].
    intros E. destruct (Z.eq_dec (w / 2 ^ o + 1) 18446744073709551616) as [E1|E1].
    + lia.
    + rewrite (u64_small (_ + 1)) in E by lia. destruct (Z.eq_dec (2 ^ (64 - o)) 18446744073709551616) as [E2|E2].
      * rewrite E2 in E. change (u64 18446744073709551616) with 0 in E. lia.
      * rewrite u64_small in E by lia. lia.
  - rewrite <- Z.shiftr_div_pow2 by lia. split.
    + intros E i Hi. replace i with ((i - o) + o) by lia. rewrite <- Z.shiftr_spec, E by lia.
      apply Z.ones_spec_low. lia.
    + intros H1. apply Z.bits_inj'. intros i Hi. rewrite Z.shiftr_spec, Z.testbit_ones by lia.
      rewrite (proj2 (Z.leb_le 0 i)) by lia. cbn [andb]. destruct (Z.ltb_spec i (64 - o)); [apply H1; lia|].
      apply word_high; [done|lia].
Qed.

Lemma full_word w : u64_word w -> u64 (w + 1) = 0 <-> forall i, 0 <= i < 64 -> Z.testbit w i = true.
Proof.
  intros Hw. pose proof (tail_ones w 0 Hw ltac:(lia)) as H. rewrite Z.shiftr_0_r in H. exact H.
Qed.

(** ** The ring of words *)

Definition words_ok (bits : list Z) : Prop := Forall u64_word bits.

(** The bit at the distance [x] from the base. *)
Definition ring_bit (bits : list Z) (x : Z) : bool :=
  Z.testbit (word bits ((x / 64) mod zlen bits)) (x mod 64).

Lemma word_ok bits i : words_ok bits -> u64_word (word bits i).
Proof.
  intros H. unfold word. destruct (zlookup bits i) as [w|] eqn:E; [|done]. cbn.
  unfold zlookup in E. case_if_in E; [|done]. exact (Forall_lookup_1 _ _ _ _ H E).
Qed.

Lemma ring_pos n x : 0 < n -> 0 <= x ->
  Z.shiftr (x mod (64 * n)) 6 = (x / 64) mod n /\ (x mod (64 * n)) mod 64 = x mod 64.
Proof.
  intros Hn Hx. rewrite Z.shiftr_div_pow2 by lia. change (2 ^ 6) with 64.
  rewrite Z.rem_mul_r by lia. rewrite (Z.add_comm (x mod 64)), (Z.mul_comm 64). split.
  - rewrite Z.div_add_l, (Z.div_small (x mod 64)) by (try apply Z.mod_pos_bound; lia). lia.
  - rewrite Z.add_comm, Z.mod_add by lia. apply Z.mod_mod. lia.
Qed.

(** The loop over the inner words; [k .. b - 1] are their absolute numbers. *)
Lemma full_words_ok bits n b : n = zlen bits -> 1 < n -> words_ok bits -> 0 <= b -> forall fuel k i,
  0 <= k <= b -> b - k < n -> (Z.to_nat (b - k) < fuel)%nat -> i = k mod n \/ i = n /\ k mod n = 0 ->
  full_words fuel bits i (b mod n) = true <-> forall j, k <= j < b -> u64 (word bits (j mod n) + 1) = 0.
Proof.
  intros -> Hn Hw Hb. induction fuel as [|fuel IH]; intros k i Hk Hbk Hf Hi; [lia|]. cbn [full_words].
  pose proof (Z.mod_pos_bound k (zlen bits) ltac:(lia)) as Hkm.
  pose proof (Z.mod_pos_bound b (zlen bits) ltac:(lia)) as Hbm.
  set (i' := if i =? zlen bits then 0 else i).
  assert (i' = k mod zlen bits) as Hi'.
  { unfold i'. destruct Hi as [->|[-> E]].
    - rewrite (proj2 (Z.eqb_neq _ _)) by lia. done.
    - rewrite Z.eqb_refl. done. }
  destruct (Z.eq_dec k b) as [->|Hne].
  - split; [intros _ j Hj; lia|intros _]. destruct (Z.eqb_spec i (b mod zlen bits)) as [|Hib]; [done|].
    destruct Hi as [|[-> E]]; [done|]. subst i'. cbv zeta. rewrite Z.eqb_refl in *. rewrite E. done.
  - assert (k mod zlen bits <> b mod zlen bits) as Hkb.
    { intros E. assert (zlen bits * ((b - k) / zlen bits) = b - k) as E'.
      { rewrite <- Z_div_exact_full_2; [lia|lia|]. rewrite Zminus_mod, E, Z.sub_diag. apply Z.mod_0_l. lia. }
      rewrite Z.div_small in E' by lia. lia. }
    rewrite (proj2 (Z.eqb_neq i (b mod zlen bits))) by (destruct Hi as [->|[-> _]]; lia).
    cbv zeta. fold i'. rewrite (proj2 (Z.eqb_neq i' _)), andb_false_r by lia. rewrite Hi'.
    destruct (Z.eqb_spec (u64 (word bits (k mod zlen bits) + 1)) 0) as [E|E]; cbn [negb].
    + rewrite (IH (k + 1) (k mod zlen bits + 1)); [|lia|lia|lia|].
      * split; intros H j Hj; [|apply H; lia]. destruct (Z.eq_dec j k) as [->|]; [done|apply H; lia].
      * rewrite Z.add_mod, (Z.mod_small 1) by lia. destruct (Z.eq_dec (k mod zlen bits + 1) (zlen bits)) as [E1|E1].
        -- right. rewrite E1. split; [done|]. apply Z.mod_same. lia.
        -- left. rewrite (Z.mod_small (_ + 1)) by lia. done.
    + split; [done|]. intros H. exfalso. apply E, H. lia.
Qed.

Record history_ok (ph : PacketHistory) : Prop := {
  h_words : words_ok (ph_bits ph);
  h_count : packetCount ph = 64 * zlen (ph_bits ph);
  h_size : 2 <= zlen (ph_bits ph) < 2 ^ 32;
}.

Definition pkt_bit (ph : PacketHistory) (s : Z) : bool := ring_bit (ph_bits ph) (s - ph_base ph).

Lemma getPos_ok ph s : history_ok ph -> 0 <= ph_base ph <= s -> s < 2 ^ 64 ->
  getPos ph s = (((s - ph_base ph) / 64) mod zlen (ph_bits ph), (s - ph_base ph) mod 64).
Proof.
  intros [_ Hc Hs] Hb Hlt. unfold getPos. change (2 ^ 64) with 18446744073709551616 in Hlt.
  rewrite u64_small, Hc by lia.
  destruct (ring_pos (zlen (ph_bits ph)) (s - ph_base ph)) as [-> ->]; [lia|lia|done].
Qed.

Lemma word_split x : x = 64 * (x / 64) + x mod 64 /\ 0 <= x mod 64 < 64.
Proof. split; [apply Z.div_mod; lia|apply Z.mod_pos_bound; lia]. Qed.

(** Bits [x] to [y] at distances in different words. *)
Lemma ring_range bits x y : 0 <= x -> x / 64 < y / 64 ->
  (forall z, x <= z <= y -> ring_bit bits z = true) <->
  (forall i, x mod 64 <= i < 64 -> Z.testbit (word bits ((x / 64) mod zlen bits)) i = true) /\
  (forall j, x / 64 + 1 <= j < y / 64 -> forall i, 0 <= i < 64 -> Z.testbit (word bits (j mod zlen bits)) i = true) /\
  (forall i, 0 <= i < y mod 64 + 1 -> Z.testbit (word bits ((y / 64) mod zlen bits)) i = true).
Proof.
  intros Hx Hxy. pose proof (word_split x) as [Ex Hxm]. pose proof (word_split y) as [Ey Hym].
  assert (Hat : forall j i, 0 <= i < 64 -> ring_bit bits (64 * j + i) = Z.testbit (word bits (j mod zlen bits)) i).
  { intros j i Hi. unfold ring_bit. replace ((64 * j + i) / 64) with j by dlia.
    replace ((64 * j + i) mod 64) with i by dlia. done. }
  split.
  - intros H. split_and!.
    + intros i Hi. rewrite <- Hat by lia. apply H. lia.
    + intros j Hj i Hi. rewrite <- Hat by lia. apply H. lia.
    + intros i Hi. rewrite <- Hat by lia. apply H. lia.
  - intros (H1 & H2 & H3) z Hz. pose proof (word_split z) as [Ez Hzm]. rewrite Ez, Hat by lia.
    destruct (Z.eq_dec (z / 64) (x / 64)) as [E|]; [rewrite E; apply H1; lia|].
    destruct (Z.eq_dec (z / 64) (y / 64)) as [E'|]; [rewrite E'; apply H3; lia|].
    apply H2; lia.
Qed.

Lemma same_word_range bits x y : 0 <= x <= y -> x / 64 = y / 64 ->
  (forall z, x <= z <= y -> ring_bit bits z = true) <->
  (forall i, x mod 64 <= i < x mod 64 + (y mod 64 - x mod 64 + 1) ->
     Z.testbit (word bits ((x / 64) mod zlen bits)) i = true).
Proof.
  intros Hx Hxy. pose proof (word_split x) as [Ex Hxm]. pose proof (word_split y) as [Ey Hym]. split.
  - intros H i Hi. specialize (H (64 * (x / 64) + i) ltac:(lia)). unfold ring_bit in H.
    replace ((64 * (x / 64) + i) / 64) with (x / 64) in H by dlia.
    replace ((64 * (x / 64) + i) mod 64) with i in H by dlia. done.
  - intros H z Hz. unfold ring_bit. pose proof (word_split z) as [Ez Hzm].
    replace (z / 64) with (x / 64) by dlia. apply H. dlia.
Qed.

(** The word-wise test is the conjunction of the bits. *)
Lemma PacketsConsecutive_bits ph start stop : history_ok ph ->
  0 <= ph_base ph <= start -> start <= stop < 2 ^ 64 -> stop - start < packetCount ph ->
  PacketsConsecutive ph start stop = true <-> forall s, start <= s <= stop -> pkt_bit ph s = true.
Proof.
  intros Hok Hb Hs Hlen. pose proof Hok as [Hw Hc Hsz]. unfold PacketsConsecutive.
  rewrite Z.gtb_ltb, (proj2 (Z.ltb_ge _ _)) by lia.
  rewrite u64_small by (change (2 ^ 64) with 18446744073709551616 in Hs; lia).
  rewrite Z.geb_leb, (proj2 (Z.leb_gt _ _)) by lia. rewrite !getPos_ok by (done || lia).
  set (n := zlen (ph_bits ph)) in *. set (x := start - ph_base ph). set (y := stop - ph_base ph).
  assert (Hpkt : (forall s, start <= s <= stop -> pkt_bit ph s = true) <->
                 (forall z, x <= z <= y -> ring_bit (ph_bits ph) z = true)).
  { unfold pkt_bit, x, y. split; intros H z Hz.
    - specialize (H (z + ph_base ph) ltac:(lia)). by rewrite Z.add_simpl_r in H.
    - apply H. lia. }
  rewrite Hpkt. clear Hpkt. pose proof (word_split x) as [Ex Hxm]. pose proof (word_split y) as [Ey Hym].
  replace (stop - start) with (y - x) in * by (unfold x, y; lia).
  assert (0 <= x) by (unfold x; lia). assert (x <= y) by (unfold x, y; lia).
  destruct (Z.eq_dec (x / 64) (y / 64)) as [E|E].
  - rewrite E, Z.eqb_refl, (proj2 (Z.leb_le (y - x) 64)) by lia. cbn [andb].
    rewrite (same_word_range _ x y) by (lia || done). rewrite Z.eqb_eq, E.
    apply (mask_all _ (y mod 64 - x mod 64 + 1) (x mod 64)); lia.
  - assert (x / 64 < y / 64) by lia. assert (y / 64 - x / 64 <= n) by lia.
    assert (((x / 64) mod n =? (y / 64) mod n) && (y - x <=? 64) = false) as ->.
    { destruct (Z.eqb_spec ((x / 64) mod n) ((y / 64) mod n)) as [Em|]; [|done]. apply Z.leb_gt.
      assert (n * ((y / 64 - x / 64) / n) = y / 64 - x / 64) as En.
      { rewrite <- Z_div_exact_full_2; [lia|lia|]. rewrite Zminus_mod, Em, Z.sub_diag. apply Z.mod_0_l. lia. }
      assert (0 < (y / 64 - x / 64) / n) by nia. nia. }
    rewrite (ring_range _ x y) by lia. fold n.
    rewrite <- (tail_ones (word (ph_bits ph) ((x / 64) mod n)) (x mod 64)) by (try apply word_ok; done).
    rewrite <- (low_mask_all _ (y mod 64 + 1)) by lia.
    destruct (Z.eqb_spec (u64 (Z.shiftr (word (ph_bits ph) ((x / 64) mod n)) (x mod 64) + 1))
               (u64 (Z.shiftl 1 (64 - x mod 64)))) as [E1|E1]; cbn [negb]; [|split; [done|by intros [? _]]].
    pose proof (full_words_ok (ph_bits ph) n (y / 64) eq_refl ltac:(lia) Hw ltac:(lia)
      (Datatypes.S (Datatypes.S (length (ph_bits ph)))) (x / 64 + 1) ((x / 64) mod n + 1)) as Hfull.
    assert (Hfw : full_words (Datatypes.S (Datatypes.S (length (ph_bits ph)))) (ph_bits ph) ((x / 64) mod n + 1) ((y / 64) mod n) = true <->
      forall j, x / 64 + 1 <= j < y / 64 -> forall i, 0 <= i < 64 -> Z.testbit (word (ph_bits ph) (j mod n)) i = true).
    { rewrite Hfull; [|lia|lia|unfold n, zlen in *; lia|].
      - split; intros H' j Hj; apply (full_word _ (word_ok _ _ Hw)), H', Hj.
      - pose proof (Z.mod_pos_bound (x / 64) n ltac:(lia)). rewrite (Z.add_mod (x / 64) 1 n), (Z.mod_small 1 n) by lia.
        destruct (Z.eq_dec ((x / 64) mod n + 1) n) as [E2|E2].
        + right. rewrite E2. split; [done|]. apply Z.mod_same. lia.
        + left. rewrite (Z.mod_small (_ + 1)) by lia. done. }
    destruct (full_words _ _ _ _); cbn [negb].
    + rewrite Z.eqb_eq. split; [intros H3; split; [done|split; [by apply Hfw|done]]|by intros (_ & _ & H3)].
    + split; [done|]. intros (_ & Hall & _). by apply Hfw in Hall.
Qed.

(** ** Recording a packet *)

Lemma word_zset bits i j w : 0 <= i < zlen bits -> 0 <= j ->
  word (zset i w bits) j = if j =? i then w else word bits j.
Proof.
  intros Hi Hj. unfold word. destruct (Z.eqb_spec j i) as [->|Hne]; [by rewrite zlookup_zset_eq|].
  by rewrite zlookup_zset_ne by lia.
Qed.

Definition put_bit (w o : Z) (b : bool) : Z :=
  if b then Z.lor w (u64 (Z.shiftl 1 o)) else Z.land w (u64 (Z.lnot (Z.shiftl 1 o))).

Lemma shiftl1_testbit o i : 0 <= o -> 0 <= i -> Z.testbit (Z.shiftl 1 o) i = (i =? o).
Proof.
  intros Ho Hi. rewrite Z.shiftl_spec by lia. destruct (Z.eqb_spec i o) as [->|Hne]; [by rewrite Z.sub_diag|].
  destruct (Z.lt_ge_cases i o); [by rewrite Z.testbit_neg_r by lia|].
  change 1 with (2 ^ 0). by rewrite Z.pow2_bits_false by lia.
Qed.

Lemma put_bit_testbit w o b i : u64_word w -> 0 <= o < 64 -> 0 <= i ->
  Z.testbit (put_bit w o b) i = if i =? o then b else Z.testbit w i.
Proof.
  intros Hw Ho Hi. unfold put_bit. destruct b.
  - rewrite Z.lor_spec, u64_testbit, shiftl1_testbit by lia.
    destruct (Z.eqb_spec i o) as [->|]; [rewrite (proj2 (Z.ltb_lt _ _)) by lia; apply orb_true_r|].
    by rewrite andb_false_r, orb_false_r.
  - rewrite Z.land_spec, u64_testbit, Z.lnot_spec, shiftl1_testbit by lia.
    destruct (Z.eqb_spec i o) as [->|]; cbn [negb]; [by rewrite !andb_false_r|]. rewrite andb_true_r.
    destruct (Z.ltb_spec i 64); [apply andb_true_r|]. rewrite word_high by (done || lia). done.
Qed.

(** A non-negative number without bits from 64 on is a word. *)
Lemma word_intro x : 0 <= x -> (forall i, 64 <= i -> Z.testbit x i = false) -> u64_word x.
Proof.
  intros Hx H. unfold u64_word. split; [done|]. change 18446744073709551616 with (2 ^ 64).
  destruct (Z.eq_dec x 0) as [->|Hne]; [done|]. apply Z.log2_lt_pow2; [lia|].
  destruct (Z.lt_ge_cases (Z.log2 x) 64) as [|Hge]; [done|].
  specialize (H _ Hge). rewrite Z.bit_log2 in H by lia. done.
Qed.

Lemma put_bit_word w o b : u64_word w -> 0 <= o < 64 -> u64_word (put_bit w o b).
Proof.
  intros Hw Ho. apply word_intro.
  - unfold put_bit, u64_word in *. pose proof (u64_range (Z.shiftl 1 o)). pose proof (u64_range (Z.lnot (Z.shiftl 1 o))).
    destruct b; [apply Z.lor_nonneg; lia|apply Z.land_nonneg; lia].
  - intros i Hi. rewrite put_bit_testbit by (done || lia). rewrite (proj2 (Z.eqb_neq i o)) by lia.
    by apply word_high.
Qed.

Lemma ring_bit_put bits x y b : words_ok bits -> 0 < zlen bits -> 0 <= x -> 0 <= y ->
  let i := (x / 64) mod zlen bits in
  ring_bit (zset i (put_bit (word bits i) (x mod 64) b) bits) y =
  if (y - x) mod (64 * zlen bits) =? 0 then b else ring_bit bits y.
Proof.
  intros Hw Hn Hx Hy i. unfold ring_bit. rewrite zlen_zset.
  pose proof (Z.mod_pos_bound (x / 64) (zlen bits) Hn). pose proof (Z.mod_pos_bound (y / 64) (zlen bits) Hn).
  pose proof (Z.mod_pos_bound x 64 ltac:(lia)). pose proof (Z.mod_pos_bound y 64 ltac:(lia)).
  destruct (ring_pos (zlen bits) x Hn Hx) as [Ex Exm]. destruct (ring_pos (zlen bits) y Hn Hy) as [Ey Eym].
  assert ((y - x) mod (64 * zlen bits) = 0 <->
          (y / 64) mod zlen bits = (x / 64) mod zlen bits /\ y mod 64 = x mod 64) as Heq.
  { rewrite <- Ex, <- Ey, <- Exm, <- Eym. split.
    - intros E. assert (y mod (64 * zlen bits) = x mod (64 * zlen bits)) as ->; [|done].
      rewrite <- (Z.sub_add x y), Z.add_mod, E, Z.add_0_l by lia. apply Z.mod_mod. lia.
    - intros [E1 E2]. rewrite Z.shiftr_div_pow2 in E1 by lia. rewrite Z.shiftr_div_pow2 in E1 by lia.
      change (2 ^ 6) with 64 in E1.
      assert (y mod (64 * zlen bits) = x mod (64 * zlen bits)) as E.
      { pose proof (word_split (y mod (64 * zlen bits))). pose proof (word_split (x mod (64 * zlen bits))). lia. }
      rewrite Zminus_mod, E, Z.sub_diag. apply Z.mod_0_l. lia. }
  rewrite word_zset by (unfold i; lia). unfold i.
  destruct (Z.eqb_spec ((y / 64) mod zlen bits) ((x / 64) mod zlen bits)) as [E|E].
  - rewrite put_bit_testbit, E by (try apply word_ok; done || lia).
    destruct (Z.eqb_spec (y mod 64) (x mod 64)) as [E'|E'].
    + by rewrite (proj2 (Z.eqb_eq _ _)) by (by apply Heq).
    + rewrite (proj2 (Z.eqb_neq _ _)); [done|]. intros H'. by apply Heq in H' as [_ ?].
  - rewrite (proj2 (Z.eqb_neq _ 0)); [done|]. intros H'. by apply Heq in H' as [? _].
Qed.

Lemma zset_words bits i w : words_ok bits -> u64_word w -> words_ok (zset i w bits).
Proof. intros Hb Hw. by apply Forall_insert. Qed.

Lemma set_ok ph s b : history_ok ph -> 0 <= ph_base ph <= s -> s < 2 ^ 64 ->
  history_ok (set ph s b) /\
  forall s', ph_base ph <= s' ->
    pkt_bit (set ph s b) s' = if (s' - s) mod packetCount ph =? 0 then b else pkt_bit ph s'.
Proof.
  intros Hok Hb Hs. pose proof Hok as [Hw Hc Hn]. unfold set. rewrite getPos_ok by done. cbv zeta.
  set (i := ((s - ph_base ph) / 64) mod zlen (ph_bits ph)).
  assert (Hi : 0 <= i < zlen (ph_bits ph)) by (apply Z.mod_pos_bound; lia).
  pose proof (Z.mod_pos_bound (s - ph_base ph) 64 ltac:(lia)) as Ho.
  fold (put_bit (word (ph_bits ph) i) ((s - ph_base ph) mod 64) b). split.
  - constructor; cbn; rewrite ?zlen_zset; [|done|done].
    apply zset_words; [done|]. apply put_bit_word; [by apply word_ok|lia].
  - intros s' Hs'. unfold pkt_bit. cbn [ph_bits ph_base field_upd]. unfold i.
    rewrite ring_bit_put by (done || lia). rewrite Hc. replace (s' - ph_base ph - (s - ph_base ph)) with (s' - s) by lia. done.
Qed.

Lemma set_fields ph s b :
  ph_base (set ph s b) = ph_base ph /\ ph_last (set ph s b) = ph_last ph /\
  packetCount (set ph s b) = packetCount ph /\ ph_inited (set ph s b) = ph_inited ph.
Proof. unfold set. by destruct (getPos ph s). Qed.

Lemma clear_loop_ok n i ph : history_ok ph -> 0 <= ph_base ph <= i -> i + Z.of_nat n <= 2 ^ 64 ->
  history_ok (clear_loop n i ph) /\ ph_base (clear_loop n i ph) = ph_base ph /\
  ph_last (clear_loop n i ph) = ph_last ph /\ packetCount (clear_loop n i ph) = packetCount ph /\
  ph_inited (clear_loop n i ph) = ph_inited ph /\
  forall s, ph_base ph <= s -> pkt_bit (clear_loop n i ph) s = true <->
    pkt_bit ph s = true /\ forall k, i <= k < i + Z.of_nat n -> (s - k) mod packetCount ph <> 0.
Proof.
  revert i ph. induction n as [|n IH]; intros i ph Hok Hb Hlim; cbn [clear_loop].
  { split_and!; try done. intros s Hs. split; [|by intros [? _]]. intros H. split; [done|]. lia. }
  destruct (set_ok ph i false Hok Hb ltac:(lia)) as [Hok' Hbit].
  destruct (set_fields ph i false) as (Fb & Fl & Fc & Fi).
  destruct (IH (i + 1) (set ph i false) Hok' ltac:(lia) ltac:(lia)) as (H1 & H2 & H3 & H4 & H5 & H6).
  split_and!; [done|congruence|congruence|congruence|congruence|].
  intros s Hs. rewrite H6, Hbit, Fc by lia. destruct (Z.eqb_spec ((s - i) mod packetCount ph) 0) as [E|E].
  - split; [by intros [? _]|]. intros [_ H]. exfalso. apply (H i); [lia|done].
  - split; intros [Hs1 Hs2]; (split; [done|]); intros k Hk; [|apply Hs2; lia].
    destruct (Z.eq_dec k i) as [->|]; [done|apply Hs2; lia].
Qed.

(** ** The history is the set of received packets *)

Record history_inv (ph : PacketHistory) (l : list Z) : Prop := {
  hi_ok : history_ok ph;
  hi_start : ph_inited ph = false -> l = [] /\ forall s, pkt_bit ph s = false;
  hi_range : ph_inited ph = true -> 0 <= ph_base ph <= ph_last ph /\ ph_last ph < 2 ^ 64;
  hi_last : forall s, s ∈ l -> s <= ph_last ph;
  hi_bits : ph_inited ph = true -> forall s, ph_base ph < s <= ph_last ph -> ph_last ph - s < packetCount ph ->
            (pkt_bit ph s = true <-> s ∈ l);
}.

Lemma set_bit_close ph s s' b : history_ok ph -> 0 <= ph_base ph <= s -> s < 2 ^ 64 -> ph_base ph <= s' ->
  - packetCount ph < s' - s < packetCount ph ->
  pkt_bit (set ph s b) s' = if s' =? s then b else pkt_bit ph s'.
Proof.
  intros Hok Hb Hs Hs' Hclose. destruct (set_ok ph s b Hok Hb Hs) as [_ H]. rewrite H by done.
  pose proof Hok as [_ Hc Hn]. rewrite mod_zero_close by lia.
  destruct (Z.eqb_spec (s' - s) 0), (Z.eqb_spec s' s); done || lia.
Qed.

Lemma AddSeq_first ph s : history_inv ph [] -> ph_inited ph = false -> 0 <= s < 2 ^ 64 ->
  history_inv (AddSeq ph s) [s].
Proof.
  intros [Hok Hst _ _ _] Hin Hs. destruct (Hst Hin) as [_ Hz]. unfold AddSeq. rewrite Hin. cbn [negb].
  set (base := if s >? 100 then s - 100 else 0).
  assert (Hb : 0 <= base <= s /\ s - base <= 100) by (unfold base; rewrite Z.gtb_ltb; destruct (Z.ltb_spec 100 s); lia).
  set (ph1 := ph <| ph_inited := true |> <| ph_base := base |> <| ph_last := s |>).
  assert (Hok1 : history_ok ph1) by (destruct Hok; by constructor).
  assert (Hz1 : forall x, ph_base ph1 <= x -> pkt_bit ph1 x = false).
  { intros x _. unfold pkt_bit. cbn. specialize (Hz (x - base + ph_base ph)). unfold pkt_bit in Hz.
    by rewrite Z.add_simpl_r in Hz. }
  destruct (set_fields ph1 s true) as (Fb & Fl & Fc & Fi).
  destruct (set_ok ph1 s true Hok1 ltac:(cbn; lia) ltac:(lia)) as [Hok2 _].
  pose proof Hok1 as [_ Hc Hn]. cbn [ph1 packetCount ph_base ph_last ph_inited field_upd] in *.
  constructor; [done|rewrite Fi; done| | |].
  - rewrite Fb, Fl. intros _. cbn. lia.
  - rewrite Fl. intros x Hx. apply list_elem_of_singleton in Hx. cbn. lia.
  - rewrite Fb, Fl. intros _ x Hx _. rewrite list_elem_of_singleton.
    rewrite set_bit_close by (cbn; done || lia). destruct (Z.eqb_spec x s); [done|].
    rewrite Hz1 by (cbn; lia). split; [done|lia].
Qed.

Lemma AddSeq_inv ph l s : history_inv ph l -> 0 <= s < 2 ^ 64 -> history_inv (AddSeq ph s) (l ++ [s]).
Proof.
  intros Hinv Hs. destruct (ph_inited ph) eqn:Hin.
  2: { destruct (hi_start _ _ Hinv Hin) as [-> _]. by apply AddSeq_first. }
  pose proof Hinv as [Hok _ Hr Hl Hbits]. specialize (Hr Hin). specialize (Hbits Hin).
  pose proof Hok as [_ Hc Hn]. unfold AddSeq. rewrite Hin. cbn [negb].
  destruct (Z.leb_spec s (ph_base ph)); [|destruct (Z.leb_spec s (ph_last ph))].
  - constructor; [done|congruence|done| |].
    + intros x Hx. apply elem_of_app in Hx as [Hx|Hx%list_elem_of_singleton]; [by apply Hl|lia].
    + intros _ x Hx Hw. rewrite Hbits, elem_of_app, list_elem_of_singleton by done. split; [tauto|]. intros [|]; [done|lia].
  - rewrite u64_small by (change (2 ^ 64) with 18446744073709551616 in *; lia).
    destruct (Z.ltb_spec (ph_last ph - s) (packetCount ph)).
    + destruct (set_fields ph s true) as (Fb & Fl & Fc & Fi).
      destruct (set_ok ph s true Hok ltac:(lia) ltac:(lia)) as [Hok' _].
      constructor; [done|congruence|by rewrite Fb, Fl| |].
      * rewrite Fl. intros x Hx. apply elem_of_app in Hx as [Hx|Hx%list_elem_of_singleton]; [by apply Hl|lia].
      * rewrite Fb, Fl, Fc. intros _ x Hx Hw. rewrite set_bit_close by (done || lia).
        rewrite elem_of_app, list_elem_of_singleton. destruct (Z.eqb_spec x s); [tauto|]. rewrite Hbits by done. tauto.
    + constructor; [done|congruence|done| |].
      * intros x Hx. apply elem_of_app in Hx as [Hx|Hx%list_elem_of_singleton]; [by apply Hl|lia].
      * intros _ x Hx Hw. rewrite Hbits, elem_of_app, list_elem_of_singleton by done. split; [tauto|]. intros [|]; [done|lia].
  - cbv zeta. set (n := Z.to_nat (s - (ph_last ph + 1))). set (ph1 := clear_loop n (ph_last ph + 1) ph).
    destruct (clear_loop_ok n (ph_last ph + 1) ph Hok ltac:(lia) ltac:(lia)) as (C1 & C2 & C3 & C4 & C5 & C6).
    fold ph1 in C1, C2, C3, C4, C5, C6.
    destruct (set_fields ph1 s true) as (Fb & Fl & Fc & Fi).
    destruct (set_ok ph1 s true C1 ltac:(lia) ltac:(lia)) as [Hok' _].
    constructor; cbn [ph_base ph_last packetCount ph_inited field_upd].
    + destruct Hok'. by constructor.
    + congruence.
    + rewrite Fb, C2. lia.
    + intros x Hx. apply elem_of_app in Hx as [Hx|Hx%list_elem_of_singleton]; [apply Hl in Hx; lia|lia].
    + intros _ x Hx Hw.
      match goal with |- pkt_bit ?p x = true <-> _ => change (pkt_bit p x) with (pkt_bit (set ph1 s true) x) end.
      rewrite Fb, C2 in Hx. rewrite Fc, C4 in Hw.
      rewrite set_bit_close by (done || lia). rewrite elem_of_app, list_elem_of_singleton.
      destruct (Z.eqb_spec x s); [tauto|]. rewrite C6 by lia.
      destruct (Z.le_gt_cases x (ph_last ph)) as [Hle|Hgt].
      * rewrite Hbits by lia. split; [tauto|]. intros [Hm|]; [|lia]. split; [done|]. intros k Hk E.
        apply Z.eqb_eq in E. rewrite mod_zero_close, Z.eqb_eq in E by lia. lia.
      * split.
        -- intros [_ Hk]. exfalso. apply (Hk x); [lia|]. by rewrite Z.sub_diag, Z.mod_0_l by lia.
        -- intros [Hm|]; [apply Hl in Hm; lia|lia].
Qed.

Lemma NewPacketHistory_inv count : 65 <= count < 2 ^ 36 -> history_inv (NewPacketHistory count) [].
Proof.
  intros Hc. unfold NewPacketHistory. rewrite Z.quot_mul by lia.
  rewrite Z.quot_div_nonneg by lia. set (n := (count + 63) / 64).
  assert (Hn : 2 <= n < 2 ^ 32).
  { change (2 ^ 36) with 68719476736 in Hc. change (2 ^ 32) with 4294967296. unfold n. dlia. }
  assert (Hlen : zlen (repeat 0 (Z.to_nat n)) = n) by (unfold zlen; rewrite repeat_length; lia).
  constructor; cbn; try done.
  - constructor; cbn; rewrite ?Hlen; [|lia|done].
    apply Forall_forall. intros x Hx. apply list_elem_of_In, repeat_spec in Hx. by subst.
  - intros _. split; [done|]. intros s. unfold pkt_bit, ring_bit, word. cbn.
    destruct (zlookup _ _) as [w|] eqn:E; cbn; [|apply Z.bits_0].
    destruct (zlookup_Some _ _ _ E) as [_ E']. apply list_elem_of_lookup_2, list_elem_of_In, repeat_spec in E'.
    subst. apply Z.bits_0.
  - intros s Hs. by apply not_elem_of_nil in Hs.
Qed.

(** ** The checker *)

(** A packet: its extended sequence number, frame number and descriptor. *)
Record FramePkt := mkFramePkt { p_seq : Z; p_fn : Z; p_dd : DependencyDescriptor }.

(** The first and the last packet of frame [n] arrived, and all between them. *)
Definition frame_received (l : list FramePkt) (n : Z) : Prop :=
  exists s e, s ∈ l /\ e ∈ l /\ p_fn s = n /\ p_fn e = n /\
    FirstPacketInFrame (p_dd s) = true /\ LastPacketInFrame (p_dd e) = true /\
    p_seq s <= p_seq e /\ forall q, p_seq s <= q <= p_seq e -> q ∈ map p_seq l.

(** Runs of the checker.  A packet is fresh when its sequence number and
    those of its frame's packets are in the history's window when it arrives. *)
Definition fresh (l : list FramePkt) (fc : FrameIntegrityChecker) (p : FramePkt) : Prop :=
  let ph := AddSeq (pktHistory fc) (p_seq p) in
  forall q, q ∈ l ++ [p] -> p_fn q = p_fn p ->
    ph_base ph < p_seq q /\ ph_last ph - p_seq q < packetCount ph.

Inductive checked (frameCnt packetCnt : Z) : list FramePkt -> FrameIntegrityChecker -> Prop :=
| checked_new : checked frameCnt packetCnt [] (NewFrameIntegrityChecker frameCnt packetCnt)
| checked_add l fc p :
    checked frameCnt packetCnt l fc -> 0 <= p_seq p < 2 ^ 64 -> 0 <= p_fn p < 2 ^ 63 -> fresh l fc p ->
    checked frameCnt packetCnt (l ++ [p]) (AddPacket fc (p_seq p) (p_fn p) (p_dd p)).

(** What an entity may claim of its frame. *)
Record entity_sound (l : list FramePkt) (n : Z) (fe : FrameEntity) : Prop := {
  e_start : forall s, startSeq fe = Some s -> exists p, p ∈ l /\ p_seq p = s /\ p_fn p = n /\ FirstPacketInFrame (p_dd p) = true;
  e_end : forall s, endSeq fe = Some s -> exists p, p ∈ l /\ p_seq p = s /\ p_fn p = n /\ LastPacketInFrame (p_dd p) = true;
  e_integrity : integrity fe = true -> frame_received l n;
}.

Lemma entity_empty l n : entity_sound l n (mkFrame None None false).
Proof. by constructor. Qed.

Lemma entity_sound_mono l l' n fe : entity_sound l n fe -> entity_sound (l ++ l') n fe.
Proof.
  intros [H1 H2 H3]. constructor.
  - intros s E. destruct (H1 s E) as (p & Hp & H). exists p. split; [by apply elem_of_app; left|done].
  - intros s E. destruct (H2 s E) as (p & Hp & H). exists p. split; [by apply elem_of_app; left|done].
  - intros E. destruct (H3 E) as (s & e & Hs & He & ? & ? & ? & ? & ? & Hq). exists s, e.
    split_and!; try done; try (by apply elem_of_app; left).
    intros q Hq'. rewrite map_app. apply elem_of_app. left. by apply Hq.
Qed.

Record checker_inv (fc : FrameIntegrityChecker) (l : list FramePkt) : Prop := {
  ci_count : frameCount fc = zlen (frames fc);
  ci_size : 0 < zlen (frames fc);
  ci_history : history_inv (pktHistory fc) (map p_seq l);
  ci_start : fc_inited fc = false -> l = [] /\ Forall (fun fe => fe = mkFrame None None false) (frames fc);
  ci_range : fc_inited fc = true -> 0 <= fc_base fc <= fc_last fc /\ fc_last fc < 2 ^ 63;
  ci_frames : forall n, fc_base fc <= n <= fc_last fc -> fc_last fc - n < frameCount fc ->
    exists fe, zlookup (frames fc) ((n - fc_base fc) mod frameCount fc) = Some fe /\ entity_sound l n fe;
}.

Lemma slot_ok fc n : 0 < frameCount fc -> 0 <= fc_base fc <= n -> n < 2 ^ 63 ->
  slot fc n = (n - fc_base fc) mod frameCount fc.
Proof.
  intros Hc Hb Hn. unfold slot. change (2 ^ 63) with 9223372036854775808 in Hn.
  rewrite u64_small by lia. unfold i64. rewrite Z.mod_small by lia.
  rewrite Z.add_simpl_r, Z.rem_mod_nonneg by lia. done.
Qed.

(** One entity is replaced, the others of the window stay. *)
Lemma update_frame_ok fc n f fe : frameCount fc = zlen (frames fc) -> 0 < frameCount fc ->
  0 <= fc_base fc <= n -> n < 2 ^ 63 -> zlookup (frames fc) ((n - fc_base fc) mod frameCount fc) = Some fe ->
  update_frame f n fc = fc <| frames := zset ((n - fc_base fc) mod frameCount fc) (f fe) (frames fc) |>.
Proof. intros Hlen Hc Hb Hn E. unfold update_frame. by rewrite slot_ok, E by done. Qed.

Lemma AddFramePacket_sound ph l n fe p : history_inv ph (map p_seq (l ++ [p])) -> p_fn p = n ->
  entity_sound l n fe ->
  (forall q, q ∈ l ++ [p] -> p_fn q = n -> ph_base ph < p_seq q /\ ph_last ph - p_seq q < packetCount ph) ->
  entity_sound (l ++ [p]) n (AddFramePacket ph fe (p_seq p) (p_dd p)).
Proof.
  intros Hinv Hn Hfe Hfresh. unfold AddFramePacket. destruct (integrity fe) eqn:Ei; [by apply entity_sound_mono|].
  set (fe1 := match startSeq fe with None => _ | Some _ => _ end).
  assert (entity_sound (l ++ [p]) n fe1 /\ integrity fe1 = false) as [H1 Ei1].
  { unfold fe1. pose proof (entity_sound_mono l [p] n fe Hfe) as H0. pose proof H0 as [A B C].
    destruct (startSeq fe) eqn:Es; [by split|]. destruct (FirstPacketInFrame (p_dd p)) eqn:Ef; [|by split].
    split; [|done]. constructor; cbn; try done. intros s [= <-]. exists p.
    split; [apply elem_of_app; right; by apply list_elem_of_singleton|done]. }
  clearbody fe1. set (fe2 := match endSeq fe1 with None => _ | Some _ => _ end).
  assert (entity_sound (l ++ [p]) n fe2 /\ integrity fe2 = false) as [H2 Ei2].
  { unfold fe2. pose proof H1 as [A B C]. destruct (endSeq fe1) eqn:Es; [by split|].
    destruct (LastPacketInFrame (p_dd p)) eqn:Ef; [|by split].
    split; [|done]. constructor; cbn; try done. intros s [= <-]. exists p.
    split; [apply elem_of_app; right; by apply list_elem_of_singleton|done]. }
  clearbody fe2. destruct (startSeq fe2) as [s|] eqn:Es, (endSeq fe2) as [e|] eqn:Ee; try done.
  destruct (PacketsConsecutive ph s e) eqn:Epc; [|done]. pose proof H2 as [A B C].
  constructor; cbn; [done|done|]. intros _.
  destruct (A s Es) as (ps & Hps & Eps & Fps & ?). destruct (B e Ee) as (pe & Hpe & Epe & Fpe & ?).
  destruct (Hfresh ps Hps Fps) as [Hs1 Hs2]. destruct (Hfresh pe Hpe Fpe) as [He1 He2].
  exists ps, pe. rewrite Eps, Epe in *. assert (s <= e) as Hse.
  { unfold PacketsConsecutive in Epc. rewrite Z.gtb_ltb in Epc. destruct (Z.ltb_spec e s); [done|lia]. }
  split_and!; try done. intros q Hq.
  assert (ph_inited ph = true) as Hin.
  { destruct (ph_inited ph) eqn:Hin; [done|]. destruct (hi_start _ _ Hinv Hin) as [E _].
    rewrite map_app in E. by apply app_nil in E as [_ ?]. }
  assert (e <= ph_last ph) as Hel.
  { apply (hi_last _ _ Hinv). rewrite <- Epe. apply list_elem_of_In, in_map, list_elem_of_In. done. }
  destruct (hi_range _ _ Hinv Hin) as [Hb Hl].
  apply (hi_bits _ _ Hinv Hin); [lia|lia|].
  apply (PacketsConsecutive_bits ph s e (hi_ok _ _ Hinv)); [lia|lia|lia|done|lia].
Qed.

Definition same_shape (fc fc' : FrameIntegrityChecker) : Prop :=
  frameCount fc' = frameCount fc /\ zlen (frames fc') = zlen (frames fc) /\ fc_base fc' = fc_base fc /\
  fc_last fc' = fc_last fc /\ pktHistory fc' = pktHistory fc /\ fc_inited fc' = fc_inited fc.

Lemma reset_loop_ok n i fc : frameCount fc = zlen (frames fc) -> 0 < zlen (frames fc) ->
  0 <= fc_base fc <= i -> i + Z.of_nat n <= 2 ^ 63 ->
  same_shape fc (reset_loop n i fc) /\
  forall j, 0 <= j < frameCount fc ->
    (zlookup (frames (reset_loop n i fc)) j = Some (mkFrame None None false) /\
      exists k, i <= k < i + Z.of_nat n /\ (k - fc_base fc) mod frameCount fc = j) \/
    (zlookup (frames (reset_loop n i fc)) j = zlookup (frames fc) j /\
      forall k, i <= k < i + Z.of_nat n -> (k - fc_base fc) mod frameCount fc <> j).
Proof.
  revert i fc. induction n as [|n IH]; intros i fc Hc Hp Hb Hlim; cbn [reset_loop].
  { split; [by split_and!|]. intros j Hj. right. split; [done|]. intros k Hk. lia. }
  pose proof (Z.mod_pos_bound (i - fc_base fc) (frameCount fc) ltac:(lia)) as Hm.
  destruct (zlookup_lt (frames fc) ((i - fc_base fc) mod frameCount fc) ltac:(lia)) as [fe Efe].
  rewrite (update_frame_ok fc i ResetFrame fe Hc ltac:(lia) Hb ltac:(lia) Efe).
  match goal with |- context [reset_loop n _ ?f] => set (fc1 := f) end.
  assert (same_shape fc fc1) as Hsh by (unfold same_shape, fc1; cbn; rewrite zlen_zset; by split_and!).
  pose proof Hsh as (S1 & S2 & S3 & S4 & S5 & S6).
  destruct (IH (i + 1) fc1 ltac:(congruence) ltac:(lia) ltac:(lia) ltac:(lia)) as [Hsh' H].
  split.
  { destruct Hsh' as (? & ? & ? & ? & ? & ?). split_and!; congruence. }
  intros j Hj. rewrite S1, S3 in H. 
  assert (Hone : zlookup (frames fc1) j = if decide (j = (i - fc_base fc) mod frameCount fc)
                 then Some (mkFrame None None false) else zlookup (frames fc) j).
  { unfold fc1. cbn [frames field_upd]. destruct (decide _) as [->|Hne].
    - rewrite zlookup_zset_eq by lia. done.
    - rewrite zlookup_zset_ne by lia. done. }
  destruct (H j Hj) as [[E (k & Hk & Hs)]|[E Hno]].
  - left. split; [done|]. exists k. split; [lia|done].
  - rewrite E, Hone. destruct (decide _) as [Ej|Hne].
    + left. split; [done|]. exists i. split; [lia|done].
    + right. split; [done|]. intros k Hk. destruct (Z.eq_dec k i) as [->|]; [congruence|apply Hno; lia].
Qed.

Definition frames_inv (fc : FrameIntegrityChecker) (l : list FramePkt) : Prop :=
  forall n, fc_base fc <= n <= fc_last fc -> fc_last fc - n < frameCount fc ->
  exists fe, zlookup (frames fc) ((n - fc_base fc) mod frameCount fc) = Some fe /\ entity_sound l n fe.

(** The frame of a packet in the window gets it, the others keep what they know. *)
Lemma frames_add fc l p : frameCount fc = zlen (frames fc) -> 0 < zlen (frames fc) ->
  0 <= fc_base fc <= p_fn p -> p_fn p <= fc_last fc -> fc_last fc < 2 ^ 63 -> fc_last fc - p_fn p < frameCount fc ->
  history_inv (pktHistory fc) (map p_seq (l ++ [p])) ->
  (forall q, q ∈ l ++ [p] -> p_fn q = p_fn p ->
    ph_base (pktHistory fc) < p_seq q /\ ph_last (pktHistory fc) - p_seq q < packetCount (pktHistory fc)) ->
  frames_inv fc l ->
  let fc' := update_frame (fun fe => AddFramePacket (pktHistory fc) fe (p_seq p) (p_dd p)) (p_fn p) fc in
  same_shape fc fc' /\ frames_inv fc' (l ++ [p]).
Proof.
  intros Hc Hp Hb Hl Hlim Hwin Hh Hf Hinv. destruct (Hinv (p_fn p) ltac:(lia) Hwin) as (fe & Efe & Hfe).
  cbv zeta. rewrite (update_frame_ok fc (p_fn p) _ fe Hc ltac:(lia) Hb ltac:(lia) Efe).
  split; [unfold same_shape; cbn; rewrite zlen_zset; by split_and!|].
  pose proof (Z.mod_pos_bound (p_fn p - fc_base fc) (frameCount fc) ltac:(lia)) as Hm.
  intros n Hn Hnw. cbn [fc_base fc_last frameCount frames field_upd] in *.
  destruct (Z.eq_dec n (p_fn p)) as [->|Hne].
  - eexists. split; [apply zlookup_zset_eq; lia|]. by apply AddFramePacket_sound.
  - rewrite zlookup_zset_ne; [|lia|].
    + destruct (Hinv n Hn Hnw) as (fe' & E' & H'). exists fe'. split; [done|]. by apply entity_sound_mono.
    + intros E. apply Hne. symmetry in E. apply mod_close_eq in E; lia.
Qed.

Lemma frames_reset fc l n : frameCount fc = zlen (frames fc) -> 0 < zlen (frames fc) ->
  0 <= fc_base fc <= fc_last fc -> fc_last fc < n < 2 ^ 63 -> frames_inv fc l ->
  let fc' := reset_loop (Z.to_nat (n - fc_last fc)) (fc_last fc + 1) fc in
  same_shape fc fc' /\ frames_inv (fc' <| fc_last := n |>) l.
Proof.
  intros Hc Hp Hb Hn Hinv. cbv zeta.
  destruct (reset_loop_ok (Z.to_nat (n - fc_last fc)) (fc_last fc + 1) fc Hc Hp ltac:(lia) ltac:(lia)) as [Hsh H].
  split; [done|]. destruct Hsh as (S1 & S2 & S3 & S4 & S5 & S6). intros m Hm Hw.
  cbn [fc_base fc_last frameCount frames field_upd] in *. rewrite S3, S1 in *.
  pose proof (Z.mod_pos_bound (m - fc_base fc) (frameCount fc) ltac:(lia)) as Hmm.
  destruct (H _ Hmm) as [[E (k & Hk & Hs)]|[E Hno]]; rewrite E.
  - eexists. split; [reflexivity|]. apply entity_empty.
  - apply Hinv; [|lia]. destruct (Z.le_gt_cases m (fc_last fc)) as [Hle|Hgt]; [lia|].
    exfalso. apply (Hno m); [lia|done].
Qed.

Lemma update_frame_last f n fc x : update_frame f n fc <| fc_last := x |> = update_frame f n (fc <| fc_last := x |>).
Proof. unfold update_frame, slot. cbn. by destruct (zlookup _ _). Qed.

Lemma checker_intro fc fc' l : same_shape fc fc' -> frameCount fc = zlen (frames fc) -> 0 < zlen (frames fc) ->
  fc_inited fc = true -> 0 <= fc_base fc <= fc_last fc /\ fc_last fc < 2 ^ 63 ->
  history_inv (pktHistory fc) (map p_seq l) -> frames_inv fc' l -> checker_inv fc' l.
Proof.
  intros (S1 & S2 & S3 & S4 & S5 & S6) Hc Hp Hi Hr Hh Hf.
  constructor; rewrite ?S1, ?S2, ?S5, ?S6; [done|done|done|congruence|by rewrite S3, S4|].
  rewrite <- S1. exact Hf.
Qed.

Lemma AddPacket_inv fc l p : checker_inv fc l -> 0 <= p_seq p < 2 ^ 64 -> 0 <= p_fn p < 2 ^ 63 -> fresh l fc p ->
  checker_inv (AddPacket fc (p_seq p) (p_fn p) (p_dd p)) (l ++ [p]).
Proof.
  intros [Hc Hp Hh Hst Hr Hfr] Hseq Hfn Hf. unfold AddPacket. cbv zeta.
  set (fc0 := fc <| pktHistory := AddSeq (pktHistory fc) (p_seq p) |>).
  assert (Hh' : history_inv (pktHistory fc0) (map p_seq (l ++ [p])))
    by (rewrite map_app; by apply AddSeq_inv).
  set (fc1 := if negb (fc_inited fc0) then _ else _).
  assert (H1 : fc_inited fc1 = true /\ frameCount fc1 = zlen (frames fc1) /\ 0 < zlen (frames fc1) /\
            pktHistory fc1 = pktHistory fc0 /\ (0 <= fc_base fc1 <= fc_last fc1 /\ fc_last fc1 < 2 ^ 63) /\
            frames_inv fc1 l).
  { unfold fc1. change (fc_inited fc0) with (fc_inited fc). destruct (fc_inited fc) eqn:Hin; cbn [negb].
    - split_and!; try done; by apply Hr.
    - destruct (Hst eq_refl) as [-> Hall]. split_and!; try done; cbn; try lia.
      intros n Hn Hw. cbn in Hn, Hw. assert (n = p_fn p) as -> by lia. cbn. rewrite Z.sub_diag, Z.mod_0_l by lia.
      destruct (zlookup_lt (frames fc) 0 ltac:(lia)) as [fe E]. exists fe. split; [done|].
      destruct (zlookup_Some _ _ _ E) as [_ E']. rewrite (Forall_lookup_1 _ _ _ _ Hall E'). apply entity_empty. }
  clearbody fc1. destruct H1 as (Hin & Hc1 & Hp1 & Hph & [Hb1 Hl1] & Hf1). rewrite <- Hph in Hh'.
  assert (Hf' : forall q, q ∈ l ++ [p] -> p_fn q = p_fn p -> ph_base (pktHistory fc1) < p_seq q /\
    ph_last (pktHistory fc1) - p_seq q < packetCount (pktHistory fc1)) by (rewrite Hph; exact Hf).
  assert (Hold : frames_inv fc1 (l ++ [p])).
  { intros n Hn Hw. destruct (Hf1 n Hn Hw) as (fe & E & Hs). exists fe. split; [done|]. by apply entity_sound_mono. }
  destruct (Z.ltb_spec (p_fn p) (fc_base fc1)); [|destruct (Z.leb_spec (p_fn p) (fc_last fc1))].
  - constructor; try done. congruence.
  - rewrite u64_small by (change (2 ^ 63) with 9223372036854775808 in *; lia). rewrite Z.geb_leb.
    destruct (Z.leb_spec (frameCount fc1) (fc_last fc1 - p_fn p)); [constructor; try done; congruence|].
    destruct (frames_add fc1 l p Hc1 Hp1 ltac:(lia) ltac:(lia) ltac:(lia) ltac:(lia) Hh' Hf' Hf1) as [Hsh Hfr'].
    by apply (checker_intro fc1).
  - rewrite update_frame_last.
    destruct (frames_reset fc1 l (p_fn p) Hc1 Hp1 Hb1 ltac:(lia) Hf1) as [(S1 & S2 & S3 & S4 & S5 & S6) Hfr'].
    set (fc2 := reset_loop _ _ fc1) in *. set (fc3 := fc2 <| fc_last := p_fn p |>) in *.
    assert (E3 : frameCount fc3 = zlen (frames fc3) /\ fc_base fc3 = fc_base fc1 /\ pktHistory fc3 = pktHistory fc1 /\
              fc_last fc3 = p_fn p /\ zlen (frames fc3) = zlen (frames fc1) /\ fc_inited fc3 = true)
      by (unfold fc3; cbn; split_and!; congruence).
    destruct E3 as (T1 & T2 & T3 & T4 & T5 & T6). rewrite <- T3 in *.
    destruct (frames_add fc3 l p T1 ltac:(lia) ltac:(lia) ltac:(lia) ltac:(lia) ltac:(lia) Hh' Hf' Hfr') as [Hsh Hfr3].
    apply (checker_intro fc3); try done; lia.
Qed.

Lemma checked_inv fcount pcount l fc : 0 < fcount -> 65 <= pcount < 2 ^ 36 -> checked fcount pcount l fc ->
  checker_inv fc l.
Proof.
  intros Hf Hp. induction 1 as [|l fc p _ IH Hs Hfn Hfr]; [|by apply AddPacket_inv].
  constructor; cbn; rewrite ?repeat_length; try done.
  - unfold zlen. rewrite repeat_length. lia.
  - unfold zlen. rewrite repeat_length. lia.
  - by apply NewPacketHistory_inv.
  - intros _. split; [done|]. apply Forall_forall. intros x Hx. by apply list_elem_of_In, repeat_spec in Hx.
  - intros n Hn Hw. assert (n = 0) as -> by lia. rewrite Z.mod_0_l by lia. exists (mkFrame None None false).
    split; [|apply entity_empty]. unfold zlookup. cbn. destruct (Z.to_nat fcount) eqn:E; [lia|done].
Qed.

(** ** Properties *)

(** After any packets, in any order, the word-wise test for consecutive
    packets inside the window agrees with the set of packets received: it
    holds exactly when every sequence number between the two arrived. *)
Theorem PacketsConsecutive_exact count l start stop :
  65 <= count < 2 ^ 36 -> Forall (fun s => 0 <= s < 2 ^ 64) l -> l <> [] ->
  let ph := fold_left AddSeq l (NewPacketHistory count) in
  ph_base ph < start -> stop <= ph_last ph -> ph_last ph - start < packetCount ph ->
  PacketsConsecutive ph start stop = true <->
  start <= stop /\ forall s, start <= s <= stop -> s ∈ l.
Proof.
  intros Hc Hl Hne. cbv zeta. set (ph := fold_left _ _ _). intros Hb Hs Hw.
  assert (history_inv ph l) as Hinv.
  { unfold ph. clear -Hc Hl. assert (forall l' k ph, history_inv ph k -> Forall (fun s => 0 <= s < 2 ^ 64) l' ->
      history_inv (fold_left AddSeq l' ph) (k ++ l')) as G.
    { induction l' as [|s l' IH]; intros k ph Hinv Hl'; cbn; [by rewrite app_nil_r|].
      apply Forall_cons in Hl' as [Hs Hl']. replace (k ++ s :: l') with ((k ++ [s]) ++ l') by (by rewrite <- app_assoc).
      apply IH; [by apply AddSeq_inv|done]. }
    apply (G l []); [by apply NewPacketHistory_inv|done]. }
  assert (ph_inited ph = true) as Hin.
  { destruct (ph_inited ph) eqn:E; [done|]. by destruct (hi_start _ _ Hinv E). }
  destruct (hi_range _ _ Hinv Hin) as [Hr1 Hr2]. pose proof (hi_bits _ _ Hinv Hin) as Hbits.
  destruct (Z.le_gt_cases start stop) as [Hle|Hgt].
  - rewrite PacketsConsecutive_bits by (try apply Hinv; lia). split.
    + intros H. split; [done|]. intros s Hss. apply Hbits; [lia|lia|by apply H].
    + intros [_ H] s Hss. apply Hbits; [lia|lia|by apply H].
  - unfold PacketsConsecutive. rewrite Z.gtb_ltb, (proj2 (Z.ltb_lt _ _)) by lia. split; [done|lia].
Qed.

Lemma PacketsConsecutive_exact_witness :
  let ph := fold_left AddSeq [1000; 1002; 1070; 1001; 1003] (NewPacketHistory 1024) in
  PacketsConsecutive ph 1000 1003 = true <->
  1000 <= 1003 /\ forall s, 1000 <= s <= 1003 -> s ∈ [1000; 1002; 1070; 1001; 1003].
Proof.
  apply (PacketsConsecutive_exact 1024 [1000; 1002; 1070; 1001; 1003] 1000 1003);
    [lia| |done|vm_compute; reflexivity|vm_compute; discriminate|vm_compute; reflexivity].
  repeat (apply Forall_cons; split; [lia|]). constructor.
Defined.

(** C13: in every run of the checker in which each packet, when it arrives, is
    in the window of the packet history together with the packets received
    before of its frame ([fresh]), a frame reported complete has received its
    first packet, its last packet and every packet between them, whatever the
    order of arrival and whatever other frames shared its slot.  A packet that
    comes later than that can have its frame reported complete although one is
    missing ([late_frame_reported_complete]). *)
Theorem FrameIntegrity_sound fcount pcount l fc n :
  0 < fcount -> 65 <= pcount < 2 ^ 36 -> checked fcount pcount l fc ->
  FrameIntegrity fc n = true -> frame_received l n.
Proof.
  intros Hf Hp Hch. pose proof (checked_inv _ _ _ _ Hf Hp Hch) as [Hc Hpos _ Hst Hr Hfr].
  unfold FrameIntegrity. destruct (fc_inited fc) eqn:Hin.
  - destruct (Hr eq_refl) as [Hb Hl]. rewrite Z.gtb_ltb. destruct (Z.ltb_spec n (fc_base fc)); [done|].
    destruct (Z.ltb_spec (fc_last fc) n); [done|]. cbn [orb].
    rewrite u64_small by (change (2 ^ 63) with 9223372036854775808 in *; lia). rewrite Z.geb_leb.
    destruct (Z.leb_spec (frameCount fc) (fc_last fc - n)); [done|]. rewrite slot_ok by lia.
    destruct (Hfr n ltac:(lia) ltac:(lia)) as (fe & -> & Hs). apply Hs.
  - destruct (Hst eq_refl) as [-> Hall]. case_if; [done|]. intros H. exfalso.
    destruct (zlookup (frames fc) _) as [fe|] eqn:Efe; [|done]. destruct (zlookup_Some _ _ _ Efe) as [_ E'].
    by rewrite (Forall_lookup_1 _ _ _ _ Hall E') in H.
Qed.

Definition ex_pkt (seq : Z) (first last : bool) : FramePkt :=
  mkFramePkt seq 5 (mkDescriptor first last 5 None None None None).

(** Three packets of frame 5, the middle one last. *)
Lemma ex_checked : exists fc,
  checked 180 1024 [ex_pkt 10 true false; ex_pkt 12 false true; ex_pkt 11 false false] fc /\
  FrameIntegrity fc 5 = true.
Proof.
  eexists. split.
  - apply (checked_add 180 1024 [ex_pkt 10 true false; ex_pkt 12 false true]); [|cbn; lia|cbn; lia|].
    apply (checked_add 180 1024 [ex_pkt 10 true false]); [|cbn; lia|cbn; lia|].
    apply (checked_add 180 1024 []); [apply checked_new|cbn; lia|cbn; lia|].
    all: intros q Hq _; repeat (apply elem_of_cons in Hq as [->|Hq]; [split; vm_compute; reflexivity|]);
      by apply not_elem_of_nil in Hq.
  - vm_compute. reflexivity.
Qed.

Lemma FrameIntegrity_sound_witness :
  exists fc, FrameIntegrity fc 5 = true /\
    frame_received [ex_pkt 10 true false; ex_pkt 12 false true; ex_pkt 11 false false] 5.
Proof.
  destruct ex_checked as (fc & Hc & Hi). exists fc. split; [exact Hi|].
  exact (FrameIntegrity_sound 180 1024 _ fc 5 ltac:(lia) ltac:(lia) Hc Hi).
Defined.

(** The test trusts the ring beyond its window: frame 5 is reported
    complete although packet 2001 never arrived, when its last packet arrives
    more than [integrityCheckPkt] packets late, because the slots of 2000,
    2001 and 2002 then hold 3024, 3025 and 3026. *)
Theorem late_frame_reported_complete :
  let pkt fn seq first last := mkFramePkt seq fn (mkDescriptor first last fn None None None None) in
  let trace := pkt 5 2000 true false :: map (fun i => pkt 6 (2003 + i) false false) (zseq 1100) ++ [pkt 5 2002 false true] in
  let fc := fold_left (fun fc p => AddPacket fc (p_seq p) (p_fn p) (p_dd p)) trace (NewFrameIntegrityChecker 180 1024) in
  2001 ∉ map p_seq trace /\ FrameIntegrity fc 5 = true.
Proof.
  cbv zeta. split; [|vm_compute; reflexivity].
  apply (bool_decide_unpack _). vm_compute. reflexivity.
Qed.
