(* ===== verification/DecisionCache.v ===== *)
(** * The selector decision cache

    Models [src/SERVER/pkg/sfu/videolayerselector/selectordecisioncache.go]:
    two bits per frame in a ring of [uint64] words, and callbacks that wait
    for the decision of a frame.  A callback is a value of a type [F] run by
    [fire] on a state [St] that belongs to the client.  The ring is proved to
    refine a map from frame numbers to decisions in which an undecided frame
    older than the NACK window counts as missing. *)

From S2P Require Import Prelude.

Inductive selectorDecision :=
| selectorDecisionMissing
| selectorDecisionDropped
| selectorDecisionForwarded
| selectorDecisionUnknown.

#[export] Instance selectorDecision_eq_dec : EqDecision selectorDecision.
Proof. solve_decision. Defined.

(** [uint64(sd)] and [selectorDecision(v & 0x3)] *)
Definition sd_to_Z (sd : selectorDecision) : Z :=
  match sd with
  | selectorDecisionMissing => 0
  | selectorDecisionDropped => 1
  | selectorDecisionForwarded => 2
  | selectorDecisionUnknown => 3
  end.

Definition sd_of_Z (v : Z) : selectorDecision :=
  match v with
  | 0 => selectorDecisionMissing
  | 1 => selectorDecisionDropped
  | 2 => selectorDecisionForwarded
  | _ => selectorDecisionUnknown
  end.

Lemma sd_of_to_Z sd : sd_of_Z (sd_to_Z sd) = sd.
Proof. by destruct sd. Qed.

Record SelectorDecisionCache (F : Type) := mkCache {
  initialized : bool;
  base : Z;
  last : Z;
  masks : list Z;
  numEntries : Z;
  numNackEntries : Z;
  onExpectEntityChanged : gmap Z (list F);
}.
Arguments mkCache {F}.
Arguments initialized {F}.
Arguments base {F}.
Arguments last {F}.
Arguments masks {F}.
Arguments numEntries {F}.
Arguments numNackEntries {F}.
Arguments onExpectEntityChanged {F}.
#[export] Instance eta_cache F : Eta (SelectorDecisionCache F) := fun s =>
  mkCache (initialized s) (base s) (last s) (masks s) (numEntries s) (numNackEntries s)
    (onExpectEntityChanged s).

Section cache.
Context {F St : Type} (fire : F -> Z -> selectorDecision -> St -> St).

Definition NewSelectorDecisionCache (maxNumElements numNackEntries : Z) : SelectorDecisionCache F :=
  let numElements := Z.quot (maxNumElements * 2 + 63) 64 in
  mkCache false 0 0 (repeat 0 (Z.to_nat numElements)) (numElements * 32) numNackEntries ∅.

Definition getPos (s : SelectorDecisionCache F) (entity : Z) : Z * Z :=
  let offset := u64 (entity - base s) mod numEntries s in
  (Z.shiftr offset 5, Z.land offset 0x1F * 2).

(** [s.masks[index]]; every index used is in range. *)
Definition mask (masks : list Z) (i : Z) : Z := default 0 (zlookup masks i).

Definition getEntity (s : SelectorDecisionCache F) (entity : Z) : selectorDecision :=
  let '(index, bitpos) := getPos s entity in
  sd_of_Z (Z.land (Z.shiftr (mask (masks s) index) bitpos) 0x3).

(** [for _, f := range fns { f(entity, sd) }] *)
Definition fire_all (fns : list F) (entity : Z) (sd : selectorDecision) (st : St) : St :=
  foldl (fun st f => fire f entity sd st) st fns.

Definition setEntity (entity : Z) (sd : selectorDecision) (sst : SelectorDecisionCache F * St)
  : SelectorDecisionCache F * St :=
  let '(s, st) := sst in
  let '(index, bitpos) := getPos s entity in
  let w := Z.land (mask (masks s) index) (u64 (Z.lnot (u64 (Z.shiftl 0x3 bitpos)))) in
  let w := Z.lor w (u64 (Z.shiftl (Z.land (sd_to_Z sd) 0x3) bitpos)) in
  let s := s <| masks := zset index w (masks s) |> in
  if negb (bool_decide (sd = selectorDecisionUnknown)) then
    match onExpectEntityChanged s !! entity with
    | Some fns =>
      (s <| onExpectEntityChanged := delete entity (onExpectEntityChanged s) |>,
       fire_all fns entity sd st)
    | None => (s, st)
    end
  else (s, st).

Definition setEntityIfUnknown (entity : Z) (sd : selectorDecision) (sst : SelectorDecisionCache F * St)
  : SelectorDecisionCache F * St :=
  if bool_decide (getEntity (fst sst) entity = selectorDecisionUnknown) then setEntity entity sd sst
  else sst.

(** [for e := from; e != to; e++ { f(e) }]; [n] is [to - from]. *)
Fixpoint for_range {A : Type} (f : Z -> A -> A) (n : nat) (e : Z) (a : A) : A :=
  match n with
  | O => a
  | S n => for_range f n (e + 1) (f e a)
  end.

(** Callbacks of frames that left the ring.  Go iterates over the map in an
    unspecified order; here it is the order of [map_to_list]. *)
Definition is_expired (s : SelectorDecisionCache F) (e : Z) : bool := u64 (e + numEntries s) <? last s.

Definition expire (sst : SelectorDecisionCache F * St) : SelectorDecisionCache F * St :=
  let '(s, st) := sst in
  (s <| onExpectEntityChanged := filter (fun kv => is_expired s kv.1 = false) (onExpectEntityChanged s) |>,
   foldl (fun st kv => if is_expired s kv.1 then fire_all kv.2 kv.1 selectorDecisionMissing st else st)
     st (map_to_list (onExpectEntityChanged s))).

(** [update [last+1-nack, entity-nack) to missing] *)
Definition missingBound (s : SelectorDecisionCache F) (x : Z) : Z :=
  if x >? u64 (numNackEntries s + base s) then x - numNackEntries s else base s.

Definition addEntity (entity : Z) (sd : selectorDecision) (sst : SelectorDecisionCache F * St)
  : SelectorDecisionCache F * St :=
  let '(s, st) := sst in
  if negb (initialized s) then
    setEntity entity sd (s <| initialized := true |> <| base := entity |> <| last := entity |>, st)
  else if entity <=? base s then (s, st)
  else if entity <=? last s then setEntity entity sd (s, st)
  else
    let sst := for_range (fun e => setEntity e selectorDecisionUnknown)
                 (Z.to_nat (entity - (last s + 1))) (last s + 1) (s, st) in
    let missingStart := missingBound s (last s) in
    let missingEnd := missingBound s entity in
    let sst := if missingEnd >? missingStart then
                 for_range (fun e => setEntityIfUnknown e selectorDecisionMissing)
                   (Z.to_nat (missingEnd - missingStart)) missingStart sst
               else sst in
    let '(s, st) := setEntity entity sd sst in
    expire (s <| last := entity |>, st).

Definition AddForwarded (entity : Z) := addEntity entity selectorDecisionForwarded.
Definition AddDropped (entity : Z) := addEntity entity selectorDecisionDropped.

(** The second component says that the frame is too old. *)
Definition GetDecision (s : SelectorDecisionCache F) (entity : Z) : selectorDecision * bool :=
  if negb (initialized s) || (entity <? base s) then (selectorDecisionMissing, false)
  else if entity >? last s then (selectorDecisionUnknown, false)
  else
    let offset := u64 (last s - entity) in
    if offset >=? numEntries s then (selectorDecisionMissing, true)
    else (getEntity s entity, false).

Definition ExpectDecision (entity : Z) (f : F) (s : SelectorDecisionCache F) : SelectorDecisionCache F * bool :=
  if negb (initialized s) || (entity <? base s) then (s, false)
  else if (entity <? last s) && (u64 (last s - entity) >=? numEntries s) then (s, false)
  else
    (s <| onExpectEntityChanged :=
       <[entity := default [] (onExpectEntityChanged s !! entity) ++ [f]]> (onExpectEntityChanged s) |>, true).

End cache.

(** ** Two-bit entries *)

Lemma testbit_3 i : 0 <= i -> Z.testbit 3 i = (i <? 2).
Proof.
  intros Hi. destruct (Z.ltb_spec i 2).
  - assert (i = 0 \/ i = 1) as [-> | ->] by lia; reflexivity.
  - apply Z.bits_above_log2; [lia|]. change (Z.log2 3) with 1. lia.
Qed.

Lemma u64_bit x i : 0 <= i < 64 -> Z.testbit (u64 x) i = Z.testbit x i.
Proof. intros Hi. unfold u64. change 18446744073709551616 with (2 ^ 64). by rewrite Z.mod_pow2_bits_low by lia. Qed.

Lemma get2_ext w w' p p' : 0 <= p -> 0 <= p' ->
  (forall i, 0 <= i < 2 -> Z.testbit w (i + p) = Z.testbit w' (i + p')) ->
  Z.land (Z.shiftr w p) 0x3 = Z.land (Z.shiftr w' p') 0x3.
Proof.
  intros Hp Hp' H. apply Z.bits_inj'. intros i Hi. rewrite !Z.land_spec, testbit_3, !Z.shiftr_spec by lia.
  destruct (Z.ltb_spec i 2); [rewrite H by lia; done|by rewrite !andb_false_r].
Qed.

Definition put2 (w p : Z) (sd : selectorDecision) : Z :=
  Z.lor (Z.land w (u64 (Z.lnot (u64 (Z.shiftl 0x3 p))))) (u64 (Z.shiftl (Z.land (sd_to_Z sd) 0x3) p)).

Lemma put2_bit w p sd i : 0 <= p < 63 -> 0 <= i < 64 ->
  Z.testbit (put2 w p sd) i =
  if (p <=? i) && (i <? p + 2) then Z.testbit (sd_to_Z sd) (i - p) else Z.testbit w i.
Proof.
  intros Hp Hi. unfold put2. rewrite Z.lor_spec, Z.land_spec, !u64_bit, Z.lnot_spec, u64_bit, !Z.shiftl_spec by lia.
  destruct (Z.leb_spec p i); cbn [andb].
  - rewrite Z.land_spec, testbit_3 by lia. destruct (Z.ltb_spec (i - p) 2), (Z.ltb_spec i (p + 2)); try lia; cbn [negb].
    + by rewrite andb_false_r, andb_true_r.
    + by rewrite andb_true_r, andb_false_r, orb_false_r.
  - rewrite (Z.testbit_neg_r 3), (Z.testbit_neg_r (Z.land _ _)) by lia. cbn [negb].
    by rewrite andb_true_r, orb_false_r.
Qed.

Lemma get_put2 w p p' sd : 0 <= p < 32 -> 0 <= p' < 32 ->
  Z.land (Z.shiftr (put2 w (2 * p) sd) (2 * p')) 0x3 =
  if p' =? p then sd_to_Z sd else Z.land (Z.shiftr w (2 * p')) 0x3.
Proof.
  intros Hp Hp'. destruct (Z.eqb_spec p' p) as [->|Hne].
  - transitivity (Z.land (Z.shiftr (sd_to_Z sd) 0) 0x3); [|by destruct sd].
    apply get2_ext; [lia|lia|]. intros i Hi. rewrite put2_bit by lia.
    rewrite (proj2 (Z.leb_le _ _)), (proj2 (Z.ltb_lt _ _)) by lia. cbn [andb]. f_equal. lia.
  - apply get2_ext; [lia|lia|]. intros i Hi. rewrite put2_bit by lia.
    destruct (Z.leb_spec (2 * p) (i + 2 * p')), (Z.ltb_spec (i + 2 * p') (2 * p + 2)); try done; lia.
Qed.

(** ** The ring *)

Record cache_ok {F} (s : SelectorDecisionCache F) : Prop := {
  c_entries : numEntries s = 32 * zlen (masks s);
  c_size : 0 < zlen (masks s) < 2 ^ 32;
  c_nack : 0 <= numNackEntries s <= numEntries s;
}.

Lemma ring_getPos_ok {F} (s : SelectorDecisionCache F) e : cache_ok s -> 0 <= base s <= e -> e < 2 ^ 64 ->
  getPos s e = ((e - base s) mod numEntries s / 32, 2 * ((e - base s) mod numEntries s mod 32)) /\
  0 <= (e - base s) mod numEntries s / 32 < zlen (masks s).
Proof.
  intros [Hn Hs _] Hb He. change (2 ^ 64) with 18446744073709551616 in He. unfold getPos.
  rewrite u64_small by lia. change 0x1F with (Z.ones 5).
  rewrite Z.land_ones, Z.shiftr_div_pow2 by lia. change (2 ^ 5) with 32.
  pose proof (Z.mod_pos_bound (e - base s) (numEntries s) ltac:(lia)) as Hm. split; [f_equal; lia|].
  split; [apply Z.div_pos; lia|]. apply Z.div_lt_upper_bound; lia.
Qed.

Lemma mod_mod_32 a b n : 0 < n ->
  a mod n / 32 = b mod n / 32 -> a mod n mod 32 = b mod n mod 32 -> (a - b) mod n = 0.
Proof.
  intros Hn H1 H2. assert (a mod n = b mod n) as E.
  { rewrite (Z.div_mod (a mod n) 32), (Z.div_mod (b mod n) 32) by lia. lia. }
  rewrite Zminus_mod, E, Z.sub_diag. apply Z.mod_0_l. lia.
Qed.

Definition frame_eq {F} (s s' : SelectorDecisionCache F) : Prop :=
  initialized s' = initialized s /\ base s' = base s /\ last s' = last s /\
  numEntries s' = numEntries s /\ numNackEntries s' = numNackEntries s.

Lemma frame_eq_trans {F} (s1 s2 s3 : SelectorDecisionCache F) : frame_eq s1 s2 -> frame_eq s2 s3 -> frame_eq s1 s3.
Proof. intros (? & ? & ? & ? & ?) (? & ? & ? & ? & ?). split_and!; congruence. Qed.

Lemma setEntity_ok {F St} (fire : F -> Z -> selectorDecision -> St -> St) s st e sd :
  cache_ok s -> 0 <= base s <= e -> e < 2 ^ 64 ->
  let s' := fst (setEntity fire e sd (s, st)) in
  cache_ok s' /\ frame_eq s s' /\
  forall x, base s <= x < 2 ^ 64 ->
    getEntity s' x = if (x - e) mod numEntries s =? 0 then sd else getEntity s x.
Proof.
  intros Hok Hb He. cbv zeta. destruct (ring_getPos_ok s e Hok Hb He) as [Ep Hi]. pose proof Hok as [Hn Hs Hk].
  set (i := (e - base s) mod numEntries s / 32) in *. set (o := (e - base s) mod numEntries s mod 32) in *.
  assert (Ho : 0 <= o < 32) by (apply Z.mod_pos_bound; lia).
  assert (exists m, fst (setEntity fire e sd (s, st)) =
      s <| masks := zset i (put2 (mask (masks s) i) (2 * o) sd) (masks s) |> <| onExpectEntityChanged := m |>) as [m ->].
  { unfold setEntity. rewrite Ep. cbv zeta. fold (put2 (mask (masks s) i) (2 * o) sd).
    destruct (negb _); [|by eexists]. destruct (onExpectEntityChanged _ !! e); by eexists. }
  assert (cache_ok (s <| masks := zset i (put2 (mask (masks s) i) (2 * o) sd) (masks s) |> <| onExpectEntityChanged := m |>))
    as Hok' by (constructor; cbn; rewrite ?zlen_zset; done).
  split; [done|]. split; [by split_and!|]. intros x Hx.
  destruct (ring_getPos_ok s x Hok ltac:(lia) ltac:(lia)) as [Epx Hix]. unfold getEntity.
  change (getPos (s <| masks := _ |> <| onExpectEntityChanged := m |>) x) with (getPos s x).
  rewrite Epx. cbn [masks field_upd].
  set (j := (x - base s) mod numEntries s / 32) in *. set (o' := (x - base s) mod numEntries s mod 32) in *.
  assert (Ho' : 0 <= o' < 32) by (apply Z.mod_pos_bound; lia).
  assert (Hmask : mask (zset i (put2 (mask (masks s) i) (2 * o) sd) (masks s)) j =
                  if j =? i then put2 (mask (masks s) i) (2 * o) sd else mask (masks s) j).
  { unfold mask. destruct (Z.eqb_spec j i) as [->|Hne]; [by rewrite zlookup_zset_eq|].
    by rewrite zlookup_zset_ne by lia. }
  rewrite Hmask. destruct (Z.eqb_spec ((x - e) mod numEntries s) 0) as [E|E].
  - assert ((x - base s) mod numEntries s = (e - base s) mod numEntries s) as Em.
    { replace (x - base s) with ((x - e) + (e - base s)) by lia. rewrite Z.add_mod, E, Z.add_0_l by lia.
      apply Z.mod_mod. lia. }
    assert (j = i) as -> by (unfold i, j; by rewrite Em). assert (o' = o) as -> by (unfold o, o'; by rewrite Em).
    rewrite Z.eqb_refl, get_put2, Z.eqb_refl by done. apply sd_of_to_Z.
  - destruct (Z.eqb_spec j i) as [Eij|]; [|done]. rewrite get_put2 by done.
    destruct (Z.eqb_spec o' o) as [Eo|]; [|by rewrite Eij]. exfalso. apply E.
    replace (x - e) with ((x - base s) - (e - base s)) by lia. by apply mod_mod_32; [lia|..].
Qed.

(** The loop that marks the frames between the old and the new head. *)
Lemma range_unknown {F St} (fire : F -> Z -> selectorDecision -> St -> St) n : forall e s st,
  cache_ok s -> 0 <= base s <= e -> e + Z.of_nat n <= 2 ^ 64 ->
  let s' := fst (for_range (fun e => setEntity fire e selectorDecisionUnknown) n e (s, st)) in
  cache_ok s' /\ frame_eq s s' /\
  forall x, base s <= x < 2 ^ 64 ->
    (getEntity s' x = selectorDecisionUnknown /\ exists k, e <= k < e + Z.of_nat n /\ (x - k) mod numEntries s = 0) \/
    (getEntity s' x = getEntity s x /\ forall k, e <= k < e + Z.of_nat n -> (x - k) mod numEntries s <> 0).
Proof.
  induction n as [|n IH]; intros e s st Hok Hb He; cbn [for_range].
  { cbn [fst]. split; [done|]. split; [by split_and!|]. intros x Hx. right. split; [done|]. intros k Hk. lia. }
  pose proof (setEntity_ok fire s st e selectorDecisionUnknown Hok Hb ltac:(lia)) as (H1 & H2 & H3).
  destruct (setEntity fire e selectorDecisionUnknown (s, st)) as [s1 st1]. cbn [fst] in *.
  pose proof H2 as (F1 & F2 & F3 & F4 & F5).
  destruct (IH (e + 1) s1 st1 H1 ltac:(lia) ltac:(lia)) as (G1 & G2 & G3).
  split; [done|]. split; [by eapply frame_eq_trans|]. intros x Hx. rewrite F2, F4 in G3.
  destruct (G3 x Hx) as [[E (k & Hk & Ek)]|[E Hno]].
  - left. split; [done|]. exists k. split; [lia|done].
  - rewrite E, H3 by lia. destruct (Z.eqb_spec ((x - e) mod numEntries s) 0) as [E0|E0].
    + left. split; [done|]. exists e. split; [lia|done].
    + right. split; [done|]. intros k Hk. destruct (Z.eq_dec k e) as [->|]; [done|apply Hno; lia].
Qed.

(** The loop that gives up on the frames that left the NACK window, as seen
    from a frame [x] closer than the ring's size to all of them. *)
Lemma range_missing {F St} (fire : F -> Z -> selectorDecision -> St -> St) n : forall e s st,
  cache_ok s -> 0 <= base s <= e -> e + Z.of_nat n <= 2 ^ 64 ->
  let s' := fst (for_range (fun e => setEntityIfUnknown fire e selectorDecisionMissing) n e (s, st)) in
  cache_ok s' /\ frame_eq s s' /\
  forall x, base s <= x < 2 ^ 64 -> (forall k, e <= k < e + Z.of_nat n -> - numEntries s < x - k < numEntries s) ->
    getEntity s' x = if (e <=? x) && (x <? e + Z.of_nat n) &&
                        bool_decide (getEntity s x = selectorDecisionUnknown)
                     then selectorDecisionMissing else getEntity s x.
Proof.
  induction n as [|n IH]; intros e s st Hok Hb He; cbn [for_range].
  { cbn [fst]. split; [done|]. split; [by split_and!|]. intros x Hx _.
    destruct (Z.leb_spec e x), (Z.ltb_spec x (e + Z.of_nat 0)); try done; lia. }
  assert (exists s1 st1, setEntityIfUnknown fire e selectorDecisionMissing (s, st) = (s1, st1) /\ cache_ok s1 /\
    frame_eq s s1 /\ forall x, base s <= x < 2 ^ 64 -> - numEntries s < x - e < numEntries s ->
      getEntity s1 x = if (x =? e) && bool_decide (getEntity s x = selectorDecisionUnknown)
                       then selectorDecisionMissing else getEntity s x) as (s1 & st1 & E1 & H1 & H2 & H3).
  { unfold setEntityIfUnknown. cbn [fst]. pose proof (c_entries _ Hok). pose proof (c_size _ Hok).
    destruct (bool_decide_reflect (getEntity s e = selectorDecisionUnknown)) as [Eu|Eu].
    - pose proof (setEntity_ok fire s st e selectorDecisionMissing Hok Hb ltac:(lia)) as (H1 & H2 & H3).
      destruct (setEntity fire e selectorDecisionMissing (s, st)) as [s1 st1]. exists s1, st1. cbn [fst] in *.
      split_and!; try done. intros x Hx Hc. rewrite H3, mod_zero_close by lia.
      destruct (Z.eqb_spec (x - e) 0), (Z.eqb_spec x e) as [->|]; try done; try lia.
      by rewrite bool_decide_eq_true_2.
    - exists s, st. split_and!; try done. intros x Hx _. destruct (Z.eqb_spec x e) as [->|]; [|done].
      by rewrite bool_decide_eq_false_2. }
  rewrite E1. pose proof H2 as (F1 & F2 & F3 & F4 & F5).
  destruct (IH (e + 1) s1 st1 H1 ltac:(lia) ltac:(lia)) as (G1 & G2 & G3).
  split; [done|]. split; [by eapply frame_eq_trans|]. intros x Hx Hc. rewrite F2, F4 in G3.
  rewrite G3; [|done|intros k Hk; apply Hc; lia]. rewrite H3 by (done || (apply Hc; lia)).
  destruct (Z.eqb_spec x e) as [->|Hne]; cbn [andb].
  - rewrite (proj2 (Z.leb_gt (e + 1) e)), (proj2 (Z.leb_le e e)), (proj2 (Z.ltb_lt e (e + Z.of_nat (Datatypes.S n)))) by lia. done.
  - destruct (Z.leb_spec (e + 1) x), (Z.leb_spec e x), (Z.ltb_spec x (e + 1 + Z.of_nat n)),
      (Z.ltb_spec x (e + Z.of_nat (Datatypes.S n))); try done; lia.
Qed.

(** ** The specification: a map from frames to decisions *)

Record Decisions := mkDecisions {
  d_init : bool;
  d_first : Z;
  d_last : Z;
  d_of : Z -> selectorDecision;
}.

Definition noDecisions : Decisions := mkDecisions false 0 0 (fun _ => selectorDecisionMissing).

(** A new head makes the frames it skips unknown, and the unknown frames
    below the NACK window missing. *)
Definition decide_frame (nack entity : Z) (sd : selectorDecision) (d : Decisions) : Decisions :=
  if negb (d_init d) then
    mkDecisions true entity entity (fun x => if x =? entity then sd else selectorDecisionMissing)
  else if entity <=? d_first d then d
  else if entity <=? d_last d then
    mkDecisions true (d_first d) (d_last d) (fun x => if x =? entity then sd else d_of d x)
  else
    mkDecisions true (d_first d) entity (fun x =>
      if x =? entity then sd
      else
        let dx := if x <=? d_last d then d_of d x else selectorDecisionUnknown in
        if bool_decide (dx = selectorDecisionUnknown) && (x <? entity - nack) then selectorDecisionMissing
        else dx).

Definition decision (entries : Z) (d : Decisions) (x : Z) : selectorDecision * bool :=
  if negb (d_init d) || (x <? d_first d) then (selectorDecisionMissing, false)
  else if x >? d_last d then (selectorDecisionUnknown, false)
  else if d_last d - x >=? entries then (selectorDecisionMissing, true)
  else (d_of d x, false).

(** The ring holds the decisions of its window. *)
Record refines {F} (s : SelectorDecisionCache F) (d : Decisions) : Prop := {
  r_ok : cache_ok s;
  r_init : initialized s = d_init d;
  r_base : d_init d = true -> base s = d_first d /\ last s = d_last d /\ 0 <= base s <= last s /\ last s < 2 ^ 63;
  r_dec : d_init d = true -> forall x, base s <= x <= last s -> last s - x < numEntries s -> getEntity s x = d_of d x;
  r_unknown : d_init d = true -> forall x, base s <= x <= last s -> d_of d x = selectorDecisionUnknown ->
              last s - numNackEntries s <= x;
}.

Lemma getEntity_ext {F} (s s' : SelectorDecisionCache F) x :
  base s' = base s -> numEntries s' = numEntries s -> masks s' = masks s -> getEntity s' x = getEntity s x.
Proof. unfold getEntity, getPos. by intros -> -> ->. Qed.

Lemma missingBound_ok {F} (s : SelectorDecisionCache F) x : cache_ok s -> 0 <= base s -> base s < 2 ^ 63 ->
  missingBound s x = if x - numNackEntries s >? base s then x - numNackEntries s else base s.
Proof.
  intros [Hn Hs Hk] Hb Hb'. unfold missingBound. change (2 ^ 63) with 9223372036854775808 in Hb'.
  change (2 ^ 32) with 4294967296 in Hs. rewrite u64_small by lia. rewrite !Z.gtb_ltb.
  destruct (Z.ltb_spec (numNackEntries s + base s) x), (Z.ltb_spec (base s) (x - numNackEntries s)); lia.
Qed.

(** The part of [addEntity] before the new head is set. *)
Lemma advance_ok {F St} (fire : F -> Z -> selectorDecision -> St -> St) s st d e :
  refines s d -> d_init d = true -> d_last d < e < 2 ^ 63 -> e - d_last d <= numEntries s - numNackEntries s ->
  let sst := for_range (fun e => setEntity fire e selectorDecisionUnknown)
               (Z.to_nat (e - (last s + 1))) (last s + 1) (s, st) in
  let sst := if missingBound s e >? missingBound s (last s) then
               for_range (fun e => setEntityIfUnknown fire e selectorDecisionMissing)
                 (Z.to_nat (missingBound s e - missingBound s (last s))) (missingBound s (last s)) sst
             else sst in
  cache_ok (fst sst) /\ frame_eq s (fst sst) /\
  forall x, base s <= x < e -> e - x < numEntries s ->
    getEntity (fst sst) x =
      let dx := if x <=? d_last d then d_of d x else selectorDecisionUnknown in
      if bool_decide (dx = selectorDecisionUnknown) && (x <? e - numNackEntries s)
      then selectorDecisionMissing else dx.
Proof.
  intros [Hok Hi Hb Hd Hu] Hin He Hgap. specialize (Hb Hin). specialize (Hd Hin). specialize (Hu Hin).
  destruct Hb as (Eb & El & Hr & Hlim). pose proof Hok as [Hn Hs Hk]. cbv zeta.
  destruct (range_unknown fire (Z.to_nat (e - (last s + 1))) (last s + 1) s st Hok ltac:(lia) ltac:(lia)) as (H1 & H2 & H3).
  destruct (for_range _ _ _ (s, st)) as [s1 st1]. cbn [fst] in *.
  (* the window after the first loop *)
  assert (Hx1 : forall x, base s <= x < e -> e - x < numEntries s ->
    getEntity s1 x = if x <=? d_last d then d_of d x else selectorDecisionUnknown).
  { intros x Hx Hw. destruct (H3 x ltac:(lia)) as [[E (k & Hk' & Ek)]|[E Hno]].
    - apply Z.eqb_eq in Ek. rewrite mod_zero_close, Z.eqb_eq in Ek by lia.
      rewrite E, (proj2 (Z.leb_gt _ _)) by lia. done.
    - destruct (Z.leb_spec x (d_last d)); [rewrite E; apply Hd; lia|].
      exfalso. apply (Hno x); [lia|]. rewrite Z.sub_diag. apply Z.mod_0_l. lia. }
  pose proof H2 as (F1 & F2 & F3 & F4 & F5).
  rewrite !missingBound_ok by (done || lia). set (A := if last s - _ >? _ then _ else _).
  set (B := if e - _ >? _ then _ else _).
  assert (HA : A = Z.max (base s) (last s - numNackEntries s)) by (unfold A; rewrite Z.gtb_ltb; destruct (Z.ltb_spec (base s) (last s - numNackEntries s)); lia).
  assert (HB : B = Z.max (base s) (e - numNackEntries s)) by (unfold B; rewrite Z.gtb_ltb; destruct (Z.ltb_spec (base s) (e - numNackEntries s)); lia).
  clearbody A B. rewrite Z.gtb_ltb. destruct (Z.ltb_spec A B) as [HAB|HAB].
  - destruct (range_missing fire (Z.to_nat (B - A)) A s1 st1 H1 ltac:(lia) ltac:(lia)) as (G1 & G2 & G3).
    destruct (for_range _ _ _ (s1, st1)) as [s2 st2]. cbn [fst] in *.
    split; [done|]. split; [by eapply frame_eq_trans|]. intros x Hx Hw. rewrite G3 by lia. rewrite !Hx1 by lia.
    cbv zeta. destruct (bool_decide_reflect ((if x <=? d_last d then d_of d x else selectorDecisionUnknown) = selectorDecisionUnknown)) as [Eu|Eu].
    2: { by rewrite andb_false_r. }
    rewrite andb_true_r. cbn [andb]. destruct (Z.ltb_spec x (e - numNackEntries s)).
    + rewrite (proj2 (Z.leb_le A x)), (proj2 (Z.ltb_lt x _)) by
        (destruct (Z.leb_spec x (d_last d)); [specialize (Hu x ltac:(lia) Eu); lia|lia]). done.
    + rewrite (proj2 (Z.ltb_ge x (A + Z.of_nat _))) by lia. by rewrite andb_false_r.
  - split; [done|]. split; [done|]. intros x Hx Hw. rewrite Hx1 by lia. cbv zeta.
    destruct (bool_decide_reflect ((if x <=? d_last d then d_of d x else selectorDecisionUnknown) = selectorDecisionUnknown)) as [Eu|Eu];
      [|done]. rewrite (proj2 (Z.ltb_ge x _)); [done|].
    destruct (Z.leb_spec x (d_last d)); [specialize (Hu x ltac:(lia) Eu); lia|lia].
Qed.

Lemma addEntity_refines {F St} (fire : F -> Z -> selectorDecision -> St -> St) s st d e sd :
  refines s d -> 0 <= e < 2 ^ 63 -> sd <> selectorDecisionUnknown ->
  (d_init d = true -> d_last d - numEntries s < e <= d_last d + (numEntries s - numNackEntries s)) ->
  let s' := fst (addEntity fire e sd (s, st)) in
  refines s' (decide_frame (numNackEntries s) e sd d) /\
  numEntries s' = numEntries s /\ numNackEntries s' = numNackEntries s.
Proof.
  intros Href He Hsd Hgap. pose proof Href as [Hok Hi Hb Hd Hu]. pose proof Hok as [Hn Hs Hk].
  cbv zeta. unfold addEntity, decide_frame. rewrite Hi. destruct (d_init d) eqn:Hin; cbn [negb].
  2: { set (s0 := s <| initialized := true |> <| base := e |> <| last := e |>).
    assert (cache_ok s0) as Hok0 by (destruct Hok; by constructor).
    destruct (setEntity_ok fire s0 st e sd Hok0 ltac:(cbn; lia) ltac:(lia)) as (H1 & (F1 & F2 & F3 & F4 & F5) & H3).
    destruct (setEntity fire e sd (s0, st)) as [s1 st1]. cbn [fst] in *.
    change (base s0) with e in *. change (last s0) with e in *. change (numEntries s0) with (numEntries s) in *.
    split; [|by split]. constructor; cbn [d_init d_first d_last d_of]; rewrite ?F2, ?F3, ?F5; [done|done|lia| |].
    - intros _ x Hx _. rewrite H3 by lia. assert (x = e) as -> by lia.
      by rewrite Z.sub_diag, Z.mod_0_l, !Z.eqb_refl by lia.
    - intros _ x Hx _. change (numNackEntries s0) with (numNackEntries s). lia. }
  destruct (Hb eq_refl) as (Eb & El & Hr & Hlim). specialize (Hd eq_refl). specialize (Hu eq_refl).
  specialize (Hgap eq_refl). rewrite Eb, El in *. destruct (Z.leb_spec e (d_first d)); [done|].
  destruct (Z.leb_spec e (d_last d)).
  - destruct (setEntity_ok fire s st e sd Hok ltac:(lia) ltac:(lia)) as (H1 & (F1 & F2 & F3 & F4 & F5) & H3).
    destruct (setEntity fire e sd (s, st)) as [s1 st1]. cbn [fst] in *.
    split; [|by split].
    constructor; cbn [d_init d_first d_last d_of]; rewrite ?F1, ?F2, ?F3, ?F4, ?F5, ?Eb, ?El; try done.
    + intros _ x Hx Hw. rewrite H3 by lia. destruct (Z.eqb_spec x e) as [->|Hne].
      * by rewrite Z.sub_diag, Z.mod_0_l by lia.
      * rewrite mod_zero_close by lia. rewrite (proj2 (Z.eqb_neq (x - e) 0)) by lia. apply Hd; lia.
    + intros _ x Hx. destruct (Z.eqb_spec x e); [by intros ->|]. apply Hu. lia.
  - pose proof (advance_ok fire s st d e Href Hin ltac:(lia) ltac:(lia)) as (H1 & H2 & H3). cbv zeta in H1, H2, H3.
    rewrite <- El in H3 |- *.
    set (sst := if missingBound s e >? missingBound s (last s) then _ else _) in *.
    destruct sst as [s1 st1]. cbn [fst] in H1, H2, H3. pose proof H2 as (F1 & F2 & F3 & F4 & F5).
    destruct (setEntity_ok fire s1 st1 e sd H1 ltac:(lia) ltac:(lia)) as (G1 & (K1 & K2 & K3 & K4 & K5) & G3).
    destruct (setEntity fire e sd (s1, st1)) as [s2 st2]. cbn [fst] in *. unfold expire. cbn [fst].
    split; [|cbn; split; congruence].
    constructor; cbn [d_init d_first d_last d_of initialized base last numEntries numNackEntries field_upd];
      rewrite ?K1, ?K2, ?K3, ?K4, ?K5, ?F1, ?F2, ?F4, ?F5; try done.
    + destruct G1 as [C1 C2 C3]. rewrite K4, F4 in C1, C3. rewrite K5, F5 in C3. by constructor.
    + intros _. lia.
    + intros _ x Hx Hw. rewrite (getEntity_ext s2) by (cbn; congruence). rewrite G3 by lia. rewrite F4.
      rewrite mod_zero_close by lia. destruct (Z.eqb_spec (x - e) 0), (Z.eqb_spec x e) as [->|]; try done; try lia.
      apply H3; lia.
    + intros _ x Hx. destruct (Z.eqb_spec x e) as [->|]; [lia|]. cbv zeta.
      destruct (bool_decide_reflect ((if x <=? last s then d_of d x else selectorDecisionUnknown) = selectorDecisionUnknown));
        [|done]. destruct (Z.ltb_spec x (e - numNackEntries s)); [done|lia].
Qed.

(** ** Waiting callbacks *)

Section callbacks.
Context {F : Type}.

Definition Log : Type := list (Z * F * selectorDecision).

(** A client that records what is fired. *)
Definition record (f : F) (e : Z) (sd : selectorDecision) (log : Log) : Log := log ++ [(e, f, sd)].

Definition entries_of (l : list (Z * list F)) : list (Z * F) :=
  mjoin ((fun kv => (fun f => (kv.1, f)) <$> kv.2) <$> l).

Definition pending (s : SelectorDecisionCache F) : list (Z * F) :=
  entries_of (map_to_list (onExpectEntityChanged s)).

Definition fired (log : Log) : list (Z * F) := fst <$> log.

Lemma entries_of_cons k fns l : entries_of ((k, fns) :: l) = ((fun f => (k, f)) <$> fns) ++ entries_of l.
Proof. done. Qed.

Lemma entries_of_perm l l' : l ≡ₚ l' -> entries_of l ≡ₚ entries_of l'.
Proof.
  intros H. unfold entries_of. induction H; cbn [fmap list_fmap mjoin list_join];
    [done|by apply Permutation_app_head|rewrite !app_assoc; apply Permutation_app_tail, Permutation_app_comm|by etransitivity].
Qed.

Lemma fire_all_record fns e sd log : fire_all record fns e sd log = log ++ ((fun f => (e, f, sd)) <$> fns).
Proof.
  unfold fire_all. revert log. induction fns as [|f fns IH]; intros log; cbn; [by rewrite app_nil_r|].
  rewrite IH. unfold record. by rewrite <- app_assoc.
Qed.

Lemma fired_app l l' : fired (l ++ l') = fired l ++ fired l'.
Proof. apply fmap_app. Qed.

Lemma fired_fns e sd fns : fired ((fun f => (e, f, sd)) <$> fns) = (fun f => (e, f)) <$> fns.
Proof. unfold fired. by rewrite <- list_fmap_compose. Qed.

Definition decided (log : Log) : Prop := Forall (fun x => x.2 <> selectorDecisionUnknown) log.

(** Nothing is lost or fired twice: what was waiting or fired stays so. *)
Definition conserves (sst sst' : SelectorDecisionCache F * Log) : Prop :=
  fired (snd sst') ++ pending (fst sst') ≡ₚ fired (snd sst) ++ pending (fst sst) /\
  (decided (snd sst) -> decided (snd sst')) /\
  (forall x, x ∈ pending (fst sst') -> x ∈ pending (fst sst)) /\
  frame_eq (fst sst) (fst sst').

Lemma conserves_refl sst : conserves sst sst.
Proof. unfold conserves. split_and!; try done. Qed.

Lemma conserves_trans a b c : conserves a b -> conserves b c -> conserves a c.
Proof.
  intros (H1 & H2 & H3 & H4) (G1 & G2 & G3 & G4). split_and!.
  - by rewrite G1.
  - tauto.
  - auto.
  - by eapply frame_eq_trans.
Qed.

Lemma setEntity_conserves e sd sst : conserves sst (setEntity record e sd sst).
Proof.
  destruct sst as [s log]. unfold setEntity. destruct (getPos s e) as [i p]. cbv zeta.
  set (s1 := s <| masks := _ |>). assert (conserves (s, log) (s1, log)) as H1 by (unfold conserves; split_and!; done).
  destruct (bool_decide_reflect (sd = selectorDecisionUnknown)) as [|Hne]; cbn [negb]; [done|].
  destruct (onExpectEntityChanged s1 !! e) as [fns|] eqn:E; [|done].
  eapply conserves_trans; [exact H1|]. rewrite fire_all_record. unfold conserves, pending. cbn [fst snd onExpectEntityChanged field_upd].
  pose proof (map_to_list_delete _ _ _ E) as Hp. apply entries_of_perm in Hp. rewrite entries_of_cons in Hp. split_and!.
  - rewrite fired_app, fired_fns, <- Hp, <- app_assoc. done.
  - intros Hd. apply Forall_app. split; [done|]. apply Forall_fmap, Forall_true. done.
  - intros x Hx. rewrite <- Hp. apply elem_of_app. by right.
  - done.
Qed.

Lemma for_range_conserves (f : Z -> SelectorDecisionCache F * Log -> SelectorDecisionCache F * Log) n e sst :
  (forall e sst, conserves sst (f e sst)) -> conserves sst (for_range f n e sst).
Proof.
  intros Hf. revert e sst. induction n as [|n IH]; intros e sst; cbn [for_range]; [apply conserves_refl|].
  eapply conserves_trans; [apply Hf|apply IH].
Qed.

Lemma setEntityIfUnknown_conserves e sd sst : conserves sst (setEntityIfUnknown record e sd sst).
Proof. unfold setEntityIfUnknown. destruct (bool_decide _); [apply setEntity_conserves|apply conserves_refl]. Qed.

Lemma expire_log (s : SelectorDecisionCache F) (l : list (Z * list F)) log :
  foldl (fun st kv => if is_expired s kv.1 then fire_all record kv.2 kv.1 selectorDecisionMissing st else st) log l =
  log ++ mjoin ((fun kv => (fun f => (kv.1, f, selectorDecisionMissing)) <$> kv.2) <$> filter (fun kv => is_expired s kv.1 = true) l).
Proof.
  revert log. induction l as [|[k fns] l IH]; intros log; cbn [foldl]; [by rewrite app_nil_r|].
  rewrite IH, filter_cons. cbn [fst snd]. destruct (is_expired s k) eqn:E.
  - rewrite decide_True, fire_all_record, <- app_assoc by done. done.
  - by rewrite decide_False by done.
Qed.

Lemma filter_split (P : Z -> bool) (l : list (Z * list F)) :
  entries_of l ≡ₚ entries_of (filter (fun kv => P kv.1 = true) l) ++ entries_of (filter (fun kv => P kv.1 = false) l).
Proof.
  induction l as [|[k fns] l IH]; [done|]. rewrite !filter_cons, entries_of_cons. cbn [fst]. destruct (P k) eqn:E.
  - rewrite decide_True, decide_False by done. rewrite entries_of_cons, <- app_assoc. by rewrite IH.
  - rewrite decide_False, decide_True by done. rewrite entries_of_cons, IH.
    rewrite !app_assoc. apply Permutation_app_tail, Permutation_app_comm.
Qed.

Lemma map_filter_list (m : gmap Z (list F)) (P : Z -> bool) :
  map_to_list (filter (fun kv => P kv.1 = false) m) ≡ₚ filter (fun kv => P kv.1 = false) (map_to_list m).
Proof.
  rewrite map_filter_alt. apply map_to_list_to_map.
  eapply (sublist_NoDup _ ((map_to_list m).*1)); [apply NoDup_fst_map_to_list|].
  generalize (map_to_list m). intros l. induction l as [|[k fns] l IH]; [done|].
  rewrite filter_cons. cbn [fst]. destruct (decide _); cbn; [by constructor|by apply sublist_cons].
Qed.

Lemma expire_conserves sst : conserves sst (expire record sst).
Proof.
  destruct sst as [s log]. unfold expire, conserves, pending. cbn [fst snd onExpectEntityChanged field_upd].
  rewrite expire_log, fired_app.
  pose proof (map_filter_list (onExpectEntityChanged s) (is_expired s)) as Hp. apply entries_of_perm in Hp.
  pose proof (filter_split (is_expired s) (map_to_list (onExpectEntityChanged s))) as Hs.
  assert (fired (mjoin ((fun kv => (fun f => (kv.1, f, selectorDecisionMissing)) <$> kv.2) <$>
            filter (fun kv => is_expired s kv.1 = true) (map_to_list (onExpectEntityChanged s)))) =
          entries_of (filter (fun kv => is_expired s kv.1 = true) (map_to_list (onExpectEntityChanged s)))) as E.
  { generalize (filter (fun kv => is_expired s kv.1 = true) (map_to_list (onExpectEntityChanged s))). intros l.
    induction l as [|[k fns] l IH]; [done|]. cbn [fmap list_fmap mjoin list_join].
    rewrite fired_app, fired_fns, entries_of_cons. cbn [fst snd]. f_equal. exact IH. }
  split_and!.
  - rewrite E, <- app_assoc. apply Permutation_app_head. by rewrite Hs, Hp.
  - intros Hd. apply Forall_app. split; [done|]. apply Forall_forall. intros x Hx.
    apply list_elem_of_join in Hx as (l & Hx & Hl). apply list_elem_of_fmap in Hl as ([k fns] & -> & _).
    apply list_elem_of_fmap in Hx as (f & -> & _). done.
  - intros x Hx. rewrite Hp in Hx. rewrite Hs. apply elem_of_app. by right.
  - done.
Qed.

(** An operation of the selector on the cache. *)
Inductive CacheOp :=
| OpAdd (entity : Z) (sd : selectorDecision)
| OpExpect (entity : Z) (f : F).

(** The accepted registrations are collected. *)
Definition cache_step (op : CacheOp) (x : SelectorDecisionCache F * Log * list (Z * F))
  : SelectorDecisionCache F * Log * list (Z * F) :=
  let '(s, log, registered) := x in
  match op with
  | OpAdd e sd => (addEntity record e sd (s, log), registered)
  | OpExpect e f =>
    let '(s, ok) := ExpectDecision e f s in
    (s, log, if ok then registered ++ [(e, f)] else registered)
  end.

Definition cache_run (ops : list CacheOp) (maxNumElements nack : Z) :=
  foldl (fun x op => cache_step op x) (NewSelectorDecisionCache maxNumElements nack, [], []) ops.

Definition op_ok (op : CacheOp) : Prop :=
  match op with
  | OpAdd e sd => 0 <= e < 2 ^ 63 /\ sd <> selectorDecisionUnknown
  | OpExpect e _ => 0 <= e < 2 ^ 63
  end.

Record run_inv (x : SelectorDecisionCache F * Log * list (Z * F)) : Prop := {
  ri_perm : fired x.1.2 ++ pending x.1.1 ≡ₚ x.2;
  ri_log : decided x.1.2;
  ri_range : forall k, k ∈ pending x.1.1 -> 0 <= k.1 < 2 ^ 63 /\ (initialized x.1.1 = true -> last x.1.1 <= k.1 + numEntries x.1.1);
  ri_init : initialized x.1.1 = false -> pending x.1.1 = [];
  ri_last : 0 <= last x.1.1 < 2 ^ 63;
  ri_size : 0 <= numEntries x.1.1 < 2 ^ 62;
}.

Lemma addEntity_conserves e sd s log :
  fired (snd (addEntity record e sd (s, log))) ++ pending (fst (addEntity record e sd (s, log)))
    ≡ₚ fired log ++ pending s /\
  (decided log -> decided (snd (addEntity record e sd (s, log)))) /\
  (forall x, x ∈ pending (fst (addEntity record e sd (s, log))) -> x ∈ pending s) /\
  numEntries (fst (addEntity record e sd (s, log))) = numEntries s /\
  initialized (fst (addEntity record e sd (s, log))) = true /\
  (last (fst (addEntity record e sd (s, log))) = last s /\ initialized s = true \/
   last (fst (addEntity record e sd (s, log))) = e /\ (initialized s = false \/
     forall x, x ∈ pending (fst (addEntity record e sd (s, log))) -> e <= u64 (x.1 + numEntries s))).
Proof.
  unfold addEntity. destruct (initialized s) eqn:Hi; cbn [negb].
  2: { pose proof (setEntity_conserves e sd (s <| initialized := true |> <| base := e |> <| last := e |>, log))
         as (H1 & H2 & H3 & (F1 & F2 & F3 & F4 & F5)). cbn [fst snd] in *.
    split_and!; [exact H1|exact H2|exact H3|exact F4|exact F1|]. right. split; [exact F3|by left]. }
  destruct (Z.leb_spec e (base s)).
  { cbn [fst snd]. split_and!; try done. by left. }
  destruct (Z.leb_spec e (last s)).
  { pose proof (setEntity_conserves e sd (s, log)) as (H1 & H2 & H3 & (F1 & F2 & F3 & F4 & F5)). cbn [fst snd] in *.
    split_and!; try done; [congruence|]. by left. }
  cbv zeta. set (sst := if missingBound s e >? missingBound s (last s) then _ else _).
  assert (conserves (s, log) sst) as Hc.
  { unfold sst. eapply conserves_trans;
      [apply for_range_conserves; intros; apply setEntity_conserves|].
    destruct (_ >? _); [apply for_range_conserves; intros; apply setEntityIfUnknown_conserves|apply conserves_refl]. }
  clearbody sst. pose proof (conserves_trans _ _ _ Hc (setEntity_conserves e sd sst)) as Hc1.
  destruct (setEntity record e sd sst) as [s2 log2]. destruct Hc1 as (H1 & H2 & H3 & (F1 & F2 & F3 & F4 & F5)).
  cbn [fst snd] in *. set (s3 := s2 <| last := e |>).
  pose proof (expire_conserves (s3, log2)) as (G1 & G2 & G3 & (K1 & K2 & K3 & K4 & K5)). cbn [fst snd] in *.
  change (pending s3) with (pending s2) in *. split_and!.
  - by rewrite G1.
  - tauto.
  - auto.
  - rewrite K4. exact F4.
  - rewrite K1. unfold s3. cbn. congruence.
  - right. split; [exact K3|]. right. intros [k f] Hx. unfold expire, pending in Hx. cbn [fst] in Hx.
    unfold entries_of in Hx. apply list_elem_of_join in Hx as (l & Hx & Hl).
    apply list_elem_of_fmap in Hl as ([k' fns] & -> & Hm). apply list_elem_of_fmap in Hx as (f' & [= -> ->] & _).
    apply elem_of_map_to_list in Hm. cbn [onExpectEntityChanged field_upd] in Hm.
    apply map_lookup_filter_Some in Hm as [_ Hm]. unfold is_expired in Hm. cbn [fst] in *.
    apply Z.ltb_ge in Hm. change (numEntries s3) with (numEntries s2) in Hm. rewrite F4 in Hm. exact Hm.
Qed.
End callbacks.

Section runs.
Context {F : Type}.

Lemma pending_insert (s : SelectorDecisionCache F) e f :
  pending (s <| onExpectEntityChanged :=
    <[e := default [] (onExpectEntityChanged s !! e) ++ [f]]> (onExpectEntityChanged s) |>) ≡ₚ pending s ++ [(e, f)].
Proof.
  unfold pending. cbn [onExpectEntityChanged field_upd]. set (m := onExpectEntityChanged s).
  destruct (m !! e) as [fns|] eqn:E; cbn [default].
  - rewrite <- insert_delete_eq.
    rewrite (entries_of_perm _ _ (map_to_list_insert _ _ _ (lookup_delete_eq m e))).
    rewrite <- (entries_of_perm _ _ (map_to_list_delete _ _ _ E)). rewrite !entries_of_cons, fmap_app.
    rewrite <- !app_assoc. apply Permutation_app_head, Permutation_app_comm.
  - rewrite (entries_of_perm _ _ (map_to_list_insert _ _ _ E)). rewrite entries_of_cons. cbn [app].
    apply Permutation_app_comm.
Qed.

Lemma run_inv_step op (x : SelectorDecisionCache F * Log * list (Z * F)) :
  run_inv x -> op_ok op -> run_inv (cache_step op x).
Proof.
  destruct x as [[s log] reg]. intros [Hp Hl Hr Hi Hlast Hn] Hop. cbn [fst snd] in *.
  destruct op as [e sd|e f]; cbn [cache_step op_ok] in *.
  - destruct Hop as [He Hsd].
    destruct (addEntity_conserves e sd s log) as (H1 & H2 & H3 & H4 & H5 & H6).
    destruct (addEntity record e sd (s, log)) as [s' log']. cbn [fst snd] in *. constructor; cbn [fst snd].
    + by rewrite H1.
    + tauto.
    + intros k Hk. destruct (Hr k (H3 k Hk)) as [Hk1 Hk2]. split; [done|]. intros _. rewrite H4.
      destruct H6 as [[-> Hin]|[-> [Hin|Hall]]]; [by apply Hk2| |].
      * rewrite (Hi Hin) in H3. specialize (H3 k Hk). by apply not_elem_of_nil in H3.
      * specialize (Hall k Hk). rewrite u64_small in Hall; [lia|].
        change (2 ^ 63) with 9223372036854775808 in *. change (2 ^ 62) with 4611686018427387904 in *. lia.
    + congruence.
    + destruct H6 as [[-> _]|[-> _]]; lia.
    + by rewrite H4.
  - unfold ExpectDecision. destruct (initialized s) eqn:Hin; cbn [negb orb]; [|by constructor; cbn [fst snd]; rewrite ?Hin].
    destruct (Z.ltb_spec e (base s)); [constructor; cbn [fst snd]; rewrite ?Hin; done|].
    destruct ((e <? last s) && (u64 (last s - e) >=? numEntries s)) eqn:Eo;
      [constructor; cbn [fst snd]; rewrite ?Hin; done|].
    pose proof (pending_insert s e f) as Hpi. match goal with |- run_inv (?s', _, _) => set (s1 := s') in * end.
    assert (initialized s1 = true /\ last s1 = last s /\ numEntries s1 = numEntries s) as (T1 & T2 & T3) by done.
    clearbody s1. constructor; cbn [fst snd]; rewrite ?T1, ?T2, ?T3; [|done| |done|done|done].
    + by rewrite Hpi, app_assoc, Hp.
    + intros k. rewrite Hpi. intros [Hk|Hk%list_elem_of_singleton]%elem_of_app; [by apply Hr|]. subst k. cbn [fst].
      split; [done|]. intros _.
      destruct (Z.ltb_spec e (last s)); [|lia]. cbn [andb] in Eo. rewrite Z.geb_leb in Eo. apply Z.leb_gt in Eo.
      rewrite u64_small in Eo by (change (2 ^ 63) with 9223372036854775808 in *; lia). lia.
Qed.
End runs.

(** ** Properties *)

(** Frames handed to the cache one by one: within the ring of the head, and
    not further ahead than the ring leaves room for the NACK window. *)
Fixpoint in_window (entries nack : Z) (d : Decisions) (l : list (Z * selectorDecision)) : Prop :=
  match l with
  | [] => True
  | (e, sd) :: l =>
    0 <= e < 2 ^ 63 /\ sd <> selectorDecisionUnknown /\
    (d_init d = true -> d_last d - entries < e <= d_last d + (entries - nack)) /\
    in_window entries nack (decide_frame nack e sd d) l
  end.

Lemma NewCache_ok {F} maxN nack : 1 <= maxN < 2 ^ 36 -> 0 <= nack <= maxN ->
  refines (@NewSelectorDecisionCache F maxN nack) noDecisions.
Proof.
  intros Hm Hn. unfold NewSelectorDecisionCache. rewrite Z.quot_div_nonneg by lia.
  set (n := (maxN * 2 + 63) / 64). assert (Hb : 0 < n < 2 ^ 32 /\ maxN <= n * 32).
  { change (2 ^ 36) with 68719476736 in Hm. change (2 ^ 32) with 4294967296. unfold n. dlia. }
  constructor; try done. constructor; cbn; unfold zlen; rewrite ?repeat_length; lia.
Qed.

(** C10: for every sequence of decisions in which each is for a frame less than
    the ring behind the newest and at most the ring less the NACK window ahead
    of it ([in_window]), the ring of two-bit entries answers exactly as the map
    of decisions does: missing before the first frame, unknown ahead, too old
    behind the ring, and in the ring the last decision given, where a skipped
    frame is unknown until the NACK window has passed it and missing from then
    on.  Further ahead the two differ: frames of the NACK window are given up
    ([large_jump_gives_up_recent_frames]). *)
Theorem GetDecision_refines {F St} (fire : F -> Z -> selectorDecision -> St -> St) maxN nack st l x :
  1 <= maxN < 2 ^ 36 -> 0 <= nack <= maxN -> 0 <= x < 2 ^ 63 ->
  let c0 := NewSelectorDecisionCache maxN nack in
  in_window (numEntries c0) nack noDecisions l ->
  let sst := fold_left (fun sst a => addEntity fire a.1 a.2 sst) l (c0, st) in
  let d := fold_left (fun d a => decide_frame nack a.1 a.2 d) l noDecisions in
  GetDecision (fst sst) x = decision (numEntries c0) d x.
Proof.
  intros Hm Hn Hx. cbv zeta. set (c0 := NewSelectorDecisionCache maxN nack).
  assert (G : forall l s d st, refines s d -> numEntries s = numEntries c0 -> numNackEntries s = nack ->
    in_window (numEntries c0) nack d l ->
    let s' := fst (fold_left (fun sst a => addEntity fire a.1 a.2 sst) l (s, st)) in
    refines s' (fold_left (fun d a => decide_frame nack a.1 a.2 d) l d) /\ numEntries s' = numEntries c0).
  { clear. induction l as [|[e sd] l IH]; intros s d st Hr En Ek; cbn [in_window fold_left fst snd]; [done|].
    intros (He & Hsd & Hgap & Hl). rewrite <- En, <- Ek in Hgap.
    destruct (addEntity_refines fire s st d e sd Hr He Hsd Hgap) as (H1 & H2 & H3).
    destruct (addEntity fire e sd (s, st)) as [s1 st1]. cbn [fst] in *. rewrite Ek in H1.
    apply IH; [done|congruence|congruence|done]. }
  intros Hl. destruct (G l c0 noDecisions st (NewCache_ok maxN nack Hm Hn) eq_refl eq_refl Hl) as [Hr En].
  clear G Hl. set (s := fst _) in *. set (d := fold_left _ l noDecisions) in *. clearbody s d.
  destruct Hr as [Hok Hi Hb Hd _]. unfold GetDecision, decision. rewrite Hi.
  destruct (d_init d); cbn [negb orb]; [|done]. destruct (Hb eq_refl) as (<- & <- & Hr & Hlim).
  destruct (Z.ltb_spec x (base s)); [done|]. rewrite Z.gtb_ltb. destruct (Z.ltb_spec (last s) x); [done|].
  rewrite u64_small by (change (2 ^ 63) with 9223372036854775808 in *; lia). rewrite <- En.
  destruct (Z.geb_spec (last s - x) (numEntries s)); [done|]. f_equal. apply Hd; [done|lia|lia].
Qed.

Lemma GetDecision_refines_witness :
  let c0 := @NewSelectorDecisionCache unit 256 80 in
  let l := [(1000, selectorDecisionForwarded); (1003, selectorDecisionDropped); (1090, selectorDecisionForwarded)] in
  GetDecision (fst (fold_left (fun sst a => addEntity (fun _ _ _ (st : unit) => st) a.1 a.2 sst) l (c0, tt))) 1002 =
  decision (numEntries c0) (fold_left (fun d a => decide_frame 80 a.1 a.2 d) l noDecisions) 1002.
Proof.
  apply (GetDecision_refines _ 256 80 tt _ 1002); [lia|lia|lia|].
  cbn -[numEntries]. change (numEntries (NewSelectorDecisionCache 256 80)) with 256.
  split_and!; (done || lia).
Defined.



(** When the head jumps further than the ring leaves room for the NACK
    window, the entries of the frames to give up alias those of newer frames:
    270 is inside the NACK window of the new head 300 and could still arrive,
    but is reported missing. *)
Theorem large_jump_gives_up_recent_frames :
  let c := fst (fold_left (fun sst a => addEntity (fun (_ : unit) _ _ (st : unit) => st) a.1 a.2 sst)
                  [(0, selectorDecisionForwarded); (300, selectorDecisionForwarded)]
                  (NewSelectorDecisionCache 256 80, tt)) in
  300 - 80 < 270 < 300 /\ GetDecision c 270 = (selectorDecisionMissing, false) /\
  GetDecision c 219 = (selectorDecisionMissing, false) /\
  (forall d, d = fold_left (fun d a => decide_frame 80 a.1 a.2 d)
                  [(0, selectorDecisionForwarded); (300, selectorDecisionForwarded)] noDecisions ->
    decision 256 d 270 = (selectorDecisionUnknown, false)).
Proof. cbv zeta. split; [lia|]. split_and!; [vm_compute; reflexivity..|]. intros d ->. reflexivity. Qed.
