(* ===== verification/LayerSelectors.v ===== *)
(** * Layer selectors

    Models [src/SERVER/pkg/sfu/videolayerselector/base.go], [simulcast.go],
    [vp9.go], [null.go] and [temporallayerselector/vp8.go].  A selector decides
    for each packet of a stream whether it is forwarded and switches the
    current layer towards the target where the codec allows it. *)

From S2P Require Import Prelude DdTypes.
From S2P Require Import Vp8 Packet.

Record VideoLayerSelectorResult := mkResult {
  IsSelected : bool;
  IsRelevant : bool;
  IsSwitching : bool;
  IsResuming : bool;
  RTPMarker : bool;
  DependencyDescriptorExtension : slice Z;
}.
#[export] Instance eta_result : Eta VideoLayerSelectorResult := fun r =>
  mkResult (IsSelected r) (IsRelevant r) (IsSwitching r) (IsResuming r) (RTPMarker r)
    (DependencyDescriptorExtension r).

Definition emptyResult : VideoLayerSelectorResult := mkResult false false false false false None.

(** [temporallayerselector.TemporalLayerSelector]: the layer of this packet
    and the next current layer. *)
Class TemporalLayerSelector (T : Type) :=
  tls_Select : T -> ExtPacket -> Z -> Z -> Z * Z.

(** [temporallayerselector.VP8] has no state. *)
Inductive VP8Temporal := NewVP8Temporal.

Definition VP8_Select (v : VP8Temporal) (extPkt : ExtPacket) (current target : Z) : Z * Z :=
  if current =? target then (current, current)
  else
    match Payload extPkt with
    | PayloadVP8 vp8 =>
      let tid := Temporal (Layers extPkt) in
      if current <? target then
        if (tid >? current) && (tid <=? target) && S vp8 then (tid, tid) else (current, current)
      else if Marker extPkt then (current, target) else (current, current)
    | _ => (current, current)
    end.

#[export] Instance VP8_TemporalLayerSelector : TemporalLayerSelector VP8Temporal := VP8_Select.

(** ** Base *)

Record Base (T : Type) := mkBase {
  tls : option T;
  maxLayer : VideoLayer;
  maxSeenLayer : VideoLayer;
  targetLayer : VideoLayer;
  previousTargetLayer : VideoLayer;
  requestSpatial : Z;
  currentLayer : VideoLayer;
  previousLayer : VideoLayer;
}.
Arguments mkBase {T}.
Arguments tls {T}.
Arguments maxLayer {T}.
Arguments maxSeenLayer {T}.
Arguments targetLayer {T}.
Arguments previousTargetLayer {T}.
Arguments requestSpatial {T}.
Arguments currentLayer {T}.
Arguments previousLayer {T}.
#[export] Instance eta_Base T : Eta (Base T) := fun b =>
  mkBase (tls b) (maxLayer b) (maxSeenLayer b) (targetLayer b) (previousTargetLayer b)
    (requestSpatial b) (currentLayer b) (previousLayer b).

Section base.
Context {T : Type} `{TemporalLayerSelector T}.

Definition NewBase : Base T :=
  mkBase None InvalidLayer InvalidLayer InvalidLayer InvalidLayer InvalidLayerSpatial InvalidLayer InvalidLayer.

Definition SetTemporalLayerSelector (t : T) (b : Base T) : Base T := b <| tls := Some t |>.
Definition SetMax (l : VideoLayer) (b : Base T) : Base T := b <| maxLayer := l |>.
Definition SetMaxSpatial (l : Z) (b : Base T) : Base T := b <| maxLayer := maxLayer b <| Spatial := l |> |>.
Definition SetMaxTemporal (l : Z) (b : Base T) : Base T := b <| maxLayer := maxLayer b <| Temporal := l |> |>.
Definition SetTarget (l : VideoLayer) (b : Base T) : Base T :=
  b <| previousTargetLayer := l |> <| targetLayer := l |>.
Definition SetRequestSpatial (l : Z) (b : Base T) : Base T := b <| requestSpatial := l |>.
Definition CheckSync (b : Base T) : bool * Z :=
  (requestSpatial b =? Spatial (currentLayer b), requestSpatial b).
Definition SetMaxSeen (l : VideoLayer) (b : Base T) : Base T := b <| maxSeenLayer := l |>.
Definition SetMaxSeenSpatial (l : Z) (b : Base T) : Base T := b <| maxSeenLayer := maxSeenLayer b <| Spatial := l |> |>.
Definition SetMaxSeenTemporal (l : Z) (b : Base T) : Base T := b <| maxSeenLayer := maxSeenLayer b <| Temporal := l |> |>.
Definition SetCurrent (l : VideoLayer) (b : Base T) : Base T := b <| currentLayer := l |>.

(** [Null] embeds [Base] and adds nothing. *)
Definition BaseSelect (b : Base T) (extPkt : ExtPacket) (layer : Z) : Base T * VideoLayerSelectorResult :=
  (b, emptyResult).

Definition Rollback (b : Base T) : Base T :=
  b <| currentLayer := previousLayer b |> <| targetLayer := previousTargetLayer b |>.

Definition SelectTemporal (extPkt : ExtPacket) (b : Base T) : Base T * Z :=
  match tls b with
  | None => (b, Temporal (currentLayer b))
  | Some t =>
    let '(this, next) := tls_Select t extPkt (Temporal (currentLayer b)) (Temporal (targetLayer b)) in
    if negb (next =? Temporal (currentLayer b))
    then (b <| currentLayer := currentLayer b <| Temporal := next |> |>, this)
    else (b, this)
  end.

(** ** Simulcast *)

(** The target follows the layer locked to when it is at the top. *)
Definition lockTarget (spatial : Z) (b : Base T) : Base T :=
  if (Spatial (currentLayer b) >=? Spatial (maxLayer b)) || (Spatial (currentLayer b) =? Spatial (maxSeenLayer b))
  then b <| targetLayer := targetLayer b <| Spatial := spatial |> |>
  else b.

Definition populateSwitches (isActive : bool) (r : VideoLayerSelectorResult) : VideoLayerSelectorResult :=
  let r := r <| IsSwitching := true |> in
  if isActive then r else r <| IsResuming := true |>.

(** Not locked to the target: a key frame of a layer towards it. *)
Definition simulcastSwitch (extPkt : ExtPacket) (layer : Z) (x : Base T * VideoLayerSelectorResult)
  : Base T * VideoLayerSelectorResult :=
  let '(s, result) := x in
  if negb (Spatial (currentLayer s) =? Spatial (targetLayer s)) then
    let isActive := IsValid (currentLayer s) in
    let found := PktIsKeyFrame extPkt &&
      (((layer >? Spatial (currentLayer s)) && (layer <=? Spatial (targetLayer s)))
       || ((layer <? Spatial (currentLayer s)) && (layer >=? Spatial (targetLayer s)))) in
    if found then
      let s' := s <| previousLayer := currentLayer s |>
                  <| currentLayer := mkLayer layer (Temporal (Layers extPkt)) |>
                  <| previousTargetLayer := targetLayer s |> in
      (lockTarget layer s', populateSwitches isActive result)
    else (s, result)
  else (s, result).

(** Locked above the maximum: a key frame of a layer within it. *)
Definition simulcastOvershoot (extPkt : ExtPacket) (layer : Z) (x : Base T * VideoLayerSelectorResult)
  : Base T * VideoLayerSelectorResult :=
  let '(s, result) := x in
  if (Spatial (currentLayer s) >? Spatial (maxLayer s)) && (layer <=? Spatial (maxLayer s)) && PktIsKeyFrame extPkt then
    let s' := s <| previousLayer := currentLayer s |>
                <| currentLayer := currentLayer s <| Spatial := layer |> |>
                <| previousTargetLayer := targetLayer s |> in
    (lockTarget layer s', populateSwitches true result)
  else (s, result).

Definition SimulcastSelect (s : Base T) (extPkt : ExtPacket) (layer : Z) : Base T * VideoLayerSelectorResult :=
  let '(s, result) := simulcastOvershoot extPkt layer (simulcastSwitch extPkt layer (s, emptyResult)) in
  (s, result <| RTPMarker := Marker extPkt |>
             <| IsSelected := layer =? Spatial (currentLayer s) |>
             <| IsRelevant := false |>).

(** ** VP9 SVC *)

(** The layer of this packet and the current layer after it, when the current
    layer is valid and not the target. *)
Definition vp9Switch (v : Base T) (vp9 : VP9Packet) (pkt : VideoLayer) : VideoLayer * VideoLayer :=
  let cur := currentLayer v in
  let target := targetLayer v in
  let '(currentLayer, updatedLayer) :=
    if negb (Temporal cur =? Temporal target) then
      if Temporal cur <? Temporal target then
        if (Temporal pkt >? Temporal cur) && (Temporal pkt <=? Temporal target) && VP9_U vp9 && VP9_B vp9
        then (cur <| Temporal := Temporal pkt |>, cur <| Temporal := Temporal pkt |>) else (cur, cur)
      else if VP9_E vp9 then (cur, cur <| Temporal := Temporal target |>) else (cur, cur)
    else (cur, cur) in
  if negb (Spatial cur =? Spatial target) then
    if Spatial cur <? Spatial target then
      if (Spatial pkt >? Spatial cur) && (Spatial pkt <=? Spatial target) && negb (VP9_P vp9) && VP9_B vp9
      then (currentLayer <| Spatial := Spatial pkt |>, updatedLayer <| Spatial := Spatial pkt |>)
      else (currentLayer, updatedLayer)
    else if VP9_E vp9 then (currentLayer, updatedLayer <| Spatial := Spatial target |>)
    else (currentLayer, updatedLayer)
  else (currentLayer, updatedLayer).

Definition VP9Select (v : Base T) (extPkt : ExtPacket) (layer : Z) : Base T * VideoLayerSelectorResult :=
  match Payload extPkt with
  | PayloadVP9 vp9 =>
    let pkt := Layers extPkt in
    let layers :=
      if bool_decide (currentLayer v = targetLayer v) then Some (currentLayer v, currentLayer v)
      else if negb (IsValid (currentLayer v)) then
        if PktIsKeyFrame extPkt then Some (currentLayer v, pkt) else None
      else Some (vp9Switch v vp9 pkt) in
    match layers with
    | None => (v, emptyResult)
    | Some (current, updatedLayer) =>
      let '(v', result) :=
        if negb (bool_decide (updatedLayer = currentLayer v)) then
          (v <| previousLayer := currentLayer v |> <| currentLayer := updatedLayer |>,
           emptyResult <| IsSwitching := true |>
                       <| IsResuming := negb (IsValid (currentLayer v)) && IsValid updatedLayer |>)
        else (v, emptyResult) in
      let marker := if VP9_E vp9 && (Spatial pkt =? Spatial current)
                       && (VP9_P vp9 || (Spatial (targetLayer v') <=? Spatial (currentLayer v')))
                    then true else Marker extPkt in
      (v', result <| RTPMarker := marker |>
                  <| IsSelected := negb (GreaterThan pkt current) |>
                  <| IsRelevant := true |>)
    end
  | _ => (v, emptyResult)
  end.

End base.

(** ** Properties *)

Section simulcast.
Context {T : Type}.
Implicit Types s : Base T.

Lemma lockTarget_fields spatial s :
  currentLayer (lockTarget spatial s) = currentLayer s /\ previousLayer (lockTarget spatial s) = previousLayer s /\
  previousTargetLayer (lockTarget spatial s) = previousTargetLayer s /\ maxLayer (lockTarget spatial s) = maxLayer s /\
  Rollback (lockTarget spatial s) = Rollback s.
Proof. unfold lockTarget. by case_if. Qed.

(** A switch from [s] on a key frame of [layer]. *)
Definition switched s s' (layer : Z) : Prop :=
  Spatial (currentLayer s') = layer /\ currentLayer (Rollback s') = currentLayer s /\
  targetLayer (Rollback s') = targetLayer s /\ maxLayer s' = maxLayer s.

Lemma simulcastSwitch_ok p layer s r : IsSwitching r = false ->
  let '(s', r') := simulcastSwitch p layer (s, r) in
  (IsSwitching r' = false /\ s' = s /\
     (PktIsKeyFrame p = true -> ~ (Spatial (currentLayer s) < layer <= Spatial (targetLayer s)) /\
                                ~ (Spatial (targetLayer s) <= layer < Spatial (currentLayer s)))) \/
  (IsSwitching r' = true /\ PktIsKeyFrame p = true /\ switched s s' layer /\
     (Spatial (currentLayer s) < layer <= Spatial (targetLayer s) \/
      Spatial (targetLayer s) <= layer < Spatial (currentLayer s))).
Proof.
  intros Hr. unfold simulcastSwitch. destruct (Z.eqb_spec (Spatial (currentLayer s)) (Spatial (targetLayer s))) as [E|E];
    cbn [negb]; [left; split_and!; try done; intros _; lia|].
  match goal with |- context [if ?b then (lockTarget _ _, _) else _] => destruct b eqn:Ef end.
  - right. apply andb_true_iff in Ef as [Hk Hl]. rewrite Z.gtb_ltb, Z.geb_leb in Hl.
    split; [by destruct (IsValid _)|]. split; [done|].
    split; [|apply orb_true_iff in Hl as [Hl|Hl]; bool_prop; lia].
    match goal with |- switched _ (lockTarget _ ?x) _ => destruct (lockTarget_fields layer x) as (H1 & _ & _ & H4 & H5) end.
    unfold switched. rewrite H1, H4, H5. done.
  - left. split_and!; [done|done|]; intros Hk; rewrite Hk in Ef; cbn [andb] in Ef;
      apply orb_false_iff in Ef as [E1 E2]; rewrite Z.gtb_ltb in E1; rewrite Z.geb_leb in E2; lia.
Qed.

Lemma simulcastOvershoot_ok p layer s r :
  let '(s', r') := simulcastOvershoot p layer (s, r) in
  (r' = r /\ s' = s) \/
  (IsSwitching r' = true /\ PktIsKeyFrame p = true /\ switched s s' layer /\
     layer <= Spatial (maxLayer s) < Spatial (currentLayer s)).
Proof.
  unfold simulcastOvershoot. match goal with |- context [if ?b then (lockTarget _ _, _) else _] => destruct b eqn:Ef end;
    [|by left].
  right. apply andb_true_iff in Ef as [Ef Hk]. rewrite Z.gtb_ltb in Ef. bool_prop. split; [done|]. split; [done|].
  split; [|lia].
  match goal with |- switched _ (lockTarget _ ?x) _ => destruct (lockTarget_fields layer x) as (H1 & _ & _ & H4 & H5) end.
  unfold switched. rewrite H1, H4, H5. done.
Qed.

(** A switch, seen from [SimulcastSelect]. *)
Lemma SimulcastSelect_switched s p layer :
  let '(s', r) := SimulcastSelect s p layer in
  IsSelected r = (layer =? Spatial (currentLayer s')) /\
  (IsSwitching r = false -> s' = s) /\
  (IsSwitching r = true ->
     PktIsKeyFrame p = true /\ switched s s' layer /\
     (Spatial (currentLayer s) < layer <= Spatial (targetLayer s) \/
      Spatial (targetLayer s) <= layer < Spatial (currentLayer s) \/
      layer <= Spatial (maxLayer s) < Spatial (currentLayer s))) /\
  (PktIsKeyFrame p = true -> layer = Spatial (targetLayer s) -> Spatial (currentLayer s') = layer).
Proof.
  unfold SimulcastSelect. pose proof (simulcastSwitch_ok p layer s emptyResult eq_refl) as H1.
  destruct (simulcastSwitch p layer (s, emptyResult)) as [s1 r1].
  pose proof (simulcastOvershoot_ok p layer s1 r1) as H2.
  destruct (simulcastOvershoot p layer (s1, r1)) as [s2 r2]. cbn [IsSelected IsSwitching field_upd].
  destruct H1 as [(E1 & -> & Hno)|(E1 & Hk & (W1 & W2 & W3 & W4) & Hdir)];
    destruct H2 as [(-> & ->)|(E2 & Hk2 & (V1 & V2 & V3 & V4) & Hover)].
  - split_and!; [done|done|congruence|]. intros Hk Hl. specialize (Hno Hk). lia.
  - split_and!; [done|congruence|intros _; split_and!; try done; lia|done].
  - split_and!; [done|congruence|intros _; split_and!; try done; lia|done].
  - lia.
Qed.

(** The simulcast selector changes layers only on a key frame of the layer
    it moves to, which lies towards the target or brings an overshoot back
    within the maximum; it then forwards that key frame, and [Rollback]
    restores the layer and the target; otherwise its state stays; it forwards
    exactly the packets of its layer; and a key frame of the target layer
    always locks it. *)
Theorem simulcast_select_spec s p layer :
  let '(s', r) := SimulcastSelect s p layer in
  IsSelected r = (layer =? Spatial (currentLayer s')) /\
  (IsSwitching r = false -> s' = s) /\
  (IsSwitching r = true ->
     PktIsKeyFrame p = true /\ Spatial (currentLayer s') = layer /\
     currentLayer (Rollback s') = currentLayer s /\ targetLayer (Rollback s') = targetLayer s /\
     (Spatial (currentLayer s) < layer <= Spatial (targetLayer s) \/
      Spatial (targetLayer s) <= layer < Spatial (currentLayer s) \/
      layer <= Spatial (maxLayer s) < Spatial (currentLayer s))) /\
  (PktIsKeyFrame p = true -> layer = Spatial (targetLayer s) -> Spatial (currentLayer s') = layer).
Proof.
  pose proof (SimulcastSelect_switched s p layer) as Hs. destruct (SimulcastSelect s p layer) as [s' r].
  destruct Hs as (H1 & H2 & H3 & H4). split_and!; [done|done| |done].
  intros Hsw. destruct (H3 Hsw) as (Hk & (W1 & W2 & W3 & _) & Hdir). by split_and!.
Qed.

Lemma vp9Switch_ok s vp9 pkt :
  let cur := currentLayer s in let target := targetLayer s in
  let '(cur1, upd) := vp9Switch s vp9 pkt in
  (Temporal cur < Temporal upd -> Temporal upd = Temporal pkt /\ Temporal pkt <= Temporal target /\
     VP9_U vp9 = true /\ VP9_B vp9 = true) /\
  (Spatial cur < Spatial upd -> Spatial upd = Spatial pkt /\ Spatial pkt <= Spatial target /\
     VP9_P vp9 = false /\ VP9_B vp9 = true) /\
  (Temporal upd < Temporal cur -> Temporal upd = Temporal target /\ VP9_E vp9 = true) /\
  (Spatial upd < Spatial cur -> Spatial upd = Spatial target /\ VP9_E vp9 = true) /\
  Spatial cur1 <= Z.max (Spatial cur) (Spatial upd).
Proof.
  unfold vp9Switch. repeat (cbn [negb]; case_if); cbn [Spatial Temporal field_upd]; bool_prop;
    split_and!; intros; try lia; split_and!; try lia; done.
Qed.

(** The VP9 selector raises the temporal layer only on a packet that is a
    switching-up point at the beginning of a frame, the spatial layer only on
    the beginning of a frame that is not inter-picture predicted, in both
    cases not above the target; it lowers a layer only at the end of a frame,
    to the target; resumes only on a key frame; and forwards exactly the
    packets not above the layer in force for them. *)
Theorem vp9_switch_points s vp9 p layer :
  Payload p = PayloadVP9 vp9 ->
  let '(s', r) := VP9Select s p layer in
  let cur := currentLayer s in let cur' := currentLayer s' in
  let pkt := Layers p in let target := targetLayer s in
  (IsSwitching r = false -> s' = s) /\ (IsSwitching r = true <-> cur' <> cur) /\
  (cur' <> cur -> previousLayer s' = cur) /\
  (IsValid cur = false -> cur' <> cur -> PktIsKeyFrame p = true /\ cur' = pkt) /\
  (IsValid cur = true ->
     (Temporal cur < Temporal cur' -> Temporal cur' = Temporal pkt /\ Temporal pkt <= Temporal target /\
        VP9_U vp9 = true /\ VP9_B vp9 = true) /\
     (Spatial cur < Spatial cur' -> Spatial cur' = Spatial pkt /\ Spatial pkt <= Spatial target /\
        VP9_P vp9 = false /\ VP9_B vp9 = true) /\
     (Temporal cur' < Temporal cur -> Temporal cur' = Temporal target /\ VP9_E vp9 = true) /\
     (Spatial cur' < Spatial cur -> Spatial cur' = Spatial target /\ VP9_E vp9 = true) /\
     (IsSelected r = true -> Spatial pkt <= Z.max (Spatial cur) (Spatial cur'))).
Proof.
  intros Hp. unfold VP9Select. rewrite Hp.
  destruct (bool_decide_reflect (currentLayer s = targetLayer s)) as [E|E].
  { rewrite bool_decide_eq_true_2 by done. cbn. split_and!; try done. intros Hv. split_and!; try lia.
    unfold GreaterThan. rewrite negb_true_iff, orb_false_iff, Z.gtb_ltb. intros [H _]. lia. }
  destruct (IsValid (currentLayer s)) eqn:Hv; cbn [negb].
  2: { destruct (PktIsKeyFrame p); [|cbn; by split_and!].
    destruct (bool_decide_reflect (Layers p = currentLayer s)) as [E'|E']; cbn; split_and!; try done; by rewrite ?E'. }
  pose proof (vp9Switch_ok s vp9 (Layers p)) as Hsw.
  destruct (vp9Switch s vp9 (Layers p)) as [cur1 upd]. destruct Hsw as (H1 & H2 & H3 & H4 & H5).
  assert (Hsel : negb (GreaterThan (Layers p) cur1) = true ->
            Spatial (Layers p) <= Z.max (Spatial (currentLayer s)) (Spatial upd)).
  { unfold GreaterThan. rewrite negb_true_iff, orb_false_iff, Z.gtb_ltb. intros [H _]. apply Z.ltb_ge in H. lia. }
  destruct (bool_decide_reflect (upd = currentLayer s)) as [->|Hne]; cbn; split_and!; try done.
Qed.
End simulcast.

Definition ex_base : Base VP8Temporal :=
  NewBase <| maxLayer := mkLayer 2 3 |> <| targetLayer := mkLayer 1 2 |> <| currentLayer := mkLayer 0 1 |>.

Definition ex_vp9 (spatial temporal : Z) (vp9 : VP9Packet) (key : bool) : ExtPacket :=
  plain_packet 100 9000 false key 1000 <| Layers := mkLayer spatial temporal |> <| Payload := PayloadVP9 vp9 |>.

Lemma vp9_switch_points_witness :
  let p := ex_vp9 1 2 (mkVP9Packet false true false true) false in
  let '(s', r) := VP9Select ex_base p 0 in
  let cur := currentLayer ex_base in let cur' := currentLayer s' in
  (IsSwitching r = true <-> cur' <> cur) /\ cur' = mkLayer 1 2.
Proof.
  pose proof (vp9_switch_points ex_base _ (ex_vp9 1 2 (mkVP9Packet false true false true) false) 0 eq_refl) as H.
  cbv zeta in H |- *. revert H. cbn. intros (_ & H & _). split; [exact H|reflexivity].
Defined.

(** A VP9 stream resumes on a key frame whose first packet is not
    forwarded: the packet that makes the current layer valid is compared with
    the invalid layer of before, so it is reported as a switch and a resume
    and dropped. *)
Theorem vp9_resume_packet_dropped {T} (s : Base T) vp9 p layer :
  Payload p = PayloadVP9 vp9 -> currentLayer s = InvalidLayer -> targetLayer s <> InvalidLayer ->
  PktIsKeyFrame p = true -> 0 <= Spatial (Layers p) -> 0 <= Temporal (Layers p) ->
  let '(s', r) := VP9Select s p layer in
  currentLayer s' = Layers p /\ IsSwitching r = true /\ IsResuming r = true /\ IsSelected r = false.
Proof.
  intros Hp Hc Ht Hk Hs Htm. unfold VP9Select. rewrite Hp, Hc, bool_decide_eq_false_2 by congruence.
  change (IsValid InvalidLayer) with false. cbn [negb]. rewrite Hk.
  rewrite bool_decide_eq_false_2 by (intros E; rewrite E in Hs; cbn in Hs; unfold InvalidLayerSpatial in Hs; lia).
  assert (IsValid (Layers p) = true) as Hv.
  { unfold IsValid, InvalidLayerSpatial, InvalidLayerTemporal. lia. }
  cbn. rewrite Hv. split_and!; [done..|]. unfold GreaterThan. cbn. unfold InvalidLayerSpatial.
  rewrite (proj2 (Z.gtb_gt _ _)) by lia. done.
Qed.

Lemma vp9_resume_packet_dropped_witness :
  let s := ex_base <| currentLayer := InvalidLayer |> in
  let '(s', r) := VP9Select s (ex_vp9 0 0 (mkVP9Packet false true false false) true) 0 in
  currentLayer s' = mkLayer 0 0 /\ IsSwitching r = true /\ IsResuming r = true /\ IsSelected r = false.
Proof.
  apply (vp9_resume_packet_dropped (ex_base <| currentLayer := InvalidLayer |>)
    (mkVP9Packet false true false false) (ex_vp9 0 0 (mkVP9Packet false true false false) true) 0);
    [reflexivity|reflexivity|discriminate|reflexivity|cbn; lia|cbn; lia].
Defined.
