(* ===== verification/FrameChain.v ===== *)
(** * Frame chains, decode targets and frame numbers

    Models [src/SERVER/pkg/sfu/videolayerselector/framechain.go],
    [decodetarget.go] and [framenumberwrapper.go].  Chains are objects shared
    by the decode targets they protect and by the callbacks they leave in the
    decision cache: they live in a store, a chain is a reference, and the
    callback is the reference of its chain. *)

From S2P Require Import Prelude DdTypes Packet DecisionCache.

(** ** Chains *)

Record FrameChain := mkChain {
  broken : bool;
  chainIdx : Z;
  fc_active : bool;
  updatingActive : bool;
  expectFrames : list Z;
}.
#[export] Instance eta_FrameChain : Eta FrameChain := fun c =>
  mkChain (broken c) (chainIdx c) (fc_active c) (updatingActive c) (expectFrames c).

Definition NewFrameChain (chainIdx : Z) : FrameChain := mkChain true chainIdx false false [].

Definition Broken (fc : FrameChain) : bool := broken fc.

(** A reference and the store. *)
Abbreviation ref := Z (only parsing).
Abbreviation Store := (gmap Z FrameChain) (only parsing).

(** [fc.expectFrames[i] = fc.expectFrames[len-1]; fc.expectFrames = fc.expectFrames[:len-1]]
    at the first [i] that holds [frameNum]. *)
Fixpoint index_of (frameNum i : Z) (l : list Z) : option Z :=
  match l with
  | [] => None
  | f :: l => if f =? frameNum then Some i else index_of frameNum (i + 1) l
  end.

Definition swap_remove (i : Z) (l : list Z) : list Z :=
  match zlookup l (zlen l - 1) with
  | Some x => ztake (zlen l - 1) (zset i x l)
  | None => l
  end.

Definition OnExpectFrameChanged (frameNum : Z) (decision : selectorDecision) (fc : FrameChain) : FrameChain :=
  if broken fc then fc
  else
    match index_of frameNum 0 (expectFrames fc) with
    | None => fc
    | Some i =>
      (if negb (bool_decide (decision = selectorDecisionForwarded)) then fc <| broken := true |> else fc)
        <| expectFrames := swap_remove i (expectFrames fc) |>
    end.

(** The callback of the chain [r], as the cache calls it. *)
Definition fire (r : ref) (frameNum : Z) (decision : selectorDecision) (st : Store) : Store :=
  alter (OnExpectFrameChanged frameNum decision) r st.

Abbreviation Cache := (SelectorDecisionCache ref).

(** [fc.OnFrame] on the chain [r]; a frame of the wrong number of chains
    leaves the chain as it is. *)
Definition ChainOnFrame (r : ref) (extFrameNum : Z) (fd : FrameDependencyTemplate)
  (cst : Cache * Store) : Cache * Store * bool :=
  let '(decisions, st) := cst in
  match st !! r with
  | None => (decisions, st, false)
  | Some fc =>
    if negb (fc_active fc) then (decisions, st, false)
    else
      match zlookup (ChainDiffs fd) (chainIdx fc) with
      | None => (decisions, st, broken fc)
      | Some chainDiff =>
        if chainDiff =? 0 then
          (decisions, <[r := fc <| broken := false |> <| expectFrames := [] |>]> st, true)
        else if broken fc then (decisions, st, false)
        else
          let prevFrameInChain := u64 (extFrameNum - u64 chainDiff) in
          let sd := fst (GetDecision decisions prevFrameInChain) in
          match sd with
          | selectorDecisionForwarded => (decisions, st, true)
          | selectorDecisionUnknown =>
            let '(decisions, ok) := ExpectDecision prevFrameInChain r decisions in
            if ok then
              (decisions, <[r := fc <| expectFrames := expectFrames fc ++ [prevFrameInChain] |>]> st, true)
            else (decisions, <[r := fc <| broken := true |>]> st, false)
          | _ => (decisions, <[r := fc <| broken := true |>]> st, false)
          end
      end
  end.

Definition BeginUpdateActive (fc : FrameChain) : FrameChain := fc <| updatingActive := false |>.

Definition UpdateChainActive (active : bool) (fc : FrameChain) : FrameChain :=
  fc <| updatingActive := updatingActive fc || active |>.

Definition EndUpdateActive (fc : FrameChain) : FrameChain :=
  let active := updatingActive fc in
  let fc := fc <| updatingActive := false |> in
  if Bool.eqb active (fc_active fc) then fc
  else
    let fc := if negb (fc_active fc) then fc <| broken := true |> else fc in
    fc <| fc_active := active |>.

(** ** Decode targets *)

Record DecodeTarget := mkDecodeTarget {
  dt_target : DecodeTargetLayer;
  dt_chain : option ref;
  dt_active : bool;
}.
#[export] Instance eta_DecodeTarget : Eta DecodeTarget := fun dt =>
  mkDecodeTarget (dt_target dt) (dt_chain dt) (dt_active dt).

Definition NewDecodeTarget (target : DecodeTargetLayer) (chain : option ref) : DecodeTarget :=
  mkDecodeTarget target chain false.

(** [dt.chain == nil || !dt.chain.Broken()] *)
Definition Valid (st : Store) (dt : DecodeTarget) : bool :=
  match dt_chain dt with
  | None => true
  | Some r => match st !! r with Some fc => negb (Broken fc) | None => false end
  end.

Definition UpdateActive (activeBitmask : Z) (dt : DecodeTarget) (st : Store) : DecodeTarget * Store :=
  let active := negb (Z.land activeBitmask (u32 (Z.shiftl 1 (Target (dt_target dt)))) =? 0) in
  (dt <| dt_active := active |>,
   match dt_chain dt with
   | None => st
   | Some r => alter (UpdateChainActive active) r st
   end).

(** The indication of the target and whether the target is valid; [None] when
    the frame has no indication for it. *)
Definition TargetOnFrame (st : Store) (dt : DecodeTarget) (fd : FrameDependencyTemplate)
  : option (DecodeTargetIndication * bool) :=
  match zlookup (elems (DecodeTargetIndications fd)) (Target (dt_target dt)) with
  | None => None
  | Some dti => Some (dti, Valid st dt)
  end.

(** ** Frame numbers *)

Record FrameNumberWrapper := mkWrapper {
  fn_offset : Z;
  fn_last : Z;
  fn_inited : bool;
}.
#[export] Instance eta_FrameNumberWrapper : Eta FrameNumberWrapper := fun f =>
  mkWrapper (fn_offset f) (fn_last f) (fn_inited f).

Definition newFrameNumberWrapper : FrameNumberWrapper := mkWrapper 0 0 false.

Definition UpdateAndGetFn (new : Z) (updateOffset : bool) (f : FrameNumberWrapper) : FrameNumberWrapper * Z :=
  if negb (fn_inited f) then (f <| fn_last := new |> <| fn_inited := true |>, new)
  else if new <=? fn_last f then (f, u64 (new + fn_offset f))
  else
    let offset :=
      if updateOffset then
        let new16 := u16 (u64 (new + fn_offset f)) in
        let last16 := u16 (u64 (fn_last f + fn_offset f)) in
        let diff := u16 (new16 - last16) in
        if (diff >? 0x8000) || ((diff =? 0x8000) && (new16 <? last16))
        then u64 (fn_offset f + u16 (u16 (65535 - diff) + 6000))
        else fn_offset f
      else fn_offset f in
    (f <| fn_offset := offset |> <| fn_last := new |>, u64 (new + offset)).

Definition LastOrigin (f : FrameNumberWrapper) : Z := fn_last f.

(** ** Properties *)

Lemma u16_u64 x : u16 (u64 x) = x mod 65536.
Proof.
  unfold u16, u64. change 18446744073709551616 with (65536 * 281474976710656).
  rewrite Z.rem_mul_r, Z.mul_comm, Z.mod_add by lia. apply Z.mod_mod. lia.
Qed.

(** When a new structure moves the frame number on, the 16-bit number sent
    is ahead of the last one by less than half the range, except when the
    source jumped by a multiple of 65536; without a new structure the source's
    advance is kept; and the extended number sent never goes back. *)
Theorem UpdateAndGetFn_ahead f new updateOffset :
  fn_inited f = true -> 0 <= fn_last f < new -> new < 2 ^ 62 -> 0 <= fn_offset f < 2 ^ 62 ->
  let lastOut := u64 (fn_last f + fn_offset f) in
  let '(f', out) := UpdateAndGetFn new updateOffset f in
  fn_last f' = new /\ out = u64 (new + fn_offset f') /\ lastOut < out /\
  (updateOffset = false -> out - lastOut = new - fn_last f) /\
  (updateOffset = true -> (new - fn_last f) mod 65536 <> 0 -> 0 < u16 (u16 out - u16 lastOut) <= 0x8000).
Proof.
  intros Hi Hl Hn Ho. change (2 ^ 62) with 4611686018427387904 in *. cbv zeta. unfold UpdateAndGetFn. rewrite Hi. cbn [negb].
  rewrite (proj2 (Z.leb_gt _ _)) by lia. cbv zeta. rewrite !u16_u64.
  set (a := (fn_last f + fn_offset f) mod 65536). set (b := (new + fn_offset f) mod 65536).
  assert (Hab : u16 (b - a) = (new - fn_last f) mod 65536).
  { unfold u16, a, b. rewrite <- Zminus_mod. f_equal. lia. }
  assert (0 <= a < 65536) by (apply Z.mod_pos_bound; lia). assert (0 <= b < 65536) by (apply Z.mod_pos_bound; lia).
  rewrite Hab. set (diff := (new - fn_last f) mod 65536) in *.
  assert (Hd : 0 <= diff < 65536) by (apply Z.mod_pos_bound; lia).
  rewrite Z.gtb_ltb. cbn [fn_last fn_offset field_upd].
  assert (Hkeep : forall off, fn_offset f <= off < 2 ^ 63 -> u64 (fn_last f + fn_offset f) < u64 (new + off)).
  { intros off Hoff. change (2 ^ 63) with 9223372036854775808 in Hoff. rewrite !u64_small by lia. lia. }
  destruct updateOffset.
  - destruct ((0x8000 <? diff) || ((diff =? 0x8000) && (b <? a))) eqn:Ew.
    + assert (0x8000 <= diff) by lia. assert (u16 (u16 (65535 - diff) + 6000) = 65535 - diff + 6000) as ->
        by (rewrite (u16_small (65535 - diff)), u16_small by lia; lia).
      rewrite (u64_small (fn_offset f + _)) by lia. split_and!; try done.
      * apply Hkeep. change (2 ^ 63) with 9223372036854775808. lia.
      * intros _ _. rewrite ?u16_u64. unfold u16, a. rewrite <- Zminus_mod.
        replace (new + (fn_offset f + (65535 - diff + 6000)) - (fn_last f + fn_offset f))
          with ((new - fn_last f) - diff + 71535) by lia.
        assert ((new - fn_last f - diff + 71535) mod 65536 = 5999) as ->; [|lia].
        unfold diff. dlia.
    + split_and!; try done; [apply Hkeep; change (2 ^ 63) with 9223372036854775808; lia|].
      intros _ Hne. rewrite ?u16_u64. fold b. rewrite Hab.
      apply orb_false_iff in Ew as [E1 E2]. lia.
  - split_and!; try done; [apply Hkeep; change (2 ^ 63) with 9223372036854775808; lia|].
    intros _. rewrite !u64_small by lia. lia.
Qed.

Lemma UpdateAndGetFn_ahead_witness :
  let f := mkWrapper 0 40000 true in
  let '(f', out) := UpdateAndGetFn 75536 true f in
  fn_last f' = 75536 /\ out = u64 (75536 + fn_offset f') /\ 40000 < out /\
  0 < u16 (u16 out - u16 40000) <= 0x8000.
Proof.
  pose proof (UpdateAndGetFn_ahead (mkWrapper 0 40000 true) 75536 true eq_refl ltac:(cbn; lia) ltac:(lia)
    ltac:(cbn; lia)) as H.
  cbv zeta in H |- *. destruct (UpdateAndGetFn 75536 true (mkWrapper 0 40000 true)) as [f' out].
  destruct H as (H1 & H2 & H3 & _ & H5). split; [exact H1|]. split; [exact H2|]. split; [exact H3|].
  apply H5; [reflexivity|vm_compute; discriminate].
Defined.

(** A new structure whose frame is a multiple of 65536 ahead is not seen
    as a wrap around: it is sent with the 16-bit number of the last frame. *)
Theorem new_structure_repeats_frame_number :
  let f := mkWrapper 0 100 true in
  u16 (snd (UpdateAndGetFn (100 + 65536) true f)) = u16 (snd (UpdateAndGetFn 100 false f)).
Proof. reflexivity. Qed.

(** ** Chains and the callbacks they wait for *)

(** The chains waiting for a frame. *)
Definition waiting (m : gmap Z (list ref)) (x : Z) : list ref := default [] (m !! x).

(** Unless it is broken, the chain [r] has a callback in the cache for every
    frame it expects. *)
Definition backed (r : ref) (m : gmap Z (list ref)) (st : Store) : Prop :=
  forall fc, st !! r = Some fc -> broken fc = false ->
  forall x, (count_occ Z.eq_dec (expectFrames fc) x <= count_occ Z.eq_dec (waiting m x) r)%nat.

Lemma index_of_split f i l j : index_of f i l = Some j ->
  exists k, j = i + Z.of_nat k /\ l !! k = Some f.
Proof.
  revert i. induction l as [|x l IH]; intros i; cbn [index_of]; [done|].
  destruct (Z.eqb_spec x f) as [->|_].
  - intros [= <-]. exists O. split; [lia|done].
  - intros H. destruct (IH _ H) as (k & -> & Hk). exists (Datatypes.S k). split; [lia|done].
Qed.

Lemma index_of_none f i l : index_of f i l = None -> count_occ Z.eq_dec l f = O.
Proof.
  revert i. induction l as [|x l IH]; intros i; cbn [index_of]; [done|].
  destruct (Z.eqb_spec x f) as [->|Hne]; [done|]. intros H. cbn. destruct (Z.eq_dec x f); [done|by eapply IH].
Qed.

Lemma swap_remove_snoc l y k : (k <= length l)%nat ->
  swap_remove (Z.of_nat k) (l ++ [y]) = if decide (k < length l)%nat then <[k:=y]> l else l.
Proof.
  intros Hk. unfold swap_remove, zlookup, ztake, zset, zlen. rewrite length_app. cbn [length].
  rewrite (proj2 (Z.leb_le _ _)) by lia. replace (Z.to_nat (Z.of_nat (length l + 1) - 1)) with (length l) by lia.
  rewrite lookup_app_r, Nat.sub_diag by lia. cbn [lookup list_lookup]. rewrite Nat2Z.id.
  case_decide.
  - rewrite insert_app_l by done. by rewrite take_app_length' by (by rewrite length_insert).
  - replace k with (length l + 0)%nat by lia. rewrite insert_app_r. by rewrite take_app_length.
Qed.

Lemma swap_remove_perm l k x : l !! k = Some x -> x :: swap_remove (Z.of_nat k) l ≡ₚ l.
Proof.
  destruct l as [|y l _] using rev_ind; [done|]. intros Hk. pose proof (lookup_lt_Some _ _ _ Hk) as Hlt.
  rewrite length_app in Hlt. cbn in Hlt. rewrite swap_remove_snoc by lia. case_decide as Hd.
  - rewrite lookup_app_l in Hk by done. rewrite <- (take_drop_middle _ _ _ Hk) at 2.
    rewrite insert_take_drop by done. rewrite <- app_assoc, <- Permutation_middle. cbn [app].
    rewrite <- Permutation_middle. apply perm_skip. rewrite app_assoc. apply Permutation_cons_append.
  - assert (k = length l) as -> by lia. rewrite lookup_app_r, Nat.sub_diag in Hk by lia.
    injection Hk as ->. apply Permutation_cons_append.
Qed.

(** One callback of the frame [e]: it uses up one expectation or breaks the chain. *)
Lemma OnExpect_count e sd fc x : broken (OnExpectFrameChanged e sd fc) = false ->
  broken fc = false /\
  count_occ Z.eq_dec (expectFrames (OnExpectFrameChanged e sd fc)) x =
  (count_occ Z.eq_dec (expectFrames fc) x - if Z.eq_dec e x then 1 else 0)%nat.
Proof.
  unfold OnExpectFrameChanged. destruct (broken fc) eqn:Hb; [by rewrite Hb|].
  destruct (index_of e 0 (expectFrames fc)) as [i|] eqn:Ei.
  - destruct (index_of_split _ _ _ _ Ei) as (k & -> & Hk). rewrite Z.add_0_l. intros H. split; [done|].
    pose proof (swap_remove_perm _ _ _ Hk) as Hp. apply (Permutation_count_occ Z.eq_dec) with (x := x) in Hp.
    cbn in Hp. destruct (bool_decide _); cbn [negb] in *; cbn in H |- *; [|done].
    destruct (Z.eq_dec e x); lia.
  - intros _. split; [done|]. apply index_of_none in Ei. destruct (Z.eq_dec e x) as [->|]; [rewrite Ei|]; lia.
Qed.

Lemma fire_all_lookup fns e sd st r :
  fire_all fire fns e sd st !! r = Nat.iter (count_occ Z.eq_dec fns r) (OnExpectFrameChanged e sd) <$> st !! r.
Proof.
  unfold fire_all. revert st. induction fns as [|f fns IH]; intros st; cbn [foldl count_occ].
  { by destruct (st !! r). }
  rewrite IH. unfold fire. destruct (Z.eq_dec f r) as [->|Hne].
  - rewrite lookup_alter_eq. destruct (st !! r) as [fc|]; [|done]. cbn. f_equal.
    by rewrite <- Nat.iter_succ_r.
  - by rewrite lookup_alter_ne.
Qed.

Lemma iter_OnExpect n e sd fc x : broken (Nat.iter n (OnExpectFrameChanged e sd) fc) = false ->
  broken fc = false /\
  count_occ Z.eq_dec (expectFrames (Nat.iter n (OnExpectFrameChanged e sd) fc)) x =
  (count_occ Z.eq_dec (expectFrames fc) x - if Z.eq_dec e x then n else 0)%nat.
Proof.
  induction n as [|n IH]; cbn [Nat.iter nat_rect].
  - intros H. split; [done|]. destruct (Z.eq_dec e x); lia.
  - intros H. destruct (OnExpect_count _ _ _ x H) as [H1 H2]. destruct (IH H1) as [H3 H4]. split; [done|].
    change (nat_rect _ fc _ n) with (Nat.iter n (OnExpectFrameChanged e sd) fc) in *. rewrite H2, H4.
    destruct (Z.eq_dec e x); lia.
Qed.

(** Firing the callbacks of a frame and forgetting them keeps chains backed. *)
Lemma fire_backed r m st e sd fns : backed r m st -> m !! e = Some fns ->
  backed r (delete e m) (fire_all fire fns e sd st).
Proof.
  intros Hb Hm fc Hr Hbr x. rewrite fire_all_lookup in Hr.
  destruct (st !! r) as [fc0|] eqn:E0; [|done]. injection Hr as <-.
  destruct (iter_OnExpect _ _ _ _ x Hbr) as [Hbr0 ->]. specialize (Hb fc0 E0 Hbr0 x).
  unfold waiting in *. destruct (Z.eq_dec e x) as [->|Hne].
  - rewrite Hm in Hb. cbn [from_option] in Hb. change (id fns) with fns in Hb. lia.
  - rewrite lookup_delete_ne by done. lia.
Qed.

Lemma setEntity_backed r e sd s st : backed r (onExpectEntityChanged s) st ->
  let '(s', st') := setEntity fire e sd (s, st) in backed r (onExpectEntityChanged s') st'.
Proof.
  intros Hb. unfold setEntity. destruct (getPos s e) as [i p]. cbv zeta.
  destruct (negb _); [|done]. cbn [onExpectEntityChanged field_upd].
  destruct (onExpectEntityChanged s !! e) as [fns|] eqn:E; [|done]. by apply fire_backed.
Qed.

Lemma setEntity_frame_eq e sd (s : Cache) (st : Store) : frame_eq s (fst (setEntity fire e sd (s, st))).
Proof.
  unfold setEntity. destruct (getPos s e) as [i p]. cbv zeta. destruct (negb _); [|by split_and!].
  destruct (onExpectEntityChanged _ !! e); by split_and!.
Qed.

(** The property of a cache and a store that the loops keep. *)
Definition backed_pair (r : ref) (cst : Cache * Store) : Prop := backed r (onExpectEntityChanged (fst cst)) (snd cst).

Lemma setEntity_backed_pair r e sd cst : backed_pair r cst -> backed_pair r (setEntity fire e sd cst).
Proof.
  destruct cst as [s st]. intros Hb. pose proof (setEntity_backed r e sd s st Hb) as H. unfold backed_pair.
  by destruct (setEntity fire e sd (s, st)).
Qed.

Lemma for_range_backed r (f : Z -> Cache * Store -> Cache * Store) n : 
  (forall e cst, backed_pair r cst -> backed_pair r (f e cst)) ->
  forall e cst, backed_pair r cst -> backed_pair r (for_range f n e cst).
Proof. intros Hf. induction n as [|n IH]; intros e cst Hb; cbn [for_range]; [done|]. by apply IH, Hf. Qed.

(** The callbacks of the expired frames: those not yet visited still wait. *)
Lemma expire_loop_backed r (s : Cache) l : NoDup l.*1 -> forall m st,
  (forall k fns, (k, fns) ∈ l -> m !! k = Some fns) -> backed r m st ->
  backed r (filter (fun kv => ~ (is_expired s kv.1 = true /\ kv.1 ∈ l.*1)) m)
    (foldl (fun st kv => if is_expired s kv.1 then fire_all fire kv.2 kv.1 selectorDecisionMissing st else st) st l).
Proof.
  induction l as [|[k fns] l IH]; cbn [fmap list_fmap foldl fst snd]; intros Hnd m st Hm Hb.
  { rewrite map_filter_id; [done|]. intros i x _ [_ H]. by apply not_elem_of_nil in H. }
  apply NoDup_cons in Hnd as [Hk Hnd]. destruct (is_expired s k) eqn:Ex.
  - assert (backed r (delete k m) (fire_all fire fns k selectorDecisionMissing st)) as Hb1
      by (apply fire_backed; [done|]; apply Hm; left).
    specialize (IH Hnd (delete k m) _ ltac:(intros k' fns' Hin; rewrite lookup_delete_ne;
      [apply Hm; by right|intros ->; apply Hk; by apply (list_elem_of_fmap_2' fst _ (k', fns'))]) Hb1).
    revert IH. match goal with |- backed _ ?a ?b -> backed _ ?c ?b => assert (c = a) as ->; [|done] end.
    apply map_eq. intros i. apply option_eq. intros v. rewrite !map_lookup_filter_Some. cbn [fst].
    rewrite lookup_delete_Some, elem_of_cons. naive_solver.
  - specialize (IH Hnd m st ltac:(intros k' fns' Hin; apply Hm; by right) Hb).
    revert IH. match goal with |- backed _ ?a ?b -> backed _ ?c ?b => assert (c = a) as ->; [|done] end.
    apply map_filter_ext. intros i v _. cbn [fst]. rewrite elem_of_cons.
    split; [intros Hn [Hx Hi]; apply Hn; auto|intros Hn [Hx [->|Hi]]; [congruence|by apply Hn]].
Qed.

Lemma expire_backed r cst : backed_pair r cst -> backed_pair r (expire fire cst).
Proof.
  destruct cst as [s st]. intros Hb. unfold backed_pair, expire. cbn [fst snd onExpectEntityChanged field_upd].
  pose proof (expire_loop_backed r s (map_to_list (onExpectEntityChanged s)) (NoDup_fst_map_to_list _)
    (onExpectEntityChanged s) st ltac:(intros k fns Hk; by apply elem_of_map_to_list) Hb) as H.
  revert H. match goal with |- backed _ ?a ?b -> backed _ ?c ?b => assert (c = a) as ->; [|done] end.
  apply map_filter_ext. intros i v Hi. cbn [fst]. rewrite <- not_true_iff_false.
  assert (i ∈ (map_to_list (onExpectEntityChanged s)).*1) by
    (apply (list_elem_of_fmap_2' fst _ (i, v)); [by apply elem_of_map_to_list|done]). tauto.
Qed.

Lemma addEntity_backed r e sd cst : backed_pair r cst -> backed_pair r (addEntity fire e sd cst).
Proof.
  destruct cst as [s st]. intros Hb. unfold addEntity. destruct (negb (initialized s)).
  { by apply setEntity_backed_pair. }
  destruct (e <=? base s); [done|]. destruct (e <=? last s); [by apply setEntity_backed_pair|]. cbv zeta.
  set (sst := if missingBound s e >? missingBound s (last s) then _ else _).
  assert (backed_pair r sst) as H1.
  { assert (backed_pair r (for_range (fun e => setEntity fire e selectorDecisionUnknown)
      (Z.to_nat (e - (last s + 1))) (last s + 1) (s, st))) as H0
      by (apply for_range_backed; [intros; by apply setEntity_backed_pair|done]).
    unfold sst. destruct (_ >? _); [|exact H0]. apply for_range_backed; [|exact H0].
    intros e' cst' H. unfold setEntityIfUnknown. destruct (bool_decide _); [by apply setEntity_backed_pair|done]. }
  clearbody sst. apply (setEntity_backed_pair r e sd) in H1. destruct (setEntity fire e sd sst) as [s2 st2].
  by apply expire_backed.
Qed.

(** ** What the callbacks keep *)

Section store_property.
Variable P : Store -> Prop.

Lemma fire_all_keeps fns e sd st : (forall r st, P st -> P (fire r e sd st)) -> P st -> P (fire_all fire fns e sd st).
Proof. intros Hf. unfold fire_all. revert st. induction fns as [|f fns IH]; intros st Hst; [done|]. by apply IH, Hf. Qed.

Lemma setEntity_keeps e sd cst : (forall r st, P st -> P (fire r e sd st)) ->
  P (snd cst) -> P (snd (setEntity fire e sd cst)).
Proof.
  intros Hf Hst. destruct cst as [s st]. unfold setEntity. destruct (getPos s e) as [i p]. cbv zeta.
  destruct (negb _); [|done]. destruct (_ !! e); [by apply fire_all_keeps|done].
Qed.

Lemma addEntity_keeps e sd cst : (forall r st, P st -> P (fire r e sd st)) ->
  (forall e r st, P st -> P (fire r e selectorDecisionMissing st)) ->
  (forall e r st, P st -> P (fire r e selectorDecisionUnknown st)) ->
  P (snd cst) -> P (snd (addEntity fire e sd cst)).
Proof.
  intros Hf Hm Hu Hst. destruct cst as [s st]. unfold addEntity. destruct (negb (initialized s)).
  { by apply setEntity_keeps. }
  destruct (e <=? base s); [done|]. destruct (e <=? last s); [by apply setEntity_keeps|]. cbv zeta.
  set (sst := if missingBound s e >? missingBound s (last s) then _ else _).
  assert (Hloop : forall (f : Z -> Cache * Store -> Cache * Store) n, (forall e cst, P (snd cst) -> P (snd (f e cst))) ->
    forall e cst, P (snd cst) -> P (snd (for_range f n e cst))).
  { intros f n Hfe. induction n as [|n IH]; intros e' cst' H; cbn [for_range]; [done|]. by apply IH, Hfe. }
  assert (P (snd sst)) as H1.
  { unfold sst. destruct (_ >? _).
    - apply Hloop; [|apply Hloop; [|done]]; intros e' cst' H'; [|apply setEntity_keeps; [apply Hu|done]].
      unfold setEntityIfUnknown. destruct (bool_decide _); [|done]. apply setEntity_keeps; [apply Hm|done].
    - apply Hloop; [|done]. intros e' cst' H'. apply setEntity_keeps; [apply Hu|done]. }
  clearbody sst. apply (setEntity_keeps e sd) in H1; [|done]. destruct (setEntity fire e sd sst) as [s2 st2].
  unfold expire. cbn [snd] in *. revert H1. generalize st2. induction (map_to_list _) as [|[k fns] l IH]; [done|].
  intros st' H'. cbn [foldl fst snd]. apply IH. destruct (is_expired _ _); [|done].
  apply fire_all_keeps; [apply Hm|done].
Qed.
End store_property.

(** The chain [r] is broken or waits for the frame [x]. *)
Definition expects (r : ref) (x : Z) (st : Store) : Prop :=
  exists fc, st !! r = Some fc /\ (broken fc = true \/ x ∈ expectFrames fc).

Lemma fire_expects r x r' e sd st : e <> x \/ sd <> selectorDecisionForwarded ->
  expects r x st -> expects r x (fire r' e sd st).
Proof.
  intros Hsd (fc & Hr & Hx). unfold fire, expects. destruct (decide (r' = r)) as [->|Hne].
  2: { rewrite lookup_alter_ne by done. eauto. }
  rewrite lookup_alter_eq, Hr. eexists. split; [reflexivity|]. unfold OnExpectFrameChanged.
  destruct (broken fc) eqn:Hb; [by left|]. destruct Hx as [|Hx]; [done|].
  destruct (index_of e 0 (expectFrames fc)) as [i|] eqn:Ei; [|by right].
  destruct (index_of_split _ _ _ _ Ei) as (k & -> & Hk). rewrite Z.add_0_l.
  destruct (bool_decide_reflect (sd = selectorDecisionForwarded)) as [->|_]; [|by left]. right.
  destruct Hsd as [Hne|]; [|done]. cbn [negb expectFrames field_upd].
  rewrite <- (swap_remove_perm _ _ _ Hk) in Hx. apply elem_of_cons in Hx as [->|]; done.
Qed.

Lemma setEntity_waiting x sd (s : Cache) st : sd <> selectorDecisionUnknown ->
  waiting (onExpectEntityChanged (fst (setEntity fire x sd (s, st)))) x = [].
Proof.
  intros Hsd. unfold setEntity, waiting. destruct (getPos s x) as [i p]. cbv zeta.
  rewrite bool_decide_eq_false_2 by done. cbn [negb]. cbn [onExpectEntityChanged field_upd].
  destruct (onExpectEntityChanged s !! x) as [fns|] eqn:Ex; cbn [fst onExpectEntityChanged field_upd].
  - by rewrite lookup_delete_eq.
  - by rewrite Ex.
Qed.

Lemma addEntity_waiting x sd (s : Cache) st : sd <> selectorDecisionUnknown -> base s < x \/ initialized s = false ->
  waiting (onExpectEntityChanged (fst (addEntity fire x sd (s, st)))) x = [].
Proof.
  intros Hsd Hx. unfold addEntity. destruct (initialized s) eqn:Hi; cbn [negb].
  2: { by apply setEntity_waiting. }
  destruct (Z.leb_spec x (base s)); [destruct Hx; [lia|done]|].
  destruct (x <=? last s); [by apply setEntity_waiting|]. cbv zeta.
  set (sst := if missingBound s x >? missingBound s (last s) then _ else _). destruct sst as [s1 st1].
  pose proof (setEntity_waiting x sd s1 st1 Hsd) as H1.
  destruct (setEntity fire x sd (s1, st1)) as [s2 st2]. unfold expire, waiting in *. cbn [fst onExpectEntityChanged field_upd] in *.
  destruct (filter _ _ !! x) as [v|] eqn:Ev; [|done]. apply map_lookup_filter_Some in Ev as [Ev _].
  by rewrite Ev in H1.
Qed.

(** Dropping a frame that an unbroken chain waits for breaks the chain. *)
Lemma addEntity_breaks r x (s : Cache) st : backed r (onExpectEntityChanged s) st -> expects r x st ->
  base s < x \/ initialized s = false ->
  exists fc, snd (addEntity fire x selectorDecisionDropped (s, st)) !! r = Some fc /\ broken fc = true.
Proof.
  intros Hb He Hx. pose proof (addEntity_backed r x selectorDecisionDropped (s, st) Hb) as Hb'.
  pose proof (addEntity_waiting x selectorDecisionDropped s st ltac:(done) Hx) as Hw.
  pose proof (addEntity_keeps (expects r x) x selectorDecisionDropped (s, st)
    ltac:(intros; apply fire_expects; [by right|done]) ltac:(intros; apply fire_expects; [by right|done])
    ltac:(intros; apply fire_expects; [by right|done]) He) as (fc & Hr & Hfc).
  exists fc. split; [done|]. destruct (broken fc) eqn:Hbr; [done|]. destruct Hfc as [|Hfc]; [done|].
  specialize (Hb' fc Hr Hbr x). cbv beta in Hb'. rewrite Hw in Hb'. cbn in Hb'.
  apply list_elem_of_In, (count_occ_In Z.eq_dec) in Hfc. lia.
Qed.

(** ** Chains of a frame *)

Lemma ExpectDecision_waiting x r (s : Cache) y : 
  let '(s', ok) := ExpectDecision x r s in
  waiting (onExpectEntityChanged s') y =
    waiting (onExpectEntityChanged s) y ++ (if ok && (x =? y) then [r] else []).
Proof.
  unfold ExpectDecision. destruct (_ || _); [by rewrite app_nil_r|]. destruct (_ && _); [by rewrite app_nil_r|].
  cbn [onExpectEntityChanged field_upd andb]. unfold waiting. destruct (Z.eqb_spec x y) as [->|Hne].
  - by rewrite lookup_insert_eq.
  - by rewrite lookup_insert_ne, app_nil_r.
Qed.

(** [OnFrame] on a chain: the other chains are untouched, and it stays backed. *)
Lemma ChainOnFrame_backed r n fd (cst : Cache * Store) r' : backed_pair r' cst ->
  backed_pair r' (fst (ChainOnFrame r n fd cst)).
Proof.
  destruct cst as [s st]. unfold backed_pair. cbn [fst snd]. intros Hb. unfold ChainOnFrame.
  assert (Hset : forall fc', (broken fc' = false -> expectFrames fc' = []) ->
    backed r' (onExpectEntityChanged s) (<[r := fc']> st)).
  { intros fc' Hfc fc Hr Hbr x. destruct (decide (r = r')) as [->|Hne].
    - rewrite lookup_insert_eq in Hr. injection Hr as <-. rewrite Hfc by done. cbn. lia.
    - rewrite lookup_insert_ne in Hr by done. by apply Hb. }
  destruct (st !! r) as [fc|] eqn:Er; [|done]. destruct (negb (fc_active fc)); [done|].
  destruct (zlookup _ _) as [chainDiff|]; [|done]. destruct (chainDiff =? 0); [by apply Hset|].
  destruct (broken fc) eqn:Hbr; [done|]. cbv zeta. set (prev := u64 _).
  destruct (fst (GetDecision s prev)); try (by apply Hset).
  { done. }
  pose proof (ExpectDecision_waiting prev r s) as He. destruct (ExpectDecision prev r s) as [s' ok] eqn:Eed.
  destruct ok; cbn [fst snd]; intros fc' Hr Hbr' x; rewrite He; cbn [andb].
  - rewrite count_occ_app. destruct (decide (r = r')) as [<-|Hne].
    + rewrite lookup_insert_eq in Hr. injection Hr as <-. cbn [expectFrames field_upd]. rewrite count_occ_app.
      specialize (Hb fc Er Hbr x). cbn [count_occ]. destruct (Z.eq_dec prev x), (Z.eqb_spec prev x); try done; cbn [count_occ];
        destruct (Z.eq_dec r r); try done; lia.
    + rewrite lookup_insert_ne in Hr by done. specialize (Hb fc' Hr Hbr' x). lia.
  - rewrite app_nil_r. by apply (Hset (fc <| broken := true |>)).
Qed.
