(* ===== verification/DdParser.v ===== *)
(** * The dependency descriptor parser

    Models [src/SERVER/pkg/sfu/buffer/dependencydescriptorparser.go]: the
    decode targets of a structure, and the parser that turns the extension of
    each packet into the descriptor the selector works on.  The unwrapping of
    16-bit numbers is a third-party component ([utils.WrapAround]) and a
    parameter here, and so is the order [sort.Slice] gives equal layers. *)

From stdpp Require Import sorting.
From S2P Require Import Prelude DdTypes Packet DdBits DdReader DdCodec DdSafe FrameIntegrity.

(** ** Decode targets of a structure *)

Section targets.
Variable sort_targets : list DecodeTargetLayer -> list DecodeTargetLayer.

(** The inner loop of [ProcessFrameDependencyStructure]; an indication out of
    range panics. *)
Definition widen (target : Z) (layer : VideoLayer) (t : FrameDependencyTemplate) : res dd_error VideoLayer :=
  match zlookup (elems (DecodeTargetIndications t)) target with
  | None => Err panicIndex
  | Some dti =>
    Ok (if negb (bool_decide (dti = DecodeTargetNotPresent)) then
          mkLayer (if Spatial layer <? i32 (SpatialId t) then i32 (SpatialId t) else Spatial layer)
                  (if Temporal layer <? i32 (TemporalId t) then i32 (TemporalId t) else Temporal layer)
        else layer)
  end.

Fixpoint widen_all (target : Z) (layer : VideoLayer) (l : list FrameDependencyTemplate) : res dd_error VideoLayer :=
  match l with
  | [] => Ok layer
  | t :: l => let! layer := widen target layer t in widen_all target layer l
  end.

Fixpoint layers_of (l : list FrameDependencyTemplate) (targets : list Z) : res dd_error (list DecodeTargetLayer) :=
  match targets with
  | [] => Ok []
  | target :: targets =>
    let! layer := widen_all target (mkLayer 0 0) l in
    let! rest := layers_of l targets in
    Ok (mkDecodeTargetLayer target layer :: rest)
  end.

Definition ProcessFrameDependencyStructure (structure : FrameDependencyStructure)
  : res dd_error (list DecodeTargetLayer) :=
  let! decodeTargets := layers_of (Templates structure) (zseq (Z.to_nat (NumDecodeTargets structure))) in
  Ok (sort_targets decodeTargets).

(** [1 << dt.Target] in a [uint32] *)
Definition target_bit (dt : DecodeTargetLayer) : Z := u32 (Z.shiftl 1 (Target dt)).

Definition GetActiveDecodeTargetBitmask (layer : VideoLayer) (decodeTargets : list DecodeTargetLayer) : Z :=
  foldl (fun activeBitMask dt =>
    if (Spatial (Layer dt) <=? Spatial layer) && (Temporal (Layer dt) <=? Temporal layer)
    then Z.lor activeBitMask (target_bit dt) else activeBitMask) 0 decodeTargets.

Definition ExtractDependencyDescriptorVideoSize (d : DependencyDescriptor) : slice (Z * Z) :=
  match AttachedStructure d with
  | None => None
  | Some st => Some ((fun r => (u32 (Width r), u32 (Height r))) <$> Resolutions st)
  end.

(** ** The parser *)

Inductive parse_error :=
| ErrFrameEarlierThanKeyFrame
| ErrDDStructureAttachedToNonFirstPacket
| ErrDDExtentionNotFound
| ErrReader (e : dd_error).

(** [utils.WrapAround[uint16, uint64]]: the extended value of a number; the
    frame numbers are told when the order is known. *)
Context {WA : Type} (seqUpdate : Z -> WA -> WA * Z) (frameUpdate : Z -> bool -> WA -> WA * Z).

Record DependencyDescriptorParser := mkParser {
  p_structure : option FrameDependencyStructure;
  p_decodeTargets : list DecodeTargetLayer;
  seqWrapAround : WA;
  frameWrapAround : WA;
  structureExtFrameNum : Z;
  activeDecodeTargetsExtSeq : Z;
  activeDecodeTargetsMask : Z;
  frameChecker : FrameIntegrityChecker;
  ddNotFoundCount : Z;
  p_restartGeneration : Z;
  enableRestart : bool;
  lastPacketAt : option Z;               (** nanoseconds; [None] is the zero time *)
  maxLayerChanges : list (Z * Z);        (** the calls of [onMaxLayerChanged] *)
}.
#[global] Instance eta_parser : Eta DependencyDescriptorParser := fun r =>
  mkParser (p_structure r) (p_decodeTargets r) (seqWrapAround r) (frameWrapAround r)
    (structureExtFrameNum r) (activeDecodeTargetsExtSeq r) (activeDecodeTargetsMask r) (frameChecker r)
    (ddNotFoundCount r) (p_restartGeneration r) (enableRestart r) (lastPacketAt r) (maxLayerChanges r).

Definition ddRestartThreshold : Z := 30 * 1000000000.
Definition integrityCheckFrame : Z := 180.
Definition integrityCheckPkt : Z := 1024.

Definition NewDependencyDescriptorParser (wa : WA) (enableRestart : bool) : DependencyDescriptorParser :=
  mkParser None [] wa wa 0 0 0 (NewFrameIntegrityChecker integrityCheckFrame integrityCheckPkt)
    0 0 enableRestart None [].

(** [r.restart()] *)
Definition restartParser (r : DependencyDescriptorParser) : DependencyDescriptorParser :=
  r <| frameChecker := NewFrameIntegrityChecker integrityCheckFrame integrityCheckPkt |>
    <| p_structure := None |> <| structureExtFrameNum := 0 |> <| activeDecodeTargetsExtSeq := 0 |>
    <| activeDecodeTargetsMask := 0 |> <| p_decodeTargets := [] |>
    <| p_restartGeneration := p_restartGeneration r + 1 |>.

(** The restart check; the flag says that the stream restarted. *)
Definition checkRestart (now : Z) (r : DependencyDescriptorParser) : DependencyDescriptorParser * bool :=
  if enableRestart r then
    let '(r, restart) :=
      match lastPacketAt r with
      | Some t => if now - t >? ddRestartThreshold then (restartParser r, true) else (r, false)
      | None => (r, false)
      end in
    (r <| lastPacketAt := Some now |>, restart)
  else (r, false).

(** A structure attached to the first packet of a frame. *)
Definition attachStructure (extFN : Z) (d : DependencyDescriptor) (r : DependencyDescriptorParser)
  : res parse_error (DependencyDescriptorParser * bool) :=
  match AttachedStructure d with
  | None => Ok (r, false)
  | Some st =>
    if negb (FirstPacketInFrame d) then Err ErrDDStructureAttachedToNonFirstPacket
    else
      match ProcessFrameDependencyStructure st with
      | Err e => Err (ErrReader e)
      | Ok decodeTargets =>
        Ok (r <| p_structure := Some st |> <| p_decodeTargets := decodeTargets |>
              <| structureExtFrameNum := extFN |>, true)
      end
  end.

Definition maxLayers (mask : Z) (l : list DecodeTargetLayer) : Z * Z :=
  foldl (fun m dt =>
    if negb (Z.land mask (target_bit dt) =? dti_to_Z DecodeTargetNotPresent) then
      (if m.1 <? Spatial (Layer dt) then Spatial (Layer dt) else m.1,
       if m.2 <? Temporal (Layer dt) then Temporal (Layer dt) else m.2)
    else m) (0, 0) l.

(** A new mask of active decode targets, from the newest packet that has one;
    the flag says that it changed. *)
Definition updateMask (extSeq : Z) (d : DependencyDescriptor) (r : DependencyDescriptorParser)
  : DependencyDescriptorParser * bool :=
  match ActiveDecodeTargetsBitmask d with
  | None => (r, false)
  | Some mask =>
    if extSeq >? activeDecodeTargetsExtSeq r then
      let r := r <| activeDecodeTargetsExtSeq := extSeq |> in
      if negb (mask =? activeDecodeTargetsMask r) then
        (r <| activeDecodeTargetsMask := mask |>
           <| maxLayerChanges := maxLayerChanges r ++ [maxLayers mask (p_decodeTargets r)] |>, true)
      else (r, false)
    else (r, false)
  end.

(** The layer is returned with errors too. *)
Definition ParsePacket (now sn : Z) (ddBuf : option (list Z)) (r : DependencyDescriptorParser)
  : DependencyDescriptorParser * VideoLayer * res parse_error ExtDependencyDescriptor :=
  match ddBuf with
  | None => (r <| ddNotFoundCount := u32 (ddNotFoundCount r + 1) |>, mkLayer 0 0, Err ErrDDExtentionNotFound)
  | Some ddBuf =>
    match Unmarshal ddBuf (p_structure r) emptyDescriptor with
    | Err e => (r, mkLayer 0 0, Err (ErrReader e))
    | Ok (ddVal, _) =>
      let '(r, restart) := checkRestart now r in
      let '(seqWA, extSeq) := seqUpdate sn (seqWrapAround r) in
      let r := r <| seqWrapAround := seqWA |> in
      let videoLayer := match FrameDependencies ddVal with
                        | Some f => mkLayer (i32 (SpatialId f)) (i32 (TemporalId f))
                        | None => mkLayer 0 0
                        end in
      let '(frameWA, extFN) := frameUpdate (FrameNumber ddVal) restart (frameWrapAround r) in
      let r := r <| frameWrapAround := frameWA |> in
      if extFN <? structureExtFrameNum r then (r, videoLayer, Err ErrFrameEarlierThanKeyFrame)
      else
        let r := r <| frameChecker := AddPacket (frameChecker r) extSeq extFN ddVal |> in
        let integrity := FrameIntegrity (frameChecker r) extFN in
        match attachStructure extFN ddVal r with
        | Err e => (r, videoLayer, Err e)
        | Ok (r, structureUpdated) =>
          let '(r, maskUpdated) := updateMask extSeq ddVal r in
          (r, videoLayer,
           Ok (mkExtDD ddVal (p_decodeTargets r) structureUpdated (structureUpdated || maskUpdated) integrity
                 extFN (structureExtFrameNum r) (p_restartGeneration r)))
        end
    end
  end.
End targets.

(** ** Targets *)

(** The target needs the frames of the template. *)
Definition present (t : FrameDependencyTemplate) (target : Z) : Prop :=
  exists dti, zlookup (elems (DecodeTargetIndications t)) target = Some dti /\ dti <> DecodeTargetNotPresent.

(** The layer of a target is the highest one among the templates it needs. *)
Record target_ok (st : FrameDependencyStructure) (dt : DecodeTargetLayer) : Prop := {
  tg_range : 0 <= Target dt < NumDecodeTargets st;
  tg_above : forall t, t ∈ Templates st -> present t (Target dt) ->
             SpatialId t <= Spatial (Layer dt) /\ TemporalId t <= Temporal (Layer dt);
  tg_spatial : Spatial (Layer dt) = 0 \/
               exists t, t ∈ Templates st /\ present t (Target dt) /\ SpatialId t = Spatial (Layer dt);
  tg_temporal : Temporal (Layer dt) = 0 \/
               exists t, t ∈ Templates st /\ present t (Target dt) /\ TemporalId t = Temporal (Layer dt);
}.

(** No target comes before a higher one. *)
Definition not_below (a b : DecodeTargetLayer) : Prop := GreaterThan (Layer b) (Layer a) = false.

#[export] Instance not_below_dec a b : Decision (not_below a b).
Proof. unfold not_below. apply _. Defined.

(** What [sort.Slice] promises. *)
Class SortsTargets (sort : list DecodeTargetLayer -> list DecodeTargetLayer) : Prop := {
  sort_perm : forall l, sort l ≡ₚ l;
  sort_sorted : forall l, StronglySorted not_below (sort l);
}.

Record targets_of (st : FrameDependencyStructure) (l : list DecodeTargetLayer) : Prop := {
  tl_all : Target <$> l ≡ₚ zseq (Z.to_nat (NumDecodeTargets st));
  tl_sorted : StronglySorted not_below l;
  tl_ok : Forall (target_ok st) l;
}.

#[export] Instance not_below_trans : Transitive not_below.
Proof. intros a b c. unfold not_below, GreaterThan. rewrite !Z.gtb_ltb. lia. Qed.

#[export] Instance not_below_total : Total not_below.
Proof. intros a b. unfold not_below, GreaterThan. rewrite !Z.gtb_ltb. lia. Qed.

#[export] Instance merge_sort_sorts : SortsTargets (merge_sort not_below).
Proof. constructor; intros l; [apply merge_sort_Permutation|apply (StronglySorted_merge_sort not_below)]. Qed.

Lemma widen_all_ok st target l layer : Forall (template_ok st) l -> 0 <= target < NumDecodeTargets st ->
  exists layer', widen_all target layer l = Ok layer' /\
    Spatial layer <= Spatial layer' /\ Temporal layer <= Temporal layer' /\
    (forall t, t ∈ l -> present t target -> SpatialId t <= Spatial layer' /\ TemporalId t <= Temporal layer') /\
    (Spatial layer' = Spatial layer \/ exists t, t ∈ l /\ present t target /\ SpatialId t = Spatial layer') /\
    (Temporal layer' = Temporal layer \/ exists t, t ∈ l /\ present t target /\ TemporalId t = Temporal layer').
Proof.
  intros Hl Ht. revert layer. induction Hl as [|t l [Hs Htm (dl & Ed & Hdl) _ _ _ _] _ IH]; intros layer; cbn [widen_all].
  { exists layer. split_and!; [done|lia|lia| |by left|by left]. intros t Hin. by apply not_elem_of_nil in Hin. }
  unfold MaxSpatialIds, MaxTemporalIds in *. unfold widen. rewrite Ed. cbn [elems from_option].
  change (id dl) with dl. destruct (zlookup_lt dl target ltac:(lia)) as [dti Edti]. rewrite Edti. cbn [res_bind].
  rewrite !i32_small by lia.
  assert (present t target <-> dti <> DecodeTargetNotPresent) as Hp.
  { unfold present. rewrite Ed. cbn [elems from_option]. change (id dl) with dl. rewrite Edti. naive_solver. }
  match goal with |- context [widen_all target ?x l] => set (layer1 := x) end.
  assert (Spatial layer <= Spatial layer1 /\ Temporal layer <= Temporal layer1 /\
    (present t target -> SpatialId t <= Spatial layer1 /\ TemporalId t <= Temporal layer1) /\
    (Spatial layer1 = Spatial layer \/ present t target /\ SpatialId t = Spatial layer1) /\
    (Temporal layer1 = Temporal layer \/ present t target /\ TemporalId t = Temporal layer1)) as (A1 & A2 & A3 & A4 & A5).
  { unfold layer1. destruct (bool_decide_reflect (dti = DecodeTargetNotPresent)) as [E|E]; cbn [negb].
    - split_and!; [lia|lia|intros Hpt; tauto|by left|by left].
    - cbn [Spatial Temporal]. destruct (Z.ltb_spec (Spatial layer) (SpatialId t)), (Z.ltb_spec (Temporal layer) (TemporalId t));
        (split_and!; [lia|lia|intros; lia| |]); try (by left); right; tauto. }
  clearbody layer1. destruct (IH layer1) as (layer' & E' & B1 & B2 & B3 & B4 & B5). exists layer'.
  split_and!; [done|lia|lia| | |].
  - intros t' [->|Hin]%elem_of_cons Hpt; [destruct (A3 Hpt); lia|by apply B3].
  - destruct B4 as [B4|(t' & ? & ? & ?)]; [|right; exists t'; split_and!; [by right|done|done]].
    rewrite B4. destruct A4 as [A4|[? ?]]; [by left|right; exists t; split_and!; [by left|done|done]].
  - destruct B5 as [B5|(t' & ? & ? & ?)]; [|right; exists t'; split_and!; [by right|done|done]].
    rewrite B5. destruct A5 as [A5|[? ?]]; [by left|right; exists t; split_and!; [by left|done|done]].
Qed.

Lemma layers_of_ok st targets : Forall (template_ok st) (Templates st) ->
  Forall (fun i => 0 <= i < NumDecodeTargets st) targets ->
  exists l, layers_of (Templates st) targets = Ok l /\ Target <$> l = targets /\ Forall (target_ok st) l.
Proof.
  intros Hst. induction 1 as [|i targets Hi _ (l & El & Em & Hl)]; cbn [layers_of].
  { exists []. done. }
  destruct (widen_all_ok st i (Templates st) (mkLayer 0 0) Hst Hi) as (layer & -> & _ & _ & H1 & H2 & H3).
  cbn [res_bind]. rewrite El. cbn [res_bind]. exists (mkDecodeTargetLayer i layer :: l).
  split; [done|]. split; [cbn [fmap list_fmap Target]; f_equal; exact Em|]. apply Forall_cons. split; [|done]. by constructor.
Qed.

Lemma zseq_Forall n : Forall (fun i => 0 <= i < Z.of_nat n) (zseq n).
Proof.
  apply Forall_forall. intros i. unfold zseq. intros Hi%list_elem_of_fmap. destruct Hi as (k & -> & Hk).
  apply elem_of_seq in Hk. lia.
Qed.

Lemma Process_targets sort `{!SortsTargets sort} st : structure_ok st ->
  exists l, ProcessFrameDependencyStructure sort st = Ok l /\ targets_of st l.
Proof.
  intros Hst. pose proof (s_targets _ Hst) as Hn.
  destruct (layers_of_ok st (zseq (Z.to_nat (NumDecodeTargets st))) (s_template_ok _ Hst)) as (l & El & Em & Hl).
  { eapply Forall_impl; [apply zseq_Forall|]. cbv beta. lia. }
  unfold ProcessFrameDependencyStructure. rewrite El. cbn [res_bind]. eexists. split; [reflexivity|].
  constructor; [|apply sort_sorted|]; [rewrite <- Em; by rewrite sort_perm|by rewrite sort_perm].
Qed.

(** C38: the decode targets of a well-formed structure: every target once, the
    highest layers first, each with exactly the highest spatial and temporal
    layer of the frames it needs, and no index is out of range. *)
Theorem ProcessFrameDependencyStructure_spec sort `{!SortsTargets sort} st :
  structure_ok st ->
  exists l, ProcessFrameDependencyStructure sort st = Ok l /\
    Target <$> l ≡ₚ zseq (Z.to_nat (NumDecodeTargets st)) /\ StronglySorted not_below l /\
    Forall (target_ok st) l.
Proof. intros Hst. destruct (Process_targets sort st Hst) as (l & E & [H1 H2 H3]). eauto. Qed.

Lemma ProcessFrameDependencyStructure_spec_witness :
  exists l, ProcessFrameDependencyStructure (merge_sort not_below) ex_structure = Ok l /\
    Target <$> l ≡ₚ zseq 4 /\ StronglySorted not_below l /\ Forall (target_ok ex_structure) l.
Proof. exact (ProcessFrameDependencyStructure_spec (merge_sort not_below) ex_structure ex_structure_ok). Defined.

(** ** The mask of active decode targets *)

Definition within (layer : VideoLayer) (dt : DecodeTargetLayer) : bool :=
  (Spatial (Layer dt) <=? Spatial layer) && (Temporal (Layer dt) <=? Temporal layer).

Lemma target_bit_testbit dt i : 0 <= Target dt < 32 -> 0 <= i -> Z.testbit (target_bit dt) i = (i =? Target dt).
Proof.
  intros Ht Hi. unfold target_bit. assert (2 ^ Target dt < 2 ^ 32) by (apply Z.pow_lt_mono_r; lia).
  assert (0 < 2 ^ Target dt) by (apply Z.pow_pos_nonneg; lia).
  rewrite Z.shiftl_1_l, u32_small by (change (2 ^ 32) with 4294967296 in *; lia).
  rewrite Z.pow2_bits_eqb by lia. apply Z.eqb_sym.
Qed.

Lemma active_bitmask layer l i : Forall (fun dt => 0 <= Target dt < 32) l -> 0 <= i ->
  Z.testbit (GetActiveDecodeTargetBitmask layer l) i =
  existsb (fun dt => within layer dt && (i =? Target dt)) l.
Proof.
  intros Hl Hi. unfold GetActiveDecodeTargetBitmask.
  enough (G : forall acc, Z.testbit (foldl (fun m dt => if (Spatial (Layer dt) <=? Spatial layer) &&
      (Temporal (Layer dt) <=? Temporal layer) then Z.lor m (target_bit dt) else m) acc l) i =
    Z.testbit acc i || existsb (fun dt => within layer dt && (i =? Target dt)) l) by (rewrite G, Z.bits_0; done).
  induction Hl as [|dt l Hdt _ IH]; intros acc; cbn [foldl existsb]; [by rewrite orb_false_r|].
  rewrite IH. unfold within at 2. destruct (_ && _); [|done].
  rewrite Z.lor_spec, target_bit_testbit by lia. cbn [andb]. by rewrite orb_assoc.
Qed.

Lemma targets_range st l : structure_ok st -> targets_of st l -> Forall (fun dt => 0 <= Target dt < 32) l.
Proof.
  intros Hst Hl. pose proof (s_targets _ Hst) as Hn. unfold MaxDecodeTargets in Hn.
  eapply Forall_impl; [exact (tl_ok _ _ Hl)|]. intros dt [Hdt _ _ _]. lia.
Qed.

(** A value without bits from [n] on. *)
Lemma below_pow2 x n : 0 <= n -> 0 <= x -> (forall i, n <= i -> Z.testbit x i = false) -> x < 2 ^ n.
Proof.
  intros Hn Hx Hb. assert (x = x mod 2 ^ n) as ->; [|apply Z.mod_pos_bound; lia].
  apply Z.bits_inj'. intros i Hi. destruct (Z.lt_ge_cases i n).
  - by rewrite Z.mod_pow2_bits_low by lia.
  - rewrite Z.mod_pow2_bits_high by lia. by apply Hb.
Qed.

Lemma active_bitmask_range layer st l : structure_ok st -> targets_of st l ->
  0 <= GetActiveDecodeTargetBitmask layer l < 2 ^ NumDecodeTargets st.
Proof.
  intros Hst Hl. pose proof (targets_range _ _ Hst Hl) as Hr. pose proof (s_targets _ Hst) as Hn.
  assert (0 <= GetActiveDecodeTargetBitmask layer l) as H0.
  { unfold GetActiveDecodeTargetBitmask. enough (G : forall acc, 0 <= acc -> 0 <= foldl (fun m dt =>
      if (Spatial (Layer dt) <=? Spatial layer) && (Temporal (Layer dt) <=? Temporal layer)
      then Z.lor m (target_bit dt) else m) acc l) by (by apply G).
    clear. induction l as [|dt l IH]; intros acc Hacc; cbn [foldl]; [done|]. apply IH.
    destruct (_ && _); [|done]. apply Z.lor_nonneg. split; [done|]. apply u32_range. }
  split; [done|]. apply below_pow2; [lia|done|]. intros i Hi. rewrite active_bitmask by (done || lia).
  apply not_true_iff_false. rewrite existsb_exists. intros (dt & Hdt & Ew). apply list_elem_of_In in Hdt.
  apply andb_true_iff in Ew as [_ Ew]. pose proof (tl_ok _ _ Hl) as Hok. rewrite Forall_forall in Hok.
  destruct (Hok dt Hdt) as [Hdr _ _ _]. lia.
Qed.

(** ** What the parser keeps and emits *)

Definition parser_ok {WA} (r : DependencyDescriptorParser (WA := WA)) : Prop :=
  match p_structure r with
  | None => p_decodeTargets r = []
  | Some st => structure_ok st /\ targets_of st (p_decodeTargets r)
  end.

(** The descriptors emitted by a stream, each with the structure in force: the
    last one attached.  [gen] is the generation of the descriptor before.  Only
    the first of a new generation may come without targets, when the packet that
    restarts the stream has no structure of its own. *)
Definition described (cur : option FrameDependencyStructure) (gen : Z) (e : ExtDependencyDescriptor) : Prop :=
  exists st f, active_structure cur (Descriptor e) = Some st /\ structure_ok st /\ descriptor_ok st (Descriptor e) f /\
    in_layer st f /\
    (targets_of st (DecodeTargets e) \/
     DecodeTargets e = [] /\ AttachedStructure (Descriptor e) = None /\ gen < RestartGeneration e).

Fixpoint follows_structures (cur : option FrameDependencyStructure) (gen : Z)
    (outs : list (res parse_error ExtDependencyDescriptor)) : Prop :=
  match outs with
  | [] => True
  | Err _ :: outs => follows_structures cur gen outs
  | Ok e :: outs => described cur gen e /\
      follows_structures (active_structure cur (Descriptor e)) (RestartGeneration e) outs
  end.

(** What the selector relies on.  Only the first packet after a restart has no
    decode targets: it was read with the structure of before. *)
Record ext_ok (e : ExtDependencyDescriptor) : Prop := {
  e_desc : exists st f, structure_ok st /\ descriptor_ok st (Descriptor e) f /\ in_layer st f /\
    (targets_of st (DecodeTargets e) \/ DecodeTargets e = [] /\ AttachedStructure (Descriptor e) = None);
  e_updated : StructureUpdated e = true <-> is_Some (AttachedStructure (Descriptor e));
  e_key : StructureUpdated e = true -> ExtKeyFrameNum e = ExtFrameNum e /\ ActiveDecodeTargetsUpdated e = true /\
          FirstPacketInFrame (Descriptor e) = true;
  e_mask : ActiveDecodeTargetsUpdated e = true -> is_Some (ActiveDecodeTargetsBitmask (Descriptor e));
  e_order : ExtKeyFrameNum e <= ExtFrameNum e;
}.

Section parser.
Context {WA : Type} (sort : list DecodeTargetLayer -> list DecodeTargetLayer) `{!SortsTargets sort}.
Implicit Types r : DependencyDescriptorParser (WA := WA).

Lemma checkRestart_ok now r : parser_ok r ->
  let '(r', restart) := checkRestart now r in
  parser_ok r' /\ p_restartGeneration r <= p_restartGeneration r' /\
  (p_structure r' = p_structure r /\ p_decodeTargets r' = p_decodeTargets r \/
   p_structure r' = None /\ p_decodeTargets r' = [] /\ restart = true /\ p_restartGeneration r < p_restartGeneration r').
Proof.
  intros Hr. unfold checkRestart. destruct (enableRestart r); [|split_and!; [done|lia|by left]].
  destruct (lastPacketAt r); [|split_and!; [done|cbn; lia|by left]].
  case_if; [|split_and!; [done|cbn; lia|by left]]. split; [done|]. split; [cbn; lia|right]. split_and!; [done..|cbn; lia].
Qed.

Lemma attachStructure_ok extFN d r s0 : parser_ok r -> accepted s0 d ->
  (p_structure r = s0 \/ p_structure r = None) ->
  match attachStructure sort extFN d r with
  | Err (ErrReader e) => panics e = false
  | Err _ => True
  | Ok (r', updated) =>
    parser_ok r' /\ p_restartGeneration r' = p_restartGeneration r /\
    (updated = true <-> is_Some (AttachedStructure d)) /\
    (updated = true -> structureExtFrameNum r' = extFN /\ FirstPacketInFrame d = true) /\
    (updated = false -> structureExtFrameNum r' = structureExtFrameNum r) /\
    p_structure r' = (if updated then AttachedStructure d else p_structure r) /\
    exists st f, active_structure s0 d = Some st /\ structure_ok st /\ descriptor_ok st d f /\ in_layer st f /\
      (targets_of st (p_decodeTargets r') \/
       p_decodeTargets r' = [] /\ AttachedStructure d = None /\ p_structure r = None /\ s0 = Some st)
  end.
Proof.
  intros Hr (st & f & Hact & Hst & Hd & Hf) Hs0. unfold attachStructure, active_structure in *.
  destruct (AttachedStructure d) as [st'|] eqn:Ha.
  - injection Hact as ->. destruct (FirstPacketInFrame d) eqn:Hfirst; cbn [negb]; [|done].
    destruct (Process_targets sort st Hst) as (l & -> & Hl). split; [by split|]. split; [done|].
    split; [by split; eauto|]. split; [by split|]. split; [done|]. split; [done|]. exists st, f. split_and!; try done. by left.
  - split; [done|]. split; [done|]. split; [split; [done|by intros [? [=]]]|]. split; [done|]. split; [done|]. split; [done|].
    exists st, f. split_and!; try done. unfold parser_ok in Hr. destruct Hs0 as [E|E]; rewrite E in Hr.
    + rewrite Hact in Hr. left. by destruct Hr.
    + by right.
Qed.

Lemma updateMask_ok extSeq d r :
  let '(r', changed) := updateMask extSeq d r in
  p_structure r' = p_structure r /\ p_decodeTargets r' = p_decodeTargets r /\
  p_restartGeneration r' = p_restartGeneration r /\ structureExtFrameNum r' = structureExtFrameNum r /\
  (changed = true -> is_Some (ActiveDecodeTargetsBitmask d)).
Proof.
  unfold updateMask. destruct (ActiveDecodeTargetsBitmask d) as [m|]; [|by split_and!].
  do 2 (case_if; [|by split_and!]). split_and!; eauto.
Qed.

Definition out_ok (out : res parse_error ExtDependencyDescriptor) : Prop :=
  match out with
  | Ok e => ext_ok e
  | Err (ErrReader e) => panics e = false
  | Err _ => True
  end.

Context (seqUpdate : Z -> WA -> WA * Z) (frameUpdate : Z -> bool -> WA -> WA * Z).

Lemma ParsePacket_ok now sn ddBuf r : parser_ok r -> (forall buf, ddBuf = Some buf -> bytes buf) ->
  let '(r', layer, out) := ParsePacket sort seqUpdate frameUpdate now sn ddBuf r in
  parser_ok r' /\ p_restartGeneration r <= p_restartGeneration r' /\ out_ok out /\
  (forall e, out = Ok e -> RestartGeneration e = p_restartGeneration r') /\
  match out with
  | Ok e => described (p_structure r) (p_restartGeneration r) e /\
      (p_structure r' = active_structure (p_structure r) (Descriptor e) \/ p_structure r' = None)
  | Err _ => p_structure r' = p_structure r \/ p_structure r' = None
  end.
Proof.
  intros Hr Hbuf. unfold ParsePacket. destruct ddBuf as [buf|]; [|split_and!; [done|cbn; lia|done|done|by left]].
  assert (forall st, p_structure r = Some st -> structure_ok st) as Hs0.
  { intros st E. unfold parser_ok in Hr. rewrite E in Hr. by destruct Hr. }
  pose proof (Unmarshal_accepted buf (p_structure r) (Hbuf buf eq_refl) Hs0) as Hu.
  destruct (Unmarshal buf (p_structure r) emptyDescriptor) as [[d n]|e]; [|split_and!; [done|lia|done|done|by left]].
  destruct Hu as [_ Hacc]. pose proof (checkRestart_ok now r Hr) as Hc.
  destruct (checkRestart now r) as [r1 restart]. destruct Hc as (Hr1 & Hg & Hs1).
  destruct (seqUpdate sn (seqWrapAround r1)) as [seqWA extSeq]. cbn [frameWrapAround field_upd].
  destruct (frameUpdate (FrameNumber d) restart (frameWrapAround r1)) as [frameWA extFN]. cbn [structureExtFrameNum field_upd].
  destruct (Z.ltb_spec extFN (structureExtFrameNum r1)) as [|Hle]; [split_and!; [done|exact Hg|done|done|]; destruct Hs1 as [[E _]|[E _]]; [by left|by right]|].
  match goal with |- context [attachStructure _ _ _ ?x] => set (r2 := x) end.
  assert (parser_ok r2 /\ p_restartGeneration r2 = p_restartGeneration r1 /\
    structureExtFrameNum r2 = structureExtFrameNum r1 /\ (p_structure r2 = p_structure r \/ p_structure r2 = None))
    as (Hr2 & Hg2 & Hn2 & Hs2).
  { split_and!; [done|done|done|]. change (p_structure r2) with (p_structure r1).
    destruct Hs1 as [[-> _]|[-> _]]; auto. }
  assert (p_structure r2 = None -> is_Some (p_structure r) -> p_restartGeneration r < p_restartGeneration r1) as Hnew.
  { change (p_structure r2) with (p_structure r1). destruct Hs1 as [[-> _]|(_ & _ & _ & ?)]; [|done]. intros ->. by intros [? ?]. }
  generalize (FrameIntegrity (frameChecker r2) extFN). clearbody r2. intros integrity.
  pose proof (attachStructure_ok extFN d r2 _ Hr2 Hacc Hs2) as Ha.
  destruct (attachStructure sort extFN d r2) as [[r3 updated]|e]; [|split_and!; [done|lia|done|done|exact Hs2]].
  destruct Ha as (Hr3 & Hg3 & Hup & Hk3 & Hn3 & Hst3 & Hdesc). pose proof (updateMask_ok extSeq d r3) as Hm.
  destruct (updateMask extSeq d r3) as [r4 changed]. destruct Hm as (E1 & E2 & E3 & E4 & Hch).
  split; [unfold parser_ok; by rewrite E1, E2|]. split; [lia|]. split; [|split; [by intros e [= <-]|split]].
  2: { destruct Hdesc as (st & f & Ha & Hst & Hd & Hl & Ht). exists st, f. split_and!; [done..|].
    cbn [DecodeTargets RestartGeneration Descriptor]. rewrite E2, E3, Hg3, Hg2. destruct Ht as [Ht|(Ht & Hn & Hs & E0)]; [by left|right].
    split_and!; [done|done|]. apply Hnew; [done|]. by rewrite E0. }
  2: { rewrite E1, Hst3. cbn [Descriptor]. unfold active_structure. destruct updated.
    - left. destruct (proj1 Hup eq_refl) as [st' ->]. done.
    - destruct (AttachedStructure d) eqn:Ea; [by discriminate (proj2 Hup (ex_intro _ _ eq_refl))|]. exact Hs2. }
  constructor; cbn [Descriptor DecodeTargets StructureUpdated ActiveDecodeTargetsUpdated ExtKeyFrameNum ExtFrameNum].
  - rewrite E2. destruct Hdesc as (st & f & _ & Hst & Hd & Hl & Ht). exists st, f. split_and!; [done..|].
    destruct Ht as [Ht|(Ht & Hn & _)]; [by left|by right].
  - done.
  - intros Hu. rewrite E4. destruct (Hk3 Hu) as [-> Hfirst]. by rewrite Hu.
  - intros [Hu|Hu]%orb_true_iff; [|by apply Hch]. destruct Hdesc as (st & f & _ & _ & [_ _ _ Hatt _ _ _ _ _] & _).
    destruct (proj1 Hup Hu) as [st' Est]. destruct Hatt as [E|[_ E]]; [congruence|done].
  - rewrite E4. destruct updated; [destruct (Hk3 eq_refl) as [-> _]; lia|]. rewrite (Hn3 eq_refl). lia.
Qed.

(** The parser on the packets of a stream: arrival time, sequence number and
    extension. *)
Fixpoint parse_run (l : list (Z * Z * option (list Z))) r
  : list (res parse_error ExtDependencyDescriptor) :=
  match l with
  | [] => []
  | (now, sn, ddBuf) :: l =>
    let '(r, _, out) := ParsePacket sort seqUpdate frameUpdate now sn ddBuf r in out :: parse_run l r
  end.

Lemma parse_run_inv l r :
  Forall (fun p => forall buf, snd p = Some buf -> bytes buf) l -> parser_ok r ->
  Forall out_ok (parse_run l r) /\
  StronglySorted (fun a b => forall e e', a = Ok e -> b = Ok e' -> RestartGeneration e <= RestartGeneration e') (parse_run l r) /\
  Forall (fun a => forall e, a = Ok e -> p_restartGeneration r <= RestartGeneration e) (parse_run l r).
Proof.
  intros Hl. revert r. induction Hl as [|[[now sn] ddBuf] l Hp _ IH]; intros r Hr; cbn [parse_run]; [by split_and!; constructor|].
  pose proof (ParsePacket_ok now sn ddBuf r Hr Hp) as H. destruct (ParsePacket _ _ _ now sn ddBuf r) as [[r' layer] out].
  destruct H as (Hr' & Hg & Ho & Hge & _). destruct (IH r' Hr') as (G1 & G2 & G3). split_and!.
  - by constructor.
  - constructor; [done|]. eapply Forall_impl; [exact G3|]. cbv beta. intros a Ha e e' -> Ee'. rewrite (Hge e eq_refl). by apply Ha.
  - constructor; [intros e ->; rewrite (Hge e eq_refl); lia|]. eapply Forall_impl; [exact G3|]. cbv beta.
    intros a Ha e Ee. specialize (Ha e Ee). lia.
Qed.

Lemma parse_run_structures l : forall r cur gen,
  Forall (fun p => forall buf, snd p = Some buf -> bytes buf) l -> parser_ok r ->
  (p_structure r = cur \/ p_structure r = None) -> gen <= p_restartGeneration r ->
  follows_structures cur gen (parse_run l r).
Proof.
  induction l as [|[[now sn] ddBuf] l IH]; intros r cur gen Hl Hr Hc Hg; [done|]. apply Forall_cons in Hl as [Hp Hl].
  cbn [parse_run]. pose proof (ParsePacket_ok now sn ddBuf r Hr Hp) as H.
  destruct (ParsePacket _ _ _ now sn ddBuf r) as [[r' layer] out]. destruct H as (Hr' & Hg' & _ & Hge & Hd).
  destruct out as [e|e]; cbn [follows_structures].
  - destruct Hd as [(st & f & Ha & Hst & Hdd & Hl' & Ht) Hs'].
    assert (active_structure cur (Descriptor e) = active_structure (p_structure r) (Descriptor e)) as Eq.
    { unfold active_structure in *. destruct (AttachedStructure (Descriptor e)); [done|]. destruct Hc as [->|E]; [done|].
      rewrite E in Ha. discriminate. }
    rewrite Eq. split.
    + exists st, f. rewrite Eq. split_and!; [done..|]. destruct Ht as [Ht|(Ht & Hn & Hlt)]; [by left|right].
      split_and!; [done|done|lia].
    + apply IH; [done|done|done|]. by rewrite (Hge e eq_refl).
  - apply IH; [done|done| |lia]. destruct Hd as [-> | ->]; [done|by right].
Qed.

(** C16: on every stream of packets with arbitrary extensions the parser never
    panics; every descriptor it emits is well formed for the structure in force,
    the last one attached, and comes with the decode targets of that structure,
    but for a packet that restarts the stream without a structure of its own,
    the first of its generation, which comes with none; it carries a structure
    exactly when marked so, then on the first packet of its own key frame, has an
    active mask whenever it announces one, and never precedes its key frame; its
    generation never goes back. *)
Theorem parse_run_ok l wa restart :
  Forall (fun p => forall buf, snd p = Some buf -> bytes buf) l ->
  let outs := parse_run l (NewDependencyDescriptorParser wa restart) in
  Forall out_ok outs /\ follows_structures None 0 outs /\
  StronglySorted (fun a b => forall e e', a = Ok e -> b = Ok e' -> RestartGeneration e <= RestartGeneration e') outs.
Proof.
  intros Hl. destruct (parse_run_inv l (NewDependencyDescriptorParser wa restart) Hl eq_refl) as (H1 & H2 & _).
  split; [done|]. split; [|done]. apply parse_run_structures; [done|done|by left|done].
Qed.
End parser.

(** *** Two structures *)

(** The key frames of two streams: [ex_descriptor], and one with four temporal
    layers of one spatial layer; both with the active targets [0b111]. *)
Definition ex_key1 : list Z :=
  [134; 4; 210; 248; 99; 103; 170; 19; 10; 1; 65; 4; 96; 140; 0; 68; 68; 74; 2; 126; 1; 102; 4; 254; 2; 206; 224;
   80; 130; 24; 149; 128; 57; 0].
Definition ex_key2 : list Z :=
  [201; 4; 211; 193; 35; 87; 170; 42; 10; 2; 65; 4; 8; 8; 137; 192].

(** No wrap around. *)
Definition plain_seq (n : Z) (wa : unit) : unit * Z := (wa, n).
Definition plain_frame (n : Z) (restart : bool) (wa : unit) : unit * Z := (wa, n).

Lemma parse_run_ok_witness :
  let outs := parse_run (merge_sort not_below) plain_seq plain_frame [(0, 1, Some ex_key1); (1, 2, None); (2, 3, Some ex_key2)]
                (NewDependencyDescriptorParser tt true) in
  Forall out_ok outs /\ follows_structures None 0 outs /\
  StronglySorted (fun a b => forall e e', a = Ok e -> b = Ok e' -> RestartGeneration e <= RestartGeneration e') outs.
Proof.
  apply (parse_run_ok (merge_sort not_below) plain_seq plain_frame
    [(0, 1, Some ex_key1); (1, 2, None); (2, 3, Some ex_key2)] tt true).
  repeat (apply Forall_cons; split; [intros buf E; cbn in E; try discriminate E; injection E as <-|]); [..|constructor];
    repeat (apply Forall_cons; split; [unfold byte; lia|]); constructor.
Defined.

(** The maximum layer is announced only when the mask changes, so a new
    structure whose mask has the same bits goes unannounced: here the stream
    goes from layers (1, 1) to (0, 2) and only the first is reported. *)
Theorem same_mask_hides_max_layer :
  let parse p r := fst (fst (ParsePacket (merge_sort not_below) plain_seq plain_frame p.1.1 p.1.2 (Some p.2) r)) in
  let r1 := parse (0, 1, ex_key1) (NewDependencyDescriptorParser tt true) in
  let r2 := parse (1, 2, ex_key2) r1 in
  p_structure r2 <> p_structure r1 /\
  maxLayers 7 (p_decodeTargets r1) = (1, 1) /\ maxLayers 7 (p_decodeTargets r2) = (0, 2) /\
  maxLayerChanges r1 = [(1, 1)] /\ maxLayerChanges r2 = [(1, 1)].
Proof. cbv zeta. split_and!; [vm_compute; discriminate|vm_compute; reflexivity..]. Qed.
