(* ===== verification/DdSelector.v ===== *)
(** * The dependency descriptor selector

    Models [src/SERVER/pkg/sfu/videolayerselector/dependencydescriptor.go]: the
    selector that forwards the frames of a scalable stream whose chain is
    intact, by the decisions it keeps about earlier frames.  Its chains are
    objects of a store ([FrameChain]); its decisions are the cache of
    [DecisionCache], whose callbacks are the chains.  A dereferenced nil or an
    index out of range ends in [Err]. *)

From S2P Require Import Prelude DdTypes Packet DdBits DdWriter DdCodec DdSafe.
From S2P Require Import DecisionCache LayerSelectors FrameChain DdParser.

Record Selector (T : Type) := mkSelector {
  ds_base : Base T;
  decisions : Cache;
  previousActiveDecodeTargetsBitmask : option Z;
  activeDecodeTargetsBitmask : option Z;
  ds_structure : option FrameDependencyStructure;
  extKeyFrameNum : Z;
  keyFrameValid : bool;
  chains : list Z;
  ds_targets : list DecodeTarget;
  fnWrapper : FrameNumberWrapper;
  restartGeneration : Z;
  ds_store : gmap Z FrameChain;
  nextRef : Z;
}.
Arguments mkSelector {T}.
Arguments ds_base {T}.
Arguments decisions {T}.
Arguments previousActiveDecodeTargetsBitmask {T}.
Arguments activeDecodeTargetsBitmask {T}.
Arguments ds_structure {T}.
Arguments extKeyFrameNum {T}.
Arguments keyFrameValid {T}.
Arguments chains {T}.
Arguments ds_targets {T}.
Arguments fnWrapper {T}.
Arguments restartGeneration {T}.
Arguments ds_store {T}.
Arguments nextRef {T}.
#[export] Instance eta_Selector T : Eta (Selector T) := fun d =>
  mkSelector (ds_base d) (decisions d) (previousActiveDecodeTargetsBitmask d) (activeDecodeTargetsBitmask d)
    (ds_structure d) (extKeyFrameNum d) (keyFrameValid d) (chains d) (ds_targets d) (fnWrapper d)
    (restartGeneration d) (ds_store d) (nextRef d).

Definition decisionCacheMaxElements : Z := 256.
Definition decisionCacheNackEntries : Z := 80.
Definition newDecisions : Cache := NewSelectorDecisionCache decisionCacheMaxElements decisionCacheNackEntries.

Section selector.
Context {T : Type}.

Definition NewDependencyDescriptorFromOther (b : Base T) : Selector T :=
  mkSelector b newDecisions None None None 0 false [] [] newFrameNumberWrapper 0 ∅ 0.

Definition NewDependencyDescriptor : Selector T := NewDependencyDescriptorFromOther NewBase.

Definition IsOvershootOkay (d : Selector T) : bool := false.

Definition invalidateKeyFrame (d : Selector T) : Selector T :=
  d <| keyFrameValid := false |> <| chains := [] |> <| ds_targets := [] |>.

Definition restart (generation : Z) (d : Selector T) : Selector T :=
  invalidateKeyFrame (d <| restartGeneration := generation |>) <| decisions := newDecisions |>.

(** The decisions and the chains, updated together. *)
Definition with_cache (cst : Cache * gmap Z FrameChain) (d : Selector T) : Selector T :=
  d <| decisions := fst cst |> <| ds_store := snd cst |>.

Definition addDecision (n : Z) (sd : selectorDecision) (d : Selector T) : Selector T :=
  with_cache (addEntity fire n sd (decisions d, ds_store d)) d.

Definition addDropped (n : Z) : Selector T -> Selector T := addDecision n selectorDecisionDropped.
Definition addForwarded (n : Z) : Selector T -> Selector T := addDecision n selectorDecisionForwarded.

Definition newChain (d : Selector T) (chainIdx : Z) : Selector T :=
  d <| ds_store := <[nextRef d := NewFrameChain chainIdx]> (ds_store d) |>
    <| chains := chains d ++ [nextRef d] |>
    <| nextRef := nextRef d + 1 |>.

(** The chain that protects a target; an index past the chains is ignored. *)
Definition protectedBy (st : FrameDependencyStructure) (chains : list Z) (dt : DecodeTargetLayer)
  : res dd_error (option Z) :=
  if NumChains st >? 0 then
    match zlookup (DecodeTargetProtectedByChain st) (Target dt) with
    | None => Err panicIndex
    | Some chainIdx =>
      if chainIdx >=? zlen chains then Ok None
      else match zlookup chains chainIdx with
           | None => Err panicIndex
           | Some r => Ok (Some r)
           end
    end
  else Ok None.

Fixpoint newTargets (st : FrameDependencyStructure) (chains : list Z) (l : list DecodeTargetLayer)
  : res dd_error (list DecodeTarget) :=
  match l with
  | [] => Ok []
  | dt :: l =>
    let! chain := protectedBy st chains dt in
    let! rest := newTargets st chains l in
    Ok (NewDecodeTarget dt chain :: rest)
  end.

Definition updateDependencyStructure (structure : FrameDependencyStructure) (decodeTargets : list DecodeTargetLayer)
  (extFrameNum : Z) (d : Selector T) : res dd_error (Selector T) :=
  let d := d <| ds_structure := Some structure |> <| extKeyFrameNum := extFrameNum |>
             <| keyFrameValid := true |> <| chains := [] |> in
  let d := foldl newChain d (zseq (Z.to_nat (NumChains structure))) in
  let! targets := newTargets structure (chains d) decodeTargets in
  Ok (d <| ds_targets := targets |>).

Fixpoint updateTargets (mask : Z) (l : list DecodeTarget) (st : gmap Z FrameChain)
  : list DecodeTarget * gmap Z FrameChain :=
  match l with
  | [] => ([], st)
  | dt :: l =>
    let '(dt, st) := UpdateActive mask dt st in
    let '(l, st) := updateTargets mask l st in
    (dt :: l, st)
  end.

Definition updateActiveDecodeTargets (mask : Z) (d : Selector T) : Selector T :=
  let st := foldl (fun st r => alter BeginUpdateActive r st) (ds_store d) (chains d) in
  let '(targets, st) := updateTargets mask (ds_targets d) st in
  let st := foldl (fun st r => alter EndUpdateActive r st) st (chains d) in
  d <| ds_targets := targets |> <| ds_store := st |>.

Definition chainsOnFrame (n : Z) (fd : FrameDependencyTemplate) (d : Selector T) : Selector T :=
  with_cache (foldl (fun cst r => fst (ChainOnFrame r n fd cst)) (decisions d, ds_store d) (chains d)) d.

(** ** Selection *)

(** The part of [Select] up to the chains: the packet is not admitted
    ([false]), or its chains are up to date and a target is looked for. *)
Definition admit_packet (ext : ExtDependencyDescriptor) (fd : FrameDependencyTemplate) (d : Selector T)
  : res dd_error (Selector T * bool) :=
  let dd := Descriptor ext in
  let n := ExtFrameNum ext in
  if negb (keyFrameValid d) && bool_decide (AttachedStructure dd = None) then Ok (d, false)
  else
    let '(sd, tooOld) := GetDecision (decisions d) n in
    if tooOld || bool_decide (sd = selectorDecisionDropped) then Ok (d, false)
    else
      let! d := if StructureUpdated ext then
                  match AttachedStructure dd with
                  | None => Err panicNil
                  | Some st => updateDependencyStructure st (DecodeTargets ext) n d
                  end
                else Ok d in
      if negb (ExtKeyFrameNum ext =? extKeyFrameNum d) then Ok (invalidateKeyFrame (addDropped n d), false)
      else
        let! d := if ActiveDecodeTargetsUpdated ext then
                    match ActiveDecodeTargetsBitmask dd with
                    | None => Err panicNil
                    | Some mask => Ok (updateActiveDecodeTargets mask d)
                    end
                  else Ok d in
        if negb (zlen (ChainDiffs fd) =? zlen (chains d)) then Ok (addDropped n d, false)
        else Ok (chainsOnFrame n fd d, true).

Definition eligible (target : VideoLayer) (dt : DecodeTarget) : bool :=
  dt_active dt && (Spatial (Layer (dt_target dt)) <=? Spatial target)
  && (Temporal (Layer (dt_target dt)) <=? Temporal target).

(** The first eligible target that is valid; a missing indication is an error. *)
Fixpoint findTarget (target : VideoLayer) (fd : FrameDependencyTemplate) (st : gmap Z FrameChain)
  (l : list DecodeTarget) : option (DecodeTargetLayer * DecodeTargetIndication) :=
  match l with
  | [] => Some (mkDecodeTargetLayer (-1) InvalidLayer, DecodeTargetNotPresent)
  | dt :: l =>
    if negb (eligible target dt) then findTarget target fd st l
    else match TargetOnFrame st dt fd with
         | None => None
         | Some (dti, valid) => if valid then Some (dt_target dt, dti) else findTarget target fd st l
         end
  end.

Definition isDecodable (n : Z) (fd : FrameDependencyTemplate) (c : Cache) : bool :=
  forallb (fun fdiff =>
    (fdiff =? 0) || negb (bool_decide (fst (GetDecision c (u64 (n - u64 fdiff))) = selectorDecisionDropped)))
    (elems (FrameDiffs fd)).

Definition switchTo (layer : VideoLayer) (decodeTargets : list DecodeTargetLayer)
  (x : Selector T * VideoLayerSelectorResult) : Selector T * VideoLayerSelectorResult :=
  let '(d, result) := x in
  let b := ds_base d in
  if negb (bool_decide (currentLayer b = layer)) then
    let result := result <| IsSwitching := true |> in
    let result := if negb (IsValid (currentLayer b)) then result <| IsResuming := true |> else result in
    (d <| ds_base := b <| previousLayer := currentLayer b |> <| currentLayer := layer |> |>
       <| previousActiveDecodeTargetsBitmask := activeDecodeTargetsBitmask d |>
       <| activeDecodeTargetsBitmask := Some (GetActiveDecodeTargetBitmask layer decodeTargets) |>,
     result <| IsRelevant := true |>)
  else (d, result).

(** The descriptor sent: the frame number is rewritten, and the mask when the
    packet has no structure. *)
Definition rewriteDescriptor (unWrapFn : Z) (mask : option Z) (dd : DependencyDescriptor) : DependencyDescriptor :=
  let clone := if negb (unWrapFn =? FrameNumber dd) then dd <| FrameNumber := unWrapFn |> else dd in
  match AttachedStructure dd, mask with
  | None, Some m => clone <| ActiveDecodeTargetsBitmask := Some m |>
  | _, _ => clone
  end.

(** The end of [Select]; a panic of [Marshal] is recovered, and drops the
    packet as an error of it does. *)
Definition forward (ext : ExtDependencyDescriptor) (fd : FrameDependencyTemplate) (marker : bool)
  (x : Selector T * VideoLayerSelectorResult) : Selector T * VideoLayerSelectorResult :=
  let '(d, result) := x in
  let dd := Descriptor ext in
  let n := ExtFrameNum ext in
  let '(w, fn) := UpdateAndGetFn n (StructureUpdated ext) (fnWrapper d) in
  let d := d <| fnWrapper := w |> in
  match Marshal (ds_structure d) (rewriteDescriptor (u16 fn) (activeDecodeTargetsBitmask d) dd) with
  | Err _ => (addDropped n d, result)
  | Ok buf =>
    let d := if Integrity ext then addForwarded n d else d in
    (d, result <| DependencyDescriptorExtension := Some buf |>
               <| RTPMarker := marker || (LastPacketInFrame dd &&
                    (Spatial (currentLayer (ds_base d)) =? i32 (SpatialId fd))) |>
               <| IsSelected := true |>)
  end.

Definition Select (d : Selector T) (extPkt : ExtPacket) : res dd_error (Selector T * VideoLayerSelectorResult) :=
  let result := if IsValid (currentLayer (ds_base d)) then emptyResult <| IsRelevant := true |> else emptyResult in
  match PktDD extPkt with
  | None => Ok (d, result)
  | Some ext =>
    let d := if RestartGeneration ext >? restartGeneration d then restart (RestartGeneration ext) d else d in
    let n := ExtFrameNum ext in
    match FrameDependencies (Descriptor ext) with
    | None => Err panicNil
    | Some fd =>
      let! x := admit_packet ext fd d in
      let '(d, admitted) := x in
      if negb admitted then Ok (d, result)
      else
        match findTarget (targetLayer (ds_base d)) fd (ds_store d) (ds_targets d) with
        | None => Ok (addDropped n d, result)
        | Some (highestDecodeTarget, dti) =>
          if Target highestDecodeTarget <? 0 then Ok (addDropped n d, result)
          else if bool_decide (dti = DecodeTargetNotPresent) then Ok (addDropped n d, result)
          else if negb (isDecodable n fd (decisions d)) then Ok (addDropped n d, result)
          else Ok (forward ext fd (Marker extPkt) (switchTo (Layer highestDecodeTarget) (DecodeTargets ext) (d, result)))
        end
    end
  end.

Definition RollbackDd (d : Selector T) : Selector T :=
  d <| activeDecodeTargetsBitmask := previousActiveDecodeTargetsBitmask d |>
    <| ds_base := Rollback (ds_base d) |>.

Definition CheckSyncDd (d : Selector T) : bool * Z :=
  let layer := requestSpatial (ds_base d) in
  if negb (IsValid (currentLayer (ds_base d))) || negb (keyFrameValid d) then (false, layer)
  else
    (existsb (fun dt => dt_active dt && (Spatial (Layer (dt_target dt)) =? layer) && Valid (ds_store d) dt)
       (ds_targets d), layer).

End selector.

(** ** Chains stay backed *)

Section invariant.
Context {T : Type}.
Implicit Types d : Selector T.

(** Every chain of the selector has the callbacks it waits for. *)
Record sel_ok d : Prop := {
  so_refs : Forall (fun r => r < nextRef d) (chains d);
  so_backed : Forall (fun r => backed_pair r (decisions d, ds_store d)) (chains d);
}.

Lemma backed_alter g r r' m st : 
  (forall fc, broken (g fc) = false -> broken fc = false /\ expectFrames (g fc) = expectFrames fc) ->
  backed r' m st -> backed r' m (alter g r st).
Proof.
  intros Hg Hb fc Hr Hbr. destruct (decide (r = r')) as [->|Hne].
  - rewrite lookup_alter_eq in Hr. destruct (st !! r') as [fc0|] eqn:E0; [|done]. injection Hr as <-.
    destruct (Hg fc0 Hbr) as [H1 ->]. by apply Hb.
  - rewrite lookup_alter_ne in Hr by done. by apply Hb.
Qed.

Lemma backed_foldl g l r' m st :
  (forall fc, broken (g fc) = false -> broken fc = false /\ expectFrames (g fc) = expectFrames fc) ->
  backed r' m st -> backed r' m (foldl (fun st r => alter g r st) st l).
Proof. intros Hg. revert st. induction l as [|r l IH]; intros st Hb; [done|]. by apply IH, backed_alter. Qed.

Lemma updateTargets_backed mask l r' m st : backed r' m st -> backed r' m (snd (updateTargets mask l st)).
Proof.
  revert st. induction l as [|dt l IH]; intros st Hb; cbn [updateTargets]; [done|].
  unfold UpdateActive. destruct (dt_chain dt) as [r|].
  - match goal with |- context [updateTargets mask l ?x] => assert (backed r' m x) as Hx by (by apply backed_alter) end.
    specialize (IH _ Hx). by destruct (updateTargets _ _ _).
  - specialize (IH _ Hb). by destruct (updateTargets _ _ _).
Qed.

Lemma EndUpdateActive_keeps fc : broken (EndUpdateActive fc) = false ->
  broken fc = false /\ expectFrames (EndUpdateActive fc) = expectFrames fc.
Proof. unfold EndUpdateActive. cbv zeta. repeat case_if; done. Qed.

Lemma with_cache_ok cst d : sel_ok d ->
  (forall r, backed_pair r (decisions d, ds_store d) -> backed_pair r cst) -> sel_ok (with_cache cst d).
Proof.
  intros [H1 H2] Hc. constructor; [done|]. eapply Forall_impl; [exact H2|]. intros r Hr. specialize (Hc r Hr).
  by destruct cst.
Qed.

Lemma addDecision_ok n sd d : sel_ok d -> sel_ok (addDecision n sd d).
Proof. intros H. apply with_cache_ok; [done|]. intros r. apply addEntity_backed. Qed.

Lemma chainsOnFrame_ok n fd d : sel_ok d -> sel_ok (chainsOnFrame n fd d).
Proof.
  intros H. apply with_cache_ok; [done|]. intros r. generalize (decisions d, ds_store d).
  induction (chains d) as [|r' l IH]; intros cst Hb; [done|]. by apply IH, ChainOnFrame_backed.
Qed.

Lemma updateActive_ok mask d : sel_ok d -> sel_ok (updateActiveDecodeTargets mask d).
Proof.
  intros [H1 H2]. unfold updateActiveDecodeTargets.
  set (st := foldl _ (ds_store d) _). destruct (updateTargets mask (ds_targets d) st) as [targets st2] eqn:E.
  constructor; [done|]. eapply Forall_impl; [exact H2|]. intros r Hr. unfold backed_pair. cbn [fst snd].
  apply (backed_foldl EndUpdateActive); [apply EndUpdateActive_keeps|].
  pose proof (updateTargets_backed mask (ds_targets d) r (onExpectEntityChanged (decisions d)) st) as Hu.
  rewrite E in Hu. apply Hu. by apply (backed_foldl BeginUpdateActive).
Qed.

Lemma newChain_ok d idx : sel_ok d -> sel_ok (newChain d idx).
Proof.
  intros [H1 H2]. constructor; cbn [newChain chains nextRef field_upd].
  - apply Forall_app. split; [eapply Forall_impl; [exact H1|]; cbv beta; lia|]. apply Forall_singleton. lia.
  - assert (Hold : forall r, r <> nextRef d -> backed_pair r (decisions d, ds_store d) ->
      backed_pair r (decisions (newChain d idx), ds_store (newChain d idx))).
    { intros r Hne Hb fc. cbn. rewrite lookup_insert_ne by done. apply Hb. }
    apply Forall_app. split.
    + apply Forall_forall. intros r Hr. rewrite Forall_forall in H1, H2. apply Hold; [specialize (H1 r Hr); cbv beta in H1; lia|by apply H2].
    + apply Forall_singleton. intros fc. cbn. rewrite lookup_insert_eq. intros [= <-]. done.
Qed.

Lemma newChains_ok d l : sel_ok d -> sel_ok (foldl newChain d l).
Proof. revert d. induction l as [|i l IH]; intros d Hd; [done|]. by apply IH, newChain_ok. Qed.

Lemma updateStructure_ok st l n d d' : sel_ok d -> updateDependencyStructure st l n d = Ok d' -> sel_ok d'.
Proof.
  intros Hd. unfold updateDependencyStructure. cbv zeta. intros (targets & _ & E)%res_bind_Ok. injection E as <-.
  match goal with |- context [foldl newChain ?x ?l] => assert (sel_ok (foldl newChain x l)) as H end.
  { apply newChains_ok. constructor; constructor. }
  destruct H as [H1 H2]. by constructor.
Qed.

Lemma invalidate_ok d : sel_ok (invalidateKeyFrame d).
Proof. constructor; constructor. Qed.

Lemma admit_ok ext fd d d' b : sel_ok d -> admit_packet ext fd d = Ok (d', b) -> sel_ok d'.
Proof.
  intros Hd. unfold admit_packet. cbv zeta. case_if; [by intros [= <- <-]|].
  destruct (GetDecision _ _) as [sd tooOld]. case_if; [by intros [= <- <-]|].
  intros (d1 & E1 & E2)%res_bind_Ok. assert (sel_ok d1) as Hd1.
  { destruct (StructureUpdated ext); [|by injection E1 as <-]. destruct (AttachedStructure _); [|done].
    by apply updateStructure_ok in E1. }
  clear E1. revert E2. case_if; [intros [= <- <-]; apply invalidate_ok|].
  intros (d2 & F1 & F2)%res_bind_Ok. assert (sel_ok d2) as Hd2.
  { destruct (ActiveDecodeTargetsUpdated ext); [|by injection F1 as <-].
    destruct (ActiveDecodeTargetsBitmask _); [|done]. injection F1 as <-. by apply updateActive_ok. }
  clear F1. revert F2. case_if; intros [= <- <-]; [by apply addDecision_ok|by apply chainsOnFrame_ok].
Qed.

Lemma forward_ok ext fd marker d r layer l : sel_ok d ->
  sel_ok (fst (forward ext fd marker (switchTo layer l (d, r)))).
Proof.
  intros Hd. unfold switchTo.
  match goal with |- context [forward _ _ _ ?x] => assert (sel_ok (fst x)) as Hx; [|destruct x as [d1 r1]] end.
  { case_if; [|done]. destruct Hd. by constructor. }
  cbn [fst] in Hx. unfold forward. destruct (UpdateAndGetFn _ _ _) as [w fn]. cbv zeta.
  set (d2 := d1 <| fnWrapper := w |>). assert (sel_ok d2) as Hd2 by (destruct Hx; by constructor). clearbody d2.
  destruct (Marshal _ _); [|by apply addDecision_ok]. destruct (Integrity ext); [by apply addDecision_ok|done].
Qed.

Lemma Select_ok d p d' r : sel_ok d -> Select d p = Ok (d', r) -> sel_ok d'.
Proof.
  intros Hd. unfold Select. cbv zeta. set (r0 := if IsValid _ then _ else _).
  destruct (PktDD p) as [ext|]; [|by intros [= <- <-]]. set (d0 := if _ >? _ then _ else _). assert (sel_ok d0) as Hd0.
  { unfold d0. case_if; [|done]. constructor; constructor. }
  clearbody d0. destruct (FrameDependencies _) as [fd|]; [|done]. intros ([d1 b] & E1 & E2)%res_bind_Ok.
  pose proof (admit_ok _ _ _ _ _ Hd0 E1) as Hd1. clear E1. revert E2. cbn [fst snd].
  destruct b; cbn [negb]; [|by intros [= <- <-]].
  destruct (findTarget _ _ _ _) as [[h dti]|]; [|intros [= <- <-]; by apply addDecision_ok].
  repeat (case_if; [intros [= <- <-]; by apply addDecision_ok|]). intros Ef%Ok_inj.
  pose proof (forward_ok ext fd (Marker p) d1 r0 (Layer h) (DecodeTargets ext) Hd1) as H. by rewrite Ef in H.
Qed.

End invariant.
