(* ===== verification/DdSelectorSpec.v ===== *)
(** * What the dependency descriptor selector guarantees

    The invariants of the selector of [DdSelector], and its properties: it
    never panics on what the parser emits, the frames it forwards are linked
    by an intact chain to frames it did not drop, a dropped frame breaks the
    chains that wait for it, and the descriptor it sends is readable. *)

From stdpp Require Import sorting.
From S2P Require Import Prelude DdTypes Packet DdBits DdReader DdWriter DdCodec DdSafe.
From S2P Require Import DecisionCache LayerSelectors FrameChain DdParser DdSelector.

Section runs.
Context {T : Type}.
Implicit Types d : Selector T.

(** ** Runs of the selector *)

(** The calls on a selector; the setters act on its [Base]. *)
Inductive SelectorOp :=
| OpSelect (p : ExtPacket)
| OpRollback
| OpBase (f : Base T -> Base T).

Definition selector_step (op : SelectorOp) d : res dd_error (Selector T) :=
  match op with
  | OpSelect p => let! x := Select d p in Ok (fst x)
  | OpRollback => Ok (RollbackDd d)
  | OpBase f => Ok (d <| ds_base := f (ds_base d) |>)
  end.

Fixpoint selector_run (ops : list SelectorOp) d : res dd_error (Selector T) :=
  match ops with
  | [] => Ok d
  | op :: ops => let! d := selector_step op d in selector_run ops d
  end.

Lemma selector_run_ok ops d d' : sel_ok d -> selector_run ops d = Ok d' -> sel_ok d'.
Proof.
  revert d. induction ops as [|op ops IH]; intros d Hd; cbn [selector_run]; [by intros [= <-]|].
  intros (d1 & E1 & E2)%res_bind_Ok. apply (IH d1); [|done]. clear E2 IH. destruct op as [p| |f]; cbn [selector_step] in E1.
  - apply res_bind_Ok in E1 as ([d2 r] & E1 & [= <-]). by eapply Select_ok.
  - injection E1 as <-. destruct Hd. by constructor.
  - injection E1 as <-. destruct Hd. by constructor.
Qed.
End runs.

(** ** The fixed part of a chain *)

(** The index and the activity of the chain [r], which callbacks never change. *)
Definition static (st : gmap Z FrameChain) (r : Z) : option (Z * bool) :=
  (fun fc => (chainIdx fc, fc_active fc)) <$> st !! r.

Lemma static_alter g r r' st :
  (forall fc, chainIdx (g fc) = chainIdx fc /\ fc_active (g fc) = fc_active fc) ->
  static (alter g r st) r' = static st r'.
Proof.
  intros Hg. unfold static. destruct (decide (r = r')) as [->|Hne]; [|by rewrite lookup_alter_ne].
  rewrite lookup_alter_eq. destruct (st !! r') as [fc|]; [|done]. cbn. destruct (Hg fc) as [-> ->]. done.
Qed.

Lemma static_insert fc' r r' st fc : st !! r = Some fc ->
  chainIdx fc' = chainIdx fc -> fc_active fc' = fc_active fc -> static (<[r := fc']> st) r' = static st r'.
Proof.
  intros Hr H1 H2. unfold static. destruct (decide (r = r')) as [->|Hne]; [|by rewrite lookup_insert_ne].
  rewrite lookup_insert_eq, Hr. cbn. congruence.
Qed.

Lemma OnExpect_static e sd fc : chainIdx (OnExpectFrameChanged e sd fc) = chainIdx fc /\
  fc_active (OnExpectFrameChanged e sd fc) = fc_active fc.
Proof. unfold OnExpectFrameChanged. case_if; [done|]. destruct (index_of _ _ _); [|done]. by case_if. Qed.

Lemma addEntity_static e sd (cst : Cache * gmap Z FrameChain) r :
  static (snd (addEntity fire e sd cst)) r = static (snd cst) r.
Proof.
  apply (addEntity_keeps (fun st => static st r = static (snd cst) r)); [..|done];
    intros; (etransitivity; [|eassumption]); apply static_alter, OnExpect_static.
Qed.

Lemma GetDecision_masks (c c' : Cache) x : initialized c' = initialized c -> base c' = base c -> last c' = last c ->
  numEntries c' = numEntries c -> masks c' = masks c -> GetDecision c' x = GetDecision c x.
Proof. unfold GetDecision. intros -> Hb -> Hn Hm. rewrite Hb, Hn, (getEntity_ext c c') by done. done. Qed.

(** [OnFrame] decides nothing, and keeps every chain but its own. *)
Lemma ChainOnFrame_frame r n fd (cst : Cache * gmap Z FrameChain) :
  let cst' := fst (ChainOnFrame r n fd cst) in
  (forall x, GetDecision (fst cst') x = GetDecision (fst cst) x) /\
  (forall r', static (snd cst') r' = static (snd cst) r') /\
  (forall r', r' <> r -> snd cst' !! r' = snd cst !! r').
Proof.
  destruct cst as [c st]. cbv zeta. unfold ChainOnFrame. cbn [fst snd].
  destruct (st !! r) as [fc|] eqn:Er; [|done].
  assert (Hset : forall fc', chainIdx fc' = chainIdx fc -> fc_active fc' = fc_active fc ->
    (forall r', static (<[r := fc']> st) r' = static st r') /\ (forall r', r' <> r -> <[r := fc']> st !! r' = st !! r')).
  { intros fc' H1 H2. split; [intros r'; by apply (static_insert fc' r r' st fc)|].
    intros r' Hne. by rewrite lookup_insert_ne. }
  case_if; [done|]. destruct (zlookup _ _) as [diff|]; [|done]. case_if; [by split; [|apply Hset]|].
  case_if; [done|]. cbv zeta. destruct (fst (GetDecision c _)); try (by split; [|apply Hset]); [done|].
  unfold ExpectDecision. case_if; [by split; [|apply Hset]|]. case_if; [by split; [|apply Hset]|].
  cbn [fst snd]. split; [|by apply Hset]. intros x. by apply GetDecision_masks.
Qed.

(** A chain is intact after a frame only if the frame starts it over, or its
    predecessor in the chain was forwarded or is still expected. *)
Definition chain_link (c : Cache) (n : Z) (fd : FrameDependencyTemplate) (idx : Z) : Prop :=
  exists diff, zlookup (ChainDiffs fd) idx = Some diff /\
    (diff = 0 \/ fst (GetDecision c (u64 (n - u64 diff))) = selectorDecisionForwarded \/
     fst (GetDecision c (u64 (n - u64 diff))) = selectorDecisionUnknown).

Lemma ChainOnFrame_link r n fd (c : Cache) st idx fc' : static st r = Some (idx, true) ->
  is_Some (zlookup (ChainDiffs fd) idx) ->
  snd (fst (ChainOnFrame r n fd (c, st))) !! r = Some fc' -> broken fc' = false -> chain_link c n fd idx.
Proof.
  unfold static. intros Hs [diff Ed]. unfold ChainOnFrame. destruct (st !! r) as [fc|] eqn:Er; [|done].
  cbn in Hs. injection Hs as Hi Ha. rewrite Ha, Hi, Ed. cbn [negb]. unfold chain_link.
  destruct (Z.eqb_spec diff 0); [eauto|]. destruct (broken fc) eqn:Hbr; [cbn; congruence|]. cbv zeta.
  assert (Hbad : forall (c0 : Cache), snd (c0, <[r := fc <| broken := true |>]> st) !! r = Some fc' -> broken fc' = false -> False).
  { intros c0. cbn. rewrite lookup_insert_eq. by intros [= <-]. }
  destruct (fst (GetDecision c _)) eqn:Eg; eauto.
  - by intros H1 H2; destruct (Hbad c H1 H2).
  - by intros H1 H2; destruct (Hbad c H1 H2).
Qed.

Section selector.
Context {T : Type}.
Implicit Types d : Selector T.

Lemma chainsOnFrame_frame n fd d :
  (forall x, GetDecision (decisions (chainsOnFrame n fd d)) x = GetDecision (decisions d) x) /\
  (forall r, static (ds_store (chainsOnFrame n fd d)) r = static (ds_store d) r).
Proof.
  unfold chainsOnFrame, with_cache. cbn [decisions ds_store field_upd].
  change (decisions d) with (fst (decisions d, ds_store d)) at 2.
  change (ds_store d) with (snd (decisions d, ds_store d)) at 4.
  generalize (decisions d, ds_store d). induction (chains d) as [|r l IH]; intros cst; [done|].
  cbn [foldl]. destruct (IH (fst (ChainOnFrame r n fd cst))) as [H1 H2].
  destruct (ChainOnFrame_frame r n fd cst) as (G1 & G2 & _). split; intros x; [by rewrite H1|by rewrite H2].
Qed.

Lemma chainsOnFrame_link n fd d r idx fc' : NoDup (chains d) -> r ∈ chains d ->
  static (ds_store d) r = Some (idx, true) -> is_Some (zlookup (ChainDiffs fd) idx) ->
  ds_store (chainsOnFrame n fd d) !! r = Some fc' -> broken fc' = false -> chain_link (decisions d) n fd idx.
Proof.
  unfold chainsOnFrame, with_cache. cbn [decisions ds_store field_upd]. intros Hnd Hin Hs Hd.
  change (static (ds_store d) r) with (static (snd (decisions d, ds_store d)) r) in Hs.
  change (decisions d) with (fst (decisions d, ds_store d)) at 2.
  revert Hs. generalize (decisions d, ds_store d). revert Hnd Hin.
  induction (chains d) as [|r0 l IH]; intros Hnd Hin cst Hs; [by apply not_elem_of_nil in Hin|].
  cbn [foldl]. apply NoDup_cons in Hnd as [Hr0 Hnd]. apply elem_of_cons in Hin as [->|Hin].
  - intros H1 H2. assert (snd (fst (ChainOnFrame r0 n fd cst)) !! r0 = Some fc') as H3.
    { rewrite <- H1. clear -Hr0. generalize (fst (ChainOnFrame r0 n fd cst)).
      induction l as [|r l IH]; intros cst'; [done|]. cbn [foldl]. apply not_elem_of_cons in Hr0 as [Hne Hr0].
      rewrite <- (IH Hr0). destruct (ChainOnFrame_frame r n fd cst') as (_ & _ & H). by rewrite H. }
    destruct cst as [c st]. by eapply ChainOnFrame_link.
  - intros H1 H2. destruct (ChainOnFrame_frame r0 n fd cst) as (G1 & G2 & _).
    destruct (IH Hnd Hin (fst (ChainOnFrame r0 n fd cst))) as (diff & E1 & E2); [by rewrite G2|done|done|].
    exists diff. by rewrite !G1 in E2.
Qed.

(** ** The structure of the chains *)

(** Chains are numbered by their position, each target hangs on the chain the
    structure gives it, and the chain of an active target is active. *)
Record sel_struct d : Prop := {
  ss_chains : forall i r, zlookup (chains d) i = Some r -> exists a, static (ds_store d) r = Some (i, a);
  ss_active : Forall (fun dt => forall r, dt_chain dt = Some r -> dt_active dt = true ->
                exists i, static (ds_store d) r = Some (i, true)) (ds_targets d);
  ss_protect : Forall (fun dt => exists st, ds_structure d = Some st /\
                zlen (chains d) = Z.of_nat (Z.to_nat (NumChains st)) /\
                protectedBy st (chains d) (dt_target dt) = Ok (dt_chain dt)) (ds_targets d);
}.

Lemma chain_position d i j r : sel_struct d ->
  zlookup (chains d) i = Some r -> zlookup (chains d) j = Some r -> i = j.
Proof. intros Hd Hi Hj. destruct (ss_chains d Hd i r Hi) as [a E], (ss_chains d Hd j r Hj) as [b E']. congruence. Qed.

Lemma chains_NoDup d : sel_struct d -> NoDup (chains d).
Proof.
  intros Hd. apply NoDup_alt. intros i j r Hi Hj.
  pose proof (chain_position d (Z.of_nat i) (Z.of_nat j) r Hd) as H. unfold zlookup in H.
  rewrite !(proj2 (Z.leb_le _ _)), !Nat2Z.id in H by lia. specialize (H Hi Hj). lia.
Qed.

(** Steps that keep the chains, the targets and the structure. *)
Lemma struct_frame d d' : sel_struct d -> chains d' = chains d -> ds_targets d' = ds_targets d ->
  ds_structure d' = ds_structure d -> (forall r, static (ds_store d') r = static (ds_store d) r) -> sel_struct d'.
Proof.
  intros [H1 H2 H3] E1 E2 E3 E4. constructor; rewrite ?E1, ?E2, ?E3.
  - intros i r Hi. rewrite E4. by apply H1.
  - eapply Forall_impl; [exact H2|]. cbv beta. intros dt H r Hr Ha. rewrite E4. by apply H.
  - done.
Qed.

Lemma struct_addDecision n sd d : sel_struct d -> sel_struct (addDecision n sd d).
Proof. intros Hd. apply (struct_frame d); try done. intros r. unfold addDecision, with_cache. cbn [ds_store field_upd]. by rewrite addEntity_static. Qed.

Lemma struct_chainsOnFrame n fd d : sel_struct d -> sel_struct (chainsOnFrame n fd d).
Proof. intros Hd. apply (struct_frame d); try done. apply chainsOnFrame_frame. Qed.

Lemma struct_invalidate d : sel_struct (invalidateKeyFrame d).
Proof. constructor; [|constructor..]. intros i r H. unfold zlookup in H. cbn in H. by case_if_in H. Qed.

(** The new chains of a structure. *)
Lemma zlookup_snoc {A} (l : list A) x i y : zlookup (l ++ [x]) i = Some y ->
  zlookup l i = Some y \/ i = zlen l /\ y = x.
Proof.
  unfold zlookup, zlen. destruct (Z.leb_spec 0 i); [|done]. intros H0.
  apply lookup_app_Some in H0 as [H0|[Hl H0]]; [by left|]. right.
  apply list_lookup_singleton_Some in H0 as [H0 <-]. split; [lia|done].
Qed.

Lemma newChains_struct n0 d k :
  (forall i r, zlookup (chains d) i = Some r -> r < nextRef d /\ exists a, static (ds_store d) r = Some (i, a)) ->
  zlen (chains d) = Z.of_nat n0 ->
  let d' := foldl newChain d (Z.of_nat <$> seq n0 k) in
  (forall i r, zlookup (chains d') i = Some r -> r < nextRef d' /\ exists a, static (ds_store d') r = Some (i, a)) /\
  zlen (chains d') = Z.of_nat (n0 + k) /\ ds_structure d' = ds_structure d /\ extKeyFrameNum d' = extKeyFrameNum d.
Proof.
  revert n0 d. induction k as [|k IH]; intros n0 d Hc Hl; cbn [seq fmap list_fmap foldl]; [by rewrite Nat.add_0_r|].
  destruct (IH (Datatypes.S n0) (newChain d (Z.of_nat n0))) as (H1 & H2 & H3 & H4).
  - intros i r Hi. cbn [newChain chains field_upd] in Hi. cbn [newChain nextRef ds_store field_upd].
    apply zlookup_snoc in Hi as [Hi|[-> ->]].
    + destruct (Hc i r Hi) as [Hr [a Ha]]. split; [lia|]. exists a. unfold static in *.
      rewrite lookup_insert_ne by lia. done.
    + split; [lia|]. exists false. unfold static. rewrite lookup_insert_eq. cbn. by rewrite Hl.
  - cbn [newChain chains field_upd]. rewrite zlen_app, Hl. unfold zlen. cbn. lia.
  - split_and!; [exact H1|rewrite H2; lia|exact H3|exact H4].
Qed.

Lemma newTargets_ok st cs l targets : newTargets st cs l = Ok targets ->
  dt_target <$> targets = l /\
  Forall (fun dt => dt_active dt = false /\ protectedBy st cs (dt_target dt) = Ok (dt_chain dt)) targets.
Proof.
  revert targets. induction l as [|dt l IH]; intros targets; cbn [newTargets]; [by intros [= <-]|].
  intros (c & E1 & (rest & E2 & [= <-])%res_bind_Ok)%res_bind_Ok. destruct (IH rest E2) as [H1 H2].
  split; [by cbn; rewrite H1|]. by constructor.
Qed.

Lemma struct_update st l n d d' : updateDependencyStructure st l n d = Ok d' ->
  sel_struct d' /\ ds_structure d' = Some st /\ extKeyFrameNum d' = n /\
  zlen (chains d') = Z.of_nat (Z.to_nat (NumChains st)) /\ dt_target <$> ds_targets d' = l.
Proof.
  unfold updateDependencyStructure. cbv zeta. intros (targets & Et & E)%res_bind_Ok. injection E as <-.
  set (d0 := d <| ds_structure := _ |> <| extKeyFrameNum := _ |> <| keyFrameValid := _ |> <| chains := _ |>) in *.
  destruct (newChains_struct 0 d0 (Z.to_nat (NumChains st))) as (H1 & H2 & H3 & H4).
  { intros i r Hi. unfold zlookup in Hi. cbn in Hi. by case_if_in Hi. }
  { done. }
  fold (zseq (Z.to_nat (NumChains st))) in *. change (Z.of_nat <$> seq 0 ?k) with (zseq k) in *.
  set (d1 := foldl newChain d0 _) in *. destruct (newTargets_ok _ _ _ _ Et) as [H5 H6].
  split; [|split_and!; [exact H3|exact H4|exact H2|exact H5]].
  constructor; cbn [chains ds_targets ds_store ds_structure field_upd].
  - intros i r Hi. by destruct (H1 i r Hi).
  - eapply Forall_impl; [exact H6|]. cbv beta. intros dt [-> _] r _ [=].
  - eapply Forall_impl; [exact H6|]. cbv beta. intros dt [_ Hp]. exists st. split; [exact H3|]. split; [exact H2|exact Hp].
Qed.
End selector.

(** ** Activity of the chains *)

Lemma foldl_alter_notin (g : FrameChain -> FrameChain) l (st : gmap Z FrameChain) r : r ∉ l ->
  foldl (fun st r => alter g r st) st l !! r = st !! r.
Proof.
  revert st. induction l as [|r0 l IH]; intros st Hr; [done|]. apply not_elem_of_cons in Hr as [Hne Hr].
  cbn [foldl]. by rewrite IH, lookup_alter_ne by done.
Qed.

Lemma foldl_alter_lookup (g : FrameChain -> FrameChain) l (st : gmap Z FrameChain) r : NoDup l -> r ∈ l ->
  foldl (fun st r => alter g r st) st l !! r = g <$> st !! r.
Proof.
  revert st. induction l as [|r0 l IH]; intros st Hnd Hr; [by apply not_elem_of_nil in Hr|].
  apply NoDup_cons in Hnd as [Hr0 Hnd]. cbn [foldl]. apply elem_of_cons in Hr as [->|Hr].
  - by rewrite foldl_alter_notin, lookup_alter_eq by done.
  - rewrite IH by done. rewrite lookup_alter_ne; [done|]. by intros ->.
Qed.

Definition updating (st : gmap Z FrameChain) (r : Z) : option (Z * bool) :=
  (fun fc => (chainIdx fc, updatingActive fc)) <$> st !! r.

Lemma UpdateActive_updating mask dt st r i b : updating st r = Some (i, b) ->
  let '(dt', st') := UpdateActive mask dt st in
  updating st' r = Some (i, b || (bool_decide (dt_chain dt = Some r) && dt_active dt')) /\
  dt_target dt' = dt_target dt /\ dt_chain dt' = dt_chain dt.
Proof.
  intros Hr. unfold UpdateActive. cbv zeta. split; [|done]. cbn [dt_active field_upd].
  set (a := negb _). clearbody a. unfold updating in *. destruct (dt_chain dt) as [r0|].
  2: { by rewrite bool_decide_eq_false_2, orb_false_r. }
  destruct (decide (r0 = r)) as [->|Hne].
  - rewrite bool_decide_eq_true_2 by done. rewrite lookup_alter_eq. destruct (st !! r) as [fc|]; [|done].
    cbn in *. by injection Hr as <- <-.
  - rewrite lookup_alter_ne, bool_decide_eq_false_2 by (done || congruence). cbn [andb]. by rewrite orb_false_r.
Qed.

Lemma updateTargets_updating mask l st r i b : updating st r = Some (i, b) ->
  let '(l', st') := updateTargets mask l st in
  updating st' r = Some (i, b || existsb (fun dt => bool_decide (dt_chain dt = Some r) && dt_active dt) l').
Proof.
  revert st b. induction l as [|dt l IH]; intros st b Hr; cbn [updateTargets]; [by rewrite orb_false_r|].
  pose proof (UpdateActive_updating mask dt st r i b Hr) as H. destruct (UpdateActive mask dt st) as [dt' st1].
  destruct H as (H1 & _ & H3). specialize (IH st1 _ H1). destruct (updateTargets mask l st1) as [l' st2].
  rewrite IH. cbn [existsb]. by rewrite H3, orb_assoc.
Qed.

Lemma updateTargets_same mask l st :
  let '(l', st') := updateTargets mask l st in
  (fun dt => (dt_target dt, dt_chain dt)) <$> l' = (fun dt => (dt_target dt, dt_chain dt)) <$> l.
Proof.
  revert st. induction l as [|dt l IH]; intros st; cbn [updateTargets]; [done|].
  unfold UpdateActive. cbv zeta. match goal with |- context [updateTargets mask l ?x] => specialize (IH x); destruct (updateTargets mask l x) end.
  cbn [fmap list_fmap]. by f_equal.
Qed.

Lemma Forall_same {A B} (f : A -> B) (P : A -> Prop) l l' : (forall x y, f x = f y -> P x -> P y) ->
  f <$> l' = f <$> l -> Forall P l -> Forall P l'.
Proof.
  intros Hf. revert l. induction l' as [|y l' IH]; intros [|x l] E H; try done. cbn [fmap list_fmap] in E.
  injection E as E1 E2. apply Forall_cons in H as [Hx H]. constructor; [by apply (Hf x)|by apply (IH l)].
Qed.

Lemma EndUpdateActive_static fc : (chainIdx (EndUpdateActive fc), fc_active (EndUpdateActive fc)) = (chainIdx fc, updatingActive fc).
Proof. unfold EndUpdateActive. cbv zeta. destruct fc as [b i a u e]. cbn. by destruct u, a. Qed.

Section selector.
Context {T : Type}.
Implicit Types d : Selector T.

Lemma protectedBy_in st cs dt r : protectedBy st cs dt = Ok (Some r) ->
  exists i, zlookup (DecodeTargetProtectedByChain st) (Target dt) = Some i /\ zlookup cs i = Some r.
Proof.
  unfold protectedBy. case_if; [|done]. destruct (zlookup _ (Target dt)) as [i|]; [|done]. case_if; [done|].
  destruct (zlookup cs i) eqn:Er; [|done]. intros [= <-]. eauto.
Qed.

Lemma updateActive_static mask d i r : sel_struct d -> zlookup (chains d) i = Some r ->
  static (ds_store (updateActiveDecodeTargets mask d)) r =
    Some (i, existsb (fun dt => bool_decide (dt_chain dt = Some r) && dt_active dt)
               (ds_targets (updateActiveDecodeTargets mask d))).
Proof.
  intros Hd Hi. pose proof (chains_NoDup d Hd) as Hnd. destruct (zlookup_Some _ _ _ Hi) as [_ Hin].
  apply list_elem_of_lookup_2 in Hin. destruct (ss_chains d Hd i r Hi) as [a Ha]. unfold updateActiveDecodeTargets.
  set (st := foldl _ (ds_store d) _). assert (updating st r = Some (i, false)) as Hu.
  { unfold updating, st. rewrite foldl_alter_lookup by done. unfold static in Ha.
    destruct (ds_store d !! r) as [fc|]; [|done]. cbn in *. by injection Ha as <- _. }
  pose proof (updateTargets_updating mask (ds_targets d) st r i false Hu) as H.
  destruct (updateTargets mask (ds_targets d) st) as [l' st']. cbn [orb] in H. cbn [ds_store ds_targets field_upd].
  unfold static. rewrite foldl_alter_lookup by done. unfold updating in H. destruct (st' !! r) as [fc|]; [|done].
  change (EndUpdateActive <$> Some fc) with (Some (EndUpdateActive fc)). cbn [fmap option_fmap option_map] in *.
  rewrite EndUpdateActive_static. exact H.
Qed.

Lemma struct_updateActive mask d : sel_struct d -> sel_struct (updateActiveDecodeTargets mask d).
Proof.
  intros Hd. assert (Hst : forall i r, zlookup (chains d) i = Some r -> exists a,
    static (ds_store (updateActiveDecodeTargets mask d)) r = Some (i, a)).
  { intros i r Hi. eexists. by apply updateActive_static. }
  pose proof (updateActive_static mask d) as Hact.
  assert (chains (updateActiveDecodeTargets mask d) = chains d /\
    ds_structure (updateActiveDecodeTargets mask d) = ds_structure d /\
    (fun dt => (dt_target dt, dt_chain dt)) <$> ds_targets (updateActiveDecodeTargets mask d) =
    (fun dt => (dt_target dt, dt_chain dt)) <$> ds_targets d) as (E1 & E2 & E3).
  { unfold updateActiveDecodeTargets. set (st := foldl _ (ds_store d) _).
    pose proof (updateTargets_same mask (ds_targets d) st) as Hs. destruct (updateTargets _ _ _). done. }
  set (d' := updateActiveDecodeTargets mask d) in *. clearbody d'.
  assert (Hp : Forall (fun dt => exists st, ds_structure d = Some st /\
                zlen (chains d) = Z.of_nat (Z.to_nat (NumChains st)) /\
                protectedBy st (chains d) (dt_target dt) = Ok (dt_chain dt)) (ds_targets d')).
  { eapply Forall_same; [|exact E3|exact (ss_protect d Hd)]. cbv beta. intros x y [= -> ->]. done. }
  constructor; rewrite ?E1, ?E2; [done| |done].
  apply Forall_forall. intros dt Hdt r Hr Ha. rewrite Forall_forall in Hp.
  destruct (Hp dt Hdt) as (st & _ & _ & Hpr). rewrite Hr in Hpr. apply protectedBy_in in Hpr as (i & _ & Hi).
  exists i. rewrite (Hact i r Hd Hi). f_equal. f_equal. apply existsb_exists. exists dt.
  split; [by apply list_elem_of_In|]. by rewrite bool_decide_eq_true_2, Ha.
Qed.

Lemma struct_admit ext fd d d' b : sel_struct d -> admit_packet ext fd d = Ok (d', b) -> sel_struct d'.
Proof.
  intros Hd. unfold admit_packet. cbv zeta. case_if; [by intros [= <- <-]|].
  destruct (GetDecision _ _) as [sd tooOld]. case_if; [by intros [= <- <-]|].
  intros (d1 & E1 & E2)%res_bind_Ok. assert (sel_struct d1) as Hd1.
  { destruct (StructureUpdated ext); [|by injection E1 as <-]. destruct (AttachedStructure _); [|done].
    by apply struct_update in E1 as [E1 _]. }
  clear E1. revert E2. case_if; [intros [= <- <-]; apply struct_invalidate|].
  intros (d2 & F1 & F2)%res_bind_Ok. assert (sel_struct d2) as Hd2.
  { destruct (ActiveDecodeTargetsUpdated ext); [|by injection F1 as <-].
    destruct (ActiveDecodeTargetsBitmask _); [|done]. injection F1 as <-. by apply struct_updateActive. }
  clear F1. revert F2. case_if; intros [= <- <-]; [by apply struct_addDecision|by apply struct_chainsOnFrame].
Qed.

Lemma forward_frame ext fd marker d r layer l :
  let d' := fst (forward ext fd marker (switchTo layer l (d, r))) in
  chains d' = chains d /\ ds_targets d' = ds_targets d /\ ds_structure d' = ds_structure d /\
  (forall r, static (ds_store d') r = static (ds_store d) r) /\ extKeyFrameNum d' = extKeyFrameNum d /\
  currentLayer (ds_base d') = layer /\ targetLayer (ds_base d') = targetLayer (ds_base d).
Proof.
  cbv zeta. unfold switchTo.
  match goal with |- context [forward _ _ _ ?x] => set (x1 := x) end.
  assert (chains (fst x1) = chains d /\ ds_targets (fst x1) = ds_targets d /\ ds_structure (fst x1) = ds_structure d /\
    ds_store (fst x1) = ds_store d /\ extKeyFrameNum (fst x1) = extKeyFrameNum d /\
    currentLayer (ds_base (fst x1)) = layer /\ targetLayer (ds_base (fst x1)) = targetLayer (ds_base d))
    as (H1 & H2 & H3 & H4 & H5 & H6 & H7).
  { unfold x1. destruct (bool_decide_reflect (currentLayer (ds_base d) = layer)); done. }
  destruct x1 as [d1 r1]. cbn [fst] in *. unfold forward. destruct (UpdateAndGetFn _ _ _) as [w fn]. cbv zeta.
  set (d2 := d1 <| fnWrapper := w |>).
  assert (forall n sd r, static (ds_store (addDecision n sd d2)) r = static (ds_store d) r) as Hs.
  { intros n sd r0. unfold addDecision, with_cache. cbn [ds_store field_upd]. rewrite addEntity_static. cbn. by rewrite H4. }
  assert (Hd : forall n sd, let d' := addDecision n sd d2 in
    chains d' = chains d /\ ds_targets d' = ds_targets d /\ ds_structure d' = ds_structure d /\
    (forall r, static (ds_store d') r = static (ds_store d) r) /\ extKeyFrameNum d' = extKeyFrameNum d /\
    currentLayer (ds_base d') = layer /\ targetLayer (ds_base d') = targetLayer (ds_base d)).
  { intros n sd. exact (conj H1 (conj H2 (conj H3 (conj (Hs n sd) (conj H5 (conj H6 H7)))))). }
  destruct (Marshal _ _); [|apply Hd]. destruct (Integrity ext); [apply Hd|].
  refine (conj H1 (conj H2 (conj H3 (conj _ (conj H5 (conj H6 H7)))))). intros r0. cbn. by rewrite H4.
Qed.

Lemma struct_Select d p d' r : sel_struct d -> Select d p = Ok (d', r) -> sel_struct d'.
Proof.
  intros Hd. unfold Select. cbv zeta. set (r0 := if IsValid _ then _ else _).
  destruct (PktDD p) as [ext|]; [|by intros [= <- <-]]. set (d0 := if _ >? _ then _ else _).
  assert (sel_struct d0) as Hd0.
  { unfold d0. case_if; [|done]. constructor; [|constructor..]. intros i c Hi. unfold zlookup in Hi. cbn in Hi. by case_if_in Hi. }
  clearbody d0. destruct (FrameDependencies _) as [fd|]; [|done]. intros ([d1 b] & E1 & E2)%res_bind_Ok.
  pose proof (struct_admit _ _ _ _ _ Hd0 E1) as Hd1. clear E1. revert E2.
  destruct b; cbn [negb]; [|by intros [= <- <-]].
  destruct (findTarget _ _ _ _) as [[h dti]|]; [|intros [= <- <-]; by apply struct_addDecision].
  repeat (case_if; [intros [= <- <-]; by apply struct_addDecision|]). intros Ef%Ok_inj.
  destruct (forward_frame ext fd (Marker p) d1 r0 (Layer h) (DecodeTargets ext)) as (H1 & H2 & H3 & H4 & _).
  rewrite Ef in H1, H2, H3, H4. by apply (struct_frame d1).
Qed.

Lemma selector_run_struct ops d d' : sel_struct d -> selector_run ops d = Ok d' -> sel_struct d'.
Proof.
  revert d. induction ops as [|op ops IH]; intros d Hd; cbn [selector_run]; [by intros [= <-]|].
  intros (d1 & E1 & E2)%res_bind_Ok. apply (IH d1); [|done]. clear E2 IH. destruct op as [p| |f]; cbn [selector_step] in E1.
  - apply res_bind_Ok in E1 as ([d2 r] & E1 & [= <-]). by eapply struct_Select.
  - injection E1 as <-. by apply (struct_frame d).
  - injection E1 as <-. by apply (struct_frame d).
Qed.

Lemma new_selector_ok (b : Base T) :
  sel_ok (NewDependencyDescriptorFromOther b) /\ sel_struct (NewDependencyDescriptorFromOther b).
Proof.
  split; constructor; try constructor. intros i c Hi. unfold zlookup in Hi. cbn in Hi. by case_if_in Hi.
Qed.
End selector.

(** ** Properties *)

(** *** A stream of two frames, for the witnesses *)

Definition ex_targets : list DecodeTargetLayer :=
  [mkDecodeTargetLayer 3 (mkLayer 1 1); mkDecodeTargetLayer 2 (mkLayer 1 0);
   mkDecodeTargetLayer 1 (mkLayer 0 1); mkDecodeTargetLayer 0 (mkLayer 0 0)].

Definition ex_switch_frame (fdiffs chainDiffs : list Z) : FrameDependencyTemplate :=
  mkTemplate 0 0 (Some (repeat DecodeTargetSwitch 4)) (Some fdiffs) chainDiffs.

Definition ex_packet (ext : ExtDependencyDescriptor) : ExtPacket :=
  plain_packet 100 9000 false false 1000 <| PktDD := Some ext |>.

(** The key frame 1000. *)
Definition ex_key : ExtDependencyDescriptor :=
  mkExtDD (mkDescriptor true true 1000 (Some (ex_switch_frame [] [0; 0])) (Some (mkRenderResolution 320 180)) (Some 15) (Some ex_structure))
    ex_targets true true true 1000 1000 0.

(** The frame [n], which refers to the frame [k] before it. *)
Definition ex_delta (n k : Z) : ExtDependencyDescriptor :=
  mkExtDD (mkDescriptor true true n (Some (ex_switch_frame [k] [k; k])) (Some (mkRenderResolution 320 180)) None None)
    ex_targets false false true n 1000 0.

Definition ex_selector : Selector VP8Temporal :=
  NewDependencyDescriptorFromOther (NewBase <| maxLayer := mkLayer 2 3 |> <| targetLayer := mkLayer 1 1 |>).

(** The selector after some packets. *)
Definition ex_after (l : list ExtDependencyDescriptor) : Selector VP8Temporal :=
  match selector_run ((fun e => OpSelect (ex_packet e)) <$> l) ex_selector with
  | Ok d => d
  | Err _ => ex_selector
  end.

(** C12: in every state the selector reaches, dropping a frame that a chain
    still waits for breaks the chain, and no decode target it protects is
    valid any more. *)
Theorem drop_breaks_chain {T} ops (b : Base T) d r fc x dt :
  selector_run ops (NewDependencyDescriptorFromOther b) = Ok d ->
  r ∈ chains d -> ds_store d !! r = Some fc -> x ∈ expectFrames fc -> base (decisions d) < x ->
  dt_chain dt = Some r ->
  let d' := addDropped x d in
  (exists fc', ds_store d' !! r = Some fc' /\ broken fc' = true) /\ Valid (ds_store d') dt = false.
Proof.
  intros Hrun Hr Hfc Hx Hb Hdt. destruct (selector_run_ok _ _ _ (proj1 (new_selector_ok b)) Hrun) as [_ Hok].
  rewrite Forall_forall in Hok. specialize (Hok r Hr).
  destruct (addEntity_breaks r x (decisions d) (ds_store d) Hok) as (fc' & H1 & H2); [|by left|].
  { exists fc. split; [done|by right]. }
  cbv zeta. unfold addDropped, addDecision, with_cache. cbn [ds_store field_upd]. split; [by exists fc'|].
  unfold Valid, Broken. by rewrite Hdt, H1, H2.
Qed.

Lemma drop_breaks_chain_witness :
  let d' := addDropped 1001 (ex_after [ex_key; ex_delta 1002 1]) in
  (exists fc', ds_store d' !! 0 = Some fc' /\ broken fc' = true) /\
  Valid (ds_store d') (mkDecodeTarget (mkDecodeTargetLayer 1 (mkLayer 0 1)) (Some 0) true) = false.
Proof.
  apply (drop_breaks_chain ((fun e => OpSelect (ex_packet e)) <$> [ex_key; ex_delta 1002 1])
    (NewBase <| maxLayer := mkLayer 2 3 |> <| targetLayer := mkLayer 1 1 |>)
    (ex_after [ex_key; ex_delta 1002 1]) 0 (mkChain false 0 true false [1001]) 1001).
  - vm_compute. reflexivity.
  - vm_compute. left.
  - vm_compute. reflexivity.
  - left.
  - vm_compute. reflexivity.
  - reflexivity.
Defined.

(** *** Frames that are forwarded *)

Section forwarded.
Context {T : Type}.
Implicit Types d : Selector T.

Lemma newChains_frame l d : decisions (foldl newChain d l) = decisions d /\ ds_base (foldl newChain d l) = ds_base d.
Proof. revert d. induction l as [|i l IH]; intros d; [done|]. exact (IH (newChain d i)). Qed.

Lemma updateStructure_frame st l n d d' : updateDependencyStructure st l n d = Ok d' ->
  decisions d' = decisions d /\ ds_base d' = ds_base d.
Proof.
  unfold updateDependencyStructure. cbv zeta. intros (targets & _ & E)%res_bind_Ok. apply Ok_inj in E as <-.
  exact (newChains_frame (zseq (Z.to_nat (NumChains st))) (d <| ds_structure := Some st |> <| extKeyFrameNum := n |> <| keyFrameValid := true |> <| chains := [] |>)).
Qed.

Lemma updateActive_fields mask d :
  let d' := updateActiveDecodeTargets mask d in
  decisions d' = decisions d /\ extKeyFrameNum d' = extKeyFrameNum d /\ ds_base d' = ds_base d /\ chains d' = chains d /\
  ds_structure d' = ds_structure d /\ keyFrameValid d' = keyFrameValid d.
Proof. unfold updateActiveDecodeTargets. by destruct (updateTargets _ _ _). Qed.

(** The state an admitted packet finds its chains in. *)
Lemma admit_spec ext fd d d1 : sel_struct d -> admit_packet ext fd d = Ok (d1, true) ->
  exists d2, d1 = chainsOnFrame (ExtFrameNum ext) fd d2 /\ sel_struct d2 /\ zlen (ChainDiffs fd) = zlen (chains d2) /\
    ExtKeyFrameNum ext = extKeyFrameNum d2 /\ decisions d2 = decisions d /\ ds_base d2 = ds_base d /\
    fst (GetDecision (decisions d) (ExtFrameNum ext)) <> selectorDecisionDropped /\
    snd (GetDecision (decisions d) (ExtFrameNum ext)) = false.
Proof.
  intros Hd. unfold admit_packet. cbv zeta. case_if; [done|].
  destruct (GetDecision _ _) as [sd tooOld] eqn:Eg. cbn [fst snd]. destruct tooOld; [done|]. cbn [orb].
  destruct (bool_decide_reflect (sd = selectorDecisionDropped)) as [|Hsd]; [done|].
  intros (d3 & E1 & E2)%res_bind_Ok. assert (sel_struct d3 /\ decisions d3 = decisions d /\ ds_base d3 = ds_base d) as (Hd3 & D3 & B3).
  { destruct (StructureUpdated ext); [|by injection E1 as <-]. destruct (AttachedStructure _); [|done].
    split; [by apply struct_update in E1 as [? _]|by apply updateStructure_frame in E1]. }
  clear E1. revert E2. destruct (Z.eqb_spec (ExtKeyFrameNum ext) (extKeyFrameNum d3)) as [Ek|]; cbn [negb]; [|done].
  intros (d2 & F1 & F2)%res_bind_Ok.
  assert (sel_struct d2 /\ decisions d2 = decisions d /\ extKeyFrameNum d2 = extKeyFrameNum d3 /\ ds_base d2 = ds_base d) as (Hd2 & D2 & K2 & B2).
  { destruct (ActiveDecodeTargetsUpdated ext); [|by injection F1 as <-]. destruct (ActiveDecodeTargetsBitmask _) as [mask|]; [|done].
    injection F1 as <-. destruct (updateActive_fields mask d3) as (U1 & U2 & U3 & _).
    split_and!; [by apply struct_updateActive|congruence|done|congruence]. }
  clear F1. revert F2. destruct (Z.eqb_spec (zlen (ChainDiffs fd)) (zlen (chains d2))) as [El|]; cbn [negb]; [|done].
  intros [= <-]. exists d2. split_and!; try done. congruence.
Qed.

Lemma findTarget_spec target fd st l h dti : findTarget target fd st l = Some (h, dti) -> 0 <= Target h ->
  exists dt, dt ∈ l /\ dt_target dt = h /\ eligible target dt = true /\ Valid st dt = true /\
    zlookup (elems (DecodeTargetIndications fd)) (Target h) = Some dti.
Proof.
  intros H Hh. revert H. induction l as [|dt l IH]; cbn [findTarget]; [intros [= <- <-]; cbn in Hh; lia|].
  destruct (eligible target dt) eqn:Ee; cbn [negb].
  2: { intros H. destruct (IH H) as (dt' & ? & ?). exists dt'. split; [by right|done]. }
  unfold TargetOnFrame. destruct (zlookup _ (Target (dt_target dt))) as [i|] eqn:Ei; [|done]. destruct (Valid st dt) eqn:Ev.
  - intros [= <- <-]. exists dt. split_and!; try done; left.
  - intros H. destruct (IH H) as (dt' & ? & ?). exists dt'. split; [by right|done].
Qed.

(** The frame is linked to its predecessors in the chain of the target. *)
Lemma target_link d2 n fd dt st c : sel_struct d2 -> dt ∈ ds_targets d2 -> dt_active dt = true ->
  Valid (ds_store (chainsOnFrame n fd d2)) dt = true -> ds_structure d2 = Some st ->
  zlen (ChainDiffs fd) = zlen (chains d2) ->
  0 < NumChains st -> zlookup (DecodeTargetProtectedByChain st) (Target (dt_target dt)) = Some c -> c < NumChains st ->
  chain_link (decisions d2) n fd c.
Proof.
  intros Hd Hdt Ha Hv Hst Hl Hn Hc Hcn. pose proof (ss_protect _ Hd) as Hp. pose proof (ss_active _ Hd) as Hac.
  rewrite Forall_forall in Hp, Hac. destruct (Hp dt Hdt) as (st' & Est & Hlen & Hpr). rewrite Hst in Est. injection Est as <-.
  unfold protectedBy in Hpr. rewrite Hc, Z.gtb_ltb, (proj2 (Z.ltb_lt _ _)) in Hpr by done.
  destruct (Z.geb_spec c (zlen (chains d2))); [lia|]. destruct (zlookup (chains d2) c) as [r|] eqn:Er; [|done].
  injection Hpr as Hch. destruct (Hac dt Hdt r (eq_sym Hch) Ha) as [i Hi]. destruct (ss_chains _ Hd c r Er) as [a Hca].
  rewrite Hca in Hi. injection Hi as <- ->. unfold Valid in Hv. rewrite <- Hch in Hv.
  destruct (ds_store (chainsOnFrame n fd d2) !! r) as [fc|] eqn:Ef; [|done]. apply negb_true_iff in Hv.
  destruct (zlookup_Some _ _ _ Er) as [Hc0 Hin]. apply list_elem_of_lookup_2 in Hin.
  eapply chainsOnFrame_link; [by apply chains_NoDup|exact Hin|exact Hca| |exact Ef|exact Hv].
  destruct (zlookup_lt (ChainDiffs fd) c) as [x Hx]; [|by exists x].
  unfold zlookup in Er. case_if_in Er; [|done]. bool_prop. lia.
Qed.

Lemma isDecodable_spec n fd c : isDecodable n fd c = true ->
  Forall (fun fdiff => fdiff <> 0 -> fst (GetDecision c (u64 (n - u64 fdiff))) <> selectorDecisionDropped) (elems (FrameDiffs fd)).
Proof.
  unfold isDecodable. rewrite forallb_forall. intros H. apply Forall_forall. intros x Hx Hne.
  apply list_elem_of_In in Hx. specialize (H x Hx). cbv beta in H. rewrite (proj2 (Z.eqb_neq _ _) Hne) in H. cbn [orb] in H.
  by apply negb_true_iff, bool_decide_eq_false in H.
Qed.
End forwarded.

Section selected.
Context {T : Type}.
Implicit Types d : Selector T.

(** The selector as it looks at a packet of its own or a newer stream. *)
Definition entering (ext : ExtDependencyDescriptor) d : Selector T :=
  if RestartGeneration ext >? restartGeneration d then restart (RestartGeneration ext) d else d.

Lemma entering_struct ext d : sel_struct d -> sel_struct (entering ext d) /\ ds_base (entering ext d) = ds_base d.
Proof.
  intros Hd. unfold entering. case_if; [|done]. split; [|done]. constructor; [|constructor..].
  intros i c Hi. unfold zlookup in Hi. cbn in Hi. by case_if_in Hi.
Qed.

Lemma forward_result ext fd marker d r layer l : IsSelected r = false ->
  let '(d', r') := forward ext fd marker (switchTo layer l (d, r)) in
  IsSwitching r' = (IsSwitching r || negb (bool_decide (currentLayer (ds_base d) = layer))) /\
  (IsSelected r' = true -> is_Some (DependencyDescriptorExtension r')).
Proof.
  intros Hr. unfold switchTo. destruct (bool_decide_reflect (currentLayer (ds_base d) = layer)); cbn [negb];
    unfold forward; destruct (UpdateAndGetFn _ _ _) as [w fn]; cbv zeta; destruct (Marshal _ _).
  - cbn. rewrite orb_false_r. split; [done|eauto].
  - rewrite orb_false_r. split; [done|congruence].
  - rewrite orb_true_r. cbn. split; [by destruct (IsValid _)|eauto].
  - rewrite orb_true_r. destruct (IsValid (currentLayer (ds_base d))); cbn; split; try done; congruence.
Qed.

(** C3: a frame is forwarded only in an unbroken line of decisions.  If a
    reachable selector selects a packet, its frame was not dropped before and
    belongs to the current key frame; the layer forwarded is that of an active
    decode target within the target layer that needs the frame; no frame it
    refers to was dropped; and in the chain that protects the target it either
    starts over, or its predecessor was forwarded or may still arrive. *)
Theorem Select_forwards ops (b : Base T) d p d' r :
  selector_run ops (NewDependencyDescriptorFromOther b) = Ok d ->
  Select d p = Ok (d', r) -> IsSelected r = true ->
  exists ext fd dt dti, PktDD p = Some ext /\ FrameDependencies (Descriptor ext) = Some fd /\
    let n := ExtFrameNum ext in
    let seen x := fst (GetDecision (decisions (entering ext d)) x) in
    seen n <> selectorDecisionDropped /\ ExtKeyFrameNum ext = extKeyFrameNum d' /\
    dt ∈ ds_targets d' /\ eligible (targetLayer (ds_base d)) dt = true /\
    currentLayer (ds_base d') = Layer (dt_target dt) /\
    (IsSwitching r = true <-> currentLayer (ds_base d') <> currentLayer (ds_base d)) /\
    zlookup (elems (DecodeTargetIndications fd)) (Target (dt_target dt)) = Some dti /\ dti <> DecodeTargetNotPresent /\
    Forall (fun fdiff => fdiff <> 0 -> seen (u64 (n - u64 fdiff)) <> selectorDecisionDropped) (elems (FrameDiffs fd)) /\
    (forall st c, ds_structure d' = Some st -> 0 < NumChains st -> c < NumChains st ->
       zlookup (DecodeTargetProtectedByChain st) (Target (dt_target dt)) = Some c ->
       exists diff, zlookup (ChainDiffs fd) c = Some diff /\
         (diff = 0 \/ seen (u64 (n - u64 diff)) = selectorDecisionForwarded \/
          seen (u64 (n - u64 diff)) = selectorDecisionUnknown)).
Proof.
  intros Hrun. pose proof (selector_run_struct _ _ _ (proj2 (new_selector_ok b)) Hrun) as Hd. clear Hrun.
  unfold Select. cbv zeta. set (r0 := if IsValid _ then _ else _).
  assert (IsSelected r0 = false /\ IsSwitching r0 = false) as [Hr0 Hsw0] by (unfold r0; by case_if).
  destruct (PktDD p) as [ext|]; [|intros [= <- <-]; congruence]. fold (entering ext d).
  destruct (entering_struct ext d Hd) as [Hd0 Hb0]. destruct (FrameDependencies (Descriptor ext)) as [fd|] eqn:Efd; [|done].
  intros ([d1 adm] & E1 & E2)%res_bind_Ok. destruct adm; cbn [negb] in E2; [|injection E2 as <- <-; congruence].
  destruct (admit_spec _ _ _ _ Hd0 E1) as (d2 & -> & Hd2 & Hl & Ek & D2 & B2 & Hnd & _). clear E1.
  set (d3 := chainsOnFrame (ExtFrameNum ext) fd d2) in *.
  destruct (chainsOnFrame_frame (ExtFrameNum ext) fd d2) as [Hdec Hstat]. fold d3 in Hdec, Hstat.
  destruct (findTarget _ _ _ _) as [[h dti]|] eqn:Eft; [|injection E2 as <- <-; congruence].
  destruct (Z.ltb_spec (Target h) 0) as [|Hh]; [injection E2 as <- <-; congruence|].
  destruct (bool_decide_reflect (dti = DecodeTargetNotPresent)) as [|Hdti]; [injection E2 as <- <-; congruence|].
  destruct (isDecodable _ _ _) eqn:Edc; cbn [negb] in E2; [|injection E2 as <- <-; congruence].
  apply Ok_inj in E2. destruct (findTarget_spec _ _ _ _ _ _ Eft Hh) as (dt & Hin & Eh & Hel & Hv & Hdl).
  pose proof (forward_frame ext fd (Marker p) d3 r0 (Layer h) (DecodeTargets ext)) as (_ & F2 & F3 & _ & F5 & F6 & _).
  pose proof (forward_result ext fd (Marker p) d3 r0 (Layer h) (DecodeTargets ext) Hr0) as Hfr.
  rewrite E2 in F2, F3, F5, F6, Hfr. cbn [fst] in *. destruct Hfr as [Hsw _]. intros Hsel.
  assert (ds_base d3 = ds_base d) as Hb3 by (etransitivity; [exact B2|exact Hb0]).
  exists ext, fd, dt, dti. split; [done|]. split; [done|].
  split; [done|]. split; [rewrite F5; exact Ek|]. split; [by rewrite F2|]. split; [by rewrite <- Hb3|].
  split; [by rewrite Eh|]. split; [rewrite Hsw, Hsw0, Hb3, F6; cbn [orb]|].
  { rewrite negb_true_iff, bool_decide_eq_false. split; intros Hne E; by apply Hne. }
  split; [by rewrite Eh|]. split; [done|]. rewrite <- D2. split.
  - eapply Forall_impl; [apply isDecodable_spec; exact Edc|]. cbv beta. intros x H Hne. specialize (H Hne). by rewrite Hdec in H.
  - intros st c Hst Hn Hcn Hc. rewrite F3 in Hst. apply andb_true_iff in Hel as [Hel _]. apply andb_true_iff in Hel as [Hact _].
    exact (target_link d2 (ExtFrameNum ext) fd dt st c Hd2 Hin Hact Hv Hst Hl Hn Hc Hcn).
Qed.
End selected.

Lemma Select_forwards_witness :
  let d := ex_after [ex_key] in
  exists d' r, Select d (ex_packet (ex_delta 1001 1)) = Ok (d', r) /\ IsSelected r = true /\
  exists ext fd dt dti, PktDD (ex_packet (ex_delta 1001 1)) = Some ext /\ FrameDependencies (Descriptor ext) = Some fd /\
    ExtKeyFrameNum ext = extKeyFrameNum d' /\ dt ∈ ds_targets d' /\
    zlookup (elems (DecodeTargetIndications fd)) (Target (dt_target dt)) = Some dti /\ dti <> DecodeTargetNotPresent.
Proof.
  cbv zeta. destruct (Select (ex_after [ex_key]) (ex_packet (ex_delta 1001 1))) as [[d' r]|e] eqn:Es.
  2: { exfalso. revert Es. vm_compute. discriminate. }
  assert (IsSelected r = true) as Hsel by (revert Es; vm_compute; intros Es; injection Es as _ <-; reflexivity).
  exists d', r. split; [reflexivity|]. split; [exact Hsel|].
  assert (selector_run ((fun e => OpSelect (ex_packet e)) <$> [ex_key]) ex_selector = Ok (ex_after [ex_key])) as Hrun
    by (vm_compute; reflexivity).
  destruct (Select_forwards _ _ _ _ _ _ Hrun Es Hsel) as (ext & fd & dt & dti & H1 & H2 & _ & H3 & H4 & _ & _ & _ & H5 & H6 & _).
  exists ext, fd, dt, dti. split; [exact H1|]. split; [exact H2|]. split; [exact H3|]. split; [exact H4|]. split; [exact H5|exact H6].
Defined.

(** *** No panics *)

Section total.
Context {T : Type}.
Implicit Types d : Selector T.

Lemma newTargets_total st cs l : structure_ok st -> targets_of st l -> zlen cs = NumChains st ->
  exists targets, newTargets st cs l = Ok targets.
Proof.
  intros Hst Hl Hcs. pose proof (tl_ok _ _ Hl) as Hok. clear Hl. induction Hok as [|dt l [Ht _ _ _] _ IH]; cbn [newTargets]; [eauto|].
  destruct IH as [rest Er]. assert (exists c, protectedBy st cs dt = Ok c) as [c Ec].
  { unfold protectedBy. rewrite Z.gtb_ltb. destruct (Z.ltb_spec 0 (NumChains st)); [|eauto].
    pose proof (s_protected _ Hst) as Hp. pose proof (s_protected_range _ Hst) as Hr.
    rewrite (proj2 (Z.eqb_neq _ _)) in Hp by lia.
    destruct (zlookup_lt (DecodeTargetProtectedByChain st) (Target dt) ltac:(lia)) as [c Ec]. rewrite Ec.
    destruct (zlookup_Some _ _ _ Ec) as [_ Hc]. pose proof (Forall_lookup_1 _ _ _ _ Hr Hc) as Hcr. cbv beta in Hcr.
    case_if; [eauto|]. destruct (zlookup_lt cs c ltac:(lia)) as [r ->]. eauto. }
  rewrite Ec. cbn [res_bind]. rewrite Er. cbn [res_bind]. eauto.
Qed.

Lemma admit_total ext fd d : ext_ok ext -> exists x, admit_packet ext fd d = Ok x.
Proof.
  intros Hext. destruct (e_desc _ Hext) as (st & f & Hst & Hd & _ & Htg).
  unfold admit_packet. cbv zeta. case_if; [eauto|]. destruct (GetDecision _ _) as [sd tooOld]. case_if; [eauto|].
  assert (exists d1, (if StructureUpdated ext then
     match AttachedStructure (Descriptor ext) with
     | None => Err panicNil
     | Some st => updateDependencyStructure st (DecodeTargets ext) (ExtFrameNum ext) d
     end else Ok d) = Ok d1) as [d1 ->].
  { destruct (StructureUpdated ext) eqn:Eu; [|eauto]. destruct (proj1 (e_updated _ Hext) Eu) as [st' Ea]. rewrite Ea.
    destruct (d_attached _ _ _ Hd) as [E'|[E' _]]; [congruence|]. rewrite E' in Ea. injection Ea as <-.
    destruct Htg as [Htg|[_ E'']]; [|congruence]. unfold updateDependencyStructure. cbv zeta.
    match goal with |- context [newTargets st ?cs _] => destruct (newTargets_total st cs (DecodeTargets ext) Hst Htg) as [targets ->] end.
    { match goal with |- context [foldl newChain ?x _] => destruct (newChains_struct 0 x (Z.to_nat (NumChains st))) as (_ & H2 & _) end.
      - intros i r Hi. unfold zlookup in Hi. cbn in Hi. by case_if_in Hi.
      - done.
      - unfold zseq. etransitivity; [exact H2|]. pose proof (s_chains _ Hst). lia. }
    cbn [res_bind]. eauto. }
  cbn [res_bind]. case_if; [eauto|]. destruct (ActiveDecodeTargetsUpdated ext) eqn:Eu.
  - destruct (e_mask _ Hext Eu) as [m ->]. cbn [res_bind]. case_if; eauto.
  - cbn [res_bind]. case_if; eauto.
Qed.

Lemma Select_total d p : (forall ext, PktDD p = Some ext -> ext_ok ext) -> exists x, Select d p = Ok x.
Proof.
  intros Hp. unfold Select. cbv zeta. destruct (PktDD p) as [ext|]; [|eauto]. specialize (Hp ext eq_refl).
  destruct (e_desc _ Hp) as (st & f & _ & Hd & _). rewrite (d_frame _ _ _ Hd).
  match goal with |- context [admit_packet ext f ?x] => destruct (admit_total ext f x Hp) as [[d1 adm] ->] end.
  cbn [res_bind]. case_if; [eauto|]. destruct (findTarget _ _ _ _) as [[h dti]|]; [|eauto]. repeat (case_if; [eauto|]). eauto.
Qed.

(** C8: the parser and the selector together never panic: whatever bytes the
    extensions of a stream hold, the selector runs through all the packets
    whose descriptors the parser accepts. *)
Theorem pipeline_never_panics {WA} sort `{!SortsTargets sort} seqUpdate frameUpdate (wa : WA) restart l
  (b : Base T) (pkts : list ExtPacket) :
  Forall (fun p => forall buf, snd p = Some buf -> bytes buf) l ->
  Forall (fun p => forall ext, PktDD p = Some ext ->
    Ok ext ∈ parse_run sort seqUpdate frameUpdate l (NewDependencyDescriptorParser wa restart)) pkts ->
  exists d', selector_run (OpSelect <$> pkts) (NewDependencyDescriptorFromOther b) = Ok d'.
Proof.
  intros Hl Hp. destruct (parse_run_inv sort seqUpdate frameUpdate l (NewDependencyDescriptorParser wa restart) Hl eq_refl) as (Hout & _).
  rewrite Forall_forall in Hout. generalize (NewDependencyDescriptorFromOther b).
  induction Hp as [|p pkts Hp _ IH]; intros d; cbn [fmap list_fmap selector_run selector_step]; [eauto|].
  destruct (Select_total d p) as [x ->]; [|cbn [res_bind]; apply IH]. intros ext E. exact (Hout (Ok ext) (Hp ext E)).
Qed.

(** *** The descriptor sent *)

Lemma findFirst_total st f l i : in_layer st f -> Templates st = l -> exists x, findFirst f i l = Some x.
Proof.
  intros (t & Hin & Hs & Ht) E. rewrite E in Hin. clear E. revert i Hin. induction l as [|t' l IH]; intros i Hin;
    [by apply not_elem_of_nil in Hin|]. cbn [findFirst]. case_if; [eauto|]. apply elem_of_cons in Hin as [<-|Hin]; [|by apply IH].
  exfalso. unfold same_layer in *. rewrite Hs, Ht, !Z.eqb_refl in *. done.
Qed.

Lemma findBest_total st ac f : in_layer st f -> exists best, findBestTemplate st ac f = Ok best.
Proof.
  intros Hf. unfold findBestTemplate. destruct (findFirst_total st f _ 0 Hf eq_refl) as [[i t] ->]. eauto.
Qed.

Lemma rewriteDescriptor_ok st fn mask dd f : descriptor_ok st dd f -> 0 <= fn < 65536 ->
  (forall m, mask = Some m -> 0 <= m < 2 ^ NumDecodeTargets st) -> descriptor_ok st (rewriteDescriptor fn mask dd) f /\
  FrameNumber (rewriteDescriptor fn mask dd) = fn /\ AttachedStructure (rewriteDescriptor fn mask dd) = AttachedStructure dd.
Proof.
  intros [H1 H2 H3 H4 H5 H6 H7 H8 H9] Hfn Hm. unfold rewriteDescriptor.
  destruct (Z.eqb_spec fn (FrameNumber dd)) as [E|E]; cbn [negb]; destruct (AttachedStructure dd) as [st'|] eqn:Ea, mask as [m|];
    (split; [|split; [cbn; congruence|cbn; congruence]]); constructor; cbn; try done; try lia;
    rewrite ?Ea; try (by left); try (intros m' [= <-]; by apply Hm); try done.
Qed.

(** The mask of the selector fits the structure. *)
Definition mask_fits st d : Prop :=
  forall m, activeDecodeTargetsBitmask d = Some m -> 0 <= m < 2 ^ NumDecodeTargets st.

(** C15: for a frame that fits the selector's structure, where the selector's
    bitmask of active targets fits the structure too ([mask_fits]), the end of
    [Select] succeeds: the packet is selected with a descriptor that carries
    the rewritten frame number, in bytes; and a receiver that knows the
    structure reads it back exactly, provided the template that the writer
    finds has the frame's layer ([best_in_layer]).  The two conditions can
    fail: a new structure keeps the mask of the old one
    ([new_structure_keeps_stale_mask]), and the writer can choose a template of
    another layer ([findBestTemplate_other_layer]). *)
Theorem forward_readable ext fd marker d r st :
  structure_ok st -> descriptor_ok st (Descriptor ext) fd -> in_layer st fd -> ds_structure d = Some st ->
  mask_fits st d ->
  let '(d', r') := forward ext fd marker (d, r) in
  let fn := u16 (snd (UpdateAndGetFn (ExtFrameNum ext) (StructureUpdated ext) (fnWrapper d))) in
  let sent := rewriteDescriptor fn (activeDecodeTargetsBitmask d) (Descriptor ext) in
  IsSelected r' = true /\ FrameNumber sent = fn /\
  exists buf best, DependencyDescriptorExtension r' = Some buf /\ bytes buf /\
    findBestTemplate st allChains fd = Ok best /\
    (best_in_layer st fd (TemplateIdx best) = true -> Unmarshal buf (Some st) emptyDescriptor = Ok (sent, zlen buf)).
Proof.
  intros Hst Hd Hin Hs Hm. unfold forward. destruct (UpdateAndGetFn _ _ _) as [w fn] eqn:Ew. cbv zeta. cbn [snd].
  cbn [ds_structure activeDecodeTargetsBitmask field_upd]. rewrite Hs.
  destruct (rewriteDescriptor_ok st (u16 fn) (activeDecodeTargetsBitmask d) _ _ Hd (u16_range fn) Hm) as (Hd' & Hn & Ha).
  set (sent := rewriteDescriptor _ _ _) in *. destruct (findBest_total st allChains fd Hin) as [best Hbest].
  destruct (Marshal_ok st sent fd best Hst Hd' Hbest) as (buf & k & E & Hb & _ & Hbits & Hk). rewrite E.
  split; [done|]. split; [exact Hn|]. exists buf, best. split; [done|]. split; [done|]. split; [done|].
  intros Hbl. by apply (Unmarshal_ok (mkDDWriter sent fd st allChains best) buf (Some st) k).
Qed.
End total.

(** The packets of a parsed stream. *)
Definition packets_of (outs : list (res parse_error ExtDependencyDescriptor)) : list ExtPacket :=
  omap (fun o => match o with Ok e => Some (ex_packet e) | Err _ => None end) outs.

Lemma packets_of_parsed outs : Forall (fun p => forall ext, PktDD p = Some ext -> Ok ext ∈ outs) (packets_of outs).
Proof.
  apply Forall_forall. intros p Hp ext E. apply list_elem_of_omap in Hp as (o & Ho & Eo).
  destruct o as [e|]; [|discriminate Eo]. apply (inj Some) in Eo. subst p. change (Some e = Some ext) in E.
  apply (inj Some) in E. by subst ext.
Qed.

Lemma pipeline_never_panics_witness :
  let pkts := packets_of (parse_run (merge_sort not_below) plain_seq plain_frame
    [(0, 1, Some ex_key1); (1, 2, None); (2, 3, Some ex_key2)] (NewDependencyDescriptorParser tt true)) in
  length pkts = 2%nat /\
  exists d', selector_run (OpSelect <$> pkts) (NewDependencyDescriptorFromOther (T := VP8Temporal) NewBase) = Ok d'.
Proof.
  cbv zeta. split; [vm_compute; reflexivity|].
  apply (pipeline_never_panics (merge_sort not_below) plain_seq plain_frame tt true
    [(0, 1, Some ex_key1); (1, 2, None); (2, 3, Some ex_key2)]).
  - repeat (apply Forall_cons; split; [intros buf E; cbn in E; try discriminate E; injection E as <-|]); [..|constructor];
      repeat (apply Forall_cons; split; [unfold byte; lia|]); constructor.
  - apply packets_of_parsed.
Defined.

Lemma ex_delta_ok : descriptor_ok ex_structure (Descriptor (ex_delta 1003 3)) (ex_switch_frame [3] [3; 3]).
Proof.
  constructor; [done|cbn; lia|done|by left|split; [by eexists|done]|by eexists|eexists; split; [reflexivity|]|done|];
    cbn; repeat (apply Forall_cons; split; [lia|]); constructor.
Qed.

Lemma forward_readable_witness :
  let d := ex_selector <| ds_structure := Some ex_structure |> <| activeDecodeTargetsBitmask := Some 15 |> in
  let '(d', r') := forward (ex_delta 1003 3) (ex_switch_frame [3] [3; 3]) false (d, emptyResult) in
  IsSelected r' = true /\ exists buf, DependencyDescriptorExtension r' = Some buf /\
    Unmarshal buf (Some ex_structure) emptyDescriptor =
      Ok (rewriteDescriptor 1003 (Some 15) (Descriptor (ex_delta 1003 3)), zlen buf).
Proof.
  cbv zeta. set (d := ex_selector <| ds_structure := _ |> <| activeDecodeTargetsBitmask := _ |>).
  pose proof (forward_readable (ex_delta 1003 3) (ex_switch_frame [3] [3; 3]) false d emptyResult ex_structure
    ex_structure_ok ex_delta_ok) as H.
  assert (in_layer ex_structure (ex_switch_frame [3] [3; 3])) as Hin.
  { exists (ex_template 0 0 (repeat DecodeTargetSwitch 4) None [0; 0]). split; [left|by split]. }
  specialize (H Hin eq_refl ltac:(intros m Hm; injection Hm as <-; cbn; lia)).
  destruct (forward (ex_delta 1003 3) (ex_switch_frame [3] [3; 3]) false (d, emptyResult)) as [d' r'].
  destruct H as (H1 & _ & buf & best & H2 & _ & H3 & H4). split; [exact H1|]. exists buf. split; [exact H2|].
  apply H4. vm_compute in H3. injection H3 as <-. vm_compute. reflexivity.
Defined.

(** *** A stale mask *)

(** Two temporal layers, the higher target first; then one layer. *)
Definition ex_two : FrameDependencyStructure :=
  mkStructure 0 2 1 [0; 0] []
    [ex_template 0 0 [DecodeTargetSwitch; DecodeTargetSwitch] None [0];
     ex_template 0 1 [DecodeTargetSwitch; DecodeTargetNotPresent] (Some [1]) [1]].
Definition ex_one : FrameDependencyStructure :=
  mkStructure 5 1 1 [0] [] [ex_template 0 0 [DecodeTargetSwitch] None [0]; ex_template 0 0 [DecodeTargetSwitch] (Some [1]) [1]].

Definition ex_two_key : ExtDependencyDescriptor :=
  mkExtDD (mkDescriptor true true 1000 (Some (ex_template 0 0 [DecodeTargetSwitch; DecodeTargetSwitch] (Some []) [0])) None (Some 3) (Some ex_two))
    [mkDecodeTargetLayer 0 (mkLayer 0 1); mkDecodeTargetLayer 1 (mkLayer 0 0)] true true true 1000 1000 0.
Definition ex_one_frame (n : Z) (fdiffs chainDiffs : list Z) (st : option FrameDependencyStructure) : ExtDependencyDescriptor :=
  let key := bool_decide (st <> None) in
  mkExtDD (mkDescriptor true true n (Some (ex_template 0 0 [DecodeTargetSwitch] (Some fdiffs) chainDiffs)) None
             (if key then Some 1 else None) st)
    [mkDecodeTargetLayer 0 (mkLayer 0 0)] key key true n 1001 0.

(** The mask of active decode targets is renewed only when the layer
    changes, so it goes stale when a new structure numbers the targets
    differently.  Here the layer (0, 0) is target 1 of the first structure and
    target 0, the only one, of the second; the frame after the second key
    frame is forwarded for target 0 with a mask that tells the receiver that no
    target is active. *)
Theorem new_structure_keeps_stale_mask :
  let base := NewBase <| maxLayer := mkLayer 0 0 |> <| targetLayer := mkLayer 0 0 |> in
  let pkts := [ex_two_key; ex_one_frame 1001 [] [0] (Some ex_one)] in
  match selector_run ((fun e => OpSelect (ex_packet e)) <$> pkts) (NewDependencyDescriptorFromOther (T := VP8Temporal) base) with
  | Ok d =>
    match Select d (ex_packet (ex_one_frame 1002 [1] [1] None)) with
    | Ok (d', r) =>
      IsSelected r = true /\ dt_active <$> ds_targets d' = [true] /\ ds_structure d' = Some ex_one /\
      GetActiveDecodeTargetBitmask (currentLayer (ds_base d')) (DecodeTargets (ex_one_frame 1002 [1] [1] None)) = 1 /\
      match Unmarshal (elems (DependencyDescriptorExtension r)) (Some ex_one) emptyDescriptor with
      | Ok (dd, _) => ActiveDecodeTargetsBitmask dd = Some 0
      | Err _ => False
      end
    | Err _ => False
    end
  | Err _ => False
  end.
Proof. vm_compute. split_and!; reflexivity. Qed.
