(* ===== verification/Bitrates.v ===== *)
(** * Bitrates, allocations and the distance to the desired layer

    Models the data and the pure functions of the layer allocation in
    [src/SERVER/pkg/sfu/forwarder.go]: what bandwidth a subscription would
    need, what a layer needs, and how far a target is from the best layer that
    is available.  Distances and weights are floating point numbers; they are
    computed as Go computes them, in binary64 and binary32 with rounding to
    nearest even ([SpecFloat]). *)

From S2P Require Import Prelude DdTypes.
From S2P Require Import Packet.
From Stdlib Require Export SpecFloat.

(** The run-time panics of the forwarder. *)
Inductive fwd_panic := indexOutOfRange | nilPointer.

(** ** Floating point numbers *)

Definition float64_of_int (x : Z) : spec_float := binary_normalize 53 1024 x 0 false.
Definition float32_of_int (x : Z) : spec_float := binary_normalize 24 128 x 0 false.
Definition float64_div : spec_float -> spec_float -> spec_float := SFdiv 53 1024.
Definition float32_div : spec_float -> spec_float -> spec_float := SFdiv 24 128.

(** The order of floating point numbers that are not NaN is that of their
    ranks. *)
Definition rank (f : spec_float) : option (Z * Z * Z) :=
  match f with
  | S754_nan => None
  | S754_infinity true => Some (-2, 0, 0)
  | S754_finite true m e => Some (-1, - e, Z.neg m)
  | S754_zero _ => Some (0, 0, 0)
  | S754_finite false m e => Some (1, e, Z.pos m)
  | S754_infinity false => Some (2, 0, 0)
  end.

Definition rank_compare (a b : Z * Z * Z) : comparison :=
  let '(a1, a2, a3) := a in let '(b1, b2, b3) := b in
  match a1 ?= b1 with Eq => match a2 ?= b2 with Eq => a3 ?= b3 | c => c end | c => c end.

Lemma SFcompare_rank f g :
  SFcompare f g = match rank f, rank g with Some a, Some b => Some (rank_compare a b) | _, _ => None end.
Proof.
  destruct f as [[]|[]| |[] m e], g as [[]|[]| |[] m' e']; cbn; try reflexivity.
  replace (- e ?= - e') with (CompOpp (e ?= e')) by (rewrite <- Z.compare_antisym; symmetry; apply Z.compare_opp).
  by destruct (e ?= e').
Qed.

Lemma rank_compare_trans c a b d : c <> Gt -> rank_compare a b = c -> rank_compare b d <> Gt ->
  rank_compare a d <> Gt /\ (c = Lt \/ rank_compare b d = Lt -> rank_compare a d = Lt).
Proof.
  destruct a as [[a1 a2] a3], b as [[b1 b2] b3], d as [[d1 d2] d3]. cbn.
  intros Hc <- . revert Hc.
  destruct (Z.compare_spec a1 b1), (Z.compare_spec b1 d1), (Z.compare_spec a1 d1); try lia; try done;
  destruct (Z.compare_spec a2 b2), (Z.compare_spec b2 d2), (Z.compare_spec a2 d2); try lia; try done;
  destruct (Z.compare_spec a3 b3), (Z.compare_spec b3 d3), (Z.compare_spec a3 d3); try lia; try done;
  intros; split; try done; intros [?|?]; done.
Qed.

Lemma SFltb_rank f g :
  SFltb f g = match rank f, rank g with Some a, Some b => match rank_compare a b with Lt => true | _ => false end | _, _ => false end.
Proof.
  unfold SFltb. rewrite SFcompare_rank. by destruct (rank f) as [a|], (rank g) as [b|].
Qed.

Lemma SFeqb_rank f g :
  SFeqb f g = match rank f, rank g with Some a, Some b => match rank_compare a b with Eq => true | _ => false end | _, _ => false end.
Proof.
  unfold SFeqb. rewrite SFcompare_rank. by destruct (rank f) as [a|], (rank g) as [b|].
Qed.

(** ** Bitrates *)

(** [[DefaultMaxLayerSpatial+1][DefaultMaxLayerTemporal+1]int64] *)
Definition Bitrates := list (list Z).

Definition zeroBitrates : Bitrates :=
  repeat (repeat 0 (Z.to_nat (DefaultMaxLayerTemporal + 1))) (Z.to_nat (DefaultMaxLayerSpatial + 1)).

(** [brs[s][t]] *)
Definition rate (brs : Bitrates) (s t : Z) : res fwd_panic Z :=
  let! row := load indexOutOfRange brs s in load indexOutOfRange row t.

(** [brs[l.Spatial][l.Temporal]] *)
Definition rateOf (brs : Bitrates) (l : VideoLayer) : res fwd_panic Z := rate brs (Spatial l) (Temporal l).

(** The iterations of two nested loops, the outer one spatial. *)
Definition cells (ss ts : list Z) : list VideoLayer := s ← ss; t ← ts; [mkLayer s t].

(** [if brs[s][t] != 0 { return {s, t}, brs[s][t] }], the body of the nested
    loops that look for a layer with a bitrate. *)
Definition nonzero (brs : Bitrates) (l : VideoLayer) : res fwd_panic (option (VideoLayer * Z)) :=
  let! b := rateOf brs l in Ok (if b =? 0 then None else Some (l, b)).

Definition firstNonzero (brs : Bitrates) (ls : list VideoLayer) : res fwd_panic (option (VideoLayer * Z)) :=
  res_find (nonzero brs) ls.

(** The layer and bitrate variables after such a search. *)
Definition found (o : option (VideoLayer * Z)) : VideoLayer * Z :=
  default (InvalidLayer, 0) o.

Definition getOptimalBandwidthNeeded (muted pubMuted : bool) (maxPublishedLayer : Z) (brs : Bitrates)
  (maxLayer : VideoLayer) : res fwd_panic Z :=
  if muted || pubMuted || (maxPublishedLayer =? InvalidLayerSpatial) then Ok 0
  else
    let! o := firstNonzero brs (cells (zdown (Spatial maxLayer)) (zdown (Temporal maxLayer))) in
    Ok (snd (found o)).

Definition getBandwidthNeeded (brs : Bitrates) (layer : VideoLayer) (fallback : Z) : res fwd_panic Z :=
  if IsValid layer then
    let! b := rateOf brs layer in
    Ok (if b >? 0 then b else fallback)
  else Ok fallback.

(** ** Distance to desired *)

(** The highest layer with a bitrate or declared available, and the temporal
    layer that goes with the latter. *)
Definition maxAvailable (maxSeenLayer : VideoLayer) (availableLayers : list Z) (brs : Bitrates)
  : res fwd_panic (Z * Z) :=
  let! o := firstNonzero brs (cells (zdown DefaultMaxLayerSpatial) (zdown DefaultMaxLayerTemporal)) in
  let maxAvailableSpatial := Spatial (fst (found o)) in
  Ok (foldl (fun '(s, t) layer => if layer >? s then (layer, Temporal maxSeenLayer) else (s, t))
        (maxAvailableSpatial, InvalidLayerTemporal) availableLayers).

(** The maximum layer lowered to what is seen and available. *)
Definition adjustMaxLayer (maxSeenLayer : VideoLayer) (availableLayers : list Z) (brs : Bitrates)
  (maxLayer : VideoLayer) : res fwd_panic VideoLayer :=
  let! x := maxAvailable maxSeenLayer availableLayers brs in
  let '(maxAvailableSpatial, maxAvailableTemporal) := x in
  let adj := maxLayer in
  let adj := if maxAvailableSpatial <? Spatial adj then adj <| Spatial := maxAvailableSpatial |> else adj in
  let adj := if Spatial maxSeenLayer <? Spatial adj then adj <| Spatial := Spatial maxSeenLayer |> else adj in
  let! maxAvailableTemporal :=
    if negb (Spatial adj =? InvalidLayerSpatial) then
      let! o := firstNonzero brs (cells [Spatial adj] (zdown DefaultMaxLayerTemporal)) in
      Ok (match o with Some (l, _) => Temporal l | None => maxAvailableTemporal end)
    else Ok maxAvailableTemporal in
  let adj := if maxAvailableTemporal <? Temporal adj then adj <| Temporal := maxAvailableTemporal |> else adj in
  let adj := if Temporal maxSeenLayer <? Temporal adj then adj <| Temporal := Temporal maxSeenLayer |> else adj in
  Ok (if negb (IsValid adj) then mkLayer 0 0 else adj).

Definition getDistanceToDesired (muted pubMuted : bool) (maxSeenLayer : VideoLayer) (availableLayers : list Z)
  (brs : Bitrates) (targetLayer maxLayer : VideoLayer) : res fwd_panic spec_float :=
  if muted || pubMuted || negb (IsValid maxSeenLayer) || negb (IsValid maxLayer) then Ok (float64_of_int 0)
  else
    let! adj := adjustMaxLayer maxSeenLayer availableLayers brs maxLayer in
    let adjustedTargetLayer := if negb (IsValid targetLayer) then mkLayer 0 0 else targetLayer in
    let levels := i32 (Temporal maxSeenLayer + 1) in
    let distance := i32 (i32 (i32 (Spatial adj - Spatial adjustedTargetLayer) * levels)
                         + i32 (Temporal adj - Temporal adjustedTargetLayer)) in
    let distance := if negb (IsValid targetLayer) then i32 (distance + levels) else distance in
    Ok (float64_div (float64_of_int distance) (float64_of_int levels)).

(** ** Allocations *)

Inductive VideoPauseReason :=
| VideoPauseReasonNone
| VideoPauseReasonMuted
| VideoPauseReasonPubMuted
| VideoPauseReasonFeedDry
| VideoPauseReasonBandwidth.

#[export] Instance VideoPauseReason_eq_dec : EqDecision VideoPauseReason.
Proof. solve_decision. Defined.

Record VideoAllocation := mkAllocation {
  va_PauseReason : VideoPauseReason;
  va_IsDeficient : bool;
  va_BandwidthRequested : Z;
  va_BandwidthDelta : Z;
  va_BandwidthNeeded : Z;
  va_Bitrates : Bitrates;
  va_TargetLayer : VideoLayer;
  va_RequestLayerSpatial : Z;
  va_MaxLayer : VideoLayer;
  va_DistanceToDesired : spec_float;
}.
#[export] Instance eta_VideoAllocation : Eta VideoAllocation := fun v =>
  mkAllocation (va_PauseReason v) (va_IsDeficient v) (va_BandwidthRequested v) (va_BandwidthDelta v)
    (va_BandwidthNeeded v) (va_Bitrates v) (va_TargetLayer v) (va_RequestLayerSpatial v) (va_MaxLayer v)
    (va_DistanceToDesired v).

(** [VideoAllocation{}]: the zero value has the valid layer 0. *)
Definition zeroAllocation : VideoAllocation :=
  mkAllocation VideoPauseReasonNone false 0 0 0 zeroBitrates (mkLayer 0 0) 0 (mkLayer 0 0) (S754_zero false).

Definition VideoAllocationDefault : VideoAllocation :=
  zeroAllocation <| va_PauseReason := VideoPauseReasonFeedDry |> <| va_TargetLayer := InvalidLayer |>
    <| va_RequestLayerSpatial := InvalidLayerSpatial |> <| va_MaxLayer := InvalidLayer |>.

Record VideoAllocationProvisional := mkProvisional {
  vp_muted : bool;
  vp_pubMuted : bool;
  vp_maxSeenLayer : VideoLayer;
  vp_availableLayers : list Z;
  vp_bitrates : Bitrates;
  vp_maxLayer : VideoLayer;
  vp_currentLayer : VideoLayer;
  vp_allocatedLayer : VideoLayer;
}.
#[export] Instance eta_VideoAllocationProvisional : Eta VideoAllocationProvisional := fun p =>
  mkProvisional (vp_muted p) (vp_pubMuted p) (vp_maxSeenLayer p) (vp_availableLayers p) (vp_bitrates p)
    (vp_maxLayer p) (vp_currentLayer p) (vp_allocatedLayer p).

Record VideoTransition := mkTransition {
  vt_From : VideoLayer;
  vt_To : VideoLayer;
  vt_BandwidthDelta : Z;
}.

(** ** Well-formed bitrates *)

(** Rates and capacities in bits per second: a layer below 2^40, a channel
    below 2^62, so that sums over a million layers stay within [int64]. *)
Definition max_rate : Z := 1099511627776.
Definition max_capacity : Z := 4611686018427387904.

(** The array type: its dimensions, and rates that are amounts. *)
Definition wf_brs (brs : Bitrates) : Prop :=
  zlen brs = DefaultMaxLayerSpatial + 1 /\
  Forall (fun row => zlen row = DefaultMaxLayerTemporal + 1 /\ Forall (fun b => 0 <= b < max_rate) row) brs.

Lemma i64_small x : - 9223372036854775808 <= x < 9223372036854775808 -> i64 x = x.
Proof. intros Hx. unfold i64. rewrite Z.mod_small by lia. lia. Qed.

(** A layer of the array. *)
Definition in_brs (l : VideoLayer) : Prop :=
  0 <= Spatial l <= DefaultMaxLayerSpatial /\ 0 <= Temporal l <= DefaultMaxLayerTemporal.

(** The rate of a layer, zero when it is not a layer of the array. *)
Definition rate0 (brs : Bitrates) (l : VideoLayer) : Z :=
  match rateOf brs l with Ok b => b | Err _ => 0 end.

Lemma rateOf_ok brs l : wf_brs brs -> in_brs l -> rateOf brs l = Ok (rate0 brs l) /\ 0 <= rate0 brs l < max_rate.
Proof.
  intros [Hlen Hrows] [Hs Ht]. unfold rate0, rateOf, rate, load.
  destruct (zlookup_lt brs (Spatial l) ltac:(lia)) as [row Hrow]. rewrite Hrow. cbn [res_bind].
  apply zlookup_Some in Hrow as [_ Hrow]. rewrite Forall_lookup in Hrows.
  destruct (Hrows _ _ Hrow) as [Hl Hpos].
  destruct (zlookup_lt row (Temporal l) ltac:(lia)) as [b Hb]. rewrite Hb.
  apply zlookup_Some in Hb as [_ Hb]. rewrite Forall_lookup in Hpos. eauto.
Qed.

Lemma in_brs_dec_ok (l : VideoLayer) : Decision (in_brs l).
Proof. unfold in_brs. apply _. Defined.
#[export] Existing Instance in_brs_dec_ok.

Lemma in_brs_valid l : in_brs l -> IsValid l = true.
Proof. unfold in_brs, IsValid, InvalidLayerSpatial, InvalidLayerTemporal. lia. Qed.
#[export] Hint Resolve in_brs_valid : core.

Lemma elem_of_cells ss ts l : l ∈ cells ss ts <-> Spatial l ∈ ss /\ Temporal l ∈ ts.
Proof.
  unfold cells. destruct l as [s t]. rewrite list_elem_of_bind. cbn. split.
  - intros (s' & Hin & Hs). apply list_elem_of_bind in Hin as (t' & Hin & Ht).
    apply list_elem_of_singleton in Hin as [= -> ->]. done.
  - intros [Hs Ht]. exists s. split; [|done]. apply list_elem_of_bind. exists t. split; [by left|done].
Qed.

(** ** Searches

    A search over the array finds the first layer, in the order of its loops,
    that has a rate; [lex] is the order of the loops. *)

Definition lex (R : Z -> Z -> Prop) (a b : VideoLayer) : Prop :=
  R (Spatial a) (Spatial b) \/ (Spatial a = Spatial b /\ R (Temporal a) (Temporal b)).

Lemma StronglySorted_zrange lo hi : StronglySorted Z.lt (zrange lo hi).
Proof.
  unfold zrange. generalize 0%nat as k. induction (Z.to_nat (hi - lo + 1)) as [|n IH]; intros k; cbn; constructor.
  - apply IH.
  - apply Forall_forall. intros x Hx. apply list_elem_of_In, in_map_iff in Hx as (j & <- & Hj).
    apply in_seq in Hj. lia.
Qed.

Lemma StronglySorted_app {A} (R : A -> A -> Prop) l1 l2 :
  StronglySorted R l1 -> StronglySorted R l2 -> (forall x y, x ∈ l1 -> y ∈ l2 -> R x y) ->
  StronglySorted R (l1 ++ l2).
Proof.
  intros H1 H2 H. induction H1 as [|x l1 H1 IH Hx]; cbn; [done|]. constructor.
  - apply IH. intros a b Ha. apply H. by right.
  - apply Forall_app. split; [done|]. apply Forall_forall. intros y Hy. apply H; [by left|done].
Qed.

Lemma StronglySorted_rev {A} (R : A -> A -> Prop) l : StronglySorted R l -> StronglySorted (flip R) (rev l).
Proof.
  induction 1 as [|x l H IH Hx]; cbn; [constructor|]. apply StronglySorted_app; [done|repeat constructor|].
  intros a b Ha Hb. apply list_elem_of_singleton in Hb as ->. rewrite Forall_forall in Hx. apply Hx.
  rewrite list_elem_of_In in Ha |- *. by rewrite in_rev.
Qed.

Lemma StronglySorted_zdown hi : StronglySorted Z.gt (zdown hi).
Proof.
  unfold zdown. pose proof (StronglySorted_rev _ _ (StronglySorted_zrange 0 hi)) as H.
  induction H; constructor; [done|]. eapply Forall_impl; [done|]. cbn. lia.
Qed.

Lemma cells_sorted (R : Z -> Z -> Prop) ss ts :
  StronglySorted R ss -> StronglySorted R ts -> StronglySorted (lex R) (cells ss ts).
Proof.
  intros Hss Hts. unfold cells. induction Hss as [|s ss _ IH Hs]; [constructor|]. cbn.
  apply StronglySorted_app; [|exact IH|].
  - clear IH Hs. induction Hts as [|t ts _ IHt Ht]; cbn; constructor; [exact IHt|].
    apply Forall_forall. intros [s' t'] Hin. apply list_elem_of_bind in Hin as (x & Hin & Hx).
    apply list_elem_of_singleton in Hin as [= -> ->]. right. split; [done|].
    rewrite Forall_forall in Ht. by apply Ht.
  - intros [s1 t1] [s2 t2] H1 H2. apply list_elem_of_bind in H1 as (x & H1 & Hx).
    apply list_elem_of_singleton in H1 as [= -> ->]. apply (elem_of_cells ss ts) in H2 as [H2 _].
    left. rewrite Forall_forall in Hs. by apply Hs.
Qed.

Lemma StronglySorted_before {A} (R : A -> A -> Prop) l1 x l2 y :
  (forall a b, R a b -> R b a -> False) -> StronglySorted R (l1 ++ x :: l2) ->
  y ∈ l1 ++ x :: l2 -> R y x -> y ∈ l1.
Proof.
  intros Has Hs Hy Hr. apply elem_of_app in Hy as [?|Hy]; [done|]. exfalso.
  apply elem_of_cons in Hy as [->|Hy]; [by eapply Has|].
  assert (StronglySorted R (x :: l2)) as Hs2.
  { clear Hy Hr. induction l1 as [|z l1 IH]; cbn in Hs; [done|]. apply IH. by inversion Hs. }
  inversion Hs2 as [|? ? _ Hx]; subst. rewrite Forall_forall in Hx.
  exact (Has x y (Hx y Hy) Hr).
Qed.

Lemma lex_asym (R : Z -> Z -> Prop) : (forall a b, R a b -> R b a -> False) ->
  forall a b, lex R a b -> lex R b a -> False.
Proof.
  intros HR [s t] [s' t'] [H|[E H]] [H'|[E' H']]; cbn in *; subst; eauto.
Qed.

Lemma nonzero_ok brs l : wf_brs brs -> in_brs l ->
  nonzero brs l = Ok (if rate0 brs l =? 0 then None else Some (l, rate0 brs l)).
Proof. intros Hw Hl. unfold nonzero. by rewrite (proj1 (rateOf_ok _ _ Hw Hl)). Qed.

(** What a search returns: a first layer with a rate, or all rates are zero. *)
Lemma firstNonzero_ok brs ls : wf_brs brs -> Forall in_brs ls ->
  exists o, firstNonzero brs ls = Ok o /\
  match o with
  | None => Forall (fun l => rate0 brs l = 0) ls
  | Some (l, b) => b = rate0 brs l /\ 0 < b /\
      exists l1 l2, ls = l1 ++ l :: l2 /\ Forall (fun l => rate0 brs l = 0) l1
  end.
Proof.
  intros Hw. induction 1 as [|l ls Hl _ (o & Ho & IH)]; cbn; [by exists None|].
  rewrite (nonzero_ok _ _ Hw Hl). pose proof (rateOf_ok _ _ Hw Hl) as [_ Hpos].
  destruct (Z.eqb_spec (rate0 brs l) 0) as [E|E].
  - exists o. split; [exact Ho|]. destruct o as [[l' b]|].
    + destruct IH as (-> & Hb & l1 & l2 & -> & H1). split_and!; [done|done|]. exists (l :: l1), l2. eauto.
    + by constructor.
  - eexists. split; [done|]. split_and!; [done|lia|]. exists [], ls. done.
Qed.

Lemma firstNonzero_lex R brs ss ts : (forall a b, R a b -> R b a -> False) ->
  wf_brs brs -> StronglySorted R ss -> StronglySorted R ts ->
  (forall s t, s ∈ ss -> t ∈ ts -> in_brs (mkLayer s t)) ->
  exists o, firstNonzero brs (cells ss ts) = Ok o /\
  match o with
  | None => forall l, Spatial l ∈ ss -> Temporal l ∈ ts -> rate0 brs l = 0
  | Some (l, b) => b = rate0 brs l /\ 0 < b /\ Spatial l ∈ ss /\ Temporal l ∈ ts /\
      forall l', Spatial l' ∈ ss -> Temporal l' ∈ ts -> lex R l' l -> rate0 brs l' = 0
  end.
Proof.
  intros HR Hw Hss Hts Hin. destruct (firstNonzero_ok brs (cells ss ts) Hw) as (o & Ho & Hspec).
  { apply Forall_forall. intros [s t] Hl. apply elem_of_cells in Hl as [Hs Ht]. by apply Hin. }
  exists o. split; [exact Ho|]. destruct o as [[l b]|].
  - destruct Hspec as (Hb & Hpos & l1 & l2 & Hls & H1).
    assert (l ∈ cells ss ts) as Hl by (rewrite Hls; apply elem_of_app; right; by left).
    apply elem_of_cells in Hl as [Hs Ht]. split_and!; try done.
    intros l' Hs' Ht' Hlex. rewrite Forall_forall in H1. apply H1.
    apply (StronglySorted_before (lex R) l1 l l2 l'); [by apply lex_asym| | |done].
    + rewrite <- Hls. by apply cells_sorted.
    + rewrite <- Hls. by apply elem_of_cells.
  - intros l Hs Ht. rewrite Forall_forall in Hspec. apply Hspec. by apply elem_of_cells.
Qed.

(** ** The pure functions on well-formed arguments *)

(** A layer the allocator handles: in the array, or with an invalid part. *)
Definition layer_ok (l : VideoLayer) : Prop :=
  InvalidLayerSpatial <= Spatial l <= DefaultMaxLayerSpatial /\
  InvalidLayerTemporal <= Temporal l <= DefaultMaxLayerTemporal.

Lemma layer_ok_valid l : layer_ok l -> IsValid l = true -> in_brs l.
Proof.
  unfold layer_ok, in_brs, IsValid, InvalidLayerSpatial, InvalidLayerTemporal. lia.
Qed.

Lemma layer_ok_invalid : layer_ok InvalidLayer.
Proof. done. Qed.
#[export] Hint Resolve layer_ok_invalid : core.

Lemma in_brs_ok l : in_brs l -> layer_ok l.
Proof. unfold layer_ok, in_brs, InvalidLayerSpatial, InvalidLayerTemporal. lia. Qed.
#[export] Hint Resolve in_brs_ok : core.

(** [l] is under the maximum in both directions. *)
Definition under (maxLayer l : VideoLayer) : Prop :=
  0 <= Spatial l <= Spatial maxLayer /\ 0 <= Temporal l <= Temporal maxLayer.

Lemma under_in_brs maxLayer l : layer_ok maxLayer -> under maxLayer l -> in_brs l.
Proof. unfold layer_ok, under, in_brs. lia. Qed.

Lemma lex_gt l' l : lex Z.gt l' l <-> GreaterThan l' l = true.
Proof. unfold lex, GreaterThan. rewrite !Z.gtb_ltb. lia. Qed.

(** The highest layer of [P] with a rate, and that rate. *)
Definition highest (P : VideoLayer -> Prop) (brs : Bitrates) (o : option (VideoLayer * Z)) : Prop :=
  match o with
  | None => forall l, P l -> rate0 brs l = 0
  | Some (l, b) => b = rate0 brs l /\ 0 < b /\ P l /\
      forall l', P l' -> GreaterThan l' l = true -> rate0 brs l' = 0
  end.

Lemma search_down brs maxLayer : wf_brs brs -> layer_ok maxLayer ->
  exists o, firstNonzero brs (cells (zdown (Spatial maxLayer)) (zdown (Temporal maxLayer))) = Ok o /\
            highest (under maxLayer) brs o.
Proof.
  intros Hw Hm.
  destruct (firstNonzero_lex Z.gt brs (zdown (Spatial maxLayer)) (zdown (Temporal maxLayer)))
    as (o & Ho & Hspec); [lia|done|apply StronglySorted_zdown|apply StronglySorted_zdown| |].
  { intros s t Hs Ht. apply (under_in_brs maxLayer); [done|]. split; by apply elem_of_zdown. }
  exists o. split; [exact Ho|]. destruct o as [[l b]|]; cbn.
  - destruct Hspec as (Hb & Hpos & Hs & Ht & Hmax). split_and!; [done|done|split; by apply elem_of_zdown|].
    intros l' [Hs' Ht'] Hgt. apply Hmax; [by apply elem_of_zdown..|by apply lex_gt].
  - intros l [Hs Ht]. apply Hspec; by apply elem_of_zdown.
Qed.

Lemma getOptimalBandwidthNeeded_ok muted pubMuted maxPublished brs maxLayer :
  wf_brs brs -> layer_ok maxLayer ->
  exists b, getOptimalBandwidthNeeded muted pubMuted maxPublished brs maxLayer = Ok b /\ 0 <= b /\
    (muted || pubMuted || (maxPublished =? InvalidLayerSpatial) = true -> b = 0) /\
    (muted || pubMuted || (maxPublished =? InvalidLayerSpatial) = false ->
       exists o, highest (under maxLayer) brs o /\ b = snd (found o)).
Proof.
  intros Hw Hm. unfold getOptimalBandwidthNeeded. destruct (muted || _ || _); [by exists 0|].
  destruct (search_down brs maxLayer Hw Hm) as (o & -> & Ho). eexists. split; [done|]. split; [|split; [done|eauto]].
  destruct o as [[l b]|]; cbn; [|done]. destruct Ho as (_ & Hb & _). lia.
Qed.

(** The bandwidth attributed to a layer. *)
Definition needed (brs : Bitrates) (layer : VideoLayer) (fallback : Z) : Z :=
  if IsValid layer && (rate0 brs layer >? 0) then rate0 brs layer else fallback.

Lemma getBandwidthNeeded_ok brs layer fallback : wf_brs brs -> layer_ok layer ->
  getBandwidthNeeded brs layer fallback = Ok (needed brs layer fallback).
Proof.
  intros Hw Hl. unfold getBandwidthNeeded, needed. destruct (IsValid layer) eqn:Hv; [|done].
  by rewrite (proj1 (rateOf_ok _ _ Hw (layer_ok_valid _ Hl Hv))).
Qed.

Lemma maxAvailable_ok maxSeen al brs : wf_brs brs ->
  Forall (fun s => 0 <= s <= DefaultMaxLayerSpatial) al ->
  exists s t, maxAvailable maxSeen al brs = Ok (s, t) /\ InvalidLayerSpatial <= s <= DefaultMaxLayerSpatial.
Proof.
  intros Hw Hal. unfold maxAvailable.
  destruct (search_down brs DefaultMaxLayer Hw ltac:(done)) as (o & Ho & Hspec). cbn in Ho. rewrite Ho. cbn [res_bind].
  assert (InvalidLayerSpatial <= Spatial (fst (found o)) <= DefaultMaxLayerSpatial) as Hs.
  { destruct o as [[l b]|]; cbn; [|done]. destruct Hspec as (_ & _ & [Hs _] & _). cbn in Hs.
    unfold InvalidLayerSpatial. lia. }
  generalize dependent (Spatial (fst (found o))). generalize InvalidLayerTemporal as t0.
  induction Hal as [|x al Hx _ IH]; intros t0 s0 Hs; cbn; [eauto|].
  destruct (x >? s0); apply IH; [unfold InvalidLayerSpatial; lia|done].
Qed.

Lemma adjustMaxLayer_ok maxSeen al brs maxLayer : wf_brs brs -> layer_ok maxSeen -> layer_ok maxLayer ->
  Forall (fun s => 0 <= s <= DefaultMaxLayerSpatial) al ->
  exists adj, adjustMaxLayer maxSeen al brs maxLayer = Ok adj.
Proof.
  intros Hw Hms Hm Hal. unfold adjustMaxLayer.
  destruct (maxAvailable_ok maxSeen al brs Hw Hal) as (s & t & -> & Hs). cbn [res_bind].
  set (adj1 := if s <? Spatial maxLayer then _ else _).
  set (adj2 := if Spatial maxSeen <? _ then _ else _).
  assert (layer_ok adj2) as H2.
  { unfold adj2, adj1, layer_ok in *. repeat case_if; cbn in *; lia. }
  destruct (Z.eqb_spec (Spatial adj2) InvalidLayerSpatial) as [E|E]; cbn [negb]; [cbn [res_bind]; eauto|].
  destruct (firstNonzero_ok brs (cells [Spatial adj2] (zdown DefaultMaxLayerTemporal)) Hw) as (o' & -> & _).
  { apply Forall_forall. intros l Hl. apply elem_of_cells in Hl as [Hl1 Hl2].
    apply list_elem_of_singleton in Hl1. apply elem_of_zdown in Hl2.
    unfold layer_ok, in_brs, InvalidLayerSpatial in *. lia. }
  cbn [res_bind]. eauto.
Qed.

Lemma getDistanceToDesired_ok muted pubMuted maxSeen al brs target maxLayer :
  wf_brs brs -> layer_ok maxSeen -> layer_ok maxLayer -> Forall (fun s => 0 <= s <= DefaultMaxLayerSpatial) al ->
  exists d, getDistanceToDesired muted pubMuted maxSeen al brs target maxLayer = Ok d.
Proof.
  intros Hw Hms Hm Hal. unfold getDistanceToDesired. destruct (_ || _); [eauto|].
  destruct (adjustMaxLayer_ok maxSeen al brs maxLayer Hw Hms Hm Hal) as (adj & ->). cbn [res_bind]. eauto.
Qed.
