(* ===== verification/Forwarder.v ===== *)
(** * The forwarder: its state and control operations

    Models the state of [src/SERVER/pkg/sfu/forwarder.go] and the operations
    that do not see packets: settings, mute, codec, resync, sender reports,
    save and restore, and the bookkeeping every allocation ends with.  The
    allocation itself is in [Allocation], packet translation in
    [Translation].  Locks and logging are dropped.  Times are nanoseconds.

    A forwarder is built with the [Null] selector and every later assignment
    of [vls] comes from a constructor, so the field is never nil and the
    branches for nil are left out. *)

From S2P Require Import Prelude DdTypes.
From S2P Require Import Vp8 Packet RtpMunger OrderedMap Vp8Munger LayerSelectors DdSelector Bitrates.

(** ** Constants and enumerations *)

Definition FlagPauseOnDowngrade : bool := true.
Definition FlagFilterRTX : bool := false.
Definition FlagFilterRTXLayers : bool := true.
Definition TransitionCostSpatial : Z := 10.

(** A decimal fraction as a [float64] constant. *)
Definition decimal (num den : Z) : spec_float := float64_div (float64_of_int num) (float64_of_int den).

Definition ResumeBehindThresholdSeconds : spec_float := decimal 2 10.
Definition ResumeBehindHighThresholdSeconds : spec_float := decimal 2 1.
Definition LayerSwitchBehindThresholdSeconds : spec_float := decimal 5 100.
Definition SwitchAheadThresholdSeconds : spec_float := decimal 25 1000.

(** [webrtc.RTPCodecType] *)
Inductive RTPCodecType := RTPCodecTypeUnknown | RTPCodecTypeAudio | RTPCodecTypeVideo.

#[export] Instance RTPCodecType_eq_dec : EqDecision RTPCodecType.
Proof. solve_decision. Defined.

(** [mime.MimeType]: the values the forwarder tells apart. *)
Inductive MimeType :=
| MimeTypeUnknown
| MimeTypeVP8
| MimeTypeH264
| MimeTypeH265
| MimeTypeVP9
| MimeTypeAV1
| MimeTypeOther (id : Z).

#[export] Instance MimeType_eq_dec : EqDecision MimeType.
Proof. solve_decision. Defined.

(** [hublive.VideoLayer_Mode] *)
Inductive VideoLayer_Mode :=
| VideoLayer_MODE_UNUSED
| VideoLayer_ONE_SPATIAL_LAYER_PER_STREAM
| VideoLayer_MULTIPLE_SPATIAL_LAYERS_PER_STREAM
| VideoLayer_ONE_SPATIAL_LAYER_PER_STREAM_INCOMPLETE_RTCP_SR.

#[export] Instance VideoLayer_Mode_eq_dec : EqDecision VideoLayer_Mode.
Proof. solve_decision. Defined.

Definition IsSimulcastMode (m : VideoLayer_Mode) : bool :=
  bool_decide (m = VideoLayer_ONE_SPATIAL_LAYER_PER_STREAM)
  || bool_decide (m = VideoLayer_ONE_SPATIAL_LAYER_PER_STREAM_INCOMPLETE_RTCP_SR).

(** ** Layer selectors as one type *)

Inductive VideoLayerSelector :=
| VLSNull (b : Base VP8Temporal)
| VLSSimulcast (b : Base VP8Temporal)
| VLSVP9 (b : Base VP8Temporal)
| VLSDependencyDescriptor (d : Selector VP8Temporal).

Definition getBase (v : VideoLayerSelector) : Base VP8Temporal :=
  match v with
  | VLSNull b | VLSSimulcast b | VLSVP9 b => b
  | VLSDependencyDescriptor d => ds_base d
  end.

(** The setters of [Base], promoted to the selectors that embed it. *)
Definition onBase (f : Base VP8Temporal -> Base VP8Temporal) (v : VideoLayerSelector) : VideoLayerSelector :=
  match v with
  | VLSNull b => VLSNull (f b)
  | VLSSimulcast b => VLSSimulcast (f b)
  | VLSVP9 b => VLSVP9 (f b)
  | VLSDependencyDescriptor d => VLSDependencyDescriptor (d <| ds_base := f (ds_base d) |>)
  end.

Definition vlsIsOvershootOkay (v : VideoLayerSelector) : bool :=
  match v with VLSSimulcast _ => true | _ => false end.

Definition vlsCheckSync (v : VideoLayerSelector) : bool * Z :=
  match v with
  | VLSDependencyDescriptor d => CheckSyncDd d
  | _ => CheckSync (getBase v)
  end.

Definition vlsRollback (v : VideoLayerSelector) : VideoLayerSelector :=
  match v with
  | VLSDependencyDescriptor d => VLSDependencyDescriptor (RollbackDd d)
  | _ => onBase Rollback v
  end.

Definition NewSimulcastFromOther (v : VideoLayerSelector) : VideoLayerSelector := VLSSimulcast (getBase v).
Definition NewVP9FromOther (v : VideoLayerSelector) : VideoLayerSelector := VLSVP9 (getBase v).
Definition NewDDFromOther (v : VideoLayerSelector) : VideoLayerSelector :=
  VLSDependencyDescriptor (NewDependencyDescriptorFromOther (getBase v)).

Definition GetMax (v : VideoLayerSelector) : VideoLayer := maxLayer (getBase v).
Definition GetMaxSeen (v : VideoLayerSelector) : VideoLayer := maxSeenLayer (getBase v).
Definition GetTarget (v : VideoLayerSelector) : VideoLayer := targetLayer (getBase v).
Definition GetCurrent (v : VideoLayerSelector) : VideoLayer := currentLayer (getBase v).
Definition GetRequestSpatial (v : VideoLayerSelector) : Z := requestSpatial (getBase v).

Lemma getBase_onBase f v : getBase (onBase f v) = f (getBase v).
Proof. by destruct v. Qed.

Lemma overshoot_onBase f v : vlsIsOvershootOkay (onBase f v) = vlsIsOvershootOkay v.
Proof. by destruct v. Qed.
Create Rewrite HintDb vls.
#[export] Hint Rewrite getBase_onBase overshoot_onBase : vls.

(** ** State *)

(** The fields of [hublive.RTCPSenderReportState] the forwarder reads. *)
Record RTCPSenderReportState := mkSenderReport {
  NtpTimestamp : Z;
  RtpTimestamp : Z;
  RtpTimestampExt : Z;
}.

Record refInfo := mkRefInfo {
  senderReport : option RTCPSenderReportState;
  ri_tsOffset : Z;
  isTSOffsetValid : bool;
}.
#[export] Instance eta_refInfo : Eta refInfo := fun r => mkRefInfo (senderReport r) (ri_tsOffset r) (isTSOffsetValid r).

Definition emptyRefInfo : refInfo := mkRefInfo None 0 false.

(** The fields of [rtpstats.RTPStatsSender] behind [GetExpectedRTPTimestamp]. *)
Record RTPStatsSender := mkStats { st_firstTime : Z; st_clockRate : Z; st_extStartTS : Z }.

Section Forwarder.
Context {om : Type -> Type} `{OrderedMap om}.

Record Forwarder := mkForwarder {
  mime : MimeType;
  clockRate : Z;
  kind : RTPCodecType;
  skipReferenceTS : bool;
  disableOpportunisticAllocation : bool;
  rtpStats : option RTPStatsSender;
  muted : bool;
  pubMuted : bool;
  resumeBehindThreshold : spec_float;
  started : bool;
  preStartTime : option Z;
  extFirstTS : Z;
  lastSSRC : Z;
  lastReferencePayloadType : Z;
  lastSwitchExtIncomingTS : Z;
  referenceLayerSpatial : Z;
  dummyStartTSOffset : Z;
  refInfos : list refInfo;
  refVideoLayerMode : VideoLayer_Mode;
  isDDAvailable : bool;
  provisional : option VideoAllocationProvisional;
  lastAllocation : VideoAllocation;
  rtpMunger : RTPMunger;
  vls : VideoLayerSelector;
  codecMunger : CodecMunger (om := om);
}.
#[local] Instance eta_Forwarder : Eta Forwarder := fun f =>
  mkForwarder (mime f) (clockRate f) (kind f) (skipReferenceTS f) (disableOpportunisticAllocation f) (rtpStats f)
    (muted f) (pubMuted f) (resumeBehindThreshold f) (started f) (preStartTime f) (extFirstTS f) (lastSSRC f)
    (lastReferencePayloadType f) (lastSwitchExtIncomingTS f) (referenceLayerSpatial f) (dummyStartTSOffset f)
    (refInfos f) (refVideoLayerMode f) (isDDAvailable f) (provisional f) (lastAllocation f) (rtpMunger f) (vls f)
    (codecMunger f).

Definition numRefInfos : nat := Z.to_nat (DefaultMaxLayerSpatial + 1).

Definition NewForwarder (kind : RTPCodecType) (skipReferenceTS disableOpportunisticAllocation : bool)
  (rtpStats : option RTPStatsSender) : Forwarder :=
  let v := VLSNull NewBase in
  let v := if bool_decide (kind = RTPCodecTypeVideo) then onBase (SetMaxTemporal DefaultMaxLayerTemporal) v else v in
  mkForwarder MimeTypeUnknown 0 kind skipReferenceTS disableOpportunisticAllocation rtpStats false false
    (S754_zero false) false None 0 0 (-1) 0 InvalidLayerSpatial 0 (repeat emptyRefInfo numRefInfos)
    VideoLayer_MODE_UNUSED false None VideoAllocationDefault NewRTPMunger v (CMNull None).

Definition onVls (g : Base VP8Temporal -> Base VP8Temporal) (f : Forwarder) : Forwarder :=
  f <| vls := onBase g (vls f) |>.

(** ** Settings *)

Definition SetMaxPublishedLayer (maxPublishedLayer : Z) (f : Forwarder) : Forwarder * bool :=
  if maxPublishedLayer <=? Spatial (GetMaxSeen (vls f)) then (f, false)
  else (onVls (SetMaxSeenSpatial maxPublishedLayer) f, true).

Definition SetMaxTemporalLayerSeen (maxTemporalLayerSeen : Z) (f : Forwarder) : Forwarder * bool :=
  if maxTemporalLayerSeen <=? Temporal (GetMaxSeen (vls f)) then (f, false)
  else (onVls (SetMaxSeenTemporal maxTemporalLayerSeen) f, true).

(** [NormalizeMimeType] is outside the repository: [toMimeType] is its
    result, [ddAvailable] whether an extension has the URI of the dependency
    descriptor. *)
Definition DetermineCodec (toMimeType : MimeType) (codecClockRate : Z) (ddAvailable : bool)
  (videoLayerMode : VideoLayer_Mode) (f : Forwarder) : Forwarder :=
  let f := if bool_decide (videoLayerMode = VideoLayer_ONE_SPATIAL_LAYER_PER_STREAM_INCOMPLETE_RTCP_SR)
           then f <| skipReferenceTS := true |> else f in
  let f := f <| mime := toMimeType |> <| clockRate := codecClockRate |> <| refVideoLayerMode := videoLayerMode |> in
  match mime f with
  | MimeTypeVP8 =>
    f <| codecMunger := CMVP8 (NewVP8FromOther (codecMunger f)) |>
      <| vls := onBase (SetTemporalLayerSelector NewVP8Temporal) (NewSimulcastFromOther (vls f)) |>
  | MimeTypeH264 | MimeTypeH265 =>
    f <| codecMunger := CMNull None |> <| vls := NewSimulcastFromOther (vls f) |>
  | MimeTypeVP9 =>
    let f := f <| codecMunger := CMNull None |> in
    if IsSimulcastMode videoLayerMode then f <| vls := NewSimulcastFromOther (vls f) |>
    else
      let f := f <| isDDAvailable := ddAvailable |> in
      if isDDAvailable f then f <| vls := NewDDFromOther (vls f) |> else f <| vls := NewVP9FromOther (vls f) |>
  | MimeTypeAV1 =>
    let f := f <| codecMunger := CMNull None |> in
    if IsSimulcastMode videoLayerMode then f <| vls := NewSimulcastFromOther (vls f) |>
    else
      let f := f <| isDDAvailable := ddAvailable |> in
      if isDDAvailable f then f <| vls := NewDDFromOther (vls f) |> else f <| vls := NewSimulcastFromOther (vls f) |>
  | _ => f
  end.

(** ** Resync, targets and allocations *)

Definition resyncLocked (f : Forwarder) : Forwarder :=
  let f := onVls (SetCurrent InvalidLayer) f <| lastSSRC := 0 |> in
  if pubMuted f then f <| resumeBehindThreshold := ResumeBehindThresholdSeconds |> else f.

Definition Resync (f : Forwarder) : Forwarder := resyncLocked f.

Definition setTargetLayer (target : VideoLayer) (requestLayerSpatial : Z) (f : Forwarder) : Forwarder :=
  let f := onVls (SetTarget target) f in
  if IsValid target then onVls (SetRequestSpatial requestLayerSpatial) f
  else onVls (SetRequestSpatial InvalidLayerSpatial) f.

Definition updateAllocation (alloc : VideoAllocation) (f : Forwarder) : Forwarder * VideoAllocation :=
  let alloc := if IsValid (va_TargetLayer alloc) && bool_decide (mime f = MimeTypeH264)
               then alloc <| va_TargetLayer := va_TargetLayer alloc <| Temporal := 0 |> |> else alloc in
  let f := f <| lastAllocation := alloc |> in
  let f := setTargetLayer (va_TargetLayer alloc) (va_RequestLayerSpatial alloc) f in
  let f := if negb (IsValid (GetTarget (vls f))) then resyncLocked f else f in
  (f, lastAllocation f).

Definition CheckSyncForwarder (f : Forwarder) : bool * Z := vlsCheckSync (vls f).

Definition Restart (f : Forwarder) : Forwarder :=
  let f := setTargetLayer InvalidLayer InvalidLayerSpatial (resyncLocked f) in
  f <| referenceLayerSpatial := InvalidLayerSpatial |> <| lastReferencePayloadType := -1 |>
    <| refInfos := repeat emptyRefInfo (length (refInfos f)) |>
    <| lastSwitchExtIncomingTS := 0 |> <| refVideoLayerMode := VideoLayer_MODE_UNUSED |>.

(** ** Mute *)

Definition Mute (m isSubscribeMutable : bool) (f : Forwarder) : Forwarder * bool :=
  if Bool.eqb (muted f) m then (f, false)
  else if m && negb isSubscribeMutable then (f, false)
  else
    let f := f <| muted := m |> in
    ((if m then resyncLocked f else f), true).

Definition PubMute (m : bool) (f : Forwarder) : Forwarder * bool :=
  if Bool.eqb (pubMuted f) m then (f, false)
  else
    let f := f <| pubMuted := m |> in
    ((if m then resyncLocked f else f), true).

Definition IsAnyMuted (f : Forwarder) : bool := muted f || pubMuted f.

(** ** Maximum layers *)

Definition isDeficientLocked (f : Forwarder) : bool := va_IsDeficient (lastAllocation f).

(** The part of [SetMaxSpatialLayer] that sets a target before bitrates are
    known. *)
Definition opportunisticTarget (f : Forwarder) : res fwd_panic Forwarder :=
  let max := GetMax (vls f) in
  let! distance := getDistanceToDesired (muted f) (pubMuted f) (GetMaxSeen (vls f)) [] zeroBitrates max max in
  let alloc := lastAllocation f <| va_BandwidthRequested := 0 |> <| va_BandwidthDelta := 0 |>
                 <| va_Bitrates := zeroBitrates |> <| va_TargetLayer := max |>
                 <| va_RequestLayerSpatial := Spatial max |> <| va_MaxLayer := max |>
                 <| va_DistanceToDesired := distance |> in
  Ok (fst (updateAllocation alloc f)).

Definition SetMaxSpatialLayer (spatialLayer : Z) (f : Forwarder) : res fwd_panic (Forwarder * (bool * VideoLayer)) :=
  if bool_decide (kind f = RTPCodecTypeAudio) then Ok (f, (false, InvalidLayer))
  else
    let existingMax := GetMax (vls f) in
    if spatialLayer =? Spatial existingMax then Ok (f, (false, existingMax))
    else
      let f := onVls (SetMaxSpatial spatialLayer) f in
      if disableOpportunisticAllocation f then Ok (f, (true, GetMax (vls f)))
      else if negb (Spatial (GetTarget (vls f)) =? InvalidLayerSpatial) || isDeficientLocked f
              || bool_decide (va_PauseReason (lastAllocation f) = VideoPauseReasonMuted)
              || bool_decide (va_PauseReason (lastAllocation f) = VideoPauseReasonPubMuted)
      then Ok (f, (true, GetMax (vls f)))
      else
        let! f := opportunisticTarget f in
        Ok (f, (true, GetMax (vls f))).

Definition SetMaxTemporalLayer (temporalLayer : Z) (f : Forwarder) : Forwarder * (bool * VideoLayer) :=
  if bool_decide (kind f = RTPCodecTypeAudio) then (f, (false, InvalidLayer))
  else
    let existingMax := GetMax (vls f) in
    if temporalLayer =? Temporal existingMax then (f, (false, existingMax))
    else
      let f := onVls (SetMaxTemporal temporalLayer) f in (f, (true, GetMax (vls f))).

Definition refInfoAt (f : Forwarder) (layer : Z) : res fwd_panic refInfo := load indexOutOfRange (refInfos f) layer.

Definition GetMaxSubscribedSpatial (f : Forwarder) : res fwd_panic Z :=
  if muted f then Ok InvalidLayerSpatial
  else
    let layer := Z.max (Spatial (GetMax (vls f))) (Spatial (GetCurrent (vls f))) in
    let ref := referenceLayerSpatial f in
    if negb (ref =? InvalidLayerSpatial) && (layer <? ref) then
      let! ri := refInfoAt f ref in
      Ok (match senderReport ri with None => ref | Some _ => layer end)
    else Ok layer.

(** ** Sender reports *)

Definition getRefLayer (f : Forwarder) : Z * Z :=
  if lastSSRC f =? 0 then (InvalidLayerSpatial, InvalidLayerSpatial)
  else if bool_decide (kind f = RTPCodecTypeAudio) then (0, 0)
  else
    let currentLayerSpatial := Spatial (GetCurrent (vls f)) in
    if (currentLayerSpatial <? 0) || (currentLayerSpatial >? DefaultMaxLayerSpatial)
    then (InvalidLayerSpatial, InvalidLayerSpatial)
    else if bool_decide (refVideoLayerMode f = VideoLayer_MULTIPLE_SPATIAL_LAYERS_PER_STREAM)
    then (0, currentLayerSpatial)
    else (currentLayerSpatial, currentLayerSpatial).

Definition SetRefSenderReport (layer : Z) (srData : RTCPSenderReportState) (f : Forwarder) : Forwarder :=
  if (layer >=? 0) && (layer <? zlen (refInfos f)) then
    let ri := mkRefInfo (Some srData) 0 false in
    let '(refLayer, _) := getRefLayer f in
    let ri := if (layer =? refLayer) && (RtpTimestampExt srData >=? lastSwitchExtIncomingTS f)
              then ri <| ri_tsOffset := tsOffset (rtpMunger f) |> <| isTSOffsetValid := true |> else ri in
    f <| refInfos := zset layer ri (refInfos f) |>
  else f.

Definition GetSenderReportParams (f : Forwarder)
  : res fwd_panic (Z * bool * Z * option RTCPSenderReportState) :=
  let none := (InvalidLayerSpatial, false, 0, None) in
  let '(refLayer, currentLayerSpatial) := getRefLayer f in
  if refLayer =? InvalidLayerSpatial then Ok none
  else
    let! ri := refInfoAt f refLayer in
    match senderReport ri with
    | Some sr =>
      if isTSOffsetValid ri then
        Ok (currentLayerSpatial,
            bool_decide (refVideoLayerMode f = VideoLayer_MULTIPLE_SPATIAL_LAYERS_PER_STREAM),
            ri_tsOffset ri, Some sr)
      else Ok none
    | None => Ok none
    end.

(** ** Retransmission filter *)

(** A layer is [true] when retransmissions of it are disallowed. *)
Definition FilterRTXForwarder (nacks : list Z) (f : Forwarder) : list Z * list bool :=
  let filtered := if negb FlagFilterRTX then nacks else FilterRTX nacks (rtpMunger f) in
  let disallow layer :=
    FlagFilterRTXLayers && isDeficientLocked f
    && ((Spatial (GetTarget (vls f)) <? Spatial (GetCurrent (vls f))) || (layer >? Spatial (GetCurrent (vls f)))) in
  (filtered, map disallow (zrange 0 DefaultMaxLayerSpatial)).

(** ** Save and restore *)

(** [hublive.RTPForwarderState] *)
Record RTPForwarderState := mkForwarderState {
  fs_Started : bool;
  fs_ReferenceLayerSpatial : Z;
  fs_PreStartTime : Z;
  fs_ExtFirstTimestamp : Z;
  fs_DummyStartTimestampOffset : Z;
  fs_RtpMunger : option RTPMungerState;
  fs_CodecMunger : option VP8MungerState;
  fs_SenderReportState : list (option RTCPSenderReportState);
}.

Definition GetStateForwarder (f : Forwarder) : option RTPForwarderState :=
  if negb (started f) then None
  else
    Some (mkForwarderState (started f) (referenceLayerSpatial f) (default 0 (preStartTime f)) (extFirstTS f)
            (dummyStartTSOffset f) (Some (RtpMunger.GetState (rtpMunger f)))
            (match codecMunger f with CMNull _ => None | CMVP8 v => Some (Vp8Munger.GetState v) end)
            (map senderReport (refInfos f))).

Definition CMSeedState (seed : option VP8MungerState) (cm : CodecMunger (om := om)) : CodecMunger :=
  match cm with
  | CMNull _ => CMNull seed
  | CMVP8 v => CMVP8 (Vp8Munger.SeedState seed v)
  end.

Fixpoint seedRefInfos (layer : Z) (srs : list (option RTCPSenderReportState)) (ris : list refInfo)
  : res fwd_panic (list refInfo) :=
  match srs with
  | [] => Ok ris
  | sr :: srs =>
    let ri := match sr with
              | Some r => if negb (NtpTimestamp r =? 0) then emptyRefInfo <| senderReport := Some r |> else emptyRefInfo
              | None => emptyRefInfo
              end in
    let! ris := store indexOutOfRange ris layer ri in
    seedRefInfos (layer + 1) srs ris
  end.

Definition SeedStateForwarder (state : option RTPForwarderState) (f : Forwarder) : res fwd_panic Forwarder :=
  match state with
  | None => Ok f
  | Some st =>
    if negb (fs_Started st) then Ok f
    else
      let! ris := seedRefInfos 0 (fs_SenderReportState st) (refInfos f) in
      match fs_RtpMunger st with
      | None => Err nilPointer
      | Some rm =>
        let f := f <| refInfos := ris |> <| rtpMunger := RtpMunger.SeedState rm (rtpMunger f) |>
                   <| codecMunger := CMSeedState (fs_CodecMunger st) (codecMunger f) |>
                   <| started := true |> <| referenceLayerSpatial := fs_ReferenceLayerSpatial st |> in
        let f := if negb (fs_PreStartTime st =? 0) then f <| preStartTime := Some (fs_PreStartTime st) |> else f in
        Ok (f <| extFirstTS := fs_ExtFirstTimestamp st |>
              <| dummyStartTSOffset := fs_DummyStartTimestampOffset st |>)
      end
  end.

End Forwarder.
Arguments Forwarder om : clear implicits.
#[export] Existing Instance eta_Forwarder.
