(* ===== verification/Allocation.v ===== *)
(** * Layer allocation

    Models the allocation of [src/SERVER/pkg/sfu/forwarder.go]: choosing a
    target layer when the channel is clear ([AllocateOptimal]), the
    provisional allocation the stream allocator drives when it is congested
    ([ProvisionalAllocate...]), and single steps up ([AllocateNextHigher],
    [GetNextHigherTransition]) or to a pause ([Pause]).  An operation that can
    panic returns [res]; the bandwidths are [int64]. *)

From S2P Require Import Prelude DdTypes.
From S2P Require Import Packet OrderedMap LayerSelectors Bitrates Forwarder.

Section Allocation.
Context {om : Type -> Type} `{OrderedMap om}.
Implicit Types f : Forwarder om.

Definition IsDeficient f : bool := isDeficientLocked f.
Definition PauseReason f : VideoPauseReason := va_PauseReason (lastAllocation f).

Definition BandwidthRequested (brs : Bitrates) f : res fwd_panic Z :=
  getBandwidthNeeded brs (GetTarget (vls f)) (va_BandwidthRequested (lastAllocation f)).

Definition DistanceToDesired (availableLayers : list Z) (brs : Bitrates) f : res fwd_panic spec_float :=
  getDistanceToDesired (muted f) (pubMuted f) (GetMaxSeen (vls f)) availableLayers brs
    (GetTarget (vls f)) (GetMax (vls f)).

Definition GetOptimalBandwidthNeeded (brs : Bitrates) f : res fwd_panic Z :=
  getOptimalBandwidthNeeded (muted f) (pubMuted f) (Spatial (GetMaxSeen (vls f))) brs (GetMax (vls f)).

(** ** Optimal allocation *)

Definition getMaxTemporal f : Z :=
  let maxTemporal := Temporal (GetMax (vls f)) in
  let seen := Temporal (GetMaxSeen (vls f)) in
  if negb (seen =? InvalidLayerTemporal) && (seen <? maxTemporal) then seen else maxTemporal.

Definition opportunisticAlloc (allowOvershoot : bool) f : VideoLayer :=
  let seen := Spatial (GetMaxSeen (vls f)) in
  let maxSpatial := Spatial (GetMax (vls f)) in
  let maxSpatial := if allowOvershoot && vlsIsOvershootOkay (vls f) && (seen >? maxSpatial) then seen else maxSpatial in
  mkLayer (Z.min seen maxSpatial) (getMaxTemporal f).

(** The loop over the available layers: the layer to request, the highest and
    the lowest one. *)
Definition scanAvailable (limit : Z) (availableLayers : list Z) : Z * Z * Z :=
  foldl (fun '(request, highest, lowest) al =>
      (if (al >? request) && (al <=? limit) then al else request,
       if al >? highest then al else highest,
       if (lowest =? InvalidLayerSpatial) || (al <? lowest) then al else lowest))
    (InvalidLayerSpatial, InvalidLayerSpatial, InvalidLayerSpatial) availableLayers.

(** The target and the layer to request of an active stream. *)
Definition optimalTarget (availableLayers : list Z) (allowOvershoot hold : bool) f : VideoLayer * Z :=
  let currentLayer := GetCurrent (vls f) in
  let requestSpatial := GetRequestSpatial (vls f) in
  let limit := Z.min (Spatial (GetMax (vls f))) (Spatial (GetMaxSeen (vls f))) in
  let '(request, highest, lowest) := scanAvailable limit availableLayers in
  let request :=
    if (request =? InvalidLayerSpatial) && negb (highest =? InvalidLayerSpatial)
       && allowOvershoot && vlsIsOvershootOkay (vls f)
    then highest else request in
  if IsValid currentLayer then
    let target :=
      if ((request =? requestSpatial) && (Spatial currentLayer =? requestSpatial)) || (request =? InvalidLayerSpatial)
      then mkLayer (Spatial currentLayer) (getMaxTemporal f)
      else if hold then mkLayer lowest 0
      else mkLayer request (getMaxTemporal f) in
    (target, Spatial target)
  else if hold then
    let target := if lowest =? InvalidLayerSpatial then mkLayer 0 0 else mkLayer lowest 0 in
    (target, Spatial target)
  else
    (opportunisticAlloc allowOvershoot f, if request =? InvalidLayerSpatial then limit else request).

(** The [switch] of [AllocateOptimal]: the pause reason, the target and the
    layer to request. *)
Definition optimalChoice (pauseReason : VideoPauseReason) (availableLayers : list Z) (allowOvershoot hold : bool) f
  : VideoPauseReason * VideoLayer * Z :=
  let requestSpatial := GetRequestSpatial (vls f) in
  if negb (IsValid (GetMax (vls f))) || (Spatial (GetMaxSeen (vls f)) =? InvalidLayerSpatial)
  then (pauseReason, InvalidLayer, requestSpatial)
  else if muted f then (VideoPauseReasonMuted, InvalidLayer, requestSpatial)
  else if pubMuted f then (VideoPauseReasonPubMuted, InvalidLayer, requestSpatial)
  else
    let '(target, request) := optimalTarget availableLayers allowOvershoot hold f in
    (pauseReason, target, request).

(** The rest of [AllocateOptimal]: an invalid target is no target. *)
Definition completeOptimal (availableLayers : list Z) (brs : Bitrates) (needed : Z) (pauseReason : VideoPauseReason)
  (target : VideoLayer) (request : Z) f : res fwd_panic (Forwarder om * VideoAllocation) :=
  let maxLayer := GetMax (vls f) in
  let maxSeenLayer := GetMaxSeen (vls f) in
  let '(target, request) :=
    if negb (IsValid target) then (InvalidLayer, InvalidLayerSpatial) else (target, request) in
  let! requested :=
    if IsValid target
    then getOptimalBandwidthNeeded (muted f) (pubMuted f) (Spatial maxSeenLayer) brs target
    else Ok 0 in
  let! existing := BandwidthRequested brs f in
  let! distance := getDistanceToDesired (muted f) (pubMuted f) maxSeenLayer availableLayers brs target maxLayer in
  Ok (updateAllocation
        (mkAllocation pauseReason false requested (i64 (requested - existing)) needed brs
           target request maxLayer distance) f).

Definition AllocateOptimal (availableLayers : list Z) (brs : Bitrates) (allowOvershoot hold : bool) f
  : res fwd_panic (Forwarder om * VideoAllocation) :=
  if bool_decide (kind f = RTPCodecTypeAudio) then Ok (f, lastAllocation f)
  else
    let! needed := GetOptimalBandwidthNeeded brs f in
    let pauseReason := if needed =? 0 then VideoPauseReasonFeedDry else VideoPauseReasonNone in
    let '(pauseReason, target, request) := optimalChoice pauseReason availableLayers allowOvershoot hold f in
    completeOptimal availableLayers brs needed pauseReason target request f.

(** ** Provisional allocation *)

Definition ProvisionalAllocatePrepare (availableLayers : list Z) (bitrates : Bitrates) f : Forwarder om :=
  f <| provisional := Some (mkProvisional (muted f) (pubMuted f) (GetMaxSeen (vls f)) availableLayers bitrates
                              (GetMax (vls f)) (GetCurrent (vls f)) InvalidLayer) |>.

(** [f.provisional.allocatedLayer = l] *)
Definition allocate (l : VideoLayer) (p : VideoAllocationProvisional) f : Forwarder om :=
  f <| provisional := Some (p <| vp_allocatedLayer := l |>) |>.

Definition getProvisional f : res fwd_panic VideoAllocationProvisional :=
  match provisional f with Some p => Ok p | None => Err nilPointer end.

Definition ProvisionalAllocateReset f : res fwd_panic (Forwarder om) :=
  let! p := getProvisional f in Ok (allocate InvalidLayer p f).

Definition ProvisionalAllocate (availableChannelCapacity : Z) (layer : VideoLayer) (allowPause allowOvershoot : bool) f
  : res fwd_panic (Forwarder om * (bool * Z)) :=
  let! p := getProvisional f in
  if vp_muted p || vp_pubMuted p || (Spatial (vp_maxSeenLayer p) =? InvalidLayerSpatial)
     || negb (IsValid (vp_maxLayer p))
     || ((negb allowOvershoot || negb (vlsIsOvershootOkay (vls f))) && GreaterThan layer (vp_maxLayer p))
  then Ok (f, (false, 0))
  else
    let! requiredBitrate := rateOf (vp_bitrates p) layer in
    if requiredBitrate =? 0 then Ok (f, (false, 0))
    else
      let! alreadyAllocatedBitrate :=
        if IsValid (vp_allocatedLayer p) then rateOf (vp_bitrates p) (vp_allocatedLayer p) else Ok 0 in
      if negb (GreaterThan layer (vp_maxLayer p))
         && (requiredBitrate <=? i64 (availableChannelCapacity + alreadyAllocatedBitrate))
      then Ok (allocate layer p f, (true, i64 (requiredBitrate - alreadyAllocatedBitrate)))
      else if negb allowPause
              && (negb (IsValid (vp_allocatedLayer p)) || negb (GreaterThan layer (vp_allocatedLayer p)))
      then Ok (allocate layer p f, (true, i64 (requiredBitrate - alreadyAllocatedBitrate)))
      else Ok (f, (false, 0)).

(** The bandwidth of the existing target, for a transition away from it. *)
Definition existingNeeded (p : VideoAllocationProvisional) f : res fwd_panic Z :=
  BandwidthRequested (vp_bitrates p) f.

(** The search for a minimal layer when the stream is not active. *)
Definition minimalLayer (allowOvershoot : bool) (p : VideoAllocationProvisional) f : res fwd_panic (VideoLayer * Z) :=
  let maxLayer := vp_maxLayer p in
  let! o := firstNonzero (vp_bitrates p) (cells (zrange 0 (Spatial maxLayer)) (zrange 0 (Temporal maxLayer))) in
  if (snd (found o) =? 0) && IsValid maxLayer && allowOvershoot && vlsIsOvershootOkay (vls f) then
    let! o := firstNonzero (vp_bitrates p) (cells (zrange (i32 (Spatial maxLayer + 1)) DefaultMaxLayerSpatial)
                                              (zrange 0 DefaultMaxLayerTemporal)) in
    Ok (found o)
  else Ok (found o).

(** The end of [ProvisionalAllocateGetCooperativeTransition]: the stream has no
    target that can be preserved or lowered. *)
Definition cooperativeMinimal (allowOvershoot : bool) (p : VideoAllocationProvisional) f
  : res fwd_panic (Forwarder om * VideoTransition) :=
  let existingTargetLayer := GetTarget (vls f) in
  let! x := if negb (IsValid existingTargetLayer) then minimalLayer allowOvershoot p f else Ok (InvalidLayer, 0) in
  let '(target, bandwidthRequired) := x in
  let! x :=
    if negb (IsValid target) then
      let target := vp_currentLayer p in
      if IsValid target then let! b := rateOf (vp_bitrates p) target in Ok (target, b)
      else Ok (target, bandwidthRequired)
    else Ok (target, bandwidthRequired) in
  let '(target, bandwidthRequired) := x in
  let! existing := existingNeeded p f in
  Ok (allocate target p f, mkTransition existingTargetLayer target (i64 (bandwidthRequired - existing))).

Definition ProvisionalAllocateGetCooperativeTransition (allowOvershoot : bool) f
  : res fwd_panic (Forwarder om * VideoTransition) :=
  let existingTargetLayer := GetTarget (vls f) in
  let! p := getProvisional f in
  if vp_muted p || vp_pubMuted p then
    let! existing := existingNeeded p f in
    Ok (allocate InvalidLayer p f, mkTransition existingTargetLayer InvalidLayer (i64 (- existing)))
  else
    let! maximal :=
      if IsValid existingTargetLayer then
        firstNonzero (vp_bitrates p) (cells (zdown (Spatial (vp_maxLayer p))) (zdown (Temporal (vp_maxLayer p))))
      else Ok None in
    match maximal with
    | Some (maximalLayer, maximalBandwidthRequired) =>
      let! here :=
        if negb (GreaterThan existingTargetLayer maximalLayer) then rateOf (vp_bitrates p) existingTargetLayer
        else Ok 0 in
      if negb (here =? 0) then
        Ok (allocate existingTargetLayer p f, mkTransition existingTargetLayer existingTargetLayer 0)
      else if GreaterThan existingTargetLayer maximalLayer then
        let! existing := existingNeeded p f in
        Ok (allocate maximalLayer p f,
            mkTransition existingTargetLayer maximalLayer (i64 (maximalBandwidthRequired - existing)))
      else cooperativeMinimal allowOvershoot p f
    | None => cooperativeMinimal allowOvershoot p f
    end.

(** The temporal loop is the outer one here. *)
Definition maxReachableTemporal (p : VideoAllocationProvisional) : res fwd_panic Z :=
  let! o := res_find (fun t => firstNonzero (vp_bitrates p) (cells (zdown (Spatial (vp_maxLayer p))) [t]) )
              (zdown (Temporal (vp_maxLayer p))) in
  Ok (Temporal (fst (found o))).

(** The best transition so far: its layer, bandwidth delta and value. *)
Record bestTransition := mkBest { bt_layer : VideoLayer; bt_delta : Z; bt_value : spec_float }.

(** The bandwidth saved by moving to a layer, and that divided by the cost. *)
Definition transitionDelta (brs : Bitrates) (existing : Z) (l : VideoLayer) : res fwd_panic Z :=
  let! b := rateOf brs l in Ok (Z.max 0 (i64 (existing - b))).

Definition transitionCost (maxReachable : Z) (target l : VideoLayer) : Z :=
  let transitionCost := if negb (Spatial target =? Spatial l) then TransitionCostSpatial else 0 in
  let qualityCost := i32 (i32 (i32 (maxReachable + 1) * i32 (Spatial target - Spatial l))
                          + i32 (Temporal target - Temporal l)) in
  i32 (transitionCost + qualityCost).

Definition transitionValue (cost delta : Z) : spec_float :=
  if negb (cost =? 0) then float32_div (float32_of_int delta) (float32_of_int cost) else S754_zero false.

Definition betterTransition (brs : Bitrates) (existing maxReachable : Z) (target : VideoLayer)
  (best : bestTransition) (l : VideoLayer) : res fwd_panic bestTransition :=
  let! delta := transitionDelta brs existing l in
  let value := transitionValue (transitionCost maxReachable target l) delta in
  Ok (if SFltb (bt_value best) value || (SFeqb value (bt_value best) && (delta >? bt_delta best))
      then mkBest l delta value else best).

Fixpoint res_foldl {A B} (g : B -> A -> res fwd_panic B) (b : B) (l : list A) : res fwd_panic B :=
  match l with
  | [] => Ok b
  | x :: l => let! b := g b x in res_foldl g b l
  end.

(** The layers the loop visits; [break] leaves the inner loop at the target,
    its last iteration. *)
Definition lowerLayers (target : VideoLayer) : list VideoLayer :=
  List.filter (fun l => negb (bool_decide (l = target))) (cells (zrange 0 (Spatial target)) (zrange 0 (Temporal target))).

Definition ProvisionalAllocateGetBestWeightedTransition f : res fwd_panic (Forwarder om * VideoTransition) :=
  let target := GetTarget (vls f) in
  let! p := getProvisional f in
  if vp_muted p || vp_pubMuted p then
    let! existing := existingNeeded p f in
    Ok (allocate InvalidLayer p f, mkTransition target InvalidLayer (i64 (- existing)))
  else
    let! maxReachable := maxReachableTemporal p in
    if maxReachable =? InvalidLayerTemporal then
      let! existing := existingNeeded p f in
      Ok (allocate (vp_currentLayer p) p f, mkTransition target (vp_currentLayer p) (i64 (- existing)))
    else
      let! existing := existingNeeded p f in
      let! best := res_foldl (betterTransition (vp_bitrates p) existing maxReachable target)
                     (mkBest InvalidLayer 0 (S754_zero false)) (lowerLayers target) in
      Ok (allocate (bt_layer best) p f, mkTransition target (bt_layer best) (i64 (- bt_delta best))).

(** The bandwidth requested by the allocated layer. *)
Definition allocatedBandwidth (p : VideoAllocationProvisional) : res fwd_panic Z :=
  if IsValid (vp_allocatedLayer p) then rateOf (vp_bitrates p) (vp_allocatedLayer p) else Ok 0.

(** The [switch] of [ProvisionalAllocateCommit] on the allocation [alloc]. *)
Definition commitSwitch (optimal existing : Z) (alloc : VideoAllocation) (p : VideoAllocationProvisional) f
  : res fwd_panic (Forwarder om * VideoAllocation) :=
  let l := vp_allocatedLayer p in
  if vp_muted p then Ok (f, alloc <| va_PauseReason := VideoPauseReasonMuted |>)
  else if vp_pubMuted p then Ok (f, alloc <| va_PauseReason := VideoPauseReasonPubMuted |>)
  else
    let! requested := allocatedBandwidth p in
    let alloc' := alloc <| va_BandwidthRequested := requested |> <| va_BandwidthDelta := i64 (requested - existing) |> in
    if optimal =? 0 then
      if IsValid l then Ok (f, alloc')
      else
        let alloc := alloc <| va_PauseReason := VideoPauseReasonFeedDry |> in
        let c := vp_currentLayer p in
        if IsValid c && (Spatial c <=? Spatial (vp_maxLayer p)) then
          Ok (allocate c p f, alloc <| va_TargetLayer := c |> <| va_RequestLayerSpatial := Spatial c |>)
        else Ok (f, alloc)
    else if GreaterThan l (vp_maxLayer p) || (requested >=? optimal) then
      Ok (f, alloc' <| va_IsDeficient := false |>)
    else
      let alloc' := alloc' <| va_IsDeficient := true |> in
      Ok (f, if negb (IsValid l) then alloc' <| va_PauseReason := VideoPauseReasonBandwidth |> else alloc').

Definition ProvisionalAllocateCommit f : res fwd_panic (Forwarder om * VideoAllocation) :=
  let! p := getProvisional f in
  let l := vp_allocatedLayer p in
  let! optimal := getOptimalBandwidthNeeded (vp_muted p) (vp_pubMuted p) (Spatial (vp_maxSeenLayer p))
                    (vp_bitrates p) (vp_maxLayer p) in
  let! existing := existingNeeded p f in
  let! distance := getDistanceToDesired (vp_muted p) (vp_pubMuted p) (vp_maxSeenLayer p) (vp_availableLayers p)
                     (vp_bitrates p) l (vp_maxLayer p) in
  let alloc := mkAllocation VideoPauseReasonNone false 0 (i64 (- existing)) optimal (vp_bitrates p) l (Spatial l)
                 (vp_maxLayer p) distance in
  let! x := commitSwitch optimal existing alloc p f in
  let '(f, alloc) := x in
  Ok (updateAllocation alloc f).

(** ** Steps up *)

Definition alreadyAllocated (brs : Bitrates) f : res fwd_panic Z :=
  let target := GetTarget (vls f) in
  if IsValid target then rateOf brs target else Ok 0.

(** The three ranges a step up searches, in their order. *)
Definition higherRanges (allowOvershoot : bool) f : list (list VideoLayer) :=
  let target := GetTarget (vls f) in
  let maxLayer := GetMax (vls f) in
  (if IsValid target
   then [cells (zrange (Spatial target) (Spatial target)) (zrange (i32 (Temporal target + 1)) (Temporal maxLayer))]
   else [])
  ++ [cells (zrange (i32 (Spatial target + 1)) (Spatial maxLayer)) (zrange 0 (Temporal maxLayer))]
  ++ (if allowOvershoot && vlsIsOvershootOkay (vls f) && IsValid maxLayer
      then [cells (zrange (i32 (Spatial maxLayer + 1)) DefaultMaxLayerSpatial) (zrange 0 DefaultMaxLayerTemporal)]
      else []).

(** [doAllocation], on the layers of its loops: it ends at the first layer
    with a bitrate, which is allocated when it fits. *)
Definition doAllocation (availableChannelCapacity : Z) (availableLayers : list Z) (brs : Bitrates)
  (allowOvershoot : bool) (optimal already : Z) f (ls : list VideoLayer)
  : res fwd_panic (option (Forwarder om * (VideoAllocation * bool))) :=
  let! o := firstNonzero brs ls in
  match o with
  | None => Ok None
  | Some (l, bandwidthRequested) =>
    if (negb allowOvershoot || negb (vlsIsOvershootOkay (vls f)))
       && (i64 (bandwidthRequested - already) >? availableChannelCapacity)
    then Ok (Some (f, (lastAllocation f, false)))
    else
      let! distance := getDistanceToDesired (muted f) (pubMuted f) (GetMaxSeen (vls f)) availableLayers brs l
                         (GetMax (vls f)) in
      let deficient := negb (GreaterThan l (GetMax (vls f)) || (bandwidthRequested >=? optimal)) in
      let '(f, alloc) := updateAllocation
            (mkAllocation VideoPauseReasonNone deficient bandwidthRequested (i64 (bandwidthRequested - already))
               optimal brs l (Spatial l) (GetMax (vls f)) distance) f in
      Ok (Some (f, (alloc, true)))
  end.

Definition AllocateNextHigher (availableChannelCapacity : Z) (availableLayers : list Z) (brs : Bitrates)
  (allowOvershoot : bool) f : res fwd_panic (Forwarder om * (VideoAllocation * bool)) :=
  if bool_decide (kind f = RTPCodecTypeAudio) || negb (isDeficientLocked f) then Ok (f, (lastAllocation f, false))
  else
    let! optimal := GetOptimalBandwidthNeeded brs f in
    let! already := alreadyAllocated brs f in
    let! o := res_find (doAllocation availableChannelCapacity availableLayers brs allowOvershoot optimal already f)
                (higherRanges allowOvershoot f) in
    Ok (default (f, (lastAllocation f, false)) o).

(** [VideoTransition{}] *)
Definition zeroTransition : VideoTransition := mkTransition (mkLayer 0 0) (mkLayer 0 0) 0.

Definition findNextHigher (brs : Bitrates) (already : Z) (target : VideoLayer) (ls : list VideoLayer)
  : res fwd_panic (option VideoTransition) :=
  res_find (fun l =>
    let! b := rateOf brs l in
    Ok (if (b =? 0) || (b <? already) then None else Some (mkTransition target l (i64 (b - already))))) ls.

Definition GetNextHigherTransition (brs : Bitrates) (allowOvershoot : bool) f : res fwd_panic (VideoTransition * bool) :=
  let target := GetTarget (vls f) in
  if bool_decide (kind f = RTPCodecTypeAudio) || negb (isDeficientLocked f)
     || (IsValid target && negb (bool_decide (target = GetCurrent (vls f))))
  then Ok (zeroTransition, false)
  else
    let! already := alreadyAllocated brs f in
    let! o := res_find (findNextHigher brs already target) (higherRanges allowOvershoot f) in
    Ok (match o with Some t => (t, true) | None => (zeroTransition, false) end).

(** ** Pause *)

Definition Pause (availableLayers : list Z) (brs : Bitrates) f : res fwd_panic (Forwarder om * VideoAllocation) :=
  let maxLayer := GetMax (vls f) in
  let! optimal := GetOptimalBandwidthNeeded brs f in
  let! existing := BandwidthRequested brs f in
  let! distance := getDistanceToDesired (muted f) (pubMuted f) (GetMaxSeen (vls f)) availableLayers brs InvalidLayer
                     maxLayer in
  let '(reason, deficient) :=
    if muted f then (VideoPauseReasonMuted, false)
    else if pubMuted f then (VideoPauseReasonPubMuted, false)
    else if optimal =? 0 then (VideoPauseReasonFeedDry, false)
    else (VideoPauseReasonBandwidth, true) in
  Ok (updateAllocation
        (mkAllocation reason deficient 0 (i64 (- existing)) optimal brs InvalidLayer InvalidLayerSpatial maxLayer
           distance) f).

End Allocation.
