(* ===== verification/AllocationSpec.v ===== *)
(** * Properties of the layer allocation

    The invariant of the allocation state, the bookkeeping shared by every
    allocation, and what each way of allocating promises. *)

From S2P Require Import Prelude DdTypes.
From S2P Require Import Packet OrderedMap LayerSelectors Bitrates Forwarder Allocation.

(** The layers a publisher announces and the bandwidths a receiver measures. *)
Definition measurement_ok (al : list Z) (brs : Bitrates) : Prop :=
  wf_brs brs /\ Forall (fun s => 0 <= s <= DefaultMaxLayerSpatial) al.

#[export] Instance measurement_ok_dec al brs : Decision (measurement_ok al brs).
Proof. unfold measurement_ok, wf_brs. apply _. Defined.

Definition vls_ok (v : VideoLayerSelector) : Prop :=
  layer_ok (GetMax v) /\ layer_ok (GetMaxSeen v) /\ layer_ok (GetTarget v) /\ layer_ok (GetCurrent v).

Record prov_ok (p : VideoAllocationProvisional) : Prop := {
  po_brs : measurement_ok (vp_availableLayers p) (vp_bitrates p);
  po_seen : layer_ok (vp_maxSeenLayer p);
  po_max : layer_ok (vp_maxLayer p);
  po_current : layer_ok (vp_currentLayer p);
  po_allocated : layer_ok (vp_allocatedLayer p);
}.

Section spec.
Context {om : Type -> Type} `{OrderedMap om}.
Implicit Types f : Forwarder om.

(** Layers are in range, and a stream without a target has no current layer
    either, so that it resumes on a key frame. *)
Record fwd_ok f : Prop := {
  fo_vls : vls_ok (vls f);
  fo_provisional : forall p, provisional f = Some p -> prov_ok p;
  fo_idle : IsValid (GetTarget (vls f)) = false -> IsValid (GetCurrent (vls f)) = false;
}.

(** ** The end of every allocation *)

(** What [updateAllocation] stores: H264 has no temporal layers. *)
Definition stored (alloc : VideoAllocation) f : VideoAllocation :=
  if IsValid (va_TargetLayer alloc) && bool_decide (mime f = MimeTypeH264)
  then alloc <| va_TargetLayer := va_TargetLayer alloc <| Temporal := 0 |> |> else alloc.

Lemma stored_target_valid alloc f :
  IsValid (va_TargetLayer (stored alloc f)) = IsValid (va_TargetLayer alloc).
Proof.
  unfold stored. destruct (IsValid (va_TargetLayer alloc)) eqn:E; cbn [andb]; [|done].
  case_bool_decide; [|done]. revert E. unfold IsValid, InvalidLayerSpatial, InvalidLayerTemporal. cbn. lia.
Qed.

Lemma stored_other alloc f : mime f <> MimeTypeH264 -> stored alloc f = alloc.
Proof. intros Hm. unfold stored. rewrite bool_decide_eq_false_2 by done. by rewrite andb_false_r. Qed.

Lemma getBase_resync f : getBase (vls (resyncLocked f)) = SetCurrent InvalidLayer (getBase (vls f)).
Proof. unfold resyncLocked. destruct (pubMuted _); cbn; apply getBase_onBase. Qed.

Lemma overshoot_resync f : vlsIsOvershootOkay (vls (resyncLocked f)) = vlsIsOvershootOkay (vls f).
Proof. unfold resyncLocked. destruct (pubMuted _); cbn; apply overshoot_onBase. Qed.

(** The parts of the state an allocation leaves alone. *)
Record same_settings f f' : Prop := {
  ss_kind : kind f' = kind f;
  ss_mime : mime f' = mime f;
  ss_muted : muted f' = muted f;
  ss_pubMuted : pubMuted f' = pubMuted f;
  ss_overshoot : vlsIsOvershootOkay (vls f') = vlsIsOvershootOkay (vls f);
  ss_max : GetMax (vls f') = GetMax (vls f);
  ss_seen : GetMaxSeen (vls f') = GetMaxSeen (vls f);
}.

Lemma same_settings_refl f : same_settings f f.
Proof. by split. Qed.

Lemma updateAllocation_ok alloc f :
  let f' := fst (updateAllocation alloc f) in
  snd (updateAllocation alloc f) = stored alloc f /\ lastAllocation f' = stored alloc f /\
  GetTarget (vls f') = va_TargetLayer (stored alloc f) /\
  GetCurrent (vls f') = (if IsValid (va_TargetLayer alloc) then GetCurrent (vls f) else InvalidLayer) /\
  provisional f' = provisional f /\ same_settings f f'.
Proof.
  unfold updateAllocation. change (if IsValid _ && _ then _ else alloc) with (stored alloc f).
  set (f1 := f <| lastAllocation := stored alloc f |>).
  set (f2 := setTargetLayer _ _ f1).
  assert (getBase (vls f2) = SetRequestSpatial (if IsValid (va_TargetLayer (stored alloc f))
            then va_RequestLayerSpatial (stored alloc f) else InvalidLayerSpatial)
            (SetTarget (va_TargetLayer (stored alloc f)) (getBase (vls f)))) as Hb.
  { unfold f2, setTargetLayer, onVls. destruct (IsValid (va_TargetLayer (stored alloc f))); cbn;
      by rewrite !getBase_onBase. }
  assert (vlsIsOvershootOkay (vls f2) = vlsIsOvershootOkay (vls f)) as Ho.
  { unfold f2, setTargetLayer, onVls. destruct (IsValid (va_TargetLayer (stored alloc f))); cbn; by rewrite !overshoot_onBase. }
  assert (kind f2 = kind f /\ mime f2 = mime f /\ muted f2 = muted f /\ pubMuted f2 = pubMuted f /\
          provisional f2 = provisional f /\ lastAllocation f2 = stored alloc f) as (H1 & H2 & H3 & H4 & H5 & H6).
  { unfold f2, setTargetLayer, onVls. by destruct (IsValid (va_TargetLayer (stored alloc f))). }
  assert (GetTarget (vls f2) = va_TargetLayer (stored alloc f)) as Ht.
  { unfold GetTarget. by rewrite Hb. }
  rewrite Ht, stored_target_valid. destruct (IsValid (va_TargetLayer alloc)); cbn [negb fst snd].
  - split_and!; try done; [by unfold GetCurrent; rewrite Hb|].
    split; try done; unfold GetMax, GetMaxSeen; by rewrite Hb.
  - assert (kind (resyncLocked f2) = kind f2 /\ mime (resyncLocked f2) = mime f2 /\ muted (resyncLocked f2) = muted f2 /\
      pubMuted (resyncLocked f2) = pubMuted f2 /\ provisional (resyncLocked f2) = provisional f2 /\
      lastAllocation (resyncLocked f2) = lastAllocation f2) as (K1 & K2 & K3 & K4 & K5 & K6).
    { unfold resyncLocked. case_if; by split_and!. }
    split_and!; try congruence.
    + unfold GetTarget in Ht |- *. rewrite getBase_resync. exact Ht.
    + unfold GetCurrent. by rewrite getBase_resync.
    + split; try congruence; [by rewrite overshoot_resync|..]; unfold GetMax, GetMaxSeen;
        rewrite getBase_resync, Hb; done.
Qed.

(** ** Provisional allocation *)

(** The rate of the layer allocated so far. *)
Definition allocatedRate (p : VideoAllocationProvisional) : Z :=
  if IsValid (vp_allocatedLayer p) then rate0 (vp_bitrates p) (vp_allocatedLayer p) else 0.

(** Nothing can be allocated: muted, nothing published or nothing asked for. *)
Definition blocked (p : VideoAllocationProvisional) : bool :=
  vp_muted p || vp_pubMuted p || (Spatial (vp_maxSeenLayer p) =? InvalidLayerSpatial) || negb (IsValid (vp_maxLayer p)).

Lemma allocatedRate_ok p : prov_ok p ->
  (if IsValid (vp_allocatedLayer p) then rateOf (vp_bitrates p) (vp_allocatedLayer p) else Ok 0) = Ok (allocatedRate p) /\
  0 <= allocatedRate p < max_rate.
Proof.
  intros Hp. unfold allocatedRate. destruct (IsValid _) eqn:Hv; [|done].
  apply rateOf_ok; [apply (po_brs p Hp)|]. apply layer_ok_valid; [apply (po_allocated p Hp)|done].
Qed.

Definition mayExceedMax (allowOvershoot : bool) f : bool := allowOvershoot && vlsIsOvershootOkay (vls f).

Lemma ProvisionalAllocate_ok p capacity layer allowPause allowOvershoot f :
  provisional f = Some p -> prov_ok p -> in_brs layer -> 0 <= capacity < max_capacity ->
  let r := rate0 (vp_bitrates p) layer in
  let fits := negb (GreaterThan layer (vp_maxLayer p)) && (r <=? capacity + allocatedRate p) in
  let forced := negb allowPause &&
    (negb (IsValid (vp_allocatedLayer p)) || negb (GreaterThan layer (vp_allocatedLayer p))) in
  let taken := negb (blocked p) && (mayExceedMax allowOvershoot f || negb (GreaterThan layer (vp_maxLayer p)))
               && (0 <? r) && (fits || forced) in
  ProvisionalAllocate capacity layer allowPause allowOvershoot f =
    Ok (if taken then (allocate layer p f, (true, r - allocatedRate p)) else (f, (false, 0))).
Proof.
  intros Hp Hok Hl Hc r fits forced taken. unfold ProvisionalAllocate, getProvisional. rewrite Hp. cbn [res_bind].
  destruct (rateOf_ok _ _ (proj1 (po_brs p Hok)) Hl) as [Hr Hrpos]. destruct (allocatedRate_ok p Hok) as [Ha Hapos].
  match goal with |- context [if ?b then Ok (f, _) else _] =>
    replace b with (blocked p || negb (mayExceedMax allowOvershoot f || negb (GreaterThan layer (vp_maxLayer p)))) end.
  2: { unfold blocked, mayExceedMax. destruct allowOvershoot, (vlsIsOvershootOkay _), (GreaterThan _ _);
       cbn [andb orb negb]; by rewrite ?orb_true_r, ?orb_false_r. }
  unfold taken. destruct (blocked p); cbn [orb negb andb]; [done|].
  destruct (mayExceedMax allowOvershoot f || negb (GreaterThan layer (vp_maxLayer p))) eqn:Hx; cbn [orb negb andb]; [|done].
  rewrite Hr, Ha. cbn [res_bind]. fold r. rewrite !i64_small by (unfold max_rate, max_capacity in *; lia).
  destruct (Z.eqb_spec r 0) as [E|E]; [rewrite E; done|]. rewrite (proj2 (Z.ltb_lt 0 r)) by (unfold r; lia).
  cbn [andb]. fold fits forced. destruct fits, forced; done.
Qed.

Lemma allocate_prov layer p f : provisional (allocate layer p f) = Some (p <| vp_allocatedLayer := layer |>).
Proof. done. Qed.

Lemma prov_ok_allocate layer p : prov_ok p -> layer_ok layer -> prov_ok (p <| vp_allocatedLayer := layer |>).
Proof. intros [H1 H2 H3 H4 H5] Hl. by split. Qed.

Lemma fwd_ok_allocate layer p f : fwd_ok f -> provisional f = Some p -> layer_ok layer -> fwd_ok (allocate layer p f).
Proof.
  intros [H1 H2 H3] Hp Hl. split; [done| |done]. intros p' Hp'. apply (inj Some) in Hp'. subst p'.
  apply prov_ok_allocate; [by apply H2|done].
Qed.

(** ** The bandwidth a forwarder is known to use *)

Definition usage (brs : Bitrates) f : Z := needed brs (GetTarget (vls f)) (va_BandwidthRequested (lastAllocation f)).

Lemma BandwidthRequested_ok brs f : fwd_ok f -> wf_brs brs -> BandwidthRequested brs f = Ok (usage brs f).
Proof. intros [(_ & _ & Ht & _) _ _] Hw. by apply getBandwidthNeeded_ok. Qed.

(** The bandwidth recorded by the last allocation is an amount. *)
Definition usage_ok f : Prop := 0 <= va_BandwidthRequested (lastAllocation f) < max_rate.

Lemma usage_range brs f : fwd_ok f -> wf_brs brs -> usage_ok f -> 0 <= usage brs f < max_rate.
Proof.
  intros [(_ & _ & Ht & _) _ _] Hw Hu. unfold usage, needed. destruct (IsValid _) eqn:Hv; cbn [andb]; [|done].
  destruct (rate0 _ _ >? 0); [|done]. by apply rateOf_ok, layer_ok_valid.
Qed.

(** ** Commit *)

(** The target a commit settles on: without a layer to allocate because the
    feed is dry, a current layer within the maximum stays the target. *)
Definition commitTarget (optimal : Z) (p : VideoAllocationProvisional) : VideoLayer :=
  let l := vp_allocatedLayer p in
  let c := vp_currentLayer p in
  if negb (vp_muted p || vp_pubMuted p) && (optimal =? 0) && negb (IsValid l)
     && (IsValid c && (Spatial c <=? Spatial (vp_maxLayer p))) then c else l.

Definition commitRequested (p : VideoAllocationProvisional) : Z :=
  if vp_muted p || vp_pubMuted p then 0 else allocatedRate p.

Definition commitDeficient (optimal : Z) (p : VideoAllocationProvisional) : bool :=
  negb (vp_muted p || vp_pubMuted p || (optimal =? 0))
  && negb (GreaterThan (vp_allocatedLayer p) (vp_maxLayer p) || (commitRequested p >=? optimal)).

Definition commitReason (optimal : Z) (p : VideoAllocationProvisional) : VideoPauseReason :=
  if vp_muted p then VideoPauseReasonMuted
  else if vp_pubMuted p then VideoPauseReasonPubMuted
  else if IsValid (vp_allocatedLayer p) then VideoPauseReasonNone
  else if optimal =? 0 then VideoPauseReasonFeedDry
  else if commitDeficient optimal p then VideoPauseReasonBandwidth else VideoPauseReasonNone.

Lemma allocate_same p f : provisional f = Some p -> allocate (vp_allocatedLayer p) p f = f.
Proof. intros Hp. unfold allocate. destruct f, p. cbn in *. by subst. Qed.

Lemma commitSwitch_eq optimal existing brs distance p f : provisional f = Some p -> prov_ok p ->
  let l := vp_allocatedLayer p in
  let target := commitTarget optimal p in
  commitSwitch optimal existing
    (mkAllocation VideoPauseReasonNone false 0 (i64 (- existing)) optimal brs l (Spatial l) (vp_maxLayer p) distance) p f =
  Ok (allocate target p f,
      mkAllocation (commitReason optimal p) (commitDeficient optimal p) (commitRequested p)
        (i64 (commitRequested p - existing)) optimal brs target (Spatial target) (vp_maxLayer p) distance).
Proof.
  intros Hp Hok. unfold commitSwitch, commitTarget, commitReason, commitDeficient, commitRequested, allocatedBandwidth.
  destruct (allocatedRate_ok p Hok) as [-> _].
  destruct (vp_muted p); cbn [orb negb andb]; [by rewrite allocate_same|].
  destruct (vp_pubMuted p); cbn [orb negb andb]; [by rewrite allocate_same|]. cbn [res_bind].
  destruct (Z.eqb_spec optimal 0) as [E|E]; cbn [negb andb].
  - destruct (IsValid (vp_allocatedLayer p)) eqn:Hv; cbn [negb andb]; [by rewrite allocate_same|].
    unfold allocatedRate. rewrite Hv. cbn [Z.sub Z.add]. case_if; [done|]. by rewrite allocate_same.
  - rewrite allocate_same by done. destruct (_ || _); cbn [negb]; [by destruct (IsValid _)|].
    by destruct (IsValid _).
Qed.

Lemma stored_layer_ok alloc f : layer_ok (va_TargetLayer alloc) -> layer_ok (va_TargetLayer (stored alloc f)).
Proof.
  unfold stored. destruct (IsValid _); cbn [andb]; [|done]. case_bool_decide; [|done].
  unfold layer_ok, InvalidLayerTemporal, DefaultMaxLayerTemporal. cbn. lia.
Qed.

Lemma fwd_ok_update alloc f : fwd_ok f -> layer_ok (va_TargetLayer alloc) -> fwd_ok (fst (updateAllocation alloc f)).
Proof.
  intros [(Hm & Hs & Ht & Hc) Hp Hi] Hl.
  destruct (updateAllocation_ok alloc f) as (_ & _ & Ut & Uc & Up & [_ _ _ _ _ Um Us]).
  split.
  - split_and!; [by rewrite Um|by rewrite Us|rewrite Ut; by apply stored_layer_ok|].
    rewrite Uc. destruct (IsValid (va_TargetLayer alloc)); [done|apply layer_ok_invalid].
  - intros p. rewrite Up. apply Hp.
  - rewrite Ut, Uc, stored_target_valid. by intros ->.
Qed.

Lemma updateAllocation_eq alloc f :
  updateAllocation alloc f = (fst (updateAllocation alloc f), stored alloc f).
Proof. destruct (updateAllocation_ok alloc f) as (E & _). rewrite <- E. by destruct (updateAllocation alloc f). Qed.

(** The allocation a commit makes. *)
Definition commitAllocation (optimal existing : Z) (distance : spec_float) (p : VideoAllocationProvisional)
  : VideoAllocation :=
  let target := commitTarget optimal p in
  mkAllocation (commitReason optimal p) (commitDeficient optimal p) (commitRequested p)
    (i64 (commitRequested p - existing)) optimal (vp_bitrates p) target (Spatial target) (vp_maxLayer p) distance.

Lemma commitTarget_ok optimal p : prov_ok p -> layer_ok (commitTarget optimal p).
Proof. intros [_ _ _ Hc Ha]. unfold commitTarget. by case_if. Qed.

Lemma ProvisionalAllocateCommit_eq p f : fwd_ok f -> provisional f = Some p ->
  exists optimal distance,
    getOptimalBandwidthNeeded (vp_muted p) (vp_pubMuted p) (Spatial (vp_maxSeenLayer p)) (vp_bitrates p) (vp_maxLayer p)
      = Ok optimal /\
    ProvisionalAllocateCommit f =
      Ok (updateAllocation (commitAllocation optimal (usage (vp_bitrates p) f) distance p)
            (allocate (commitTarget optimal p) p f)).
Proof.
  intros Hf Hp. pose proof (fo_provisional f Hf p Hp) as Hok. destruct (Hok) as [[Hw Hal] Hs Hm Hc Ha].
  destruct (getOptimalBandwidthNeeded_ok (vp_muted p) (vp_pubMuted p) (Spatial (vp_maxSeenLayer p)) _ _ Hw Hm)
    as (optimal & Ho & _).
  destruct (getDistanceToDesired_ok (vp_muted p) (vp_pubMuted p) _ (vp_availableLayers p) _ (vp_allocatedLayer p) _ Hw Hs Hm Hal)
    as (distance & Hd).
  exists optimal, distance. split; [done|].
  unfold ProvisionalAllocateCommit, getProvisional. rewrite Hp. cbn [res_bind]. rewrite Ho. cbn [res_bind].
  unfold existingNeeded. rewrite (BandwidthRequested_ok _ _ Hf Hw). cbn [res_bind]. rewrite Hd. cbn [res_bind].
  rewrite commitSwitch_eq by done. done.
Qed.

(** ** Transitions *)

Lemma existingNeeded_ok p f : fwd_ok f -> prov_ok p -> existingNeeded p f = Ok (usage (vp_bitrates p) f).
Proof. intros Hf [[Hw _] _ _ _ _]. by apply BandwidthRequested_ok. Qed.

(** The rate a transition to [l] needs. *)
Definition rateTo (brs : Bitrates) (l : VideoLayer) : Z := if IsValid l then rate0 brs l else 0.

Lemma rateTo_ok brs l : wf_brs brs -> layer_ok l ->
  (if IsValid l then rateOf brs l else Ok 0) = Ok (rateTo brs l) /\ 0 <= rateTo brs l < max_rate.
Proof.
  intros Hw Hl. unfold rateTo. destruct (IsValid l) eqn:Hv; [|done]. by apply rateOf_ok, layer_ok_valid.
Qed.

Lemma search_up brs R1 R2 lo1 hi1 lo2 hi2 : wf_brs brs ->
  R1 = zrange lo1 hi1 -> R2 = zrange lo2 hi2 ->
  (forall s t, lo1 <= s <= hi1 -> lo2 <= t <= hi2 -> in_brs (mkLayer s t)) ->
  exists o, firstNonzero brs (cells R1 R2) = Ok o /\
  match o with
  | None => forall l, lo1 <= Spatial l <= hi1 -> lo2 <= Temporal l <= hi2 -> rate0 brs l = 0
  | Some (l, b) => b = rate0 brs l /\ 0 < b /\ lo1 <= Spatial l <= hi1 /\ lo2 <= Temporal l <= hi2 /\
      forall l', lo1 <= Spatial l' <= hi1 -> lo2 <= Temporal l' <= hi2 -> GreaterThan l l' = true -> rate0 brs l' = 0
  end.
Proof.
  intros Hw -> -> Hin.
  destruct (firstNonzero_lex Z.lt brs (zrange lo1 hi1) (zrange lo2 hi2)) as (o & Ho & Hspec);
    [lia|done|apply StronglySorted_zrange|apply StronglySorted_zrange| |].
  { intros s t Hs Ht. apply elem_of_zrange in Hs, Ht. by apply Hin. }
  exists o. split; [exact Ho|]. destruct o as [[l b]|].
  - destruct Hspec as (Hb & Hpos & Hs & Ht & Hmax). apply elem_of_zrange in Hs, Ht. split_and!; try done; try lia.
    intros l' Hs' Ht' Hgt. apply Hmax; [by apply elem_of_zrange..|].
    unfold lex, GreaterThan in *. rewrite !Z.gtb_ltb in Hgt. lia.
  - intros l Hs Ht. apply Hspec; by apply elem_of_zrange.
Qed.

(** The lowest layer with a rate: within the maximum, or above it when that is
    allowed and nothing is within. *)
Definition minimal (allowOvershoot : bool) (p : VideoAllocationProvisional) f (l : VideoLayer) : Prop :=
  let brs := vp_bitrates p in
  0 < rate0 brs l /\ in_brs l /\
  (under (vp_maxLayer p) l /\
     (forall l', under (vp_maxLayer p) l' -> GreaterThan l l' = true -> rate0 brs l' = 0) \/
   mayExceedMax allowOvershoot f = true /\ Spatial (vp_maxLayer p) < Spatial l /\
     (forall l', under (vp_maxLayer p) l' -> rate0 brs l' = 0) /\
     (forall l', in_brs l' -> Spatial (vp_maxLayer p) < Spatial l' -> GreaterThan l l' = true -> rate0 brs l' = 0)).

Lemma minimalLayer_ok allowOvershoot p f : prov_ok p ->
  exists l b, minimalLayer allowOvershoot p f = Ok (l, b) /\
    (l = InvalidLayer /\ b = 0 \/ minimal allowOvershoot p f l /\ b = rate0 (vp_bitrates p) l).
Proof.
  intros [[Hw _] _ Hm _ _]. unfold minimalLayer.
  destruct (search_up (vp_bitrates p) _ _ 0 (Spatial (vp_maxLayer p)) 0 (Temporal (vp_maxLayer p)) Hw eq_refl eq_refl)
    as (o & -> & Ho).
  { intros s t Hs Ht. by apply (under_in_brs (vp_maxLayer p)). }
  cbn [res_bind]. destruct o as [[l b]|]; cbn [found from_option id snd fst].
  - destruct Ho as (-> & Hpos & Hs & Ht & Hmin). rewrite (proj2 (Z.eqb_neq (rate0 _ l) 0)) by lia. cbn [andb].
    do 2 eexists. split; [done|]. right. split; [|done]. split; [done|]. split; [by apply (under_in_brs (vp_maxLayer p))|].
    left. split; [done|]. intros l' [Hs' Ht']. by apply Hmin.
  - rewrite Z.eqb_refl. cbn [andb]. destruct (IsValid (vp_maxLayer p)) eqn:Hv; cbn [andb]; [|eauto 10].
    destruct (allowOvershoot && _) eqn:Hov; [|eauto 10].
    pose proof (layer_ok_valid _ Hm Hv) as [Hms Hmt].
    rewrite i32_small by (unfold DefaultMaxLayerSpatial in *; lia).
    destruct (search_up (vp_bitrates p) _ _ (Spatial (vp_maxLayer p) + 1) DefaultMaxLayerSpatial 0 DefaultMaxLayerTemporal
                Hw eq_refl eq_refl) as (o & -> & Ho2).
    { intros s t Hs Ht. split; cbn; [lia|done]. }
    cbn [res_bind]. destruct o as [[l b]|]; cbn [found from_option id]; [|eauto 10].
    destruct Ho2 as (-> & Hpos & Hs & Ht & Hmin). do 2 eexists. split; [done|]. right. split; [|done].
    split; [done|]. split; [split; [lia|done]|]. right. split; [done|]. split; [lia|]. split.
    + intros l' [Hs' Ht']. by apply Ho.
    + intros l' [Hs' Ht'] Hgt. apply Hmin; [lia|done].
Qed.

(** Where a cooperative transition of an unmuted stream goes. *)
Definition cooperative (allowOvershoot : bool) (p : VideoAllocationProvisional) f (l : VideoLayer) : Prop :=
  let brs := vp_bitrates p in
  let target := GetTarget (vls f) in
  if IsValid target then
    exists o, highest (under (vp_maxLayer p)) brs o /\
    match o with
    | Some (maximalLayer, _) =>
      if GreaterThan target maximalLayer then l = maximalLayer
      else if rate0 brs target =? 0 then l = vp_currentLayer p
      else l = target
    | None => l = vp_currentLayer p
    end
  else minimal allowOvershoot p f l \/ l = vp_currentLayer p.

Lemma cooperativeMinimal_ok allowOvershoot p f : fwd_ok f -> prov_ok p ->
  exists l, cooperativeMinimal allowOvershoot p f =
    Ok (allocate l p f, mkTransition (GetTarget (vls f)) l (i64 (rateTo (vp_bitrates p) l - usage (vp_bitrates p) f))) /\
    layer_ok l /\
    (IsValid (GetTarget (vls f)) = true -> l = vp_currentLayer p) /\
    (IsValid (GetTarget (vls f)) = false -> minimal allowOvershoot p f l \/ l = vp_currentLayer p).
Proof.
  intros Hf Hok. pose proof Hok as [[Hw _] _ Hm Hc _]. unfold cooperativeMinimal.
  destruct (rateTo_ok _ _ Hw Hc) as [Hr _].
  assert (Hcur : forall b, (IsValid (vp_currentLayer p) = false -> b = 0) ->
     (if IsValid (vp_currentLayer p) then let! b := rateOf (vp_bitrates p) (vp_currentLayer p) in Ok (vp_currentLayer p, b)
      else Ok (vp_currentLayer p, b)) = Ok (vp_currentLayer p, rateTo (vp_bitrates p) (vp_currentLayer p))).
  { intros b Hb. unfold rateTo in *. destruct (IsValid (vp_currentLayer p)); [by rewrite Hr|by rewrite Hb]. }
  destruct (IsValid (GetTarget (vls f))) eqn:Hv; cbn [negb].
  - cbn [res_bind]. change (IsValid InvalidLayer) with false. cbn [negb]. rewrite Hcur by done. cbn [res_bind].
    rewrite existingNeeded_ok by done. cbn [res_bind]. eexists. split; [done|]. by split_and!.
  - destruct (minimalLayer_ok allowOvershoot p f Hok) as (l & b & -> & Hl). cbn [res_bind].
    destruct Hl as [[-> ->]|[Hmin ->]].
    + change (IsValid InvalidLayer) with false. cbn [negb]. rewrite Hcur by done. cbn [res_bind].
      rewrite existingNeeded_ok by done. cbn [res_bind]. eexists. split; [done|]. split_and!; auto.
    + destruct Hmin as (Hpos & Hin & Hrest). pose proof (in_brs_valid l Hin) as Hlv. rewrite Hlv. cbn [negb res_bind].
      rewrite existingNeeded_ok by done. cbn [res_bind]. exists l. split; [by unfold rateTo; rewrite Hlv|].
      split_and!; [by apply in_brs_ok|done|]. intros _. left. by split_and!.
Qed.

Lemma cooperative_ok allowOvershoot p f : fwd_ok f -> provisional f = Some p ->
  exists l, ProvisionalAllocateGetCooperativeTransition allowOvershoot f =
    Ok (allocate l p f, mkTransition (GetTarget (vls f)) l (i64 (rateTo (vp_bitrates p) l - usage (vp_bitrates p) f))) /\
    layer_ok l /\
    if vp_muted p || vp_pubMuted p then l = InvalidLayer else cooperative allowOvershoot p f l.
Proof.
  intros Hf Hp. pose proof (fo_provisional f Hf p Hp) as Hok. pose proof Hok as [[Hw _] _ Hm Hc _].
  pose proof (fo_vls f Hf) as (_ & _ & Ht & _).
  unfold ProvisionalAllocateGetCooperativeTransition, getProvisional. rewrite Hp. cbn [res_bind].
  destruct (vp_muted p || vp_pubMuted p).
  { rewrite existingNeeded_ok by done. cbn [res_bind]. exists InvalidLayer. by split_and!. }
  destruct (cooperativeMinimal_ok allowOvershoot p f Hf Hok) as (lm & Hlm & Hlmok & Hvalid & Hinvalid).
  unfold cooperative. destruct (IsValid (GetTarget (vls f))) eqn:Hv.
  2: { cbn [res_bind]. exists lm. split_and!; auto. }
  specialize (Hvalid eq_refl). subst lm.
  destruct (search_down _ _ Hw Hm) as (o & -> & Ho). cbn [res_bind]. destruct o as [[ml mb]|].
  2: { eexists. split; [exact Hlm|]. split; [done|]. by exists None. }
  pose proof Ho as (-> & Hpos & Hu & _).
  destruct (GreaterThan (GetTarget (vls f)) ml) eqn:Hgt; cbn [negb res_bind].
  - rewrite Z.eqb_refl. cbn [negb]. rewrite existingNeeded_ok by done. cbn [res_bind].
    pose proof (under_in_brs _ _ Hm Hu) as Hin. exists ml.
    split; [unfold rateTo; by rewrite (in_brs_valid ml Hin)|]. split; [by apply in_brs_ok|].
    eexists. split; [exact Ho|]. cbn beta iota. by rewrite Hgt.
  - destruct (rateOf_ok _ _ Hw (layer_ok_valid _ Ht Hv)) as [-> Hrt]. cbn [res_bind].
    destruct (Z.eqb_spec (rate0 (vp_bitrates p) (GetTarget (vls f))) 0) as [E|E]; cbn [negb].
    + eexists. split; [exact Hlm|]. split; [done|]. eexists. split; [exact Ho|]. cbn beta iota. by rewrite Hgt.
    + exists (GetTarget (vls f)). split; [|split; [done|]].
      * unfold rateTo, usage, needed. rewrite Hv, (proj2 (Z.gtb_gt _ 0)) by lia. cbn [andb].
        by rewrite Z.sub_diag.
      * eexists. split; [exact Ho|]. cbn beta iota. by rewrite Hgt.
Qed.

(** ** The best weighted transition *)

(** The order in which the search replaces its candidate. *)
Definition beats (x y : bestTransition) : bool :=
  SFltb (bt_value y) (bt_value x) || (SFeqb (bt_value x) (bt_value y) && (bt_delta x >? bt_delta y)).

Lemma beats_trans x y z : beats x y = true -> beats y z = true -> beats x z = true.
Proof.
  unfold beats. rewrite !SFltb_rank, !SFeqb_rank, !Z.gtb_ltb.
  destruct (rank (bt_value x)) as [[[x1 x2] x3]|], (rank (bt_value y)) as [[[y1 y2] y3]|],
    (rank (bt_value z)) as [[[z1 z2] z3]|]; cbn; try done; rewrite ?andb_false_r; try done.
  destruct (Z.compare_spec y1 x1), (Z.compare_spec z1 y1), (Z.compare_spec z1 x1),
    (Z.compare_spec x1 y1), (Z.compare_spec y1 z1), (Z.compare_spec x1 z1); try lia; try done;
  destruct (Z.compare_spec y2 x2), (Z.compare_spec z2 y2), (Z.compare_spec z2 x2),
    (Z.compare_spec x2 y2), (Z.compare_spec y2 z2), (Z.compare_spec x2 z2); try lia; try done;
  destruct (Z.compare_spec y3 x3), (Z.compare_spec z3 y3), (Z.compare_spec z3 x3),
    (Z.compare_spec x3 y3), (Z.compare_spec y3 z3), (Z.compare_spec x3 z3); try lia; try done; cbn; lia.
Qed.

(** The transition to [l] as a candidate. *)
Definition candidate (brs : Bitrates) (existing maxReachable : Z) (target l : VideoLayer) : bestTransition :=
  let delta := Z.max 0 (existing - rate0 brs l) in
  mkBest l delta (transitionValue (transitionCost maxReachable target l) delta).

Lemma betterTransition_eq brs existing maxReachable target best l : wf_brs brs -> in_brs l ->
  0 <= existing < max_rate ->
  betterTransition brs existing maxReachable target best l =
    Ok (let c := candidate brs existing maxReachable target l in if beats c best then c else best).
Proof.
  intros Hw Hl He. unfold betterTransition, transitionDelta. destruct (rateOf_ok _ _ Hw Hl) as [-> Hr]. cbn [res_bind].
  by rewrite i64_small by (unfold max_rate, max_capacity in *; lia).
Qed.

Lemma bestCandidate brs existing maxReachable target ls best : wf_brs brs -> Forall in_brs ls ->
  0 <= existing < max_rate ->
  exists best', res_foldl (betterTransition brs existing maxReachable target) best ls = Ok best' /\
    (best' = best \/ exists l, l ∈ ls /\ best' = candidate brs existing maxReachable target l) /\
    (forall x, beats x best = false -> beats x best' = false) /\
    (forall l, l ∈ ls -> beats (candidate brs existing maxReachable target l) best' = false).
Proof.
  intros Hw Hls He. revert best. induction Hls as [|l ls Hl _ IH]; intros best; cbn [res_foldl].
  { exists best. split_and!; [done|by left|done|]. intros l Hl. by apply not_elem_of_nil in Hl. }
  rewrite betterTransition_eq by done. cbn [res_bind]. cbv zeta.
  set (c := candidate brs existing maxReachable target l).
  destruct (IH (if beats c best then c else best)) as (best' & Hr & Hor & Hkeep & Hall).
  exists best'. split; [exact Hr|]. split; [|split].
  - destruct Hor as [->|(l' & Hin & ->)]; [|right; exists l'; split; [by right|done]].
    destruct (beats c best); [right; exists l; split; [by left|done]|by left].
  - intros x Hx. apply Hkeep. destruct (beats c best) eqn:Hb; [|done].
    destruct (beats x c) eqn:Hxc; [|done]. by rewrite (beats_trans x c best Hxc Hb) in Hx.
  - intros l' Hin. apply elem_of_cons in Hin as [->|Hin]; [|by apply Hall]. fold c. apply Hkeep.
    destruct (beats c best) eqn:Hb; [|done]. unfold beats. rewrite SFltb_rank, SFeqb_rank, !Z.gtb_ltb, Z.ltb_irrefl.
    rewrite andb_false_r, orb_false_r. destruct (rank (bt_value c)) as [[[a1 a2] a3]|]; [|done]. cbn.
    by rewrite !Z.compare_refl.
Qed.

Lemma elem_of_lowerLayers target l :
  l ∈ lowerLayers target <-> under target l /\ l <> target.
Proof.
  unfold lowerLayers. rewrite list_elem_of_In, filter_In, <- list_elem_of_In, elem_of_cells, !elem_of_zrange.
  unfold under. rewrite negb_true_iff, bool_decide_eq_false. tauto.
Qed.

Lemma lowerLayers_greater target l : l ∈ lowerLayers target -> GreaterThan target l = true.
Proof.
  rewrite elem_of_lowerLayers. unfold under, GreaterThan. destruct target as [s t], l as [s' t']. cbn.
  intros [[Hs Ht] Hne]. rewrite !Z.gtb_ltb. destruct (Z.eq_dec s s') as [->|]; [|lia].
  destruct (Z.eq_dec t t') as [->|]; [done|lia].
Qed.

(** The inner loop of [maxReachableTemporal]. *)
Lemma temporalRow brs maxLayer : wf_brs brs -> layer_ok maxLayer -> forall t, 0 <= t <= Temporal maxLayer ->
  exists o, firstNonzero brs (cells (zdown (Spatial maxLayer)) [t]) = Ok o /\
  match o with
  | None => forall s, 0 <= s <= Spatial maxLayer -> rate0 brs (mkLayer s t) = 0
  | Some (l, b) => b = rate0 brs l /\ 0 < b /\ 0 <= Spatial l <= Spatial maxLayer /\ Temporal l = t
  end.
Proof.
  intros Hw Hm t Ht. destruct (firstNonzero_ok brs (cells (zdown (Spatial maxLayer)) [t]) Hw) as (o & Ho & Hspec).
  - apply Forall_forall. intros l Hl. apply elem_of_cells in Hl as [Hs Hl]. apply elem_of_zdown in Hs.
    apply list_elem_of_singleton in Hl. apply (under_in_brs maxLayer); [done|]. unfold under. lia.
  - exists o. split; [done|]. destruct o as [[l b]|].
    + destruct Hspec as (Hb & Hpos & l1 & l2 & Hls & _).
      assert (l ∈ cells (zdown (Spatial maxLayer)) [t]) as Hin by (rewrite Hls; apply elem_of_app; right; by left).
      apply elem_of_cells in Hin as [Hs Hin]. apply elem_of_zdown in Hs. apply list_elem_of_singleton in Hin. done.
    + intros s Hs. rewrite Forall_forall in Hspec. apply Hspec, elem_of_cells. cbn.
      split; [by apply elem_of_zdown|by left].
Qed.

Lemma maxReachableTemporal_ok p : prov_ok p ->
  exists t, maxReachableTemporal p = Ok t /\ InvalidLayerTemporal <= t <= DefaultMaxLayerTemporal /\
    (t = InvalidLayerTemporal <-> forall l, under (vp_maxLayer p) l -> rate0 (vp_bitrates p) l = 0).
Proof.
  intros [[Hw _] _ Hm _ _]. unfold maxReachableTemporal.
  pose proof (temporalRow _ _ Hw Hm) as Hrow.
  assert (exists o, res_find (fun t => firstNonzero (vp_bitrates p) (cells (zdown (Spatial (vp_maxLayer p))) [t]))
             (zdown (Temporal (vp_maxLayer p))) = Ok o) as (o & Ho).
  { apply res_find_ok, Forall_forall. intros t Ht. apply elem_of_zdown in Ht. destruct (Hrow t Ht) as (o & ? & _). eauto. }
  rewrite Ho. cbn [res_bind]. eexists. split; [done|]. destruct o as [[l b]|].
  - apply res_find_Some in Ho as (ts1 & t & ts2 & Hts & _ & Hf).
    assert (t ∈ zdown (Temporal (vp_maxLayer p))) as Ht by (rewrite Hts; apply elem_of_app; right; by left).
    apply elem_of_zdown in Ht. destruct (Hrow t Ht) as (o & Ho & Hspec). rewrite Hf in Ho. apply Ok_inj in Ho. subst o.
    destruct Hspec as (-> & Hpos & Hs & Hlt). cbn [found from_option id fst]. unfold layer_ok, InvalidLayerTemporal in *.
    split; [lia|]. split; [lia|]. intros Hall. specialize (Hall l). unfold under in Hall. lia.
  - cbn [found from_option id fst]. split; [done|]. split; [|done]. intros _ l [Hs Ht].
    rewrite res_find_None, Forall_forall in Ho. destruct (Hrow _ Ht) as (o & Ho' & Hspec).
    rewrite (Ho (Temporal l)) in Ho' by (by apply elem_of_zdown). apply Ok_inj in Ho'. subst o.
    specialize (Hspec _ Hs). by destruct l.
Qed.

(** What a best weighted transition offers: [d] bits for moving to [l]. *)
Definition bestOffer (p : VideoAllocationProvisional) f (l : VideoLayer) (d : Z) : Prop :=
  let brs := vp_bitrates p in
  let target := GetTarget (vls f) in
  if vp_muted p || vp_pubMuted p then l = InvalidLayer /\ d = usage brs f
  else
    (forall l', under (vp_maxLayer p) l' -> rate0 brs l' = 0) /\ l = vp_currentLayer p /\ d = usage brs f \/
    exists maxReachable best, 0 <= maxReachable <= DefaultMaxLayerTemporal /\
      l = bt_layer best /\ d = bt_delta best /\
      (best = mkBest InvalidLayer 0 (S754_zero false) \/
       exists l', l' ∈ lowerLayers target /\ best = candidate brs (usage brs f) maxReachable target l') /\
      forall l', l' ∈ lowerLayers target -> beats (candidate brs (usage brs f) maxReachable target l') best = false.

Lemma lowerLayers_in_brs target : layer_ok target -> Forall in_brs (lowerLayers target).
Proof.
  intros Ht. apply Forall_forall. intros l Hl. apply elem_of_lowerLayers in Hl as [Hl _]. by apply (under_in_brs target).
Qed.

Lemma bestWeighted_ok p f : fwd_ok f -> usage_ok f -> provisional f = Some p ->
  exists l d, ProvisionalAllocateGetBestWeightedTransition f =
    Ok (allocate l p f, mkTransition (GetTarget (vls f)) l (- d)) /\
    layer_ok l /\ 0 <= d < max_rate /\ bestOffer p f l d.
Proof.
  intros Hf Hu Hp. pose proof (fo_provisional f Hf p Hp) as Hok. pose proof Hok as [[Hw _] _ Hm Hc _].
  pose proof (fo_vls f Hf) as (_ & _ & Ht & _). pose proof (usage_range _ f Hf Hw Hu) as Hur.
  assert (Hneg : forall d, 0 <= d < max_rate -> i64 (- d) = - d) by (intros d Hd; apply i64_small; unfold max_rate, max_capacity in *; lia).
  unfold ProvisionalAllocateGetBestWeightedTransition, getProvisional, bestOffer. rewrite Hp. cbn [res_bind].
  rewrite (existingNeeded_ok p f Hf Hok).
  destruct (vp_muted p || vp_pubMuted p).
  { cbn [res_bind]. exists InvalidLayer, (usage (vp_bitrates p) f). rewrite Hneg by done. split; [done|]. split; [apply layer_ok_invalid|]. split; [exact Hur|done]. }
  destruct (maxReachableTemporal_ok p Hok) as (t & -> & Htr & Hdry). cbn [res_bind].
  destruct (Z.eqb_spec t InvalidLayerTemporal) as [E|E].
  - exists (vp_currentLayer p), (usage (vp_bitrates p) f). rewrite Hneg by done. split_and!; try done; try lia.
    left. split; [by apply Hdry|done].
  - destruct (bestCandidate _ (usage (vp_bitrates p) f) t (GetTarget (vls f)) _ (mkBest InvalidLayer 0 (S754_zero false)) Hw
      (lowerLayers_in_brs _ Ht) Hur) as (best & -> & Hor & _ & Hall). cbn [res_bind].
    exists (bt_layer best), (bt_delta best).
    assert (layer_ok (bt_layer best) /\ 0 <= bt_delta best < max_rate) as [Hl Hd].
    { destruct Hor as [->|(l & Hin & ->)]; [done|]. cbn.
      pose proof (lowerLayers_in_brs _ Ht) as Hlow. rewrite Forall_forall in Hlow. specialize (Hlow l Hin).
      pose proof (rateOf_ok _ _ Hw Hlow) as [_ Hr]. split; [by apply in_brs_ok|lia]. }
    rewrite Hneg by done. split; [done|]. split; [done|]. split; [done|]. right. exists t, best.
    unfold InvalidLayerTemporal in *. split_and!; try done; lia.
Qed.

(** ** Steps up *)

Lemma higherRanges_in_brs allowOvershoot f : fwd_ok f -> Forall (Forall in_brs) (higherRanges allowOvershoot f).
Proof.
  intros [(Hm & _ & Ht & _) _ _]. unfold higherRanges.
  assert (Hcells : forall lo1 hi1 lo2 hi2, 0 <= lo1 -> hi1 <= DefaultMaxLayerSpatial -> 0 <= lo2 -> hi2 <= DefaultMaxLayerTemporal ->
    Forall in_brs (cells (zrange lo1 hi1) (zrange lo2 hi2))).
  { intros lo1 hi1 lo2 hi2 H1 H2 H3 H4. apply Forall_forall. intros l Hl.
    apply elem_of_cells in Hl as [Hs Hl]. apply elem_of_zrange in Hs, Hl. unfold in_brs. lia. }
  unfold layer_ok, InvalidLayerSpatial, InvalidLayerTemporal in *.
  assert (i32 (Spatial (GetTarget (vls f)) + 1) = Spatial (GetTarget (vls f)) + 1) as Es
    by (apply i32_small; unfold DefaultMaxLayerSpatial in *; lia).
  assert (i32 (Temporal (GetTarget (vls f)) + 1) = Temporal (GetTarget (vls f)) + 1) as Et
    by (apply i32_small; unfold DefaultMaxLayerTemporal in *; lia).
  assert (i32 (Spatial (GetMax (vls f)) + 1) = Spatial (GetMax (vls f)) + 1) as Em
    by (apply i32_small; unfold DefaultMaxLayerSpatial in *; lia).
  rewrite Es, Et, Em. apply Forall_app. split; [|apply Forall_cons; split; [apply Hcells; lia|]].
  - destruct (IsValid (GetTarget (vls f))) eqn:Hv; [|done].
    apply Forall_singleton, Hcells; revert Hv; unfold IsValid, InvalidLayerSpatial, InvalidLayerTemporal; lia.
  - destruct (_ && IsValid (GetMax (vls f))) eqn:Hv; [|done]. apply andb_true_iff in Hv as [_ Hv].
    apply Forall_singleton, Hcells; revert Hv; unfold IsValid, InvalidLayerSpatial, InvalidLayerTemporal; lia.
Qed.

Lemma higherRanges_greater allowOvershoot f : fwd_ok f ->
  mayExceedMax allowOvershoot f = false \/ Spatial (GetTarget (vls f)) <= Spatial (GetMax (vls f)) ->
  Forall (Forall (fun l => GreaterThan l (GetTarget (vls f)) = true)) (higherRanges allowOvershoot f).
Proof.
  intros [(Hm & _ & Ht & _) _ _] Hov. unfold higherRanges.
  unfold layer_ok, InvalidLayerSpatial, InvalidLayerTemporal in *.
  rewrite !i32_small by (unfold DefaultMaxLayerSpatial, DefaultMaxLayerTemporal in *; lia).
  assert (Hcells : forall lo1 hi1 lo2 hi2, Spatial (GetTarget (vls f)) < lo1 \/ Spatial (GetTarget (vls f)) <= lo1 /\
    Temporal (GetTarget (vls f)) < lo2 ->
    Forall (fun l => GreaterThan l (GetTarget (vls f)) = true) (cells (zrange lo1 hi1) (zrange lo2 hi2))).
  { intros lo1 hi1 lo2 hi2 Hlo. apply Forall_forall. intros l Hl. apply elem_of_cells in Hl as [Hs Hl].
    apply elem_of_zrange in Hs, Hl. unfold GreaterThan. rewrite !Z.gtb_ltb. lia. }
  apply Forall_app. split; [|apply Forall_cons; split; [apply Hcells; lia|]].
  - destruct (IsValid _); [|done]. apply Forall_singleton, Hcells. lia.
  - fold (mayExceedMax allowOvershoot f). destruct (mayExceedMax allowOvershoot f) eqn:Ho; cbn [andb]; [|done].
    destruct (IsValid _); [|done]. destruct Hov as [?|Hov]; [done|]. apply Forall_singleton, Hcells. lia.
Qed.

Lemma alreadyAllocated_ok brs f : fwd_ok f -> wf_brs brs ->
  alreadyAllocated brs f = Ok (rateTo brs (GetTarget (vls f))) /\ 0 <= rateTo brs (GetTarget (vls f)) < max_rate.
Proof. intros [(_ & _ & Ht & _) _ _] Hw. by apply rateTo_ok. Qed.

(** The layer a step up to [l] allocates. *)
Definition stepUp (capacity : Z) (brs : Bitrates) (allowOvershoot : bool) f f' (a : VideoAllocation) (l : VideoLayer) : Prop :=
  let already := rateTo brs (GetTarget (vls f)) in
  exists optimal distance,
    GetOptimalBandwidthNeeded brs f = Ok optimal /\
    0 < rate0 brs l /\ in_brs l /\ l ∈ mjoin (higherRanges allowOvershoot f) /\
    (mayExceedMax allowOvershoot f = false -> rate0 brs l - already <= capacity) /\
    (f', a) = updateAllocation
      (mkAllocation VideoPauseReasonNone (negb (GreaterThan l (GetMax (vls f)) || (rate0 brs l >=? optimal)))
         (rate0 brs l) (rate0 brs l - already) optimal brs l (Spatial l) (GetMax (vls f)) distance) f.

Lemma doAllocation_ok capacity al brs allowOvershoot optimal f ls : fwd_ok f -> measurement_ok al brs ->
  GetOptimalBandwidthNeeded brs f = Ok optimal ->
  ls ∈ higherRanges allowOvershoot f ->
  exists o, doAllocation capacity al brs allowOvershoot optimal (rateTo brs (GetTarget (vls f))) f ls = Ok o /\
  match o with
  | None => True
  | Some (f', (a, boosted)) =>
    if boosted then exists l, stepUp capacity brs allowOvershoot f f' a l else f' = f /\ a = lastAllocation f
  end.
Proof.
  intros Hf [Hw Hal] Hopt Hin. pose proof (higherRanges_in_brs allowOvershoot f Hf) as Hls. rewrite Forall_forall in Hls.
  specialize (Hls ls Hin). destruct (firstNonzero_ok brs ls Hw Hls) as (o & Ho & Hspec).
  destruct (alreadyAllocated_ok brs f Hf Hw) as [_ Har].
  unfold doAllocation. rewrite Ho. cbn [res_bind]. destruct o as [[l b]|]; [|by exists None].
  destruct Hspec as (-> & Hpos & l1 & l2 & Els & _).
  assert (l ∈ ls) as Hl by (rewrite Els; apply elem_of_app; right; by left).
  rewrite Forall_forall in Hls. pose proof (Hls l Hl) as Hlin. pose proof (rateOf_ok _ _ Hw Hlin) as [_ Hr].
  rewrite i64_small by (unfold max_rate, max_capacity in *; lia).
  replace (negb allowOvershoot || negb (vlsIsOvershootOkay (vls f))) with (negb (mayExceedMax allowOvershoot f))
    by (unfold mayExceedMax; by rewrite negb_andb).
  destruct (negb _ && _) eqn:Hcap; [eexists; split; [done|]; done|].
  destruct (fo_vls f Hf) as (Hm & Hs & _ & _).
  destruct (getDistanceToDesired_ok (muted f) (pubMuted f) (GetMaxSeen (vls f)) al brs l (GetMax (vls f)) Hw Hs Hm Hal)
    as (d & ->). cbn [res_bind].
  destruct (updateAllocation _ f) as [f' a] eqn:Hup. eexists. split; [done|]. cbn beta iota. exists l, optimal, d.
  split_and!; try done.
  - apply list_elem_of_join. eauto.
  - intros Hx. rewrite Hx, Z.gtb_ltb in Hcap. cbn [negb andb] in Hcap. lia.
Qed.

Lemma AllocateNextHigher_ok capacity al brs allowOvershoot f : fwd_ok f -> measurement_ok al brs ->
  exists f' a boosted, AllocateNextHigher capacity al brs allowOvershoot f = Ok (f', (a, boosted)) /\
  (boosted = false -> f' = f /\ a = lastAllocation f) /\
  (boosted = true -> kind f <> RTPCodecTypeAudio /\ isDeficientLocked f = true /\ exists l, stepUp capacity brs allowOvershoot f f' a l).
Proof.
  intros Hf Hmeas. pose proof Hmeas as [Hw Hal]. destruct (fo_vls f Hf) as (Hm & _ & _ & _).
  unfold AllocateNextHigher. destruct (bool_decide_reflect (kind f = RTPCodecTypeAudio)) as [|Hk];
    [do 3 eexists; split; [done|]; by split|].
  destruct (isDeficientLocked f) eqn:Hd; cbn [orb negb]; [|do 3 eexists; split; [done|]; by split].
  destruct (getOptimalBandwidthNeeded_ok (muted f) (pubMuted f) (Spatial (GetMaxSeen (vls f))) brs _ Hw Hm) as (optimal & Ho & _).
  assert (GetOptimalBandwidthNeeded brs f = Ok optimal) as Hopt by exact Ho. rewrite Hopt. cbn [res_bind].
  destruct (alreadyAllocated_ok brs f Hf Hw) as [-> Har]. cbn [res_bind].
  set (g := doAllocation _ _ _ _ _ _ f).
  assert (Hg : forall ls, ls ∈ higherRanges allowOvershoot f -> exists o, g ls = Ok o).
  { intros ls Hls. destruct (doAllocation_ok capacity al brs allowOvershoot optimal f ls Hf Hmeas Hopt Hls) as (o & ? & _). eauto. }
  destruct (res_find_ok g (higherRanges allowOvershoot f)) as (o & Hfind); [by apply Forall_forall|].
  rewrite Hfind. cbn [res_bind]. destruct o as [[f' [a boosted]]|]; cbn [from_option id].
  - do 3 eexists. split; [done|]. apply res_find_Some in Hfind as (r1 & ls & r2 & Hr & _ & Hls).
    destruct (doAllocation_ok capacity al brs allowOvershoot optimal f ls Hf Hmeas Hopt) as (o & Ho' & Hspec).
    { rewrite Hr. apply elem_of_app. right. by left. }
    fold g in Ho'. rewrite Hls in Ho'. apply Ok_inj in Ho'. subst o. by destruct boosted.
  - do 3 eexists. split; [done|]. by split.
Qed.

(** ** Pause *)

Lemma Pause_eq al brs f : fwd_ok f -> measurement_ok al brs ->
  exists optimal distance, GetOptimalBandwidthNeeded brs f = Ok optimal /\
    let reason := if muted f then VideoPauseReasonMuted else if pubMuted f then VideoPauseReasonPubMuted
                  else if optimal =? 0 then VideoPauseReasonFeedDry else VideoPauseReasonBandwidth in
    Pause al brs f =
      Ok (updateAllocation
            (mkAllocation reason (bool_decide (reason = VideoPauseReasonBandwidth)) 0 (i64 (- usage brs f)) optimal brs
               InvalidLayer InvalidLayerSpatial (GetMax (vls f)) distance) f).
Proof.
  intros Hf [Hw Hal]. destruct (fo_vls f Hf) as (Hm & Hs & _ & _).
  destruct (getOptimalBandwidthNeeded_ok (muted f) (pubMuted f) (Spatial (GetMaxSeen (vls f))) brs _ Hw Hm) as (optimal & Ho & _).
  destruct (getDistanceToDesired_ok (muted f) (pubMuted f) (GetMaxSeen (vls f)) al brs InvalidLayer (GetMax (vls f)) Hw Hs Hm Hal)
    as (d & Hd).
  exists optimal, d. split; [exact Ho|]. cbv zeta. unfold Pause, GetOptimalBandwidthNeeded. rewrite Ho. cbn [res_bind].
  rewrite (BandwidthRequested_ok _ _ Hf Hw). cbn [res_bind]. rewrite Hd. cbn [res_bind].
  destruct (muted f); [done|]. destruct (pubMuted f); [done|]. by destruct (optimal =? 0).
Qed.

(** ** Optimal allocation *)

(** [m] is the greatest element of [al] not above [limit]; -1 when there is
    none. *)
Definition greatest (limit : Z) (al : list Z) (m : Z) : Prop :=
  (m = InvalidLayerSpatial /\ Forall (fun a => limit < a) al) \/
  (m ∈ al /\ m <= limit /\ Forall (fun a => a <= limit -> a <= m) al).

Definition least (al : list Z) (m : Z) : Prop :=
  (m = InvalidLayerSpatial /\ al = []) \/ (m ∈ al /\ Forall (fun a => m <= a) al).

Lemma scanAvailable_ok limit al : Forall (fun s => 0 <= s <= DefaultMaxLayerSpatial) al ->
  let '(request, highest, lowest) := scanAvailable limit al in
  greatest limit al request /\ greatest DefaultMaxLayerSpatial al highest /\ least al lowest.
Proof.
  unfold scanAvailable. intros Hal. induction al as [|a al IH] using rev_ind.
  { cbn. split_and!; left; done. }
  apply Forall_app in Hal as [Hal Ha]. rewrite Forall_singleton in Ha. specialize (IH Hal).
  rewrite foldl_app. destruct (foldl _ _ al) as [[r h] l]. cbn. destruct IH as (Hr & Hh & Hl).
  assert (Hext : forall x : Z, x ∈ al -> x ∈ al ++ [a]) by (intros x Hx; apply elem_of_app; by left).
  assert (Hlast : a ∈ al ++ [a]) by (apply elem_of_app; right; by left).
  assert (Hgreat : forall lim m, greatest lim al m ->
    greatest lim (al ++ [a]) (if (a >? m) && (a <=? lim) then a else m)).
  { intros lim m Hm. rewrite Z.gtb_ltb. unfold greatest, InvalidLayerSpatial in *.
    destruct ((m <? a) && (a <=? lim)) eqn:E; bool_prop.
    - right. split; [done|]. split; [lia|]. apply Forall_app. rewrite Forall_singleton. split; [|lia].
      destruct Hm as [[-> Hm]|(_ & _ & Hm)]; eapply Forall_impl; try exact Hm; cbv beta; lia.
    - destruct Hm as [[-> Hm]|(Hin & Hle & Hm)].
      + left. split; [done|]. apply Forall_app. rewrite Forall_singleton. split; [done|lia].
      + right. split; [by apply Hext|]. split; [done|]. apply Forall_app. rewrite Forall_singleton. split; [done|lia]. }
  split; [by apply Hgreat|]. split.
  - specialize (Hgreat _ _ Hh). by rewrite (proj2 (Z.leb_le a DefaultMaxLayerSpatial)), andb_true_r in Hgreat by lia.
  - unfold least, InvalidLayerSpatial in *. right.
    destruct Hl as [[-> ->]|[Hin Hl]]; [cbn; split; [done|]; by apply Forall_singleton|].
    assert (0 <= l) by (rewrite Forall_forall in Hal; specialize (Hal l Hin); lia).
    rewrite (proj2 (Z.eqb_neq l (-1))) by lia. cbn [orb]. destruct (Z.ltb_spec a l).
    + split; [done|]. apply Forall_app. rewrite Forall_singleton. split; [|lia]. eapply Forall_impl; [exact Hl|]. cbv beta. lia.
    + split; [by apply Hext|]. apply Forall_app. rewrite Forall_singleton. split; [done|lia].
Qed.

(** The spatial layer [AllocateOptimal] asks for: the highest available one
    within the limits, or the highest when overshooting and none is within. *)
Definition requestedLayer (limit : Z) (al : list Z) (overshoot : bool) (r : Z) : Prop :=
  exists m, greatest limit al m /\
  if (m =? InvalidLayerSpatial) && overshoot then greatest DefaultMaxLayerSpatial al r else r = m.

(** The targets of a stream that is not muted and has layers to send. *)
Definition chosen (al : list Z) (overshoot hold : bool) f (l : VideoLayer) : Prop :=
  let seen := Spatial (GetMaxSeen (vls f)) in
  let max := Spatial (GetMax (vls f)) in
  let current := GetCurrent (vls f) in
  exists r, requestedLayer (Z.min max seen) al overshoot r /\
  if IsValid current then
    let stay := (r =? InvalidLayerSpatial) || ((r =? GetRequestSpatial (vls f)) && (r =? Spatial current)) in
    if stay then l = mkLayer (Spatial current) (getMaxTemporal f)
    else if hold then exists m, least al m /\ l = mkLayer m 0
    else l = mkLayer r (getMaxTemporal f)
  else if hold then exists m, least al m /\ l = mkLayer (Z.max 0 m) 0
  else l = mkLayer (if overshoot then seen else Z.min seen max) (getMaxTemporal f).

Lemma optimalTarget_ok al allowOvershoot hold f : Forall (fun s => 0 <= s <= DefaultMaxLayerSpatial) al ->
  chosen al (mayExceedMax allowOvershoot f) hold f (fst (optimalTarget al allowOvershoot hold f)).
Proof.
  intros Hal. unfold optimalTarget, chosen, opportunisticAlloc. fold (mayExceedMax allowOvershoot f).
  pose proof (scanAvailable_ok (Z.min (Spatial (GetMax (vls f))) (Spatial (GetMaxSeen (vls f)))) al Hal) as Hscan.
  destruct (scanAvailable _ al) as [[r h] l]. destruct Hscan as (Hr & Hh & Hl).
  set (request := if (r =? InvalidLayerSpatial) && negb (h =? InvalidLayerSpatial) && allowOvershoot
                     && vlsIsOvershootOkay (vls f) then h else r).
  exists request. split.
  { exists r. split; [done|]. unfold request, mayExceedMax, InvalidLayerSpatial in *.
    destruct (Z.eqb_spec r (-1)) as [->|]; cbn [andb]; [|done].
    destruct (Z.eqb_spec h (-1)) as [->|]; cbn [negb andb]; destruct allowOvershoot, (vlsIsOvershootOkay _); done. }
  assert (Hmin : forall m, least al m -> (if m =? InvalidLayerSpatial then mkLayer 0 0 else mkLayer m 0) = mkLayer (Z.max 0 m) 0).
  { intros m Hm. unfold InvalidLayerSpatial. destruct (Z.eqb_spec m (-1)) as [->|Hne]; [done|].
    destruct Hm as [[? _]|[Hin _]]; [done|]. rewrite Forall_forall in Hal. specialize (Hal m Hin). f_equal. lia. }
  destruct (IsValid (GetCurrent (vls f))).
  - cbn [fst]. destruct (Z.eqb_spec request InvalidLayerSpatial) as [E|E]; cbn [orb]; [by rewrite orb_true_r|].
    rewrite orb_false_r. destruct (Z.eqb_spec request (GetRequestSpatial (vls f))) as [E1|E1]; cbn [andb].
    + rewrite <- E1, (Z.eqb_sym (Spatial _)). destruct (request =? Spatial (GetCurrent (vls f))); [done|]. destruct hold; [by exists l|done].
    + destruct hold; [by exists l|done].
  - destruct hold; cbn [fst]; [exists l; split; [done|by apply Hmin]|]. unfold opportunisticAlloc. f_equal.
    unfold mayExceedMax. destruct allowOvershoot, (vlsIsOvershootOkay _); cbn [andb]; try done.
    rewrite Z.gtb_ltb. destruct (Z.ltb_spec (Spatial (GetMax (vls f))) (Spatial (GetMaxSeen (vls f)))); lia.
Qed.

Lemma getMaxTemporal_ok f : fwd_ok f -> IsValid (GetMax (vls f)) = true ->
  0 <= getMaxTemporal f <= Temporal (GetMax (vls f)).
Proof.
  intros [(Hm & Hs & _ & _) _ _] Hv. apply layer_ok_valid in Hv as [_ Ht]; [|done].
  unfold getMaxTemporal. unfold layer_ok, InvalidLayerTemporal in *.
  destruct (Z.eqb_spec (Temporal (GetMaxSeen (vls f))) (-1)); cbn [negb andb]; [lia|]. case_if; bool_prop; lia.
Qed.

Lemma greatest_ok limit al m : Forall (fun s => 0 <= s <= DefaultMaxLayerSpatial) al -> greatest limit al m ->
  InvalidLayerSpatial <= m <= DefaultMaxLayerSpatial.
Proof.
  intros Hal [[-> _]|(Hin & _ & _)]; [done|]. rewrite Forall_forall in Hal. specialize (Hal m Hin).
  unfold InvalidLayerSpatial. lia.
Qed.

Lemma least_ok al m : Forall (fun s => 0 <= s <= DefaultMaxLayerSpatial) al -> least al m ->
  InvalidLayerSpatial <= m <= DefaultMaxLayerSpatial /\ (m = InvalidLayerSpatial -> al = []).
Proof.
  intros Hal [[-> ->]|[Hin _]]; [done|]. rewrite Forall_forall in Hal. specialize (Hal m Hin).
  unfold InvalidLayerSpatial. split; [lia|]. intros ->. lia.
Qed.

(** A chosen target is a layer of the array. *)
Lemma chosen_in_brs al overshoot hold f l : fwd_ok f -> Forall (fun s => 0 <= s <= DefaultMaxLayerSpatial) al ->
  IsValid (GetMax (vls f)) = true -> Spatial (GetMaxSeen (vls f)) <> InvalidLayerSpatial ->
  chosen al overshoot hold f l -> in_brs l.
Proof.
  intros Hf Hal Hv Hseen (r & Hr & Hl). pose proof (getMaxTemporal_ok f Hf Hv) as Hmt.
  destruct (fo_vls f Hf) as (Hm & Hs & _ & Hc). apply layer_ok_valid in Hv; [|done]. destruct Hv as [Hms Hmtt].
  assert (Hrr : InvalidLayerSpatial <= r <= DefaultMaxLayerSpatial /\ (al = [] -> r = InvalidLayerSpatial)).
  { destruct Hr as (m & Hg & Hr). split.
    - destruct ((m =? InvalidLayerSpatial) && overshoot); [|subst r]; eapply greatest_ok; eassumption.
    - intros ->. assert (forall lim x, greatest lim [] x -> x = InvalidLayerSpatial) as Hnil.
      { intros lim x [[-> _]|(Hin & _)]; [done|]. by apply not_elem_of_nil in Hin. }
      destruct ((m =? InvalidLayerSpatial) && overshoot); [by apply Hnil in Hr|]. subst r. by apply Hnil in Hg. }
  destruct Hrr as [Hrr Hrnil]. unfold in_brs, layer_ok, InvalidLayerSpatial, InvalidLayerTemporal in *.
  destruct (IsValid (GetCurrent (vls f))) eqn:Hcv.
  - revert Hcv. unfold IsValid, InvalidLayerSpatial, InvalidLayerTemporal. intros Hcv.
    destruct (Z.eqb_spec r (-1)) as [E|E]; cbn [orb] in Hl; [subst l; cbn; lia|].
    destruct (_ && _); [subst l; cbn; lia|]. destruct hold; [|subst l; cbn; lia].
    destruct Hl as (m & Hleast & ->). destruct (least_ok al m Hal Hleast) as [Hmr Hmnil]. cbn.
    unfold InvalidLayerSpatial in *. split; [|done]. split; [|lia]. destruct (Z.eq_dec m (-1)) as [Em|]; [|lia].
    by destruct (E (Hrnil (Hmnil Em))).
  - destruct hold.
    + destruct Hl as (m & Hleast & ->). destruct (least_ok al m Hal Hleast) as [Hmr _]. cbn.
      unfold InvalidLayerSpatial, DefaultMaxLayerSpatial, DefaultMaxLayerTemporal in *. lia.
    + subst l. cbn. destruct overshoot; lia.
Qed.

(** ** The invariant is kept *)

(** A video forwarder between two operations. *)
Record alloc_inv f : Prop := {
  ai_fwd : fwd_ok f;
  ai_usage : usage_ok f;
}.

Lemma alloc_inv_update alloc f : fwd_ok f -> layer_ok (va_TargetLayer alloc) ->
  0 <= va_BandwidthRequested alloc < max_rate -> alloc_inv (fst (updateAllocation alloc f)).
Proof.
  intros Hf Hl Hb. split; [by apply fwd_ok_update|]. unfold usage_ok.
  destruct (updateAllocation_ok alloc f) as (_ & -> & _). unfold stored. by case_if.
Qed.

Lemma same_settings_update alloc f : same_settings f (fst (updateAllocation alloc f)).
Proof. by destruct (updateAllocation_ok alloc f) as (_ & _ & _ & _ & _ & ?). Qed.

Lemma alloc_inv_allocate layer p f : alloc_inv f -> provisional f = Some p -> layer_ok layer ->
  alloc_inv (allocate layer p f).
Proof. intros [Hf Hu] Hp Hl. split; [by apply fwd_ok_allocate|done]. Qed.

Lemma ProvisionalAllocatePrepare_inv al brs f : alloc_inv f -> measurement_ok al brs ->
  alloc_inv (ProvisionalAllocatePrepare al brs f).
Proof.
  intros [[(Hm & Hs & Ht & Hc) Hp Hi] Hu] [Hw Hal]. split; [|done]. split; [done| |done].
  intros p E. apply (inj Some) in E. subst p. by split.
Qed.

Lemma highest_range P brs o : (forall l, P l -> in_brs l) -> wf_brs brs -> highest P brs o ->
  0 <= snd (found o) < max_rate.
Proof.
  intros HP Hw Ho. destruct o as [[l b]|]; [|done]. destruct Ho as (-> & Hpos & Hl & _). cbn.
  by apply rateOf_ok, HP.
Qed.

(** The bandwidth an optimal allocation asks for. *)
Lemma optimalRequested_ok brs target f : fwd_ok f -> wf_brs brs -> layer_ok target ->
  exists r, (if IsValid target
     then getOptimalBandwidthNeeded (muted f) (pubMuted f) (Spatial (GetMaxSeen (vls f))) brs target else Ok 0) = Ok r /\
    0 <= r < max_rate /\
    (IsValid target = false \/ muted f || pubMuted f || (Spatial (GetMaxSeen (vls f)) =? InvalidLayerSpatial) = true -> r = 0) /\
    (IsValid target = true -> muted f || pubMuted f || (Spatial (GetMaxSeen (vls f)) =? InvalidLayerSpatial) = false ->
       exists o, highest (under target) brs o /\ r = snd (found o)).
Proof.
  intros Hf Hw Ht. destruct (IsValid target) eqn:Hv; [|by exists 0].
  destruct (getOptimalBandwidthNeeded_ok (muted f) (pubMuted f) (Spatial (GetMaxSeen (vls f))) brs target Hw Ht)
    as (r & -> & _ & H0 & H1). exists r. split; [done|]. split; [|split; [intros [?|?]; [done|by apply H0]|by intros _]].
  destruct (_ || _) eqn:E; [by rewrite H0|]. destruct (H1 eq_refl) as (o & Ho & ->).
  eapply highest_range; [|done|exact Ho]. intros l. by apply under_in_brs.
Qed.

(** What an optimal allocation is. *)
Definition optimalAllocation (al : list Z) (brs : Bitrates) (allowOvershoot hold : bool) f (a : VideoAllocation) : Prop :=
  let t := va_TargetLayer a in
  GetOptimalBandwidthNeeded brs f = Ok (va_BandwidthNeeded a) /\
  va_IsDeficient a = false /\ layer_ok t /\ 0 <= va_BandwidthRequested a < max_rate /\
  let dry := if va_BandwidthNeeded a =? 0 then VideoPauseReasonFeedDry else VideoPauseReasonNone in
  if negb (IsValid (GetMax (vls f))) || (Spatial (GetMaxSeen (vls f)) =? InvalidLayerSpatial)
  then t = InvalidLayer /\ va_PauseReason a = dry /\ va_BandwidthRequested a = 0
  else if muted f then t = InvalidLayer /\ va_PauseReason a = VideoPauseReasonMuted /\ va_BandwidthRequested a = 0
  else if pubMuted f then t = InvalidLayer /\ va_PauseReason a = VideoPauseReasonPubMuted /\ va_BandwidthRequested a = 0
  else in_brs t /\ chosen al (mayExceedMax allowOvershoot f) hold f t /\ va_PauseReason a = dry /\
       exists o, highest (under t) brs o /\ va_BandwidthRequested a = snd (found o).

Lemma completeOptimal_ok al brs needed reason target request f : fwd_ok f -> measurement_ok al brs -> layer_ok target ->
  exists a, completeOptimal al brs needed reason target request f = Ok (updateAllocation a f) /\
    va_PauseReason a = reason /\ va_IsDeficient a = false /\ va_BandwidthNeeded a = needed /\
    va_TargetLayer a = (if IsValid target then target else InvalidLayer) /\ 0 <= va_BandwidthRequested a < max_rate /\
    (IsValid target = false -> va_BandwidthRequested a = 0) /\
    (IsValid target = true -> muted f || pubMuted f || (Spatial (GetMaxSeen (vls f)) =? InvalidLayerSpatial) = false ->
       exists o, highest (under target) brs o /\ va_BandwidthRequested a = snd (found o)).
Proof.
  intros Hf [Hw Hal] Hl. destruct (fo_vls f Hf) as (Hm & Hs & _ & _). unfold completeOptimal.
  assert (exists t q, (if negb (IsValid target) then (InvalidLayer, InvalidLayerSpatial) else (target, request)) = (t, q) /\
            t = (if IsValid target then target else InvalidLayer)) as (t & q & -> & Et).
  { destruct (IsValid target); eauto. }
  assert (layer_ok t) as Htl by (subst t; destruct (IsValid target); [done|apply layer_ok_invalid]).
  destruct (optimalRequested_ok brs t f Hf Hw Htl) as (r & -> & Hr & Hr0 & Hr1). cbn [res_bind].
  rewrite (BandwidthRequested_ok _ _ Hf Hw). cbn [res_bind].
  destruct (getDistanceToDesired_ok (muted f) (pubMuted f) (GetMaxSeen (vls f)) al brs t (GetMax (vls f)) Hw Hs Hm Hal) as (d & ->).
  cbn [res_bind]. eexists. split; [done|]. cbn. split_and!; try done; try lia.
  - intros E. apply Hr0. left. subst t. by rewrite E.
  - intros E. subst t. rewrite E in Hr1. by apply Hr1.
Qed.

Lemma AllocateOptimal_ok al brs allowOvershoot hold f : fwd_ok f -> measurement_ok al brs ->
  kind f <> RTPCodecTypeAudio ->
  exists a, AllocateOptimal al brs allowOvershoot hold f = Ok (updateAllocation a f) /\
            optimalAllocation al brs allowOvershoot hold f a.
Proof.
  intros Hf Hmeas Hk. pose proof Hmeas as [Hw Hal]. destruct (fo_vls f Hf) as (Hm & Hs & _ & _).
  unfold AllocateOptimal. rewrite bool_decide_eq_false_2 by done.
  destruct (getOptimalBandwidthNeeded_ok (muted f) (pubMuted f) (Spatial (GetMaxSeen (vls f))) brs _ Hw Hm) as (needed & Ho & _).
  assert (GetOptimalBandwidthNeeded brs f = Ok needed) as Hopt by exact Ho. rewrite Hopt. cbn [res_bind].
  unfold optimalChoice, optimalAllocation. set (dry := if needed =? 0 then _ else _).
  assert (Hnone : forall reason, exists a,
    completeOptimal al brs needed reason InvalidLayer (GetRequestSpatial (vls f)) f = Ok (updateAllocation a f) /\
    va_PauseReason a = reason /\ va_IsDeficient a = false /\ va_BandwidthNeeded a = needed /\
    va_TargetLayer a = InvalidLayer /\ va_BandwidthRequested a = 0).
  { intros reason. destruct (completeOptimal_ok al brs needed reason _ (GetRequestSpatial (vls f)) f Hf Hmeas layer_ok_invalid)
      as (a & Ha & H1 & H2 & H3 & H4 & _ & H6 & _). exists a. split_and!; auto. }
  destruct (negb (IsValid (GetMax (vls f))) || _) eqn:Hx.
  { destruct (Hnone dry) as (a & Ha & H1 & H2 & H3 & H4 & H5). exists a. rewrite H1, H2, H3, H4, H5. by split_and!. }
  destruct (muted f) eqn:Hmute.
  { destruct (Hnone VideoPauseReasonMuted) as (a & Ha & H1 & H2 & H3 & H4 & H5). exists a. rewrite H1, H2, H3, H4, H5. by split_and!. }
  destruct (pubMuted f) eqn:Hpub.
  { destruct (Hnone VideoPauseReasonPubMuted) as (a & Ha & H1 & H2 & H3 & H4 & H5). exists a. rewrite H1, H2, H3, H4, H5. by split_and!. }
  apply orb_false_iff in Hx as [Hv Hseen]. apply negb_false_iff in Hv. apply Z.eqb_neq in Hseen.
  pose proof (optimalTarget_ok al allowOvershoot hold f Hal) as Hch.
  destruct (optimalTarget al allowOvershoot hold f) as [target request]. cbn [fst] in Hch.
  pose proof (chosen_in_brs al _ hold f target Hf Hal Hv Hseen Hch) as Hin. pose proof (in_brs_valid _ Hin) as Htv.
  destruct (completeOptimal_ok al brs needed dry target request f Hf Hmeas (in_brs_ok _ Hin))
    as (a & Ha & H1 & H2 & H3 & H4 & H5 & _ & H7). exists a. rewrite Htv in H4. rewrite H1, H2, H3, H4.
  rewrite Hmute, Hpub, (proj2 (Z.eqb_neq _ _) Hseen) in H7. split; [done|]. split; [done|]. split; [done|]. split; [exact (in_brs_ok _ Hin)|]. split; [exact H5|]. split; [done|]. split; [done|]. split; [done|]. by apply H7.
Qed.

(** ** Sequences of operations *)

Inductive allocOp :=
| OpOptimal (al : list Z) (brs : Bitrates) (allowOvershoot hold : bool)
| OpPrepare (al : list Z) (brs : Bitrates)
| OpReset
| OpProvisional (capacity : Z) (layer : VideoLayer) (allowPause allowOvershoot : bool)
| OpCooperative (allowOvershoot : bool)
| OpBestWeighted
| OpCommit
| OpNextHigher (capacity : Z) (al : list Z) (brs : Bitrates) (allowOvershoot : bool)
| OpPause (al : list Z) (brs : Bitrates)
| OpMute (m isSubscribeMutable : bool)
| OpPubMute (m : bool)
| OpMaxSpatial (spatial : Z)
| OpMaxTemporal (temporal : Z)
| OpMaxPublished (spatial : Z)
| OpMaxTemporalSeen (temporal : Z)
| OpResync
| OpRestart.

Definition runOp (op : allocOp) f : res fwd_panic (Forwarder om) :=
  match op with
  | OpOptimal al brs ov hold => let! x := AllocateOptimal al brs ov hold f in Ok (fst x)
  | OpPrepare al brs => Ok (ProvisionalAllocatePrepare al brs f)
  | OpReset => ProvisionalAllocateReset f
  | OpProvisional c l pause ov => let! x := ProvisionalAllocate c l pause ov f in Ok (fst x)
  | OpCooperative ov => let! x := ProvisionalAllocateGetCooperativeTransition ov f in Ok (fst x)
  | OpBestWeighted => let! x := ProvisionalAllocateGetBestWeightedTransition f in Ok (fst x)
  | OpCommit => let! x := ProvisionalAllocateCommit f in Ok (fst x)
  | OpNextHigher c al brs ov => let! x := AllocateNextHigher c al brs ov f in Ok (fst x)
  | OpPause al brs => let! x := Pause al brs f in Ok (fst x)
  | OpMute m ism => Ok (fst (Mute m ism f))
  | OpPubMute m => Ok (fst (PubMute m f))
  | OpMaxSpatial s => let! x := SetMaxSpatialLayer s f in Ok (fst x)
  | OpMaxTemporal t => Ok (fst (SetMaxTemporalLayer t f))
  | OpMaxPublished s => Ok (fst (SetMaxPublishedLayer s f))
  | OpMaxTemporalSeen t => Ok (fst (SetMaxTemporalLayerSeen t f))
  | OpResync => Ok (Resync f)
  | OpRestart => Ok (Restart f)
  end.

(** What the callers keep to: measurements of the array type, layers of the
    array, and provisional operations only between a preparation and a commit. *)
Definition op_ok (prepared : bool) (op : allocOp) : Prop :=
  match op with
  | OpOptimal al brs _ _ | OpPrepare al brs | OpNextHigher _ al brs _ | OpPause al brs => measurement_ok al brs
  | OpReset | OpCooperative _ | OpBestWeighted | OpCommit => prepared = true
  | OpProvisional c l _ _ => prepared = true /\ in_brs l /\ 0 <= c < max_capacity
  | OpMaxSpatial s => InvalidLayerSpatial <= s <= DefaultMaxLayerSpatial
  | OpMaxTemporal t => InvalidLayerTemporal <= t <= DefaultMaxLayerTemporal
  | OpMaxPublished s => s <= DefaultMaxLayerSpatial
  | OpMaxTemporalSeen t => t <= DefaultMaxLayerTemporal
  | _ => True
  end.

Fixpoint ops_ok (prepared : bool) (ops : list allocOp) : Prop :=
  match ops with
  | [] => True
  | op :: ops => op_ok prepared op /\ ops_ok (match op with OpPrepare _ _ => true | _ => prepared end) ops
  end.

Fixpoint runOps (ops : list allocOp) f : res fwd_panic (Forwarder om) :=
  match ops with
  | [] => Ok f
  | op :: ops => let! f := runOp op f in runOps ops f
  end.

Definition isPrepared f : bool := match provisional f with Some _ => true | None => false end.

(** An operation that keeps the invariant and the preparation. *)
Definition keeps f (r : res fwd_panic (Forwarder om)) : Prop :=
  exists f', r = Ok f' /\ alloc_inv f' /\ (isPrepared f = true -> isPrepared f' = true).

Lemma keeps_update alloc f0 f : isPrepared f0 = isPrepared f ->
  fwd_ok f -> layer_ok (va_TargetLayer alloc) -> 0 <= va_BandwidthRequested alloc < max_rate ->
  keeps f0 (Ok (fst (updateAllocation alloc f))).
Proof.
  intros Hp Hf Hl Hb. eexists. split; [done|]. split; [by apply alloc_inv_update|].
  destruct (updateAllocation_ok alloc f) as (_ & _ & _ & _ & E & _). unfold isPrepared in *. rewrite E. by rewrite Hp.
Qed.

Lemma keeps_allocate l p f : alloc_inv f -> provisional f = Some p -> layer_ok l -> keeps f (Ok (allocate l p f)).
Proof. intros Hi Hp Hl. eexists. split; [done|]. split; [by apply alloc_inv_allocate|done]. Qed.

Lemma isPrepared_Some f : isPrepared f = true -> exists p, provisional f = Some p.
Proof. unfold isPrepared. destruct (provisional f); [eauto|done]. Qed.

Lemma commit_keeps p f : alloc_inv f -> provisional f = Some p ->
  keeps f (let! x := ProvisionalAllocateCommit f in Ok (fst x)).
Proof.
  intros [Hf Hu] Hp. pose proof (fo_provisional f Hf p Hp) as Hok.
  destruct (ProvisionalAllocateCommit_eq p f Hf Hp) as (optimal & d & _ & ->). cbn [res_bind].
  pose proof (commitTarget_ok optimal p Hok) as Hl.
  apply keeps_update; [unfold isPrepared; by rewrite Hp|by apply fwd_ok_allocate|done|]. cbn.
  unfold commitRequested. destruct (_ || _); [done|]. by apply allocatedRate_ok.
Qed.

Lemma nextHigher_keeps c al brs ov f : alloc_inv f -> measurement_ok al brs ->
  keeps f (let! x := AllocateNextHigher c al brs ov f in Ok (fst x)).
Proof.
  intros [Hf Hu] Hmeas. destruct (AllocateNextHigher_ok c al brs ov f Hf Hmeas) as (f' & a & [] & -> & Hno & Hyes);
    cbn [res_bind fst].
  - destruct (Hyes eq_refl) as (_ & _ & l & optimal & d & _ & Hpos & Hin & _ & _ & Hup).
    replace f' with (fst (f', a)) by done. rewrite Hup. apply keeps_update; [done|done|by apply in_brs_ok|].
    by apply rateOf_ok; [apply Hmeas|].
  - destruct (Hno eq_refl) as [-> _]. by exists f.
Qed.

Lemma optimal_keeps al brs ov hold f : alloc_inv f -> measurement_ok al brs ->
  keeps f (let! x := AllocateOptimal al brs ov hold f in Ok (fst x)).
Proof.
  intros [Hf Hu] Hmeas. destruct (decide (kind f = RTPCodecTypeAudio)) as [E|E].
  - unfold AllocateOptimal. rewrite bool_decide_eq_true_2 by done. by exists f.
  - destruct (AllocateOptimal_ok al brs ov hold f Hf Hmeas E) as (a & -> & _ & _ & Hl & Hb & _). cbn [res_bind].
    by apply keeps_update.
Qed.

(** Fields outside the allocation do not matter. *)
Lemma alloc_inv_ext f f' : vls f' = vls f -> provisional f' = provisional f -> lastAllocation f' = lastAllocation f ->
  alloc_inv f -> alloc_inv f'.
Proof.
  intros Ev Ep El [[Hv Hp Hi] Hu]. split; [split|unfold usage_ok; by rewrite El]; by rewrite ?Ev, ?Ep.
Qed.

(** A change of the maximum or of what has been seen. *)
Lemma keeps_setting g f : alloc_inv f ->
  layer_ok (maxLayer (g (getBase (vls f)))) -> layer_ok (maxSeenLayer (g (getBase (vls f)))) ->
  targetLayer (g (getBase (vls f))) = targetLayer (getBase (vls f)) ->
  currentLayer (g (getBase (vls f))) = currentLayer (getBase (vls f)) ->
  alloc_inv (onVls g f) /\ isPrepared (onVls g f) = isPrepared f.
Proof.
  intros [[(Hm & Hs & Ht & Hc) Hp Hi] Hu] Gm Gs Gt Gc. unfold GetMax, GetMaxSeen, GetTarget, GetCurrent in *.
  split; [|done]. split; [|done]. split; [| exact Hp|].
  - unfold vls_ok, onVls, GetMax, GetMaxSeen, GetTarget, GetCurrent. cbn. rewrite getBase_onBase, Gt, Gc. by split_and!.
  - unfold onVls, GetTarget, GetCurrent. cbn. by rewrite getBase_onBase, Gt, Gc.
Qed.

Lemma alloc_inv_resync f : alloc_inv f -> alloc_inv (resyncLocked f) /\ isPrepared (resyncLocked f) = isPrepared f.
Proof.
  intros [[(Hm & Hs & Ht & Hc) Hp Hi] Hu].
  assert (provisional (resyncLocked f) = provisional f /\ lastAllocation (resyncLocked f) = lastAllocation f) as [E1 E2].
  { unfold resyncLocked. by case_if. }
  unfold isPrepared. rewrite E1. split; [|done]. split; [split|].
  - unfold vls_ok, GetMax, GetMaxSeen, GetTarget, GetCurrent in *. rewrite getBase_resync. cbn.
    split_and!; try done; apply layer_ok_invalid.
  - by rewrite E1.
  - intros _. unfold GetCurrent. by rewrite getBase_resync.
  - unfold usage_ok. by rewrite E2.
Qed.

Lemma keeps_Ok f f' : alloc_inv f' -> isPrepared f' = isPrepared f -> keeps f (Ok f').
Proof. intros Hi E. exists f'. split; [done|]. split; [done|]. by rewrite E. Qed.

Lemma Mute_keeps m ism f : alloc_inv f -> keeps f (Ok (fst (Mute m ism f))).
Proof.
  intros Hf. unfold Mute. destruct (Bool.eqb _ _); [by apply keeps_Ok|]. destruct (m && _); [by apply keeps_Ok|].
  assert (alloc_inv (f <| muted := m |>)) as Hf' by (by apply (alloc_inv_ext f)).
  destruct m; [|by apply keeps_Ok]. cbn [fst]. destruct (alloc_inv_resync _ Hf') as [H1 H2]. by apply keeps_Ok.
Qed.

Lemma PubMute_keeps m f : alloc_inv f -> keeps f (Ok (fst (PubMute m f))).
Proof.
  intros Hf. unfold PubMute. destruct (Bool.eqb _ _); [by apply keeps_Ok|].
  assert (alloc_inv (f <| pubMuted := m |>)) as Hf' by (by apply (alloc_inv_ext f)).
  destruct m; [|by apply keeps_Ok]. cbn [fst]. destruct (alloc_inv_resync _ Hf') as [H1 H2]. by apply keeps_Ok.
Qed.

Lemma setTargetInvalid_inv f : alloc_inv f -> IsValid (GetCurrent (vls f)) = false ->
  alloc_inv (setTargetLayer InvalidLayer InvalidLayerSpatial f).
Proof.
  intros [[(Hm & Hs & Ht & Hc) Hp Hi] Hu] Hidle. unfold setTargetLayer, onVls. cbn. split; [split|done].
  - unfold vls_ok, GetMax, GetMaxSeen, GetTarget, GetCurrent in *. cbn. rewrite !getBase_onBase. cbn.
    split_and!; try done; apply layer_ok_invalid.
  - exact Hp.
  - intros _. unfold GetCurrent in *. cbn. by rewrite !getBase_onBase.
Qed.

Lemma Restart_keeps f : alloc_inv f -> keeps f (Ok (Restart f)).
Proof.
  intros Hf. destruct (alloc_inv_resync f Hf) as [H1 H2]. apply keeps_Ok; [|exact H2].
  assert (IsValid (GetCurrent (vls (resyncLocked f))) = false) as Hc by (unfold GetCurrent; by rewrite getBase_resync).
  by apply (alloc_inv_ext (setTargetLayer InvalidLayer InvalidLayerSpatial (resyncLocked f))); [..|apply setTargetInvalid_inv].
Qed.

Lemma zeroBitrates_ok : measurement_ok [] zeroBitrates.
Proof. apply (bool_decide_unpack _). vm_compute. exact I. Qed.

Lemma SetMaxSpatial_keeps s f : alloc_inv f -> InvalidLayerSpatial <= s <= DefaultMaxLayerSpatial ->
  keeps f (let! x := SetMaxSpatialLayer s f in Ok (fst x)).
Proof.
  intros Hf Hs. unfold SetMaxSpatialLayer. destruct (bool_decide _); [by apply keeps_Ok|].
  destruct (_ =? _); [by apply keeps_Ok|].
  pose proof (fo_vls f (ai_fwd f Hf)) as (Hm & Hseen & _ & _).
  destruct (keeps_setting (SetMaxSpatial s) f Hf) as [Hf1 Hp1]; [|done|done|done|].
  { unfold layer_ok, GetMax in *. cbn. lia. }
  set (f1 := onVls (SetMaxSpatial s) f) in *.
  destruct (disableOpportunisticAllocation f1); [by apply keeps_Ok|]. destruct (_ || _); [by apply keeps_Ok|].
  unfold opportunisticTarget. pose proof (fo_vls f1 (ai_fwd f1 Hf1)) as (Hm1 & Hs1 & _ & _).
  destruct (getDistanceToDesired_ok (muted f1) (pubMuted f1) (GetMaxSeen (vls f1)) [] zeroBitrates (GetMax (vls f1)) (GetMax (vls f1)))
    as (d & ->); [apply zeroBitrates_ok|done|done|apply zeroBitrates_ok|]. cbn [res_bind fst].
  apply keeps_update; [done|apply Hf1|exact Hm1|done].
Qed.

Lemma ops_ok_mono (b b' : bool) ops : (b = true -> b' = true) -> ops_ok b ops -> ops_ok b' ops.
Proof.
  revert b b'. induction ops as [|op ops IH]; intros b b' Hb; [done|]. intros [Hop Hops]. split.
  - destruct op; cbn in *; tauto.
  - eapply IH; [|exact Hops]. by destruct op.
Qed.

Lemma runOp_keeps op f : alloc_inv f -> op_ok (isPrepared f) op -> keeps f (runOp op f).
Proof.
  intros Hf Hop. destruct op; cbn [runOp op_ok] in *.
  - by apply optimal_keeps.
  - eexists. split; [done|]. split; [by apply ProvisionalAllocatePrepare_inv|done].
  - apply isPrepared_Some in Hop as (p & Hp). unfold ProvisionalAllocateReset, getProvisional. rewrite Hp. cbn [res_bind].
    apply keeps_allocate; [done|done|apply layer_ok_invalid].
  - destruct Hop as (Hop & Hl & Hc). apply isPrepared_Some in Hop as (p & Hp).
    rewrite (ProvisionalAllocate_ok p) by (try done; by apply (fo_provisional f (ai_fwd f Hf))). cbn [res_bind].
    destruct (_ && _); cbn [fst]; [apply keeps_allocate; [done|done|by apply in_brs_ok]|by apply keeps_Ok].
  - apply isPrepared_Some in Hop as (p & Hp).
    destruct (cooperative_ok allowOvershoot p f (ai_fwd f Hf) Hp) as (l & -> & Hl & _). cbn [res_bind fst].
    by apply keeps_allocate.
  - apply isPrepared_Some in Hop as (p & Hp).
    destruct (bestWeighted_ok p f (ai_fwd f Hf) (ai_usage f Hf) Hp) as (l & d & -> & Hl & _). cbn [res_bind fst].
    by apply keeps_allocate.
  - apply isPrepared_Some in Hop as (p & Hp). by apply (commit_keeps p).
  - by apply nextHigher_keeps.
  - destruct (Pause_eq al brs f (ai_fwd f Hf) Hop) as (o & d & _ & ->). cbn [res_bind].
    apply keeps_update; [done|apply Hf|apply layer_ok_invalid|done].
  - by apply Mute_keeps.
  - by apply PubMute_keeps.
  - by apply SetMaxSpatial_keeps.
  - unfold SetMaxTemporalLayer. destruct (bool_decide _); [by apply keeps_Ok|]. destruct (_ =? _); [by apply keeps_Ok|].
    pose proof (fo_vls f (ai_fwd f Hf)) as (Hm & Hseen & _ & _).
    destruct (keeps_setting (SetMaxTemporal temporal) f Hf) as [Hf1 Hp1]; [|done|done|done|by apply keeps_Ok].
    unfold layer_ok, GetMax in *. cbn. lia.
  - unfold SetMaxPublishedLayer. case_if; [by apply keeps_Ok|].
    pose proof (fo_vls f (ai_fwd f Hf)) as (Hm & Hseen & _ & _).
    destruct (keeps_setting (SetMaxSeenSpatial spatial) f Hf) as [Hf1 Hp1]; [done| |done|done|by apply keeps_Ok].
    bool_prop. unfold layer_ok, GetMaxSeen in *. cbn. lia.
  - unfold SetMaxTemporalLayerSeen. case_if; [by apply keeps_Ok|].
    pose proof (fo_vls f (ai_fwd f Hf)) as (Hm & Hseen & _ & _).
    destruct (keeps_setting (SetMaxSeenTemporal temporal) f Hf) as [Hf1 Hp1]; [done| |done|done|by apply keeps_Ok].
    bool_prop. unfold layer_ok, GetMaxSeen in *. cbn. lia.
  - destruct (alloc_inv_resync f Hf) as [H1 H2]. by apply keeps_Ok.
  - by apply Restart_keeps.
Qed.

(** From any state that satisfies the invariant, in particular from a new
    forwarder, every sequence of allocations, mutes and changes of the maximum
    layers keeps the invariant: no operation panics, targets and current
    layers stay in range, a stream without a target has no current layer, and
    the bandwidth on record is an amount. *)
Theorem runOps_ok ops f : alloc_inv f -> ops_ok (isPrepared f) ops ->
  exists f', runOps ops f = Ok f' /\ alloc_inv f'.
Proof.
  revert f. induction ops as [|op ops IH]; intros f Hf Hops; [by exists f|]. destruct Hops as [Hop Hops].
  destruct (runOp_keeps op f Hf Hop) as (f1 & E & Hf1 & Hp1). cbn [runOps]. rewrite E. cbn [res_bind]. apply IH; [done|].
  eapply ops_ok_mono; [|exact Hops]. destruct op; try exact Hp1. cbn [runOp] in E. apply Ok_inj in E. by subst f1.
Qed.

Lemma NewForwarder_inv k skip noOpp stats : alloc_inv (NewForwarder k skip noOpp stats).
Proof.
  split; [split; [|done|by destruct k]|unfold usage_ok, max_rate; cbn; lia].
  destruct k; (split_and!; [..|apply layer_ok_invalid]); vm_compute; intuition discriminate.
Qed.

(** ** What each allocation promises *)

(** On a clear channel, an allocation is never deficient.  A muted stream,
    or one with nothing published or nothing asked for, gets no target, for
    the reason stated; any other gets a valid target: it stays on its layer
    while that is the layer to ask for or no layer is available, else moves to
    the highest available layer within the limits (to the lowest one when
    increases are held), and an inactive stream latches on to anything within
    the limits.  The bandwidth requested is that of the highest layer with a
    measured rate under the target. *)
Theorem optimal_allocation_spec al brs allowOvershoot hold f : alloc_inv f -> measurement_ok al brs ->
  kind f <> RTPCodecTypeAudio ->
  exists f' a, AllocateOptimal al brs allowOvershoot hold f = Ok (f', stored a f) /\
    optimalAllocation al brs allowOvershoot hold f a /\ alloc_inv f' /\ same_settings f f' /\
    lastAllocation f' = stored a f /\ GetTarget (vls f') = va_TargetLayer (stored a f) /\
    GetCurrent (vls f') = (if IsValid (va_TargetLayer a) then GetCurrent (vls f) else InvalidLayer).
Proof.
  intros [Hf Hu] Hmeas Hk. destruct (AllocateOptimal_ok al brs allowOvershoot hold f Hf Hmeas Hk) as (a & -> & Ha).
  rewrite updateAllocation_eq. destruct (updateAllocation_ok a f) as (_ & E1 & E2 & E3 & _ & Hs).
  do 2 eexists. split; [done|]. pose proof Ha as (_ & _ & Hl & Hb & _). split; [exact Ha|].
  split; [by apply alloc_inv_update|done].
Qed.

(** A cooperative transition gives everything back when the stream is
    muted.  Otherwise a target that has a rate is never raised: it is kept
    when nothing higher is missing and lowered to the highest layer with a
    rate under the maximum when it is above that; a stream whose own layer is
    dry falls back to the layer it is receiving; a stream that is not active
    takes the lowest layer with a rate.  The bandwidth delta is what the new
    layer needs less what the stream uses. *)
Theorem cooperative_transition_spec allowOvershoot p f : alloc_inv f -> provisional f = Some p ->
  exists l, ProvisionalAllocateGetCooperativeTransition allowOvershoot f =
      Ok (allocate l p f, mkTransition (GetTarget (vls f)) l (rateTo (vp_bitrates p) l - usage (vp_bitrates p) f)) /\
    alloc_inv (allocate l p f) /\
    (if vp_muted p || vp_pubMuted p then l = InvalidLayer else cooperative allowOvershoot p f l) /\
    (vp_muted p || vp_pubMuted p = false -> IsValid (GetTarget (vls f)) = true ->
       rate0 (vp_bitrates p) (GetTarget (vls f)) <> 0 ->
       GreaterThan l (GetTarget (vls f)) = false \/ l = vp_currentLayer p).
Proof.
  intros Hi Hp. pose proof (ai_fwd f Hi) as Hf. pose proof (fo_provisional f Hf p Hp) as [[Hw _] _ Hm _ _].
  destruct (cooperative_ok allowOvershoot p f Hf Hp) as (l & E & Hl & Hco). exists l.
  destruct (rateTo_ok _ _ Hw Hl) as [_ Hr]. pose proof (usage_range _ f Hf Hw (ai_usage f Hi)) as Hur.
  rewrite i64_small in E by (unfold max_rate, max_capacity in *; lia).
  split; [exact E|]. split; [by apply alloc_inv_allocate|]. split; [exact Hco|].
  intros Hmute Hv Hr0. rewrite Hmute in Hco. unfold cooperative in Hco. rewrite Hv in Hco.
  destruct Hco as ([[ml b]|] & Ho & Hcase); [|by right].
  destruct (GreaterThan (GetTarget (vls f)) ml) eqn:Hgt.
  - subst l. left. destruct (GreaterThan ml (GetTarget (vls f))) eqn:E2; [|done].
    pose proof (GreaterThan_trans _ _ _ Hgt E2) as E3. by rewrite GreaterThan_irrefl in E3.
  - rewrite (proj2 (Z.eqb_neq _ _) Hr0) in Hcase. subst l. left. apply GreaterThan_irrefl.
Qed.

(** The best weighted transition of an unmuted stream with a feed under its
    maximum goes strictly down from the target, saves exactly the difference
    of the rates, and no other step down has a better ratio of bandwidth saved
    to cost, computed in the code's floating point; a muted or dry stream
    offers all it uses. *)
Theorem best_weighted_spec p f : alloc_inv f -> provisional f = Some p ->
  exists l d, ProvisionalAllocateGetBestWeightedTransition f =
      Ok (allocate l p f, mkTransition (GetTarget (vls f)) l (- d)) /\
    alloc_inv (allocate l p f) /\ 0 <= d < max_rate /\ bestOffer p f l d /\
    (vp_muted p || vp_pubMuted p = false -> (exists l', under (vp_maxLayer p) l' /\ rate0 (vp_bitrates p) l' <> 0) ->
       0 < d -> GreaterThan (GetTarget (vls f)) l = true /\ d = usage (vp_bitrates p) f - rate0 (vp_bitrates p) l).
Proof.
  intros Hi Hp. destruct (bestWeighted_ok p f (ai_fwd f Hi) (ai_usage f Hi) Hp) as (l & d & E & Hl & Hd & Hoffer).
  exists l, d. split; [exact E|]. split; [by apply alloc_inv_allocate|]. split; [exact Hd|]. split; [exact Hoffer|].
  intros Hmute (l' & Hu & Hr) Hpos. unfold bestOffer in Hoffer. rewrite Hmute in Hoffer.
  destruct Hoffer as [(Hdry & _)|(t & best & _ & -> & -> & Hbest & _)]; [by destruct (Hr (Hdry l' Hu))|].
  destruct Hbest as [->|(l1 & Hin & ->)]; [done|]. cbn in *. split; [by apply lowerLayers_greater|lia].
Qed.

(** A step up never lowers the layer of a deficient stream: it goes to a
    layer strictly above the target, the first one with a rate in the order
    of temporal then spatial layers, only if its extra bandwidth fits the
    capacity (unless overshooting), and ends the deficiency exactly when it
    is above the maximum or has the optimal rate.  When it does not step, the
    state is untouched. *)
Theorem next_higher_spec capacity al brs allowOvershoot f : alloc_inv f -> measurement_ok al brs ->
  mayExceedMax allowOvershoot f = false \/ Spatial (GetTarget (vls f)) <= Spatial (GetMax (vls f)) ->
  exists f' a boosted, AllocateNextHigher capacity al brs allowOvershoot f = Ok (f', (a, boosted)) /\ alloc_inv f' /\
    (boosted = false -> f' = f /\ a = lastAllocation f) /\
    (boosted = true -> isDeficientLocked f = true /\ a = lastAllocation f' /\ same_settings f f' /\
       exists l, GreaterThan l (GetTarget (vls f)) = true /\ 0 < rate0 brs l /\
         va_BandwidthRequested a = rate0 brs l /\
         va_BandwidthDelta a = rate0 brs l - rateTo brs (GetTarget (vls f)) /\
         (mayExceedMax allowOvershoot f = false -> va_BandwidthDelta a <= capacity) /\
         (mime f <> MimeTypeH264 -> GetTarget (vls f') = l) /\
         va_IsDeficient a = negb (GreaterThan l (GetMax (vls f)) || (rate0 brs l >=? va_BandwidthNeeded a))).
Proof.
  intros Hi Hmeas Hov. pose proof (ai_fwd f Hi) as Hf.
  destruct (AllocateNextHigher_ok capacity al brs allowOvershoot f Hf Hmeas) as (f' & a & boosted & E & Hno & Hyes).
  exists f', a, boosted. split; [exact E|]. destruct (nextHigher_keeps capacity al brs allowOvershoot f Hi Hmeas) as (f1 & E1 & Hi1 & _).
  rewrite E in E1. cbn [res_bind fst] in E1. apply Ok_inj in E1. subst f1. split; [exact Hi1|]. split; [exact Hno|].
  intros Hb. destruct (Hyes Hb) as (_ & Hd & l & optimal & dist & _ & Hpos & Hin & Hl & Hfit & Hup). split; [exact Hd|].
  pose proof (higherRanges_greater allowOvershoot f Hf Hov) as Hgt. rewrite Forall_forall in Hgt.
  apply list_elem_of_join in Hl as (ls & Hl & Hls). specialize (Hgt ls Hls). rewrite Forall_forall in Hgt.
  match type of Hup with _ = updateAllocation ?x f => set (alloc := x) in Hup end.
  destruct (updateAllocation_ok alloc f) as (Ea & E1 & E2 & _ & _ & Hs). rewrite <- Hup in Ea, E1, E2, Hs.
  cbn [fst snd] in Ea, E1, E2, Hs. subst a.
  split; [by rewrite E1|]. split; [exact Hs|].
  exists l. split; [by apply Hgt|]. split; [exact Hpos|].
  assert (va_BandwidthRequested (stored alloc f) = rate0 brs l /\
          va_BandwidthDelta (stored alloc f) = rate0 brs l - rateTo brs (GetTarget (vls f)) /\
          va_BandwidthNeeded (stored alloc f) = optimal /\
          va_IsDeficient (stored alloc f) = negb (GreaterThan l (GetMax (vls f)) || (rate0 brs l >=? optimal))) as (-> & -> & -> & ->).
  { unfold stored. by case_if. }
  split_and!; try done. intros Hm. rewrite E2. by rewrite stored_other.
Qed.
End spec.

(** ** Examples *)

(** Rates of three spatial layers with two temporal layers each. *)
Definition ex_brs : Bitrates := [[100; 150; 0; 0]; [300; 400; 0; 0]; [900; 1200; 0; 0]].

(** A VP8 stream: everything published, everything asked for. *)
Definition ex_fwd : Forwarder alist :=
  DetermineCodec MimeTypeVP8 90000 false VideoLayer_ONE_SPATIAL_LAYER_PER_STREAM
    (fst (SetMaxPublishedLayer 2 (fst (SetMaxTemporalLayerSeen 1
      (onVls (SetMaxSpatial 2) (NewForwarder RTPCodecTypeVideo false false None)))))).

Definition ex_with (target current : VideoLayer) (requested : Z) (deficient : bool) : Forwarder alist :=
  onVls (SetTarget target) (onVls (SetCurrent current) ex_fwd)
    <| lastAllocation := VideoAllocationDefault <| va_TargetLayer := target |> <| va_IsDeficient := deficient |>
                           <| va_BandwidthRequested := requested |> |>.

Ltac ex_inv :=
  split; [split; [split_and!; vm_compute; intuition discriminate|done|vm_compute; intuition discriminate]
         |unfold usage_ok, max_rate; vm_compute; intuition discriminate].

Lemma ex_measured : measurement_ok [0; 1; 2] ex_brs.
Proof. apply (bool_decide_unpack _). vm_compute. exact I. Qed.

Lemma ex_target_inv : alloc_inv (ex_with (mkLayer 1 1) (mkLayer 1 1) 400 true).
Proof. ex_inv. Qed.

Lemma ex_prepared_inv : alloc_inv (ProvisionalAllocatePrepare [0; 1; 2] ex_brs (ex_with (mkLayer 1 1) (mkLayer 1 1) 400 true)).
Proof. apply ProvisionalAllocatePrepare_inv; [apply ex_target_inv|apply ex_measured]. Qed.

Lemma runOps_ok_witness :
  let ops := [OpOptimal [0; 1; 2] ex_brs true false; OpPrepare [0; 1; 2] ex_brs; OpProvisional 500 (mkLayer 1 0) true false;
              OpCommit; OpMute true true; OpOptimal [0; 1; 2] ex_brs true false; OpRestart] in
  exists f', runOps ops ex_fwd = Ok f' /\ alloc_inv f'.
Proof.
  intros ops. apply (runOps_ok ops ex_fwd); [ex_inv|].
  pose proof ex_measured. repeat split; try done; try apply ex_measured; unfold max_capacity, DefaultMaxLayerTemporal; cbn; try lia.
Defined.

Lemma optimal_allocation_spec_witness :
  exists f' a, AllocateOptimal [0; 1; 2] ex_brs true false ex_fwd = Ok (f', stored a ex_fwd) /\ alloc_inv f' /\
    GetTarget (vls f') = va_TargetLayer (stored a ex_fwd).
Proof.
  destruct (optimal_allocation_spec [0; 1; 2] ex_brs true false ex_fwd) as (f' & a & H1 & _ & H2 & _ & _ & H3 & _);
    [ex_inv|apply ex_measured|done|]. exists f', a. done.
Defined.

Lemma cooperative_transition_spec_witness :
  let f := ProvisionalAllocatePrepare [0; 1; 2] ex_brs (ex_with (mkLayer 1 1) (mkLayer 1 1) 400 true) in
  exists l f', ProvisionalAllocateGetCooperativeTransition false f =
    Ok (f', mkTransition (mkLayer 1 1) l (rateTo ex_brs l - usage ex_brs f)) /\
    (GreaterThan l (mkLayer 1 1) = false \/ l = mkLayer 1 1).
Proof.
  intros f. destruct (cooperative_transition_spec false (mkProvisional false false (mkLayer 2 1) [0; 1; 2] ex_brs (mkLayer 2 3)
    (mkLayer 1 1) InvalidLayer) f ex_prepared_inv eq_refl) as (l & E & _ & _ & H).
  exists l. eexists. split; [exact E|]. apply H; vm_compute; congruence.
Defined.

Lemma best_weighted_spec_witness :
  let f := ProvisionalAllocatePrepare [0; 1; 2] ex_brs (ex_with (mkLayer 1 1) (mkLayer 1 1) 400 true) in
  exists l d f', ProvisionalAllocateGetBestWeightedTransition f = Ok (f', mkTransition (mkLayer 1 1) l (- d)) /\ 0 <= d.
Proof.
  intros f. destruct (best_weighted_spec (mkProvisional false false (mkLayer 2 1) [0; 1; 2] ex_brs (mkLayer 2 3)
    (mkLayer 1 1) InvalidLayer) f ex_prepared_inv eq_refl) as (l & d & E & _ & [H _] & _).
  exists l, d. eexists. split; [exact E|exact H].
Defined.

Lemma next_higher_spec_witness :
  exists f' a boosted, AllocateNextHigher 600 [0; 1; 2] ex_brs false (ex_with (mkLayer 1 1) (mkLayer 1 1) 400 true)
    = Ok (f', (a, boosted)) /\ alloc_inv f'.
Proof.
  destruct (next_higher_spec 600 [0; 1; 2] ex_brs false (ex_with (mkLayer 1 1) (mkLayer 1 1) 400 true))
    as (f' & a & boosted & E & H & _); [apply ex_target_inv|apply ex_measured|by left|]. by exists f', a, boosted.
Defined.

(** The search for a transition does not skip layers without a rate: with the
    lowest spatial layer stopped, the best offer moves the stream to it.  The
    commit then asks for no bandwidth and states no reason for a pause. *)
Lemma best_weighted_takes_dry_layer :
  let brs := [[0; 0; 0; 0]; [300; 0; 0; 0]; [0; 0; 0; 0]] in
  let f := ProvisionalAllocatePrepare [1] brs (ex_with (mkLayer 1 0) (mkLayer 1 0) 300 false) in
  match ProvisionalAllocateGetBestWeightedTransition f with
  | Ok (f1, t) =>
    vt_To t = mkLayer 0 0 /\ rate0 brs (vt_To t) = 0 /\ vt_BandwidthDelta t = -300 /\
    match ProvisionalAllocateCommit f1 with
    | Ok (_, a) => va_TargetLayer a = mkLayer 0 0 /\ va_BandwidthRequested a = 0 /\
                   va_PauseReason a = VideoPauseReasonNone /\ va_IsDeficient a = true
    | Err _ => False
    end
  | Err _ => False
  end.
Proof. vm_compute. repeat split. Qed.

(** A step up may lower the bandwidth, where the transition announced for the
    same state does not: the two searches skip different layers. *)
Lemma next_higher_ignores_cheaper_layer :
  let brs := [[100; 400; 0; 0]; [300; 500; 0; 0]; [900; 0; 0; 0]] in
  let f := ex_with (mkLayer 0 1) (mkLayer 0 1) 400 true in
  match AllocateNextHigher 1000 [0; 1; 2] brs false f, GetNextHigherTransition brs false f with
  | Ok (_, (a, boosted)), Ok (t, available) =>
    boosted = true /\ va_TargetLayer a = mkLayer 1 0 /\ va_BandwidthDelta a = -100 /\
    available = true /\ vt_To t = mkLayer 1 1 /\ vt_BandwidthDelta t = 100
  | _, _ => False
  end.
Proof. vm_compute. repeat split. Qed.

(** The offer of a stream that is dry under its maximum counts the bandwidth of
    the layer above it that is still sent, and the commit keeps that layer. *)
Lemma dry_offer_not_given_back :
  let brs := [[0; 0; 0; 0]; [0; 0; 0; 0]; [900; 0; 0; 0]] in
  let f := ProvisionalAllocatePrepare [2] brs
             (onVls (SetMaxSpatial 0) (ex_with (mkLayer 2 0) (mkLayer 2 0) 900 false)) in
  match ProvisionalAllocateGetBestWeightedTransition f with
  | Ok (f1, t) =>
    vt_BandwidthDelta t = -900 /\
    match ProvisionalAllocateCommit f1 with
    | Ok (_, a) => va_TargetLayer a = mkLayer 2 0 /\ va_BandwidthRequested a = 900 /\ va_BandwidthDelta a = 0
    | Err _ => False
    end
  | Err _ => False
  end.
Proof. vm_compute. repeat split. Qed.
