(* ===== verification/StreamAllocator.v ===== *)
(** * The stream allocator

    Models [src/SERVER/pkg/sfu/streamallocator/]: [streamallocator.go],
    [track.go] and [streamstateupdate.go].  It shares the capacity of a
    subscriber's channel among the video tracks sent to it, through the
    allocation operations of their forwarders.

    Every handler runs on the allocator's event queue; the model has one
    function per handler, in a monad that threads the state and stops at a
    panic.  A track is named by its key in the map of tracks; what its
    receiver measures ([GetLayeredBitrate]) is part of the track and does not
    change within a handler.  The bandwidth estimator, the pacer and the
    prober are interfaces: commands to them are recorded in [outputs], what
    they answer is an argument of the handler. *)

From S2P Require Import Prelude DdTypes.
From S2P Require Import Packet OrderedMap LayerSelectors Bitrates Forwarder Allocation.

(** ** Constants *)

Definition cChannelCapacityInfinity : Z := 100 * 1000 * 1000.
Definition cPriorityMin : Z := 1.
Definition cPriorityMax : Z := 255.
Definition cPriorityDefaultScreenshare : Z := cPriorityMax.
Definition cPriorityDefaultVideo : Z := cPriorityMin.

Definition cFlagAllowOvershootWhileOptimal : bool := true.
Definition cFlagAllowOvershootWhileDeficient : bool := false.
Definition cFlagAllowOvershootExemptTrackWhileDeficient : bool := true.
Definition cFlagAllowOvershootInProbe : bool := true.
Definition cFlagAllowOvershootInCatchup : bool := false.
Definition cFlagAllowOvershootInBoost : bool := true.

Inductive streamAllocatorState := streamAllocatorStateStable | streamAllocatorStateDeficient.

#[export] Instance streamAllocatorState_eq_dec : EqDecision streamAllocatorState.
Proof. solve_decision. Defined.

(** [bwe.CongestionState] *)
Inductive CongestionState := CongestionStateNone | CongestionStateEarlyWarning | CongestionStateCongested.

#[export] Instance CongestionState_eq_dec : EqDecision CongestionState.
Proof. solve_decision. Defined.

Definition isHoldableCongestionState (c : CongestionState) : bool := bool_decide (c = CongestionStateEarlyWarning).
Definition isDeficientCongestionState (c : CongestionState) : bool := bool_decide (c = CongestionStateCongested).

Inductive ProbeMode := ProbeModePadding | ProbeModeMedia | ProbeModeOther.

Record StreamAllocatorConfig := mkConfig {
  MinChannelCapacity : Z;
  DisableEstimationUnmanagedTracks : bool;
  cfg_ProbeMode : ProbeMode;
  ProbeOveragePct : Z;
  ProbeMinBps : Z;
  PausedMinWait : Z;
}.

Definition DefaultStreamAllocatorConfig : StreamAllocatorConfig :=
  mkConfig 0 false ProbeModePadding 120 200000 5000000000.

(** ** Stream states *)

Inductive StreamState := StreamStateInactive | StreamStateActive | StreamStatePaused.

#[export] Instance StreamState_eq_dec : EqDecision StreamState.
Proof. solve_decision. Defined.

Record StreamStateInfo := mkStreamStateInfo {
  ssi_ParticipantID : Z;
  ssi_TrackID : Z;
  ssi_State : StreamState;
}.

Definition StreamStateUpdate := list StreamStateInfo.

(** ** Tracks *)

Inductive TrackSource := TrackSource_SCREEN_SHARE | TrackSource_OTHER.

#[export] Instance TrackSource_eq_dec : EqDecision TrackSource.
Proof. solve_decision. Defined.

Section StreamAllocator.
Context {om : Type -> Type} `{OrderedMap om}.

(** [downTrack] is replaced by the parts used here: the forwarder, what its
    receiver measures, and its NACK counters. *)
Record Track := mkTrack {
  tk_forwarder : Forwarder om;
  tk_availableLayers : list Z;
  tk_bitrates : Bitrates;
  tk_nackStats : Z * Z;
  tk_source : TrackSource;
  tk_isMultiLayered : bool;
  tk_priority : Z;
  tk_publisherID : Z;
  tk_maxLayer : VideoLayer;
  tk_totalPackets : Z;
  tk_totalRepeatedNacks : Z;
  tk_isDirty : bool;
  tk_streamState : StreamState;
}.
#[local] Instance eta_Track : Eta Track := fun t =>
  mkTrack (tk_forwarder t) (tk_availableLayers t) (tk_bitrates t) (tk_nackStats t) (tk_source t) (tk_isMultiLayered t)
    (tk_priority t) (tk_publisherID t) (tk_maxLayer t) (tk_totalPackets t) (tk_totalRepeatedNacks t) (tk_isDirty t)
    (tk_streamState t).

Definition SetPriority (priority : Z) (t : Track) : Track * bool :=
  let priority :=
    if priority =? 0 then
      match tk_source t with
      | TrackSource_SCREEN_SHARE => cPriorityDefaultScreenshare
      | TrackSource_OTHER => cPriorityDefaultVideo
      end
    else priority in
  if tk_priority t =? priority then (t, false) else (t <| tk_priority := priority |>, true).

Definition SetMaxLayerTrack (layer : VideoLayer) (t : Track) : Track * bool :=
  if bool_decide (tk_maxLayer t = layer) then (t, false) else (t <| tk_maxLayer := layer |>, true).

Definition NewTrack (f : Forwarder om) (al : list Z) (brs : Bitrates) (nacks : Z * Z) (source : TrackSource)
  (isMultiLayered : bool) (publisherID : Z) : Track :=
  let t := mkTrack f al brs nacks source isMultiLayered 0 publisherID (mkLayer 0 0) 0 0 false StreamStateInactive in
  fst (SetMaxLayerTrack (GetMax (vls f)) (fst (SetPriority 0 t))).

Definition SetDirty (isDirty : bool) (t : Track) : Track * bool :=
  if Bool.eqb (tk_isDirty t) isDirty then (t, false) else (t <| tk_isDirty := isDirty |>, true).

Definition SetStreamState (st : StreamState) (t : Track) : Track * bool :=
  if bool_decide (tk_streamState t = st) then (t, false) else (t <| tk_streamState := st |>, true).

Definition IsSubscribeMutable (t : Track) : bool := negb (bool_decide (tk_streamState t = StreamStatePaused)).

Definition IsManaged (t : Track) : bool :=
  negb (bool_decide (tk_source t = TrackSource_SCREEN_SHARE)) || tk_isMultiLayered t.

Definition GetNackDelta (t : Track) : Track * (Z * Z) :=
  let '(totalPackets, totalRepeatedNacks) := tk_nackStats t in
  (t <| tk_totalPackets := totalPackets |> <| tk_totalRepeatedNacks := totalRepeatedNacks |>,
   (u32 (totalPackets - tk_totalPackets t), u32 (totalRepeatedNacks - tk_totalRepeatedNacks t))).

Definition IsDeficientTrack (t : Track) : bool := IsDeficient (tk_forwarder t).

Definition BandwidthRequestedTrack (t : Track) : res fwd_panic Z := BandwidthRequested (tk_bitrates t) (tk_forwarder t).

Definition DistanceToDesiredTrack (t : Track) : res fwd_panic spec_float :=
  DistanceToDesired (tk_availableLayers t) (tk_bitrates t) (tk_forwarder t).

(** ** State *)

(** What the allocator tells the others. *)
Inductive output :=
| OutStreamStates (update : StreamStateUpdate)
| OutEndProbeCluster (id : Z)
| OutBWEReset
| OutPing (generation : Z) (long : bool)
| OutAddProbeCluster (availableBandwidthBps expectedUsageBps desiredBps : Z)
| OutREMB (estimate expectedUsage packetDelta repeatedNackDelta : Z).

Record StreamAllocator := mkStreamAllocator {
  config : StreamAllocatorConfig;
  enabled : bool;
  allowPause : bool;
  committedChannelCapacity : Z;
  overriddenChannelCapacity : Z;
  videoTracks : gmap Z Track;
  isAllocateAllPending : bool;
  state : streamAllocatorState;
  activeProbeClusterId : Z;
  activeProbeGoalReached : bool;
  activeProbeCongesting : bool;
  pingGeneration : Z;
  outputs : list output;
}.
#[local] Instance eta_StreamAllocator : Eta StreamAllocator := fun s =>
  mkStreamAllocator (config s) (enabled s) (allowPause s) (committedChannelCapacity s) (overriddenChannelCapacity s)
    (videoTracks s) (isAllocateAllPending s) (state s) (activeProbeClusterId s) (activeProbeGoalReached s)
    (activeProbeCongesting s) (pingGeneration s) (outputs s).

Definition ProbeClusterIdInvalid : Z := 0.

Definition NewStreamAllocator (c : StreamAllocatorConfig) (enabled allowPause : bool) : StreamAllocator :=
  mkStreamAllocator c enabled allowPause 0 0 ∅ false streamAllocatorStateStable ProbeClusterIdInvalid false false 0 [].

(** An event handler may panic as the forwarder does; [outOfFuel] is the bound
    of the boost loop, which is never reached. *)
Inductive sa_error := panic (e : fwd_panic) | outOfFuel.

Definition Handler (A : Type) : Type := M StreamAllocator sa_error A.

Definition lift {A} (r : res fwd_panic A) : Handler A :=
  match r with Ok a => mret a | Err e => mfail (panic e) end.

Definition emit (o : output) : Handler unit := mmodify (fun s => s <| outputs := outputs s ++ [o] |>).

Definition getTrack (id : Z) : Handler Track :=
  let* s := mget in
  match videoTracks s !! id with Some t => mret t | None => mfail (panic nilPointer) end.

Definition setTrack (id : Z) (t : Track) : Handler unit :=
  mmodify (fun s => s <| videoTracks := <[id := t]> (videoTracks s) |>).

(** A method of [Track] that updates it. *)
Definition onTrack {A} (g : Track -> Track * A) (id : Z) : Handler A :=
  let* t := getTrack id in
  let '(t, a) := g t in
  setTrack id t ;;* mret a.

(** A method of [Track] that calls its down track's forwarder. *)
Definition onForwarder {A} (g : Track -> Forwarder om -> res fwd_panic (Forwarder om * A)) (id : Z) : Handler A :=
  let* t := getTrack id in
  let* x := lift (g t (tk_forwarder t)) in
  setTrack id (t <| tk_forwarder := fst x |>) ;;* mret (snd x).

Definition TrackAllocateOptimal (allowOvershoot hold : bool) : Z -> Handler VideoAllocation :=
  onForwarder (fun t => AllocateOptimal (tk_availableLayers t) (tk_bitrates t) allowOvershoot hold).

Definition TrackProvisionalAllocatePrepare : Z -> Handler unit :=
  onForwarder (fun t f => Ok (ProvisionalAllocatePrepare (tk_availableLayers t) (tk_bitrates t) f, tt)).

Definition TrackProvisionalAllocateReset : Z -> Handler unit :=
  onForwarder (fun _ f => let! f := ProvisionalAllocateReset f in Ok (f, tt)).

Definition TrackProvisionalAllocate (capacity : Z) (layer : VideoLayer) (pause overshoot : bool) : Z -> Handler (bool * Z) :=
  onForwarder (fun _ => ProvisionalAllocate capacity layer pause overshoot).

Definition TrackCooperativeTransition (allowOvershoot : bool) : Z -> Handler VideoTransition :=
  onForwarder (fun _ => ProvisionalAllocateGetCooperativeTransition allowOvershoot).

Definition TrackBestWeightedTransition : Z -> Handler VideoTransition :=
  onForwarder (fun _ => ProvisionalAllocateGetBestWeightedTransition).

Definition TrackProvisionalAllocateCommit : Z -> Handler VideoAllocation :=
  onForwarder (fun _ => ProvisionalAllocateCommit).

Definition TrackAllocateNextHigher (capacity : Z) (allowOvershoot : bool) : Z -> Handler (VideoAllocation * bool) :=
  onForwarder (fun t => AllocateNextHigher capacity (tk_availableLayers t) (tk_bitrates t) allowOvershoot).

Definition TrackPause : Z -> Handler VideoAllocation :=
  onForwarder (fun t => Pause (tk_availableLayers t) (tk_bitrates t)).

Definition TrackGetNextHigherTransition (allowOvershoot : bool) (id : Z) : Handler (VideoTransition * bool) :=
  let* t := getTrack id in lift (GetNextHigherTransition (tk_bitrates t) allowOvershoot (tk_forwarder t)).

(** ** Iteration and sorting

    Go leaves the order in which a map is ranged over open, and [sort.Sort]
    the order of elements that compare equal: both are parameters. *)

Class GoOrder := {
  range_keys {A : Type} : gmap Z A -> list Z;
  sort_Sort {A : Type} : (A -> A -> bool) -> list A -> list A;
}.

Context `{GoOrder}.

Definition getTracks : Handler (list Z) := let* s := mget in mret (range_keys (videoTracks s)).

(** The tracks, paired with their keys, that satisfy [p]. *)
Definition selectTracks (p : Z -> Track -> bool) (s : StreamAllocator) : list (Z * Track) :=
  omap (fun id => match videoTracks s !! id with Some t => if p id t then Some (id, t) else None | None => None end)
    (range_keys (videoTracks s)).

(** [TrackSorter.Less] *)
Definition TrackSorter_Less (a b : Z * Track) : bool :=
  let '(a, b) := (snd a, snd b) in
  if negb (tk_priority a =? tk_priority b) then tk_priority a >? tk_priority b
  else if negb (Spatial (tk_maxLayer a) =? Spatial (tk_maxLayer b)) then Spatial (tk_maxLayer a) >? Spatial (tk_maxLayer b)
  else Temporal (tk_maxLayer a) >? Temporal (tk_maxLayer b).

Definition getSorted : Handler (list Z) :=
  let* s := mget in
  mret (map fst (sort_Sort TrackSorter_Less (selectTracks (fun _ t => IsManaged t) s))).

(** The distance sorters compare priorities and distances; a distance is
    computed once per track here, on each comparison in the code. *)
Definition withDistance (x : Z * Track) : res fwd_panic (Z * (Z * spec_float)) :=
  let! d := DistanceToDesiredTrack (snd x) in Ok (fst x, (tk_priority (snd x), d)).

Fixpoint withDistances (l : list (Z * Track)) : res fwd_panic (list (Z * (Z * spec_float))) :=
  match l with
  | [] => Ok []
  | x :: l => let! y := withDistance x in let! l := withDistances l in Ok (y :: l)
  end.

Definition MinDistanceSorter_Less (a b : Z * (Z * spec_float)) : bool :=
  let '(pa, da) := snd a in
  let '(pb, db) := snd b in
  if negb (pa =? pb) then pa <? pb else SFltb da db.

Definition MaxDistanceSorter_Less (a b : Z * (Z * spec_float)) : bool :=
  let '(pa, da) := snd a in
  let '(pb, db) := snd b in
  if negb (pa =? pb) then pa >? pb else SFltb db da.

Definition getMinDistanceSorted (exclude : Z) : Handler (list Z) :=
  let* s := mget in
  let* l := lift (withDistances (selectTracks (fun id t => IsManaged t && negb (id =? exclude)) s)) in
  mret (map fst (sort_Sort MinDistanceSorter_Less l)).

Definition getMaxDistanceSortedDeficient : Handler (list Z) :=
  let* s := mget in
  let* l := lift (withDistances (selectTracks (fun _ t => IsManaged t && IsDeficientTrack t) s)) in
  mret (map fst (sort_Sort MaxDistanceSorter_Less l)).

(** ** Bandwidth *)

Definition getAvailableChannelCapacity (allowOverride : bool) (s : StreamAllocator) : Z :=
  let available := committedChannelCapacity s in
  let available := if MinChannelCapacity (config s) >? available then MinChannelCapacity (config s) else available in
  if allowOverride && (overriddenChannelCapacity s >? 0) then overriddenChannelCapacity s else available.

(** [expected += track.BandwidthRequested()] over the tracks of [ids]. *)
Definition sumBandwidth (ids : list Z) : Handler Z :=
  mfoldl (fun expected id =>
    let* t := getTrack id in let* b := lift (BandwidthRequestedTrack t) in mret (i64 (expected + b))) 0 ids.

Definition getExpectedBandwidthUsage : Handler Z := let* ids := getTracks in sumBandwidth ids.

Definition getExpectedBandwidthUsageWithoutTracks (filteredTracks : list Z) : Handler Z :=
  let* ids := getTracks in sumBandwidth (filter (fun id => id ∉ filteredTracks) ids).

Definition getAvailableHeadroom (allowOverride : bool) : Handler Z :=
  let* s := mget in
  let* u := getExpectedBandwidthUsage in mret (i64 (getAvailableChannelCapacity allowOverride s - u)).

Definition getAvailableHeadroomWithoutTracks (allowOverride : bool) (filteredTracks : list Z) : Handler Z :=
  let* s := mget in
  let* u := getExpectedBandwidthUsageWithoutTracks filteredTracks in
  mret (i64 (getAvailableChannelCapacity allowOverride s - u)).

Definition getNackDelta : Handler (Z * Z) :=
  let* ids := getTracks in
  mfoldl (fun '(aggPacketDelta, aggRepeatedNackDelta) id =>
    let* d := onTrack GetNackDelta id in
    mret (u32 (aggPacketDelta + fst d), u32 (aggRepeatedNackDelta + snd d))) (0, 0) ids.

(** ** Stream state updates *)

Definition HandleStreamingChange (id : Z) (t : Track) (st : StreamState) (update : StreamStateUpdate) : StreamStateUpdate :=
  match st with
  | StreamStateInactive => update
  | StreamStateActive | StreamStatePaused => update ++ [mkStreamStateInfo (tk_publisherID t) id st]
  end.

Definition changeStreamState (id : Z) (st : StreamState) (update : StreamStateUpdate) : Handler StreamStateUpdate :=
  let* updated := onTrack (SetStreamState st) id in
  let* t := getTrack id in
  mret (if updated then HandleStreamingChange id t st update else update).

Definition updateStreamStateChange (id : Z) (a : VideoAllocation) (update : StreamStateUpdate) : Handler StreamStateUpdate :=
  match va_PauseReason a with
  | VideoPauseReasonMuted | VideoPauseReasonPubMuted => changeStreamState id StreamStateInactive update
  | VideoPauseReasonBandwidth => changeStreamState id StreamStatePaused update
  | _ => mret update
  end.

Definition maybeSendUpdate (update : StreamStateUpdate) : Handler unit :=
  match update with [] => mret tt | _ => emit (OutStreamStates update) end.

(** An allocation whose result goes into the update. *)
Definition allocated (alloc : Z -> Handler VideoAllocation) (id : Z) (update : StreamStateUpdate) : Handler StreamStateUpdate :=
  let* a := alloc id in updateStreamStateChange id a update.

(** ** State of the allocator *)

Definition maybeStopProbe : Handler unit :=
  let* s := mget in
  if activeProbeClusterId s =? ProbeClusterIdInvalid then mret tt
  else emit (OutEndProbeCluster (activeProbeClusterId s)).

Definition ping (long : bool) : Handler unit :=
  let* s := mget in
  let g := u32 (pingGeneration s + 1) in
  mmodify (fun s => s <| pingGeneration := g |>) ;;* emit (OutPing g long).

Definition setState (st : streamAllocatorState) : Handler unit :=
  let* s := mget in
  if bool_decide (state s = st) then mret tt
  else
    mmodify (fun s => s <| state := st |>) ;;*
    match st with
    | streamAllocatorStateStable =>
      maybeStopProbe ;;* emit OutBWEReset ;;*
      mmodify (fun s => s <| activeProbeClusterId := ProbeClusterIdInvalid |>) ;;* ping true
    | streamAllocatorStateDeficient => ping false
    end.

(** [for ... { if track.IsDeficient() { ...; return } }] *)
Definition anyDeficient (ids : list Z) (s : StreamAllocator) : bool :=
  existsb (fun id => match videoTracks s !! id with Some t => IsDeficientTrack t | None => false end) ids.

Definition adjustState : Handler unit :=
  let* s := mget in
  let* ids := getTracks in
  setState (if anyDeficient ids s then streamAllocatorStateDeficient else streamAllocatorStateStable).

(** ** Boosting deficient tracks *)

(** One pass over the sorted tracks: the first one boosted, if any. *)
Fixpoint boostFirst (capacity : Z) (ids : list Z) (update : StreamStateUpdate)
  : Handler (option Z * StreamStateUpdate) :=
  match ids with
  | [] => mret (None, update)
  | id :: ids =>
    let* x := TrackAllocateNextHigher capacity cFlagAllowOvershootInCatchup id in
    let '(a, boosted) := x in
    if boosted then let* update := updateStreamStateChange id a update in mret (Some (va_BandwidthDelta a), update)
    else boostFirst capacity ids update
  end.

(** The loop; a pass over no tracks sorts again and ends there. *)
Fixpoint boostLoop (fuel : nat) (capacity : Z) (sorted : list Z) (update : StreamStateUpdate) : Handler StreamStateUpdate :=
  match fuel with
  | O => mfail outOfFuel
  | Datatypes.S fuel =>
    let* x := boostFirst capacity sorted update in
    let '(boosted, update) := x in
    match boosted, sorted with
    | None, _ :: _ => mret update
    | _, _ =>
      let capacity := match boosted with Some delta => i64 (capacity - delta) | None => capacity end in
      if bool_decide (is_Some boosted) && (capacity <=? 0) then mret update
      else
        let* sorted := getMaxDistanceSortedDeficient in
        match sorted with
        | [] => mret update
        | _ => boostLoop fuel capacity sorted update
        end
    end
  end.

(** Each pass but the last raises the target of one track, which has at most
    twenty places. *)
Definition boostFuel (s : StreamAllocator) : nat := 2 + 20 * size (videoTracks s).

Definition maybeBoostDeficientTracks : Handler unit :=
  let* capacity := getAvailableHeadroom false in
  if capacity <=? 0 then mret tt
  else
    let* sorted := getMaxDistanceSortedDeficient in
    let* s := mget in
    let* update := boostLoop (boostFuel s) capacity sorted [] in
    maybeSendUpdate update ;;* adjustState.

(** ** Allocating one track *)

(** The layers of the loops over all layers. *)
Definition allLayers : list VideoLayer := cells (zrange 0 DefaultMaxLayerSpatial) (zrange 0 DefaultMaxLayerTemporal).

(** [alloc_loop]: the best layer that fits the headroom. *)
Fixpoint allocLoop (capacity : Z) (pause : bool) (id : Z) (best : VideoLayer) (ls : list VideoLayer) : Handler VideoLayer :=
  match ls with
  | [] => mret best
  | layer :: ls =>
    let* x := TrackProvisionalAllocate capacity layer pause cFlagAllowOvershootWhileDeficient id in
    let '(isCandidate, used) := x in
    if capacity <? used then mret best
    else allocLoop capacity pause id (if isCandidate then layer else best) ls
  end.

(** The loop that collects bandwidth from other tracks until [needed] is
    reached. *)
Fixpoint acquire (needed acquired : Z) (contributing : list Z) (ids : list Z) : Handler (Z * list Z) :=
  match ids with
  | [] => mret (acquired, contributing)
  | id :: ids =>
    let* tx := TrackBestWeightedTransition id in
    if vt_BandwidthDelta tx <? 0 then
      let acquired := i64 (acquired + i64 (- vt_BandwidthDelta tx)) in
      let contributing := contributing ++ [id] in
      if acquired >=? needed then mret (acquired, contributing)
      else acquire needed acquired contributing ids
    else acquire needed acquired contributing ids
  end.

(** Commit the tracks of [ids]. *)
Definition commitTracks (ids : list Z) (update : StreamStateUpdate) : Handler StreamStateUpdate :=
  mfoldl (fun update id => allocated TrackProvisionalAllocateCommit id update) update ids.

(** Bandwidth is taken from the other tracks, the closest to their desired
    layers first, and committed when there is enough of it. *)
Definition collect (id needed : Z) : Handler (bool * StreamStateUpdate) :=
  let* minDistanceSorted := getMinDistanceSorted id in
  mforeach TrackProvisionalAllocatePrepare minDistanceSorted ;;*
  let* x := acquire needed 0 [] minDistanceSorted in
  let '(acquired, contributing) := x in
  let* update := if acquired >=? needed then commitTracks contributing [] else mret [] in
  mret (acquired >=? needed, update).

(** The last part of [allocateTrack]. *)
Definition redistribute (id : Z) (transition : VideoTransition) : Handler unit :=
  let* x := collect id (vt_BandwidthDelta transition) in
  let '(enough, update) := x in
  let* s := mget in
  let* update := allocated (if negb (allowPause s) || enough then TrackProvisionalAllocateCommit else TrackPause) id update in
  maybeSendUpdate update ;;* adjustState.

(** A track that gives bandwidth back. *)
Definition downgrade (id : Z) : Handler unit :=
  let* update := allocated TrackProvisionalAllocateCommit id [] in
  maybeSendUpdate update ;;* adjustState ;;* maybeBoostDeficientTracks.

(** A track that asks for bandwidth, first from the headroom. *)
Definition upgrade (id : Z) (transition : VideoTransition) : Handler unit :=
  let* capacity := getAvailableHeadroomWithoutTracks false [id] in
  if capacity >? 0 then
    TrackProvisionalAllocateReset id ;;*
    let* s := mget in
    let* best := allocLoop capacity (allowPause s) id InvalidLayer allLayers in
    if IsValid best then
      (if GreaterThan best (vt_From transition) then
         let* update := allocated TrackProvisionalAllocateCommit id [] in maybeSendUpdate update
       else mret tt) ;;* adjustState
    else
      TrackProvisionalAllocateReset id ;;*
      let* transition := TrackCooperativeTransition cFlagAllowOvershootWhileDeficient id in
      redistribute id transition
  else redistribute id transition.

Definition allocateTrack (congestion : CongestionState) (id : Z) : Handler unit :=
  maybeStopProbe ;;*
  let* s := mget in
  let* t := getTrack id in
  if negb (enabled s)
     || (bool_decide (state s = streamAllocatorStateStable) && negb (isDeficientCongestionState congestion))
     || negb (IsManaged t)
  then
    let* update := allocated (TrackAllocateOptimal cFlagAllowOvershootWhileOptimal (isHoldableCongestionState congestion)) id [] in
    maybeSendUpdate update
  else
    TrackProvisionalAllocatePrepare id ;;*
    let* transition := TrackCooperativeTransition cFlagAllowOvershootWhileDeficient id in
    if GreaterThan (vt_From transition) (vt_To transition) then downgrade id
    else if bool_decide (vt_From transition = vt_To transition) then mret tt
    else upgrade id transition.

(** ** Allocating all tracks *)

(** The pass over the tracks that are not managed, with the capacity left. *)
Definition allocateExempt (capacity : Z) (ids : list Z) (update : StreamStateUpdate) : Handler (Z * StreamStateUpdate) :=
  mfoldl (fun '(capacity, update) id =>
    let* t := getTrack id in
    if IsManaged t then mret (capacity, update)
    else
      let* a := TrackAllocateOptimal cFlagAllowOvershootExemptTrackWhileDeficient false id in
      let* update := updateStreamStateChange id a update in
      let* s := mget in
      mret (if negb (DisableEstimationUnmanagedTracks (config s)) then i64 (capacity - va_BandwidthRequested a) else capacity,
            update)) (capacity, update) ids.

(** Nothing is left: every managed track is paused. *)
Definition pauseManaged (ids : list Z) (update : StreamStateUpdate) : Handler StreamStateUpdate :=
  mfoldl (fun update id =>
    let* t := getTrack id in
    if negb (IsManaged t) then mret update else allocated TrackPause id update) update ids.

(** One layer, offered to every track in turn. *)
Definition offerLayer (pause : bool) (sorted : list Z) (capacity : Z) (layer : VideoLayer) : Handler Z :=
  mfoldl (fun capacity id =>
    let* x := TrackProvisionalAllocate capacity layer pause cFlagAllowOvershootWhileDeficient id in
    let capacity := i64 (capacity - snd x) in
    mret (if capacity <? 0 then 0 else capacity)) capacity sorted.

Definition allocateManaged (capacity : Z) (update : StreamStateUpdate) : Handler StreamStateUpdate :=
  let* sorted := getSorted in
  mforeach TrackProvisionalAllocatePrepare sorted ;;*
  let* s := mget in
  let* _ := mfoldl (offerLayer (allowPause s) sorted) capacity allLayers in
  commitTracks sorted update.

Definition allocateAllTracks : Handler unit :=
  let* s := mget in
  if negb (enabled s) then mret tt
  else
    let* ids := getTracks in
    let* x := allocateExempt (getAvailableChannelCapacity true s) ids [] in
    let '(capacity, update) := x in
    let capacity := if capacity <? 0 then 0 else capacity in
    let* update := if (capacity =? 0) && allowPause s then pauseManaged ids update
                   else allocateManaged capacity update in
    maybeSendUpdate update ;;* adjustState.

(** ** Probing *)

Fixpoint probeMedia (ids : list Z) : Handler unit :=
  match ids with
  | [] => mret tt
  | id :: ids =>
    let* x := TrackAllocateNextHigher cChannelCapacityInfinity cFlagAllowOvershootInBoost id in
    let '(a, boosted) := x in
    if negb boosted then probeMedia ids
    else let* update := updateStreamStateChange id a [] in maybeSendUpdate update ;;* emit OutBWEReset
  end.

Definition maybeProbeWithMedia : Handler unit := let* ids := getMaxDistanceSortedDeficient in probeMedia ids.

Fixpoint probePadding (ids : list Z) : Handler unit :=
  match ids with
  | [] => mret tt
  | id :: ids =>
    let* x := TrackGetNextHigherTransition cFlagAllowOvershootInProbe id in
    let '(t, available) := x in
    if negb available || (vt_BandwidthDelta t <? 0) then probePadding ids
    else
      let* s := mget in
      let desiredIncreaseBps := Z.quot (i64 (vt_BandwidthDelta t * ProbeOveragePct (config s))) 100 in
      let desiredIncreaseBps := if desiredIncreaseBps <? ProbeMinBps (config s) then ProbeMinBps (config s)
                                else desiredIncreaseBps in
      let* usage := getExpectedBandwidthUsage in
      emit (OutAddProbeCluster (committedChannelCapacity s) usage (i64 (usage + desiredIncreaseBps)))
  end.

Definition maybeProbeWithPadding : Handler unit := let* ids := getMaxDistanceSortedDeficient in probePadding ids.

Definition maybeProbe (canProbe : bool) : Handler unit :=
  let* s := mget in
  if overriddenChannelCapacity s >? 0 then mret tt
  else if negb canProbe then mret tt
  else
    match cfg_ProbeMode (config s) with
    | ProbeModeMedia => maybeProbeWithMedia ;;* adjustState
    | ProbeModePadding => maybeProbeWithPadding
    | ProbeModeOther => mret tt
    end.

(** ** Handlers *)

Definition handleSignalAllocateTrack (congestion : CongestionState) (id : Z) : Handler unit :=
  let* s := mget in
  match videoTracks s !! id with
  | None => mret tt
  | Some _ => onTrack (SetDirty false) id ;;* allocateTrack congestion id
  end.

Definition handleSignalAllocateAllTracks : Handler unit :=
  mmodify (fun s => s <| isAllocateAllPending := false |>) ;;*
  let* s := mget in
  if bool_decide (state s = streamAllocatorStateDeficient) then allocateAllTracks else mret tt.

Definition handleSignalEstimate (receivedEstimate : Z) : Handler unit :=
  let* d := getNackDelta in
  let* usage := getExpectedBandwidthUsage in
  emit (OutREMB receivedEstimate usage (fst d) (snd d)).

(** The answers of the estimator and the pacer to a periodic ping. *)
Record PingAnswers := mkPingAnswers {
  pa_congestion : CongestionState;
  pa_timeSinceLastSentPacket : Z;
  pa_goalReached : bool;
  pa_finalized : option (bool * Z);  (** the probe signal is congesting; channel capacity *)
  pa_canProbe : bool;
}.

Definition pingResetBWE (p : PingAnswers) : Handler unit :=
  let* s := mget in
  if allowPause s && bool_decide (state s = streamAllocatorStateDeficient)
     && negb (bool_decide (pa_congestion p = CongestionStateNone))
     && (pa_timeSinceLastSentPacket p >? PausedMinWait (config s))
  then
    maybeStopProbe ;;* emit OutBWEReset ;;*
    mmodify (fun s => s <| activeProbeClusterId := ProbeClusterIdInvalid |>)
  else mret tt.

Definition pingActiveProbe (p : PingAnswers) : Handler unit :=
  let* s := mget in
  if activeProbeClusterId s =? ProbeClusterIdInvalid then mret tt
  else
    (if negb (activeProbeCongesting s) && negb (activeProbeGoalReached s) && pa_goalReached p
     then mmodify (fun s => s <| activeProbeGoalReached := true |>) ;;* maybeStopProbe else mret tt) ;;*
    match pa_finalized p with
    | None => mret tt
    | Some (congesting, channelCapacity) =>
      mmodify (fun s => s <| activeProbeClusterId := ProbeClusterIdInvalid |>) ;;*
      if congesting then mret tt
      else
        mmodify (fun s => if channelCapacity >? committedChannelCapacity s
                          then s <| committedChannelCapacity := channelCapacity |> else s) ;;*
        maybeBoostDeficientTracks
    end.

(** Pulling the round-trip time is left out: it only informs the estimator. *)
Definition handleSignalPeriodicPing (p : PingAnswers) : Handler unit :=
  pingResetBWE p ;;* pingActiveProbe p ;;*
  let* s := mget in
  if bool_decide (state s = streamAllocatorStateDeficient) then maybeProbe (pa_canProbe p) else mret tt.

(** The cluster is also announced to the estimator, the pacer and the tracks. *)
Definition handleSignalProbeClusterSwitch (id : Z) : Handler unit :=
  mmodify (fun s => s <| activeProbeClusterId := id |> <| activeProbeGoalReached := false |>
                      <| activeProbeCongesting := false |>).

Definition handleSignalResume (id : Z) : Handler unit :=
  let* s := mget in
  match videoTracks s !! id with
  | None => mret tt
  | Some _ => let* update := changeStreamState id StreamStateActive [] in maybeSendUpdate update
  end.

Definition handleSignalSetAllowPause (b : bool) : Handler unit := mmodify (fun s => s <| allowPause := b |>).

Definition handleSignalSetChannelCapacity (capacity : Z) : Handler unit :=
  mmodify (fun s => s <| overriddenChannelCapacity := capacity |>) ;;*
  if capacity >? 0 then allocateAllTracks else mret tt.

(** Every track of [ids] is allocated as if the channel were clear. *)
Definition allocateOptimally (ids : list Z) (update : StreamStateUpdate) : Handler StreamStateUpdate :=
  mfoldl (fun update id => allocated (TrackAllocateOptimal cFlagAllowOvershootWhileOptimal false) id update) update ids.

Definition handleSignalCongestionStateChange (fromState toState : CongestionState) (capacity : Z) : Handler unit :=
  (if negb (bool_decide (toState = CongestionStateNone)) then maybeStopProbe else mret tt) ;;*
  let* s := mget in
  (if isHoldableCongestionState fromState && bool_decide (toState = CongestionStateNone)
      && bool_decide (state s = streamAllocatorStateStable)
   then let* ids := getTracks in let* update := allocateOptimally ids [] in maybeSendUpdate update
   else mret tt) ;;*
  if bool_decide (toState = CongestionStateCongested) then
    let* s := mget in
    if negb (activeProbeClusterId s =? ProbeClusterIdInvalid) then
      mmodify (fun s => s <| activeProbeCongesting := true |>)
    else mmodify (fun s => s <| committedChannelCapacity := capacity |>) ;;* allocateAllTracks
  else mret tt.

(** ** Calls from outside the queue *)

(** The track's listeners are not modelled; the posted events are the result. *)
Definition maybePostEventAllocateTrack (id : Z) : Handler bool :=
  let* s := mget in
  match videoTracks s !! id with
  | None => mret false
  | Some _ => onTrack (SetDirty true) id
  end.

Definition AddTrack (id priority : Z) (t : Track) : Handler bool :=
  mmodify (fun s => s <| videoTracks := <[id := fst (SetPriority priority t)]> (videoTracks s) |>) ;;*
  maybePostEventAllocateTrack id.

Definition RemoveTrack (id : Z) : Handler unit :=
  mmodify (fun s => s <| videoTracks := delete id (videoTracks s) |>).

(** [true]: the allocation of all tracks is posted. *)
Definition SetTrackPriority (id priority : Z) : Handler bool :=
  let* s := mget in
  match videoTracks s !! id with
  | None => mret false
  | Some _ =>
    let* changed := onTrack (SetPriority priority) id in
    if changed && negb (isAllocateAllPending s)
    then mmodify (fun s => s <| isAllocateAllPending := true |>) ;;* mret true
    else mret false
  end.

Definition OnSubscribedLayerChanged (id : Z) (layer : VideoLayer) : Handler bool :=
  let* s := mget in
  match videoTracks s !! id with
  | None => mret false
  | Some _ =>
    let* changed := onTrack (SetMaxLayerTrack layer) id in
    if changed then onTrack (SetDirty true) id else mret false
  end.

End StreamAllocator.
Arguments Track om : clear implicits.
Arguments StreamAllocator om : clear implicits.
#[export] Existing Instance eta_Track.
#[export] Existing Instance eta_StreamAllocator.
