(* ===== verification/StreamAllocatorSpec.v ===== *)
(** * Properties of the stream allocator

    What the allocation of a congested channel guarantees: the bandwidth given
    to the managed tracks fits the capacity, every stream is kept alive when
    the lowest layers fit, redistribution does not raise the total, and the
    loop that boosts deficient tracks ends. *)

From S2P Require Import Prelude DdTypes.
From S2P Require Import Packet OrderedMap LayerSelectors Bitrates Forwarder Allocation AllocationSpec StreamAllocator.

(** The documented behaviour of map iteration and [sort.Sort]. *)
Class GoOrderLaws `{GoOrder} := {
  range_keys_perm {A} (m : gmap Z A) : range_keys m ≡ₚ (map_to_list m).*1;
  sort_Sort_perm {A} (less : A -> A -> bool) (l : list A) : sort_Sort less l ≡ₚ l;
}.

(** ** Runs of handlers *)

Lemma mfoldl_prefix {S E A B} (f : B -> A -> M S E B) (I : list A -> B -> S -> Prop) l :
  (forall done b x rest s, l = done ++ x :: rest -> I done b s ->
     exists s' b', f b x s = (s', Ok b') /\ I (done ++ [x]) b' s') ->
  forall b s, I [] b s -> exists s' b', mfoldl f b l s = (s', Ok b') /\ I l b' s'.
Proof.
  intros Hf. assert (Hgen : forall rest pre b s, l = pre ++ rest -> I pre b s ->
    exists s' b', mfoldl f b rest s = (s', Ok b') /\ I l b' s').
  { induction rest as [|x rest IH]; intros pre b s Hl HI.
    - rewrite app_nil_r in Hl. subst pre. by exists s, b.
    - destruct (Hf pre b x rest s Hl HI) as (s1 & b1 & Ef & HI1). cbn [mfoldl]. rewrite (mbind_eq _ _ _ _ _ Ef).
      apply (IH (pre ++ [x])); [|done]. by rewrite <- app_assoc. }
  intros b s HI. by apply (Hgen l []).
Qed.

Lemma mfoldl_inv {S E A B} (f : B -> A -> M S E B) (I : B -> S -> Prop) l :
  (forall b x s, x ∈ l -> I b s -> exists s' b', f b x s = (s', Ok b') /\ I b' s') ->
  forall b s, I b s -> exists s' b', mfoldl f b l s = (s', Ok b') /\ I b' s'.
Proof.
  intros Hf b s HI. apply (mfoldl_prefix f (fun _ => I)); [|done].
  intros done b0 x rest s0 -> HI0. apply Hf; [|done]. apply elem_of_app. right. by left.
Qed.

Lemma mforeach_mfoldl {S E A} (f : A -> M S E unit) l s :
  mforeach f l s = mfoldl (fun _ x => f x) tt l s.
Proof.
  revert s. induction l as [|x l IH]; intros s; [done|]. cbn. unfold mbind.
  destruct (f x s) as [s1 [[]|e]]; [apply IH|done].
Qed.

Section spec.
Context {om : Type -> Type} `{OM : OrderedMap om} `{GL : GoOrderLaws}.
Implicit Types s : StreamAllocator om.
Implicit Types t : Track om.

(** A video track between two events. *)
Record track_ok t : Prop := {
  to_inv : alloc_inv (tk_forwarder t);
  to_measured : measurement_ok (tk_availableLayers t) (tk_bitrates t);
  to_video : kind (tk_forwarder t) <> RTPCodecTypeAudio;
}.

(** What a handler does to a track: allocations and stream states. *)
Record evolves t t' : Prop := {
  ev_track : t' = t <| tk_forwarder := tk_forwarder t' |> <| tk_streamState := tk_streamState t' |>;
  ev_inv : alloc_inv (tk_forwarder t');
  ev_settings : same_settings (tk_forwarder t) (tk_forwarder t');
}.

Lemma evolves_refl t : alloc_inv (tk_forwarder t) -> evolves t t.
Proof. intros Hi. split; [by destruct t|done|apply same_settings_refl]. Qed.

Lemma same_settings_trans (f1 f2 f3 : Forwarder om) :
  same_settings f1 f2 -> same_settings f2 f3 -> same_settings f1 f3.
Proof. intros [] []. split; congruence. Qed.

Lemma evolves_trans t1 t2 t3 : evolves t1 t2 -> evolves t2 t3 -> evolves t1 t3.
Proof.
  intros [E1 _ S1] [E2 I2 S2]. split; [|done|by eapply same_settings_trans].
  rewrite E2, E1 at 1. by destruct t1.
Qed.

Lemma evolves_fields t t' : evolves t t' ->
  tk_availableLayers t' = tk_availableLayers t /\ tk_bitrates t' = tk_bitrates t /\ IsManaged t' = IsManaged t /\
  tk_source t' = tk_source t.
Proof. intros [E _ _]. rewrite E. by destruct t. Qed.

Lemma evolves_ok t t' : track_ok t -> evolves t t' -> track_ok t'.
Proof.
  intros [H1 H2 H3] Hev. destruct (evolves_fields _ _ Hev) as (E1 & E2 & _). destruct Hev as [_ Hi [Ek _ _ _ _ _ _]].
  split; [done|by rewrite E1, E2|by rewrite Ek].
Qed.

Lemma evolves_step t f st : alloc_inv f -> same_settings (tk_forwarder t) f ->
  evolves t (t <| tk_forwarder := f |> <| tk_streamState := st |>).
Proof. intros Hi Hs. by split. Qed.

Definition tracks_ok s : Prop := map_Forall (fun _ => track_ok) (videoTracks s).

(** Only the tracks of [s'] may differ from [s]. *)
Definition tracksOf s (m : gmap Z (Track om)) : StreamAllocator om := s <| videoTracks := m |>.

(** Between [s] and [s'], tracks were allocated and nothing else changed. *)
Record runs s s' : Prop := {
  ru_state : s' = tracksOf s (videoTracks s');
  ru_tracks id : option_Forall2 evolves (videoTracks s !! id) (videoTracks s' !! id);
}.

Lemma videoTracks_tracksOf s m : videoTracks (tracksOf s m) = m.
Proof. done. Qed.

Lemma tracksOf_twice s m m' : tracksOf (tracksOf s m) m' = tracksOf s m'.
Proof. done. Qed.

Lemma tracksOf_same s : tracksOf s (videoTracks s) = s.
Proof. by destruct s. Qed.

Lemma runs_refl s : tracks_ok s -> runs s s.
Proof.
  intros Hs. split; [by rewrite tracksOf_same|]. intros id. destruct (videoTracks s !! id) as [t|] eqn:E; constructor.
  apply evolves_refl. by destruct (Hs id t E).
Qed.

Lemma runs_lookup s s' id t : runs s s' -> videoTracks s !! id = Some t ->
  exists t', videoTracks s' !! id = Some t' /\ evolves t t'.
Proof. intros [_ Ht] E. specialize (Ht id). rewrite E in Ht. inversion Ht; subst. eauto. Qed.

Lemma runs_lookup_inv s s' id t' : runs s s' -> videoTracks s' !! id = Some t' ->
  exists t, videoTracks s !! id = Some t /\ evolves t t'.
Proof. intros [_ Ht] E. specialize (Ht id). rewrite E in Ht. inversion Ht; subst. eauto. Qed.

Lemma runs_ok s s' : tracks_ok s -> runs s s' -> tracks_ok s'.
Proof.
  intros Hs Hr id t' E. destruct (runs_lookup_inv _ _ _ _ Hr E) as (t & Et & Hev). eapply evolves_ok; [by apply (Hs id)|done].
Qed.

Lemma runs_trans s1 s2 s3 : runs s1 s2 -> runs s2 s3 -> runs s1 s3.
Proof.
  intros [E1 H1] [E2 H2]. split; [rewrite E2, E1; done|]. intros id. specialize (H1 id). specialize (H2 id).
  inversion H1 as [t1 t2 Ht Ea Eb|Ea Eb]; rewrite <- Eb in H2; inversion H2; subst; constructor. by eapply evolves_trans.
Qed.

(** One track evolves. *)
Lemma runs_insert s id t t' : tracks_ok s -> videoTracks s !! id = Some t -> evolves t t' ->
  runs s (tracksOf s (<[id := t']> (videoTracks s))).
Proof.
  intros Hs Ht Hev. split; [done|]. intros i. cbn. destruct (decide (i = id)) as [->|Hne].
  - rewrite Ht, lookup_insert_eq. by constructor.
  - rewrite lookup_insert_ne by done. apply (ru_tracks _ _ (runs_refl s Hs)).
Qed.

Lemma onForwarder_run {A} (g : Track om -> Forwarder om -> res fwd_panic (Forwarder om * A)) id s t f a :
  videoTracks s !! id = Some t -> g t (tk_forwarder t) = Ok (f, a) ->
  onForwarder g id s = (tracksOf s (<[id := t <| tk_forwarder := f |>]> (videoTracks s)), Ok a).
Proof.
  intros Ht Hg. unfold onForwarder, getTrack, setTrack, lift, mbind, mget, mmodify. rewrite Ht. cbn. by rewrite Hg.
Qed.

(** The stream state only. *)
Lemma updateStreamStateChange_run id a update s t : videoTracks s !! id = Some t ->
  exists st update', updateStreamStateChange id a update s =
    (tracksOf s (<[id := t <| tk_streamState := st |>]> (videoTracks s)), Ok update').
Proof.
  intros Ht.
  assert (Hsame : t <| tk_streamState := tk_streamState t |> = t) by (by destruct t).
  assert (Hch : forall st0, exists st update', changeStreamState id st0 update s =
    (tracksOf s (<[id := t <| tk_streamState := st |>]> (videoTracks s)), Ok update')).
  { intros st0. unfold changeStreamState, onTrack, getTrack, setTrack, mbind, mget, mmodify. rewrite Ht. cbn.
    unfold SetStreamState. destruct (bool_decide (tk_streamState t = st0)) eqn:E; cbn; rewrite lookup_insert_eq; cbn.
    - exists (tk_streamState t), update. cbn in Hsame |- *. by rewrite Hsame.
    - by exists st0, (HandleStreamingChange id (t <| tk_streamState := st0 |>) st0 update). }
  unfold updateStreamStateChange. destruct (va_PauseReason a); try apply Hch;
    (exists (tk_streamState t), update; rewrite Hsame, insert_id by done; by rewrite tracksOf_same).
Qed.

Lemma allocated_run (g : Track om -> Forwarder om -> res fwd_panic (Forwarder om * VideoAllocation)) id update s t f a :
  videoTracks s !! id = Some t -> g t (tk_forwarder t) = Ok (f, a) ->
  exists st update', allocated (onForwarder g) id update s =
    (tracksOf s (<[id := t <| tk_forwarder := f |> <| tk_streamState := st |>]> (videoTracks s)), Ok update').
Proof.
  intros Ht Hg. unfold allocated. rewrite (mbind_eq _ _ _ _ _ (onForwarder_run g id s t f a Ht Hg)).
  destruct (updateStreamStateChange_run id a update (tracksOf s (<[id := t <| tk_forwarder := f |>]> (videoTracks s)))
    (t <| tk_forwarder := f |>)) as (st & u & ->); [cbn; apply lookup_insert_eq|].
  exists st, u. cbn. by rewrite insert_insert_eq.
Qed.

(** ** Sums over tracks *)

(** The sum of [g] over the tracks of [ids]. *)
Fixpoint sumOver (g : Track om -> Z) (ids : list Z) (m : gmap Z (Track om)) : Z :=
  match ids with
  | [] => 0
  | id :: ids => from_option g 0 (m !! id) + sumOver g ids m
  end.

Lemma sumOver_notin g id t ids m : id ∉ ids -> sumOver g ids (<[id := t]> m) = sumOver g ids m.
Proof.
  induction ids as [|x ids IH]; intros Hn; [done|]. apply not_elem_of_cons in Hn as [Hne Hn]. cbn.
  by rewrite lookup_insert_ne, IH by done.
Qed.

Lemma sumOver_insert g id t t' ids m : NoDup ids -> id ∈ ids -> m !! id = Some t ->
  sumOver g ids (<[id := t']> m) = sumOver g ids m + (g t' - g t).
Proof.
  intros Hnd Hin Ht. induction Hnd as [|x ids Hx Hnd IH]; [by apply not_elem_of_nil in Hin|]. cbn.
  apply elem_of_cons in Hin as [->|Hin].
  - rewrite lookup_insert_eq, Ht, sumOver_notin by done. cbn. lia.
  - assert (id <> x) as Hne by (intros ->; done). rewrite lookup_insert_ne, IH by done. lia.
Qed.

Lemma sumOver_le g g' ids m m' :
  (forall id, id ∈ ids -> from_option g 0 (m !! id) <= from_option g' 0 (m' !! id)) ->
  sumOver g ids m <= sumOver g' ids m'.
Proof.
  induction ids as [|x ids IH]; intros Hle; cbn; [done|].
  assert (sumOver g ids m <= sumOver g' ids m') by (apply IH; intros; apply Hle; by right).
  specialize (Hle x ltac:(by left)). lia.
Qed.

Lemma sumOver_bound g c ids m : 0 <= c -> (forall id t, m !! id = Some t -> 0 <= g t <= c) ->
  0 <= sumOver g ids m <= Z.of_nat (length ids) * c.
Proof.
  intros Hc Hg. induction ids as [|x ids IH]; cbn [sumOver length]; [lia|].
  destruct (m !! x) as [t|] eqn:E; cbn; [specialize (Hg x t E)|]; lia.
Qed.

Lemma sumOver_perm g ids ids' m : ids ≡ₚ ids' -> sumOver g ids m = sumOver g ids' m.
Proof. induction 1; cbn; lia. Qed.

Lemma sumOver_filter (p : Track om -> bool) g ids m :
  sumOver (fun t => if p t then g t else 0) ids m = sumOver g (filter (fun id => from_option p false (m !! id) = true) ids) m.
Proof.
  induction ids as [|id ids IH]; [done|]. cbn [sumOver]. rewrite IH, filter_cons. case_decide as Hd.
  - cbn [sumOver]. destruct (m !! id) as [t|]; [|done]. cbn in Hd |- *. by rewrite Hd.
  - destruct (m !! id) as [t|]; [|done]. cbn in Hd |- *. by rewrite (not_true_is_false _ Hd).
Qed.

(** The keys of the tracks that satisfy [p], each once. *)
Definition keysOf (p : Track om -> bool) (m : gmap Z (Track om)) (ids : list Z) : Prop :=
  NoDup ids /\ forall id, id ∈ ids <-> exists t, m !! id = Some t /\ p t = true.

Lemma range_keys_elem {A} (m : gmap Z A) id : id ∈ range_keys m <-> is_Some (m !! id).
Proof.
  rewrite (range_keys_perm m), list_elem_of_fmap. split.
  - intros ([k a] & -> & Hin). apply elem_of_map_to_list in Hin. by exists a.
  - intros [a E]. exists (id, a). split; [done|]. by apply elem_of_map_to_list.
Qed.

Lemma range_keys_nodup {A} (m : gmap Z A) : NoDup (range_keys m).
Proof. rewrite (range_keys_perm m). apply NoDup_fst_map_to_list. Qed.

Lemma range_keys_length {A} (m : gmap Z A) : length (range_keys m) = size m.
Proof. rewrite (range_keys_perm m), length_fmap. apply length_map_to_list. Qed.

(** The sum of [g] over the tracks that satisfy [p]. *)
Definition total (p : Track om -> bool) (g : Track om -> Z) (m : gmap Z (Track om)) : Z :=
  sumOver (fun t => if p t then g t else 0) (range_keys m) m.

Lemma total_keysOf p g m ids : keysOf p m ids -> total p g m = sumOver g ids m.
Proof.
  intros [Hnd Hin]. unfold total. rewrite sumOver_filter. apply sumOver_perm.
  apply NoDup_Permutation; [apply NoDup_filter, range_keys_nodup|done|]. intros id.
  rewrite list_elem_of_filter, range_keys_elem, Hin. split.
  - intros [Hp [t E]]. exists t. by rewrite E in Hp.
  - intros (t & E & Hp). by rewrite E.
Qed.

(** [p] does not depend on what a handler changes. *)
Definition stable (p : Track om -> bool) : Prop := forall t t', evolves t t' -> p t' = p t.

Lemma IsManaged_stable : stable IsManaged.
Proof. intros t t' Hev. by destruct (evolves_fields _ _ Hev) as (_ & _ & E & _). Qed.

Lemma keysOf_runs p s s' ids : stable p -> runs s s' -> keysOf p (videoTracks s) ids -> keysOf p (videoTracks s') ids.
Proof.
  intros Hp Hr [Hnd Hin]. split; [done|]. intros id. rewrite Hin. split; intros (t & E & Ht).
  - destruct (runs_lookup _ _ _ _ Hr E) as (t' & E' & Hev). exists t'. by rewrite (Hp _ _ Hev).
  - destruct (runs_lookup_inv _ _ _ _ Hr E) as (t0 & E' & Hev). exists t0. by rewrite <- (Hp _ _ Hev).
Qed.

(** The lists of tracks. *)
Lemma selectTracks_keys (p : Z -> Track om -> bool) s :
  NoDup (selectTracks p s).*1 /\
  forall id t, (id, t) ∈ selectTracks p s <-> videoTracks s !! id = Some t /\ p id t = true.
Proof.
  unfold selectTracks. pose proof (range_keys_nodup (videoTracks s)) as Hnd.
  assert (Hmem : forall (ids : list Z) id t, (id, t) ∈ omap (fun id => match videoTracks s !! id with Some t => if p id t then Some (id, t) else None
    | None => None end) ids <-> id ∈ ids /\ videoTracks s !! id = Some t /\ p id t = true).
  { intros ids id t. rewrite list_elem_of_omap. split.
    - intros (x & Hx & E). destruct (videoTracks s !! x) as [t'|] eqn:Et; [|done]. destruct (p x t') eqn:Ep; [|done].
      apply (inj Some) in E as [= -> ->]. done.
    - intros (Hx & Et & Ep). exists id. split; [done|]. by rewrite Et, Ep. }
  split.
  - clear -Hnd Hmem. induction Hnd as [|x ids Hx Hnd IH]; cbn; [constructor|].
    destruct (videoTracks s !! x) as [t|] eqn:Et; [|exact IH]. destruct (p x t); [|exact IH]. cbn. constructor; [|exact IH].
    rewrite list_elem_of_fmap. intros ([id t'] & -> & Hin). by apply Hmem in Hin as [? _].
  - intros id t. rewrite Hmem, range_keys_elem. split; [tauto|]. intros [E Hp]. rewrite E. eauto.
Qed.

(** ** Offering layers *)

(** The provisional state a preparation makes, with the layer allocated since. *)
Definition provisionalOf t (l : VideoLayer) : VideoAllocationProvisional :=
  let f := tk_forwarder t in
  mkProvisional (muted f) (pubMuted f) (GetMaxSeen (vls f)) (tk_availableLayers t) (tk_bitrates t) (GetMax (vls f))
    (GetCurrent (vls f)) l.

Definition layerOf t : VideoLayer :=
  match provisional (tk_forwarder t) with Some p => vp_allocatedLayer p | None => InvalidLayer end.

Definition prepared t : Prop := provisional (tk_forwarder t) = Some (provisionalOf t (layerOf t)).

(** The rate of the layer allocated to a track so far. *)
Definition allocatedOf t : Z := allocatedRate (provisionalOf t (layerOf t)).

(** The track can be given [l]: it is not muted, has something published and
    asked for, and [l] is a layer with a rate that is not above its maximum. *)
Definition wants t (l : VideoLayer) : bool :=
  negb (blocked (provisionalOf t InvalidLayer)) && negb (GreaterThan l (GetMax (vls (tk_forwarder t)))) && (0 <? rate0 (tk_bitrates t) l).

Definition offer (l : VideoLayer) t : Track om :=
  t <| tk_forwarder := allocate l (provisionalOf t (layerOf t)) (tk_forwarder t) |>.

Lemma wants_stable l : stable (fun t => wants t l).
Proof.
  intros t t' Hev. destruct (evolves_fields _ _ Hev) as (_ & E & _). destruct Hev as [_ _ [_ _ E1 E2 _ E3 E4]].
  unfold wants, blocked, provisionalOf. cbn. by rewrite E, E1, E2, E3, E4.
Qed.

Lemma layerOf_offer l t : layerOf (offer l t) = l.
Proof. done. Qed.

Lemma prepared_offer l t : prepared (offer l t).
Proof. done. Qed.

Lemma allocatedOf_offer l t : in_brs l -> allocatedOf (offer l t) = rate0 (tk_bitrates t) l.
Proof. intros Hl. unfold allocatedOf, allocatedRate. cbn. by rewrite in_brs_valid. Qed.

Lemma prepared_ok t : track_ok t -> prepared t -> prov_ok (provisionalOf t (layerOf t)).
Proof. intros [[Hf _] _ _] Hp. by apply (fo_provisional _ Hf). Qed.

Lemma allocatedOf_range t : track_ok t -> prepared t -> 0 <= allocatedOf t < max_rate.
Proof. intros Ht Hp. by apply allocatedRate_ok, prepared_ok. Qed.

Lemma evolves_offer l t : track_ok t -> prepared t -> layer_ok l -> evolves t (offer l t).
Proof.
  intros [Hi _ _] Hp Hl. split; [by destruct t| |done]. by apply alloc_inv_allocate.
Qed.

(** An offer is taken when it fits, or in any case by a track without a
    layer when tracks may not be paused. *)
Definition taken (capacity : Z) (l : VideoLayer) (pause : bool) t : bool :=
  wants t l &&
  ((rate0 (tk_bitrates t) l <=? capacity + allocatedOf t) ||
   (negb pause && (negb (IsValid (layerOf t)) || negb (GreaterThan l (layerOf t))))).

Lemma offer_run capacity l pause id s t : tracks_ok s -> videoTracks s !! id = Some t -> prepared t ->
  in_brs l -> 0 <= capacity < max_capacity ->
  let b := taken capacity l pause t in
  TrackProvisionalAllocate capacity l pause cFlagAllowOvershootWhileDeficient id s =
    (tracksOf s (<[id := if b then offer l t else t]> (videoTracks s)),
     Ok (b, if b then rate0 (tk_bitrates t) l - allocatedOf t else 0)).
Proof.
  intros Hs Ht Hp Hl Hc b. pose proof (Hs id t Ht) as Hok. unfold TrackProvisionalAllocate.
  pose proof (ProvisionalAllocate_ok _ capacity l pause false _ Hp (prepared_ok _ Hok Hp) Hl Hc) as E. cbv zeta in E.
  match type of E with _ = Ok (if ?x then _ else _) => replace x with b in E end.
  - destruct b; rewrite (onForwarder_run _ id s t _ _ Ht E); [done|]. do 3 f_equal. by destruct t.
  - unfold b, taken, wants, mayExceedMax, allocatedOf, blocked, provisionalOf. cbn.
    destruct (GreaterThan l _); cbn; rewrite ?andb_false_r; [done|]. rewrite !andb_true_r. by rewrite <- andb_assoc.
Qed.

(** The tracks of [ids] are between a preparation and a commit. *)
Definition all_prepared (ids : list Z) s : Prop :=
  forall id, id ∈ ids -> exists t, videoTracks s !! id = Some t /\ prepared t.

Lemma all_prepared_insert ids id t s : all_prepared ids s -> prepared t ->
  all_prepared ids (tracksOf s (<[id := t]> (videoTracks s))).
Proof.
  intros Hs Hp i Hi. cbn. destruct (decide (i = id)) as [->|Hne].
  - exists t. by rewrite lookup_insert_eq.
  - rewrite lookup_insert_ne by done. by apply Hs.
Qed.

(** The capacity left and what has been allocated so far. *)
Record offering (pause : bool) (start : Z) (ids : list Z) s0 (capacity : Z) s : Prop := {
  of_runs : runs s0 s;
  of_prepared : all_prepared ids s;
  of_others : forall id, id ∉ ids -> videoTracks s !! id = videoTracks s0 !! id;
  of_capacity : 0 <= capacity;
  of_limit : capacity + sumOver allocatedOf ids (videoTracks s) <= Z.max start (Z.of_nat (length ids) * max_rate);
  of_exact : pause = true -> capacity + sumOver allocatedOf ids (videoTracks s) = start;
}.

Lemma allocated_sum_bound ids s : tracks_ok s -> all_prepared ids s ->
  0 <= sumOver allocatedOf ids (videoTracks s) <= Z.of_nat (length ids) * max_rate.
Proof.
  intros Hs. induction ids as [|id ids IH]; intros Hp; cbn [sumOver length]; [lia|].
  destruct (Hp id ltac:(by left)) as (t & E & Ht). rewrite E. cbn.
  pose proof (allocatedOf_range t (Hs id t E) Ht). specialize (IH ltac:(intros i Hi; apply Hp; by right)).
  unfold max_rate in *. lia.
Qed.

(** A participant's tracks, counted generously. *)
Definition max_tracks : Z := 1048576.

(** The body of [offerLayer]. *)
Definition offerTo (pause : bool) (layer : VideoLayer) (capacity id : Z) : Handler (om := om) Z :=
  let* x := TrackProvisionalAllocate capacity layer pause cFlagAllowOvershootWhileDeficient id in
  let capacity := i64 (capacity - snd x) in
  mret (if capacity <? 0 then 0 else capacity).

Lemma offerLayer_eq pause ids capacity layer : offerLayer pause ids capacity layer = mfoldl (offerTo pause layer) capacity ids.
Proof. done. Qed.

Lemma offering_step pause start ids s0 capacity s layer id :
  tracks_ok s0 -> NoDup ids -> Z.of_nat (length ids) <= max_tracks -> 0 <= start < max_capacity -> in_brs layer ->
  offering pause start ids s0 capacity s -> id ∈ ids ->
  exists s' capacity' t, offerTo pause layer capacity id s = (s', Ok capacity') /\
    offering pause start ids s0 capacity' s' /\ videoTracks s !! id = Some t /\
    videoTracks s' = <[id := if taken capacity layer pause t then offer layer t else t]> (videoTracks s).
Proof.
  intros Hs0 Hnd Hlen Hstart Hl Hoff Hid. pose proof (runs_ok _ _ Hs0 (of_runs _ _ _ _ _ _ Hoff)) as Hs.
  destruct (of_prepared _ _ _ _ _ _ Hoff id Hid) as (t & Et & Hp).
  pose proof (allocated_sum_bound ids s Hs (of_prepared _ _ _ _ _ _ Hoff)) as Hsum.
  pose proof (of_capacity _ _ _ _ _ _ Hoff) as Hc0. pose proof (of_limit _ _ _ _ _ _ Hoff) as Hc1.
  assert (0 <= capacity < max_capacity) as Hc by (unfold max_capacity, max_rate, max_tracks in *; lia).
  pose proof (allocatedOf_range t (Hs id t Et) Hp) as Ha.
  destruct (rateOf_ok _ _ (proj1 (to_measured t (Hs id t Et))) Hl) as [_ Hr].
  pose proof (offer_run capacity layer pause id s t Hs Et Hp Hl Hc) as E. cbv zeta in E.
  unfold offerTo. rewrite (mbind_eq _ _ _ _ _ E). cbn [snd]. unfold mret.
  set (b := taken capacity layer pause t) in *. set (t' := if b then offer layer t else t).
  set (delta := if b then rate0 (tk_bitrates t) layer - allocatedOf t else 0).
  rewrite i64_small by (unfold delta, max_capacity, max_rate in *; destruct b; lia).
  do 2 eexists. exists t. split; [done|]. split; [|done].
  assert (evolves t t') as Hev.
  { unfold t'. destruct b; [apply evolves_offer; [by apply (Hs id)|done|by apply in_brs_ok]|apply evolves_refl, (Hs id t Et)]. }
  assert (allocatedOf t' = allocatedOf t + delta) as Ea.
  { unfold t', delta. destruct b; [|lia]. rewrite allocatedOf_offer by done. lia. }
  assert (prepared t') as Hp' by (unfold t'; by destruct b).
  assert (runs s (tracksOf s (<[id := t']> (videoTracks s)))) as Hrun by (by apply (runs_insert s id t)).
  pose proof (all_prepared_insert ids id t' s (of_prepared _ _ _ _ _ _ Hoff) Hp') as Hprep.
  pose proof (allocated_sum_bound ids _ (runs_ok _ _ Hs Hrun) Hprep) as Hsum'.
  change (videoTracks (tracksOf s (<[id := t']> (videoTracks s)))) with (<[id := t']> (videoTracks s)) in *.
  assert (sumOver allocatedOf ids (<[id := t']> (videoTracks s)) = sumOver allocatedOf ids (videoTracks s) + delta) as Esum.
  { rewrite (sumOver_insert _ id t) by done. lia. }
  split.
  - eapply runs_trans; [apply (of_runs _ _ _ _ _ _ Hoff)|exact Hrun].
  - exact Hprep.
  - intros i Hi. assert (i <> id) by (intros ->; done). cbn. rewrite lookup_insert_ne by done.
    by apply (of_others _ _ _ _ _ _ Hoff).
  - destruct (Z.ltb_spec (capacity - delta) 0); lia.
  - change (videoTracks (tracksOf s (<[id := t']> (videoTracks s)))) with (<[id := t']> (videoTracks s)). rewrite Esum.
    destruct (Z.ltb_spec (capacity - delta) 0); lia.
  - intros Hpause. pose proof (of_exact _ _ _ _ _ _ Hoff Hpause) as Hex.
    change (videoTracks (tracksOf s (<[id := t']> (videoTracks s)))) with (<[id := t']> (videoTracks s)). rewrite Esum.
    assert (delta <= capacity).
    { unfold delta, b, taken. rewrite Hpause. cbn [negb andb]. rewrite orb_false_r.
      destruct (wants t layer); cbn [andb]; [|lia]. destruct (Z.leb_spec (rate0 (tk_bitrates t) layer) (capacity + allocatedOf t)); lia. }
    destruct (Z.ltb_spec (capacity - delta) 0); lia.
Qed.

(** A layer is allocated to the track [id]. *)
Definition hasLayer s id : Prop := exists t, videoTracks s !! id = Some t /\ IsValid (layerOf t) = true.

(** The rate a track takes of the channel when it is given [l]. *)
Definition share (l : VideoLayer) t : Z := if wants t l then rate0 (tk_bitrates t) l else 0.

Lemma share_stable l t t' : evolves t t' -> share l t' = share l t.
Proof.
  intros Hev. unfold share. rewrite (wants_stable l _ _ Hev). by destruct (evolves_fields _ _ Hev) as (_ & -> & _).
Qed.

Lemma sumOver_app g ids ids' m : sumOver g (ids ++ ids') m = sumOver g ids m + sumOver g ids' m.
Proof. induction ids; cbn [app sumOver]; lia. Qed.

Lemma share_nonneg s l id : tracks_ok s -> in_brs l -> 0 <= from_option (share l) 0 (videoTracks s !! id).
Proof.
  intros Hs Hl. destruct (videoTracks s !! id) as [t|] eqn:E; cbn; [|lia]. unfold share. case_if; [|lia].
  apply rateOf_ok; [apply (to_measured t (Hs id t E))|done].
Qed.

Lemma share_sum_nonneg s l ids : tracks_ok s -> in_brs l -> 0 <= sumOver (share l) ids (videoTracks s).
Proof. intros Hs Hl. induction ids as [|x ids IH]; cbn [sumOver]; [lia|]. pose proof (share_nonneg s l x Hs Hl). lia. Qed.

Section pass.
Context (pause : bool) (start : Z) (ids : list Z) (s0 : StreamAllocator om).
Context (Hs0 : tracks_ok s0) (Hnd : NoDup ids) (Hlen : Z.of_nat (length ids) <= max_tracks) (Hstart : 0 <= start < max_capacity).

(** One offer: layers already allocated stay, and without pauses the layer is
    given to every track that wants it. *)
Lemma offerTo_run layer capacity s id : in_brs layer -> offering pause start ids s0 capacity s -> id ∈ ids ->
  exists s' capacity', offerTo pause layer capacity id s = (s', Ok capacity') /\
    offering pause start ids s0 capacity' s' /\
    (forall i, hasLayer s i -> hasLayer s' i) /\
    (forall i, i <> id -> videoTracks s' !! i = videoTracks s !! i) /\
    (forall t0, videoTracks s0 !! id = Some t0 -> wants t0 layer = true ->
       pause = false \/ (exists t, videoTracks s !! id = Some t /\ rate0 (tk_bitrates t0) layer <= capacity + allocatedOf t) ->
       hasLayer s' id) /\
    (forall t, videoTracks s !! id = Some t -> layerOf t = InvalidLayer ->
       sumOver allocatedOf ids (videoTracks s') <= sumOver allocatedOf ids (videoTracks s) + from_option (share layer) 0 (videoTracks s0 !! id)).
Proof.
  intros Hl Hoff Hid.
  destruct (offering_step pause start ids s0 capacity s layer id Hs0 Hnd Hlen Hstart Hl Hoff Hid) as (s' & c' & t & E & Hoff' & Et & Em).
  exists s', c'. split; [exact E|]. split; [exact Hoff'|].
  destruct (runs_lookup_inv _ _ _ _ (of_runs _ _ _ _ _ _ Hoff) Et) as (t0 & Et0 & Hev).
  destruct (evolves_fields _ _ Hev) as (_ & Eb & _). pose proof (wants_stable layer _ _ Hev) as Ew. cbv beta in Ew.
  set (b := taken capacity layer pause t) in *.
  assert (Hnew : forall t', videoTracks s' !! id = Some t' -> t' = if b then offer layer t else t).
  { intros t' E'. rewrite Em, lookup_insert_eq in E'. by apply (inj Some) in E'. }
  assert (Hin : videoTracks s' !! id = Some (if b then offer layer t else t)) by (rewrite Em; apply lookup_insert_eq).
  split_and!.
  - intros i (ti & Ei & Hv). destruct (decide (i = id)) as [->|Hne].
    + eexists. split; [exact Hin|]. destruct b; [by apply in_brs_valid|]. congruence.
    + exists ti. by rewrite Em, lookup_insert_ne by done.
  - intros i Hne. by rewrite Em, lookup_insert_ne by done.
  - intros t0' Et0' Hw Hor. replace t0' with t0 in * by congruence. eexists. split; [exact Hin|].
    destruct b eqn:Hb; [by apply in_brs_valid|]. destruct (IsValid (layerOf t)) eqn:Hv; [done|]. exfalso.
    unfold b, taken in Hb. rewrite Ew, Hw, Hv in Hb. cbn [andb negb orb] in Hb.
    destruct Hor as [->|(t' & Et' & Hfit)]; [by rewrite orb_true_r in Hb|]. replace t' with t in * by congruence.
    rewrite Eb in Hb. rewrite (proj2 (Z.leb_le _ _) Hfit) in Hb. done.
  - intros t' Et' Hv. replace t' with t in * by congruence. rewrite Em, Et0.
    rewrite (sumOver_insert _ id t) by done. cbn [from_option]. rewrite <- (share_stable layer _ _ Hev).
    assert (allocatedOf t = 0) as Ea by (unfold allocatedOf, allocatedRate; cbn; by rewrite Hv).
    pose proof (share_nonneg s0 layer id Hs0 Hl) as Hsh. rewrite Et0 in Hsh. cbn [from_option] in Hsh.
    rewrite <- (share_stable layer _ _ Hev) in Hsh.
    destruct b eqn:Hb; [|lia]. rewrite allocatedOf_offer by done. unfold share.
    unfold b, taken in Hb. apply andb_true_iff in Hb as [-> _]. lia.
Qed.

(** One layer offered to all tracks. *)
Lemma offerLayer_run layer capacity s : in_brs layer -> offering pause start ids s0 capacity s ->
  exists s' capacity', offerLayer pause ids capacity layer s = (s', Ok capacity') /\
    offering pause start ids s0 capacity' s' /\
    (forall i, hasLayer s i -> hasLayer s' i) /\
    (pause = false -> forall id t0, id ∈ ids -> videoTracks s0 !! id = Some t0 -> wants t0 layer = true -> hasLayer s' id).
Proof.
  intros Hl Hoff. rewrite offerLayer_eq.
  destruct (mfoldl_prefix (offerTo pause layer) (fun pre c s1 => offering pause start ids s0 c s1 /\
    (forall i, hasLayer s i -> hasLayer s1 i) /\
    (pause = false -> forall id t0, id ∈ pre -> videoTracks s0 !! id = Some t0 -> wants t0 layer = true -> hasLayer s1 id)) ids)
    with (b := capacity) (s := s) as (s' & c' & E & Hoff' & Hmon & Hall).
  - intros pre c id rest s1 Eids (Hoff1 & Hmon & Hall). assert (id ∈ ids) as Hid by (rewrite Eids; apply elem_of_app; right; by left).
    destruct (offerTo_run layer c s1 id Hl Hoff1 Hid) as (s2 & c2 & E & Hoff2 & Hmon2 & _ & Hnew & _).
    exists s2, c2. split; [exact E|]. split; [exact Hoff2|]. split; [by intros i Hi; apply Hmon2, Hmon|].
    intros Hp id' t0 Hin Et0 Hw. apply elem_of_app in Hin as [Hin|Hin]; [by eapply Hmon2, Hall|].
    apply list_elem_of_singleton in Hin as ->. apply (Hnew t0); auto.
  - split; [done|]. split; [done|]. intros _ id t0 Hin. by apply not_elem_of_nil in Hin.
  - exists s', c'. by split_and!.
Qed.

(** All the layers of a list. *)
Lemma offerLayers_run layers capacity s : Forall in_brs layers -> offering pause start ids s0 capacity s ->
  exists s' capacity', mfoldl (offerLayer pause ids) capacity layers s = (s', Ok capacity') /\
    offering pause start ids s0 capacity' s' /\
    (forall i, hasLayer s i -> hasLayer s' i) /\
    (pause = false -> forall layer id t0, layer ∈ layers -> id ∈ ids -> videoTracks s0 !! id = Some t0 ->
       wants t0 layer = true -> hasLayer s' id).
Proof.
  intros Hls. revert capacity s. induction Hls as [|l ls Hl _ IH]; intros capacity s Hoff.
  { exists s, capacity. split_and!; try done. intros _ l id t0 Hin. by apply not_elem_of_nil in Hin. }
  destruct (offerLayer_run l capacity s Hl Hoff) as (s1 & c1 & E1 & Hoff1 & Hmon1 & Hall1).
  destruct (IH c1 s1 Hoff1) as (s2 & c2 & E2 & Hoff2 & Hmon2 & Hall2).
  exists s2, c2. cbn [mfoldl]. rewrite (mbind_eq _ _ _ _ _ E1). split_and!; [exact E2|done|by auto|].
  intros Hp l' id t0 Hin. apply elem_of_cons in Hin as [->|Hin]; [|by eauto]. intros. by eapply Hmon2, Hall1.
Qed.

(** When the shares of a layer fit together, the first layer offered is given
    to every track that wants it. *)
Lemma firstLayer_run layer s : pause = true -> in_brs layer -> offering pause start ids s0 start s ->
  (forall id, id ∈ ids -> exists t, videoTracks s !! id = Some t /\ layerOf t = InvalidLayer) ->
  sumOver (share layer) ids (videoTracks s0) <= start ->
  exists s' capacity', offerLayer pause ids start layer s = (s', Ok capacity') /\
    offering pause start ids s0 capacity' s' /\
    forall id t0, id ∈ ids -> videoTracks s0 !! id = Some t0 -> wants t0 layer = true -> hasLayer s' id.
Proof.
  intros Hp Hl Hoff Hfresh Hfits. rewrite offerLayer_eq.
  destruct (mfoldl_prefix (offerTo pause layer) (fun pre c s1 => offering pause start ids s0 c s1 /\
    (forall id, id ∈ ids -> id ∉ pre -> exists t, videoTracks s1 !! id = Some t /\ layerOf t = InvalidLayer) /\
    sumOver allocatedOf ids (videoTracks s1) <= sumOver (share layer) pre (videoTracks s0) /\
    (forall id t0, id ∈ pre -> videoTracks s0 !! id = Some t0 -> wants t0 layer = true -> hasLayer s1 id)) ids)
    with (b := start) (s := s) as (s' & c' & E & Hoff' & _ & _ & Hall).
  - intros pre c id rest s1 Eids (Hoff1 & Hfresh1 & Hsum & Hall).
    assert (id ∈ ids) as Hid by (rewrite Eids; apply elem_of_app; right; by left).
    assert (id ∉ pre) as Hpre.
    { rewrite Eids in Hnd. apply NoDup_app in Hnd as (_ & Hd & _). intros Hin. apply (Hd id Hin). by left. }
    destruct (Hfresh1 id Hid Hpre) as (t & Et & Hlay).
    destruct (offerTo_run layer c s1 id Hl Hoff1 Hid) as (s2 & c2 & E & Hoff2 & Hmon2 & Hother & Hnew & Hsum2).
    exists s2, c2. split; [exact E|]. split; [exact Hoff2|]. split_and!.
    + intros i Hi Hni. rewrite not_elem_of_app, list_elem_of_singleton in Hni. destruct Hni as [Hni Hne].
      rewrite (Hother i Hne). by apply Hfresh1.
    + specialize (Hsum2 t Et Hlay). rewrite sumOver_app. cbn [sumOver]. lia.
    + intros i t0 Hin Et0 Hw. apply elem_of_app in Hin as [Hin|Hin]; [by eapply Hmon2, Hall|].
      apply list_elem_of_singleton in Hin as ->. apply (Hnew t0 Et0 Hw). right. exists t. split; [done|].
      pose proof (of_exact _ _ _ _ _ _ Hoff1 Hp) as Hex.
      assert (allocatedOf t = 0) as -> by (unfold allocatedOf, allocatedRate; cbn; by rewrite Hlay).
      rewrite Eids, sumOver_app in Hfits. cbn [sumOver] in Hfits. rewrite Et0 in Hfits. cbn [from_option] in Hfits.
      unfold share at 2 in Hfits. rewrite Hw in Hfits. pose proof (share_sum_nonneg s0 layer rest Hs0 Hl). lia.
  - split; [done|]. split; [by intros; apply Hfresh|]. split; [|intros id t0 Hin; by apply not_elem_of_nil in Hin].
    pose proof (of_exact _ _ _ _ _ _ Hoff Hp). cbn [sumOver]. lia.
  - exists s', c'. by split_and!.
Qed.
End pass.

(** ** Tracks visited one after the other *)

Lemma eachTrack_run {B} (f : B -> Z -> Handler B) (Q : list Z -> B -> gmap Z (Track om) -> Prop) ids s b :
  tracks_ok s -> NoDup ids -> (forall id, id ∈ ids -> is_Some (videoTracks s !! id)) -> Q [] b (videoTracks s) ->
  (forall pre id c s1 t, id ∈ ids -> id ∉ pre -> runs s s1 -> videoTracks s !! id = Some t -> videoTracks s1 !! id = Some t ->
     Q pre c (videoTracks s1) ->
     exists t' c', f c id s1 = (tracksOf s1 (<[id := t']> (videoTracks s1)), Ok c') /\ evolves t t' /\
                   Q (pre ++ [id]) c' (<[id := t']> (videoTracks s1))) ->
  exists s' b', mfoldl f b ids s = (s', Ok b') /\ runs s s' /\ Q ids b' (videoTracks s') /\
    (forall id, id ∉ ids -> videoTracks s' !! id = videoTracks s !! id).
Proof.
  intros Hs Hnd Hin HQ0 Hf. apply (mfoldl_prefix f (fun pre c s1 => runs s s1 /\ Q pre c (videoTracks s1) /\
    (forall id, id ∉ pre -> videoTracks s1 !! id = videoTracks s !! id)) ids); [|split_and!; [by apply runs_refl|done..]].
  intros pre c id rest s1 Eids (Hr & HQ1 & Hother).
  assert (id ∉ pre) as Hni.
  { rewrite Eids in Hnd. apply NoDup_app in Hnd as (_ & Hd & _). intros Hi. apply (Hd id Hi). by left. }
  assert (id ∈ ids) as Hid by (rewrite Eids; apply elem_of_app; right; by left).
  destruct (Hin id Hid) as [t Et]. pose proof Et as Et1. rewrite <- (Hother id Hni) in Et1.
  destruct (Hf pre id c s1 t Hid Hni Hr Et Et1 HQ1) as (t' & c' & E & Hev & HQ2).
  do 2 eexists. split; [exact E|]. split_and!; [|exact HQ2|].
  - eapply runs_trans; [exact Hr|]. apply (runs_insert s1 id t); [by eapply runs_ok|done|done].
  - intros i Hi. rewrite not_elem_of_app, list_elem_of_singleton in Hi. destruct Hi as [Hi Hne]. cbn.
    rewrite lookup_insert_ne by done. by apply Hother.
Qed.

(** A step that does [R] to each track. *)
Lemma eachTrack_rel {B} (f : B -> Z -> Handler B) (R : Track om -> Track om -> Prop) ids s b :
  tracks_ok s -> NoDup ids -> (forall id, id ∈ ids -> is_Some (videoTracks s !! id)) ->
  (forall id c s1 t, id ∈ ids -> runs s s1 -> videoTracks s !! id = Some t -> videoTracks s1 !! id = Some t ->
     exists t' c', f c id s1 = (tracksOf s1 (<[id := t']> (videoTracks s1)), Ok c') /\ evolves t t' /\ R t t') ->
  exists s' b', mfoldl f b ids s = (s', Ok b') /\ runs s s' /\
    (forall id t, id ∈ ids -> videoTracks s !! id = Some t -> exists t', videoTracks s' !! id = Some t' /\ R t t') /\
    (forall id, id ∉ ids -> videoTracks s' !! id = videoTracks s !! id).
Proof.
  intros Hs Hnd Hin Hf. apply (eachTrack_run f (fun pre _ m =>
    forall id t, id ∈ pre -> videoTracks s !! id = Some t -> exists t', m !! id = Some t' /\ R t t')); [done..| |].
  - intros id t Hi. by apply not_elem_of_nil in Hi.
  - intros pre id c s1 t Hi Hni Hr Et Et1 HQ. destruct (Hf id c s1 t Hi Hr Et Et1) as (t' & c' & E & Hev & HR).
    exists t', c'. split; [exact E|]. split; [exact Hev|]. intros i ti Hii Eti. apply elem_of_app in Hii as [Hii|Hii].
    + assert (i <> id) by (intros ->; done). rewrite lookup_insert_ne by done. by apply HQ.
    + apply list_elem_of_singleton in Hii as ->. rewrite lookup_insert_eq. eexists. split; [done|].
      by replace ti with t by congruence.
Qed.

(** ** Preparing and committing *)

Definition prepare t : Track om :=
  t <| tk_forwarder := ProvisionalAllocatePrepare (tk_availableLayers t) (tk_bitrates t) (tk_forwarder t) |>.

Lemma prepare_ok t : track_ok t -> evolves t (prepare t) /\ prepared (prepare t) /\ layerOf (prepare t) = InvalidLayer.
Proof.
  intros [Hi Hm _]. split; [|done]. split; [by destruct t| |done]. by apply ProvisionalAllocatePrepare_inv.
Qed.

Lemma prepareAll_run ids s : tracks_ok s -> NoDup ids -> (forall id, id ∈ ids -> is_Some (videoTracks s !! id)) ->
  exists s', mforeach TrackProvisionalAllocatePrepare ids s = (s', Ok tt) /\ runs s s' /\
    (forall id t, id ∈ ids -> videoTracks s !! id = Some t ->
       exists t', videoTracks s' !! id = Some t' /\ t' = prepare t) /\
    (forall id, id ∉ ids -> videoTracks s' !! id = videoTracks s !! id).
Proof.
  intros Hs Hnd Hin. rewrite mforeach_mfoldl.
  destruct (eachTrack_rel (fun _ x => TrackProvisionalAllocatePrepare x) (fun t t' => t' = prepare t) ids s tt Hs Hnd Hin)
    as (s' & [] & E & Hall); [|by exists s'].
  intros id c s1 t Hi Hr Et Et1. exists (prepare t), tt. unfold TrackProvisionalAllocatePrepare.
  rewrite (onForwarder_run _ id s1 t _ _ Et1 eq_refl). split; [done|]. split; [by apply prepare_ok, (Hs id)|done].
Qed.

(** The bandwidth on record after an allocation. *)
Definition requestedOf t : Z := va_BandwidthRequested (lastAllocation (tk_forwarder t)).

(** A track is sent. *)
Definition active t : bool := IsValid (GetTarget (vls (tk_forwarder t))).

(** A track that settles on no layer: it is muted or sends nothing. *)
Definition idle t (l : VideoLayer) : Prop :=
  IsValid l = false -> muted (tk_forwarder t) = true \/ pubMuted (tk_forwarder t) = true \/
    IsValid (GetCurrent (vls (tk_forwarder t))) = false.

(** What [BandwidthRequested] says of a track. *)
Definition usageOf t : Z := usage (tk_bitrates t) (tk_forwarder t).

(** What a track uses once its layer is committed. *)
Lemma commit_usage t f a : track_ok t -> prepared t -> mime (tk_forwarder t) <> MimeTypeH264 ->
  idle t (layerOf t) ->
  ProvisionalAllocateCommit (tk_forwarder t) = Ok (f, a) ->
  usage (tk_bitrates t) f <= rateTo (tk_bitrates t) (layerOf t).
Proof.
  intros Hok Hp Hm Hidle E. pose proof (to_inv t Hok) as Hi. pose proof (prepared_ok t Hok Hp) as Hprov.
  destruct (ProvisionalAllocateCommit_eq _ _ (ai_fwd _ Hi) Hp) as (optimal & d & _ & Ec). rewrite Ec in E. apply Ok_inj in E.
  set (p := provisionalOf t (layerOf t)) in *. set (al := commitAllocation optimal _ d p) in *.
  set (f0 := allocate _ p (tk_forwarder t)) in *. destruct (updateAllocation_ok al f0) as (_ & E1 & E2 & _).
  rewrite E in E1, E2. cbn [fst] in E1, E2. rewrite stored_other in E1, E2 by exact Hm.
  assert (commitTarget optimal p = layerOf t) as Et.
  { unfold commitTarget. change (vp_allocatedLayer p) with (layerOf t). destruct (IsValid (layerOf t)) eqn:Hv; cbn [negb].
    - by rewrite andb_false_r.
    - destruct (Hidle Hv) as [Hx|[Hx|Hx]]; cbn; rewrite Hx; cbn; rewrite ?orb_true_r, ?andb_false_r; done. }
  unfold usage, needed. rewrite E1, E2. cbn. rewrite Et.
  assert (0 <= commitRequested p <= rateTo (tk_bitrates t) (layerOf t)) as Hreq.
  { destruct (allocatedRate_ok p Hprov) as [_ Ha]. unfold commitRequested.
    change (allocatedRate p) with (rateTo (tk_bitrates t) (layerOf t)) in Ha |- *. case_if; lia. }
  destruct (IsValid (layerOf t)) eqn:Hv; cbn [andb]; [|lia].
  destruct (rate0 (tk_bitrates t) (layerOf t) >? 0); [|lia]. unfold rateTo. by rewrite Hv.
Qed.

Lemma commit_track t : track_ok t -> prepared t ->
  exists f a, ProvisionalAllocateCommit (tk_forwarder t) = Ok (f, a) /\ alloc_inv f /\ same_settings (tk_forwarder t) f /\
    va_BandwidthRequested (lastAllocation f) <= allocatedOf t /\
    (IsValid (layerOf t) = true -> IsValid (GetTarget (vls f)) = true) /\
    (mime (tk_forwarder t) <> MimeTypeH264 -> idle t (layerOf t) -> usage (tk_bitrates t) f <= rateTo (tk_bitrates t) (layerOf t)).
Proof.
  intros Hok Hp. pose proof (fun f a Hm Hidle => commit_usage t f a Hok Hp Hm Hidle) as Hcu. pose proof (to_inv t Hok) as Hi. pose proof (prepared_ok t Hok Hp) as Hprov.
  destruct (commit_keeps _ _ Hi Hp) as (f & E & Hf & _).
  destruct (ProvisionalAllocateCommit_eq _ _ (ai_fwd _ Hi) Hp) as (optimal & d & _ & Ec). rewrite Ec in E. cbn [res_bind] in E.
  apply Ok_inj in E. set (p := provisionalOf t (layerOf t)) in *. set (a := commitAllocation optimal _ d p) in *.
  set (f0 := allocate _ p (tk_forwarder t)) in *. rewrite updateAllocation_eq in Ec.
  exists f, (stored a f0). rewrite <- E. split; [exact Ec|]. split; [by rewrite E|].
  destruct (updateAllocation_ok a f0) as (_ & E1 & E2 & _ & _ & Hss). split; [by destruct Hss; split|]. split; [|split].
  - rewrite E1. assert (va_BandwidthRequested (stored a f0) = commitRequested p) as -> by (unfold stored; by case_if).
    unfold commitRequested, allocatedOf. fold p. case_if; [apply allocatedRate_ok, Hprov|done].
  - intros Hv. rewrite E2, stored_target_valid. cbn. unfold commitTarget. change (vp_allocatedLayer p) with (layerOf t).
    rewrite Hv. cbn [negb andb]. by rewrite andb_false_r.
  - intros Hm Hidle. by eapply Hcu.
Qed.

(** What a commit does to a track. *)
Definition committed t t' : Prop :=
  requestedOf t' <= allocatedOf t /\ (IsValid (layerOf t) = true -> active t' = true) /\
  (mime (tk_forwarder t) <> MimeTypeH264 -> idle t (layerOf t) -> usageOf t' <= rateTo (tk_bitrates t) (layerOf t)).

Lemma commitTracks_run ids update s : tracks_ok s -> NoDup ids -> all_prepared ids s ->
  exists s' update', commitTracks ids update s = (s', Ok update') /\ runs s s' /\
    (forall id t, id ∈ ids -> videoTracks s !! id = Some t ->
       exists t', videoTracks s' !! id = Some t' /\ committed t t') /\
    (forall id, id ∉ ids -> videoTracks s' !! id = videoTracks s !! id).
Proof.
  intros Hs Hnd Hprep. apply (eachTrack_rel _ committed); [done|done| |].
  - intros id Hi. destruct (Hprep id Hi) as (t & -> & _). eauto.
  - intros id u s1 t Hi Hr Et Et1. destruct (Hprep id Hi) as (t' & Et' & Hp). replace t' with t in * by congruence.
    destruct (commit_track t (Hs id t Et) Hp) as (f & a & Ec & Hf & Hss & Hcom).
    destruct (allocated_run (fun _ => ProvisionalAllocateCommit) id u s1 t f a Et1 Ec) as (st & u' & Ea).
    do 2 eexists. split; [exact Ea|]. split; [by apply evolves_step|]. done.
Qed.

(** ** Allocating the managed tracks *)

Lemma in_brs_allLayers : Forall in_brs allLayers.
Proof. apply (bool_decide_unpack _). vm_compute. exact I. Qed.

Lemma elem_of_allLayers l : in_brs l -> l ∈ allLayers.
Proof. intros [Hs Ht]. apply elem_of_cells. by rewrite !elem_of_zrange. Qed.

Definition lowestLayer : VideoLayer := mkLayer 0 0.

Lemma getSorted_run s : exists ids, getSorted s = (s, Ok ids) /\ keysOf IsManaged (videoTracks s) ids.
Proof.
  eexists. split; [done|]. destruct (selectTracks_keys (fun _ => IsManaged) s) as [Hnd Hin].
  pose proof (sort_Sort_perm TrackSorter_Less (selectTracks (fun _ t => IsManaged t) s)) as Hperm.
  apply (Permutation_map fst) in Hperm. change (map fst ?l) with (l.*1) in *. split; [by rewrite Hperm|].
  intros id. rewrite Hperm, list_elem_of_fmap. split.
  - intros ([i t] & -> & Hi). exists t. by apply Hin.
  - intros (t & Ht). exists (id, t). split; [done|]. by apply Hin.
Qed.

Lemma keysOf_length p m ids : keysOf p m ids -> (length ids <= size m)%nat.
Proof.
  intros [Hnd Hin]. rewrite <- (range_keys_length m). apply submseteq_length, NoDup_submseteq; [done|].
  intros id Hi. apply Hin in Hi as (t & E & _). apply range_keys_elem. by rewrite E.
Qed.

Definition few_tracks s : Prop := Z.of_nat (size (videoTracks s)) <= max_tracks.

Lemma allocateManaged_run capacity update s : tracks_ok s -> few_tracks s -> 0 <= capacity < max_capacity ->
  exists s' update', allocateManaged capacity update s = (s', Ok update') /\ runs s s' /\
    (forall id t, videoTracks s !! id = Some t -> IsManaged t = false -> videoTracks s' !! id = Some t) /\
    (allowPause s = true -> total IsManaged requestedOf (videoTracks s') <= capacity) /\
    (forall id t l, videoTracks s !! id = Some t -> IsManaged t = true -> in_brs l -> wants t l = true ->
       allowPause s = false \/ (l = lowestLayer /\ total IsManaged (share l) (videoTracks s) <= capacity) ->
       exists t', videoTracks s' !! id = Some t' /\ active t' = true).
Proof.
  intros Hs Hfew Hc. destruct (getSorted_run s) as (ids & Eids & Hkeys). pose proof Hkeys as [Hnd Hin].
  assert (Z.of_nat (length ids) <= max_tracks) as Hlen by (pose proof (keysOf_length _ _ _ Hkeys); unfold few_tracks in Hfew; lia).
  unfold allocateManaged. rewrite (mbind_eq _ _ _ _ _ Eids).
  destruct (prepareAll_run ids s Hs Hnd) as (s1 & E1 & Hr1 & Hprep1 & Hother1).
  { intros id Hi. apply Hin in Hi as (t & -> & _). eauto. }
  rewrite (mbind_eq _ _ _ _ _ E1). pose proof (runs_ok _ _ Hs Hr1) as Hs1.
  assert (allowPause s1 = allowPause s) as Epause by (by rewrite (ru_state _ _ Hr1)).
  unfold mbind at 1. cbn [mget]. rewrite Epause.
  assert (Hfresh : forall id, id ∈ ids -> exists t, videoTracks s1 !! id = Some t /\ prepared t /\ layerOf t = InvalidLayer).
  { intros id Hi. pose proof Hi as Hi'. apply Hin in Hi' as (t & Et & Hm). destruct (Hprep1 id t Hi Et) as (t' & ? & ->). exists (prepare t). by split_and!. }
  assert (Hzero : sumOver allocatedOf ids (videoTracks s1) = 0).
  { clear -Hfresh. induction ids as [|id ids IH]; cbn [sumOver]; [done|]. destruct (Hfresh id ltac:(by left)) as (t & -> & _ & Hl).
    rewrite IH by (intros i Hi; apply Hfresh; by right). unfold allocatedOf, allocatedRate. cbn. by rewrite Hl. }
  assert (offering (allowPause s) capacity ids s capacity s1) as Hoff.
  { split; [done| |done|lia|lia|lia]. intros id Hi. destruct (Hfresh id Hi) as (t & ? & ? & _). eauto. }
  assert (exists s2 c2, mfoldl (offerLayer (allowPause s) ids) capacity allLayers s1 = (s2, Ok c2) /\
    offering (allowPause s) capacity ids s c2 s2 /\
    (forall id t l, videoTracks s !! id = Some t -> IsManaged t = true -> in_brs l -> wants t l = true ->
       allowPause s = false \/ (l = lowestLayer /\ sumOver (share l) ids (videoTracks s) <= capacity) -> hasLayer s2 id))
    as (s2 & c2 & E2 & Hoff2 & Hgot).
  { destruct (offerLayers_run (allowPause s) capacity ids s Hs Hnd Hlen Hc allLayers capacity s1 in_brs_allLayers Hoff)
      as (s2 & c2 & E2 & Hoff2 & _ & Hall). exists s2, c2. split; [exact E2|]. split; [exact Hoff2|].
    intros id t l Et Hm Hl Hw Hor. assert (id ∈ ids) as Hi by (apply Hin; eauto).
    destruct (allowPause s) eqn:Ep; [|by eapply Hall; [..|by apply elem_of_allLayers| | |]].
    destruct Hor as [?|[-> Hfits]]; [done|].
    destruct (firstLayer_run (allowPause s) capacity ids s Hs Hnd Hlen Hc lowestLayer s1 Ep) as (s3 & c3 & E3 & Hoff3 & Hall3);
      [done|by rewrite Ep| |done|].
    { intros i Hi'. destruct (Hfresh i Hi') as (t' & ? & _ & ?). eauto. }
    rewrite Ep in *. change allLayers with (lowestLayer :: tl allLayers) in E2. cbn [mfoldl] in E2.
    rewrite (mbind_eq _ _ _ _ _ E3) in E2.
    destruct (offerLayers_run true capacity ids s Hs Hnd Hlen Hc (tl allLayers) c3 s3) as (s4 & c4 & E4 & _ & Hmon & _); [|done|].
    { pose proof in_brs_allLayers as Hall'. by inversion Hall'. }
    rewrite E4 in E2. assert (s4 = s2) as <- by congruence. apply Hmon. by eapply Hall3. }
  rewrite (mbind_eq _ _ _ _ _ E2). pose proof (of_runs _ _ _ _ _ _ Hoff2) as Hr2.
  destruct (commitTracks_run ids update s2 (runs_ok _ _ Hs Hr2) Hnd (of_prepared _ _ _ _ _ _ Hoff2))
    as (s3 & u3 & E3 & Hr3 & Hcommit & Hother3).
  assert (Hr : runs s s3) by (by eapply runs_trans).
  exists s3, u3. split; [exact E3|]. split; [exact Hr|]. split_and!.
  - intros id t Et Hm. assert (id ∉ ids) as Hi by (intros Hi; apply Hin in Hi as (t' & ? & ?); congruence).
    by rewrite Hother3, (of_others _ _ _ _ _ _ Hoff2).
  - intros Hp. rewrite (total_keysOf _ _ _ ids) by (by eapply keysOf_runs; [apply IsManaged_stable|..]).
    pose proof (of_exact _ _ _ _ _ _ Hoff2 Hp). pose proof (of_capacity _ _ _ _ _ _ Hoff2).
    enough (sumOver requestedOf ids (videoTracks s3) <= sumOver allocatedOf ids (videoTracks s2)) by lia.
    apply sumOver_le. intros id Hi. destruct (of_prepared _ _ _ _ _ _ Hoff2 id Hi) as (t & Et & _).
    destruct (Hcommit id t Hi Et) as (t' & -> & Hle & _). by rewrite Et.
  - intros id t l Et Hm Hl Hw Hor. rewrite (total_keysOf _ _ _ ids) in Hor by done.
    destruct (Hgot id t l Et Hm Hl Hw Hor) as (t2 & Et2 & Hv). assert (id ∈ ids) as Hi by (apply Hin; eauto).
    destruct (Hcommit id t2 Hi Et2) as (t' & Et' & _ & Hact & _). eauto.
Qed.

(** ** Tracks that are not managed *)

Definition isExempt t : bool := negb (IsManaged t).

Lemma isExempt_stable : stable isExempt.
Proof. intros t t' Hev. unfold isExempt. by rewrite (IsManaged_stable _ _ Hev). Qed.

Lemma optimal_track ov hold t : track_ok t ->
  exists f a, AllocateOptimal (tk_availableLayers t) (tk_bitrates t) ov hold (tk_forwarder t) = Ok (f, a) /\
    alloc_inv f /\ same_settings (tk_forwarder t) f /\ lastAllocation f = a /\ 0 <= va_BandwidthRequested a < max_rate.
Proof.
  intros [Hi Hm Hk]. destruct (AllocateOptimal_ok _ _ ov hold _ (ai_fwd _ Hi) Hm Hk) as (a & E & _ & _ & Hl & Hb & _).
  rewrite updateAllocation_eq in E. do 2 eexists. split; [exact E|].
  destruct (updateAllocation_ok a (tk_forwarder t)) as (_ & E1 & _ & _ & _ & Hss).
  split; [apply alloc_inv_update; [apply Hi|exact Hl|exact Hb]|]. split; [exact Hss|]. split; [exact E1|].
  unfold stored. by case_if.
Qed.

Lemma usage_idle brs (f : Forwarder om) : GetTarget (vls f) = InvalidLayer -> usage brs f = va_BandwidthRequested (lastAllocation f).
Proof. intros E. unfold usage, needed. by rewrite E. Qed.

Lemma pause_track t : track_ok t ->
  exists f a, Pause (tk_availableLayers t) (tk_bitrates t) (tk_forwarder t) = Ok (f, a) /\
    alloc_inv f /\ same_settings (tk_forwarder t) f /\ va_BandwidthRequested (lastAllocation f) = 0 /\
    usage (tk_bitrates t) f = 0.
Proof.
  intros [Hi Hm Hk]. destruct (Pause_eq _ _ _ (ai_fwd _ Hi) Hm) as (o & d & _ & E). cbv zeta in E.
  rewrite updateAllocation_eq in E. do 2 eexists. split; [exact E|].
  match goal with |- alloc_inv (fst (updateAllocation ?x ?f)) /\ _ => set (a := x) in *; destruct (updateAllocation_ok a f) as (_ & E1 & E2 & _ & _ & Hss) end.
  split; [apply alloc_inv_update; [apply Hi|apply layer_ok_invalid|done]|]. split; [exact Hss|].
  assert (va_BandwidthRequested (lastAllocation (fst (updateAllocation a (tk_forwarder t)))) = 0) as Hz by (by rewrite E1).
  split; [exact Hz|]. by rewrite usage_idle.
Qed.

(** The bandwidth of tracks that are not managed, when it is estimated. *)
Definition exemptOf s t : Z :=
  if isExempt t && negb (DisableEstimationUnmanagedTracks (config s)) then requestedOf t else 0.

Lemma allocateExempt_run capacity ids s : tracks_ok s -> NoDup ids -> (forall id, id ∈ ids -> is_Some (videoTracks s !! id)) ->
  Z.of_nat (length ids) <= max_tracks -> 0 <= capacity < max_capacity ->
  exists s' c' u', allocateExempt capacity ids [] s = (s', Ok (c', u')) /\ runs s s' /\
    c' = capacity - sumOver (exemptOf s) ids (videoTracks s') /\ c' <= capacity /\
    (forall id t, videoTracks s !! id = Some t -> IsManaged t = true -> videoTracks s' !! id = Some t).
Proof.
  intros Hs Hnd Hin Hlen Hc. unfold allocateExempt. match goal with |- context [mfoldl ?f _ _] => pose (step := f) end.
  destruct (eachTrack_run step (fun pre (x : Z * StreamStateUpdate) m => NoDup pre /\ pre ⊆ ids /\
      0 <= sumOver (exemptOf s) pre m <= Z.of_nat (length pre) * max_rate /\ fst x = capacity - sumOver (exemptOf s) pre m /\
      (forall id t, videoTracks s !! id = Some t -> IsManaged t = true -> m !! id = Some t)) ids s (capacity, []) Hs Hnd Hin)
    as (s' & [c' u'] & E & Hr & (_ & _ & Hsum & Hc' & Hm) & _).
  - split; [apply NoDup_nil_2|]. split; [apply list_subseteq_nil|]. split; [done|]. split; [cbn; lia|done].
  - intros pre id [c u] s1 t Hi Hni Hr Et Et1 (Hndp & Hincl & Hsum & Ec & Hm). cbn [fst] in Ec.
    assert (length pre <= length ids)%nat as Hlp by (by apply submseteq_length, NoDup_submseteq).
    assert (NoDup (pre ++ [id])) as Hnd'.
    { apply NoDup_app. split; [done|]. split; [|apply NoDup_singleton]. intros x Hx Hxi. apply list_elem_of_singleton in Hxi. by subst x. }
    assert ((pre ++ [id]) ⊆ ids) as Hincl'.
    { intros x Hx. apply elem_of_app in Hx as [Hx|Hx]; [by apply Hincl|]. apply list_elem_of_singleton in Hx. by subst x. }
    assert (Hstep : forall t' c' u', exemptOf s t' = c - c' -> 0 <= c - c' < max_rate -> (IsManaged t = true -> t' = t) ->
      NoDup (pre ++ [id]) /\ (pre ++ [id]) ⊆ ids /\
      0 <= sumOver (exemptOf s) (pre ++ [id]) (<[id := t']> (videoTracks s1)) <= Z.of_nat (length (pre ++ [id])) * max_rate /\
      fst (c', u' : StreamStateUpdate) = capacity - sumOver (exemptOf s) (pre ++ [id]) (<[id := t']> (videoTracks s1)) /\
      (forall id0 t0, videoTracks s !! id0 = Some t0 -> IsManaged t0 = true -> <[id := t']> (videoTracks s1) !! id0 = Some t0)).
    { intros t' c' u' Ee Hd Hk. rewrite sumOver_app, sumOver_notin by done. cbn [sumOver fst]. rewrite lookup_insert_eq. cbn [from_option].
      rewrite length_app. cbn [length]. split_and!; try done; try lia. intros i ti Ei Hmi. destruct (decide (i = id)) as [->|Hne].
      - rewrite lookup_insert_eq. replace ti with t in * by congruence. by rewrite Hk.
      - rewrite lookup_insert_ne by done. by apply Hm. }
    assert (getTrack id s1 = (s1, Ok t)) as Eg by (unfold getTrack, mbind, mget; by rewrite Et1).
    unfold step. cbn beta iota. rewrite (mbind_eq _ _ _ _ _ Eg).
    destruct (IsManaged t) eqn:Hman.
    + exists t, (c, u). rewrite insert_id, tracksOf_same by done. split; [done|]. split; [by apply evolves_refl, (Hs id)|].
      rewrite <- (insert_id (videoTracks s1) id t) by done. apply Hstep; [|unfold max_rate; lia|done].
      unfold exemptOf, isExempt. rewrite Hman. cbn. lia.
    + destruct (optimal_track cFlagAllowOvershootExemptTrackWhileDeficient false t (Hs id t Et)) as (f & a & Ea & Hf & Hss & El & Hb).
      unfold TrackAllocateOptimal. rewrite (mbind_eq _ _ _ _ _ (onForwarder_run (fun t => AllocateOptimal (tk_availableLayers t)
        (tk_bitrates t) cFlagAllowOvershootExemptTrackWhileDeficient false) id s1 t f a Et1 Ea)).
      destruct (updateStreamStateChange_run id a u (tracksOf s1 (<[id := t <| tk_forwarder := f |>]> (videoTracks s1)))
        (t <| tk_forwarder := f |>)) as (st & u' & Eu); [cbn; apply lookup_insert_eq|].
      rewrite (mbind_eq _ _ _ _ _ Eu). unfold mbind, mget, mret.
      rewrite videoTracks_tracksOf, insert_insert_eq, tracksOf_twice. exists (t <| tk_forwarder := f |> <| tk_streamState := st |>).
      assert (config s1 = config s) as Ecfg by (by rewrite (ru_state _ _ Hr)).
      eexists (_, _). split; [reflexivity|].
      split; [by apply evolves_step|].
      assert (isExempt (t <| tk_forwarder := f |> <| tk_streamState := st |>) = true) as Hex.
      { rewrite (isExempt_stable t) by (by apply evolves_step). unfold isExempt. by rewrite Hman. }
      assert (requestedOf (t <| tk_forwarder := f |> <| tk_streamState := st |>) = va_BandwidthRequested a) as Hreq by (unfold requestedOf; cbn; by rewrite El).
      assert (- max_capacity <= c < max_capacity).
      { unfold max_capacity, max_rate, max_tracks in *. lia. }
      apply Hstep; [| |congruence].
      * unfold exemptOf. rewrite Hex, Hreq. cbn [andb]. cbn. rewrite ?Ecfg. destruct (DisableEstimationUnmanagedTracks (config s)); cbn [negb]; [lia|].
        rewrite i64_small; [lia|]. unfold max_capacity, max_rate in *; lia.
      * cbn. rewrite ?Ecfg. destruct (DisableEstimationUnmanagedTracks (config s)); cbn [negb]; [lia|].
        rewrite i64_small; [lia|]. unfold max_capacity, max_rate in *; lia.
  - exists s', c', u'. cbn [fst] in Hc'. split; [exact E|]. split; [exact Hr|]. split; [exact Hc'|]. split; [lia|done].
Qed.

(** ** The whole allocation *)

Lemma pauseManaged_run ids update s : tracks_ok s -> NoDup ids -> (forall id, id ∈ ids -> is_Some (videoTracks s !! id)) ->
  exists s' update', pauseManaged ids update s = (s', Ok update') /\ runs s s' /\
    (forall id t, id ∈ ids -> videoTracks s !! id = Some t ->
       exists t', videoTracks s' !! id = Some t' /\ (if IsManaged t then requestedOf t' = 0 else t' = t)) /\
    (forall id, id ∉ ids -> videoTracks s' !! id = videoTracks s !! id).
Proof.
  intros Hs Hnd Hin. apply (eachTrack_rel _ (fun t t' => if IsManaged t then requestedOf t' = 0 else t' = t)); [done..|].
  intros id u s1 t Hi Hr Et Et1.
  assert (getTrack id s1 = (s1, Ok t)) as Eg by (unfold getTrack, mbind, mget; by rewrite Et1).
  rewrite (mbind_eq _ _ _ _ _ Eg). destruct (IsManaged t) eqn:Hm; cbn [negb].
  - destruct (pause_track t (Hs id t Et)) as (f & a & Ea & Hf & Hss & Hreq & _).
    destruct (allocated_run (fun t => Pause (tk_availableLayers t) (tk_bitrates t)) id u s1 t f a Et1 Ea) as (st & u' & Eu).
    do 2 eexists. split; [exact Eu|]. split; [by apply evolves_step|done].
  - exists t, u. rewrite insert_id, tracksOf_same by done. split; [done|]. split; [by apply evolves_refl, (Hs id)|done].
Qed.

Lemma range_keys_runs s s' : runs s s' -> range_keys (videoTracks s) ≡ₚ range_keys (videoTracks s').
Proof.
  intros [_ Hr]. apply NoDup_Permutation; [apply range_keys_nodup..|]. intros id. rewrite !range_keys_elem.
  specialize (Hr id). inversion Hr; subst; split; intros [? ?]; eauto; congruence.
Qed.

Lemma sumOver_ext g ids m m' : (forall id, id ∈ ids -> from_option g 0 (m !! id) = from_option g 0 (m' !! id)) ->
  sumOver g ids m = sumOver g ids m'.
Proof.
  intros He. induction ids as [|id ids IH]; cbn [sumOver]; [done|]. rewrite (He id) by (by left).
  rewrite IH; [done|]. intros i Hi. apply He. by right.
Qed.

Lemma keysOf_exists p m : exists ids, keysOf p m ids.
Proof.
  exists (filter (fun id => from_option p false (m !! id) = true) (range_keys m)).
  split; [apply NoDup_filter, range_keys_nodup|]. intros id. rewrite list_elem_of_filter, range_keys_elem. split.
  - intros [Hp [t E]]. exists t. by rewrite E in Hp.
  - intros (t & E & Hp). by rewrite E.
Qed.

(** A sum over tracks that stay as they are. *)
Lemma total_same p g s s' : stable p -> runs s s' ->
  (forall id t, videoTracks s !! id = Some t -> p t = true -> videoTracks s' !! id = Some t) ->
  total p g (videoTracks s') = total p g (videoTracks s).
Proof.
  intros Hp Hr Hk. destruct (keysOf_exists p (videoTracks s)) as (ids & Hids).
  rewrite (total_keysOf p g _ ids) by (by eapply keysOf_runs). rewrite (total_keysOf p g _ ids) by done.
  apply sumOver_ext. intros id Hi. apply Hids in Hi as (t & E & Ht). by rewrite (Hk id t E Ht), E.
Qed.

(** The estimate of what the tracks that are not managed take. *)
Definition exemptUsage s m : Z :=
  if DisableEstimationUnmanagedTracks (config s) then 0 else total isExempt requestedOf m.

Lemma exemptUsage_runs s s1 : runs s s1 ->
  sumOver (exemptOf s) (range_keys (videoTracks s)) (videoTracks s1) = exemptUsage s (videoTracks s1).
Proof.
  intros Hr. rewrite (sumOver_perm _ _ _ _ (range_keys_runs _ _ Hr)). unfold exemptUsage, total, exemptOf.
  destruct (DisableEstimationUnmanagedTracks (config s)).
  - induction (range_keys (videoTracks s1)) as [|id ids IH]; cbn [sumOver]; [done|]. rewrite IH.
    destruct (_ !! id); cbn; [|done]. by rewrite andb_false_r.
  - induction (range_keys (videoTracks s1)) as [|id ids IH]; cbn [sumOver]; [done|]. rewrite IH.
    destruct (_ !! id); cbn; [|done]. by rewrite andb_true_r.
Qed.

(** What follows an allocation leaves the tracks alone and sets the state of
    the allocator by whether any of them is deficient. *)
Definition settled s : Prop :=
  state s = if anyDeficient (range_keys (videoTracks s)) s then streamAllocatorStateDeficient else streamAllocatorStateStable.

(** The rest of what decides allocations. *)
Definition control s := (config s, (enabled s, allowPause s), (committedChannelCapacity s, overriddenChannelCapacity s)).

Lemma settle_run update s :
  exists s', (maybeSendUpdate update ;;* adjustState) s = (s', Ok tt) /\ videoTracks s' = videoTracks s /\ settled s' /\
    config s' = config s /\ allowPause s' = allowPause s /\ enabled s' = enabled s /\
    committedChannelCapacity s' = committedChannelCapacity s /\ overriddenChannelCapacity s' = overriddenChannelCapacity s.
Proof.
  assert (Hsend : exists s1, maybeSendUpdate update s = (s1, Ok tt) /\ exists o, s1 = s <| outputs := o |>).
  { destruct update; cbn; eexists; (split; [done|]); [exists (outputs s); by destruct s|by eexists]. }
  destruct Hsend as (s1 & E1 & o & ->). rewrite (mbind_eq _ _ _ _ _ E1).
  unfold adjustState, getTracks, setState, maybeStopProbe, ping, emit, mbind, mget, mmodify, mret. cbn [fst snd].
  case_bool_decide as Hst; [eexists; split; [done|]; by split_and!|].
  unfold settled. destruct (anyDeficient _ _) eqn:Ed.
  - eexists. split; [done|]. cbn. unfold anyDeficient in *. cbn in *. by rewrite Ed.
  - cbn. destruct (activeProbeClusterId s =? ProbeClusterIdInvalid); eexists; (split; [done|]); cbn;
      unfold anyDeficient in *; cbn in *; by rewrite Ed.
Qed.

Lemma settled_deficient s : settled s ->
  state s = streamAllocatorStateDeficient <-> exists id t, videoTracks s !! id = Some t /\ IsDeficientTrack t = true.
Proof.
  unfold settled, anyDeficient. intros ->.
  destruct (existsb _ _) eqn:E.
  - split; [intros _|done]. apply existsb_exists in E as (id & _ & E). destruct (videoTracks s !! id) as [t|] eqn:Et; [|done]. eauto.
  - split; [done|]. intros (id & t & Et & Hd). apply not_true_iff_false in E. destruct E. apply existsb_exists. exists id.
    rewrite Et. split; [|done]. apply list_elem_of_In, range_keys_elem. eauto.
Qed.

Lemma allocateAll_run s : tracks_ok s -> few_tracks s -> enabled s = true ->
  0 <= getAvailableChannelCapacity true s < max_capacity ->
  exists s', allocateAllTracks s = (s', Ok tt) /\ tracks_ok s' /\ settled s' /\
    (forall id, option_Forall2 evolves (videoTracks s !! id) (videoTracks s' !! id)) /\ control s' = control s /\
    let left := Z.max 0 (getAvailableChannelCapacity true s - exemptUsage s (videoTracks s')) in
    (allowPause s = true -> total IsManaged requestedOf (videoTracks s') <= left) /\
    (forall id t l, videoTracks s !! id = Some t -> IsManaged t = true -> in_brs l -> wants t l = true ->
       allowPause s = false \/ (l = lowestLayer /\ total IsManaged (share l) (videoTracks s) <= left) ->
       exists t', videoTracks s' !! id = Some t' /\ active t' = true).
Proof.
  intros Hs Hfew Hen Hc. unfold allocateAllTracks.
  assert (getTracks s = (s, Ok (range_keys (videoTracks s)))) as Eids by done.
  rewrite (mbind_eq mget _ s s s) by done. cbv beta. rewrite Hen. cbn [negb]. rewrite (mbind_eq _ _ _ _ _ Eids).
  destruct (allocateExempt_run (getAvailableChannelCapacity true s) (range_keys (videoTracks s)) s Hs) as (s1 & c1 & u1 & E1 & Hr1 & Ec1 & Hle & Hk1);
    [apply range_keys_nodup|by intros id; rewrite range_keys_elem|by rewrite range_keys_length|done|].
  rewrite exemptUsage_runs in Ec1 by done.
  rewrite (mbind_eq _ _ _ _ _ E1). cbn beta iota zeta.
  pose proof (runs_ok _ _ Hs Hr1) as Hs1.
  assert (allowPause s1 = allowPause s) as Ep1 by (by rewrite (ru_state _ _ Hr1)).
  assert (few_tracks s1) as Hfew1.
  { unfold few_tracks in *. rewrite <- range_keys_length, <- (range_keys_runs _ _ Hr1), range_keys_length. done. }
  assert ((if c1 <? 0 then 0 else c1) = Z.max 0 c1) as -> by (destruct (Z.ltb_spec c1 0); lia).
  set (left0 := Z.max 0 c1).
  assert (exists s2 u2, (if (left0 =? 0) && allowPause s then pauseManaged (range_keys (videoTracks s)) u1 else allocateManaged left0 u1) s1
      = (s2, Ok u2) /\ runs s1 s2 /\
      (forall id t, videoTracks s1 !! id = Some t -> IsManaged t = false -> videoTracks s2 !! id = Some t) /\
      (allowPause s = true -> total IsManaged requestedOf (videoTracks s2) <= left0) /\
      (forall id t l, videoTracks s1 !! id = Some t -> IsManaged t = true -> in_brs l -> wants t l = true ->
         allowPause s = false \/ (l = lowestLayer /\ total IsManaged (share l) (videoTracks s1) <= left0) ->
         exists t', videoTracks s2 !! id = Some t' /\ active t' = true)) as (s2 & u2 & E2 & Hr2 & Hk2 & Hcap & Hact).
  { destruct ((left0 =? 0) && allowPause s) eqn:Epause.
    - apply andb_true_iff in Epause as [E0 Ep]. apply Z.eqb_eq in E0.
      assert (forall id, id ∈ range_keys (videoTracks s) <-> is_Some (videoTracks s1 !! id)) as Hdom
        by (intros id; by rewrite (range_keys_runs _ _ Hr1), range_keys_elem).
      destruct (pauseManaged_run (range_keys (videoTracks s)) u1 s1 Hs1) as (s2 & u2 & E2 & Hr2 & Hall & _);
        [apply range_keys_nodup|by intros id; rewrite Hdom|].
      exists s2, u2. split; [exact E2|]. split; [exact Hr2|]. split_and!.
      + intros id t Et Hm. destruct (Hall id t) as (t' & Et' & Ht'); [by rewrite Hdom, Et|done|]. rewrite Hm in Ht'. by subst t'.
      + intros _. destruct (keysOf_exists IsManaged (videoTracks s1)) as (ids & Hids).
        rewrite (total_keysOf _ _ _ ids) by (by eapply keysOf_runs; [apply IsManaged_stable|..]). rewrite E0.
        assert (forall id, id ∈ ids -> from_option requestedOf 0 (videoTracks s2 !! id) = 0) as Hz.
        { intros id Hi. apply Hids in Hi as (t & Et & Hm). destruct (Hall id t) as (t' & -> & Ht'); [by rewrite Hdom, Et|done|].
          by rewrite Hm in Ht'. }
        clear -Hz. induction ids as [|id ids IH]; cbn [sumOver]; [done|]. rewrite (Hz id) by (by left).
        apply IH. intros i Hi. apply Hz. by right.
      + intros id t l Et Hm Hl Hw [?|[-> Hfit]]; [congruence|]. exfalso. rewrite E0 in Hfit.
        destruct (keysOf_exists IsManaged (videoTracks s1)) as (ids & Hids). rewrite (total_keysOf _ _ _ ids) in Hfit by done.
        assert (id ∈ ids) as Hi by (apply Hids; eauto). apply list_elem_of_split in Hi as (l1 & l2 & ->).
        rewrite sumOver_app in Hfit. cbn [sumOver] in Hfit. rewrite Et in Hfit. cbn [from_option] in Hfit.
        pose proof (share_sum_nonneg s1 lowestLayer l1 Hs1 Hl). pose proof (share_sum_nonneg s1 lowestLayer l2 Hs1 Hl).
        unfold share at 2 in Hfit. rewrite Hw in Hfit. unfold wants in Hw. bool_prop. lia.
    - destruct (allocateManaged_run left0 u1 s1 Hs1 Hfew1) as (s2 & u2 & E2 & H1 & H2 & H3 & H4); [lia|].
      exists s2, u2. rewrite Ep1 in *. by split_and!. }
  rewrite (mbind_eq _ _ _ _ _ E2). destruct (settle_run u2 s2) as (s3 & E3 & Et3 & Hset & C1 & C2 & C3 & C4 & C5).
  exists s3. split; [exact E3|]. pose proof (runs_trans _ _ _ Hr1 Hr2) as Hr.
  split; [unfold tracks_ok; rewrite Et3; by apply (runs_ok s)|]. split; [exact Hset|]. rewrite Et3. split; [apply Hr|].
  split; [unfold control; rewrite C1, C2, C3, C4, C5; by rewrite (ru_state _ _ Hr)|].
  assert (exemptUsage s (videoTracks s2) = exemptUsage s (videoTracks s1)) as ->.
  { unfold exemptUsage. destruct (DisableEstimationUnmanagedTracks _); [done|]. apply total_same; [apply isExempt_stable|done|].
    intros id t Et Hx. apply Hk2; [done|]. unfold isExempt in Hx. by apply negb_true_iff in Hx. }
  cbv zeta. rewrite <- Ec1. fold left0. split; [exact Hcap|]. intros id t l Et Hm Hl Hw Hor.
  rewrite <- (total_same IsManaged (share l) s s1) in Hor by (try done; apply IsManaged_stable).
  apply (Hact id t l); try done. by apply Hk1.
Qed.

(** ** Boosting *)

(** H264 has no temporal layers: the receiver measures none. *)
Definition flat t : Prop :=
  mime (tk_forwarder t) = MimeTypeH264 -> forall l, in_brs l -> 0 < Temporal l -> rate0 (tk_bitrates t) l = 0.

Lemma flat_evolves t t' : evolves t t' -> flat t -> flat t'.
Proof.
  intros Hev Hf. destruct (evolves_fields _ _ Hev) as (_ & Eb & _). destruct Hev as [_ _ [_ Em _ _ _ _ _]].
  unfold flat. by rewrite Eb, Em.
Qed.

Definition targetOf t : VideoLayer := GetTarget (vls (tk_forwarder t)).

(** The rate of the target layer. *)
Definition reserved t : Z := rateTo (tk_bitrates t) (targetOf t).

(** How many layers are above the target. *)
Definition room t : Z := 19 - ((Spatial (targetOf t) + 1) * 5 + (Temporal (targetOf t) + 1)).

Lemma targetOf_ok t : track_ok t -> layer_ok (targetOf t).
Proof. intros [[[(_ & _ & Ht & _) _ _] _] _ _]. exact Ht. Qed.

Lemma room_range t : track_ok t -> 0 <= room t <= 19.
Proof.
  intros Ht. destruct (targetOf_ok t Ht) as [Hs Hl]. unfold room, InvalidLayerSpatial, InvalidLayerTemporal,
    DefaultMaxLayerSpatial, DefaultMaxLayerTemporal in *. lia.
Qed.

Lemma room_greater t t' : track_ok t -> track_ok t' -> GreaterThan (targetOf t') (targetOf t) = true -> room t' < room t.
Proof.
  intros Ht Ht'. destruct (targetOf_ok t Ht) as [Hs Hl]. destruct (targetOf_ok t' Ht') as [Hs' Hl'].
  unfold GreaterThan. rewrite !Z.gtb_ltb. unfold room, InvalidLayerSpatial, InvalidLayerTemporal,
    DefaultMaxLayerSpatial, DefaultMaxLayerTemporal in *. lia.
Qed.

Lemma reserved_range t : track_ok t -> 0 <= reserved t < max_rate.
Proof. intros Ht. apply rateTo_ok; [apply (to_measured t Ht)|by apply targetOf_ok]. Qed.

Lemma usageOf_range t : track_ok t -> 0 <= usageOf t < max_rate.
Proof. intros [[Hf Hu] [Hw _] _]. by apply usage_range. Qed.

Lemma reserved_usage t : track_ok t -> reserved t <= usageOf t.
Proof.
  intros Ht. pose proof (to_inv t Ht) as [_ [Hu _]]. unfold reserved, usageOf, usage, needed, rateTo, targetOf.
  destruct (IsValid _); cbn [andb]; [|done]. rewrite Z.gtb_ltb. destruct (Z.ltb_spec 0 (rate0 (tk_bitrates t) (GetTarget (vls (tk_forwarder t))))); lia.
Qed.

(** A step up of one track. *)
Record boosts (capacity : Z) t t' (delta : Z) : Prop := {
  bo_evolves : evolves t t';
  bo_greater : GreaterThan (targetOf t') (targetOf t) = true;
  bo_delta : delta = reserved t' - reserved t;
  bo_fits : delta <= capacity;
  bo_usage : usageOf t' = reserved t';
}.

Lemma boost_track capacity t : track_ok t -> flat t ->
  exists f a b, AllocateNextHigher capacity (tk_availableLayers t) (tk_bitrates t) cFlagAllowOvershootInCatchup (tk_forwarder t)
      = Ok (f, (a, b)) /\
    if b then boosts capacity t (t <| tk_forwarder := f |>) (va_BandwidthDelta a) else f = tk_forwarder t.
Proof.
  intros Hok Hflat. pose proof Hok as [Hi Hm Hv]. pose proof (ai_fwd _ Hi) as Hf. pose proof Hm as [Hw Hal].
  destruct (AllocateNextHigher_ok capacity _ _ cFlagAllowOvershootInCatchup _ Hf Hm) as (f & a & b & E & Hno & Hyes).
  exists f, a, b. split; [exact E|]. destruct b; [|by apply Hno].
  destruct (Hyes eq_refl) as (_ & _ & l & optimal & d & _ & Hpos & Hin & Hl & Hfit & Hup).
  pose proof (higherRanges_greater cFlagAllowOvershootInCatchup _ Hf (or_introl eq_refl)) as Hgt. rewrite Forall_forall in Hgt.
  apply list_elem_of_join in Hl as (ls & Hl & Hls). specialize (Hgt ls Hls). rewrite Forall_forall in Hgt. specialize (Hgt l Hl).
  match type of Hup with _ = updateAllocation ?x _ => set (alloc := x) in Hup end.
  destruct (updateAllocation_ok alloc (tk_forwarder t)) as (Ea & E1 & E2 & _ & _ & Hs). rewrite <- Hup in Ea, E1, E2, Hs.
  cbn [fst snd] in Ea, E1, E2, Hs.
  assert (stored alloc (tk_forwarder t) = alloc) as Est.
  { unfold stored. cbn. destruct (IsValid l) eqn:Hlv; cbn [andb]; [|done]. case_bool_decide as Emime; [|done].
    assert (Temporal l = 0) as Et0 by (pose proof (proj2 Hin) as Ht; destruct (Z.eq_dec (Temporal l) 0) as [|Hne]; [done|];
      rewrite (Hflat Emime l) in Hpos; [done|exact Hin|lia]). unfold alloc. cbn. destruct l as [ls0 lt0]. cbn in *. by subst lt0. }
  rewrite Est in *. subst a. cbn in E2.
  assert (evolves t (t <| tk_forwarder := f |>)) as Hev.
  { split; [by destruct t| |exact Hs]. cbn. replace f with (fst (f, alloc)) by done. rewrite Hup.
    apply alloc_inv_update; [done|cbn; by apply in_brs_ok|cbn]. by apply rateOf_ok. }
  assert (targetOf (t <| tk_forwarder := f |>) = l) as Et by exact E2.
  assert (reserved (t <| tk_forwarder := f |>) = rate0 (tk_bitrates t) l) as Er.
  { unfold reserved. rewrite Et. unfold rateTo. by rewrite (in_brs_valid l Hin). }
  split; [exact Hev|by rewrite Et| |by apply Hfit|].
  - rewrite Er. cbn. done.
  - rewrite Er. unfold usageOf, usage, needed. change (GetTarget (vls (tk_forwarder (t <| tk_forwarder := f |>)))) with (targetOf (t <| tk_forwarder := f |>)).
    rewrite Et, (in_brs_valid l Hin). cbn [andb]. change (tk_bitrates (t <| tk_forwarder := f |>)) with (tk_bitrates t).
    by rewrite (proj2 (Z.gtb_gt _ 0)) by lia.
Qed.

Definition all_flat s : Prop := map_Forall (fun _ => flat) (videoTracks s).

(** One pass: nothing happens, or one track is boosted. *)
Lemma boostFirst_run capacity ids update s : tracks_ok s -> all_flat s -> (forall id, id ∈ ids -> is_Some (videoTracks s !! id)) ->
  exists s' o update', boostFirst capacity ids update s = (s', Ok (o, update')) /\
    match o with
    | None => s' = s
    | Some delta => exists id t t', videoTracks s !! id = Some t /\ boosts capacity t t' delta /\
        s' = tracksOf s (<[id := t']> (videoTracks s))
    end.
Proof.
  intros Hs Hflat. induction ids as [|id ids IH]; intros Hin; [by exists s, None, update|].
  destruct (Hin id ltac:(by left)) as [t Et]. cbn [boostFirst]. unfold TrackAllocateNextHigher.
  destruct (boost_track capacity t (Hs id t Et) (Hflat id t Et)) as (f & a & b & E & Hb).
  rewrite (mbind_eq _ _ _ _ _ (onForwarder_run (fun t => AllocateNextHigher capacity (tk_availableLayers t) (tk_bitrates t)
    cFlagAllowOvershootInCatchup) id s t f (a, b) Et E)). cbn beta iota. destruct b.
  - destruct (updateStreamStateChange_run id a update (tracksOf s (<[id := t <| tk_forwarder := f |>]> (videoTracks s)))
      (t <| tk_forwarder := f |>)) as (st & u & Eu); [apply lookup_insert_eq|].
    rewrite (mbind_eq _ _ _ _ _ Eu), videoTracks_tracksOf, insert_insert_eq, tracksOf_twice.
    do 3 eexists. split; [done|]. exists id, t, (t <| tk_forwarder := f |> <| tk_streamState := st |>).
    split; [done|]. split; [|done]. destruct Hb as [[H1 H2 H3] H4 H5 H6 H7]. split; [|done..]. by apply evolves_step.
  - subst f. assert (tracksOf s (<[id := t <| tk_forwarder := tk_forwarder t |>]> (videoTracks s)) = s) as ->.
    { replace (t <| tk_forwarder := tk_forwarder t |>) with t by (by destruct t). by rewrite insert_id, tracksOf_same. }
    apply IH. intros i Hi. apply Hin. by right.
Qed.

Lemma withDistances_run l : Forall (fun x => track_ok (snd x)) l -> exists ds, withDistances l = Ok ds /\ map fst ds = map fst l.
Proof.
  induction 1 as [|[id t] l Ht _ (ds & E & Ed)]; [by exists []|]. cbn [withDistances]. unfold withDistance, DistanceToDesiredTrack, DistanceToDesired.
  destruct Ht as [[[(Hm & Hs & _ & _) _ _] _] [Hw Hal] _]. cbn [snd] in *.
  destruct (getDistanceToDesired_ok (muted (tk_forwarder t)) (pubMuted (tk_forwarder t)) (GetMaxSeen (vls (tk_forwarder t)))
    (tk_availableLayers t) (tk_bitrates t) (GetTarget (vls (tk_forwarder t))) (GetMax (vls (tk_forwarder t)))) as (d & ->); [done..|].
  cbn [res_bind]. rewrite E. cbn [res_bind]. eexists. split; [done|]. cbn. by rewrite Ed.
Qed.

Lemma getMaxDistance_run s : tracks_ok s ->
  exists ids, getMaxDistanceSortedDeficient s = (s, Ok ids) /\ forall id, id ∈ ids -> is_Some (videoTracks s !! id).
Proof.
  intros Hs. unfold getMaxDistanceSortedDeficient, mbind, mget.
  destruct (selectTracks_keys (fun _ t => IsManaged t && IsDeficientTrack t) s) as [_ Hin].
  destruct (withDistances_run (selectTracks (fun _ t => IsManaged t && IsDeficientTrack t) s)) as (ds & E & Ed).
  { apply Forall_forall. intros [id t] Hi. apply Hin in Hi as [Et _]. by apply (Hs id). }
  rewrite E. cbn. eexists. split; [done|]. intros id Hi.
  pose proof (sort_Sort_perm MaxDistanceSorter_Less ds) as Hperm. apply (Permutation_map fst) in Hperm.
  change (id ∈ map fst (sort_Sort MaxDistanceSorter_Less ds)) in Hi. rewrite Hperm, Ed in Hi.
  change (map fst ?l) with (l.*1) in Hi. apply list_elem_of_fmap in Hi as ([i t] & -> & Hi). apply Hin in Hi as [Et _]. cbn. by rewrite Et.
Qed.

Section boosting.
Context (s0 : StreamAllocator om) (ids : list Z) (capacity0 : Z).
Context (Hs0 : tracks_ok s0) (Hflat0 : all_flat s0) (Hids : NoDup ids) (Hdom : forall id, id ∈ ids <-> is_Some (videoTracks s0 !! id)).
Context (Hlen : Z.of_nat (length ids) <= max_tracks) (Hcap0 : 0 <= capacity0 < max_capacity).

(** Between two passes of the loop. *)
Record boosting (capacity : Z) s : Prop := {
  bg_runs : runs s0 s;
  bg_capacity : 0 <= capacity;
  bg_reserved : capacity + sumOver reserved ids (videoTracks s) = capacity0 + sumOver reserved ids (videoTracks s0);
  bg_usage : capacity + sumOver usageOf ids (videoTracks s) <= capacity0 + sumOver usageOf ids (videoTracks s0);
  bg_raised id t t' : videoTracks s0 !! id = Some t -> videoTracks s !! id = Some t' ->
    targetOf t' = targetOf t \/ GreaterThan (targetOf t') (targetOf t) = true;
}.

Lemma sumOver_range g c s : 0 <= c -> (forall t, track_ok t -> 0 <= g t <= c) -> tracks_ok s ->
  0 <= sumOver g ids (videoTracks s) <= Z.of_nat (length ids) * c.
Proof.
  intros Hc Hg Hs. apply sumOver_bound; [done|]. intros id t E. by apply Hg, (Hs id).
Qed.

Lemma boosting_step capacity s id t t' delta : boosting capacity s -> videoTracks s !! id = Some t -> boosts capacity t t' delta ->
  i64 (capacity - delta) = capacity - delta /\ boosting (capacity - delta) (tracksOf s (<[id := t']> (videoTracks s))) /\
  sumOver room ids (<[id := t']> (videoTracks s)) < sumOver room ids (videoTracks s).
Proof.
  intros [Hr Hc Hres Hus Hraise] Et [Hev Hgt Hd Hfit Hu]. pose proof (runs_ok _ _ Hs0 Hr) as Hs. pose proof (Hs id t Et) as Hok.
  pose proof (evolves_ok _ _ Hok Hev) as Hok'. pose proof (reserved_range t Hok) as H1. pose proof (reserved_range t' Hok') as H2.
  pose proof (reserved_usage t Hok) as H3.
  assert (id ∈ ids) as Hi.
  { apply Hdom. destruct (runs_lookup_inv _ _ _ _ Hr Et) as (t0 & E0 & _). rewrite E0. eauto. }
  assert (0 <= sumOver reserved ids (videoTracks s0) <= Z.of_nat (length ids) * max_rate) as Hb0.
  { apply sumOver_range; [done| |done]. intros x Hx. pose proof (reserved_range x Hx). lia. }
  assert (0 <= sumOver reserved ids (videoTracks s) <= Z.of_nat (length ids) * max_rate) as Hb1.
  { apply sumOver_range; [done| |done]. intros x Hx. pose proof (reserved_range x Hx). lia. }
  split; [apply i64_small; unfold max_capacity, max_rate, max_tracks in *; lia|]. split.
  - split.
    + eapply runs_trans; [exact Hr|]. by apply (runs_insert s id t).
    + lia.
    + rewrite videoTracks_tracksOf, (sumOver_insert _ id t) by done. lia.
    + rewrite videoTracks_tracksOf, (sumOver_insert _ id t) by done. lia.
    + intros i ti ti' Ei Ei'. rewrite videoTracks_tracksOf in Ei'. destruct (decide (i = id)) as [->|Hne].
      * rewrite lookup_insert_eq in Ei'. apply (inj Some) in Ei'. subst ti'. right.
        destruct (Hraise id ti t Ei Et) as [<-|Hg]; [done|]. by eapply GreaterThan_trans.
      * rewrite lookup_insert_ne in Ei' by done. by apply (Hraise i).
  - rewrite (sumOver_insert _ id t) by done. pose proof (room_greater t t' Hok Hok' Hgt). lia.
Qed.

Lemma boostLoop_run fuel : forall capacity sorted update s, boosting capacity s ->
  (forall id, id ∈ sorted -> is_Some (videoTracks s !! id)) ->
  (match sorted with [] => 2 | _ => 1 end) + sumOver room ids (videoTracks s) <= Z.of_nat fuel ->
  exists s' update' capacity', boostLoop fuel capacity sorted update s = (s', Ok update') /\ boosting capacity' s'.
Proof.
  induction fuel as [|fuel IH]; intros capacity sorted update s Hb Hin Hfuel.
  { exfalso. pose proof (sumOver_range room 19 s ltac:(lia) room_range (runs_ok _ _ Hs0 (bg_runs _ _ Hb))). destruct sorted; lia. }
  pose proof (runs_ok _ _ Hs0 (bg_runs _ _ Hb)) as Hs.
  assert (all_flat s) as Hflat.
  { intros id t E. destruct (runs_lookup_inv _ _ _ _ (bg_runs _ _ Hb) E) as (t0 & E0 & Hev).
    eapply flat_evolves; [done|]. by apply (Hflat0 id). }
  cbn [boostLoop]. destruct (boostFirst_run capacity sorted update s Hs Hflat Hin) as (s1 & o & u1 & E1 & Ho).
  rewrite (mbind_eq _ _ _ _ _ E1). cbn beta iota. destruct o as [delta|].
  - destruct Ho as (id & t & t' & Et & Hbo & ->).
    destruct (boosting_step capacity s id t t' delta Hb Et Hbo) as (Ei & Hb1 & Hroom). rewrite Ei.
    set (s1 := tracksOf s _) in *. destruct (_ && _); [by exists s1, u1, (capacity - delta)|].
    destruct (getMaxDistance_run s1 (runs_ok _ _ Hs0 (bg_runs _ _ Hb1))) as (l & El & Hl). rewrite (mbind_eq _ _ _ _ _ El).
    destruct l as [|x l]; [by exists s1, u1, (capacity - delta)|].
    apply IH; [done|done|]. change (videoTracks s1) with (<[id := t']> (videoTracks s)). destruct sorted; lia.
  - subst s1. destruct sorted as [|x l0]; [|by exists s, u1, capacity].
    rewrite bool_decide_eq_false_2 by (by intros [? ?]). cbn [andb].
    destruct (getMaxDistance_run s Hs) as (l & El & Hl). rewrite (mbind_eq _ _ _ _ _ El).
    destruct l as [|x l]; [by exists s, u1, capacity|]. apply IH; [done|done|lia].
Qed.
End boosting.

(** ** Expected usage *)

Lemma sumBandwidth_run ids s : tracks_ok s -> (forall id, id ∈ ids -> is_Some (videoTracks s !! id)) ->
  Z.of_nat (length ids) <= max_tracks ->
  sumBandwidth ids s = (s, Ok (sumOver usageOf ids (videoTracks s))).
Proof.
  intros Hs Hin Hlen. unfold sumBandwidth. match goal with |- mfoldl ?f _ _ _ = _ => set (step := f) end.
  assert (Hgen : forall x, 0 <= x -> x + Z.of_nat (length ids) * max_rate <= max_tracks * max_rate ->
    mfoldl step x ids s = (s, Ok (x + sumOver usageOf ids (videoTracks s)))).
  { clear Hlen. induction ids as [|id ids IH]; intros x Hx Hb; cbn [mfoldl sumOver]; [by rewrite Z.add_0_r|].
    destruct (Hin id ltac:(by left)) as [t Et].
    assert (step x id s = (s, Ok (i64 (x + usageOf t)))) as E.
    { unfold step, getTrack, mbind, mget, lift, BandwidthRequestedTrack. rewrite Et. cbn.
      destruct (Hs id t Et) as [[Hf _] [Hw _] _]. rewrite (BandwidthRequested_ok _ _ Hf Hw). done. }
    pose proof (usageOf_range t (Hs id t Et)). cbn [length] in Hb.
    rewrite i64_small in E by (unfold max_rate, max_tracks in *; lia).
    rewrite (mbind_eq _ _ _ _ _ E), IH; [|intros i Hi; apply Hin; by right|lia|lia].
    rewrite Et. cbn [from_option]. by rewrite Z.add_assoc. }
  rewrite Hgen; [done|lia|unfold max_rate in *; lia].
Qed.

(** The sum of what the tracks use. *)
Definition expectedUsage s : Z := total (fun _ => true) usageOf (videoTracks s).

Lemma all_keysOf s : keysOf (fun _ => true) (videoTracks s) (range_keys (videoTracks s)).
Proof.
  split; [apply range_keys_nodup|]. intros id. rewrite range_keys_elem. split; [intros [t E]; eauto|intros (t & -> & _); eauto].
Qed.

Lemma expectedUsage_run s : tracks_ok s -> few_tracks s -> getExpectedBandwidthUsage s = (s, Ok (expectedUsage s)).
Proof.
  intros Hs Hfew. unfold getExpectedBandwidthUsage, expectedUsage. rewrite (total_keysOf _ _ _ _ (all_keysOf s)).
  assert (getTracks s = (s, Ok (range_keys (videoTracks s)))) as E by done. rewrite (mbind_eq _ _ _ _ _ E).
  apply sumBandwidth_run; [done|by intros id; rewrite range_keys_elem|by rewrite range_keys_length].
Qed.

Lemma expectedUsage_range s : tracks_ok s -> few_tracks s -> 0 <= expectedUsage s <= max_tracks * max_rate.
Proof.
  intros Hs Hfew. unfold expectedUsage. rewrite (total_keysOf _ _ _ _ (all_keysOf s)).
  pose proof (sumOver_bound usageOf max_rate (range_keys (videoTracks s)) (videoTracks s) ltac:(done)) as Hb.
  rewrite range_keys_length in Hb. unfold few_tracks in Hfew.
  assert (0 <= sumOver usageOf (range_keys (videoTracks s)) (videoTracks s) <= Z.of_nat (size (videoTracks s)) * max_rate).
  { apply Hb. intros id t E. pose proof (usageOf_range t (Hs id t E)). lia. }
  unfold max_rate in *. lia.
Qed.

(** The measurements of a handler's state. *)
Record sa_ok s : Prop := {
  so_tracks : tracks_ok s;
  so_few : few_tracks s;
  so_flat : all_flat s;
  so_committed : committedChannelCapacity s < max_capacity;
  so_overridden : overriddenChannelCapacity s < max_capacity;
  so_min : 0 <= MinChannelCapacity (config s) < max_capacity;
}.

Lemma capacity_range b s : sa_ok s -> 0 <= getAvailableChannelCapacity b s < max_capacity.
Proof.
  intros [_ _ _ Hc Ho Hm]. unfold getAvailableChannelCapacity. rewrite !Z.gtb_ltb.
  destruct (b && _) eqn:E; [apply andb_true_iff in E as [_ E]; lia|].
  destruct (Z.ltb_spec (committedChannelCapacity s) (MinChannelCapacity (config s))); lia.
Qed.

Lemma boost_run s : sa_ok s ->
  exists s', maybeBoostDeficientTracks s = (s', Ok tt) /\
    (forall id, option_Forall2 evolves (videoTracks s !! id) (videoTracks s' !! id)) /\
    config s' = config s /\ allowPause s' = allowPause s /\ enabled s' = enabled s /\
    committedChannelCapacity s' = committedChannelCapacity s /\ overriddenChannelCapacity s' = overriddenChannelCapacity s /\
    (forall id t t', videoTracks s !! id = Some t -> videoTracks s' !! id = Some t' ->
       targetOf t' = targetOf t \/ GreaterThan (targetOf t') (targetOf t) = true) /\
    expectedUsage s' <= Z.max (expectedUsage s) (getAvailableChannelCapacity false s) /\
    (s' = s \/ settled s').
Proof.
  intros Hok. pose proof Hok as [Hs Hfew Hflat _ _ _]. pose proof (capacity_range false s Hok) as Hc.
  pose proof (expectedUsage_range s Hs Hfew) as Hu. set (h := getAvailableChannelCapacity false s - expectedUsage s).
  assert (getAvailableHeadroom false s = (s, Ok h)) as Eh.
  { unfold getAvailableHeadroom. rewrite (mbind_eq mget _ s s s) by done. rewrite (mbind_eq _ _ _ _ _ (expectedUsage_run s Hs Hfew)).
    unfold mret, h. rewrite i64_small; [done|]. unfold max_capacity, max_tracks, max_rate in *. lia. }
  unfold maybeBoostDeficientTracks. rewrite (mbind_eq _ _ _ _ _ Eh). destruct (Z.leb_spec h 0) as [Hle|Hgt].
  { exists s. split; [done|]. split; [apply (runs_refl s Hs)|]. split_and!; try done; [|lia|by left].
    intros id t t' E E'. left. congruence. }
  destruct (getMaxDistance_run s Hs) as (sorted & El & Hl). rewrite (mbind_eq _ _ _ _ _ El). rewrite (mbind_eq mget _ s s s) by done.
  set (ids := range_keys (videoTracks s)). assert (forall id, id ∈ ids <-> is_Some (videoTracks s !! id)) as Hdom by (intros id; apply range_keys_elem).
  assert (Z.of_nat (length ids) <= max_tracks) as Hlen by (unfold ids; by rewrite range_keys_length).
  destruct (boostLoop_run s ids h Hs Hflat (range_keys_nodup _) Hdom Hlen ltac:(unfold h; lia) (boostFuel s) h sorted [] s) as (s1 & u1 & c1 & E1 & Hb).
  - split; [by apply runs_refl|lia|done|done|]. intros id t t' E E'. left. congruence.
  - done.
  - assert (0 <= sumOver room ids (videoTracks s) <= Z.of_nat (size (videoTracks s)) * 19).
    { unfold ids. rewrite <- range_keys_length. apply sumOver_bound; [done|]. intros id t E. by apply room_range, (Hs id). }
    unfold boostFuel. destruct sorted; lia.
  - rewrite (mbind_eq _ _ _ _ _ E1). destruct Hb as [Hr Hc1 _ Hus Hraise].
    destruct (settle_run u1 s1) as (s2 & E2 & Et & Hset & Hcfg & Hp & Hen & Hcom & Hov).
    exists s2. split; [exact E2|]. unfold expectedUsage. rewrite Et, Hcfg, Hp, Hen, Hcom, Hov.
    assert (config s1 = config s /\ allowPause s1 = allowPause s /\ enabled s1 = enabled s /\
      committedChannelCapacity s1 = committedChannelCapacity s /\ overriddenChannelCapacity s1 = overriddenChannelCapacity s)
      as (-> & -> & -> & -> & ->) by (by rewrite (ru_state _ _ Hr)).
    split; [apply Hr|]. do 5 (split; [done|]). split; [exact Hraise|]. split; [|by right].
    rewrite (total_keysOf _ _ _ ids) by (eapply keysOf_runs; [by intros ?|exact Hr|apply all_keysOf]).
    assert (h = getAvailableChannelCapacity false s - sumOver usageOf ids (videoTracks s)) as Hh
      by (unfold h, expectedUsage; by rewrite (total_keysOf _ _ _ _ (all_keysOf s))).
    rewrite (total_keysOf _ _ _ _ (all_keysOf s)). fold ids. lia.
Qed.

(** ** Transitions *)

(** An operation on the provisional state that settles on a layer. *)
Lemma provisional_run {A} (g : Forwarder om -> res fwd_panic (Forwarder om * A)) id s t l a :
  tracks_ok s -> videoTracks s !! id = Some t -> prepared t -> layer_ok l ->
  g (tk_forwarder t) = Ok (allocate l (provisionalOf t (layerOf t)) (tk_forwarder t), a) ->
  let s' := tracksOf s (<[id := offer l t]> (videoTracks s)) in
  onForwarder (fun _ => g) id s = (s', Ok a) /\ runs s s' /\ (forall ids, all_prepared ids s -> all_prepared ids s').
Proof.
  intros Hs Et Hp Hl E s'. split; [exact (onForwarder_run (fun _ => g) id s t _ a Et E)|]. split.
  - apply (runs_insert s id t); [done..|]. apply evolves_offer; [by apply (Hs id)|done|done].
  - intros ids Hids. by apply all_prepared_insert.
Qed.

Lemma getProvisional_prepared t : prepared t -> getProvisional (tk_forwarder t) = Ok (provisionalOf t (layerOf t)).
Proof. intros Hp. unfold getProvisional. by rewrite Hp. Qed.

Lemma reset_run id s t : tracks_ok s -> videoTracks s !! id = Some t -> prepared t ->
  let s' := tracksOf s (<[id := offer InvalidLayer t]> (videoTracks s)) in
  TrackProvisionalAllocateReset id s = (s', Ok tt) /\ runs s s' /\ (forall ids, all_prepared ids s -> all_prepared ids s').
Proof.
  intros Hs Et Hp. apply (provisional_run (fun f => let! f := ProvisionalAllocateReset f in Ok (f, tt))); [done..|apply layer_ok_invalid|].
  unfold ProvisionalAllocateReset. rewrite getProvisional_prepared by done. done.
Qed.

(** The bandwidth a transition from what the track uses to [l] asks for. *)
Definition deltaTo t (l : VideoLayer) : Z := rateTo (tk_bitrates t) l - usageOf t.

Lemma cooperative_run ov id s t : tracks_ok s -> videoTracks s !! id = Some t -> prepared t ->
  exists l, let s' := tracksOf s (<[id := offer l t]> (videoTracks s)) in
  TrackCooperativeTransition ov id s = (s', Ok (mkTransition (targetOf t) l (deltaTo t l))) /\ runs s s' /\
  (forall ids, all_prepared ids s -> all_prepared ids s') /\
  idle t l.
Proof.
  intros Hs Et Hp. pose proof (Hs id t Et) as Hok. pose proof (to_inv t Hok) as Hi.
  destruct (cooperative_ok ov _ _ (ai_fwd _ Hi) Hp) as (l & E & Hl & Hco). exists l.
  destruct (rateTo_ok _ _ (proj1 (to_measured t Hok)) Hl) as [_ Hr]. pose proof (usageOf_range t Hok) as Hu.
  change (usage (vp_bitrates (provisionalOf t (layerOf t))) (tk_forwarder t)) with (usageOf t) in E.
  change (vp_bitrates (provisionalOf t (layerOf t))) with (tk_bitrates t) in E.
  rewrite i64_small in E by (unfold max_rate in *; lia).
  destruct (provisional_run (ProvisionalAllocateGetCooperativeTransition ov) id s t l _ Hs Et Hp Hl E) as (E1 & Hr1 & Hp1).
  split; [exact E1|]. split; [exact Hr1|]. split; [exact Hp1|]. intros Hv. cbn in Hco.
  destruct (muted (tk_forwarder t)); [by left|]. destruct (pubMuted (tk_forwarder t)); [by right; left|]. right. right. cbn in Hco.
  assert (Hmin : minimal ov (provisionalOf t (layerOf t)) (tk_forwarder t) l -> False).
  { intros (_ & Hin & _). by rewrite (in_brs_valid l Hin) in Hv. }
  unfold cooperative in Hco. destruct (IsValid (GetTarget (vls (tk_forwarder t)))) eqn:Htv.
  - destruct Hco as ([[ml b]|] & Ho & Hc); [|by subst l]. cbn beta iota in Hc. destruct (GreaterThan _ ml).
    + subst ml. destruct Ho as (_ & _ & Hu' & _). cbn in Hu'.
      rewrite (in_brs_valid l) in Hv; [done|]. eapply under_in_brs; [|exact Hu'].
      exact (po_max _ (prepared_ok t Hok Hp)).
    + case_if_in Hc; [by subst l|]. subst l. congruence.
  - destruct Hco as [Hm|Hc]; [by destruct (Hmin Hm)|by subst l].
Qed.

(** A track whose streaming is settled: what it sends is not above its
    maximum, and its codec has the layers that are allocated. *)
Definition calm t : Prop :=
  mime (tk_forwarder t) <> MimeTypeH264 /\
  (IsValid (GetCurrent (vls (tk_forwarder t))) = true ->
     under (GetMax (vls (tk_forwarder t))) (GetCurrent (vls (tk_forwarder t)))).

Lemma bestWeighted_run id s t : tracks_ok s -> videoTracks s !! id = Some t -> prepared t ->
  exists l d, let s' := tracksOf s (<[id := offer l t]> (videoTracks s)) in
  TrackBestWeightedTransition id s = (s', Ok (mkTransition (targetOf t) l (- d))) /\ runs s s' /\
  (forall ids, all_prepared ids s -> all_prepared ids s') /\ 0 <= d < max_rate /\ layer_ok l /\
  (calm t -> 0 < d -> d = - deltaTo t l /\ idle t l).
Proof.
  intros Hs Et Hp. pose proof (Hs id t Et) as Hok. pose proof (to_inv t Hok) as Hi.
  destruct (bestWeighted_ok _ _ (ai_fwd _ Hi) (ai_usage _ Hi) Hp) as (l & d & E & Hl & Hd & Hoff). exists l, d.
  destruct (provisional_run ProvisionalAllocateGetBestWeightedTransition id s t l _ Hs Et Hp Hl E) as (E1 & Hr1 & Hp1).
  split; [exact E1|]. split; [exact Hr1|]. split; [exact Hp1|]. split; [exact Hd|]. split; [exact Hl|]. intros [_ Hcur] Hpos.
  unfold bestOffer in Hoff. cbn in Hoff. unfold deltaTo, idle. fold (usageOf t) in Hoff.
  destruct (muted (tk_forwarder t)); cbn [orb] in Hoff; [destruct Hoff as [-> ->]; split; [cbn; lia|intros _; by left]|].
  destruct (pubMuted (tk_forwarder t)); [destruct Hoff as [-> ->]; split; [cbn; lia|intros _; by right; left]|].
  destruct Hoff as [(Hdry & -> & ->)|(mr & best & _ & -> & -> & Hbest & _)].
  - split; [|intros ->; by right; right]. unfold rateTo. destruct (IsValid (GetCurrent _)) eqn:Hv; [|lia].
    rewrite Hdry by (by apply Hcur). lia.
  - destruct Hbest as [->|(l' & Hin & ->)]; [done|]. cbn in *. fold (usageOf t) in *.
    pose proof (lowerLayers_in_brs _ (targetOf_ok t Hok)) as Hlow. rewrite Forall_forall in Hlow. specialize (Hlow l' Hin).
    unfold rateTo. rewrite (in_brs_valid l' Hlow). split; [lia|done].
Qed.

(** ** Redistribution *)

(** What a track gives back by moving to the layer it has been offered. *)
Definition gives t : Z := - deltaTo t (layerOf t).

Definition all_calm (ids : list Z) s : Prop := forall id t, id ∈ ids -> videoTracks s !! id = Some t -> calm t.

Lemma calm_offer l t : calm t -> calm (offer l t).
Proof. done. Qed.

(** What collecting bandwidth from the tracks of [rest] comes to, [new] being
    the ones that contribute. *)
Record acquires (rest : list Z) s s' (acquired acquired' : Z) (new : list Z) : Prop := {
  aq_runs : runs s s';
  aq_nodup : NoDup new;
  aq_sub : new ⊆ rest;
  aq_prepared : all_prepared rest s';
  aq_others i : i ∉ rest -> videoTracks s' !! i = videoTracks s !! i;
  aq_usage i : from_option usageOf 0 (videoTracks s' !! i) = from_option usageOf 0 (videoTracks s !! i);
  aq_calm : all_calm rest s -> all_calm rest s';
  aq_sum : all_calm rest s -> acquired' = acquired + sumOver gives new (videoTracks s');
  aq_idle id t : all_calm rest s -> id ∈ new -> videoTracks s' !! id = Some t -> idle t (layerOf t);
}.

Lemma acquires_nil rest s acquired : tracks_ok s -> all_prepared rest s -> acquires rest s s acquired acquired [].
Proof.
  intros Hs Hp. split; try done; [by apply runs_refl|apply NoDup_nil_2|apply list_subseteq_nil|cbn; lia|].
  intros id t _ Hi. by apply not_elem_of_nil in Hi.
Qed.

(** The track [id] is offered [l], and contributes if that saves something. *)
Lemma acquires_cons id rest s t l (d : Z) acquired acquired' new s2 (b : bool) :
  tracks_ok s -> videoTracks s !! id = Some t -> prepared t -> layer_ok l -> id ∉ rest ->
  let s1 := tracksOf s (<[id := offer l t]> (videoTracks s)) in
  runs s s1 -> (calm t -> b = true -> d = - deltaTo t l /\ idle t l) ->
  acquires rest s1 s2 (if b then acquired + d else acquired) acquired' new ->
  acquires (id :: rest) s s2 acquired acquired' (if b then id :: new else new).
Proof.
  intros Hs Et Hpt Hl Hni s1 Hr1 Hcalm [Hr Hnd Hsub Hp Hoth Hus Hc Hsum Hidle].
  assert (Hid : videoTracks s2 !! id = Some (offer l t)) by (rewrite (Hoth id Hni); apply lookup_insert_eq).
  assert (Hother : forall i, i <> id -> videoTracks s1 !! i = videoTracks s !! i) by (intros i Hne; by apply lookup_insert_ne).
  assert (Hcalm1 : all_calm (id :: rest) s -> all_calm rest s1).
  { intros Hca i ti Hi Ei. rewrite Hother in Ei by (intros ->; done). apply (Hca i); [by right|done]. }
  assert (Hoffer : forall ti, videoTracks s2 !! id = Some ti -> ti = offer l t) by (intros ti; rewrite Hid; intros E; by apply (inj Some) in E).
  split.
  - by eapply runs_trans.
  - destruct b; [|done]. apply NoDup_cons. split; [intros Hi; by apply Hni, Hsub|done].
  - destruct b; set_solver.
  - intros i Hi. apply elem_of_cons in Hi as [->|Hi]; [|by apply Hp]. exists (offer l t). by split.
  - intros i Hi. apply not_elem_of_cons in Hi as [Hne Hi]. by rewrite Hoth, Hother.
  - intros i. rewrite Hus. destruct (decide (i = id)) as [->|Hne]; [|by rewrite Hother].
    change (videoTracks s1) with (<[id := offer l t]> (videoTracks s)). by rewrite lookup_insert_eq, Et.
  - intros Hca i ti Hi Ei. apply elem_of_cons in Hi as [->|Hi]; [|by apply (Hc (Hcalm1 Hca) i)].
    apply Hoffer in Ei as ->. apply calm_offer, (Hca id t); [by left|done].
  - intros Hca. rewrite (Hsum (Hcalm1 Hca)). destruct b; [|done]. cbn [sumOver]. rewrite Hid. cbn [from_option].
    destruct (Hcalm (Hca id t ltac:(by left) Et) eq_refl) as [-> _]. unfold gives at 2. change (layerOf (offer l t)) with l.
    change (deltaTo (offer l t) l) with (deltaTo t l). lia.
  - intros i ti Hca Hi Ei. destruct (decide (i = id)) as [->|Hne].
    + apply Hoffer in Ei as ->. destruct b; [|by destruct Hni; apply Hsub]. by apply Hcalm; [apply (Hca id t); [by left|]|].
    + apply (Hidle i); [by apply Hcalm1|destruct b; [by apply elem_of_cons in Hi as [?|?]|done]|done].
Qed.

Lemma acquire_run needed rest : forall acquired contributing s, tracks_ok s -> NoDup rest -> all_prepared rest s ->
  0 <= acquired -> acquired + Z.of_nat (length rest) * max_rate <= max_tracks * max_rate ->
  exists s' acquired' new, acquire needed acquired contributing rest s = (s', Ok (acquired', contributing ++ new)) /\
    acquires rest s s' acquired acquired' new.
Proof.
  induction rest as [|id rest IH]; intros acquired contributing s Hs Hnd Hp Ha Hb; cbn [acquire].
  { exists s, acquired, []. rewrite app_nil_r. split; [done|by apply acquires_nil]. }
  apply NoDup_cons in Hnd as [Hni Hnd]. destruct (Hp id ltac:(by left)) as (t & Et & Hpt).
  destruct (bestWeighted_run id s t Hs Et Hpt) as (l & d & E1 & Hr1 & Hp1 & Hd & Hl & Hcalm).
  set (s1 := tracksOf s (<[id := offer l t]> (videoTracks s))) in *. rewrite (mbind_eq _ _ _ _ _ E1). cbn [vt_BandwidthDelta].
  pose proof (runs_ok _ _ Hs Hr1) as Hs1. cbn [length] in Hb.
  assert (all_prepared rest s1) as Hp' by (intros i Hi; apply (Hp1 _ Hp); by right).
  destruct (Z.ltb_spec (- d) 0) as [Hpos|Hz].
  - rewrite !i64_small by (rewrite ?i64_small; unfold max_rate, max_tracks in *; lia).
    replace (acquired + - - d) with (acquired + d) by lia. destruct (acquired + d >=? needed).
    + exists s1, (acquired + d), [id]. split; [done|]. apply (acquires_cons id rest s t l d _ _ [] s1 true); try done.
      * intros Hc _. apply Hcalm; [done|lia].
      * by apply acquires_nil.
    + destruct (IH (acquired + d) (contributing ++ [id]) s1 Hs1 Hnd Hp') as (s2 & a2 & new & E2 & Haq); [lia|unfold max_rate in *; lia|].
      exists s2, a2, (id :: new). rewrite <- app_assoc in E2. split; [exact E2|].
      apply (acquires_cons id rest s t l d _ _ new s2 true); try done. intros Hc _. apply Hcalm; [done|lia].
  - destruct (IH acquired contributing s1 Hs1 Hnd Hp') as (s2 & a2 & new & E2 & Haq); [lia|unfold max_rate in *; lia|].
    exists s2, a2, new. split; [exact E2|]. by apply (acquires_cons id rest s t l d _ _ new s2 false).
Qed.
(** Tracks evolve; the rest stays. *)
Record stays s s' : Prop := {
  sy_tracks id : option_Forall2 evolves (videoTracks s !! id) (videoTracks s' !! id);
  sy_control : control s' = control s;
}.

Lemma runs_stays s s' : runs s s' -> stays s s'.
Proof. intros Hr. split; [apply Hr|]. by rewrite (ru_state _ _ Hr). Qed.

Lemma settle_stays update s :
  exists s', (maybeSendUpdate update ;;* adjustState) s = (s', Ok tt) /\ videoTracks s' = videoTracks s /\ settled s' /\
    control s' = control s.
Proof.
  destruct (settle_run update s) as (s' & E & Et & Hset & E1 & E2 & E3 & E4 & E5). exists s'. split; [done|]. split; [done|].
  split; [done|]. unfold control. congruence.
Qed.

Lemma keysOf_domain s s' : stays s s' -> forall id, is_Some (videoTracks s' !! id) <-> is_Some (videoTracks s !! id).
Proof. intros [Hr _] id. specialize (Hr id). inversion Hr; subst; split; intros [? ?]; eauto; congruence. Qed.

(** Sums before and after some tracks give bandwidth back. *)
Lemma sumOver_gives ids new m m' : NoDup ids -> NoDup new -> new ⊆ ids ->
  (forall id, id ∈ new -> from_option usageOf 0 (m' !! id) <= from_option usageOf 0 (m !! id) - from_option gives 0 (m !! id)) ->
  (forall id, id ∉ new -> m' !! id = m !! id) ->
  sumOver usageOf ids m' <= sumOver usageOf ids m - sumOver gives new m.
Proof.
  intros Hnd Hnn Hsub Hnew Hother. destruct (submseteq_Permutation new ids) as (k & Hk); [by apply NoDup_submseteq|].
  rewrite !(sumOver_perm _ _ _ _ Hk), !sumOver_app. rewrite Hk in Hnd. apply NoDup_app in Hnd as (_ & Hdis & _).
  assert (sumOver usageOf k m' = sumOver usageOf k m) as ->.
  { apply sumOver_ext. intros id Hi. by rewrite (Hother id) by (intros Hn; by apply (Hdis id)). }
  enough (sumOver usageOf new m' <= sumOver usageOf new m - sumOver gives new m) by lia.
  clear -Hnew. induction new as [|id new IH]; cbn [sumOver]; [lia|]. pose proof (Hnew id ltac:(by left)).
  specialize (IH ltac:(intros i Hi; apply Hnew; by right)). lia.
Qed.

Lemma getMinDistance_run exclude s : tracks_ok s ->
  exists ids, getMinDistanceSorted exclude s = (s, Ok ids) /\ NoDup ids /\
    forall id, id ∈ ids -> id <> exclude /\ exists t, videoTracks s !! id = Some t /\ IsManaged t = true.
Proof.
  intros Hs. unfold getMinDistanceSorted, mbind, mget.
  destruct (selectTracks_keys (fun id t => IsManaged t && negb (id =? exclude)) s) as [Hnd Hin].
  destruct (withDistances_run (selectTracks (fun id t => IsManaged t && negb (id =? exclude)) s)) as (ds & E & Ed).
  { apply Forall_forall. intros [id t] Hi. apply Hin in Hi as [Et _]. by apply (Hs id). }
  rewrite E. cbn [lift mret]. eexists. split; [done|].
  pose proof (sort_Sort_perm MinDistanceSorter_Less ds) as Hperm. apply (Permutation_map fst) in Hperm.
  rewrite Ed in Hperm. change (map fst (selectTracks ?p s)) with ((selectTracks p s).*1) in Hperm.
  split; [by rewrite Hperm|]. intros id Hi. rewrite Hperm in Hi. apply list_elem_of_fmap in Hi as ([i t] & -> & Hi).
  apply Hin in Hi as [Et Hb]. bool_prop. cbn. eauto.
Qed.

(** The end of a redistribution: the track that asked is committed or paused. *)
Lemma redistribute_last id (commit : bool) update s t : tracks_ok s -> videoTracks s !! id = Some t -> prepared t ->
  exists s' u t', allocated (if commit then TrackProvisionalAllocateCommit else TrackPause) id update s = (s', Ok u) /\
    runs s s' /\ videoTracks s' = <[id := t']> (videoTracks s) /\
    (if commit then committed t t' else usageOf t' = 0).
Proof.
  intros Hs Et Hp. pose proof (Hs id t Et) as Hok. destruct commit.
  - destruct (commit_track t Hok Hp) as (f & a & Ec & Hf & Hss & Hcom).
    destruct (allocated_run (fun _ => ProvisionalAllocateCommit) id update s t f a Et Ec) as (st & u & Ea).
    do 3 eexists. split; [exact Ea|]. split; [apply (runs_insert s id t); [done|done|by apply evolves_step]|done].
  - destruct (pause_track t Hok) as (f & a & Ec & Hf & Hss & _ & Hu).
    destruct (allocated_run (fun t => Pause (tk_availableLayers t) (tk_bitrates t)) id update s t f a Et Ec) as (st & u & Ea).
    do 3 eexists. split; [exact Ea|]. split; [apply (runs_insert s id t); [done|done|by apply evolves_step]|done].
Qed.
Definition calm_managed s : Prop := forall id t, videoTracks s !! id = Some t -> IsManaged t = true -> calm t.

(** What the tracks of [ids] use. *)
Definition usageSum (ids : list Z) s : Z := sumOver usageOf ids (videoTracks s).

(** The other tracks use less by what was needed, or as much as before. *)
Lemma collect_run id needed s : tracks_ok s -> few_tracks s ->
  exists s' enough u, collect id needed s = (s', Ok (enough, u)) /\ runs s s' /\
    videoTracks s' !! id = videoTracks s !! id /\
    (calm_managed s ->
       usageSum (range_keys (videoTracks s)) s' + (if enough then needed else 0) <= usageSum (range_keys (videoTracks s)) s).
Proof.
  intros Hs Hfew. destruct (getMinDistance_run id s Hs) as (ids & E0 & Hnd & Hids).
  assert (Hni : id ∉ ids) by (intros Hi; by apply Hids in Hi as [? _]).
  assert (Hin : forall i, i ∈ ids -> is_Some (videoTracks s !! i)) by (intros i Hi; apply Hids in Hi as (_ & t & -> & _); eauto).
  unfold collect. rewrite (mbind_eq _ _ _ _ _ E0).
  destruct (prepareAll_run ids s Hs Hnd Hin) as (s1 & E1 & Hr1 & Hprep & Hoth1). rewrite (mbind_eq _ _ _ _ _ E1).
  assert (Hp1 : all_prepared ids s1).
  { intros i Hi. destruct (Hin i Hi) as [t Et]. destruct (Hprep i t Hi Et) as (t' & E & ->). by exists (prepare t). }
  pose proof (runs_ok _ _ Hs Hr1) as Hs1.
  assert (Z.of_nat (length ids) <= max_tracks) as Hlen.
  { assert (length ids <= length (range_keys (videoTracks s)))%nat; [|rewrite range_keys_length in *; unfold few_tracks in Hfew; lia].
    apply submseteq_length, NoDup_submseteq; [done|]. intros i Hi. by apply range_keys_elem, Hin. }
  destruct (acquire_run needed ids 0 [] s1 Hs1 Hnd Hp1) as (s2 & acq & new & E2 & [Hr2 Hnn Hsub Hp2 Hoth2 Hus2 Hc2 Hsum Hidle]);
    [done|unfold max_rate in *; lia|].
  rewrite (mbind_eq _ _ _ _ _ E2). cbn [app]. cbn beta iota. pose proof (runs_ok _ _ Hs1 Hr2) as Hs2.
  set (K := range_keys (videoTracks s)).
  assert (Hus : usageSum K s2 = usageSum K s).
  { apply sumOver_ext. intros i _. rewrite Hus2. destruct (decide (i ∈ ids)) as [Hi|Hi]; [|by rewrite Hoth1].
    destruct (Hin i Hi) as [t Et]. destruct (Hprep i t Hi Et) as (t' & -> & ->). by rewrite Et. }
  destruct (acq >=? needed) eqn:En.
  - destruct (commitTracks_run new [] s2 Hs2 Hnn) as (s3 & u & E3 & Hr3 & Hcom & Hoth3); [intros i Hi; by apply Hp2, Hsub|].
    rewrite (mbind_eq _ _ _ _ _ E3). exists s3, true, u. split; [done|].
    split; [eapply runs_trans; [exact Hr1|]; by eapply runs_trans|].
    split; [rewrite Hoth3 by (intros Hi; by apply Hni, Hsub); by rewrite Hoth2, Hoth1|]. intros Hcalm. rewrite <- Hus.
    assert (Hc1 : all_calm ids s1).
    { intros i t Hi Et. destruct (Hids i Hi) as (_ & t0 & Et0 & Hm). destruct (Hprep i t0 Hi Et0) as (t' & Et' & ->).
      replace t with (prepare t0) by congruence. exact (Hcalm i t0 Et0 Hm). }
    pose proof (Hsum Hc1) as Hacq. rewrite Z.add_0_l in Hacq. rewrite Z.geb_leb in En. apply Z.leb_le in En.
    enough (usageSum K s3 <= usageSum K s2 - sumOver gives new (videoTracks s2)) by lia.
    apply sumOver_gives; [apply range_keys_nodup|done| | |done].
    + intros i Hi. apply range_keys_elem, Hin. by apply Hsub.
    + intros i Hi. destruct (Hp2 i (Hsub i Hi)) as (t & Et & _). destruct (Hcom i t Hi Et) as (t' & -> & _ & _ & Hle). rewrite Et. cbn [from_option].
      unfold gives, deltaTo. enough (usageOf t' <= rateTo (tk_bitrates t) (layerOf t)) by lia.
      apply Hle; [apply (Hc2 Hc1 i t (Hsub i Hi) Et)|by apply (Hidle i t)].
  - exists s2, false, []. split; [done|]. split; [by eapply runs_trans|]. split; [by rewrite Hoth2, Hoth1|]. intros _. lia.
Qed.

(** Redistribution: the tracks together use no more than before when tracks
    may be paused, and at most what the track needs more when they may not. *)
Lemma redistribute_run id tx s t : tracks_ok s -> few_tracks s -> videoTracks s !! id = Some t -> prepared t ->
  exists s', redistribute id tx s = (s', Ok tt) /\ stays s s' /\ settled s' /\
    (calm_managed s -> mime (tk_forwarder t) <> MimeTypeH264 -> idle t (layerOf t) ->
     vt_BandwidthDelta tx = deltaTo t (layerOf t) ->
     expectedUsage s' <= expectedUsage s + if allowPause s then 0 else Z.max 0 (vt_BandwidthDelta tx)).
Proof.
  intros Hs Hfew Et Hp. destruct (collect_run id (vt_BandwidthDelta tx) s Hs Hfew) as (s1 & enough & u & E1 & Hr1 & Eid & Hus).
  unfold redistribute. rewrite (mbind_eq _ _ _ _ _ E1). cbn beta iota. rewrite (mbind_eq mget _ s1 s1 s1) by done.
  assert (allowPause s1 = allowPause s) as -> by (by rewrite (ru_state _ _ Hr1)). rewrite Et in Eid.
  destruct (redistribute_last id (negb (allowPause s) || enough) u s1 t (runs_ok _ _ Hs Hr1) Eid Hp) as (s2 & u2 & t' & E2 & Hr2 & Em & Ht').
  rewrite (mbind_eq _ _ _ _ _ E2). destruct (settle_stays u2 s2) as (s3 & E3 & Ev & Hset & Hctl).
  pose proof (runs_trans _ _ _ Hr1 Hr2) as Hr. exists s3. split; [exact E3|]. split; [|split; [exact Hset|]].
  { destruct (runs_stays _ _ Hr) as [H1 H2]. split; [by rewrite Ev|by rewrite Hctl]. }
  intros Hcalm Hm Hidle Hd. specialize (Hus Hcalm).
  unfold expectedUsage. rewrite Ev. set (K := range_keys (videoTracks s)) in *.
  rewrite (total_keysOf _ _ _ K) by (eapply keysOf_runs; [by intros ?|exact Hr|apply all_keysOf]).
  rewrite (total_keysOf _ _ _ K) by apply all_keysOf. rewrite Em.
  rewrite (sumOver_insert _ id t) by (first [done|apply range_keys_nodup|apply range_keys_elem; by rewrite Et]).
  unfold usageSum in Hus. pose proof (usageOf_range t (Hs id t Et)). unfold deltaTo in Hd.
  destruct (allowPause s), enough; cbn [negb orb] in Ht'; [|lia|..].
  all: destruct Ht' as (_ & _ & Hle); specialize (Hle Hm Hidle); lia.
Qed.
(** ** Claims *)

(** C5: when tracks may be paused, the bandwidth given to all managed tracks
    together fits the capacity of the channel less what the tracks that are
    not managed take (nothing, when their estimation is turned off).  The
    handler never fails, and leaves the allocator in the deficient state
    exactly when some track is deficient. *)
Theorem allocate_all_fits_capacity s : sa_ok s -> enabled s = true -> allowPause s = true ->
  exists s', allocateAllTracks s = (s', Ok tt) /\ tracks_ok s' /\
    total IsManaged requestedOf (videoTracks s')
      <= Z.max 0 (getAvailableChannelCapacity true s - exemptUsage s (videoTracks s')) /\
    (state s' = streamAllocatorStateDeficient <-> exists id t, videoTracks s' !! id = Some t /\ IsDeficientTrack t = true).
Proof.
  intros Hok Hen Hp. destruct (allocateAll_run s (so_tracks s Hok) (so_few s Hok) Hen (capacity_range true s Hok))
    as (s' & E & Hs' & Hset & _ & _ & Hcap & _).
  exists s'. split; [done|]. split; [done|]. split; [by apply Hcap|by apply settled_deficient].
Qed.

(** C31: no stream is starved.  When tracks may not be paused, every managed
    track that has some layer it can be given is sent; when they may, the same
    holds of every track that can be given the lowest layer, as soon as the
    lowest layers of all tracks together fit the capacity. *)
Theorem allocate_all_keeps_streams_alive s id t l : sa_ok s -> enabled s = true ->
  videoTracks s !! id = Some t -> IsManaged t = true -> in_brs l -> wants t l = true ->
  exists s', allocateAllTracks s = (s', Ok tt) /\
    (allowPause s = false \/
     (l = lowestLayer /\ total IsManaged (share l) (videoTracks s)
        <= Z.max 0 (getAvailableChannelCapacity true s - exemptUsage s (videoTracks s'))) ->
     exists t', videoTracks s' !! id = Some t' /\ active t' = true).
Proof.
  intros Hok Hen Et Hm Hl Hw. destruct (allocateAll_run s (so_tracks s Hok) (so_few s Hok) Hen (capacity_range true s Hok))
    as (s' & E & _ & _ & _ & _ & _ & Hact).
  exists s'. split; [done|]. exact (Hact id t l Et Hm Hl Hw).
Qed.

(** C30: boosting ends.  Every pass but the last raises the target of one
    deficient track, so the bound of the loop is never reached; targets only
    go up, and what the tracks use afterwards is within the capacity of the
    channel, or is what it was. *)
Theorem boost_terminates s : sa_ok s ->
  exists s', maybeBoostDeficientTracks s = (s', Ok tt) /\
    (forall id t t', videoTracks s !! id = Some t -> videoTracks s' !! id = Some t' ->
       targetOf t' = targetOf t \/ GreaterThan (targetOf t') (targetOf t) = true) /\
    expectedUsage s' <= Z.max (expectedUsage s) (getAvailableChannelCapacity false s).
Proof.
  intros Hok. destruct (boost_run s Hok) as (s' & E & _ & _ & _ & _ & _ & _ & Hraise & Hus & _). by exists s'.
Qed.

(** C32: redistribution is fair to the channel.  A track that cannot be given
    its transition from the headroom takes bandwidth from the tracks closest
    to their desired layers only if they give back at least what it needs;
    then they are committed together, otherwise the track is paused, or
    committed all the same where pausing is not allowed.  The tracks together
    use no more than before where pausing is allowed, and at most what the
    track needs more where it is not.  Assumed: the track is not H264 and
    settles on no layer only when it is muted or sends nothing; and no managed
    track is H264 or still sends a layer above its maximum ([calm_managed];
    such a track is counted for bandwidth it does not give back,
    [AllocationSpec.dry_offer_not_given_back]). *)
Theorem redistribution_keeps_usage id tx s t : sa_ok s -> videoTracks s !! id = Some t -> prepared t ->
  calm_managed s -> mime (tk_forwarder t) <> MimeTypeH264 -> idle t (layerOf t) ->
  vt_BandwidthDelta tx = deltaTo t (layerOf t) ->
  exists s', redistribute id tx s = (s', Ok tt) /\
    expectedUsage s' <= expectedUsage s + (if allowPause s then 0 else Z.max 0 (vt_BandwidthDelta tx)) /\
    tracks_ok s' /\ settled s'.
Proof.
  intros Hok Et Hp Hcalm Hm Hidle Hd.
  destruct (redistribute_run id tx s t (so_tracks s Hok) (so_few s Hok) Et Hp) as (s' & E & [Hst _] & Hset & Hus).
  exists s'. split; [done|]. split; [by apply Hus|]. split; [|done]. intros i t' E'. specialize (Hst i). rewrite E' in Hst.
  inversion Hst as [t0 ? Hev E0|]; subst. eapply evolves_ok; [by apply (so_tracks s Hok i)|done].
Qed.
End spec.

(** ** Examples *)

(** Maps are ranged over in the order of their representation; sorting is by
    insertion. *)
Fixpoint sortedInsert {A} (less : A -> A -> bool) (x : A) (l : list A) : list A :=
  match l with
  | [] => [x]
  | y :: l => if less x y then x :: y :: l else y :: sortedInsert less x l
  end.

#[export] Instance exOrder : GoOrder := {
  range_keys A m := (map_to_list m).*1;
  sort_Sort A less l := foldr (sortedInsert less) [] l;
}.

Lemma sortedInsert_perm {A} (less : A -> A -> bool) x l : sortedInsert less x l ≡ₚ x :: l.
Proof. induction l as [|y l IH]; cbn; [done|]. case_if; [done|]. rewrite IH. apply Permutation_swap. Qed.

#[export] Instance exOrderLaws : GoOrderLaws.
Proof.
  split; [done|]. intros A less l. induction l as [|x l IH]; cbn; [done|]. rewrite sortedInsert_perm. by constructor.
Qed.

(** A camera track of the stream of [ex_brs]. *)
Definition ex_track (f : Forwarder alist) : Track alist := NewTrack f [0; 1; 2] ex_brs (0, 0) TrackSource_OTHER true 7.

Definition ex_sa (pause : bool) (capacity : Z) (ts : list (Z * Track alist)) : StreamAllocator alist :=
  NewStreamAllocator DefaultStreamAllocatorConfig true pause <| videoTracks := list_to_map ts |>
    <| committedChannelCapacity := capacity |> <| state := streamAllocatorStateDeficient |>.

Lemma ex_track_fields f : tk_forwarder (ex_track f) = f /\ tk_availableLayers (ex_track f) = [0; 1; 2] /\
  tk_bitrates (ex_track f) = ex_brs.
Proof. unfold ex_track, NewTrack, SetMaxLayerTrack. by case_if. Qed.

Lemma ex_track_inv f : alloc_inv f -> kind f <> RTPCodecTypeAudio -> track_ok (ex_track f).
Proof.
  intros Hi Hk. destruct (ex_track_fields f) as (E1 & E2 & E3). split; rewrite ?E1, ?E2, ?E3; [done|apply ex_measured|done].
Qed.

Lemma ex_track_ok : track_ok (ex_track ex_fwd).
Proof. apply ex_track_inv; [ex_inv|by vm_compute]. Qed.

(** A stream that was sent [(1, 1)] and is deficient. *)
Definition ex_active : Track alist := ex_track (ex_with (mkLayer 1 1) (mkLayer 1 1) 400 true).

Lemma ex_active_ok : track_ok ex_active.
Proof. apply ex_track_inv; [apply ex_target_inv|by vm_compute]. Qed.

Lemma ex_flat f : mime f <> MimeTypeH264 -> flat (ex_track f).
Proof. intros Hm. unfold flat. by rewrite (proj1 (ex_track_fields f)). Qed.

Lemma ex_sa_ok pause capacity ts : capacity < max_capacity -> Forall (fun x => track_ok (snd x) /\ flat (snd x)) ts ->
  NoDup ts.*1 -> Z.of_nat (length ts) <= max_tracks -> sa_ok (ex_sa pause capacity ts).
Proof.
  intros Hc Hts Hnd Hlen. rewrite Forall_forall in Hts.
  assert (Hall : forall id t, (list_to_map ts : gmap Z (Track alist)) !! id = Some t -> track_ok t /\ flat t).
  { intros id t E. apply elem_of_list_to_map_2 in E. exact (Hts _ E). }
  split; try done.
  - intros id t E. by apply (Hall id).
  - unfold few_tracks. cbn. rewrite <- length_map_to_list, map_to_list_to_map by done. done.
  - intros id t E. by apply (Hall id).
Qed.

Lemma ex_two_ok pause capacity : capacity < max_capacity ->
  sa_ok (ex_sa pause capacity [(1, ex_track ex_fwd); (2, ex_active)]).
Proof.
  intros Hc. apply ex_sa_ok; [done| |apply (bool_decide_unpack _); vm_compute; exact I|done].
  apply Forall_cons. split; [split; [apply ex_track_ok|by apply ex_flat]|].
  apply Forall_singleton. split; [apply ex_active_ok|by apply ex_flat].
Qed.

Lemma allocate_all_fits_capacity_witness :
  let s := ex_sa true 450 [(1, ex_track ex_fwd); (2, ex_active)] in
  exists s', allocateAllTracks s = (s', Ok tt) /\
    total IsManaged requestedOf (videoTracks s') <= Z.max 0 (450 - exemptUsage s (videoTracks s')).
Proof.
  intros s. destruct (allocate_all_fits_capacity s) as (s' & E & _ & Hle & _);
    [by apply ex_two_ok|reflexivity|reflexivity|]. exists s'. split; [exact E|exact Hle].
Defined.

Lemma allocate_all_keeps_streams_alive_witness :
  exists s' t', allocateAllTracks (ex_sa false 0 [(1, ex_track ex_fwd); (2, ex_active)]) = (s', Ok tt) /\
    videoTracks s' !! 1 = Some t' /\ active t' = true.
Proof.
  destruct (allocate_all_keeps_streams_alive (ex_sa false 0 [(1, ex_track ex_fwd); (2, ex_active)]) 1 (ex_track ex_fwd) (mkLayer 0 0))
    as (s' & E & H); [by apply ex_two_ok|done|vm_compute; reflexivity|vm_compute; reflexivity|done|vm_compute; reflexivity|].
  destruct (H (or_introl eq_refl)) as (t' & Et & Ha). exists s', t'. exact (conj E (conj Et Ha)).
Defined.

Lemma boost_terminates_witness :
  exists s', maybeBoostDeficientTracks (ex_sa true 1500 [(1, ex_track ex_fwd); (2, ex_active)]) = (s', Ok tt) /\
    expectedUsage s' <= 1500.
Proof.
  destruct (boost_terminates (ex_sa true 1500 [(1, ex_track ex_fwd); (2, ex_active)])) as (s' & E & _ & Hle); [by apply ex_two_ok|].
  exists s'. split; [exact E|]. etrans; [exact Hle|]. vm_compute. intuition discriminate.
Defined.

Lemma redistribution_keeps_usage_witness :
  let t := offer (mkLayer 0 0) (prepare (ex_track ex_fwd)) in
  let s := ex_sa true 450 [(1, t); (2, ex_active)] in
  exists s', redistribute 1 (mkTransition InvalidLayer (mkLayer 0 0) 100) s = (s', Ok tt) /\ expectedUsage s' <= 400.
Proof.
  intros t s. destruct (redistribution_keeps_usage 1 (mkTransition InvalidLayer (mkLayer 0 0) 100) s t) as (s' & E & Hle & _).
  - apply ex_sa_ok; [done| |apply (bool_decide_unpack _); vm_compute; exact I|done].
    apply Forall_cons. split; [|apply Forall_singleton; split; [apply ex_active_ok|by apply ex_flat]].
    destruct (prepare_ok _ ex_track_ok) as (Hev & Hp & _). pose proof (evolves_ok _ _ ex_track_ok Hev) as Hok.
    pose proof (evolves_offer (mkLayer 0 0) _ Hok Hp ltac:(done)) as Hev2.
    split; [by eapply evolves_ok|]. apply (flat_evolves _ _ Hev2), (flat_evolves _ _ Hev). by apply ex_flat.
  - vm_compute. reflexivity.
  - apply prepared_offer.
  - intros id t0 Et _. apply elem_of_list_to_map_2 in Et.
    apply elem_of_cons in Et as [[= -> ->]|Et]; [|apply list_elem_of_singleton in Et as [= -> ->]];
      (split; [vm_compute; discriminate|vm_compute; intuition discriminate]).
  - vm_compute. discriminate.
  - intros Hv. vm_compute in Hv. discriminate.
  - vm_compute. reflexivity.
  - exists s'. split; [exact E|]. etrans; [exact Hle|]. vm_compute. intuition discriminate.
Defined.

(** The loop of [allocateTrack] that looks for a layer within the headroom
    does not subtract what it has allocated: with a headroom of 150, layers
    of 100, 150, 300 and 400 are taken one after the other. *)
Lemma headroom_taken_repeatedly :
  let s := ex_sa true 150 [(1, ex_track ex_fwd <| tk_streamState := StreamStatePaused |>)] in
  match allocateTrack CongestionStateCongested 1 s with
  | (s', Ok tt) => getAvailableChannelCapacity false s' = 150 /\ expectedUsage s' = 400
  | _ => False
  end.
Proof. vm_compute. split; reflexivity. Qed.
