(* ===== verification/StreamAllocatorEvents.v ===== *)
(** * The event queue of the stream allocator

    Every handler of the queue ends without a panic and leaves a well-formed
    state, whatever the order of the events: the handlers for one track, for
    estimates, pings, probes and the congestion of the channel, and the calls
    that add, remove and change tracks. *)

From S2P Require Import Prelude DdTypes.
From S2P Require Import Packet OrderedMap LayerSelectors Bitrates Forwarder Allocation AllocationSpec.
From S2P Require Import StreamAllocator StreamAllocatorSpec.

Section events.
Context {om : Type -> Type} `{OM : OrderedMap om} `{GL : GoOrderLaws}.
Implicit Types s : StreamAllocator om.
Implicit Types t : Track om.

(** ** States that stay well formed *)

Lemma stays_trans s1 s2 s3 : stays s1 s2 -> stays s2 s3 -> stays s1 s3.
Proof.
  intros [H1 C1] [H2 C2]. split; [|congruence]. intros id. specialize (H1 id). specialize (H2 id).
  inversion H1 as [t1 t2 Ht Ea Eb|Ea Eb]; rewrite <- Eb in H2; inversion H2; subst; constructor. by eapply evolves_trans.
Qed.

Lemma stays_lookup s s' id t' : stays s s' -> videoTracks s' !! id = Some t' ->
  exists t, videoTracks s !! id = Some t /\ evolves t t'.
Proof. intros [Ht _] E. specialize (Ht id). rewrite E in Ht. inversion Ht; subst. eauto. Qed.

Lemma few_domain s s' : (forall id, is_Some (videoTracks s' !! id) <-> is_Some (videoTracks s !! id)) ->
  few_tracks s -> few_tracks s'.
Proof.
  intros Hd. unfold few_tracks. rewrite <- !range_keys_length.
  assert (length (range_keys (videoTracks s')) = length (range_keys (videoTracks s))) as ->; [|done].
  apply Permutation_length, NoDup_Permutation; [apply range_keys_nodup..|]. intros id. by rewrite !range_keys_elem.
Qed.

Lemma stays_sa_ok s s' : sa_ok s -> stays s s' -> sa_ok s'.
Proof.
  intros [Hs Hf Hfl Hc Ho Hm] Hst. pose proof (sy_control _ _ Hst) as Ec. unfold control in Ec.
  apply pair_equal_spec in Ec as [Ea Eb].
  apply pair_equal_spec in Ea as [E1 _]. apply pair_equal_spec in Eb as [E2 E3].
  split; [| | |by rewrite E2|by rewrite E3|by rewrite E1].
  - intros id t' E. destruct (stays_lookup _ _ _ _ Hst E) as (t & Et & Hev). eapply evolves_ok; [by apply (Hs id)|done].
  - eapply few_domain; [|exact Hf]. by apply keysOf_domain.
  - intros id t' E. destruct (stays_lookup _ _ _ _ Hst E) as (t & Et & Hev). eapply flat_evolves; [done|by apply (Hfl id)].
Qed.

(** [h] ends without a panic and keeps the state well formed. *)
Definition safe {A} (h : Handler (om := om) A) : Prop :=
  forall s, sa_ok s -> exists s' a, h s = (s', Ok a) /\ sa_ok s'.

Lemma handlerSafe_bind {A B} (h : Handler A) (k : A -> Handler B) : safe h -> (forall a, safe (k a)) -> safe (let* x := h in k x).
Proof.
  intros Hh Hk s Hs. destruct (Hh s Hs) as (s1 & a & E & Hs1). destruct (Hk a s1 Hs1) as (s2 & b & E2 & Hs2).
  exists s2, b. by rewrite (mbind_eq _ _ _ _ _ E).
Qed.

Lemma handlerSafe_ret {A} (a : A) : safe (mret a).
Proof. intros s Hs. by exists s, a. Qed.

Lemma safe_get {B} (k : StreamAllocator om -> Handler B) : (forall s0, sa_ok s0 -> exists s' b, k s0 s0 = (s', Ok b) /\ sa_ok s') ->
  safe (let* s := mget in k s).
Proof. intros Hk s Hs. rewrite (mbind_eq mget _ s s s) by done. by apply Hk. Qed.

(** Modifications outside the tracks and the capacities. *)
Lemma sa_ok_control s s' : sa_ok s -> videoTracks s' = videoTracks s -> config s' = config s ->
  committedChannelCapacity s' = committedChannelCapacity s -> overriddenChannelCapacity s' = overriddenChannelCapacity s -> sa_ok s'.
Proof.
  intros [] E1 E2 E3 E4. split; unfold tracks_ok, few_tracks, all_flat in *; by rewrite ?E1, ?E2, ?E3, ?E4.
Qed.

Lemma safe_modify (g : StreamAllocator om -> StreamAllocator om) : (forall s, sa_ok s -> sa_ok (g s)) -> safe (mmodify g).
Proof. intros Hg s Hs. exists (g s), tt. split; [done|by apply Hg]. Qed.

Lemma safe_emit o : safe (emit o).
Proof. apply safe_modify. intros s Hs. by apply (sa_ok_control s). Qed.

Lemma safe_maybeStopProbe : safe maybeStopProbe.
Proof. apply safe_get. intros s Hs. case_if; [by apply handlerSafe_ret|by apply safe_emit]. Qed.

Lemma safe_settle update : safe (maybeSendUpdate update ;;* adjustState).
Proof.
  intros s Hs. destruct (settle_stays update s) as (s' & E & Et & _ & Ec). exists s', tt. split; [done|].
  apply (stays_sa_ok s); [done|]. split; [|done]. rewrite Et. apply (runs_refl s), Hs.
Qed.

(** ** One track *)

(** [h] allocates, without a panic. *)
Definition allocates {A} (h : Handler (om := om) A) s : Prop := exists s' a, h s = (s', Ok a) /\ stays s s'.

Lemma prepare_run id s t : tracks_ok s -> videoTracks s !! id = Some t ->
  let s' := tracksOf s (<[id := prepare t]> (videoTracks s)) in
  TrackProvisionalAllocatePrepare id s = (s', Ok tt) /\ runs s s'.
Proof.
  intros Hs Et s'. split; [exact (onForwarder_run _ id s t _ _ Et eq_refl)|].
  apply (runs_insert s id t); [done|done|]. by apply prepare_ok, (Hs id).
Qed.

(** A track under preparation. *)
Definition ready id s : Prop := exists t, videoTracks s !! id = Some t /\ prepared t.

Lemma ready_insert id t s : prepared t -> ready id (tracksOf s (<[id := t]> (videoTracks s))).
Proof. intros Hp. exists t. split; [apply lookup_insert_eq|done]. Qed.

Lemma allocLoop_run capacity pause id ls : forall best s, tracks_ok s -> ready id s -> Forall in_brs ls -> 0 <= capacity < max_capacity ->
  exists s' best', allocLoop capacity pause id best ls s = (s', Ok best') /\ runs s s' /\ ready id s'.
Proof.
  induction ls as [|l ls IH]; intros best s Hs Hr Hls Hc; cbn [allocLoop].
  { exists s, best. split; [done|]. split; [by apply runs_refl|done]. }
  inversion Hls as [|? ? Hl Hls']; subst. destruct Hr as (t & Et & Hp).
  pose proof (offer_run capacity l pause id s t Hs Et Hp Hl Hc) as E. cbv zeta in E. rewrite (mbind_eq _ _ _ _ _ E). cbn beta iota.
  set (b := taken capacity l pause t) in *. set (t' := if b then offer l t else t) in *.
  assert (evolves t t') as Hev.
  { unfold t'. destruct b; [apply evolves_offer; [by apply (Hs id)|done|by apply in_brs_ok]|apply evolves_refl, (Hs id t Et)]. }
  assert (runs s (tracksOf s (<[id := t']> (videoTracks s)))) as Hr1 by (by apply (runs_insert s id t)).
  assert (prepared t') as Hp' by (unfold t'; by destruct b).
  destruct (capacity <? _); [do 2 eexists; split; [done|]; split; [done|by apply ready_insert]|].
  destruct (IH (if b then l else best) (tracksOf s (<[id := t']> (videoTracks s)))) as (s' & best' & E2 & Hr2 & Hready);
    [by apply (runs_ok s)|by apply ready_insert|done|done|].
  exists s', best'. split; [exact E2|]. split; [by eapply runs_trans|done].
Qed.

Lemma commit_allocates id update s : tracks_ok s -> ready id s ->
  exists s' u, allocated TrackProvisionalAllocateCommit id update s = (s', Ok u) /\ runs s s'.
Proof.
  intros Hs (t & Et & Hp). destruct (redistribute_last id true update s t Hs Et Hp) as (s' & u & t' & E & Hr & _). eauto.
Qed.

Lemma settle_allocates update s : tracks_ok s -> allocates (maybeSendUpdate update ;;* adjustState) s.
Proof.
  intros Hs. destruct (settle_stays update s) as (s' & E & Et & _ & Ec). exists s', tt. split; [done|].
  split; [rewrite Et; apply (runs_refl s Hs)|done].
Qed.

Lemma allocates_after {A} (h : Handler (om := om) A) s s1 : stays s s1 -> allocates h s1 -> exists s' a, h s1 = (s', Ok a) /\ stays s s'.
Proof. intros H1 (s' & a & E & H2). exists s', a. split; [done|by eapply stays_trans]. Qed.

Lemma headroomWithout_run id s : sa_ok s -> exists h, getAvailableHeadroomWithoutTracks false [id] s = (s, Ok h) /\ h < max_capacity.
Proof.
  intros Hok. pose proof Hok as [Hs Hfew _ _ _ _]. pose proof (capacity_range false s Hok) as Hc.
  unfold getAvailableHeadroomWithoutTracks, getExpectedBandwidthUsageWithoutTracks, getTracks, mbind, mget, mret.
  set (ids := filter _ (range_keys (videoTracks s))).
  assert (forall i, i ∈ ids -> is_Some (videoTracks s !! i)) as Hin
    by (intros i Hi; apply list_elem_of_filter in Hi as [_ Hi]; by apply range_keys_elem).
  assert (Z.of_nat (length ids) <= max_tracks) as Hlen.
  { pose proof (length_filter (fun i => i ∉ [id]) (range_keys (videoTracks s))) as Hl. fold ids in Hl.
    rewrite range_keys_length in Hl. unfold few_tracks in Hfew. lia. }
  rewrite (sumBandwidth_run ids s Hs Hin Hlen).
  assert (0 <= sumOver usageOf ids (videoTracks s) <= Z.of_nat (length ids) * max_rate) as Hu.
  { apply sumOver_bound; [done|]. intros i t Ei. pose proof (usageOf_range t (Hs i t Ei)). lia. }
  eexists. split; [done|]. rewrite i64_small; unfold max_rate, max_capacity, max_tracks in *; lia.
Qed.

Lemma upgrade_run id tx s : sa_ok s -> ready id s -> allocates (upgrade id tx) s.
Proof.
  intros Hok Hready. pose proof (so_tracks s Hok) as Hs. unfold upgrade.
  destruct (headroomWithout_run id s Hok) as (h & Eh & Hh). unfold allocates. rewrite (mbind_eq _ _ _ _ _ Eh).
  destruct Hready as (t & Et & Hp). rewrite Z.gtb_ltb. destruct (Z.ltb_spec 0 h) as [Hpos|Hneg].
  2: { destruct (redistribute_run id tx s t Hs (so_few s Hok) Et Hp) as (s' & E & Hst & _). by exists s', tt. }
  destruct (reset_run id s t Hs Et Hp) as (E1 & Hr1 & _). set (s1 := tracksOf s _) in *. rewrite (mbind_eq _ _ _ _ _ E1).
  pose proof (runs_ok _ _ Hs Hr1) as Hs1. rewrite (mbind_eq mget _ s1 s1 s1) by done.
  destruct (allocLoop_run h (allowPause s1) id allLayers InvalidLayer s1 Hs1) as (s2 & best & E2 & Hr2 & Hready2);
    [apply ready_insert, prepared_offer|apply in_brs_allLayers|lia|].
  rewrite (mbind_eq _ _ _ _ _ E2). pose proof (runs_ok _ _ Hs1 Hr2) as Hs2. pose proof (runs_trans _ _ _ Hr1 Hr2) as Hr.
  destruct (IsValid best).
  - destruct (GreaterThan best (vt_From tx)).
    + destruct (commit_allocates id [] s2 Hs2 Hready2) as (s3 & u & E3 & Hr3).
      rewrite mbind_assoc, (mbind_eq _ _ _ _ _ E3). apply (allocates_after _ s).
      * eapply stays_trans; [by apply runs_stays|by apply runs_stays].
      * apply settle_allocates. by eapply runs_ok.
    + apply (allocates_after _ s); [by apply runs_stays|]. by apply (settle_allocates []).
  - destruct Hready2 as (t2 & Et2 & Hp2). destruct (reset_run id s2 t2 Hs2 Et2 Hp2) as (E3 & Hr3 & _).
    set (s3 := tracksOf s2 _) in *. rewrite (mbind_eq _ _ _ _ _ E3). pose proof (runs_ok _ _ Hs2 Hr3) as Hs3.
    destruct (ready_insert id (offer InvalidLayer t2) s2 (prepared_offer _ _)) as (t3 & Et3 & Hp3). fold s3 in Et3.
    destruct (cooperative_run cFlagAllowOvershootWhileDeficient id s3 t3 Hs3 Et3 Hp3) as (l & E4 & Hr4 & _ & _).
    set (s4 := tracksOf s3 _) in *. rewrite (mbind_eq _ _ _ _ _ E4).
    destruct (ready_insert id (offer l t3) s3 (prepared_offer _ _)) as (t4 & Et4 & Hp4). fold s4 in Et4.
    assert (stays s s4) as Hst by (apply runs_stays; eapply runs_trans; [exact Hr|]; by eapply runs_trans).
    destruct (redistribute_run id (mkTransition (targetOf t3) l (deltaTo t3 l)) s4 t4) as (s' & E & Hst' & _);
      [by eapply runs_ok|apply (so_few s4), (stays_sa_ok s); done|done|done|].
    exists s', tt. split; [exact E|by eapply stays_trans].
Qed.

(** ** Allocations are safe *)

Lemma safe_boost : safe maybeBoostDeficientTracks.
Proof.
  intros s Hs. destruct (boost_run s Hs) as (s' & E & Ht & E1 & E2 & E3 & E4 & E5 & _). exists s', tt. split; [done|].
  apply (stays_sa_ok s); [done|]. split; [exact Ht|]. unfold control. congruence.
Qed.

Lemma safe_allocateAllTracks : safe allocateAllTracks.
Proof.
  intros s Hs. destruct (enabled s) eqn:Hen.
  - destruct (allocateAll_run s (so_tracks s Hs) (so_few s Hs) Hen (capacity_range true s Hs)) as (s' & E & _ & _ & Ht & Hctl & _).
    exists s', tt. split; [done|]. by apply (stays_sa_ok s).
  - exists s, tt. split; [|done]. unfold allocateAllTracks. rewrite (mbind_eq mget _ s s s) by done. by rewrite Hen.
Qed.

Lemma optimal_allocates ov hold id update s t : tracks_ok s -> videoTracks s !! id = Some t ->
  exists s' u, allocated (TrackAllocateOptimal ov hold) id update s = (s', Ok u) /\ runs s s'.
Proof.
  intros Hs Et. destruct (optimal_track ov hold t (Hs id t Et)) as (f & a & Ea & Hf & Hss & _).
  destruct (allocated_run (fun t => AllocateOptimal (tk_availableLayers t) (tk_bitrates t) ov hold) id update s t f a Et Ea) as (st & u & Eu).
  do 2 eexists. split; [exact Eu|]. apply (runs_insert s id t); [done|done|by apply evolves_step].
Qed.

Lemma runs_sa_ok s s' : sa_ok s -> runs s s' -> sa_ok s'.
Proof. intros Hs Hr. by apply (stays_sa_ok s), runs_stays. Qed.

Lemma maybeSendUpdate_safe update : safe (maybeSendUpdate update).
Proof. unfold maybeSendUpdate. destruct update; [apply handlerSafe_ret|apply safe_emit]. Qed.

Lemma downgrade_safe id s : sa_ok s -> ready id s -> exists s', downgrade id s = (s', Ok tt) /\ sa_ok s'.
Proof.
  intros Hok Hready. unfold downgrade. destruct (commit_allocates id [] s (so_tracks s Hok) Hready) as (s1 & u & E1 & Hr1).
  rewrite (mbind_eq _ _ _ _ _ E1). destruct (safe_settle u s1 (runs_sa_ok _ _ Hok Hr1)) as (s2 & [] & E2 & Hok2).
  rewrite <- mbind_assoc. rewrite (mbind_eq _ _ _ _ _ E2). destruct (safe_boost s2 Hok2) as (s3 & [] & E3 & Hok3). by exists s3.
Qed.

Lemma allocateTrack_safe congestion id s : sa_ok s -> is_Some (videoTracks s !! id) ->
  exists s', allocateTrack congestion id s = (s', Ok tt) /\ sa_ok s'.
Proof.
  intros Hok0 Hin0. unfold allocateTrack.
  assert (exists s1, maybeStopProbe s = (s1, Ok tt) /\ sa_ok s1 /\ videoTracks s1 = videoTracks s) as (s1 & E1 & Hok & Ev).
  { unfold maybeStopProbe. rewrite (mbind_eq mget _ s s s) by done. case_if; [by exists s|]. eexists. split; [done|].
    split; [|done]. by apply (sa_ok_control s). }
  rewrite (mbind_eq _ _ _ _ _ E1). rewrite (mbind_eq mget _ s1 s1 s1) by done.
  assert (is_Some (videoTracks s1 !! id)) as [t Et] by (by rewrite Ev). clear E1 Ev Hok0 Hin0 s. rename s1 into s.
  assert (getTrack id s = (s, Ok t)) as Eg by (unfold getTrack, mbind, mget; by rewrite Et).
  rewrite (mbind_eq _ _ _ _ _ Eg). pose proof (so_tracks s Hok) as Hs. destruct (_ || _ || _).
  - destruct (optimal_allocates cFlagAllowOvershootWhileOptimal (isHoldableCongestionState congestion) id [] s t Hs Et) as (s1 & u & E1 & Hr1).
    rewrite (mbind_eq _ _ _ _ _ E1). destruct (maybeSendUpdate_safe u s1 (runs_sa_ok _ _ Hok Hr1)) as (s2 & [] & E2 & Hok2). by exists s2.
  - destruct (prepare_run id s t Hs Et) as (E1 & Hr1). set (s1 := tracksOf s _) in *. rewrite (mbind_eq _ _ _ _ _ E1).
    pose proof (runs_ok _ _ Hs Hr1) as Hs1. destruct (ready_insert id (prepare t) s eq_refl) as (t1 & Et1 & Hp1). fold s1 in Et1.
    destruct (cooperative_run cFlagAllowOvershootWhileDeficient id s1 t1 Hs1 Et1 Hp1) as (l & E2 & Hr2 & _).
    set (s2 := tracksOf s1 _) in *. rewrite (mbind_eq _ _ _ _ _ E2).
    assert (ready id s2) as Hready by (apply ready_insert, prepared_offer).
    assert (sa_ok s2) as Hok2 by (eapply runs_sa_ok; [|exact Hr2]; by eapply runs_sa_ok).
    cbn [vt_From vt_To]. destruct (GreaterThan _ l); [by apply downgrade_safe|]. case_bool_decide; [by exists s2|].
    destruct (upgrade_run id (mkTransition (targetOf t1) l (deltaTo t1 l)) s2 Hok2 Hready) as (s3 & [] & E3 & Hst).
    exists s3. split; [exact E3|]. by apply (stays_sa_ok s2).
Qed.

(** A track replaced by one that is well formed. *)
Lemma sa_ok_insert s id t t' : sa_ok s -> videoTracks s !! id = Some t -> track_ok t' -> flat t' ->
  sa_ok (tracksOf s (<[id := t']> (videoTracks s))).
Proof.
  intros [Hs Hf Hfl Hc Ho Hm] Et Hok Hflat. split; try done.
  - by apply map_Forall_insert_2.
  - apply (few_domain s); [|done]. intros i. cbn. rewrite lookup_insert_is_Some. destruct (decide (id = i)) as [<-|Hne]; [|naive_solver].
    split; [eauto|by left].
  - by apply map_Forall_insert_2.
Qed.

(** A method of a track that leaves its forwarder and measurements alone. *)
Lemma onTrack_safe {A} (g : Track om -> Track om * A) id s t : sa_ok s -> videoTracks s !! id = Some t ->
  (forall t, track_ok t -> flat t -> track_ok (fst (g t)) /\ flat (fst (g t))) ->
  exists s' a, onTrack g id s = (s', Ok a) /\ sa_ok s' /\ (forall i, is_Some (videoTracks s' !! i) <-> is_Some (videoTracks s !! i)).
Proof.
  intros Hok Et Hg. destruct (Hg t) as [H1 H2]; [by apply (so_tracks s Hok id)|by apply (so_flat s Hok id)|].
  destruct (g t) as [t' a] eqn:E. exists (tracksOf s (<[id := t']> (videoTracks s))), a. split; [|split].
  - unfold onTrack, getTrack, setTrack, mbind, mget, mmodify. rewrite Et. cbn. by rewrite E.
  - by apply (sa_ok_insert s id t).
  - intros i. cbn. rewrite lookup_insert_is_Some. destruct (decide (id = i)) as [<-|Hne]; [|naive_solver]. rewrite Et. naive_solver.
Qed.

Lemma track_ok_ext t t' : tk_forwarder t' = tk_forwarder t -> tk_availableLayers t' = tk_availableLayers t ->
  tk_bitrates t' = tk_bitrates t -> track_ok t -> flat t -> track_ok t' /\ flat t'.
Proof. intros E1 E2 E3 [H1 H2 H3] H4. split; [split|unfold flat]; by rewrite ?E1, ?E2, ?E3. Qed.

Lemma SetDirty_keeps b t : track_ok t -> flat t -> track_ok (fst (SetDirty b t)) /\ flat (fst (SetDirty b t)).
Proof. intros. apply (track_ok_ext t); try done; unfold SetDirty; by case_if. Qed.

Lemma SetPriority_keeps p t : track_ok t -> flat t -> track_ok (fst (SetPriority p t)) /\ flat (fst (SetPriority p t)).
Proof. intros. apply (track_ok_ext t); try done; unfold SetPriority; cbv zeta;
  by destruct (p =? 0), (tk_source t), (tk_priority t =? _). Qed.

Lemma SetMaxLayer_keeps l t : track_ok t -> flat t -> track_ok (fst (SetMaxLayerTrack l t)) /\ flat (fst (SetMaxLayerTrack l t)).
Proof. intros. apply (track_ok_ext t); try done; unfold SetMaxLayerTrack; by case_if. Qed.

Lemma GetNackDelta_keeps t : track_ok t -> flat t -> track_ok (fst (GetNackDelta t)) /\ flat (fst (GetNackDelta t)).
Proof. intros. apply (track_ok_ext t); try done; unfold GetNackDelta; by destruct (tk_nackStats t). Qed.

(** ** Handlers *)

Lemma safe_AllocateTrack congestion id : safe (handleSignalAllocateTrack congestion id).
Proof.
  apply safe_get. intros s Hs. destruct (videoTracks s !! id) as [t|] eqn:Et; [|by apply handlerSafe_ret].
  destruct (onTrack_safe _ id s t Hs Et (SetDirty_keeps false)) as (s1 & b & E & Hs1 & Hd).
  destruct (allocateTrack_safe congestion id s1 Hs1) as (s2 & E2 & Hs2); [apply Hd; by rewrite Et|].
  exists s2, tt. by rewrite (mbind_eq _ _ _ _ _ E).
Qed.

Lemma safe_AllocateAllTracks : safe handleSignalAllocateAllTracks.
Proof.
  apply handlerSafe_bind; [apply safe_modify; intros s Hs; by apply (sa_ok_control s)|]. intros _.
  apply safe_get. intros s Hs. case_if; [by apply safe_allocateAllTracks|by apply handlerSafe_ret].
Qed.

Lemma getTracks_bind {B} (k : list Z -> Handler (om := om) B) s : (let* ids := getTracks in k ids) s = k (range_keys (videoTracks s)) s.
Proof. done. Qed.

Lemma safe_getNackDelta : safe getNackDelta.
Proof.
  intros s Hs. unfold getNackDelta. rewrite getTracks_bind.
  destruct (mfoldl_inv (fun '(aggPacketDelta, aggRepeatedNackDelta) id => let* d := onTrack GetNackDelta id in
      mret (u32 (aggPacketDelta + fst d), u32 (aggRepeatedNackDelta + snd d)))
    (fun (_ : Z * Z) s1 => sa_ok s1 /\ forall i, is_Some (videoTracks s1 !! i) <-> is_Some (videoTracks s !! i)) (range_keys (videoTracks s)))
    with (b := (0, 0)) (s := s) as (s' & a & E & H' & _); [|done|by exists s', a].
  intros [x y] id s1 Hid [Hs1 Hd]. apply range_keys_elem in Hid. apply Hd in Hid as [t Et].
  destruct (onTrack_safe GetNackDelta id s1 t Hs1 Et GetNackDelta_keeps) as (s2 & d & E & Hs2 & Hd2).
  do 2 eexists. rewrite (mbind_eq _ _ _ _ _ E). split; [done|]. split; [done|]. intros i. by rewrite Hd2.
Qed.

Lemma safe_expectedUsage : safe getExpectedBandwidthUsage.
Proof. intros s Hs. exists s, (expectedUsage s). split; [apply expectedUsage_run; apply Hs|done]. Qed.

Lemma safe_Estimate e : safe (handleSignalEstimate e).
Proof.
  apply handlerSafe_bind; [apply safe_getNackDelta|]. intros d. apply handlerSafe_bind; [apply safe_expectedUsage|]. intros u. apply safe_emit.
Qed.

Lemma maxDistance_safe {A} (k : list Z -> Handler A) :
  (forall s ids, sa_ok s -> (forall id, id ∈ ids -> is_Some (videoTracks s !! id)) -> exists s' a, k ids s = (s', Ok a) /\ sa_ok s') ->
  safe (let* ids := getMaxDistanceSortedDeficient in k ids).
Proof.
  intros Hk s Hs. destruct (getMaxDistance_run s (so_tracks s Hs)) as (ids & E & Hin). rewrite (mbind_eq _ _ _ _ _ E). by apply Hk.
Qed.

Lemma nextHigher_track capacity ov t : track_ok t ->
  exists f a b, AllocateNextHigher capacity (tk_availableLayers t) (tk_bitrates t) ov (tk_forwarder t) = Ok (f, (a, b)) /\
    evolves t (t <| tk_forwarder := f |>).
Proof.
  intros [Hi Hm Hv]. destruct (AllocateNextHigher_ok capacity _ _ ov _ (ai_fwd _ Hi) Hm) as (f & a & b & E & Hno & Hyes).
  exists f, a, b. split; [exact E|]. destruct (nextHigher_keeps capacity _ _ ov _ Hi Hm) as (f' & E' & Hf & _).
  rewrite E in E'. cbn [res_bind fst] in E'. apply Ok_inj in E'. subst f'. split; [by destruct t|exact Hf|].
  destruct b.
  - destruct (Hyes eq_refl) as (_ & _ & l & optimal & d & _ & _ & _ & _ & _ & Hup). cbn.
    replace f with (fst (f, a)) by done. rewrite Hup. apply same_settings_update.
  - destruct (Hno eq_refl) as [-> _]. apply same_settings_refl.
Qed.

Lemma probeMedia_safe ids s : sa_ok s -> (forall id, id ∈ ids -> is_Some (videoTracks s !! id)) ->
  exists s' a, probeMedia ids s = (s', Ok a) /\ sa_ok s'.
Proof.
  revert s. induction ids as [|id ids IH]; intros s Hs Hin; [by apply handlerSafe_ret|]. cbn [probeMedia].
  destruct (Hin id ltac:(by left)) as [t Et].
  destruct (nextHigher_track cChannelCapacityInfinity cFlagAllowOvershootInBoost t (so_tracks s Hs id t Et)) as (f & a & b & E & Hev).
  unfold TrackAllocateNextHigher. rewrite (mbind_eq _ _ _ _ _ (onForwarder_run (fun t => AllocateNextHigher cChannelCapacityInfinity
    (tk_availableLayers t) (tk_bitrates t) cFlagAllowOvershootInBoost) id s t f (a, b) Et E)). cbn beta iota.
  set (t1 := t <| tk_forwarder := f |>) in *. set (s1 := tracksOf s (<[id := t1]> (videoTracks s))).
  assert (runs s s1) as Hr1 by (apply (runs_insert s id t); [apply Hs|done|done]). pose proof (runs_sa_ok _ _ Hs Hr1) as Hs1.
  destruct b; cbn [negb].
  - destruct (updateStreamStateChange_run id a [] s1 t1) as (st & u & Eu); [apply lookup_insert_eq|].
    rewrite (mbind_eq _ _ _ _ _ Eu). assert (sa_ok (tracksOf s1 (<[id := t1 <| tk_streamState := st |>]> (videoTracks s1)))) as Hs2.
    { apply (sa_ok_insert s1 id t1); [done|apply lookup_insert_eq|..];
        (apply (track_ok_ext t1); [done..|apply (so_tracks s1 Hs1 id), lookup_insert_eq|apply (so_flat s1 Hs1 id), lookup_insert_eq]). }
    apply (handlerSafe_bind (maybeSendUpdate u) (fun _ => emit OutBWEReset)); [apply maybeSendUpdate_safe|intros _; apply safe_emit|done].
  - apply IH; [done|]. intros i Hi. destruct (Hin i ltac:(by right)) as [ti Ei].
    destruct (runs_lookup _ _ _ _ Hr1 Ei) as (t' & E' & _). eauto.
Qed.

Lemma GetNextHigherTransition_ok brs ov (f : Forwarder om) : fwd_ok f -> wf_brs brs ->
  exists x, GetNextHigherTransition brs ov f = Ok x.
Proof.
  intros Hf Hw. unfold GetNextHigherTransition. destruct (_ || _); [eauto|].
  destruct (alreadyAllocated_ok brs f Hf Hw) as [-> _]. cbn [res_bind].
  destruct (res_find_ok (findNextHigher brs (rateTo brs (GetTarget (vls f))) (GetTarget (vls f))) (higherRanges ov f)) as (o & ->);
    [|by eexists].
  eapply Forall_impl; [apply (higherRanges_in_brs ov f Hf)|]. intros ls Hls. apply res_find_ok.
  eapply Forall_impl; [exact Hls|]. intros l Hl. cbv beta in Hl |- *. destruct (rateOf_ok brs l Hw Hl) as [-> _]. by eexists.
Qed.

Lemma probePadding_safe ids s : sa_ok s -> (forall id, id ∈ ids -> is_Some (videoTracks s !! id)) ->
  exists s' a, probePadding ids s = (s', Ok a) /\ sa_ok s'.
Proof.
  intros Hs. induction ids as [|id ids IH]; intros Hin; [by apply handlerSafe_ret|]. cbn [probePadding].
  destruct (Hin id ltac:(by left)) as [t Et]. pose proof (so_tracks s Hs id t Et) as [[Hf _] [Hw _] _].
  destruct (GetNextHigherTransition_ok (tk_bitrates t) cFlagAllowOvershootInProbe _ Hf Hw) as ([tx b] & E).
  assert (TrackGetNextHigherTransition cFlagAllowOvershootInProbe id s = (s, Ok (tx, b))) as E1.
  { unfold TrackGetNextHigherTransition, getTrack, mbind, mget. rewrite Et. cbn [mret]. by rewrite E. }
  rewrite (mbind_eq _ _ _ _ _ E1). cbn beta iota. destruct (_ || _); [apply IH; intros i Hi; apply Hin; by right|].
  apply safe_get; [|done]. intros s0 Hs0. apply (handlerSafe_bind getExpectedBandwidthUsage); [apply safe_expectedUsage|intros u; apply safe_emit|done].
Qed.

Lemma safe_adjustState : safe adjustState.
Proof. exact (safe_settle []). Qed.

Lemma safe_maybeProbe b : safe (maybeProbe b).
Proof.
  apply safe_get. intros s Hs. case_if; [by apply handlerSafe_ret|]. case_if; [by apply handlerSafe_ret|].
  destruct (cfg_ProbeMode (config s)).
  - apply (maxDistance_safe probePadding); [|done]. intros s1 ids H1 H2. by apply probePadding_safe.
  - apply (handlerSafe_bind maybeProbeWithMedia (fun _ => adjustState)); [|intros _; apply safe_adjustState|done].
    apply (maxDistance_safe probeMedia). intros s1 ids H1 H2. by apply probeMedia_safe.
  - by apply handlerSafe_ret.
Qed.

(** The capacity an estimator reports is an amount. *)
Definition ping_ok (p : PingAnswers) : Prop :=
  match pa_finalized p with Some (_, capacity) => capacity < max_capacity | None => True end.

Lemma sa_ok_committed c s : c < max_capacity -> sa_ok s -> sa_ok (s <| committedChannelCapacity := c |>).
Proof. intros Hc []. by split. Qed.

Lemma sa_ok_overridden c s : c < max_capacity -> sa_ok s -> sa_ok (s <| overriddenChannelCapacity := c |>).
Proof. intros Hc []. by split. Qed.

Lemma safe_PeriodicPing p : ping_ok p -> safe (handleSignalPeriodicPing p).
Proof.
  intros Hp. apply handlerSafe_bind; [|intros _; apply handlerSafe_bind; [|intros _; apply safe_get; intros s Hs; case_if;
    [by apply safe_maybeProbe|by apply handlerSafe_ret]]].
  - apply safe_get. intros s Hs. case_if; [|by apply handlerSafe_ret].
    apply (handlerSafe_bind maybeStopProbe); [apply safe_maybeStopProbe| |done]. intros _. apply handlerSafe_bind; [apply safe_emit|]. intros _.
    apply safe_modify. intros s1 Hs1. by apply (sa_ok_control s1).
  - apply safe_get. intros s Hs. case_if; [by apply handlerSafe_ret|]. apply handlerSafe_bind; [| |done].
    + case_if; [|apply handlerSafe_ret]. apply handlerSafe_bind; [|intros _; apply safe_maybeStopProbe].
      apply safe_modify. intros s1 Hs1. by apply (sa_ok_control s1).
    + intros _. unfold ping_ok in Hp. destruct (pa_finalized p) as [[congesting c]|]; [|apply handlerSafe_ret].
      apply handlerSafe_bind; [apply safe_modify; intros s1 Hs1; by apply (sa_ok_control s1)|]. intros _. case_if; [apply handlerSafe_ret|].
      apply handlerSafe_bind; [|intros _; apply safe_boost]. apply safe_modify. intros s1 Hs1. case_if; [by apply sa_ok_committed|done].
Qed.

Lemma safe_Resume id : safe (handleSignalResume id).
Proof.
  apply safe_get. intros s Hs. destruct (videoTracks s !! id) as [t|] eqn:Et; [|by apply handlerSafe_ret].
  destruct (onTrack_safe (SetStreamState StreamStateActive) id s t Hs Et) as (s1 & b & E & Hs1 & Hd).
  { intros t1 H1 H2. apply (track_ok_ext t1); try done; unfold SetStreamState; by case_if. }
  destruct (proj2 (Hd id)) as [t1 Et1]; [by rewrite Et|].
  unfold changeStreamState. rewrite mbind_assoc, (mbind_eq _ _ _ _ _ E).
  assert (getTrack id s1 = (s1, Ok t1)) as Eg by (unfold getTrack, mbind, mget; by rewrite Et1).
  rewrite mbind_assoc, (mbind_eq _ _ _ _ _ Eg). by apply maybeSendUpdate_safe.
Qed.

Lemma allocateOptimally_run ids update s : sa_ok s -> (forall id, id ∈ ids -> is_Some (videoTracks s !! id)) ->
  exists s' u, allocateOptimally ids update s = (s', Ok u) /\ sa_ok s'.
Proof.
  intros Hs Hin. destruct (mfoldl_inv (fun u id => allocated (TrackAllocateOptimal cFlagAllowOvershootWhileOptimal false) id u)
    (fun (_ : StreamStateUpdate) s1 => runs s s1) ids) with (b := update) (s := s) as (s' & u & E & Hr);
    [|apply (runs_refl s), Hs|exists s', u; split; [exact E|by eapply runs_sa_ok]].
  intros u id s1 Hid Hr. destruct (Hin id Hid) as [t Et]. destruct (runs_lookup _ _ _ _ Hr Et) as (t1 & Et1 & _).
  destruct (optimal_allocates cFlagAllowOvershootWhileOptimal false id u s1 t1) as (s2 & u2 & E & Hr2);
    [eapply runs_ok; [apply Hs|done]|done|]. exists s2, u2. split; [exact E|by eapply runs_trans].
Qed.

Lemma safe_CongestionStateChange from to c : c < max_capacity -> safe (handleSignalCongestionStateChange from to c).
Proof.
  intros Hc. apply handlerSafe_bind; [case_if; [apply safe_maybeStopProbe|apply handlerSafe_ret]|]. intros _. apply safe_get. intros s Hs.
  apply handlerSafe_bind; [| |done].
  - case_if; [|apply handlerSafe_ret]. intros s1 Hs1. rewrite getTracks_bind.
    destruct (allocateOptimally_run (range_keys (videoTracks s1)) [] s1 Hs1) as (s2 & u & E2 & Hs2); [intros id; by rewrite range_keys_elem|].
    rewrite (mbind_eq _ _ _ _ _ E2). by apply maybeSendUpdate_safe.
  - intros _. case_if; [|apply handlerSafe_ret]. apply safe_get. intros s1 Hs1. case_if.
    + apply safe_modify; [|done]. intros s2 Hs2. by apply (sa_ok_control s2).
    + apply handlerSafe_bind; [apply safe_modify; intros s2 Hs2; by apply sa_ok_committed|intros _; apply safe_allocateAllTracks|done].
Qed.

(** ** Calls from outside the queue *)

Lemma safe_maybePost id : safe (maybePostEventAllocateTrack id).
Proof.
  apply safe_get. intros s Hs. destruct (videoTracks s !! id) as [t|] eqn:Et; [|by apply handlerSafe_ret].
  destruct (onTrack_safe _ id s t Hs Et (SetDirty_keeps true)) as (s1 & b & E & Hs1 & _). eauto.
Qed.

Lemma AddTrack_safe id priority t s : sa_ok s -> track_ok t -> flat t -> Z.of_nat (size (videoTracks s)) < max_tracks ->
  exists s' b, AddTrack id priority t s = (s', Ok b) /\ sa_ok s'.
Proof.
  intros [Hs Hf Hfl Hc Ho Hm] Ht Hflat Hsize. destruct (SetPriority_keeps priority t Ht Hflat) as [H1 H2].
  unfold AddTrack. apply safe_maybePost. split; try done; cbn.
  - by apply map_Forall_insert_2.
  - unfold few_tracks. cbn. rewrite map_size_insert. destruct (videoTracks s !! id); unfold Datatypes.id; lia.
  - by apply map_Forall_insert_2.
Qed.

Lemma safe_RemoveTrack id : safe (RemoveTrack id).
Proof.
  apply safe_modify. intros s [Hs Hf Hfl Hc Ho Hm]. split; try done; cbn.
  - by apply map_Forall_delete.
  - unfold few_tracks in *. cbn. rewrite map_size_delete. destruct (videoTracks s !! id); unfold Datatypes.id; lia.
  - by apply map_Forall_delete.
Qed.

Lemma safe_SetTrackPriority id priority : safe (SetTrackPriority id priority).
Proof.
  apply safe_get. intros s Hs. destruct (videoTracks s !! id) as [t|] eqn:Et; [|by apply handlerSafe_ret].
  destruct (onTrack_safe _ id s t Hs Et (SetPriority_keeps priority)) as (s1 & b & E & Hs1 & _).
  rewrite (mbind_eq _ _ _ _ _ E). case_if; [|by apply handlerSafe_ret].
  apply (handlerSafe_bind (mmodify _)); [apply safe_modify; intros s2 Hs2; by apply (sa_ok_control s2)|intros _; apply handlerSafe_ret|done].
Qed.

Lemma safe_OnSubscribedLayerChanged id layer : safe (OnSubscribedLayerChanged id layer).
Proof.
  apply safe_get. intros s Hs. destruct (videoTracks s !! id) as [t|] eqn:Et; [|by apply handlerSafe_ret].
  destruct (onTrack_safe _ id s t Hs Et (SetMaxLayer_keeps layer)) as (s1 & b & E & Hs1 & Hd).
  rewrite (mbind_eq _ _ _ _ _ E). destruct b; [|by apply handlerSafe_ret]. destruct (proj2 (Hd id)) as [t1 Et1]; [by rewrite Et|].
  destruct (onTrack_safe _ id s1 t1 Hs1 Et1 (SetDirty_keeps true)) as (s2 & b2 & E2 & Hs2 & _). eauto.
Qed.

(** ** The queue *)

(** The events the queue handles and the calls that change the tracks.
    [EvTrack]: between two events the publisher, the receiver or the
    subscriber change what is known of a track. *)
Inductive saEvent :=
| EvAllocateTrack (congestion : CongestionState) (id : Z)
| EvAllocateAllTracks
| EvAdjustState
| EvEstimate (estimate : Z)
| EvPeriodicPing (p : PingAnswers)
| EvProbeClusterSwitch (cluster : Z)
| EvResume (id : Z)
| EvSetAllowPause (b : bool)
| EvSetChannelCapacity (capacity : Z)
| EvCongestionStateChange (from to : CongestionState) (capacity : Z)
| EvAddTrack (id priority : Z) (t : Track om)
| EvRemoveTrack (id : Z)
| EvSetTrackPriority (id priority : Z)
| EvSubscribedLayerChanged (id : Z) (layer : VideoLayer)
| EvTrack (id : Z) (t : Track om).

Definition handle (ev : saEvent) : Handler (om := om) unit :=
  match ev with
  | EvAllocateTrack congestion id => handleSignalAllocateTrack congestion id
  | EvAllocateAllTracks => handleSignalAllocateAllTracks
  | EvAdjustState => adjustState
  | EvEstimate e => handleSignalEstimate e
  | EvPeriodicPing p => handleSignalPeriodicPing p
  | EvProbeClusterSwitch cluster => handleSignalProbeClusterSwitch cluster
  | EvResume id => handleSignalResume id
  | EvSetAllowPause b => handleSignalSetAllowPause b
  | EvSetChannelCapacity c => handleSignalSetChannelCapacity c
  | EvCongestionStateChange from to c => handleSignalCongestionStateChange from to c
  | EvAddTrack id priority t => AddTrack id priority t ;;* mret tt
  | EvRemoveTrack id => RemoveTrack id
  | EvSetTrackPriority id priority => SetTrackPriority id priority ;;* mret tt
  | EvSubscribedLayerChanged id layer => OnSubscribedLayerChanged id layer ;;* mret tt
  | EvTrack id t =>
    mmodify (fun s => match videoTracks s !! id with
                      | Some _ => s <| videoTracks := <[id := t]> (videoTracks s) |>
                      | None => s end)
  end.

(** Capacities are amounts, and tracks are well formed. *)
Definition event_ok (ev : saEvent) s : Prop :=
  match ev with
  | EvPeriodicPing p => ping_ok p
  | EvSetChannelCapacity c | EvCongestionStateChange _ _ c => c < max_capacity
  | EvAddTrack _ _ t => track_ok t /\ flat t /\ Z.of_nat (size (videoTracks s)) < max_tracks
  | EvTrack _ t => track_ok t /\ flat t
  | _ => True
  end.

Fixpoint events_ok (evs : list saEvent) s : Prop :=
  match evs with
  | [] => True
  | ev :: evs => event_ok ev s /\ events_ok evs (fst (handle ev s))
  end.

Fixpoint runEvents (evs : list saEvent) s : res sa_error (StreamAllocator om) :=
  match evs with
  | [] => Ok s
  | ev :: evs => match handle ev s with (s', Ok _) => runEvents evs s' | (_, Err e) => Err e end
  end.

Lemma handle_safe ev s : sa_ok s -> event_ok ev s -> exists s', handle ev s = (s', Ok tt) /\ sa_ok s'.
Proof.
  intros Hs Hev. assert (Hsafe : forall h : Handler unit, safe h -> exists s', h s = (s', Ok tt) /\ sa_ok s').
  { intros h Hh. destruct (Hh s Hs) as (s' & [] & E & Hs'). eauto. }
  assert (Hdrop : forall h : Handler bool, safe h -> exists s', (h ;;* mret tt) s = (s', Ok tt) /\ sa_ok s').
  { intros h Hh. apply Hsafe, handlerSafe_bind; [done|]. intros _. apply handlerSafe_ret. }
  destruct ev; cbn [handle event_ok] in *.
  - apply Hsafe, safe_AllocateTrack.
  - apply Hsafe, safe_AllocateAllTracks.
  - apply Hsafe, safe_adjustState.
  - apply Hsafe, safe_Estimate.
  - by apply Hsafe, safe_PeriodicPing.
  - apply Hsafe, safe_modify. intros s1 Hs1. by apply (sa_ok_control s1).
  - apply Hsafe, safe_Resume.
  - apply Hsafe, safe_modify. intros s1 Hs1. by apply (sa_ok_control s1).
  - apply Hsafe, handlerSafe_bind; [apply safe_modify; intros s1 Hs1; by apply sa_ok_overridden|]. intros _.
    case_if; [apply safe_allocateAllTracks|apply handlerSafe_ret].
  - by apply Hsafe, safe_CongestionStateChange.
  - destruct Hev as (Ht & Hflat & Hsize). destruct (AddTrack_safe id priority t s Hs Ht Hflat Hsize) as (s' & b & E & Hs').
    exists s'. by rewrite (mbind_eq _ _ _ _ _ E).
  - apply Hsafe, safe_RemoveTrack.
  - apply Hdrop, safe_SetTrackPriority.
  - apply Hdrop, safe_OnSubscribedLayerChanged.
  - destruct Hev as [Ht Hflat]. apply Hsafe, safe_modify. intros s1 Hs1. destruct (videoTracks s1 !! id) as [t0|] eqn:Et; [|done].
    by apply (sa_ok_insert s1 id t0).
Qed.

(** C17: from any well-formed state, in particular from a new allocator, every
    sequence of events is handled without a panic and without reaching the
    bound of the boost loop, and leaves a well-formed state: the layers of
    every track are in range and the bandwidth on record is an amount. *)
Theorem runEvents_ok evs s : sa_ok s -> events_ok evs s -> exists s', runEvents evs s = Ok s' /\ sa_ok s'.
Proof.
  revert s. induction evs as [|ev evs IH]; intros s Hs Hok; [by exists s|]. destruct Hok as [Hev Hok].
  destruct (handle_safe ev s Hs Hev) as (s1 & Eh & Hs1). cbn [runEvents]. rewrite Eh in Hok |- *. by apply IH.
Qed.

Lemma NewStreamAllocator_ok c enabled allowPause : 0 <= MinChannelCapacity c < max_capacity ->
  sa_ok (om := om) (NewStreamAllocator c enabled allowPause).
Proof. intros Hc. split; try done; apply map_Forall_empty. Qed.
End events.

(** A stream is published, congested, boosted and removed. *)
Lemma runEvents_ok_witness :
  let t := ex_track ex_fwd in
  exists s', runEvents [EvAddTrack 1 0 t; EvCongestionStateChange CongestionStateEarlyWarning CongestionStateCongested 120;
                        EvAllocateTrack CongestionStateNone 1; EvSetAllowPause false; EvAllocateAllTracks; EvRemoveTrack 1]
                       (NewStreamAllocator DefaultStreamAllocatorConfig true true) = Ok s' /\ sa_ok s'.
Proof.
  intros t. apply runEvents_ok; [by apply NewStreamAllocator_ok|].
  split; [split; [apply ex_track_ok|split; [by intros ?|done]]|]. by repeat split.
Defined.
