(* ===== verification/Translation.v ===== *)
(** * How the forwarder translates a packet

    Models the packet path of [src/SERVER/pkg/sfu/forwarder.go]: selection,
    the switch to a new source, the rewriting of sequence numbers, timestamps
    and codec headers, and the numbers handed out for padding.  It composes
    [LayerSelectors], [DdSelector], [RtpMunger] and [Vp8Munger].

    The clock of the media converter and the reading of NTP times are code of
    other repositories: they are parameters.  The readings of the wall clock
    and the random numbers are arguments.  A failed switch is a value, as in
    the code; a panic is an [Err]. *)

From S2P Require Import Prelude DdTypes.
From S2P Require Import Vp8 Packet RtpMunger OrderedMap Vp8Munger LayerSelectors DdBits DdSelector Bitrates Forwarder.

(** ** Data *)

(** [buffer.ExtPacket] with the fields of its RTP header that only the
    forwarder reads. *)
Record RTPPacket := mkRTPPacket {
  ext_packet : ExtPacket;
  SSRC : Z;
  PayloadType : Z;
  Timestamp : Z;
}.

Record TranslationParams := mkTranslationParams {
  shouldDrop : bool;
  isResuming : bool;
  isSwitching : bool;
  rtp : TranslationParamsRTP;
  ddBytes : slice Z;
  incomingHeaderSize : Z;
  codecBytes : slice Z;
  marker : bool;
}.
#[export] Instance eta_TranslationParams : Eta TranslationParams := fun t =>
  mkTranslationParams (shouldDrop t) (isResuming t) (isSwitching t) (rtp t) (ddBytes t) (incomingHeaderSize t)
    (codecBytes t) (marker t).

Definition emptyParams : TranslationParams :=
  mkTranslationParams false false false (mkParams SequenceNumberOrderingContiguous 0 0) None 0 None false.
Definition dropParams : TranslationParams := emptyParams <| shouldDrop := true |>.

Inductive switch_error :=
| errSkipStartOnOutOfOrderPacket
| errInvalidLayers
| errUnavailableRef
| errUnavailableTarget
| errSwitchPointTooFarBehind.

Inductive translation_error :=
| errUnknownKind
| MungerError (e : munger_error)
| CodecError (e : vp8munger_error).

Inductive translation_panic :=
| ForwarderPanic (p : fwd_panic)
| SelectorPanic (e : dd_error).

Definition lift_panic {A} (x : res fwd_panic A) : res translation_panic A :=
  match x with Ok a => Ok a | Err p => Err (ForwarderPanic p) end.

(** ** Components *)

Definition vlsSelect (extPkt : ExtPacket) (layer : Z) (v : VideoLayerSelector)
  : res translation_panic (VideoLayerSelector * VideoLayerSelectorResult) :=
  match v with
  | VLSNull b => let '(b, r) := BaseSelect b extPkt layer in Ok (VLSNull b, r)
  | VLSSimulcast b => let '(b, r) := SimulcastSelect b extPkt layer in Ok (VLSSimulcast b, r)
  | VLSVP9 b => let '(b, r) := VP9Select b extPkt layer in Ok (VLSVP9 b, r)
  | VLSDependencyDescriptor d =>
    match DdSelector.Select d extPkt with
    | Ok (d, r) => Ok (VLSDependencyDescriptor d, r)
    | Err e => Err (SelectorPanic e)
    end
  end.

Definition vlsSelectTemporal (extPkt : ExtPacket) (v : VideoLayerSelector) : VideoLayerSelector * Z :=
  (onBase (fun b => fst (SelectTemporal extPkt b)) v, snd (SelectTemporal extPkt (getBase v))).

Section codec.
Context {om : Type -> Type} `{OrderedMap om}.

Definition CMSetLast (extPkt : ExtPacket) (cm : CodecMunger (om := om)) : CodecMunger :=
  match cm with CMNull s => CMNull s | CMVP8 v => CMVP8 (SetLast extPkt v) end.

Definition CMUpdateOffsets (extPkt : ExtPacket) (cm : CodecMunger (om := om)) : CodecMunger :=
  match cm with CMNull s => CMNull s | CMVP8 v => CMVP8 (UpdateOffsets extPkt v) end.

Definition CMUpdateAndGet (extPkt : ExtPacket) (snOutOfOrder snHasGap : bool) (maxTemporal : Z)
  (cm : CodecMunger (om := om)) : CodecMunger * res vp8munger_error (Z * slice Z) :=
  match cm with
  | CMNull s => (CMNull s, Ok (0, None))
  | CMVP8 v =>
    let '(v, out) := UpdateAndGet extPkt snOutOfOrder snHasGap maxTemporal v in
    (CMVP8 v, match out with Ok (n, bs) => Ok (n, Some bs) | Err e => Err e end)
  end.

Definition CMUpdateAndGetPadding (newPicture : bool) (cm : CodecMunger (om := om))
  : CodecMunger * res vp8_error (slice Z) :=
  match cm with
  | CMNull s => (CMNull s, Ok None)
  | CMVP8 v =>
    let '(v, out) := UpdateAndGetPadding newPicture v in
    (CMVP8 v, match out with Ok bs => Ok (Some bs) | Err e => Err e end)
  end.
End codec.

(** ** Timestamps across sources *)

Definition two31 : Z := 2147483648.
Definition two32 : Z := 4294967296.

(** [a.Sub(b)] saturates. *)
Definition durationSub (a b : Z) : Z :=
  Z.max (-9223372036854775808) (Z.min 9223372036854775807 (a - b)).

(** [d.Nanoseconds() * int64(clockRate) / 1e9] *)
Definition ticks (d clockRate : Z) : Z := Z.quot (i64 (d * clockRate)) 1000000000.

(** The reference timestamp of a packet, extended next to the last one sent. *)
Definition extendRefTS (extLastTS refTS dummyOffset : Z) : Z :=
  let extRefTS := u64 (u64 (Z.land extLastTS 0xFFFFFFFF00000000 + refTS) + dummyOffset) in
  let lastTS := u32 extLastTS in
  let refTS := u32 extRefTS in
  let extRefTS := if (u32 (refTS - lastTS) <? two31) && (refTS <? lastTS)
                  then u64 (extRefTS + two32) else extRefTS in
  if (u32 (lastTS - refTS) <? two31) && (lastTS <? refTS) && (extRefTS >=? two32)
  then u64 (extRefTS - two32) else extRefTS.

(** [float64(int64(d)) / float64(clockRate)] *)
Definition seconds (d clockRate : Z) : spec_float :=
  float64_div (float64_of_int (i64 (u64 d))) (float64_of_int clockRate).

Definition positive (x : spec_float) : bool := SFltb (S754_zero false) x.
Definition negative (x : spec_float) : bool := SFltb x (S754_zero false).
Definition nonnegative (x : spec_float) : bool := SFleb (S754_zero false) x.

(** The next timestamp when a stream resumes. *)
Definition resumeTS (threshold : spec_float) (clockRate extExpectedTS extRefTS : Z) : Z :=
  let diffSeconds := seconds (extExpectedTS - extRefTS) clockRate in
  if nonnegative diffSeconds then
    if positive threshold && SFltb threshold diffSeconds then extExpectedTS
    else if SFltb ResumeBehindHighThresholdSeconds diffSeconds then extExpectedTS
    else extRefTS
  else extRefTS.

(** The next timestamp when a stream changes layers; [None] when the layer is
    too far behind. *)
Definition layerSwitchTS (clockRate extLastTS extRefTS : Z) : option Z :=
  let diffSeconds := seconds (extRefTS - extLastTS) clockRate in
  if negative diffSeconds then
    if SFltb LayerSwitchBehindThresholdSeconds (SFabs diffSeconds) then None
    else Some (u64 (extLastTS + 1))
  else Some extRefTS.

(** Timestamps always move forward. *)
Definition nominalIncrease (extNextTS extLastTS : Z) : Z :=
  if i64 (u64 (extNextTS - extLastTS)) <=? 0 then u64 (extLastTS + 1) else extNextTS.

Section Translation.
Context {om : Type -> Type} `{OrderedMap om}.
(** [RTPConverter.ToRTPExt] of a clock rate, and the nanoseconds of
    [NtpTime.Time]. *)
Context (ToRTPExt : Z -> Z -> Z) (NtpTime_Time : Z -> Z).
Implicit Types f : Forwarder om.

Definition GetExpectedRTPTimestamp (at_ : Z) (r : RTPStatsSender) : option Z :=
  if (st_firstTime r =? 0) || (st_clockRate r =? 0) then None
  else
    let timeDiff := durationSub at_ (st_firstTime r) in
    Some (u64 (st_extStartTS r + ToRTPExt (st_clockRate r) timeDiff)).

(** A sender report that can be used as a reference. *)
Definition usableReport (ri : refInfo) : option RTCPSenderReportState :=
  match senderReport ri with
  | Some sr => if NtpTimestamp sr =? 0 then None else Some sr
  | None => None
  end.

Definition getRefLayerRTPTimestamp (ts refLayer targetLayer : Z) f : res fwd_panic (res switch_error Z) :=
  if (refLayer <? 0) || (refLayer >? zlen (refInfos f)) || (targetLayer <? 0) || (targetLayer >? zlen (refInfos f))
  then Ok (Err errInvalidLayers)
  else if (refLayer =? targetLayer)
          || bool_decide (refVideoLayerMode f = VideoLayer_MULTIPLE_SPATIAL_LAYERS_PER_STREAM)
  then Ok (Ok ts)
  else
    let! riRef := refInfoAt f refLayer in
    let! riTarget := refInfoAt f targetLayer in
    match usableReport riRef, usableReport riTarget with
    | None, _ => Ok (Err errUnavailableRef)
    | _, None => Ok (Err errUnavailableTarget)
    | Some srRef, Some srTarget =>
      let ntpDiff := durationSub (NtpTime_Time (NtpTimestamp srRef)) (NtpTime_Time (NtpTimestamp srTarget)) in
      let rtpDiff := ticks ntpDiff (clockRate f) in
      let normalizedOtherTS := u32 (RtpTimestamp srTarget + u32 rtpDiff) in
      let offset := u32 (RtpTimestamp srRef - normalizedOtherTS) in
      Ok (Ok (u32 (ts + offset)))
    end.

(** The expected timestamp and the reference timestamp, from the statistics of
    what was sent or else from the time of the dummy start. *)
Definition expectedTS (switchingAt now extLastTS extRefTS : Z) f : Forwarder om * Z * Z :=
  let refTS := u32 extRefTS in
  match rtpStats f with
  | None => (f, extLastTS, extRefTS)
  | Some stats =>
    match GetExpectedRTPTimestamp switchingAt stats with
    | Some tsExt =>
      if lastReferencePayloadType f =? -1
      then (f <| dummyStartTSOffset := u64 (tsExt - refTS) |>, tsExt, tsExt)
      else (f, tsExt, extRefTS)
    | None =>
      match preStartTime f with
      | None => (f, extLastTS, extRefTS)
      | Some t0 =>
        let rtpDiff := u64 (ticks (durationSub now t0) (clockRate f)) in
        let extExpectedTS := u64 (extFirstTS f + rtpDiff) in
        if dummyStartTSOffset f =? 0
        then (f <| dummyStartTSOffset := u64 (extExpectedTS - refTS) |>, extExpectedTS, extExpectedTS)
        else (f, extExpectedTS, extRefTS)
      end
    end
  end.

(** The part of [processSourceSwitch] for a stream that has started. *)
Definition switchSource (p : RTPPacket) (layer switchingAt now : Z) f
  : res fwd_panic (Forwarder om * option switch_error) :=
  let extLastTS := ExtLastTimestamp (RtpMunger.GetState (rtpMunger f)) in
  let! ref := if negb (skipReferenceTS f)
              then getRefLayerRTPTimestamp (Timestamp p) (referenceLayerSpatial f) layer f
              else Ok (Ok (u32 extLastTS)) in
  match ref with
  | Err e => Ok (f, Some e)
  | Ok refTS =>
    let extRefTS := extendRefTS extLastTS refTS (dummyStartTSOffset f) in
    let '(f, extExpectedTS, extRefTS) := expectedTS switchingAt now extLastTS extRefTS f in
    let '(f, next) :=
      if lastSSRC f =? 0 then
        (f <| resumeBehindThreshold := S754_zero false |>,
         Some (resumeTS (resumeBehindThreshold f) (clockRate f) extExpectedTS extRefTS))
      else (f, layerSwitchTS (clockRate f) extLastTS extRefTS) in
    match next with
    | None => Ok (f, Some errSwitchPointTooFarBehind)
    | Some extNextTS =>
      let extNextTS := nominalIncrease extNextTS extLastTS in
      Ok (f <| rtpMunger := UpdateSnTsOffsets (ext_packet p) 1 (u64 (extNextTS - extLastTS)) (rtpMunger f) |>
            <| codecMunger := CMUpdateOffsets (ext_packet p) (codecMunger f) |>, None)
    end
  end.

Definition processSourceSwitch (p : RTPPacket) (layer switchingAt now : Z) f
  : res fwd_panic (Forwarder om * option switch_error) :=
  if negb (started f) then
    if IsOutOfOrder (ext_packet p) then Ok (f, Some errSkipStartOnOutOfOrderPacket)
    else
      Ok (f <| started := true |> <| referenceLayerSpatial := layer |>
            <| rtpMunger := SetLastSnTs (ext_packet p) (rtpMunger f) |>
            <| codecMunger := CMSetLast (ext_packet p) (codecMunger f) |>, None)
  else if referenceLayerSpatial f =? InvalidLayerSpatial then
    if IsOutOfOrder (ext_packet p) then Ok (f, Some errSkipStartOnOutOfOrderPacket)
    else switchSource p layer switchingAt now
           (f <| referenceLayerSpatial := layer |>
              <| codecMunger := CMSetLast (ext_packet p) (codecMunger f) |>)
  else switchSource p layer switchingAt now f.

(** ** Translation *)

Definition translateCodecHeader (p : RTPPacket) (tp : TranslationParams) f
  : Forwarder om * TranslationParams * option translation_error :=
  let '(v, tl) := vlsSelectTemporal (ext_packet p) (vls f) in
  let f := f <| vls := v |> in
  let '(cm, out) := CMUpdateAndGet (ext_packet p)
                      (bool_decide (snOrdering (rtp tp) = SequenceNumberOrderingOutOfOrder))
                      (bool_decide (snOrdering (rtp tp) = SequenceNumberOrderingGap)) tl (codecMunger f) in
  let f := f <| codecMunger := cm |> in
  match out with
  | Ok (inputSize, bs) => (f, tp <| incomingHeaderSize := inputSize |> <| codecBytes := bs |>, None)
  | Err e =>
    let tp := tp <| shouldDrop := true |> in
    match e with
    | ErrFilteredVP8TemporalLayer => (f <| rtpMunger := PacketDropped (ext_packet p) (rtpMunger f) |>, tp, None)
    | ErrOutOfOrderVP8PictureIdCacheMiss => (f, tp, None)
    | _ => (f, tp, Some (CodecError e))
    end
  end.

(** The munger part of [getTranslationParamsCommon]. *)
Definition translatePacket (p : RTPPacket) (tp : TranslationParams) f
  : Forwarder om * TranslationParams * option translation_error :=
  let '(m, tpRTP, err) := UpdateAndGetSnTs (ext_packet p) (marker tp) (rtpMunger f) in
  let f := f <| rtpMunger := m |> in
  match err with
  | Some e =>
    let tp := tp <| shouldDrop := true |> in
    match e with
    | errPaddingOnlyPacket | errDuplicatePacket | errOutOfOrderSequenceNumberCacheMiss => (f, tp, None)
    | _ => (f, tp, Some (MungerError e))
    end
  | None =>
    let tp := tp <| rtp := tpRTP |> in
    if PayloadLen (ext_packet p) >? 0 then translateCodecHeader p tp f else (f, tp, None)
  end.

Definition getTranslationParamsCommon (p : RTPPacket) (layer switchingAt now : Z) (tp : TranslationParams) f
  : res fwd_panic (Forwarder om * TranslationParams * option translation_error) :=
  if negb (lastSSRC f =? SSRC p) then
    let! x := processSourceSwitch p layer switchingAt now f in
    match x with
    | (f, Some _) => Ok (f <| vls := vlsRollback (vls f) |>, tp <| shouldDrop := true |>, None)
    | (f, None) =>
      Ok (translatePacket p tp
            (f <| lastSSRC := SSRC p |> <| lastReferencePayloadType := i8 (PayloadType p) |>
               <| lastSwitchExtIncomingTS := ExtTimestamp (ext_packet p) |>))
    end
  else Ok (translatePacket p tp f).

Definition getTranslationParamsAudio (p : RTPPacket) (layer switchingAt now : Z) f
  : res fwd_panic (Forwarder om * TranslationParams * option translation_error) :=
  let! x := getTranslationParamsCommon p layer switchingAt now emptyParams f in
  match x with
  | (f, tp, Some e) => Ok (f, tp <| shouldDrop := true |>, Some e)
  | (f, tp, None) => Ok (f, tp, None)
  end.

(** A stream announced with dependency descriptors that comes without. *)
Definition turnOffDD (f : Forwarder om) : Forwarder om :=
  let f := f <| isDDAvailable := false |> in
  match mime f with
  | MimeTypeVP9 => f <| vls := NewVP9FromOther (vls f) |>
  | MimeTypeAV1 => f <| vls := NewSimulcastFromOther (vls f) |>
  | _ => f
  end.

(** A packet the selector does not take. *)
Definition notSelected (p : RTPPacket) (result : VideoLayerSelectorResult) f : Forwarder om :=
  let f := if isDDAvailable f && match PktDD (ext_packet p) with None => true | Some _ => false end
           then turnOffDD f else f in
  if started f && IsRelevant result then
    let '(m, tpRTP, err) := UpdateAndGetSnTs (ext_packet p) (RTPMarker result) (rtpMunger f) in
    let f := f <| rtpMunger := m |> in
    match err with
    | None =>
      if bool_decide (snOrdering tpRTP = SequenceNumberOrderingContiguous)
      then f <| rtpMunger := PacketDropped (ext_packet p) (rtpMunger f) |> else f
    | Some _ => f
    end
  else f.

(** Higher layers are not sent while bandwidth forces the stream down. *)
Definition pausedOnDowngrade f : bool :=
  FlagPauseOnDowngrade && isDeficientLocked f && (Spatial (GetTarget (vls f)) <? Spatial (GetCurrent (vls f))).

Definition selectedParams (result : VideoLayerSelectorResult) : TranslationParams :=
  emptyParams <| isResuming := IsResuming result |> <| isSwitching := IsSwitching result |>
    <| ddBytes := DependencyDescriptorExtension result |> <| marker := RTPMarker result |>.

Definition getTranslationParamsVideo (p : RTPPacket) (layer switchingAt now : Z) f
  : res translation_panic (Forwarder om * TranslationParams * option translation_error) :=
  if negb (IsValid (GetTarget (vls f))) then Ok (f, dropParams, None)
  else
    let! x := vlsSelect (ext_packet p) layer (vls f) in
    let '(v, result) := x in
    let f := f <| vls := v |> in
    if negb (IsSelected result) then Ok (notSelected p result f, dropParams, None)
    else
      let! y := lift_panic (getTranslationParamsCommon p layer switchingAt now (selectedParams result) f) in
      let '(f, tp, err) := y in
      if shouldDrop tp then Ok (f, tp, err)
      else if pausedOnDowngrade f then Ok (f, tp <| shouldDrop := true |>, None)
      else Ok (f, tp, None).

Definition GetTranslationParams (p : RTPPacket) (layer switchingAt now : Z) f
  : res translation_panic (Forwarder om * TranslationParams * option translation_error) :=
  if muted f || pubMuted f then Ok (f, dropParams, None)
  else
    match kind f with
    | RTPCodecTypeAudio => lift_panic (getTranslationParamsAudio p layer switchingAt now f)
    | RTPCodecTypeVideo => getTranslationParamsVideo p layer switchingAt now f
    | RTPCodecTypeUnknown => Ok (f, dropParams, Some errUnknownKind)
    end.

(** ** Padding and blank frames *)

(** The packet a stream starts from when none was received: [sn] and [ts] are
    the two random numbers. *)
Definition dummyPacket (sn ts : Z) : ExtPacket :=
  mkExtPacket (mkLayer 0 0) sn ts false 0 PayloadNone false None false.

Definition maybeStart (randSN randTS now : Z) f : Forwarder om :=
  if started f then f
  else
    let sequenceNumber := u16 (u16 randSN + u16 (Z.shiftl 1 15)) in
    let timestamp := u32 (u32 randTS + u32 (Z.shiftl 1 31)) in
    f <| started := true |> <| preStartTime := Some now |>
      <| rtpMunger := SetLastSnTs (dummyPacket sequenceNumber timestamp) (rtpMunger f) |>
      <| extFirstTS := timestamp |>.

Definition GetSnTsForPadding (randSN randTS now num frameRate : Z) (forceMarker : bool) f
  : Forwarder om * res munger_error (list SnTs) :=
  let f := maybeStart randSN randTS now f in
  let forceMarker := if negb (IsValid (GetTarget (vls f))) then true else forceMarker in
  let '(m, out) := UpdateAndGetPaddingSnTs num (clockRate f) frameRate forceMarker
                     (ExtLastTimestamp (RtpMunger.GetState (rtpMunger f))) (rtpMunger f) in
  (f <| rtpMunger := m |>, out).

Definition GetSnTsForBlankFrames (randSN randTS now at_ frameRate numPackets : Z) f
  : Forwarder om * (res munger_error (list SnTs) * bool) :=
  let f := maybeStart randSN randTS now f in
  let frameEndNeeded := negb (IsOnFrameBoundary (rtpMunger f)) in
  let numPackets := if frameEndNeeded then numPackets + 1 else numPackets in
  let extLastTS := ExtLastTimestamp (RtpMunger.GetState (rtpMunger f)) in
  let extExpectedTS := match rtpStats f with
                       | Some stats => default extLastTS (GetExpectedRTPTimestamp at_ stats)
                       | None => extLastTS
                       end in
  let extExpectedTS := nominalIncrease extExpectedTS extLastTS in
  let '(m, out) := UpdateAndGetPaddingSnTs numPackets (clockRate f) frameRate frameEndNeeded extExpectedTS
                     (rtpMunger f) in
  (f <| rtpMunger := m |>, (out, frameEndNeeded)).

Definition GetPadding (frameEndNeeded : bool) f : Forwarder om * res vp8_error (slice Z) :=
  let '(cm, out) := CMUpdateAndGetPadding (negb frameEndNeeded) (codecMunger f) in
  (f <| codecMunger := cm |>, out).

End Translation.
