(* ===== verification/TranslationSpec.v ===== *)
(** * Properties of packet translation

    The numbers a forwarder puts on the packets it sends, whatever comes in
    and however padding, mutes and allocations are interleaved; the timestamps
    across a change of source; what a dropped packet and a failed switch leave
    behind; and that no packet makes the forwarder panic. *)

From S2P Require Import Prelude DdTypes.
From S2P Require Import Vp8 Packet RangeMap RtpMunger OrderedMap Vp8Munger LayerSelectors DdBits DdParser DdSelector.
From S2P Require Import DdSelectorSpec Bitrates Forwarder Translation.

(** ** Increasing numbers *)

(** The numbers [l] lie above [b], increase, and do not exceed [b']. *)
Definition advances (b : Z) (l : list Z) (b' : Z) : Prop :=
  StronglySorted Z.lt (b :: l) /\ Forall (fun x => x <= b') (b :: l).

Lemma advances_nil b b' : b <= b' -> advances b [] b'.
Proof. intros Hb. split; repeat constructor. done. Qed.

Lemma advances_one b x b' : b < x -> x <= b' -> advances b [x] b'.
Proof. intros H1 H2. split; repeat constructor; lia. Qed.

Lemma sorted_app (l k : list Z) x :
  StronglySorted Z.lt l -> Forall (fun y => y <= x) l -> StronglySorted Z.lt (x :: k) -> StronglySorted Z.lt (l ++ k).
Proof.
  intros Hl Hx [Hk Hxk]%StronglySorted_inv. induction Hl as [|y l Hl IH Hy]; [done|].
  apply Forall_cons in Hx as [Hyx Hx]. constructor; [by apply IH|]. apply Forall_app. split; [done|].
  eapply Forall_impl; [exact Hxk|]. intros z Hz. cbn in Hz. lia.
Qed.

Lemma advances_app b l b1 k b2 : advances b l b1 -> advances b1 k b2 -> advances b (l ++ k) b2.
Proof.
  intros [Hl Hlb] [Hk Hkb]. split; [exact (sorted_app (b :: l) k b1 Hl Hlb Hk)|].
  apply Forall_cons in Hkb as [Hb Hkb]. change (Forall (fun x => x <= b2) ((b :: l) ++ k)).
  apply Forall_app. split; [|done]. eapply Forall_impl; [exact Hlb|]. cbn. lia.
Qed.

Lemma advances_consecutive b k : advances b (consecutive b k) (b + Z.of_nat k).
Proof.
  split; [apply consecutive_sorted|]. apply Forall_cons. split; [lia|].
  apply Forall_forall. intros x Hx. apply list_elem_of_In, consecutive_range in Hx. lia.
Qed.

Lemma advances_weaken b0 b l b1 b' : advances b l b1 -> b0 <= b -> b1 <= b' -> advances b0 l b'.
Proof.
  intros [Hs Hf] H0 H1. apply StronglySorted_inv in Hs as [Hs Hb]. apply Forall_cons in Hf as [Hbb Hf]. split.
  - constructor; [done|]. eapply Forall_impl; [exact Hb|]. cbn. lia.
  - apply Forall_cons. split; [lia|]. eapply Forall_impl; [exact Hf|]. cbn. lia.
Qed.

(** ** The munger *)

(** The number the next packet of the same source gets. *)
Definition nextNumber (m : RTPMunger) : Z := u64 (extHighestIncomingSN m + 1 - snOffset m).

(** The counters stay far from their width. *)
Definition max_ext : Z := 4611686018427387904.

Lemma nextNumber_eq a m : inv_plus a m -> 0 <= a <= 1 -> nextNumber m = extLastSN m + a.
Proof.
  intros [lr [Hwf Hl Hst Hh Ho Hv Hm Hn Hb]] Ha. unfold nextNumber. rewrite Ho. unfold next_out in Hn.
  rewrite out_key; [lia|lia|]. unfold max_sn in *. lia.
Qed.

Lemma inv_plus_bound a m : inv_plus a m -> 0 <= extLastSN m < max_sn /\ 0 <= extHighestIncomingSN m < max_sn.
Proof. intros [lr Hi]. split; [apply (inv_bound _ _ _ Hi)|apply (inv_high _ _ _ Hi)]. Qed.

Lemma inv_plus_wf a m : inv_plus a m -> wf U64 (snRangeMap m).
Proof. intros [lr Hi]. apply (inv_wf _ _ _ Hi). Qed.

(** The invariant between operations: the next number is the last one sent, of
    a stream that has sent nothing yet, or the one after it. *)
Definition numbered (m : RTPMunger) : Prop := exists a, 0 <= a <= 1 /\ inv_plus a m.

Lemma numbered_cases m : numbered m ->
  inv_plus (nextNumber m - extLastSN m) m /\ 0 <= nextNumber m - extLastSN m <= 1.
Proof.
  intros (a & Ha & Hi). rewrite (nextNumber_eq a m Hi Ha). replace (extLastSN m + a - extLastSN m) with a by lia. done.
Qed.

Definition isLate (t : TranslationParamsRTP) : bool :=
  bool_decide (snOrdering t = SequenceNumberOrderingOutOfOrder).

(** A packet that directly follows the last one and has a payload. *)
Definition contiguous (p : ExtPacket) (m : RTPMunger) : Prop :=
  ExtSequenceNumber p = extHighestIncomingSN m + 1 /\ PayloadLen p <> 0.

(** What the translation of one packet does to the numbers. *)
Lemma munger_outcome m p mk :
  numbered m -> 0 <= ExtSequenceNumber p < max_ext -> extLastSN m < max_ext ->
  let '(m', tp, err) := UpdateAndGetSnTs p mk m in
  numbered m' /\
  match err with
  | None =>
    if isLate tp then m' = m
    else nextNumber m <= extSequenceNumber tp /\ extSequenceNumber tp = extLastSN m' /\ nextNumber m' = extLastSN m' + 1 /\
         ((snOrdering tp = SequenceNumberOrderingContiguous /\ contiguous p m) \/
          (snOrdering tp = SequenceNumberOrderingGap /\ ~ contiguous p m))
  | Some e =>
    e <> errPaddingNotOnFrameBoundary /\ extLastSN m' = extLastSN m /\ nextNumber m' = nextNumber m /\
    ~ contiguous p m
  end.
Proof.
  intros (a & Ha & Hi) Hsn Hlast. pose proof (inv_plus_bound a m Hi) as [Hb Hh]. unfold max_ext in *.
  rewrite (nextNumber_eq a m Hi Ha).
  destruct (Z.le_gt_cases (ExtSequenceNumber p) (extHighestIncomingSN m)) as [Hle|Hgt].
  - pose proof (UpdateAndGetSnTs_behind a m p mk Hi ltac:(lia)) as Hout.
    destruct (UpdateAndGetSnTs p mk m) as [[m' tp] [e|]]; destruct Hout as [-> Hout].
    + split; [by exists a|]. split; [by destruct Hout as [-> | ->]|]. split; [done|].
      split; [by apply nextNumber_eq|unfold contiguous; lia].
    + split; [by exists a|]. unfold isLate. by rewrite bool_decide_eq_true_2.
  - destruct (decide (ExtSequenceNumber p = extHighestIncomingSN m + 1 /\ PayloadLen p = 0)) as [[H1 H2]|Hn].
    + pose proof (UpdateAndGetSnTs_padding_only m p mk a Hi Ha H1 H2 ltac:(unfold max_sn; lia)
        ltac:(unfold max_sn; lia)) as Hout.
      destruct (UpdateAndGetSnTs p mk m) as [[m' tp] err]. destruct Hout as (-> & Hi' & Hl' & _).
      split; [by exists a|]. split; [done|]. split; [done|].
      split; [by rewrite (nextNumber_eq a m' Hi' Ha), Hl'|unfold contiguous; lia].
    + rewrite UpdateAndGetSnTs_forward; [|lia|unfold in_order; lia|unfold max_sn; lia].
      destruct Hi as [lr Hi].
      destruct (forwarded_inv lr a m p mk Hi ltac:(unfold max_sn; lia)) as (Hsn' & Hi' & Hl');
        [unfold max_sn; lia|].
      split; [exists 1; split; [lia|by exists lr]|]. unfold isLate, snOrdering.
      rewrite bool_decide_eq_false_2 by (case_if; done).
      rewrite (nextNumber_eq 1 _ (ex_intro _ lr Hi')) by lia. rewrite Hl'. unfold extSequenceNumber. rewrite Hsn'.
      split; [lia|]. split; [done|]. split; [lia|]. unfold contiguous. rewrite Z.gtb_ltb.
      destruct (Z.ltb_spec 1 (ExtSequenceNumber p - extHighestIncomingSN m)); [right|left]; split; (done || lia).
Qed.

(** Dropping the packet just translated gives its number back. *)
Lemma munger_drop m p mk :
  numbered m -> contiguous p m -> ExtSequenceNumber p < max_ext -> extLastSN m < max_ext ->
  let m' := forward_then_drop p mk m in
  numbered m' /\ extLastSN m' = extLastSN m /\ nextNumber m' = nextNumber m.
Proof.
  intros (a & Ha & Hi) [H1 H2] Hsn Hlast. unfold max_ext in *.
  destruct (forward_then_drop_restores m p mk a Hi Ha H1 H2 ltac:(unfold max_sn; lia) ltac:(unfold max_sn; lia))
    as (Hi' & Hl' & _).
  split; [by exists a|]. split; [done|]. by rewrite (nextNumber_eq a _ Hi' Ha), Hl', (nextNumber_eq a m Hi Ha).
Qed.

(** The packet was seen, and its number was given back. *)
Definition given_back (p : ExtPacket) (m m' : RTPMunger) : Prop :=
  numbered m' /\ extLastSN m' = extLastSN m /\ nextNumber m' = nextNumber m /\
  extHighestIncomingSN m' = ExtSequenceNumber p.

Lemma munger_contiguous m p mk :
  numbered m -> contiguous p m -> ExtSequenceNumber p < max_ext -> extLastSN m < max_ext ->
  exists m' ts, UpdateAndGetSnTs p mk m = (m', mkParams SequenceNumberOrderingContiguous (nextNumber m) ts, None) /\
    given_back p m (PacketDropped p m').
Proof.
  intros Hn [H1 H2] Hsn Hlast. pose proof (munger_drop m p mk Hn (conj H1 H2) Hsn Hlast) as (K1 & K2 & K3).
  destruct Hn as (a & Ha & Hi). pose proof (inv_plus_bound a m Hi) as [Hb Hh]. unfold max_ext in *.
  destruct (forward_then_drop_restores m p mk a Hi Ha H1 H2 ltac:(unfold max_sn; lia) ltac:(unfold max_sn; lia))
    as (_ & _ & _ & _ & K4).
  unfold given_back, forward_then_drop in *. revert K1 K2 K3 K4.
  rewrite UpdateAndGetSnTs_forward; [|lia|right; lia|unfold max_sn; lia]. cbn [fst]. intros K1 K2 K3 K4.
  eexists _, _. split; [|by split_and!]. f_equal. f_equal.
  rewrite H1. replace (extHighestIncomingSN m + 1 - extHighestIncomingSN m) with 1 by lia. done.
Qed.

(** A switch continues the numbers; a start takes those of the packet. *)
Lemma munger_switch m p d :
  numbered m -> 1 <= ExtSequenceNumber p < max_ext -> extLastSN m < max_ext ->
  let m' := UpdateSnTsOffsets p 1 d m in
  numbered m' /\ extLastSN m' = extLastSN m /\ nextNumber m' = extLastSN m + 1 /\
  extHighestIncomingSN m' = ExtSequenceNumber p - 1.
Proof.
  intros (a & Ha & Hi) Hsn Hlast. pose proof (inv_plus_bound a m Hi). unfold max_ext in *.
  destruct (UpdateSnTsOffsets_inv m p 1 d a Hi ltac:(unfold max_sn; lia) ltac:(unfold max_sn; lia)) as (Hi' & Hl & Hh).
  split; [by exists 1|]. split; [done|]. split; [by rewrite (nextNumber_eq 1 _ Hi'), Hl|done].
Qed.

Lemma munger_start m p :
  wf U64 (snRangeMap m) -> 1 <= ExtSequenceNumber p < max_ext ->
  let m' := SetLastSnTs p m in
  numbered m' /\ extLastSN m' = ExtSequenceNumber p /\ nextNumber m' = ExtSequenceNumber p.
Proof.
  intros Hwf Hsn. unfold max_ext in *.
  destruct (SetLastSnTs_inv m p Hwf ltac:(unfold max_sn; lia)) as (Hi' & Hl & Hh).
  split; [by exists 0|]. split; [done|]. rewrite (nextNumber_eq 0 _ Hi'); lia.
Qed.

Lemma munger_padding m num clk fr force ets :
  numbered m -> 0 <= num < max_ext -> extLastSN m < max_ext ->
  let '(m', out) := UpdateAndGetPaddingSnTs num clk fr force ets m in
  numbered m' /\
  match out with
  | Ok vals =>
    map snts_sn vals = consecutive (extLastSN m) (Z.to_nat num) /\ extLastSN m' = extLastSN m + num /\
    nextNumber m' = nextNumber m + num
  | Err e => m' = m /\ e = errPaddingNotOnFrameBoundary /\ lastMarker m = false /\ force = false
  end.
Proof.
  intros (a & Ha & Hi) Hnum Hlast.
  destruct (decide (num = 0)) as [->|Hne].
  { cbn. split; [by exists a|]. split; [done|]. lia. }
  destruct (negb (lastMarker m) && negb force) eqn:E.
  { unfold UpdateAndGetPaddingSnTs. rewrite E. rewrite (proj2 (Z.eqb_neq num 0)) by done.
    split; [by exists a|]. by destruct (lastMarker m), force. }
  pose proof (UpdateAndGetPaddingSnTs_inv m num clk fr force ets a Hi Ha ltac:(lia)
    ltac:(destruct (lastMarker m), force; auto) ltac:(unfold max_ext, max_sn in *; lia)) as Hout.
  destruct (UpdateAndGetPaddingSnTs _ _ _ _ _ _) as [m' out].
  destruct Hout as (Hi' & Hl & _ & vals & -> & Hv & _). split; [by exists a|]. split; [done|]. split; [done|].
  rewrite (nextNumber_eq a m' Hi' Ha), (nextNumber_eq a m Hi Ha). lia.
Qed.

(** The first packet of a new source. *)
Lemma munger_first m p d mk :
  numbered m -> 1 <= ExtSequenceNumber p < max_ext -> extLastSN m < max_ext -> PayloadLen p <> 0 ->
  exists m', UpdateAndGetSnTs p mk (UpdateSnTsOffsets p 1 d m) =
    (m', mkParams SequenceNumberOrderingContiguous (extLastSN m + 1) (u64 (extLastTS m + d)), None).
Proof.
  intros Hn Hsn Hlast Hlen. destruct (munger_switch m p d Hn Hsn Hlast) as (Hn' & Hl & Hnx & Hh).
  pose proof (numbered_cases m Hn) as [Hi Ha]. pose proof (inv_plus_bound _ _ Hi).
  assert (tsOffset (UpdateSnTsOffsets p 1 d m) = u64 (u64 (ExtTimestamp p - extLastTS m) - d)) as Ho by done.
  unfold max_ext in *. set (m1 := UpdateSnTsOffsets p 1 d m) in *.
  rewrite UpdateAndGetSnTs_forward; [|unfold max_sn; lia|right; lia|unfold max_sn; lia].
  eexists. f_equal. f_equal. rewrite Hh, Ho. f_equal.
  - by replace (ExtSequenceNumber p - (ExtSequenceNumber p - 1)) with 1 by lia.
  - rewrite <- Hnx. unfold nextNumber. rewrite Hh. f_equal. lia.
  - unfold u64. set (M := 18446744073709551616). rewrite Zminus_mod_idemp_r.
    replace (ExtTimestamp p - ((ExtTimestamp p - extLastTS m) mod M - d))
      with (ExtTimestamp p + d - (ExtTimestamp p - extLastTS m) mod M) by lia.
    rewrite Zminus_mod_idemp_r. f_equal. lia.
Qed.

Lemma munger_first_empty m p d mk :
  numbered m -> 1 <= ExtSequenceNumber p < max_ext -> extLastSN m < max_ext -> PayloadLen p = 0 ->
  exists m' t, UpdateAndGetSnTs p mk (UpdateSnTsOffsets p 1 d m) = (m', t, Some errPaddingOnlyPacket).
Proof.
  intros Hn Hsn Hlast Hlen. destruct (munger_switch m p d Hn Hsn Hlast) as (Hn' & Hl & Hnx & Hh).
  destruct (numbered_cases _ Hn') as [Hi Ha]. unfold max_ext in *. set (m1 := UpdateSnTsOffsets p 1 d m) in *. clearbody m1.
  pose proof (UpdateAndGetSnTs_padding_only m1 p mk _ Hi Ha ltac:(lia) Hlen
    ltac:(unfold max_sn; lia) ltac:(unfold max_sn; lia)) as Hout.
  destruct (UpdateAndGetSnTs p mk m1) as [[m2 t] err]. destruct Hout as (-> & _). by eauto.
Qed.

Lemma i64_mod x y : x mod 18446744073709551616 = y mod 18446744073709551616 -> i64 x = i64 y.
Proof. intros E. unfold i64. f_equal. by rewrite (Zplus_mod x), (Zplus_mod y), E. Qed.

Lemma i64_advance last d : i64 (u64 (u64 (last + d) - last)) = i64 d.
Proof.
  apply i64_mod. unfold u64. rewrite Zmod_mod, Zminus_mod_idemp_l. f_equal. lia.
Qed.

(** ** Timestamps *)

Lemma extend_base last : 0 <= last < 18446744073709551616 ->
  Z.land last 0xFFFFFFFF00000000 = last - u32 last.
Proof.
  intros Hl. change 0xFFFFFFFF00000000 with (2 ^ 64 - 2 ^ 32). rewrite land_high by (cbn; lia). reflexivity.
Qed.

Lemma extendRefTS_near last ref :
  0 <= last < 2 ^ 63 -> 0 <= ref < two32 ->
  let e := extendRefTS last ref 0 in
  u32 e = ref /\ 0 <= e /\ (Z.abs (e - last) <= two31 \/ (last + two31 < ref /\ e = ref)).
Proof.
  intros Hl Hr. unfold two32, two31 in *. unfold extendRefTS. rewrite extend_base by lia.
  pose proof (u32_range last) as Hu. assert (u32 last <= last) as Hle by (unfold u32; apply Z.mod_le; lia).
  pose proof (Z.div_mod last 4294967296 ltac:(lia)) as Hdm. fold (u32 last) in Hdm.
  set (q := last / 4294967296) in *. assert (0 <= q < 2147483648) by lia.
  replace (u64 (u64 (last - u32 last + ref) + 0)) with (4294967296 * q + ref)
    by (rewrite Z.add_0_r, !u64_small; try apply u64_range; lia).
  assert (forall k, 0 <= k -> u32 (4294967296 * k + ref) = ref) as Hlow.
  { intros k Hk. unfold u32. rewrite Z.add_comm, Z.mul_comm, Z.mod_add by lia. apply Z.mod_small. lia. }
  cbv zeta. rewrite Hlow by lia. unfold two31, two32.
  assert (u32 (ref - u32 last) = if ref <? u32 last then ref - u32 last + 4294967296 else ref - u32 last) as ->.
  { unfold u32 at 1. case_if; bool_prop; [rewrite <- (Z.mod_add _ 1) by lia|]; rewrite Z.mod_small; lia. }
  assert (u32 (u32 last - ref) = if u32 last <? ref then u32 last - ref + 4294967296 else u32 last - ref) as ->.
  { unfold u32 at 1. case_if; bool_prop; [rewrite <- (Z.mod_add _ 1) by lia|]; rewrite Z.mod_small; lia. }
  rewrite Z.geb_leb.
  destruct (Z.ltb_spec ref (u32 last)); destruct (Z.ltb_spec (u32 last) ref); try lia;
    rewrite ?andb_true_r, ?andb_false_r; cbn [andb].
  - destruct (Z.ltb_spec (ref - u32 last + 4294967296) 2147483648).
    + rewrite u64_small by lia. replace (4294967296 * q + ref + 4294967296) with (4294967296 * (q + 1) + ref) by lia.
      rewrite Hlow by lia. split; [done|]. split; [lia|]. left. lia.
    + rewrite Hlow by lia. split; [done|]. split; [lia|]. left. lia.
  - destruct (Z.ltb_spec (u32 last - ref + 4294967296) 2147483648); cbn [andb].
    + destruct (Z.leb_spec 4294967296 (4294967296 * q + ref)).
      * rewrite u64_small by lia. replace (4294967296 * q + ref - 4294967296) with (4294967296 * (q - 1) + ref) by lia.
        rewrite Hlow by lia. split; [done|]. split; [lia|]. left. lia.
      * rewrite Hlow by lia. split; [done|]. split; [lia|]. right. lia.
    + rewrite Hlow by lia. split; [done|]. split; [lia|]. left. lia.
  - rewrite Hlow by lia. split; [done|]. split; [lia|]. left. lia.
Qed.

(** C39: without an offset from a dummy start, the reference timestamp of a
    packet is extended to the number nearest to the last timestamp sent: no
    other extended timestamp with the same low half is closer. *)
Theorem extendRefTS_nearest last ref :
  0 <= last < 2 ^ 63 -> 0 <= ref < two32 ->
  let e := extendRefTS last ref 0 in
  u32 e = ref /\ 0 <= e /\ forall e', 0 <= e' -> u32 e' = ref -> Z.abs (e - last) <= Z.abs (e' - last).
Proof.
  intros Hl Hr. destruct (extendRefTS_near last ref Hl Hr) as (H1 & H2 & H3). cbv zeta in *.
  split; [exact H1|]. split; [exact H2|]. intros e' Hp He'. set (e := extendRefTS last ref 0) in *. clearbody e.
  assert (exists k, e' = e + 4294967296 * k) as [k Hk].
  { exists (e' / 4294967296 - e / 4294967296). unfold u32 in *. dlia. }
  unfold two31, two32 in *.
  destruct H3 as [H3|[H3 ->]]; [destruct (Z.eq_dec k 0)|destruct (Z.le_gt_cases 0 k)]; lia.
Qed.

(** ** Translation and the numbers *)

Lemma filtered_in_order {om} `{OrderedMap om} p ooo gap tl (cm cm' : CodecMunger (om := om)) :
  CMUpdateAndGet p ooo gap tl cm = (cm', Err ErrFilteredVP8TemporalLayer) -> ooo = false /\ gap = false.
Proof.
  destruct cm as [s|v]; cbn [CMUpdateAndGet]; [intros [=]|]. unfold UpdateAndGet.
  destruct (Payload p) as [|vp8|vp9]; [by intros [=]| |by intros [=]].
  destruct (Unwrap _ _ _) as [h pic]. cbv zeta. destruct ooo, gap; [..|done].
  all: unfold Vp8Munger.forward, marshalled; repeat case_match; intros [=]; subst; simplify_eq.
Qed.

Section translation.
Context {om : Type -> Type} `{OM : OrderedMap om}.
Context (ToRTPExt : Z -> Z -> Z) (NtpTime_Time : Z -> Z).
Implicit Types f : Forwarder om.

#[local] Abbreviation switchSource := (switchSource ToRTPExt NtpTime_Time).
#[local] Abbreviation processSourceSwitch := (processSourceSwitch ToRTPExt NtpTime_Time).
#[local] Abbreviation getTranslationParamsCommon := (getTranslationParamsCommon ToRTPExt NtpTime_Time).
#[local] Abbreviation getTranslationParamsVideo := (getTranslationParamsVideo ToRTPExt NtpTime_Time).
#[local] Abbreviation GetTranslationParams := (GetTranslationParams ToRTPExt NtpTime_Time).

(** The parts of the state that no translation changes. *)
Record same_stream f f' : Prop := {
  sm_kind : kind f' = kind f;
  sm_muted : muted f' = muted f;
  sm_pubMuted : pubMuted f' = pubMuted f;
  sm_refInfos : refInfos f' = refInfos f;
  sm_allocation : lastAllocation f' = lastAllocation f;
  sm_clockRate : clockRate f' = clockRate f;
}.

Lemma same_stream_refl f : same_stream f f.
Proof. by split. Qed.

Lemma same_stream_trans f g h : same_stream f g -> same_stream g h -> same_stream f h.
Proof. intros [] []. split; congruence. Qed.

(** [f'] is [f] but for the codec munger, the selector and the munger. *)
Record same_source f f' : Prop := {
  sc_stream : same_stream f f';
  sc_started : started f' = started f;
  sc_ssrc : lastSSRC f' = lastSSRC f;
  sc_layer : referenceLayerSpatial f' = referenceLayerSpatial f;
}.

Lemma same_source_trans f g h : same_source f g -> same_source g h -> same_source f h.
Proof. intros [] []. split; [by eapply same_stream_trans|congruence..]. Qed.

Lemma same_source_refl f : same_source f f.
Proof. by split. Qed.

Lemma translateCodecHeader_ok p tp f :
  let '(f', tp', err) := translateCodecHeader p tp f in
  same_source f f' /\ rtp tp' = rtp tp /\
  (rtpMunger f' = rtpMunger f \/
   (rtpMunger f' = PacketDropped (ext_packet p) (rtpMunger f) /\ shouldDrop tp' = true /\
    snOrdering (rtp tp) <> SequenceNumberOrderingOutOfOrder /\ snOrdering (rtp tp) <> SequenceNumberOrderingGap)).
Proof.
  unfold translateCodecHeader. destruct (vlsSelectTemporal _ _) as [v tl].
  destruct (CMUpdateAndGet _ _ _ _ _) as [cm out] eqn:E.
  destruct out as [[n bs]|e]; [by split_and!; [split|..|left]|].
  destruct e; try by (split_and!; [split; [by split|done..]|done|left; done]).
  apply filtered_in_order in E as [E1 E2].
  split; [split; [by split|done..]|]. split; [done|]. right.
  split_and!; [done|done|by apply bool_decide_eq_false in E1|by apply bool_decide_eq_false in E2].
Qed.

(** The number newly taken by a packet that is sent. *)
Definition sent (tp : TranslationParams) : list Z :=
  if shouldDrop tp || isLate (rtp tp) then [] else [extSequenceNumber (rtp tp)].

Lemma sent_dropped tp : shouldDrop tp = true -> sent tp = [].
Proof. unfold sent. by intros ->. Qed.

(** Packets with an extended number that no stream exceeds. *)
Definition in_range (p : RTPPacket) : Prop := 1 <= ExtSequenceNumber (ext_packet p) < max_ext /\ SSRC p <> 0.

Lemma translatePacket_ok p tp f :
  numbered (rtpMunger f) -> in_range p -> extLastSN (rtpMunger f) < max_ext ->
  let '(f', tp', err) := translatePacket p tp f in
  same_source f f' /\ numbered (rtpMunger f') /\
  advances (nextNumber (rtpMunger f) - 1) (sent tp') (nextNumber (rtpMunger f') - 1).
Proof.
  intros Hn [Hsn _] Hlast. unfold translatePacket.
  pose proof (munger_outcome (rtpMunger f) (ext_packet p) (marker tp) Hn ltac:(lia) Hlast) as Hout.
  pose proof (munger_drop (rtpMunger f) (ext_packet p) (marker tp) Hn) as Hdrop. unfold forward_then_drop in Hdrop.
  destruct (UpdateAndGetSnTs _ _ _) as [[m t] [e|]]; cbn [fst] in Hdrop; destruct Hout as [Hm Hout].
  - destruct Hout as (He & Hl & Hnext & _). rewrite <- Hnext.
    destruct e; try done; (split; [split; [by split|done..]|]; split; [done|]; rewrite sent_dropped by done;
      apply advances_nil; done).
  - assert (nextNumber (rtpMunger f) - 1 <= nextNumber m - 1) as Hmono.
    { destruct (isLate t); [by rewrite Hout|]. lia. }
    assert (forall tp', rtp tp' = t -> advances (nextNumber (rtpMunger f) - 1) (sent tp') (nextNumber m - 1)) as Hsent.
    { intros tp' Htp. unfold sent. destruct (shouldDrop tp'); [by apply advances_nil|]. rewrite Htp. cbn [orb].
      destruct (isLate t); [by apply advances_nil|]. destruct Hout as (H1 & H2 & H3 & _). apply advances_one; lia. }
    case_if; [|split; [split; [by split|done..]|]; split; [done|]; by apply Hsent].
    pose proof (translateCodecHeader_ok p (tp <| rtp := t |>) (f <| rtpMunger := m |>)) as Hc.
    destruct (translateCodecHeader _ _ _) as [[f' tp'] err].
    destruct Hc as (Hs & Hr & [Hm'|(Hm' & Hd & Ho1 & Ho2)]).
    + split; [eapply same_source_trans; [|exact Hs]; split; [by split|done..]|].
      rewrite Hm'. split; [done|]. by apply Hsent.
    + split; [eapply same_source_trans; [|exact Hs]; split; [by split|done..]|].
      assert (contiguous (ext_packet p) (rtpMunger f)) as Hcont.
      { unfold isLate in Hout. rewrite bool_decide_eq_false_2 in Hout by exact Ho1.
        destruct Hout as (_ & _ & _ & [[_ Hout]|[Hout _]]); [done|]. exfalso. by apply Ho2. }
      destruct (Hdrop Hcont ltac:(lia) Hlast) as (H1 & H2 & H3).
      rewrite Hm'. split; [exact H1|]. rewrite sent_dropped by done. apply advances_nil.
      change (nextNumber (rtpMunger f) - 1 <= nextNumber (PacketDropped (ext_packet p) m) - 1). lia.
Qed.

(** *** A new source *)

Lemma expectedTS_eq at_ now last ref f f' e r :
  expectedTS ToRTPExt at_ now last ref f = (f', e, r) ->
  f' = f <| dummyStartTSOffset := dummyStartTSOffset f' |>.
Proof.
  unfold expectedTS. intros E.
  assert (f = f <| dummyStartTSOffset := dummyStartTSOffset f |>) as Hf by (by destruct f).
  repeat case_match; simplify_eq; done.
Qed.

(** The step of the timestamp that a switch asks for. *)
Lemma nominalIncrease_ahead next last : 0 < i64 (u64 (nominalIncrease next last - last)).
Proof. unfold nominalIncrease. case_if; bool_prop; [apply i64_succ|lia]. Qed.

(** A switch of a running stream continues the numbers and moves the
    timestamp forward; a failed one leaves the munger alone. *)
Definition switched_munger (p : ExtPacket) (m m' : RTPMunger) : Prop :=
  exists d, 0 < i64 d /\ m' = UpdateSnTsOffsets p 1 d m.

Lemma switchSource_ok p layer at_ now f f' e :
  switchSource p layer at_ now f = Ok (f', e) ->
  same_source f f' /\ vls f' = vls f /\
  match e with
  | Some _ => rtpMunger f' = rtpMunger f /\ codecMunger f' = codecMunger f
  | None => switched_munger (ext_packet p) (rtpMunger f) (rtpMunger f')
  end.
Proof.
  unfold Translation.switchSource. intros (ref & _ & E)%res_bind_Ok. revert E.
  destruct ref as [refTS|e0]; [|by intros [= <- <-]].
  destruct (expectedTS _ _ _ _ _ _) as [[f1 ets] rts] eqn:E1. apply expectedTS_eq in E1.
  set (last := ExtLastTimestamp _).
  assert (same_source f f1 /\ vls f1 = vls f /\ rtpMunger f1 = rtpMunger f /\ codecMunger f1 = codecMunger f)
    as (Hs & Hv & Hm & Hc) by (rewrite E1; by split_and!; [split|..]). clear E1.
  set (x := if lastSSRC f1 =? 0 then _ else _).
  assert (same_source f (fst x) /\ vls (fst x) = vls f /\ rtpMunger (fst x) = rtpMunger f /\
          codecMunger (fst x) = codecMunger f) as (Hs' & Hv' & Hm' & Hc').
  { subst x. case_if; [|done]. split_and!; [|done..]. eapply same_source_trans; [exact Hs|by split]. }
  destruct x as [f2 [next|]]; cbn [fst] in *; intros [= <- <-]; [|done].
  split; [eapply same_source_trans; [exact Hs'|by split]|]. split; [done|].
  exists (u64 (nominalIncrease next last - last)). split; [apply nominalIncrease_ahead|].
  cbn. by rewrite Hm'.
Qed.

(** After [processSourceSwitch]: the munger of a stream that starts is set to
    the packet. *)
Lemma processSourceSwitch_ok p layer at_ now f f' e :
  processSourceSwitch p layer at_ now f = Ok (f', e) ->
  same_stream f f' /\ vls f' = vls f /\ lastSSRC f' = lastSSRC f /\
  match e with
  | Some _ => rtpMunger f' = rtpMunger f /\ started f' = started f
  | None =>
    started f' = true /\
    if started f then switched_munger (ext_packet p) (rtpMunger f) (rtpMunger f')
    else rtpMunger f' = SetLastSnTs (ext_packet p) (rtpMunger f)
  end.
Proof.
  unfold Translation.processSourceSwitch. destruct (started f) eqn:Est; cbn [negb].
  - assert (forall g, same_stream f g -> vls g = vls f -> lastSSRC g = lastSSRC f -> started g = true ->
      rtpMunger g = rtpMunger f -> switchSource p layer at_ now g = Ok (f', e) ->
      same_stream f f' /\ vls f' = vls f /\ lastSSRC f' = lastSSRC f /\
      match e with
      | Some _ => rtpMunger f' = rtpMunger f /\ started f' = true
      | None => started f' = true /\ switched_munger (ext_packet p) (rtpMunger f) (rtpMunger f')
      end) as Hgen.
    { intros g Hg Hv Hl Hst Hm (Hs & Hv' & He)%switchSource_ok. rewrite Hm in He.
      split; [eapply same_stream_trans; [exact Hg|apply Hs]|].
      rewrite Hv', (sc_ssrc _ _ Hs), (sc_started _ _ Hs). split; [done|]. split; [done|].
      destruct e; [by destruct He|done]. }
    case_if; [|apply Hgen; by try apply same_stream_refl].
    case_if; [intros [= <- <-]; by split_and!|]. apply Hgen; by try split.
  - case_if; intros [= <- <-]; by split_and!.
Qed.

(** ** The invariant of the forwarder *)

Record numbering_ok f : Prop := {
  no_wf : wf U64 (snRangeMap (rtpMunger f));
  no_started : started f = true -> numbered (rtpMunger f);
  no_source : lastSSRC f <> 0 -> started f = true;
}.

(** No number above it has been sent, and every packet that will be sent in
    order gets a number above it. *)
Definition bound f : Z :=
  if started f then
    if lastSSRC f =? 0 then extLastSN (rtpMunger f) else nextNumber (rtpMunger f) - 1
  else -1.

Definition small f : Prop := extLastSN (rtpMunger f) < max_ext.

Lemma numbered_wf m : numbered m -> wf U64 (snRangeMap m).
Proof. intros (a & _ & Hi). by eapply inv_plus_wf. Qed.

Lemma numbering_intro f : started f = true -> numbered (rtpMunger f) -> numbering_ok f.
Proof. intros Hst Hn. split; [by apply numbered_wf|done|done]. Qed.

Lemma bound_started f : started f = true -> numbered (rtpMunger f) ->
  nextNumber (rtpMunger f) - 1 <= bound f <= extLastSN (rtpMunger f) /\ 0 <= extLastSN (rtpMunger f).
Proof.
  intros Hst Hn. unfold bound. rewrite Hst. destruct (numbered_cases _ Hn) as [Hi Ha].
  pose proof (inv_plus_bound _ _ Hi). case_if; lia.
Qed.

Lemma bound_low f : numbering_ok f -> -1 <= bound f.
Proof.
  intros Hok. destruct (started f) eqn:Hst; [|by unfold bound; rewrite Hst].
  pose proof (no_started f Hok Hst) as Hn. pose proof (bound_started f Hst Hn). destruct (numbered_cases _ Hn). lia.
Qed.

Lemma same_numbers_ok f f' : rtpMunger f' = rtpMunger f -> started f' = started f ->
  lastSSRC f' = lastSSRC f \/ lastSSRC f' = 0 -> numbering_ok f -> numbering_ok f' /\ bound f <= bound f'.
Proof.
  intros Hm Hst Hl [H1 H2 H3]. split.
  - split; rewrite ?Hm, ?Hst; [done..|]. intros Hne. apply H3. destruct Hl; congruence.
  - unfold bound. rewrite Hst, Hm. destruct (started f) eqn:Est; [|done].
    destruct (numbered_cases _ (H2 eq_refl)) as [_ Ha]. destruct Hl as [-> | ->]; [done|]. cbn [Z.eqb]. case_if; lia.
Qed.

Lemma common_ok p layer at_ now tp f f' tp' err :
  numbering_ok f -> in_range p -> small f ->
  getTranslationParamsCommon p layer at_ now tp f = Ok (f', tp', err) ->
  numbering_ok f' /\ same_stream f f' /\ advances (bound f) (sent tp') (bound f').
Proof.
  intros Hok Hp Hsm. pose proof Hp as [Hsn Hssrc]. unfold Translation.getTranslationParamsCommon.
  assert (forall g, started g = true -> lastSSRC g <> 0 -> numbered (rtpMunger g) -> small g -> same_stream f g ->
    bound f <= nextNumber (rtpMunger g) - 1 -> translatePacket p tp g = (f', tp', err) ->
    numbering_ok f' /\ same_stream f f' /\ advances (bound f) (sent tp') (bound f')) as Hgen.
  { intros g Hst Hl Hn Hs Hfg Hb Eg. pose proof (translatePacket_ok p tp g Hn Hp Hs) as Hout. rewrite Eg in Hout.
    destruct Hout as (Hss & Hn' & Hadv).
    assert (started f' = true) as Hst' by (by rewrite (sc_started _ _ Hss)).
    split; [by apply numbering_intro|]. split; [eapply same_stream_trans; [exact Hfg|apply Hss]|].
    eapply advances_weaken; [exact Hadv|done|]. by apply bound_started. }
  destruct (Z.eqb_spec (lastSSRC f) (SSRC p)) as [E|E]; cbn [negb].
  - intros [= Eg]. assert (started f = true) as Hst by (apply Hok; congruence).
    apply (Hgen f); try done; [congruence|by apply Hok|]. unfold bound. rewrite Hst.
    by rewrite (proj2 (Z.eqb_neq (lastSSRC f) 0)) by congruence.
  - intros ([g [e|]] & Hsw & Eg)%res_bind_Ok; apply processSourceSwitch_ok in Hsw as (Hs & Hv & Hl & He); revert Eg.
    + intros [= <- <- <-]. destruct He as [Hm Hst].
      set (g' := g <| vls := vlsRollback (vls g) |>).
      destruct (same_numbers_ok f g' Hm Hst (or_introl Hl) Hok) as [H1 H2].
      split; [exact H1|]. split; [eapply same_stream_trans; [exact Hs|by split]|].
      rewrite sent_dropped by done. by apply advances_nil.
    + destruct He as [Hst He]. intros [= Eg].
      refine (Hgen _ _ _ _ _ _ _ Eg); try done; [| |eapply same_stream_trans; [exact Hs|by split]|]; cbn.
      all: destruct (started f) eqn:Est.
      all: try (destruct He as (d & _ & He)).
      all: try (pose proof (munger_switch (rtpMunger f) (ext_packet p) d (no_started _ Hok Est) Hsn Hsm) as (H1 & H2 & H3 & _)).
      all: try (pose proof (munger_start (rtpMunger f) (ext_packet p) (no_wf _ Hok) Hsn) as (H1 & H2 & H3)).
      all: unfold small; cbn; rewrite He; try done.
      all: rewrite ?H2, ?H3; try done; try lia.
      * pose proof (bound_started f Est (no_started _ Hok Est)). lia.
      * unfold bound. rewrite Est. lia.
Qed.

(** *** Packets that are not selected *)

Lemma turnOffDD_same f : same_stream f (turnOffDD f) /\ rtpMunger (turnOffDD f) = rtpMunger f /\
  started (turnOffDD f) = started f /\ lastSSRC (turnOffDD f) = lastSSRC f.
Proof. unfold turnOffDD. cbv zeta. case_match; by split_and!. Qed.

(** The munger sees the packet, and forgets it when it was the next one. *)
Lemma observe_munger m p mk :
  numbered m -> 0 <= ExtSequenceNumber p < max_ext -> extLastSN m < max_ext ->
  let '(m1, t, err) := UpdateAndGetSnTs p mk m in
  let m' := match err with
            | None => if bool_decide (snOrdering t = SequenceNumberOrderingContiguous) then PacketDropped p m1 else m1
            | Some _ => m1
            end in
  numbered m' /\ extLastSN m <= extLastSN m' /\ nextNumber m <= nextNumber m' /\
  (contiguous p m -> extLastSN m' = extLastSN m /\ nextNumber m' = nextNumber m).
Proof.
  intros Hn Hsn Hlast. pose proof (munger_outcome m p mk Hn Hsn Hlast) as Hout.
  pose proof (munger_drop m p mk Hn) as Hdrop. unfold forward_then_drop in Hdrop.
  destruct (numbered_cases m Hn) as [_ Ha].
  destruct (UpdateAndGetSnTs p mk m) as [[m1 t] [e|]]; cbn [fst] in Hdrop; destruct Hout as [Hm Hout].
  - destruct Hout as (_ & Hl & Hnx & Hc). cbv zeta. split_and!; [done|lia|lia|by intros []%Hc].
  - unfold isLate in Hout. case_bool_decide as Hlate.
    + subst m1. rewrite Hlate. by rewrite bool_decide_eq_false_2.
    + destruct Hout as (H1 & H2 & H3 & [[Ho Hc]|[Ho Hc]]); rewrite Ho.
      * rewrite bool_decide_eq_true_2 by done. destruct (Hdrop Hc ltac:(lia) Hlast) as (K1 & K2 & K3).
        cbv zeta. by rewrite K2, K3.
      * rewrite bool_decide_eq_false_2 by done. cbv zeta. split_and!; [done|lia|lia|done].
Qed.

Lemma notSelected_ok p result f :
  numbering_ok f -> in_range p -> small f ->
  let f' := notSelected p result f in
  numbering_ok f' /\ same_stream f f' /\ started f' = started f /\ lastSSRC f' = lastSSRC f /\ bound f <= bound f' /\
  (contiguous (ext_packet p) (rtpMunger f) -> extLastSN (rtpMunger f') = extLastSN (rtpMunger f) /\ bound f' = bound f).
Proof.
  intros Hok [Hsn _] Hsm. unfold notSelected.
  set (g := if isDDAvailable f && _ then turnOffDD f else f).
  assert (same_stream f g /\ rtpMunger g = rtpMunger f /\ started g = started f /\ lastSSRC g = lastSSRC f)
    as (Hs & Hm & Hst & Hl) by (subst g; destruct (isDDAvailable f && _); [apply turnOffDD_same|by split_and!; [split|..]]).
  destruct (same_numbers_ok f g Hm Hst (or_introl Hl) Hok) as [Hok' Hb].
  assert (bound g = bound f) as Hbg by (unfold bound; by rewrite Hm, Hst, Hl).
  case_if; [|by rewrite Hm, Hbg; split_and!].
  apply andb_true_iff in E as [Eg _]. rewrite Hst in Eg.
  pose proof (observe_munger (rtpMunger f) (ext_packet p) (RTPMarker result) (no_started f Hok Eg) ltac:(lia) Hsm) as Hobs.
  rewrite Hm. destruct (UpdateAndGetSnTs _ _ _) as [[m1 t] err].
  set (m' := match err with None => if bool_decide _ then _ else _ | Some _ => m1 end) in Hobs.
  set (h := match err with None => if bool_decide _ then _ else _ | Some _ => _ end).
  assert (h = g <| rtpMunger := m' |>) as -> by (subst h m'; destruct err; [done|by case_if]).
  destruct Hobs as (Hn' & H1 & H2 & H3).
  split; [by apply numbering_intro; [cbn; congruence|]|]. split; [eapply same_stream_trans; [exact Hs|by split]|].
  split; [done|]. split; [done|]. unfold bound. cbn. rewrite Hst, Eg, Hl.
  split; [case_if; lia|]. intros [K1 K2]%H3. split; [done|]. case_if; lia.
Qed.

(** *** All packets *)

Lemma GetTranslationParams_ok p layer at_ now f f' tp err :
  numbering_ok f -> in_range p -> small f ->
  GetTranslationParams p layer at_ now f = Ok (f', tp, err) ->
  numbering_ok f' /\ same_stream f f' /\ advances (bound f) (sent tp) (bound f').
Proof.
  intros Hok Hp Hsm. unfold Translation.GetTranslationParams.
  assert (forall x, x = f -> numbering_ok x /\ same_stream f x /\ advances (bound f) (sent dropParams) (bound x)) as Hdrop.
  { intros x ->. split; [done|]. split; [apply same_stream_refl|]. by apply advances_nil. }
  case_if; [intros [= <- <- <-]; by apply Hdrop|]. destruct (kind f).
  - intros [= <- <- <-]. by apply Hdrop.
  - unfold lift_panic. destruct (getTranslationParamsAudio _ _ _ _ _ _ _) as [x|] eqn:E1; [|done]. intros [= ->]. revert E1.
    unfold getTranslationParamsAudio. intros ([[g tp1] e] & Ec & Er)%res_bind_Ok.
    destruct (common_ok _ _ _ _ _ _ _ _ _ Hok Hp Hsm Ec) as (H1 & H2 & H3).
    destruct e as [e|]; injection Er as <- <- <-; [|done].
    split; [done|]. split; [done|]. rewrite sent_dropped by done. apply advances_nil.
    destruct H3 as [_ H3]. by apply Forall_cons in H3 as [H3 _].
  - unfold Translation.getTranslationParamsVideo. case_if; [intros [= <- <- <-]; by apply Hdrop|].
    intros ([v r] & Ev & Er)%res_bind_Ok. set (g := f <| vls := v |>) in *.
    assert (numbering_ok g) as Hok' by (by destruct Hok; split).
    assert (forall x, same_stream g x -> same_stream f x) as Hfg by (intros x [] ; by split).
    destruct (IsSelected r); cbn [negb] in Er.
    + apply res_bind_Ok in Er as ([[g1 tp1] e] & Ec & Er). unfold lift_panic in Ec.
      destruct (getTranslationParamsCommon _ _ _ _ _ _) as [x|] eqn:Ec'; [|done]. apply Ok_inj in Ec as ->.
      destruct (common_ok _ _ _ _ _ _ _ _ _ Hok' Hp Hsm Ec') as (H1 & H2 & H3). change (bound g) with (bound f) in H3.
      pose proof H3 as [_ Hb]. apply Forall_cons in Hb as [Hb _]. apply Hfg in H2.
      case_if_in Er; [by injection Er as <- <- <-|]. case_if_in Er; injection Er as <- <- <-; [|done].
      split; [done|]. split; [done|]. rewrite sent_dropped by done. by apply advances_nil.
    + apply Ok_inj in Er. injection Er as <- <- <-.
      destruct (notSelected_ok p r g Hok' Hp Hsm) as (H1 & H2 & _ & _ & H3 & _).
      split; [done|]. split; [by apply Hfg|]. rewrite sent_dropped by done. by apply advances_nil.
Qed.

(** *** Padding *)

(** Padding may be sent before a source is followed, or once its first packet
    has been sent. *)
Definition padding_allowed f : Prop :=
  lastSSRC f = 0 \/ nextNumber (rtpMunger f) = extLastSN (rtpMunger f) + 1.

(** [rand.Intn(1<<14)] *)
Definition rand14 (x : Z) : Prop := 0 <= x < 16384.

Lemma maybeStart_ok rsn rts now f :
  numbering_ok f -> rand14 rsn -> small f -> padding_allowed f ->
  let f' := maybeStart rsn rts now f in
  numbering_ok f' /\ started f' = true /\ small f' /\ bound f <= bound f' /\ bound f' = extLastSN (rtpMunger f') /\
  padding_allowed f' /\ same_stream f f' /\ vls f' = vls f /\ lastSSRC f' = lastSSRC f.
Proof.
  intros Hok Hr Hsm Hpad. unfold maybeStart. destruct (started f) eqn:Hst.
  { cbv zeta. split_and!; try done. unfold bound. rewrite Hst. destruct Hpad as [-> | Hpad]; [done|]. case_if; lia. }
  set (sn := u16 (u16 rsn + u16 (Z.shiftl 1 15))).
  assert (sn = rsn + 32768) as Hsn by (unfold sn, rand14 in *; change (u16 (Z.shiftl 1 15)) with 32768;
    rewrite (u16_small rsn), u16_small; lia).
  pose proof (bound_low f Hok) as Hlow. assert (bound f = -1) as Hb by (unfold bound; by rewrite Hst).
  set (d := dummyPacket sn (u32 (u32 rts + u32 (Z.shiftl 1 31)))).
  destruct (munger_start (rtpMunger f) d (no_wf _ Hok) ltac:(cbn; unfold rand14, max_ext in *; lia)) as (H1 & H2 & H3).
  assert (lastSSRC f = 0) as Hl.
  { destruct (Z.eqb_spec (lastSSRC f) 0) as [|Hne]; [done|]. apply (no_source f Hok) in Hne. congruence. }
  split; [by apply numbering_intro|]. split; [done|]. cbn in H2, H3.
  unfold small, bound, padding_allowed. cbn. rewrite Hl, Hst. cbn [Z.eqb].
  assert (0 <= sn < max_ext) by (unfold max_ext, rand14 in *; lia).
  split_and!; try done; lia.
Qed.

Lemma padding_ok num fr force ets f :
  numbering_ok f -> started f = true -> small f -> padding_allowed f -> 0 <= num < max_ext ->
  bound f = extLastSN (rtpMunger f) ->
  let '(m, out) := UpdateAndGetPaddingSnTs num (clockRate f) fr force ets (rtpMunger f) in
  let f' := f <| rtpMunger := m |> in
  numbering_ok f' /\
  advances (bound f) (match out with Ok vals => map snts_sn vals | Err _ => [] end) (bound f').
Proof.
  intros Hok Hst Hsm Hpad Hnum Hb.
  pose proof (munger_padding (rtpMunger f) num (clockRate f) fr force ets (no_started f Hok Hst) Hnum Hsm) as Hout.
  destruct (UpdateAndGetPaddingSnTs _ _ _ _ _ _) as [m [vals|e]]; destruct Hout as [Hn Hout].
  - destruct Hout as (Hv & Hl & Hnx). split; [by apply numbering_intro|]. rewrite Hv.
    eapply advances_weaken; [apply advances_consecutive|lia|]. unfold bound. cbn. rewrite Hst.
    rewrite Z2Nat.id by lia. unfold padding_allowed in Hpad. case_if; bool_prop; [lia|]. destruct Hpad; [done|]. lia.
  - destruct Hout as (-> & _). split; [by destruct f|]. apply advances_nil. by destruct f.
Qed.

Definition padding_numbers (out : res munger_error (list SnTs)) : list Z :=
  match out with Ok vals => map snts_sn vals | Err _ => [] end.

(** ** Runs of the forwarder *)

(** The operations that do not look at packets. *)
Inductive control : Forwarder om -> Forwarder om -> Prop :=
| control_resync f : control f (Resync f)
| control_mute m mutable f : control f (fst (Mute m mutable f))
| control_pubMute m f : control f (fst (PubMute m f))
| control_restart f : control f (Restart f)
| control_codec mt rate dd mode f : control f (DetermineCodec mt rate dd mode f)
| control_report layer sr f : control f (SetRefSenderReport layer sr f)
| control_settings g f : control f (onVls g f)
| control_allocate alloc f : control f (fst (updateAllocation alloc f)).

(** A forwarder at work, and the new numbers it puts on what it sends. *)
Inductive translation_step : Forwarder om -> list Z -> Forwarder om -> Prop :=
| step_translate p layer at_ now f f' tp err :
    in_range p -> small f -> GetTranslationParams p layer at_ now f = Ok (f', tp, err) ->
    translation_step f (sent tp) f'
| step_pad rsn rts now num fr force f f' out :
    rand14 rsn -> 0 <= num < max_ext -> small f -> padding_allowed f ->
    GetSnTsForPadding rsn rts now num fr force f = (f', out) ->
    translation_step f (padding_numbers out) f'
| step_blank rsn rts now at_ num fr f f' out fe :
    rand14 rsn -> 0 <= num < max_ext - 1 -> small f -> padding_allowed f ->
    GetSnTsForBlankFrames ToRTPExt rsn rts now at_ fr num f = (f', (out, fe)) ->
    translation_step f (padding_numbers out) f'
| step_control f f' : control f f' -> translation_step f [] f'.

Inductive translation_steps : Forwarder om -> list Z -> Forwarder om -> Prop :=
| tsteps_refl f : translation_steps f [] f
| tsteps_step f l f1 k f2 : translation_step f l f1 -> translation_steps f1 k f2 -> translation_steps f (l ++ k) f2.

Lemma resync_numbers f : rtpMunger (resyncLocked f) = rtpMunger f /\ started (resyncLocked f) = started f /\
  lastSSRC (resyncLocked f) = 0.
Proof. unfold resyncLocked. by case_if. Qed.

Lemma setTarget_numbers l r f : rtpMunger (setTargetLayer l r f) = rtpMunger f /\
  started (setTargetLayer l r f) = started f /\ lastSSRC (setTargetLayer l r f) = lastSSRC f.
Proof. unfold setTargetLayer. by case_if. Qed.

Lemma control_numbers f f' : control f f' ->
  rtpMunger f' = rtpMunger f /\ started f' = started f /\ (lastSSRC f' = lastSSRC f \/ lastSSRC f' = 0).
Proof.
  intros [g|m mutable g|m g|g|mt rate dd mode g|layer sr g|h g|alloc g]; clear f f'.
  - destruct (resync_numbers g) as (H1 & H2 & H3). by auto.
  - unfold Mute. destruct (Bool.eqb _ _); [by auto|]. destruct (m && _); [by auto|]. destruct m; cbn [fst]; [|by auto].
    match goal with |- context [resyncLocked ?x] => destruct (resync_numbers x) as (-> & -> & ->) end. by auto.
  - unfold PubMute. destruct (Bool.eqb _ _); [by auto|]. destruct m; cbn [fst]; [|by auto].
    match goal with |- context [resyncLocked ?x] => destruct (resync_numbers x) as (-> & -> & ->) end. by auto.
  - destruct (setTarget_numbers InvalidLayer InvalidLayerSpatial (resyncLocked g)) as (H1 & H2 & H3).
    destruct (resync_numbers g) as (K1 & K2 & K3). rewrite K1 in H1. rewrite K2 in H2. rewrite K3 in H3. by auto.
  - unfold DetermineCodec. cbn. destruct mt, mode, dd; cbn; by auto.
  - unfold SetRefSenderReport. case_if; [|by auto]. destruct (getRefLayer g). by auto.
  - by auto.
  - unfold updateAllocation. cbv zeta. set (a := if IsValid _ && _ then _ else alloc).
    set (g1 := g <| lastAllocation := a |>).
    destruct (setTarget_numbers (va_TargetLayer a) (va_RequestLayerSpatial a) g1) as (H1 & H2 & H3).
    case_if; cbn [fst]; [|rewrite H1, H2, H3; by auto].
    destruct (resync_numbers (setTargetLayer (va_TargetLayer a) (va_RequestLayerSpatial a) g1)) as (-> & -> & ->).
    rewrite H1, H2. by auto.
Qed.

Lemma translation_step_ok f l f' : translation_step f l f' -> numbering_ok f ->
  numbering_ok f' /\ advances (bound f) l (bound f').
Proof.
  intros Hs Hok. destruct Hs as [p layer at_ now f f' tp err Hp Hsm E|rsn rts now num fr force f f' out Hr Hnum Hsm Hpad E
    |rsn rts now at_ num fr f f' out fe Hr Hnum Hsm Hpad E|f f' Hc].
  - by destruct (GetTranslationParams_ok _ _ _ _ _ _ _ _ Hok Hp Hsm E) as (H1 & _ & H3).
  - destruct (maybeStart_ok rsn rts now f Hok Hr Hsm Hpad) as (H1 & H2 & H3 & H4 & H5 & H6 & _).
    unfold GetSnTsForPadding in E. set (g := maybeStart rsn rts now f) in *.
    match type of E with (let '(_, _) := UpdateAndGetPaddingSnTs num _ fr ?b ?e _ in _) = _ =>
      pose proof (padding_ok num fr b e g H1 H2 H3 H6 Hnum H5) as Hout end.
    destruct (UpdateAndGetPaddingSnTs _ _ _ _ _ _) as [m o]. injection E as <- <-. destruct Hout as [K1 K2].
    split; [exact K1|]. eapply advances_weaken; [exact K2|done|done].
  - destruct (maybeStart_ok rsn rts now f Hok Hr Hsm Hpad) as (H1 & H2 & H3 & H4 & H5 & H6 & _).
    unfold GetSnTsForBlankFrames in E. set (g := maybeStart rsn rts now f) in *.
    match type of E with (let '(_, _) := UpdateAndGetPaddingSnTs ?n _ fr ?b ?e _ in _) = _ =>
      pose proof (padding_ok n fr b e g H1 H2 H3 H6 ltac:(case_if; lia) H5) as Hout end.
    destruct (UpdateAndGetPaddingSnTs _ _ _ _ _ _) as [m o]. injection E as <- <- <-. destruct Hout as [K1 K2].
    split; [exact K1|]. eapply advances_weaken; [exact K2|done|done].
  - destruct (control_numbers f f' Hc) as (Hm & Hst & Hl). destruct (same_numbers_ok f f' Hm Hst Hl Hok) as [H1 H2].
    split; [done|]. by apply advances_nil.
Qed.

(** *** The packets that are sent *)

Lemma GetTranslationParams_sent p layer at_ now f f' tp err :
  GetTranslationParams p layer at_ now f = Ok (f', tp, err) -> shouldDrop tp = false ->
  exists v tp0, shouldDrop tp0 = false /\ getTranslationParamsCommon p layer at_ now tp0 (f <| vls := v |>) = Ok (f', tp, err).
Proof.
  unfold Translation.GetTranslationParams. case_if; [by intros [= <- <- <-]|]. destruct (kind f).
  - by intros [= <- <- <-].
  - unfold lift_panic. destruct (getTranslationParamsAudio _ _ _ _ _ _ _) as [x|] eqn:E1; [|done]. intros [= ->]. revert E1.
    unfold getTranslationParamsAudio. intros ([[g tp1] e] & Ec & Er)%res_bind_Ok Hd.
    destruct e as [e|]; injection Er as <- <- <-; [done|]. exists (vls f), emptyParams. split; [done|].
    replace (f <| vls := vls f |>) with f by (by destruct f). done.
  - unfold Translation.getTranslationParamsVideo. case_if; [by intros [= <- <- <-]|].
    intros ([v r] & Ev & Er)%res_bind_Ok Hd. case_if_in Er; [by injection Er as <- <- <-|].
    apply res_bind_Ok in Er as ([[g1 tp1] e] & Ec & Er). unfold lift_panic in Ec.
    destruct (getTranslationParamsCommon _ _ _ _ _ _) as [x|] eqn:Ec'; [|done]. apply Ok_inj in Ec as ->.
    exists v, (selectedParams r). split; [done|]. rewrite Ec'.
    destruct (shouldDrop tp1) eqn:Hd1; [by injection Er as <- <- <-|]. case_if_in Er; injection Er as <- <- <-; [done|].
    assert (e = None) as ->; [|done]. revert Ec' Hd1. clear.
    unfold Translation.getTranslationParamsCommon.
    assert (forall tp g, translatePacket p tp g = (g1, tp1, e) -> shouldDrop tp1 = false -> e = None) as Hgen.
    { intros tp g. unfold translatePacket. destruct (UpdateAndGetSnTs _ _ _) as [[m t] [e'|]].
      - destruct e'; by intros [= <- <- <-].
      - case_if; [|by intros [= <- <- <-]]. unfold translateCodecHeader. destruct (vlsSelectTemporal _ _).
        destruct (CMUpdateAndGet _ _ _ _ _) as [cm [[n bs]|e']]; [by intros [= <- <- <-]|]. destruct e'; by intros [= <- <- <-]. }
    case_if; [|intros Eg%Ok_inj; by eapply Hgen].
    intros ([g [e'|]] & _ & Eg)%res_bind_Ok; [by injection Eg as <- <- <-|]. apply Ok_inj in Eg. by eapply Hgen.
Qed.

(** The first packet after a switch from munger [m]. *)
Lemma translatePacket_first p tp0 g m d f' tp err :
  rtpMunger g = UpdateSnTsOffsets (ext_packet p) 1 d m -> numbered m -> in_range p -> extLastSN m < max_ext ->
  translatePacket p tp0 g = (f', tp, err) -> shouldDrop tp = false ->
  PayloadLen (ext_packet p) <> 0 /\
  rtp tp = mkParams SequenceNumberOrderingContiguous (extLastSN m + 1) (u64 (extLastTS m + d)) /\
  lastSSRC f' = lastSSRC g.
Proof.
  intros Hm Hn [Hsn _] Hlast. unfold translatePacket. rewrite Hm.
  destruct (Z.eq_dec (PayloadLen (ext_packet p)) 0) as [E0|E0].
  - destruct (munger_first_empty m (ext_packet p) d (marker tp0) Hn Hsn Hlast E0) as (m' & t & ->). intros E Hd.
    injection E as _ <- _. discriminate Hd.
  - destruct (munger_first m (ext_packet p) d (marker tp0) Hn Hsn Hlast E0) as (m' & ->). intros E Hd.
    split; [done|]. destruct (_ >? 0); [|by injection E as <- <- _].
    match type of E with translateCodecHeader ?a ?b ?c = _ => pose proof (translateCodecHeader_ok a b c) as Hc end.
    rewrite E in Hc. destruct Hc as (Hss & Hr & _). split; [exact Hr|exact (sc_ssrc _ _ Hss)].
Qed.

(** *** Packets that directly follow *)

Lemma in_order_never_missed p gap tl (cm cm' : CodecMunger (om := om)) :
  CMUpdateAndGet p false gap tl cm <> (cm', Err ErrOutOfOrderVP8PictureIdCacheMiss).
Proof.
  destruct cm as [s|v]; cbn [CMUpdateAndGet]; [intros [=]|]. unfold UpdateAndGet.
  destruct (Payload p) as [|vp8|vp9]; [by intros [=]| |by intros [=]].
  destruct (Unwrap _ _ _) as [h pic]. cbv zeta. destruct gap.
  all: unfold Vp8Munger.forward, marshalled; repeat case_match; intros [=]; subst; simplify_eq.
Qed.

(** A packet in order whose codec header is dropped without an error is taken
    out of the numbering. *)
Lemma translateCodecHeader_drop p tp f :
  snOrdering (rtp tp) <> SequenceNumberOrderingOutOfOrder -> shouldDrop tp = false ->
  let '(f', tp', err) := translateCodecHeader p tp f in
  shouldDrop tp' = true -> err = None -> rtpMunger f' = PacketDropped (ext_packet p) (rtpMunger f).
Proof.
  intros Ho Hd. unfold translateCodecHeader. destruct (vlsSelectTemporal _ _) as [v tl].
  rewrite bool_decide_eq_false_2 by done. cbn [codecMunger field_upd].
  destruct (CMUpdateAndGet _ _ _ _ _) as [cm [[n bs]|e]] eqn:Ec; [cbn; by rewrite Hd|].
  destruct e; try done. by apply in_order_never_missed in Ec.
Qed.

Lemma translatePacket_no_hole p tp f :
  numbered (rtpMunger f) -> in_range p -> small f -> contiguous (ext_packet p) (rtpMunger f) -> shouldDrop tp = false ->
  let '(f', tp', err) := translatePacket p tp f in
  (shouldDrop tp' = true -> err = None -> given_back (ext_packet p) (rtpMunger f) (rtpMunger f')) /\
  snOrdering (rtp tp') = SequenceNumberOrderingContiguous /\ extSequenceNumber (rtp tp') = nextNumber (rtpMunger f).
Proof.
  intros Hn [Hsn _] Hsm Hc Hd. unfold translatePacket.
  destruct (munger_contiguous (rtpMunger f) (ext_packet p) (marker tp) Hn Hc ltac:(lia) Hsm) as (m & ts & -> & Hg).
  set (t := mkParams _ _ _). case_if; [|by cbn; rewrite Hd].
  pose proof (translateCodecHeader_drop p (tp <| rtp := t |>) (f <| rtpMunger := m |>)) as Hcd.
  pose proof (translateCodecHeader_ok p (tp <| rtp := t |>) (f <| rtpMunger := m |>)) as Hok.
  destruct (translateCodecHeader _ _ _) as [[f' tp'] err]. destruct Hok as (_ & Hr & _). rewrite Hr.
  split; [|done]. intros Hd' Herr. by rewrite (Hcd ltac:(done) Hd Hd' Herr).
Qed.

(** *** Packets that are filtered *)

(** The munger is shown the packet: the stream is neither muted nor paused, and
    the selector forwards the packet or finds it part of the layer sent. *)
Definition shown (p : RTPPacket) (layer : Z) f : bool :=
  negb (muted f || pubMuted f) &&
  match kind f with
  | RTPCodecTypeUnknown => false
  | RTPCodecTypeAudio => true
  | RTPCodecTypeVideo =>
    IsValid (GetTarget (vls f)) &&
    match vlsSelect (ext_packet p) layer (vls f) with
    | Ok (_, result) => IsSelected result || IsRelevant result
    | Err _ => false
    end
  end.

Lemma notSelected_shown p result f :
  numbering_ok f -> started f = true -> in_range p -> small f -> contiguous (ext_packet p) (rtpMunger f) ->
  IsRelevant result = true ->
  given_back (ext_packet p) (rtpMunger f) (rtpMunger (notSelected p result f)).
Proof.
  intros Hok Hst [Hsn _] Hsm Hc Hr. unfold notSelected.
  set (g := if isDDAvailable f && _ then turnOffDD f else f).
  assert (rtpMunger g = rtpMunger f /\ started g = started f) as [-> ->]
    by (subst g; destruct (isDDAvailable f && _); [split; apply turnOffDD_same|done]).
  rewrite Hst, Hr. cbn [andb].
  destruct (munger_contiguous (rtpMunger f) (ext_packet p) (RTPMarker result) (no_started f Hok Hst) Hc ltac:(lia) Hsm)
    as (m & ts & -> & Hg). exact Hg.
Qed.

Lemma common_same_source p layer at_ now tp0 v f f' tp err :
  numbering_ok f -> in_range p -> small f -> SSRC p = lastSSRC f -> contiguous (ext_packet p) (rtpMunger f) ->
  shouldDrop tp0 = false ->
  getTranslationParamsCommon p layer at_ now tp0 (f <| vls := v |>) = Ok (f', tp, err) ->
  (shouldDrop tp = true -> err = None ->
   given_back (ext_packet p) (rtpMunger f) (rtpMunger f') /\ started f' = started f /\ lastSSRC f' = lastSSRC f) /\
  snOrdering (rtp tp) = SequenceNumberOrderingContiguous /\ extSequenceNumber (rtp tp) = nextNumber (rtpMunger f).
Proof.
  intros Hok Hp Hsm Hssrc Hc Hd0. pose proof Hp as [_ Hne].
  assert (started f = true) as Hst by (apply Hok; congruence). pose proof (no_started f Hok Hst) as Hn.
  unfold Translation.getTranslationParamsCommon.
  change (lastSSRC (f <| vls := v |>)) with (lastSSRC f). rewrite <- Hssrc, Z.eqb_refl. cbn [negb].
  intros Eg%Ok_inj. set (f1 := f <| vls := v |>) in *.
  pose proof (translatePacket_no_hole p tp0 f1 Hn Hp Hsm Hc Hd0) as H1.
  pose proof (translatePacket_ok p tp0 f1 Hn Hp Hsm) as H2. rewrite Eg in H1, H2.
  destruct H1 as (H1 & H3 & H4). destruct H2 as (H2 & _). split; [|done]. intros Hd He.
  split; [by apply H1|]. rewrite Hssrc. exact (conj (sc_started _ _ H2) (sc_ssrc _ _ H2)).
Qed.

(** ** Properties *)

(** C2: whatever sequence of packets, source switches, padding bursts, blank
    frames, mutes, codec changes and allocations a forwarder goes through, the
    numbers it newly puts on what it sends are strictly increasing, so no
    number is sent twice, provided padding and blank frames are only asked for
    where no source is followed or the number the next packet gets is the one
    after the last number sent ([padding_allowed]). The condition fails for a
    source whose first packet had no payload, where a blank frame and the next
    packet are sent with the same number
    ([TranslationExamples.blank_after_empty_start_repeats]). *)
Theorem forwarder_numbers_increasing f l f' :
  translation_steps f l f' -> numbering_ok f ->
  numbering_ok f' /\ StronglySorted Z.lt (bound f :: l) /\ Forall (fun x => x <= bound f') l.
Proof.
  intros Hs Hok. enough (numbering_ok f' /\ advances (bound f) l (bound f')) as [H1 [H2 H3]].
  { split; [done|]. split; [done|]. by apply Forall_cons in H3 as [_ H3]. }
  induction Hs as [f|f l f1 k f2 Hstep _ IH]; [split; [done|by apply advances_nil]|].
  destruct (translation_step_ok _ _ _ Hstep Hok) as [H1 H2]. destruct (IH H1) as [H3 H4].
  split; [done|]. by eapply advances_app.
Qed.

(** C33: the first packet sent of a new source continues the stream: it gets
    the number after the last one sent and a timestamp ahead of the last one,
    and the forwarder follows the new source from then on. *)
Theorem first_packet_of_source p layer at_ now f f' tp err :
  numbering_ok f -> started f = true -> in_range p -> small f -> SSRC p <> lastSSRC f ->
  GetTranslationParams p layer at_ now f = Ok (f', tp, err) -> shouldDrop tp = false ->
  PayloadLen (ext_packet p) <> 0 /\
  snOrdering (rtp tp) = SequenceNumberOrderingContiguous /\
  extSequenceNumber (rtp tp) = extLastSN (rtpMunger f) + 1 /\
  0 < i64 (u64 (extTimestamp (rtp tp) - extLastTS (rtpMunger f))) /\
  lastSSRC f' = SSRC p.
Proof.
  intros Hok Hst [Hsn Hne] Hsm Hssrc E Hd. destruct (GetTranslationParams_sent _ _ _ _ _ _ _ _ E Hd) as (v & tp0 & _ & Ec).
  clear E. revert Ec. unfold Translation.getTranslationParamsCommon.
  change (lastSSRC (f <| vls := v |>)) with (lastSSRC f). rewrite (proj2 (Z.eqb_neq _ _)) by congruence. cbn [negb].
  intros ([g [e|]] & Hsw & Eg)%res_bind_Ok; apply processSourceSwitch_ok in Hsw as (Hs & Hv & Hl & He).
  { apply Ok_inj in Eg. by injection Eg as <- <- <-. }
  destruct He as [Hst' He]. change (started (f <| vls := v |>)) with (started f) in He. rewrite Hst in He.
  destruct He as (d & Hpos & Hm). apply Ok_inj in Eg.
  match type of Eg with translatePacket _ _ ?x = _ => set (h := x) in Eg end.
  assert (lastSSRC h = SSRC p /\ rtpMunger h = rtpMunger g) as [Hlh Hmh] by done. clearbody h. rewrite Hm in Hmh.
  destruct (translatePacket_first _ _ _ _ _ _ _ _ Hmh (no_started f Hok Hst) (conj Hsn Hne) Hsm Eg Hd) as (H1 & H2 & H3).
  rewrite H2, H3. cbn [snOrdering extSequenceNumber extTimestamp]. rewrite i64_advance. by split_and!.
Qed.

Lemma filtered_step_ok p layer at_ now f f' tp :
  numbering_ok f -> in_range p -> small f -> SSRC p = lastSSRC f -> contiguous (ext_packet p) (rtpMunger f) ->
  shown p layer f = true ->
  GetTranslationParams p layer at_ now f = Ok (f', tp, None) -> shouldDrop tp = true -> pausedOnDowngrade f' = false ->
  given_back (ext_packet p) (rtpMunger f) (rtpMunger f') /\ started f' = started f /\ lastSSRC f' = lastSSRC f.
Proof.
  intros Hok Hp Hsm Hssrc Hc Hsh E Hd Hpd. pose proof Hp as [_ Hne].
  assert (started f = true) as Hst by (apply Hok; congruence).
  revert E Hsh. unfold shown, Translation.GetTranslationParams. case_if; [by cbn|]. destruct (kind f); [by rewrite andb_false_r|..].
  - unfold lift_panic. destruct (getTranslationParamsAudio _ _ _ _ _ _ _) as [x|] eqn:E1; [|done]. intros [= ->] _. revert E1.
    unfold getTranslationParamsAudio. intros ([[g tp1] e] & Ec & Er)%res_bind_Ok. destruct e as [e|]; [discriminate Er|]. injection Er as <- <-.
    assert (f <| vls := vls f |> = f) as Ef by (by destruct f).
    destruct (common_same_source p layer at_ now emptyParams (vls f) f g tp1 None Hok Hp Hsm Hssrc Hc eq_refl) as [H _];
      [by rewrite Ef|by apply H].
  - unfold Translation.getTranslationParamsVideo. destruct (IsValid (GetTarget (vls f))); cbn [negb andb]; [|done].
    intros ([v r] & Ev & Er)%res_bind_Ok. rewrite Ev. cbn [negb]. destruct (IsSelected r); cbn [negb orb] in *.
    + intros _. apply res_bind_Ok in Er as ([[g1 tp1] e] & Ec & Er). unfold lift_panic in Ec.
      destruct (getTranslationParamsCommon _ _ _ _ _ _) as [x|] eqn:Ec'; [|done]. apply Ok_inj in Ec as ->.
      destruct (common_same_source _ _ _ _ (selectedParams r) _ _ _ _ _ Hok Hp Hsm Hssrc Hc eq_refl Ec') as [H _].
      destruct (shouldDrop tp1) eqn:Hd1; [injection Er as <- <- ->; by apply H|].
      case_if_in Er; injection Er as <- <-; congruence.
    + intros Hr. apply Ok_inj in Er. injection Er as <- <-. set (g := f <| vls := v |>).
      assert (numbering_ok g) as Hok' by (by destruct Hok; split).
      destruct (notSelected_ok p r g Hok' Hp Hsm) as (_ & _ & H1 & H2 & _).
      split; [by apply (notSelected_shown p r g)|]. exact (conj H1 H2).
Qed.

(** A run of packets of the source followed that are all filtered: the munger is
    shown each of them, and it is dropped without an error. *)
Inductive filtered : Forwarder om -> list RTPPacket -> Forwarder om -> Prop :=
| filtered_nil f : filtered f [] f
| filtered_cons p layer at_ now f f1 tp ps f2 :
    in_range p -> PayloadLen (ext_packet p) <> 0 -> SSRC p = lastSSRC f -> shown p layer f = true ->
    GetTranslationParams p layer at_ now f = Ok (f1, tp, None) -> shouldDrop tp = true -> pausedOnDowngrade f1 = false ->
    filtered f1 ps f2 -> filtered f (p :: ps) f2.

Definition numbers (ps : list RTPPacket) : list Z := map (fun p => ExtSequenceNumber (ext_packet p)) ps.

Lemma filtered_ok f ps f' k : filtered f ps f' -> numbering_ok f -> small f ->
  numbers ps ++ [k] = consecutive (extHighestIncomingSN (rtpMunger f)) (Datatypes.S (length ps)) ->
  numbering_ok f' /\ extLastSN (rtpMunger f') = extLastSN (rtpMunger f) /\
  nextNumber (rtpMunger f') = nextNumber (rtpMunger f) /\ lastSSRC f' = lastSSRC f /\
  k = extHighestIncomingSN (rtpMunger f') + 1.
Proof.
  intros Hf. revert k. induction Hf as [f|p layer at_ now f f1 tp ps f2 Hp Hl Hssrc Hsh E Hd Hpd _ IH]; intros k Hok Hsm Hk.
  - cbn in Hk. by injection Hk as ->.
  - cbn [length consecutive numbers map app] in Hk. injection Hk as Hsn Hk.
    destruct (filtered_step_ok _ _ _ _ _ _ _ Hok Hp Hsm Hssrc (conj Hsn Hl) Hsh E Hd Hpd) as ((H1 & H2 & H3 & H4) & H5 & H6).
    assert (started f1 = true) as Hst by (rewrite H5; apply Hok; destruct Hp; congruence).
    assert (small f1) as Hsm1 by (unfold small in *; by rewrite H2).
    destruct (IH k (numbering_intro _ Hst H1) Hsm1) as (K1 & K2 & K3 & K4 & K5); [rewrite H4, Hsn; exact Hk|].
    split_and!; congruence.
Qed.

(** C34: filtering leaves no hole: after any number of packets of the source
    followed that arrive in order and are all filtered, for their layer or
    their temporal layer, the next packet in order that is sent gets the number
    the first of them would have had, at most one above the last number sent.
    It is assumed that the stream was neither muted nor paused meanwhile, that
    the packets have a payload and a codec header that can be read, and that
    bandwidth did not hold back the layer they belong to. *)
Theorem dropped_leaves_no_hole f ps f' q layer at_ now f'' tq err :
  numbering_ok f -> small f -> filtered f ps f' ->
  in_range q -> PayloadLen (ext_packet q) <> 0 -> SSRC q = lastSSRC f ->
  numbers ps ++ [ExtSequenceNumber (ext_packet q)] =
    consecutive (extHighestIncomingSN (rtpMunger f)) (Datatypes.S (length ps)) ->
  GetTranslationParams q layer at_ now f' = Ok (f'', tq, err) -> shouldDrop tq = false ->
  snOrdering (rtp tq) = SequenceNumberOrderingContiguous /\
  extSequenceNumber (rtp tq) = nextNumber (rtpMunger f) /\ nextNumber (rtpMunger f) <= extLastSN (rtpMunger f) + 1.
Proof.
  intros Hok Hsm Hf Hq Hl Hssrc Hnum E Hd.
  destruct (filtered_ok _ _ _ _ Hf Hok Hsm Hnum) as (H1 & H2 & H3 & H4 & H5).
  destruct (GetTranslationParams_sent _ _ _ _ _ _ _ _ E Hd) as (v & tp0 & Hd0 & Ec).
  assert (started f = true) as Hst by (apply Hok; destruct Hq; congruence).
  destruct (numbered_cases _ (no_started f Hok Hst)) as [_ Ha].
  destruct (common_same_source _ _ _ _ _ _ _ _ _ _ H1 Hq ltac:(unfold small in *; by rewrite H2) ltac:(congruence)
    (conj H5 Hl) Hd0 Ec) as (_ & K1 & K2).
  split_and!; [done|congruence|lia].
Qed.

End translation.
