(* ===== verification/TranslationSafety.v ===== *)
(** * Panics, failed switches and blank frames of the translation

    No packet of a valid layer makes the forwarder panic, whatever its bytes
    were; a switch that fails puts the selector back; blank frames are always
    granted.  The last part shows on concrete streams where the code leaves
    the path its comments describe. *)

From S2P Require Import Prelude DdTypes.
From S2P Require Import Vp8 Packet RangeMap RtpMunger OrderedMap Vp8Munger LayerSelectors DdBits DdParser DdSelector.
From S2P Require Import DdSelectorSpec Bitrates Forwarder Translation TranslationSpec.

Section safety.
Context {om : Type -> Type} `{OM : OrderedMap om}.
Context (ToRTPExt : Z -> Z -> Z) (NtpTime_Time : Z -> Z).
Implicit Types f : Forwarder om.

#[local] Abbreviation getRefLayerRTPTimestamp := (getRefLayerRTPTimestamp NtpTime_Time).
#[local] Abbreviation switchSource := (switchSource ToRTPExt NtpTime_Time).
#[local] Abbreviation processSourceSwitch := (processSourceSwitch ToRTPExt NtpTime_Time).
#[local] Abbreviation getTranslationParamsCommon := (getTranslationParamsCommon ToRTPExt NtpTime_Time).
#[local] Abbreviation GetTranslationParams := (GetTranslationParams ToRTPExt NtpTime_Time).

(** ** No panics *)

(** A spatial layer, or none. *)
Definition spatial_ok (l : Z) : Prop := -1 <= l <= DefaultMaxLayerSpatial.

Record refs_ok f : Prop := {
  ro_infos : zlen (refInfos f) = DefaultMaxLayerSpatial + 1;
  ro_layer : spatial_ok (referenceLayerSpatial f);
}.

Lemma refInfoAt_total f l : refs_ok f -> 0 <= l <= DefaultMaxLayerSpatial -> exists ri, refInfoAt f l = Ok ri.
Proof.
  intros [Hl _] Hr. unfold refInfoAt, load. destruct (zlookup_lt (refInfos f) l ltac:(lia)) as [ri ->]. by exists ri.
Qed.

Lemma getRef_total ts ref layer f : refs_ok f -> spatial_ok ref -> spatial_ok layer ->
  exists r, getRefLayerRTPTimestamp ts ref layer f = Ok r.
Proof.
  intros Hok Hr Hl. unfold Translation.getRefLayerRTPTimestamp, spatial_ok in *. case_if; [by eauto|].
  repeat (apply orb_false_iff in E as [E ?]). bool_prop. case_if; [by eauto|].
  destruct (refInfoAt_total f ref Hok ltac:(lia)) as [r1 ->]. destruct (refInfoAt_total f layer Hok ltac:(lia)) as [r2 ->].
  cbn [res_bind]. destruct (usableReport r1); [|by eauto]. destruct (usableReport r2); by eauto.
Qed.

Lemma switchSource_total p layer at_ now f : refs_ok f -> spatial_ok layer ->
  exists f' e, switchSource p layer at_ now f = Ok (f', e).
Proof.
  intros Hok Hl. unfold Translation.switchSource.
  set (r := if negb (skipReferenceTS f) then _ else _).
  assert (exists x, r = Ok x) as [x ->] by (subst r; case_if; [by apply getRef_total; [|apply Hok|]|by eauto]).
  cbn [res_bind]. destruct x as [refTS|e]; [|by eauto]. destruct (expectedTS _ _ _ _ _ _) as [[g e] r'].
  destruct (if lastSSRC g =? 0 then _ else _) as [g' [n|]]; by eauto.
Qed.

Lemma same_source_refs f f' : same_source f f' -> refs_ok f -> refs_ok f'.
Proof. intros Hs [H1 H2]. split; [by rewrite (sm_refInfos _ _ (sc_stream _ _ Hs))|by rewrite (sc_layer _ _ Hs)]. Qed.

Lemma processSourceSwitch_total p layer at_ now f : refs_ok f -> spatial_ok layer ->
  exists f' e, processSourceSwitch p layer at_ now f = Ok (f', e) /\ refs_ok f'.
Proof.
  intros Hok Hl. unfold Translation.processSourceSwitch.
  assert (forall g, refs_ok g -> exists f' e, switchSource p layer at_ now g = Ok (f', e) /\ refs_ok f') as Hsw.
  { intros g Hg. destruct (switchSource_total p layer at_ now g Hg Hl) as (f' & e & E). exists f', e. split; [done|].
    apply switchSource_ok in E as [Hs _]. by eapply same_source_refs. }
  destruct Hok as [H1 H2]. repeat case_if.
  - eexists _, _. split; [reflexivity|by split].
  - eexists _, _. split; [reflexivity|by split].
  - eexists _, _. split; [reflexivity|by split].
  - apply Hsw. by split.
  - apply Hsw. by split.
Qed.

Lemma common_total p layer at_ now tp f : refs_ok f -> spatial_ok layer ->
  exists f' tp' err, getTranslationParamsCommon p layer at_ now tp f = Ok (f', tp', err) /\ refs_ok f'.
Proof.
  intros Hok Hl. unfold Translation.getTranslationParamsCommon.
  assert (forall g, refs_ok g -> exists f' tp' err, Ok (E := fwd_panic) (translatePacket p tp g) = Ok (f', tp', err) /\ refs_ok f') as Ht.
  { intros g Hg. destruct (translatePacket p tp g) as [[f' tp'] err] eqn:E. exists f', tp', err. split; [done|].
    apply (same_source_refs g); [|done]. revert E. unfold translatePacket.
    destruct (UpdateAndGetSnTs _ _ _) as [[m t] [e|]].
    - destruct e; intros [= <- _ _]; by repeat split.
    - case_if; [|intros [= <- _ _]; by repeat split]. intros E'.
      match type of E' with translateCodecHeader ?a ?b ?c = _ => pose proof (translateCodecHeader_ok a b c) as Hc end.
      rewrite E' in Hc. destruct Hc as (Hs & _). eapply same_source_trans; [|exact Hs]. by repeat split. }
  case_if; [|by apply Ht].
  destruct (processSourceSwitch_total p layer at_ now f Hok Hl) as (g & e & -> & Hg). cbn [res_bind].
  destruct e as [e|]; [|by apply Ht; destruct Hg; split].
  eexists _, _, _. split; [reflexivity|]. by destruct Hg; split.
Qed.

Lemma vlsSelect_total p layer v : (forall ext, PktDD p = Some ext -> ext_ok ext) ->
  exists v' r, vlsSelect p layer v = Ok (v', r).
Proof.
  intros Hp. destruct v as [b|b|b|d]; cbn [vlsSelect].
  - by eauto.
  - destruct (SimulcastSelect b p layer). by eauto.
  - destruct (VP9Select b p layer). by eauto.
  - destruct (Select_total d p Hp) as [[d' r] ->]. by eauto.
Qed.

(** A packet of a valid layer whose descriptor the parser accepted. *)
Definition packet_ok (p : RTPPacket) (layer : Z) : Prop :=
  spatial_ok layer /\ forall ext, PktDD (ext_packet p) = Some ext -> ext_ok ext.

Lemma notSelected_refs p r f : refs_ok f -> refs_ok (notSelected p r f).
Proof.
  intros Hok. unfold notSelected. set (g := if isDDAvailable f && _ then turnOffDD f else f).
  assert (refs_ok g) as Hg.
  { subst g. destruct (isDDAvailable f && _); [|done]. destruct Hok. unfold turnOffDD. cbv zeta. case_match; by split. }
  clearbody g. case_if; [|done]. destruct (UpdateAndGetSnTs _ _ _) as [[m t] [e|]]; [by destruct Hg; split|].
  destruct Hg. case_if; by split.
Qed.

Lemma GetTranslationParams_total p layer at_ now f : refs_ok f -> packet_ok p layer ->
  exists f' tp err, GetTranslationParams p layer at_ now f = Ok (f', tp, err) /\ refs_ok f'.
Proof.
  intros Hok [Hl Hp]. unfold Translation.GetTranslationParams. case_if; [by eauto|]. destruct (kind f); [by eauto|..].
  - unfold getTranslationParamsAudio. destruct (common_total p layer at_ now emptyParams f Hok Hl) as (g & tp & e & -> & Hg).
    cbn [res_bind]. destruct e; cbn [lift_panic]; by eauto.
  - unfold getTranslationParamsVideo. case_if; [by eauto|].
    destruct (vlsSelect_total (ext_packet p) layer (vls f) Hp) as (v & r & ->). cbn [res_bind].
    set (g := f <| vls := v |>). assert (refs_ok g) as Hg by (by destruct Hok; split).
    case_if; [eexists _, _, _; split; [reflexivity|by apply notSelected_refs]|].
    destruct (common_total p layer at_ now (selectedParams r) g Hg Hl) as (h & tp & e & -> & Hh). cbn [lift_panic res_bind].
    repeat case_if; by eauto.
Qed.

(** The packets of a stream one after the other: [(p, layer, at, now)]. *)
Fixpoint translate_run (l : list (RTPPacket * Z * Z * Z)) f
  : res translation_panic (Forwarder om * list (TranslationParams * option translation_error)) :=
  match l with
  | [] => Ok (f, [])
  | (p, layer, at_, now) :: l =>
    let! x := GetTranslationParams p layer at_ now f in
    let '(f, tp, err) := x in
    let! y := translate_run l f in
    Ok (fst y, (tp, err) :: snd y)
  end.

(** C7: the forwarder never panics: it translates or drops every packet of a
    stream whose layers are valid and whose descriptors the parser accepted,
    whatever the sender reports, the selector and the order of the packets. *)
Theorem translate_run_total l f :
  refs_ok f -> Forall (fun x => packet_ok (fst (fst (fst x))) (snd (fst (fst x)))) l ->
  exists f' out, translate_run l f = Ok (f', out) /\ length out = length l /\ refs_ok f'.
Proof.
  intros Hok Hl. revert f Hok. induction Hl as [|[[[p layer] at_] now] l Hp _ IH]; intros f Hok; cbn [translate_run]; [by eauto|].
  destruct (GetTranslationParams_total p layer at_ now f Hok Hp) as (g & tp & err & -> & Hg). cbn [res_bind].
  destruct (IH g Hg) as (f' & out & -> & Hlen & Hf'). cbn [res_bind fst snd].
  exists f', ((tp, err) :: out). split; [done|]. split; [by cbn; rewrite Hlen|done].
Qed.

(** ** A switch that fails *)

(** The selector once it has chosen to forward a packet, and whether it changed
    layers for it; an audio stream forwards every packet. *)
Definition chosen (p : RTPPacket) (layer : Z) f : option (VideoLayerSelector * bool) :=
  match kind f with
  | RTPCodecTypeUnknown => None
  | RTPCodecTypeAudio => Some (vls f, false)
  | RTPCodecTypeVideo =>
    if IsValid (GetTarget (vls f)) then
      match vlsSelect (ext_packet p) layer (vls f) with
      | Ok (v, r) => if IsSelected r then Some (v, IsSwitching r) else None
      | Err _ => None
      end
    else None
  end.

Lemma failed_switch_common p layer at_ now tp0 g f1 e :
  SSRC p <> lastSSRC g -> processSourceSwitch p layer at_ now g = Ok (f1, Some e) ->
  getTranslationParamsCommon p layer at_ now tp0 g =
    Ok (f1 <| vls := vlsRollback (vls f1) |>, tp0 <| shouldDrop := true |>, None).
Proof.
  intros Hssrc Ep. unfold Translation.getTranslationParamsCommon.
  rewrite (proj2 (Z.eqb_neq _ _)) by congruence. cbn [negb]. by rewrite Ep.
Qed.

(** C35: when the switch to a new source fails, in an audio or video stream and
    with any layer selector, the packet is dropped without an error, the
    numbers, the source followed and the start of the stream are as before, and
    the choice of the selector is rolled back: a simulcast selector that
    changed layers for the packet is back on the layer, the target and the
    maximum it had, so the old layer keeps flowing until a later key frame. *)
Theorem failed_switch_rolls_back p layer at_ now f v sw e f1 :
  muted f = false -> pubMuted f = false -> SSRC p <> lastSSRC f -> chosen p layer f = Some (v, sw) ->
  processSourceSwitch p layer at_ now (f <| vls := v |>) = Ok (f1, Some e) ->
  exists f' tp, GetTranslationParams p layer at_ now f = Ok (f', tp, None) /\
    shouldDrop tp = true /\ rtpMunger f' = rtpMunger f /\ lastSSRC f' = lastSSRC f /\ started f' = started f /\
    vls f' = vlsRollback v /\
    (forall b, vls f = VLSSimulcast b -> sw = true ->
     GetCurrent (vls f') = GetCurrent (vls f) /\ GetTarget (vls f') = GetTarget (vls f) /\ GetMax (vls f') = GetMax (vls f)).
Proof.
  intros Hm Hpm Hssrc Hch Ep. set (g := f <| vls := v |>) in *.
  pose proof (fun tp0 => failed_switch_common p layer at_ now tp0 g f1 e Hssrc Ep) as Hc.
  apply processSourceSwitch_ok in Ep as (_ & Hv1 & Hl1 & Hm1 & Hst1).
  exists (f1 <| vls := vlsRollback (vls f1) |>). revert Hch. unfold chosen, Translation.GetTranslationParams.
  rewrite Hm, Hpm. cbn [orb]. destruct (kind f) eqn:Hk; [done|..].
  - intros [= Hv <-]. eexists. unfold getTranslationParamsAudio.
    assert (f = g) as Hfg by (unfold g; rewrite <- Hv; by destruct f). rewrite Hfg at 1. rewrite Hc.
    split; [reflexivity|]. cbn. rewrite Hv1, Hm1, Hl1, Hst1. by split_and!.
  - unfold getTranslationParamsVideo. destruct (IsValid (GetTarget (vls f))) eqn:Ht; [|done].
    destruct (vlsSelect (ext_packet p) layer (vls f)) as [[v' r]|] eqn:Es; [|done]. destruct (IsSelected r) eqn:Hs; [|done].
    intros [= -> <-]. eexists. cbn [negb res_bind]. rewrite Hs. cbn [negb]. fold g. rewrite Hc. split; [reflexivity|].
    cbn. rewrite Hv1, Hm1, Hl1, Hst1. split_and!; try done. intros b Hb Hsw. rewrite Hb in Es. cbn [vlsSelect] in Es.
    pose proof (SimulcastSelect_switched b (ext_packet p) layer) as Hspec.
    destruct (SimulcastSelect b (ext_packet p) layer) as [b' r'] eqn:E. injection Es as <- ->.
    destruct Hspec as (_ & _ & Hspec & _). destruct (Hspec Hsw) as (_ & (_ & H1 & H2 & H3) & _). rewrite Hb. by split_and!.
Qed.

(** ** Blank frames *)

(** Blank frames are always granted, also to a stream that has sent
    nothing: they take the numbers after the last one, one more when the frame
    in flight has to be ended, whose timestamp that first packet repeats; the
    others have advancing timestamps, and the stream ends on a frame boundary. *)
Theorem blank_frames_granted rsn rts now at_ fr n f :
  numbering_ok f -> rand14 rsn -> small f -> padding_allowed f -> 0 <= n < max_ext - 1 ->
  let m := rtpMunger (maybeStart rsn rts now f) in
  let '(f', (out, fe)) := GetSnTsForBlankFrames ToRTPExt rsn rts now at_ fr n f in
  fe = negb (IsOnFrameBoundary m) /\ IsOnFrameBoundary (rtpMunger f') = true /\
  exists vals, out = Ok vals /\
    map snts_sn vals = consecutive (extLastSN m) (Z.to_nat (if fe then n + 1 else n)) /\
    (fr <> 0 ->
     if fe then exists v tl, vals = v :: tl /\ snts_ts v = extLastTS m /\ ts_increasing (extLastTS m) tl
     else ts_increasing (extLastTS m) vals).
Proof.
  intros Hok Hr Hsm Hpad Hn. destruct (maybeStart_ok rsn rts now f Hok Hr Hsm Hpad) as (H1 & H2 & H3 & _).
  unfold GetSnTsForBlankFrames. set (g := maybeStart rsn rts now f) in *. unfold small in H3. cbv zeta.
  unfold IsOnFrameBoundary. set (num := if negb (lastMarker (rtpMunger g)) then n + 1 else n).
  assert (0 <= num < max_ext) as Hnum by (subst num; case_if; lia).
  match goal with |- context [UpdateAndGetPaddingSnTs num ?c fr ?b ?e ?m] =>
    pose proof (munger_padding m num c fr b e (no_started g H1 H2) Hnum H3) as Hp;
    pose proof (fun m' vals => UpdateAndGetPaddingSnTs_ts m m' num c fr b e vals) as Hts;
    destruct (UpdateAndGetPaddingSnTs num c fr b e m) as [m' out] eqn:Eo end.
  destruct Hp as [_ Hp]. split; [done|]. cbn [rtpMunger field_upd].
  destruct out as [vals|e]; [|destruct Hp as (_ & _ & E1 & E2); rewrite E1 in E2; done].
  destruct Hp as (Hv & _). destruct (Z.eq_dec num 0) as [E0|E0].
  - assert (lastMarker (rtpMunger g) = true) as Hlm.
    { revert E0. subst num. destruct (lastMarker (rtpMunger g)); cbn [negb]; [done|lia]. }
    unfold UpdateAndGetPaddingSnTs in Eo. rewrite E0 in Eo. cbn [Z.eqb] in Eo. injection Eo as <- <-.
    split; [done|]. exists []. split; [done|]. split; [exact Hv|]. by rewrite Hlm.
  - destruct (Hts m' vals eq_refl ltac:(lia)) as [Hm Hinc]. split; [by rewrite Hm; destruct (lastMarker (rtpMunger g))|].
    exists vals. split; [done|]. split; [done|]. intros Hfr. specialize (Hinc Hfr).
    by destruct (lastMarker (rtpMunger g)).
Qed.

End safety.
