(* ===== verification/TranslationExamples.v ===== *)
(** * The translation on concrete streams

    The theorems of [TranslationSpec] and [TranslationSafety] applied to small
    streams, and the inputs behind the findings on the packet path: a layer
    index one past the last, numbers used twice after a first packet that was
    dropped, and holes left by layers held back for bandwidth. *)

From S2P Require Import Prelude DdTypes.
From S2P Require Import Vp8 Packet RangeMap RtpMunger OrderedMap Vp8Munger LayerSelectors DdSelector Bitrates Forwarder.
From S2P Require Import Translation TranslationSpec TranslationSafety.

(** A converter and a reading of NTP times. *)
Definition ex_rtp (rate d : Z) : Z := u64 (Z.quot (d * rate) 1000000000).
Definition ex_ntp (t : Z) : Z := Z.shiftr t 32 * 1000000000.

Definition ex_packet_of (ssrc sn ts len : Z) (key : bool) : RTPPacket :=
  mkRTPPacket (plain_packet sn ts true key len) ssrc 96 (u32 ts).

Definition translate (p : RTPPacket) (layer : Z) (f : Forwarder alist) :=
  GetTranslationParams ex_rtp ex_ntp p layer 0 0 f.

Definition after (p : RTPPacket) (layer : Z) (f : Forwarder alist) : Forwarder alist :=
  match translate p layer f with Ok (f', _, _) => f' | Err _ => f end.
Definition params (p : RTPPacket) (layer : Z) (f : Forwarder alist) : TranslationParams :=
  match translate p layer f with Ok (_, tp, _) => tp | Err _ => dropParams end.
Definition error_of (p : RTPPacket) (layer : Z) (f : Forwarder alist) : option translation_error :=
  match translate p layer f with Ok (_, _, e) => e | Err _ => None end.
Definition no_panic (p : RTPPacket) (layer : Z) (f : Forwarder alist) : bool :=
  match translate p layer f with Ok _ => true | Err _ => false end.

Lemma translate_eq p layer f : no_panic p layer f = true ->
  GetTranslationParams ex_rtp ex_ntp p layer 0 0 f = Ok (after p layer f, params p layer f, error_of p layer f).
Proof. change (GetTranslationParams ex_rtp ex_ntp p layer 0 0 f) with (translate p layer f). unfold no_panic, after, params, error_of. by destruct (translate p layer f) as [[[f' tp] e]|]. Qed.

Lemma step_after p layer f : in_range p -> small f -> no_panic p layer f = true ->
  translation_step ex_rtp ex_ntp f (sent (params p layer f)) (after p layer f).
Proof. intros Hp Hs Hn. by eapply step_translate; [..|apply translate_eq]. Qed.

Lemma step_blank_after num f : 0 <= num < max_ext - 1 -> small f -> padding_allowed f ->
  let x := GetSnTsForBlankFrames ex_rtp 0 0 0 0 50 num f in
  translation_step ex_rtp ex_ntp f (padding_numbers (fst (snd x))) (fst x).
Proof.
  intros Hn Hs Hp. cbv zeta. destruct (GetSnTsForBlankFrames ex_rtp 0 0 0 0 50 num f) as [f' [out fe]] eqn:E.
  by eapply (step_blank ex_rtp ex_ntp 0 0 0 0 num 50); [split|..|exact E].
Qed.

Lemma new_numbering k skip dis : numbering_ok (NewForwarder k skip dis None : Forwarder alist).
Proof. split; [apply NewRangeMap_wf|done|done]. Qed.

(** An audio stream. *)
Definition ex_audio : Forwarder alist :=
  DetermineCodec (MimeTypeOther 1) 48000 false VideoLayer_MODE_UNUSED (NewForwarder RTPCodecTypeAudio true false None).

Lemma ex_audio_numbering : numbering_ok ex_audio.
Proof. split; [apply NewRangeMap_wf|done|done]. Qed.

Definition ex_first : RTPPacket := ex_packet_of 1 1000 48000 50 false.
Definition ex_second : RTPPacket := ex_packet_of 2 7 960 50 false.
Definition ex_audio1 : Forwarder alist := after ex_first 0 ex_audio.
Definition ex_blank := GetSnTsForBlankFrames ex_rtp 0 0 0 0 50 2 ex_audio1.
Definition ex_audio2 : Forwarder alist := Resync (fst ex_blank).

Definition ex_numbers : list Z :=
  sent (params ex_first 0 ex_audio) ++ padding_numbers (fst (snd ex_blank)) ++ [] ++
  sent (params ex_second 0 ex_audio2) ++ [].

(** A packet, two blank frames, a resync and the packet of a new source. *)
Lemma ex_steps : translation_steps ex_rtp ex_ntp ex_audio ex_numbers (after ex_second 0 ex_audio2).
Proof.
  assert (translation_step ex_rtp ex_ntp ex_audio (sent (params ex_first 0 ex_audio)) ex_audio1) as H1.
  { apply step_after; vm_compute; by repeat split. }
  assert (translation_step ex_rtp ex_ntp ex_audio1 (padding_numbers (fst (snd ex_blank))) (fst ex_blank)) as H2.
  { apply step_blank_after; [by split|vm_compute; reflexivity|right; vm_compute; reflexivity]. }
  assert (translation_step ex_rtp ex_ntp (fst ex_blank) [] ex_audio2) as H3.
  { unfold ex_audio2. apply step_control, control_resync. }
  assert (translation_step ex_rtp ex_ntp ex_audio2 (sent (params ex_second 0 ex_audio2)) (after ex_second 0 ex_audio2)) as H4.
  { apply step_after; vm_compute; by repeat split. }
  pose proof (tsteps_step ex_rtp ex_ntp _ _ _ _ _ H4 (tsteps_refl ex_rtp ex_ntp _)) as K4.
  pose proof (tsteps_step ex_rtp ex_ntp _ _ _ _ _ H3 K4) as K3.
  pose proof (tsteps_step ex_rtp ex_ntp _ _ _ _ _ H2 K3) as K2.
  exact (tsteps_step ex_rtp ex_ntp _ _ _ _ _ H1 K2).
Qed.

Lemma forwarder_numbers_increasing_witness :
  ex_numbers = [1000; 1001; 1002; 1003; 1004] /\ StronglySorted Z.lt (-1 :: ex_numbers) /\
  numbering_ok (after ex_second 0 ex_audio2).
Proof.
  destruct (forwarder_numbers_increasing ex_rtp ex_ntp _ _ _ ex_steps ex_audio_numbering) as (H1 & H2 & _).
  split; [vm_compute; reflexivity|]. split; [exact H2|exact H1].
Defined.

Lemma after_numbering p layer f : numbering_ok f -> in_range p -> small f -> no_panic p layer f = true ->
  numbering_ok (after p layer f).
Proof. intros Hok Hp Hs Hn. by destruct (translation_step_ok ex_rtp ex_ntp _ _ _ (step_after p layer f Hp Hs Hn) Hok). Qed.

Lemma ex_audio1_numbering : numbering_ok ex_audio1.
Proof. unfold ex_audio1. apply after_numbering; [exact ex_audio_numbering|vm_compute; by repeat split..]. Qed.

Lemma ex_audio2_numbering : numbering_ok ex_audio2.
Proof.
  assert (translation_step ex_rtp ex_ntp ex_audio1 (padding_numbers (fst (snd ex_blank))) (fst ex_blank)) as H2.
  { unfold ex_blank. apply step_blank_after; [by split|vm_compute; reflexivity|right; vm_compute; reflexivity]. }
  destruct (translation_step_ok _ _ _ _ _ H2 ex_audio1_numbering) as [H3 _].
  assert (translation_step ex_rtp ex_ntp (fst ex_blank) [] ex_audio2) as H4.
  { unfold ex_audio2. apply step_control, control_resync. }
  by destruct (translation_step_ok _ _ _ _ _ H4 H3) as [H5 _].
Qed.

Lemma first_packet_of_source_witness :
  let tp := params ex_second 0 ex_audio2 in
  shouldDrop tp = false /\ extSequenceNumber (rtp tp) = 1004 /\
  0 < i64 (u64 (extTimestamp (rtp tp) - extLastTS (rtpMunger ex_audio2))).
Proof.
  cbv zeta. split; [vm_compute; reflexivity|].
  assert (numbering_ok ex_audio2) as H1 by exact ex_audio2_numbering.
  assert (started ex_audio2 = true) as H2 by (vm_compute; reflexivity).
  assert (in_range ex_second) as H3 by (vm_compute; by repeat split).
  assert (small ex_audio2) as H4 by (vm_compute; reflexivity).
  assert (SSRC ex_second <> lastSSRC ex_audio2) as H5 by (vm_compute; discriminate).
  assert (no_panic ex_second 0 ex_audio2 = true) as H6 by (vm_compute; reflexivity).
  assert (shouldDrop (params ex_second 0 ex_audio2) = false) as H7 by (vm_compute; reflexivity).
  pose proof (first_packet_of_source ex_rtp ex_ntp ex_second 0 0 0 ex_audio2 _ _ _ H1 H2 H3 H4 H5
    (translate_eq ex_second 0 ex_audio2 H6) H7) as (_ & _ & H8 & H9 & _).
  split; [rewrite H8; vm_compute; reflexivity|exact H9].
Defined.

(** The packet that follows the first one, without payload: padding. *)
Definition ex_empty : RTPPacket := ex_packet_of 1 1001 48960 0 false.

(** ** A paused layer *)

(** A VP8 stream of two layers that is sent at layer 1, filtered to temporal
    layer 0. *)
Definition ex_vp8_packet (ssrc sn pid tid len : Z) (key : bool) : RTPPacket :=
  mkRTPPacket (mkExtPacket (mkLayer 1 tid) sn (sn * 3000) true len
    (PayloadVP8 (mkVP8 0x10 key true true pid false 0 true tid false false 0 6 key)) key None false) ssrc 96 (sn * 3000).

Definition ex_video : Forwarder alist :=
  let f := DetermineCodec MimeTypeVP8 90000 false VideoLayer_ONE_SPATIAL_LAYER_PER_STREAM
             (NewForwarder RTPCodecTypeVideo true false None) in
  onVls (fun b => SetTarget (mkLayer 1 0) (SetMax (mkLayer 1 3) (SetMaxSeen (mkLayer 1 3) b))) f.

Definition ex_video1 : Forwarder alist := after (ex_vp8_packet 5 100 10 0 40 true) 1 ex_video.
(** A packet of a higher temporal layer. *)
Definition ex_filtered : RTPPacket := ex_vp8_packet 5 101 11 1 40 false.

Lemma ex_video_numbering : numbering_ok ex_video.
Proof. split; [apply NewRangeMap_wf|done|done]. Qed.

Lemma ex_video1_numbering : numbering_ok ex_video1.
Proof. unfold ex_video1. apply after_numbering; [exact ex_video_numbering|vm_compute; by repeat split..]. Qed.

(** Two such packets, then one of the base layer. *)
Definition ex_filtered2 : RTPPacket := ex_vp8_packet 5 102 11 1 40 false.
Definition ex_base : RTPPacket := ex_vp8_packet 5 103 12 0 40 false.
Definition ex_video2 : Forwarder alist := after ex_filtered 1 ex_video1.
Definition ex_video3 : Forwarder alist := after ex_filtered2 1 ex_video2.

Lemma filtered_after p layer f ps f' :
  in_range p -> PayloadLen (ext_packet p) <> 0 -> SSRC p = lastSSRC f -> shown p layer f = true ->
  no_panic p layer f = true -> error_of p layer f = None -> shouldDrop (params p layer f) = true ->
  pausedOnDowngrade (after p layer f) = false -> filtered ex_rtp ex_ntp (after p layer f) ps f' ->
  filtered ex_rtp ex_ntp f (p :: ps) f'.
Proof.
  intros H1 H2 H3 H4 H5 H6 H7 H8 H9. pose proof (translate_eq p layer f H5) as E. rewrite H6 in E.
  by eapply filtered_cons.
Qed.

Lemma ex_filtered_run : filtered ex_rtp ex_ntp ex_video1 [ex_filtered; ex_filtered2] ex_video3.
Proof.
  unfold ex_video3, ex_video2.
  apply (filtered_after _ 1); [by vm_compute|by vm_compute|vm_compute; reflexivity..|].
  apply (filtered_after _ 1); [by vm_compute|by vm_compute|vm_compute; reflexivity..|].
  apply filtered_nil.
Qed.

Lemma dropped_leaves_no_hole_witness :
  let tq := params ex_base 1 ex_video3 in
  shouldDrop tq = false /\ snOrdering (rtp tq) = SequenceNumberOrderingContiguous /\ extSequenceNumber (rtp tq) = 101.
Proof.
  cbv zeta. split; [vm_compute; reflexivity|].
  assert (in_range ex_base) as H1 by (vm_compute; by repeat split).
  assert (small ex_video1) as H2 by (vm_compute; reflexivity).
  assert (PayloadLen (ext_packet ex_base) <> 0) as H3 by (vm_compute; discriminate).
  assert (SSRC ex_base = lastSSRC ex_video1) as H4 by (vm_compute; reflexivity).
  assert (numbers [ex_filtered; ex_filtered2] ++ [ExtSequenceNumber (ext_packet ex_base)] =
    consecutive (extHighestIncomingSN (rtpMunger ex_video1)) 3) as H5 by (vm_compute; reflexivity).
  assert (no_panic ex_base 1 ex_video3 = true) as H6 by (vm_compute; reflexivity).
  assert (shouldDrop (params ex_base 1 ex_video3) = false) as H7 by (vm_compute; reflexivity).
  destruct (dropped_leaves_no_hole ex_rtp ex_ntp ex_video1 _ _ ex_base 1 0 0 _ _ _ ex_video1_numbering H2 ex_filtered_run
    H1 H3 H4 H5 (translate_eq ex_base 1 ex_video3 H6) H7) as (K1 & K2 & _).
  split; [exact K1|]. rewrite K2. vm_compute. reflexivity.
Defined.

(** ** A failed switch *)

(** The stream of [ex_video] without a reference: it starts on layer 0, and the
    key frame of layer 1 comes before any sender report. *)
Definition ex_strict : Forwarder alist := ex_video <| skipReferenceTS := false |>.
Definition ex_low : RTPPacket :=
  mkRTPPacket (mkExtPacket (mkLayer 0 0) 100 300000 true 40
    (PayloadVP8 (mkVP8 0x10 true true true 10 false 0 true 0 false false 0 6 true)) true None false) 4 96 300000.
Definition ex_high : RTPPacket := ex_vp8_packet 5 700 10 0 40 true.
Definition ex_strict1 : Forwarder alist := after ex_low 0 ex_strict.
Definition ex_selected := SimulcastSelect (getBase (vls ex_strict1)) (ext_packet ex_high) 1.
Definition ex_attempt :=
  processSourceSwitch ex_rtp ex_ntp ex_high 1 0 0 (ex_strict1 <| vls := VLSSimulcast (fst ex_selected) |>).
Definition ex_attempted : Forwarder alist := match ex_attempt with Ok (f, _) => f | Err _ => ex_strict1 end.

Lemma failed_switch_rolls_back_witness :
  exists f' tp, GetTranslationParams ex_rtp ex_ntp ex_high 1 0 0 ex_strict1 = Ok (f', tp, None) /\
    shouldDrop tp = true /\ lastSSRC f' = lastSSRC ex_strict1 /\ GetCurrent (vls f') = mkLayer 0 0.
Proof.
  assert (vls ex_strict1 = VLSSimulcast (getBase (vls ex_strict1))) as H1 by (vm_compute; reflexivity).
  assert (chosen ex_high 1 ex_strict1 = Some (VLSSimulcast (fst ex_selected), true)) as H2 by (vm_compute; reflexivity).
  assert (SSRC ex_high <> lastSSRC ex_strict1) as H3 by (vm_compute; discriminate).
  assert (processSourceSwitch ex_rtp ex_ntp ex_high 1 0 0 (ex_strict1 <| vls := VLSSimulcast (fst ex_selected) |>) =
          Ok (ex_attempted, Some errUnavailableRef)) as H4 by (vm_compute; reflexivity).
  assert (muted ex_strict1 = false /\ pubMuted ex_strict1 = false) as [H5 H6] by (vm_compute; by split).
  destruct (failed_switch_rolls_back ex_rtp ex_ntp ex_high 1 0 0 ex_strict1 _ _ _ _ H5 H6 H3 H2 H4)
    as (f' & tp & K1 & K2 & _ & K3 & _ & _ & K4).
  destruct (K4 _ H1 eq_refl) as [K5 _].
  exists f', tp. split; [exact K1|]. split; [exact K2|]. split; [exact K3|]. rewrite K5. vm_compute. reflexivity.
Defined.

(** ** Total runs, blank frames and timestamps *)

Lemma ex_refs : refs_ok ex_strict1.
Proof. split; [vm_compute; reflexivity|vm_compute; by split]. Qed.

Lemma translate_run_total_witness :
  exists f' out, translate_run ex_rtp ex_ntp [(ex_high, 1, 0, 0); (ex_filtered, 2, 0, 0); (ex_empty, -1, 0, 0)] ex_strict1 = Ok (f', out) /\
    length out = 3%nat.
Proof.
  destruct (translate_run_total ex_rtp ex_ntp [(ex_high, 1, 0, 0); (ex_filtered, 2, 0, 0); (ex_empty, -1, 0, 0)] ex_strict1 ex_refs)
    as (f' & out & H1 & H2 & _).
  { repeat (apply Forall_cons; split; [split; [by split|intros ext E; discriminate E]|]). constructor. }
  exists f', out. split; [exact H1|exact H2].
Defined.

Lemma blank_frames_granted_witness :
  let '(f', (out, fe)) := GetSnTsForBlankFrames ex_rtp 5 7 0 0 30 1 ex_video in
  fe = true /\ IsOnFrameBoundary (rtpMunger f') = true /\ exists vals, out = Ok vals /\ map snts_sn vals = [32774; 32775].
Proof.
  pose proof (blank_frames_granted ex_rtp 5 7 0 0 30 1 ex_video ex_video_numbering ltac:(by split) ltac:(vm_compute; reflexivity)
    ltac:(left; vm_compute; reflexivity) ltac:(by split)) as H. cbv zeta in H.
  destruct (GetSnTsForBlankFrames ex_rtp 5 7 0 0 30 1 ex_video) as [f' [out fe]].
  destruct H as (H1 & H2 & vals & H3 & H4 & _). assert (fe = true) as Hfe by (rewrite H1; vm_compute; reflexivity).
  split; [exact Hfe|]. split; [exact H2|]. exists vals. split; [exact H3|]. rewrite H4, Hfe. vm_compute. reflexivity.
Defined.

Lemma extendRefTS_nearest_witness :
  extendRefTS 4294967290 5 0 = 4294967301 /\
  forall e', 0 <= e' -> u32 e' = 5 -> Z.abs (4294967301 - 4294967290) <= Z.abs (e' - 4294967290).
Proof.
  destruct (extendRefTS_nearest 4294967290 5 ltac:(by split) ltac:(by split)) as (_ & _ & H).
  split; [vm_compute; reflexivity|exact H].
Defined.

(** ** Findings *)

(** The bound check of [getRefLayerRTPTimestamp] admits an index past the end. *)
Lemma ref_layer_past_the_end ts ref (f : Forwarder alist) :
  refs_ok f -> refVideoLayerMode f <> VideoLayer_MULTIPLE_SPATIAL_LAYERS_PER_STREAM -> 0 <= ref <= DefaultMaxLayerSpatial ->
  getRefLayerRTPTimestamp ex_ntp ts ref 3 f = Err indexOutOfRange.
Proof.
  intros Hok Hm Hr. unfold getRefLayerRTPTimestamp. unfold DefaultMaxLayerSpatial in *. rewrite (ro_infos f Hok).
  unfold DefaultMaxLayerSpatial in *. rewrite bool_decide_eq_false_2 by done. rewrite !Z.gtb_ltb.
  rewrite (proj2 (Z.ltb_ge ref 0)), (proj2 (Z.ltb_ge _ ref)), (proj2 (Z.eqb_neq ref 3)) by lia. cbn [orb Z.ltb Z.compare].
  destruct (refInfoAt_total f ref Hok Hr) as [ri E]. cbn. rewrite E. cbn [res_bind].
  unfold refInfoAt, load, zlookup. cbn [Z.leb Z.compare]. pose proof (ro_infos f Hok) as Hl. unfold zlen, DefaultMaxLayerSpatial in Hl.
  by rewrite lookup_ge_None_2 by lia.
Qed.

(** A stream whose first packet is padding only: a blank frame and the next
    packet are sent with the same number. *)
Definition ex_padded : Forwarder alist := after (ex_packet_of 1 1000 48000 0 false) 0 ex_audio.
Definition ex_padded_blank := GetSnTsForBlankFrames ex_rtp 0 0 0 0 50 1 ex_padded.

Lemma blank_after_empty_start_repeats :
  padding_numbers (fst (snd ex_padded_blank)) = [1001; 1002] /\
  sent (params (ex_packet_of 1 1001 48960 50 false) 0 (fst ex_padded_blank)) = [1002].
Proof. vm_compute. by split. Qed.

(** A layer held back for bandwidth: the packet is dropped, its number is not
    given back. *)
Definition ex_deficient : Forwarder alist :=
  onVls (SetTarget (mkLayer 0 0)) (ex_video1 <| lastAllocation := VideoAllocationDefault <| va_IsDeficient := true |> |>).
Definition ex_next : RTPPacket := ex_vp8_packet 5 101 11 0 40 false.

Lemma held_back_leaves_hole :
  shouldDrop (params ex_next 1 ex_deficient) = true /\ error_of ex_next 1 ex_deficient = None /\
  extLastSN (rtpMunger ex_deficient) = 100 /\ extLastSN (rtpMunger (after ex_next 1 ex_deficient)) = 101.
Proof. vm_compute. by repeat split. Qed.

(** The ticks of a 90 kHz clock overflow after 28.5 hours. *)
Lemma ticks_overflow : ticks (103000 * 1000000000) 90000 < 0.
Proof. vm_compute. reflexivity. Qed.
