(* ===== verification/KeyFrames.v ===== *)
(** * Key frame detection

    Models [IsH264KeyFrame], [IsVP9KeyFrame], [IsAV1KeyFrame],
    [IsH265KeyFrame] and [ExtractVP8VideoSize] of
    [src/SERVER/pkg/sfu/buffer/helpers.go], which look into the payload of
    every video packet that arrives.  An index out of range is the value
    [panicked]; the loops over aggregated units have the length of the payload
    as fuel, and [unfinished] is proved not to occur.  The parser of the VP9
    payload header belongs to a third-party package and is a parameter. *)

From S2P Require Import Prelude Vp8.

(** How a function over received bytes can fail to return. *)
Inductive stop := panicked | unfinished.

(** [binary.BigEndian.Uint16], also written out as [uint16(b0)<<8 | uint16(b1)] *)
Definition be16 (b0 b1 : Z) : Z := Z.lor (u16 (Z.shiftl b0 8)) b1.

(** [payload[i:]] *)
Definition sliceFrom {A} (l : list A) (i : Z) : res stop (list A) :=
  if (0 <=? i) && (i <=? zlen l) then Ok (zdrop i l) else Err panicked.

#[local] Abbreviation at_ := (load panicked).

(** ** H.264 *)

(** The bytes of an aggregated unit before its NAL unit. *)
Definition unitOffset (nalu : Z) : Z :=
  if nalu =? 26 then 3 else if nalu =? 27 then 4 else 0.

(** [for i < len(payload)] over the units of an aggregation packet. *)
Fixpoint h264Units (fuel : nat) (nalu : Z) (payload : list Z) (i : Z) : res stop bool :=
  match fuel with
  | O => Err unfinished
  | Datatypes.S fuel =>
    if i <? zlen payload then
      if i + 2 >? zlen payload then Ok false
      else
        let! b0 := at_ payload i in
        let! b1 := at_ payload (i + 1) in
        let length := be16 b0 b1 in
        let i := i + 2 in
        if i + length >? zlen payload then Ok false
        else
          let offset := unitOffset nalu in
          if offset >=? length then Ok false
          else
            let! b := at_ payload (i + offset) in
            let n := Z.land b 0x1F in
            if n =? 7 then Ok true
            else h264Units fuel nalu payload (i + length)
    else Ok false
  end.

Definition IsH264KeyFrame (payload : list Z) : res stop bool :=
  if zlen payload <? 1 then Ok false
  else
    let! b0 := at_ payload 0 in
    let nalu := Z.land b0 0x1F in
    if nalu =? 0 then Ok false
    else if nalu <=? 23 then Ok (nalu =? 7)
    else if (nalu =? 24) || (nalu =? 25) || (nalu =? 26) || (nalu =? 27) then
      let i := 1 in
      let i := if (nalu =? 25) || (nalu =? 26) || (nalu =? 27) then i + 2 else i in
      h264Units (Datatypes.S (length payload)) nalu payload i
    else if (nalu =? 28) || (nalu =? 29) then
      if zlen payload <? 2 then Ok false
      else
        let! b1 := at_ payload 1 in
        if Z.land b1 0x80 =? 0 then Ok false
        else Ok (Z.land b1 0x1F =? 7)
    else Ok false.

(** ** VP9 *)

(** What the source reads of the third-party [codecs.VP9Packet]. *)
Record VP9Header := mkVP9Header { vp9_B : bool; vp9_Payload : list Z }.

(** The checks behind the frame marker: profile, show_existing_frame and frame
    type of the uncompressed header. *)
Definition vp9FrameIsKey (vp9 : VP9Header) : res stop bool :=
  if negb (vp9_B vp9) then Ok false
  else
    let! b := at_ (vp9_Payload vp9) 0 in
    if negb (Z.land b 0xc0 =? 0x80) then Ok false
    else
      let profile := Z.land (Z.shiftr b 4) 0x3 in
      if negb (profile =? 3) then Ok (Z.land b 0xC =? 0)
      else Ok (Z.land b 0x6 =? 0).

(** [unmarshal] is the third-party parser: [None] for its error. *)
Definition IsVP9KeyFrame (unmarshal : list Z -> option VP9Header) (vp9 : option VP9Header)
  (payload : list Z) : res stop bool :=
  match vp9 with
  | None =>
    match unmarshal payload with
    | None => Ok false
    | Some vp9 => if zlen (vp9_Payload vp9) <? 1 then Ok false else vp9FrameIsKey vp9
    end
  | Some vp9 => vp9FrameIsKey vp9
  end.

(** ** AV1 *)

(** The loop of [getObu] over the size in front of an OBU: the size and the
    offset behind it, or where it is missing or longer than four bytes, the
    offset reached and the truncation flag to return. *)
Fixpoint obuSize (fuel : nat) (data : list Z) (offset length : Z) : res stop (Z * bool + Z * Z) :=
  match fuel with
  | O => Err unfinished
  | Datatypes.S fuel =>
    if zlen data <=? offset then Ok (inl (offset, offset >? 0))
    else if offset >=? 4 then Ok (inl (offset, true))
    else
      let! l := at_ data offset in
      let length := Z.lor length (Z.shiftl (Z.land l 0x7f) (offset * 7)) in
      let offset := offset + 1 in
      if Z.land l 0x80 =? 0 then Ok (inr (length, offset))
      else obuSize fuel data offset length
  end.

(** [getObu]: the OBU, the bytes it takes, and whether it is cut off. *)
Definition getObu (data : list Z) (last : bool) : res stop (list Z * Z * bool) :=
  if last then Ok (data, zlen data, false)
  else
    let! size := obuSize 5 data 0 0 in
    match size with
    | inl (offset, truncated) => Ok ([], offset, truncated)
    | inr (length, offset) =>
      let! rest := sliceFrom data offset in
      if zlen data <? offset + length then Ok (rest, zlen data, true)
      else Ok (ztake length rest, offset + length, false)
    end.

(** The loop over the OBUs of a packet; [i] is the number of the OBU. *)
Fixpoint av1Obus (fuel : nat) (w : Z) (payload : list Z) (offset i : Z) : res stop bool :=
  match fuel with
  | O => Err unfinished
  | Datatypes.S fuel =>
    let! data := sliceFrom payload offset in
    let! (obu, length, truncated) := getObu data (w =? i + 1) in
    if zlen obu <? 1 then Ok false
    else
      let! b := at_ obu 0 in
      let tpe := Z.shiftr (Z.land b 0x38) 3 in
      let next (_ : unit) :=
        if truncated || (i >=? w) then Ok false
        else av1Obus fuel w payload (offset + length) (i + 1) in
      if i =? 0 then
        if negb (tpe =? 1) then Ok false else next tt
      else if (tpe =? 3) || (tpe =? 6) then
        if zlen obu <? 2 then Ok false
        else
          let! b1 := at_ obu 1 in
          if negb (Z.land b1 0x80 =? 0) then Ok false
          else Ok (Z.land b1 0x60 =? 0)
      else next tt
  end.

Definition IsAV1KeyFrame (payload : list Z) : res stop bool :=
  if zlen payload <? 2 then Ok false
  else
    let! b0 := at_ payload 0 in
    if negb (Z.land b0 0x88 =? 0x08) then Ok false
    else
      let w := Z.shiftr (Z.land b0 0x30) 4 in
      av1Obus 5 w payload 1 0.

(** ** H.265 *)

(** [(b & 0x7E) >> 1] *)
Definition h265Type (b : Z) : Z := Z.shiftr (Z.land b 0x7E) 1.
Definition isParameterSet (naluType : Z) : bool := (naluType =? 33) || (naluType =? 34).

(** [for idx < len(payload)-2] over the units of an aggregation packet. *)
Fixpoint h265Units (fuel : nat) (payload : list Z) (idx : Z) : res stop bool :=
  match fuel with
  | O => Err unfinished
  | Datatypes.S fuel =>
    if idx <? zlen payload - 2 then
      let! b0 := at_ payload idx in
      let! b1 := at_ payload (idx + 1) in
      let size := be16 b0 b1 in
      let idx := idx + 2 in
      if idx >=? zlen payload then Ok false
      else
        let! b := at_ payload idx in
        if isParameterSet (h265Type b) then Ok true
        else h265Units fuel payload (idx + size)
    else Ok false
  end.

Definition IsH265KeyFrame (payload : list Z) : res stop bool :=
  if zlen payload <? 2 then Ok false
  else
    let! b0 := at_ payload 0 in
    let naluType := h265Type b0 in
    if isParameterSet naluType then Ok true
    else if naluType =? 48 then h265Units (Datatypes.S (length payload)) payload 2
    else if naluType =? 49 then
      if zlen payload <? 3 then Ok false
      else
        let! b2 := at_ payload 2 in
        Ok (isParameterSet (h265Type b2))
    else Ok false.

(** ** The size of a VP8 key frame *)

Record VideoSize := mkVideoSize { Width : Z; Height : Z }.
#[export] Instance VideoSize_eq_dec : EqDecision VideoSize.
Proof. solve_decision. Defined.

Definition noSize : VideoSize := mkVideoSize 0 0.

Definition ExtractVP8VideoSize (vp8Packet : VP8) (payload : list Z) : res stop VideoSize :=
  if negb (IsKeyFrame vp8Packet) || (zlen payload <? HeaderSize vp8Packet + 10) then Ok noSize
  else
    let! vp8Payload := sliceFrom payload (HeaderSize vp8Packet) in
    if zlen vp8Payload <? 10 then Ok noSize
    else
      let! b3 := at_ vp8Payload 3 in
      let! b4 := at_ vp8Payload 4 in
      let! b5 := at_ vp8Payload 5 in
      if negb (b3 =? 0x9D) || negb (b4 =? 0x01) || negb (b5 =? 0x2A) then Ok noSize
      else
        let! b6 := at_ vp8Payload 6 in
        let! b7 := at_ vp8Payload 7 in
        let! b8 := at_ vp8Payload 8 in
        let! b9 := at_ vp8Payload 9 in
        let width := Z.lor b6 (u32 (Z.shiftl b7 8)) in
        let height := Z.lor b8 (u32 (Z.shiftl b9 8)) in
        Ok (mkVideoSize (Z.land width 0x3FFF) (Z.land height 0x3FFF)).

(** * Proofs *)

(** ** Reading bytes *)

Lemma be16_eq b0 b1 : byte b0 -> byte b1 -> be16 b0 b1 = 256 * b0 + b1.
Proof.
  unfold byte, be16. intros H0 H1. rewrite Z.shiftl_mul_pow2, u16_small by lia.
  rewrite (lor_disjoint b0 b1 8) by lia. lia.
Qed.

Lemma be16_range b0 b1 : byte b0 -> byte b1 -> 0 <= be16 b0 b1 < 65536.
Proof. intros H0 H1. rewrite be16_eq by done. unfold byte in *. lia. Qed.

Lemma load_app_r {E A} (e : E) (pre suf : list A) k : 0 <= k ->
  load e (pre ++ suf) (zlen pre + k) = load e suf k.
Proof.
  intros Hk. unfold load, zlookup, zlen. rewrite !(proj2 (Z.leb_le _ _)) by lia.
  rewrite lookup_app_r by lia. by replace (Z.to_nat (_ + k) - length pre)%nat with (Z.to_nat k) by lia.
Qed.

Lemma load_app_0 {E A} (e : E) (pre suf : list A) : load e (pre ++ suf) (zlen pre) = load e suf 0.
Proof. rewrite <- (load_app_r e pre suf 0) by lia. by rewrite Z.add_0_r. Qed.

Lemma load_in {E A} (e : E) (l : list A) k : 0 <= k < zlen l -> exists x, load e l k = Ok x /\ l !! Z.to_nat k = Some x.
Proof.
  intros Hk. destruct (zlookup_lt l k Hk) as [x Hx]. exists x. unfold load. rewrite Hx.
  by apply zlookup_Some in Hx as [_ ->].
Qed.

Lemma sliceFrom_ok {A} (l : list A) i : 0 <= i <= zlen l -> sliceFrom l i = Ok (zdrop i l).
Proof. intros Hi. unfold sliceFrom. by rewrite !(proj2 (Z.leb_le _ _)) by lia. Qed.

Lemma zlen_zdrop {A} i (l : list A) : 0 <= i <= zlen l -> zlen (zdrop i l) = zlen l - i.
Proof. unfold zlen, zdrop. rewrite length_drop. lia. Qed.

Lemma zlen_nil {A} : zlen ([] : list A) = 0.
Proof. done. Qed.

Lemma zlen_cons {A} (x : A) l : zlen (x :: l) = 1 + zlen l.
Proof. unfold zlen. cbn [length]. lia. Qed.

Lemma zdrop_split {A} i (l : list A) : 0 <= i <= zlen l -> l = ztake i l ++ zdrop i l /\ zlen (ztake i l) = i.
Proof. unfold ztake, zdrop, zlen. intros Hi. rewrite take_drop, length_take. split; [done|lia]. Qed.

(** ** Aggregated units

    [framed us] is the payload of an aggregation packet behind its header: each
    unit after its size. *)

Definition frame (u : list Z) : list Z := zlen u / 256 :: zlen u mod 256 :: u.
Definition framed (us : list (list Z)) : list Z := mjoin (map frame us).

(** The first byte of a unit's NAL unit satisfies [hit]; a unit that ends before
    it does not count. *)
Definition unitHit (hit : Z -> bool) (off : nat) (u : list Z) : bool :=
  match u !! off with Some b => hit b | None => false end.

Definition isSps (b : Z) : bool := Z.land b 0x1F =? 7.

(** What the H.264 loop looks for: complete units that reach their NAL unit, up
    to one with a sequence parameter set. *)
Inductive sps_ahead (off : nat) : list Z -> Prop :=
| sps_here b0 b1 u rest :
    zlen u = be16 b0 b1 -> unitHit isSps off u = true -> sps_ahead off (b0 :: b1 :: u ++ rest)
| sps_later b0 b1 u rest :
    zlen u = be16 b0 b1 -> (off < length u)%nat -> unitHit isSps off u = false ->
    sps_ahead off rest -> sps_ahead off (b0 :: b1 :: u ++ rest).

(** The one round of the loop that a unit takes. *)
Lemma h264Units_round fuel nalu pre b0 b1 rest : byte b0 -> byte b1 ->
  let off := unitOffset nalu in
  h264Units (Datatypes.S fuel) nalu (pre ++ b0 :: b1 :: rest) (zlen pre) =
  if be16 b0 b1 >? zlen rest then Ok false
  else if off >=? be16 b0 b1 then Ok false
  else let! b := at_ rest off in
       if isSps b then Ok true
       else h264Units fuel nalu ((pre ++ b0 :: b1 :: ztake (be16 b0 b1) rest) ++ zdrop (be16 b0 b1) rest)
              (zlen (pre ++ b0 :: b1 :: ztake (be16 b0 b1) rest)).
Proof.
  intros H0 H1 off. pose proof (be16_range b0 b1 H0 H1) as Hr. pose proof (zlen_nonneg rest).
  cbn [h264Units]. set (l := pre ++ b0 :: b1 :: rest).
  assert (zlen l = zlen pre + 2 + zlen rest) as El by (unfold l; rewrite zlen_app, !zlen_cons; lia).
  rewrite (proj2 (Z.ltb_lt _ _)) by lia.
  assert (zlen pre + 2 >? zlen l = false) as -> by (rewrite Z.gtb_ltb; lia).
  unfold l at 1 2. rewrite load_app_0, load_app_r by lia.
  change (at_ (b0 :: b1 :: rest) 0) with (Ok b0 : res stop Z).
  change (at_ (b0 :: b1 :: rest) 1) with (Ok b1 : res stop Z). cbn [res_bind].
  assert ((zlen pre + 2 + be16 b0 b1 >? zlen l) = (be16 b0 b1 >? zlen rest)) as -> by (rewrite !Z.gtb_ltb; lia).
  destruct (be16 b0 b1 >? zlen rest) eqn:Efit; [done|]. fold off.
  destruct (off >=? be16 b0 b1) eqn:Eo; [done|]. bool_prop.
  replace (zlen pre + 2 + off) with (zlen (pre ++ [b0; b1]) + off) by (rewrite zlen_app; done).
  replace l with ((pre ++ [b0; b1]) ++ rest) by (unfold l; by rewrite <- app_assoc).
  assert (0 <= off) by (unfold off, unitOffset; repeat case_if; lia).
  rewrite load_app_r by done. destruct (at_ rest off) as [b|e]; [|done]. cbn [res_bind].
  unfold isSps. destruct (Z.land b 31 =? 7); [done|].
  destruct (zdrop_split (be16 b0 b1) rest ltac:(lia)) as [Es Hl].
  assert (E : (pre ++ b0 :: b1 :: ztake (be16 b0 b1) rest) ++ zdrop (be16 b0 b1) rest =
              (pre ++ [b0; b1]) ++ rest) by (rewrite <- !app_assoc; cbn [app]; by rewrite <- Es).
  rewrite E. f_equal. rewrite zlen_app, !zlen_cons, Hl. lia.
Qed.

Lemma app_eq_len {A} (u v r s : list A) : u ++ r = v ++ s -> length u = length v -> u = v /\ r = s.
Proof. intros E Hl. by apply app_inj_1. Qed.

(** The two rules read backwards. *)
Lemma sps_ahead_inv off b0 b1 rest : byte b0 -> byte b1 ->
  let n := be16 b0 b1 in
  sps_ahead off (b0 :: b1 :: rest) <->
  n <= zlen rest /\ Z.of_nat off < n /\
  (unitHit isSps off (ztake n rest) = true \/
   unitHit isSps off (ztake n rest) = false /\ sps_ahead off (zdrop n rest)).
Proof.
  intros H0 H1 n. pose proof (be16_range b0 b1 H0 H1) as Hr. fold n in Hr. split.
  - assert (forall u r : list Z, zlen u = n -> ztake n (u ++ r) = u /\ zdrop n (u ++ r) = r) as Hsplit.
    { intros u r Hu. unfold ztake, zdrop, zlen in *. rewrite take_app_length', drop_app_length' by lia. done. }
    intros Ha. inversion Ha as [c0 c1 u r Hl Hh|c0 c1 u r Hl Ho Hh Hr']; subst; fold n in Hl;
      destruct (Hsplit u r Hl) as [-> ->]; rewrite zlen_app; pose proof (zlen_nonneg r).
    + unfold unitHit in Hh. destruct (u !! off) eqn:Eu; [|done]. apply lookup_lt_Some in Eu as Hlt.
      split_and!; [lia|unfold zlen in Hl; lia|]. left. unfold unitHit. by rewrite Eu.
    + split_and!; [lia|unfold zlen in Hl; lia|]. by right.
  - intros (Hfit & Ho & Hor). destruct (zdrop_split n rest ltac:(lia)) as [Es Hl]. rewrite Es.
    destruct Hor as [Hh|[Hh Hr']]; [by apply sps_here|]. apply sps_later; try done.
    unfold zlen in Hl. lia.
Qed.

Lemma h264Units_spec fuel nalu pre suf : bytes suf -> (length suf < fuel)%nat ->
  exists b, h264Units fuel nalu (pre ++ suf) (zlen pre) = Ok b /\
    (b = true <-> sps_ahead (Z.to_nat (unitOffset nalu)) suf).
Proof.
  revert pre suf. induction fuel as [|fuel IH]; intros pre suf Hb Hf; [lia|].
  destruct suf as [|b0 [|b1 rest]].
  { exists false. split; [|split; [done|by inversion 1]]. cbn [h264Units].
    rewrite zlen_app. change (zlen []) with 0. by rewrite (proj2 (Z.ltb_ge _ _)) by lia. }
  { exists false. split; [|split; [done|by inversion 1]]. cbn [h264Units].
    rewrite zlen_app. change (zlen [b0]) with 1. rewrite (proj2 (Z.ltb_lt _ _)) by lia.
    by assert (zlen pre + 2 >? zlen pre + 1 = true) as -> by (rewrite Z.gtb_ltb; lia). }
  apply Forall_cons in Hb as [H0 Hb]. apply Forall_cons in Hb as [H1 Hb].
  rewrite h264Units_round by done. pose proof (sps_ahead_inv (Z.to_nat (unitOffset nalu)) b0 b1 rest H0 H1) as Hinv.
  pose proof (be16_range b0 b1 H0 H1) as Hr. cbv zeta in *. set (n := be16 b0 b1) in *.
  set (off := unitOffset nalu) in *. assert (0 <= off) by (unfold off, unitOffset; repeat case_if; lia).
  destruct (n >? zlen rest) eqn:E1; bool_prop; [exists false; split; [done|rewrite Hinv; split; [done|intros (? & ? & _); lia]]|].
  destruct (off >=? n) eqn:E2; bool_prop; [exists false; split; [done|rewrite Hinv; split; [done|intros (? & ? & _); lia]]|].
  destruct (load_in panicked rest off ltac:(lia)) as (b & -> & Hl). cbn [res_bind].
  assert (unitHit isSps (Z.to_nat off) (ztake n rest) = isSps b) as Ehit.
  { unfold unitHit, ztake. rewrite lookup_take, decide_True by lia. by rewrite Hl. }
  rewrite Ehit in Hinv.
  destruct (isSps b) eqn:Eh.
  - exists true. split; [done|]. rewrite Hinv. split; [|done]. intros _. split_and!; [lia..|by left].
  - destruct (IH (pre ++ b0 :: b1 :: ztake n rest) (zdrop n rest)) as (r & -> & Hiff).
    + by apply Forall_drop.
    + unfold zdrop. rewrite length_drop. cbn [length] in Hf. lia.
    + exists r. split; [done|]. rewrite Hinv, Hiff. split; [|naive_solver].
      intros Hs. split_and!; [lia..|by right].
Qed.

Lemma be16_frame n : 0 <= n < 65536 -> byte (n / 256) /\ byte (n mod 256) /\ be16 (n / 256) (n mod 256) = n.
Proof.
  intros Hn. assert (byte (n / 256) /\ byte (n mod 256)) as [H0 H1] by (unfold byte; dlia).
  split_and!; [done..|]. rewrite be16_eq by done. dlia.
Qed.

Lemma framed_cons u us : framed (u :: us) = zlen u / 256 :: zlen u mod 256 :: u ++ framed us.
Proof. done. Qed.

(** Units that fit the size field and reach their NAL unit. *)
Definition unit_ok (off : nat) (u : list Z) : Prop := bytes u /\ Z.of_nat off < zlen u < 65536.

Lemma framed_bytes off us : Forall (unit_ok off) us -> bytes (framed us).
Proof.
  induction 1 as [|u us [Hb Hl] _ IH]; [constructor|]. rewrite framed_cons.
  destruct (be16_frame (zlen u)) as (? & ? & _); [lia|].
  constructor; [done|]. constructor; [done|]. by apply Forall_app.
Qed.

Lemma sps_ahead_framed off us : Forall (unit_ok off) us ->
  sps_ahead off (framed us) <-> existsb (unitHit isSps off) us = true.
Proof.
  induction 1 as [|u us [Hb Hl] Hus IH]; [split; [by inversion 1|done]|].
  rewrite framed_cons. destruct (be16_frame (zlen u)) as (H0 & H1 & E); [lia|].
  rewrite sps_ahead_inv by done. cbv zeta. rewrite E, zlen_app.
  unfold ztake, zdrop. unfold zlen in *. rewrite take_app_length', drop_app_length', IH by lia. cbn [existsb].
  rewrite orb_true_iff. destruct (unitHit isSps off u); 
    [|split; [intros (_ & _ & [?|[_ ?]]); [done|by right]|intros [?|?]; [done|]; split_and!; [lia..|by right]]].
  split; [tauto|]. intros _. split_and!; [lia..|by left].
Qed.

(** What [IsH264KeyFrame] is to decide, by the type in the first byte: a single
    sequence parameter set, an aggregation with one (behind a decoding order
    number for all but the first type), the first fragment of one. *)
Definition h264_key (payload : list Z) : Prop :=
  match payload with
  | [] => False
  | h :: rest =>
    let t := Z.land h 0x1F in
    if t =? 7 then True
    else if t =? 24 then sps_ahead 0 rest
    else if (t =? 25) || (t =? 26) || (t =? 27) then
      sps_ahead (Z.to_nat (unitOffset t)) (drop 2 rest)
    else if (t =? 28) || (t =? 29) then
      match rest with
      | fu :: _ => negb (Z.land fu 0x80 =? 0) && isSps fu = true
      | [] => False
      end
    else False
  end.

Lemma h264Units_from nalu payload i : bytes payload -> 0 <= i ->
  exists b, h264Units (Datatypes.S (length payload)) nalu payload i = Ok b /\
    (b = true <-> sps_ahead (Z.to_nat (unitOffset nalu)) (zdrop i payload)).
Proof.
  intros Hb Hi. destruct (Z.le_gt_cases i (zlen payload)) as [Hle|Hgt].
  - destruct (zdrop_split i payload ltac:(lia)) as [Es Hl]. 
    assert (forall F, h264Units F nalu payload i =
      h264Units F nalu (ztake i payload ++ zdrop i payload) (zlen (ztake i payload))) as -> by (by rewrite <- Es, Hl).
    apply h264Units_spec; [by apply Forall_drop|]. unfold zdrop. rewrite length_drop. lia.
  - exists false. unfold zdrop. rewrite drop_ge by (unfold zlen in Hgt; lia).
    cbn [h264Units]. rewrite (proj2 (Z.ltb_ge _ _)) by lia. split; [done|]. split; [done|by inversion 1].
Qed.

Lemma bool_iff (b c : bool) : (b = true <-> c = true) -> b = c.
Proof. destruct b, c; intros [H1 H2]; [done|symmetry; by apply H1|by apply H2|done]. Qed.

(** [IsH264KeyFrame] returns on every payload, without an index out of
    range and within its fuel, and decides whether a sequence parameter set
    starts in the packet: as its single NAL unit, as a complete unit of an
    aggregation reached over complete units, or as a first fragment. *)
Lemma IsH264KeyFrame_spec payload : bytes payload ->
  exists b, IsH264KeyFrame payload = Ok b /\ (b = true <-> h264_key payload).
Proof.
  intros Hb. destruct payload as [|h rest]; [by exists false|]. unfold IsH264KeyFrame, h264_key.
  rewrite zlen_cons. pose proof (zlen_nonneg rest). rewrite (proj2 (Z.ltb_ge _ _)) by lia.
  change (at_ (h :: rest) 0) with (Ok h : res stop Z). cbn [res_bind].
  pose proof (fun i => h264Units_from (Z.land h 31) (h :: rest) i Hb) as Hu.
  set (t := Z.land h 31) in *.
  destruct (Z.leb_spec t 23).
  { destruct (Z.eqb_spec t 0), (Z.eqb_spec t 7); try lia; [|by exists true|];
      rewrite !(proj2 (Z.eqb_neq t _)) by lia; by exists false. }
  rewrite (proj2 (Z.eqb_neq t 0)), (proj2 (Z.eqb_neq t 7)) by lia.
  destruct (Z.eqb_spec t 24) as [E|_]; [by rewrite E in *; apply (Hu 1)|].
  destruct ((t =? 25) || (t =? 26) || (t =? 27)) eqn:E.
  { cbn [orb]. rewrite E. replace (1 + 2) with 3 by lia. by apply (Hu 3). }
  cbn [orb]. rewrite E. destruct ((t =? 28) || (t =? 29)) eqn:E2; [|by exists false].
  destruct rest as [|fu rest]; [by exists false|]. rewrite zlen_cons. pose proof (zlen_nonneg rest).
  rewrite (proj2 (Z.ltb_ge _ _)) by lia.
  change (at_ (h :: fu :: rest) 1) with (Ok fu : res stop Z). cbn [res_bind].
  fold (isSps fu). destruct (Z.land fu 128 =? 0); by eexists.
Qed.

(** In an aggregation packet of units that reach their NAL unit,
    [IsH264KeyFrame] finds a sequence parameter set wherever it is. *)
Lemma IsH264KeyFrame_aggregate h don us : byte h -> bytes don -> 24 <= Z.land h 0x1F <= 27 ->
  zlen don = (if Z.land h 0x1F =? 24 then 0 else 2) ->
  Forall (unit_ok (Z.to_nat (unitOffset (Z.land h 0x1F)))) us ->
  IsH264KeyFrame (h :: don ++ framed us) =
  Ok (existsb (unitHit isSps (Z.to_nat (unitOffset (Z.land h 0x1F)))) us).
Proof.
  intros Hh Hd Ht Hl Hus. set (off := Z.to_nat (unitOffset (Z.land h 31))) in *.
  assert (bytes (h :: don ++ framed us)) as Hb.
  { constructor; [done|]. apply Forall_app. split; [done|]. by eapply framed_bytes. }
  pose proof (fun i => h264Units_from (Z.land h 31) _ i Hb) as Hu. unfold IsH264KeyFrame.
  rewrite zlen_cons. pose proof (zlen_nonneg (don ++ framed us)). rewrite (proj2 (Z.ltb_ge _ _)) by lia.
  change (at_ (h :: don ++ framed us) 0) with (Ok h : res stop Z). cbn [res_bind].
  destruct (Z.eqb_spec (Z.land h 31) 0), (Z.leb_spec (Z.land h 31) 23); try lia.
  set (i := if Z.land h 31 =? 24 then 1 else 3).
  assert (Hi : zdrop i (h :: don ++ framed us) = framed us /\ 0 <= i).
  { subst i. destruct (Z.land h 31 =? 24).
    - destruct don; [done|]. rewrite zlen_cons in Hl. pose proof (zlen_nonneg don). lia.
    - destruct don as [|d0 [|d1 [|d2 don]]]; try done.
      rewrite !zlen_cons in Hl. pose proof (zlen_nonneg don). lia. }
  destruct Hi as [Hi Hi0]. destruct (Hu i Hi0) as (b & Hr & Hiff). rewrite Hi, sps_ahead_framed in Hiff by done.
  apply bool_iff in Hiff. fold off in Hiff. rewrite <- Hiff, <- Hr. subst i.
  destruct (Z.eqb_spec (Z.land h 31) 24) as [->|Hne]; [done|].
  cbn [orb]. assert ((Z.land h 31 =? 25) || (Z.land h 31 =? 26) || (Z.land h 31 =? 27) = true) as -> by lia. done.
Qed.

(** ** H.265 *)

Lemma load_zdrop {E A} (e : E) (l : list A) i k : 0 <= i -> 0 <= k ->
  load e l (i + k) = load e (zdrop i l) k.
Proof.
  intros Hi Hk. unfold load, zlookup, zdrop. rewrite !(proj2 (Z.leb_le _ _)) by lia.
  rewrite lookup_drop. by replace (Z.to_nat i + Z.to_nat k)%nat with (Z.to_nat (i + k)) by lia.
Qed.

Lemma load_zdrop_0 {E A} (e : E) (l : list A) i : 0 <= i -> load e l i = load e (zdrop i l) 0.
Proof. intros Hi. rewrite <- load_zdrop by lia. by rewrite Z.add_0_r. Qed.

Lemma zdrop_zdrop {A} i j (l : list A) : 0 <= i -> 0 <= j -> zdrop j (zdrop i l) = zdrop (i + j) l.
Proof. intros Hi Hj. unfold zdrop. rewrite drop_drop. f_equal. lia. Qed.

Lemma zdrop_ge {A} i (l : list A) : zlen l <= i -> zdrop i l = [].
Proof. unfold zdrop, zlen. intros Hi. apply drop_ge. lia. Qed.

(** What the H.265 loop looks for: the type of each unit is read from the byte
    behind its size, whether the unit is complete or not. *)
Inductive ps_ahead : list Z -> Prop :=
| ps_here b0 b1 h rest : isParameterSet (h265Type h) = true -> ps_ahead (b0 :: b1 :: h :: rest)
| ps_later b0 b1 h rest :
    isParameterSet (h265Type h) = false -> ps_ahead (zdrop (be16 b0 b1) (h :: rest)) ->
    ps_ahead (b0 :: b1 :: h :: rest).

Lemma ps_ahead_inv b0 b1 h rest :
  ps_ahead (b0 :: b1 :: h :: rest) <->
  isParameterSet (h265Type h) = true \/
  isParameterSet (h265Type h) = false /\ ps_ahead (zdrop (be16 b0 b1) (h :: rest)).
Proof.
  split; [intros H; inversion H; tauto|]. intros [H|[H1 H2]]; [by apply ps_here|by apply ps_later].
Qed.

Lemma h265Units_spec fuel payload idx : bytes payload -> 0 <= idx -> zlen payload - idx < Z.of_nat fuel ->
  (0 < fuel)%nat ->
  exists b, h265Units fuel payload idx = Ok b /\ (b = true <-> ps_ahead (zdrop idx payload)).
Proof.
  revert idx. induction fuel as [|fuel IH]; intros idx Hb Hi Hf Hpos; [lia|]. cbn [h265Units].
  assert (forall suf, zdrop idx payload = suf -> suf = [] \/ zlen payload = idx + zlen suf) as Hlen.
  { intros suf <-. destruct (Z.le_gt_cases (zlen payload) idx); [left; by apply zdrop_ge|].
    right. rewrite zlen_zdrop; lia. }
  destruct (Z.ltb_spec idx (zlen payload - 2)).
  2: { exists false. split; [done|]. split; [done|]. intros Ha.
       inversion Ha as [? ? ? ? ? E|? ? ? ? ? ? E]; symmetry in E; apply Hlen in E as [?|E]; try done;
       rewrite !zlen_cons in E; pose proof (zlen_nonneg rest); lia. }
  rewrite (load_zdrop_0 _ _ idx), !load_zdrop by lia.
  assert (bytes (zdrop idx payload)) as Hbs by by apply Forall_drop.
  assert (zlen (zdrop idx payload) = zlen payload - idx) as Hl by (apply zlen_zdrop; lia). clear Hlen.
  destruct (zdrop idx payload) as [|b0 [|b1 [|h rest]]] eqn:E;
    rewrite ?zlen_cons in Hl; try (change (@zlen Z []) with 0 in Hl; lia).
  change (at_ (b0 :: b1 :: h :: rest) 0) with (Ok b0 : res stop Z).
  change (at_ (b0 :: b1 :: h :: rest) 1) with (Ok b1 : res stop Z).
  change (at_ (b0 :: b1 :: h :: rest) 2) with (Ok h : res stop Z). cbn [res_bind].
  assert (idx + 2 >=? zlen payload = false) as -> by (rewrite Z.geb_leb; lia).
  pose proof (ps_ahead_inv b0 b1 h rest) as Hinv.
  apply Forall_cons in Hbs as [H0 Hbs]. apply Forall_cons in Hbs as [H1 _].
  pose proof (be16_range b0 b1 H0 H1). pose proof (zlen_nonneg rest).
  destruct (isParameterSet (h265Type h)); [exists true; tauto|].
  destruct (IH (idx + 2 + be16 b0 b1)) as (b & -> & Hiff); [done|lia..|].
  exists b. split; [done|]. rewrite Hinv, Hiff, <- zdrop_zdrop, <- (zdrop_zdrop idx 2), E by lia.
  change (zdrop 2 (b0 :: b1 :: h :: rest)) with (h :: rest). naive_solver.
Qed.

Definition isPs (b : Z) : bool := isParameterSet (h265Type b).

Lemma ps_ahead_framed us : Forall (unit_ok 0) us ->
  ps_ahead (framed us) <-> existsb (unitHit isPs 0) us = true.
Proof.
  induction 1 as [|u us [Hb Hl] Hus IH]; [split; [by inversion 1|done]|].
  rewrite framed_cons. destruct (be16_frame (zlen u)) as (H0 & H1 & E); [lia|].
  destruct u as [|h u]; [rewrite (@zlen_nil Z) in Hl; lia|]. cbn [app]. rewrite ps_ahead_inv, E. cbn [existsb].
  change (h :: u ++ framed us) with ((h :: u) ++ framed us).
  unfold zdrop, zlen. rewrite drop_app_length' by lia. rewrite orb_true_iff, IH.
  change (unitHit isPs 0 (h :: u)) with (isPs h). unfold isPs at 2. destruct (isParameterSet _); naive_solver.
Qed.

(** What [IsH265KeyFrame] is to decide: a parameter set as the single unit, in
    an aggregation, or in the fragment that starts one, whose type is in the low
    six bits of its header. *)
Definition h265_key (payload : list Z) : Prop :=
  match payload with
  | h :: _ :: rest =>
    let t := h265Type h in
    if isParameterSet t then True
    else if t =? 48 then ps_ahead rest
    else if t =? 49 then
      match rest with
      | fu :: _ => negb (Z.land fu 0x80 =? 0) && isParameterSet (Z.land fu 0x3F) = true
      | [] => False
      end
    else False
  | _ => False
  end.

Definition h265Fragment (payload : list Z) : bool :=
  match payload with h :: _ => h265Type h =? 49 | [] => false end.

(** [IsH265KeyFrame] returns on every payload, without an index out of
    range and within its fuel, and decides, fragments apart, whether a
    parameter set is in the packet. *)
Lemma IsH265KeyFrame_spec payload : bytes payload ->
  exists b, IsH265KeyFrame payload = Ok b /\ (h265Fragment payload = false -> (b = true <-> h265_key payload)).
Proof.
  intros Hb. destruct payload as [|h [|h1 rest]]; [by exists false..|].
  pose proof (h265Units_spec (Datatypes.S (length (h :: h1 :: rest))) _ 2 Hb) as Hu.
  unfold IsH265KeyFrame, h265_key, h265Fragment. rewrite !zlen_cons in *. pose proof (zlen_nonneg rest).
  rewrite (proj2 (Z.ltb_ge _ 2)) by lia. change (at_ (h :: h1 :: rest) 0) with (Ok h : res stop Z).
  cbn [res_bind]. destruct (isParameterSet (h265Type h)); [by exists true|].
  destruct (h265Type h =? 48); [destruct Hu as (b & ? & ?); [lia|unfold zlen; cbn [length]; lia|lia|by exists b]|].
  destruct (h265Type h =? 49); [|by exists false].
  destruct rest as [|fu rest]; [by exists false|]. rewrite zlen_cons. pose proof (zlen_nonneg rest).
  rewrite (proj2 (Z.ltb_ge _ 3)) by lia.
  change (at_ (h :: h1 :: fu :: rest) 2) with (Ok fu : res stop Z). by eexists.
Qed.

(** In an aggregation packet of non-empty units [IsH265KeyFrame] finds a
    parameter set wherever it is. *)
Lemma IsH265KeyFrame_aggregate h h1 us : byte h -> byte h1 -> h265Type h = 48 -> Forall (unit_ok 0) us ->
  IsH265KeyFrame (h :: h1 :: framed us) = Ok (existsb (unitHit isPs 0) us).
Proof.
  intros Hh H1 Ht Hus. assert (bytes (h :: h1 :: framed us)) as Hb.
  { do 2 (constructor; [done|]). by eapply framed_bytes. }
  destruct (h265Units_spec (Datatypes.S (length (h :: h1 :: framed us))) _ 2 Hb) as (b & Hr & Hiff);
    [lia|unfold zlen; lia|lia|].
  change (zdrop 2 (h :: h1 :: framed us)) with (framed us) in Hiff. rewrite ps_ahead_framed in Hiff by done.
  apply bool_iff in Hiff as <-. rewrite <- Hr. unfold IsH265KeyFrame. rewrite !zlen_cons.
  pose proof (zlen_nonneg (framed us)). rewrite (proj2 (Z.ltb_ge _ 2)) by lia.
  change (at_ (h :: h1 :: framed us) 0) with (Ok h : res stop Z). cbn [res_bind]. by rewrite Ht.
Qed.

(** The header of a fragment holds the start and the end bit above six bits of
    type; the code reads the type from bits 6 to 1.  So no first fragment is a
    key frame for it. *)
Lemma h265_first_fragment_missed fu : byte fu -> Z.land fu 0xC0 = 0x80 -> isPs fu = false.
Proof.
  intros Hb Hs.
  pose proof (zseq_all 256 (fun fu => implb (Z.land fu 0xC0 =? 0x80) (negb (isPs fu))) eq_refl fu Hb) as H.
  cbv beta in H. rewrite Hs in H. by apply negb_true_iff.
Qed.

(** ** AV1 *)

Lemma land_7f b : byte b -> Z.land b 0x7f = b mod 128.
Proof. intros _. by apply (Z.land_ones b 7). Qed.

Lemma land_80 b : byte b -> (Z.land b 0x80 =? 0) = (b <? 128).
Proof.
  intros Hb. apply eqb_prop.
  exact (zseq_all 256 (fun b => eqb (Z.land b 0x80 =? 0) (b <? 128)) eq_refl b Hb).
Qed.

(** The size of an OBU in [n] groups of seven bits at most. *)
Fixpoint leb128 (n : nat) (x : Z) : list Z :=
  match n with
  | O => []
  | Datatypes.S n => if x <? 128 then [x] else (128 + x mod 128) :: leb128 n (x / 128)
  end.

Lemma obuSize_leb128 n fuel pre x rest acc :
  0 <= x < 2 ^ (7 * Z.of_nat n) -> (0 < n)%nat -> (n <= fuel)%nat -> zlen pre + Z.of_nat n <= 4 ->
  0 <= acc < 2 ^ (zlen pre * 7) ->
  obuSize fuel (pre ++ leb128 n x ++ rest) (zlen pre) acc =
  Ok (inr (acc + x * 2 ^ (zlen pre * 7), zlen pre + zlen (leb128 n x))).
Proof.
  revert fuel pre x acc. induction n as [|n IH]; intros fuel pre x acc Hx Hn Hf H4 Hacc; [lia|].
  destruct fuel as [|fuel]; [lia|]. cbn [obuSize leb128]. pose proof (zlen_nonneg pre).
  set (b := if x <? 128 then x else 128 + x mod 128).
  assert (byte b) as Hb by (unfold b, byte; case_if; bool_prop; dlia).
  assert (exists tl, (if x <? 128 then [x] else (128 + x mod 128) :: leb128 n (x / 128)) = b :: tl) as [tl Etl]
    by (unfold b; case_if; by eexists).
  rewrite !Etl. cbn [app]. rewrite load_app_0. rewrite zlen_app, zlen_cons. pose proof (zlen_nonneg (tl ++ rest)).
  rewrite (proj2 (Z.leb_gt _ _)) by lia. assert (zlen pre >=? 4 = false) as -> by (rewrite Z.geb_leb; lia).
  change (at_ (b :: tl ++ rest) 0) with (Ok b : res stop Z). cbn [res_bind].
  rewrite land_7f, land_80 by done.
  rewrite Z.shiftl_mul_pow2, Z.lor_comm, lor_disjoint by lia.
  unfold b in *. destruct (Z.ltb_spec x 128) as [Hlt|Hge].
  - injection Etl as <-. rewrite (proj2 (Z.ltb_lt _ _)), Z.mod_small by lia. change (zlen [x]) with 1.
    f_equal. f_equal. f_equal. lia.
  - injection Etl as <-. rewrite (proj2 (Z.ltb_ge _ _)) by dlia.
    destruct n as [|n]; [change (7 * Z.of_nat 1) with 7 in Hx; lia|].
    assert (zlen pre + 1 = zlen (pre ++ [128 + x mod 128])) as El by (rewrite zlen_app; done).
    replace (pre ++ _ :: _ ++ rest) with ((pre ++ [128 + x mod 128]) ++ leb128 (Datatypes.S n) (x / 128) ++ rest)
      by (by rewrite <- app_assoc).
    assert (2 ^ (7 * Z.of_nat (Datatypes.S (Datatypes.S n))) = 128 * 2 ^ (7 * Z.of_nat (Datatypes.S n))) as E2.
    { replace (7 * Z.of_nat (Datatypes.S (Datatypes.S n))) with (7 + 7 * Z.of_nat (Datatypes.S n)) by lia.
      by rewrite Z.pow_add_r by lia. }
    assert (2 ^ ((zlen pre + 1) * 7) = 2 ^ (zlen pre * 7) * 128) as E3.
    { replace ((zlen pre + 1) * 7) with (zlen pre * 7 + 7) by lia. by rewrite Z.pow_add_r by lia. }
    rewrite El, IH; [|dlia|lia|lia|lia|].
    + rewrite <- El, E3, zlen_cons. do 2 f_equal. rewrite Zplus_mod, Z_mod_same_full, Z.add_0_l, !Z.mod_mod by lia.
      f_equal; [|lia]. pose proof (Z.div_mod x 128). nia.
    + rewrite <- El, E3, Zplus_mod, Z_mod_same_full, Z.add_0_l, !Z.mod_mod by lia.
      pose proof (Z.mod_pos_bound x 128). nia.
Qed.

(** The OBUs of a packet whose header gives their number: each behind its size
    but the last. *)
Fixpoint av1_body (obus : list (list Z)) : list Z :=
  match obus with
  | [] => []
  | [o] => o
  | o :: os => leb128 4 (zlen o) ++ o ++ av1_body os
  end.

Definition obuType (o : list Z) : Z :=
  match o with b :: _ => Z.shiftr (Z.land b 0x38) 3 | [] => -1 end.
Definition isFrame (o : list Z) : bool := (obuType o =? 3) || (obuType o =? 6).
Definition shownKeyFrame (o : list Z) : bool :=
  match o with _ :: b :: _ => (Z.land b 0x80 =? 0) && (Z.land b 0x60 =? 0) | _ => false end.

(** The first frame of the OBUs is a new key frame. *)
Fixpoint firstFrameIsKey (obus : list (list Z)) : bool :=
  match obus with
  | [] => false
  | o :: os => if isFrame o then shownKeyFrame o else firstFrameIsKey os
  end.

Definition av1_key (obus : list (list Z)) : bool :=
  match obus with o :: os => (obuType o =? 1) && firstFrameIsKey os | [] => false end.

Definition obu_ok (o : list Z) : Prop := bytes o /\ 0 < zlen o < 2 ^ 28.

(** The cases of [getObu] on a well-formed packet. *)
Lemma getObu_last o : getObu o true = Ok (o, zlen o, false).
Proof. done. Qed.

Lemma getObu_field o rest : obu_ok o ->
  getObu (leb128 4 (zlen o) ++ o ++ rest) false = Ok (o, zlen (leb128 4 (zlen o)) + zlen o, false).
Proof.
  intros [_ Ho]. unfold getObu.
  pose proof (obuSize_leb128 4 5 [] (zlen o) (o ++ rest) 0) as Hs.
  change (@zlen Z []) with 0 in Hs. cbn [app] in Hs. rewrite Hs by lia. cbn [res_bind].
  rewrite Z.mul_0_l, Z.pow_0_r, Z.mul_1_r, !Z.add_0_l.
  set (l := leb128 4 (zlen o)). pose proof (zlen_nonneg l). pose proof (zlen_nonneg rest).
  rewrite sliceFrom_ok by (rewrite !zlen_app; lia). cbn [res_bind]. rewrite !zlen_app.
  rewrite (proj2 (Z.ltb_ge _ _)) by lia. unfold zdrop, ztake, zlen.
  by rewrite drop_app_length', take_app_length' by lia.
Qed.

Lemma sliceFrom_app {A} (pre suf : list A) : sliceFrom (pre ++ suf) (zlen pre) = Ok suf.
Proof.
  rewrite sliceFrom_ok by (rewrite zlen_app; pose proof (zlen_nonneg pre); pose proof (zlen_nonneg suf); lia).
  unfold zdrop, zlen. by rewrite drop_app_length' by lia.
Qed.

(** One round of the loop, on the OBU that [getObu] finds. *)
Lemma av1Obus_round fuel w pre suf i o n : getObu suf (w =? i + 1) = Ok (o, n, false) ->
  obu_ok o -> i < w ->
  av1Obus (Datatypes.S fuel) w (pre ++ suf) (zlen pre) i =
  let next := av1Obus fuel w (pre ++ suf) (zlen pre + n) (i + 1) in
  if i =? 0 then if obuType o =? 1 then next else Ok false
  else if isFrame o then Ok (shownKeyFrame o) else next.
Proof.
  intros Hg [Hb Ho] Hi. cbn [av1Obus]. rewrite sliceFrom_app. cbn [res_bind]. rewrite Hg. cbn [res_bind].
  rewrite (proj2 (Z.ltb_ge _ _)) by lia. destruct o as [|b o]; [rewrite (@zlen_nil Z) in Ho; lia|].
  change (at_ (b :: o) 0) with (Ok b : res stop Z). cbn [res_bind orb].
  unfold isFrame, obuType. assert (i >=? w = false) as -> by (rewrite Z.geb_leb; lia).
  destruct (i =? 0); [by destruct (_ =? 1)|]. destruct (_ || _); [|done].
  destruct o as [|b1 o]; [done|]. rewrite !zlen_cons. pose proof (zlen_nonneg o).
  rewrite (proj2 (Z.ltb_ge _ 2)) by lia. change (at_ (b :: b1 :: o) 1) with (Ok b1 : res stop Z).
  cbn [res_bind shownKeyFrame]. by destruct (Z.land b1 128 =? 0).
Qed.

Lemma av1Obus_ok fuel w pre obus i : Forall obu_ok obus -> 0 <= i -> w = i + zlen obus ->
  (length obus < fuel)%nat ->
  av1Obus fuel w (pre ++ av1_body obus) (zlen pre) i =
  Ok (if i =? 0 then av1_key obus else firstFrameIsKey obus).
Proof.
  intros Hall. revert fuel pre i. induction Hall as [|o os Ho Hos IH]; intros fuel pre i Hi Hw Hf;
    (destruct fuel as [|fuel]; [lia|]).
  { cbn [av1Obus av1_body]. rewrite sliceFrom_app. cbn [res_bind]. rewrite (@zlen_nil (list Z)) in Hw.
    rewrite (proj2 (Z.eqb_neq _ _)) by lia. by destruct (i =? 0). }
  rewrite zlen_cons in Hw. cbn [length] in Hf. pose proof (zlen_nonneg os).
  assert (exists n, getObu (av1_body (o :: os)) (w =? i + 1) = Ok (o, n, false) /\
    exists mid, av1_body (o :: os) = mid ++ av1_body os /\ zlen mid = n) as (n & Hg & mid & Em & Hn).
  { destruct os as [|o2 os].
    - exists (zlen o). rewrite (proj2 (Z.eqb_eq _ _)) by (rewrite Hw, zlen_nil; lia). split; [done|].
      exists o. cbn [av1_body]. by rewrite app_nil_r.
    - rewrite (proj2 (Z.eqb_neq _ _)) by (rewrite Hw, zlen_cons; pose proof (zlen_nonneg os); lia).
      eexists. split; [by apply getObu_field|]. exists (leb128 4 (zlen o) ++ o).
      rewrite zlen_app, <- app_assoc. done. }
  rewrite (av1Obus_round _ _ _ _ _ _ _ Hg Ho) by lia. cbv zeta.
  assert (av1Obus fuel w (pre ++ av1_body (o :: os)) (zlen pre + n) (i + 1) = Ok (firstFrameIsKey os)) as ->.
  { rewrite Em, app_assoc, <- Hn, <- zlen_app, IH by lia. by rewrite (proj2 (Z.eqb_neq _ _)) by lia. }
  cbn [av1_key firstFrameIsKey]. destruct (i =? 0); [by destruct (_ =? 1)|]. by destruct (isFrame o).
Qed.

(** On a packet that starts a coded video sequence (its header says that
    no OBU is continued, that a sequence starts, and how many OBUs follow),
    [IsAV1KeyFrame] finds the OBUs that were written, whatever their sizes, and
    answers whether the first is a sequence header and the first frame behind
    it a key frame that is not a repeated one. *)
Theorem IsAV1KeyFrame_obus h obus : byte h -> Z.land h 0x88 = 0x08 ->
  Z.shiftr (Z.land h 0x30) 4 = zlen obus -> (0 < length obus)%nat -> Forall obu_ok obus ->
  IsAV1KeyFrame (h :: av1_body obus) = Ok (av1_key obus).
Proof.
  intros Hh Hs Hw Hpos Hall. unfold IsAV1KeyFrame. rewrite zlen_cons.
  assert (0 < zlen (av1_body obus)).
  { destruct Hall as [|o os [_ Ho] _]; [cbn in Hpos; lia|]. destruct os as [|o2 os]; cbn [av1_body]; [lia|].
    rewrite !zlen_app. pose proof (zlen_nonneg (leb128 4 (zlen o))).
    pose proof (zlen_nonneg (av1_body (o2 :: os))). cbn [av1_body] in *. lia. }
  rewrite (proj2 (Z.ltb_ge _ _)) by lia.
  change (at_ (h :: av1_body obus) 0) with (Ok h : res stop Z). cbn [res_bind]. rewrite Hs, Hw. cbn [negb Z.eqb Pos.eqb].
  assert (zlen obus < 4) as H4.
  { rewrite <- Hw. pose proof (zseq_all 256 (fun h => Z.shiftr (Z.land h 0x30) 4 <? 4) eq_refl h Hh) as Hq.
    by apply Z.ltb_lt in Hq. }
  apply (av1Obus_ok 5 _ [h] obus 0); [done|lia|lia|unfold zlen in H4; lia].
Qed.

(** On arbitrary bytes: [getObu] returns, and an OBU that is not cut off lies
    within the data. *)
Lemma obuSize_total fuel data offset acc : 0 <= offset <= 4 -> 4 - offset < Z.of_nat fuel -> 0 <= acc ->
  exists r, obuSize fuel data offset acc = Ok r /\
    match r with inl _ => True | inr (n, o) => 0 <= n /\ offset < o <= zlen data end.
Proof.
  revert offset acc. induction fuel as [|fuel IH]; intros offset acc Ho Hf Ha; [lia|]. cbn [obuSize].
  destruct (Z.leb_spec (zlen data) offset); [by eexists (inl _)|].
  destruct (offset >=? 4) eqn:E4; [by eexists (inl _)|]. bool_prop.
  destruct (load_in panicked data offset) as (l & -> & _); [lia|]. cbn [res_bind].
  set (acc' := Z.lor acc _). assert (0 <= acc').
  { apply Z.lor_nonneg. split; [done|]. apply Z.shiftl_nonneg, Z.land_nonneg. by right. }
  destruct (Z.land l 128 =? 0); [exists (inr (acc', offset + 1)); split; [done|lia]|].
  destruct (IH (offset + 1) acc') as (r & -> & Hr); [lia..|]. exists r. split; [done|].
  destruct r as [?|[n o]]; [done|]. lia.
Qed.

Lemma getObu_total data last : exists o n tr, getObu data last = Ok (o, n, tr) /\
  (0 < zlen o -> tr = false -> 0 <= n <= zlen data).
Proof.
  unfold getObu. pose proof (zlen_nonneg data). destruct last.
  { exists data, (zlen data), false. split; [done|lia]. }
  destruct (obuSize_total 5 data 0 0) as (r & -> & Hr); [lia..|]. cbn [res_bind].
  destruct r as [[o tr]|[n o]]; [by exists [], o, tr|]. rewrite sliceFrom_ok by lia. cbn [res_bind].
  destruct (Z.ltb_spec (zlen data) (o + n)); do 3 eexists; (split; [done|]); intros; [done|lia].
Qed.

Lemma av1Obus_total fuel w payload offset i : 0 <= offset <= zlen payload ->
  i <= w -> w - i + 1 < Z.of_nat fuel -> exists b, av1Obus fuel w payload offset i = Ok b.
Proof.
  revert offset i. induction fuel as [|fuel IH]; intros offset i Ho Hi Hf; [lia|]. cbn [av1Obus].
  rewrite sliceFrom_ok by done. cbn [res_bind].
  destruct (getObu_total (zdrop offset payload) (w =? i + 1)) as (o & n & tr & -> & Hn). cbn [res_bind].
  destruct (Z.ltb_spec (zlen o) 1); [by eexists|].
  destruct (load_in panicked o 0) as (b & -> & _); [lia|]. cbn [res_bind].
  set (next := if tr || (i >=? w) then _ else _).
  assert (exists b, next = Ok b) as Hnext.
  { unfold next. destruct tr; [by eexists|]. cbn [orb]. destruct (i >=? w) eqn:Ei; [by eexists|]. bool_prop.
    rewrite zlen_zdrop in Hn by lia. specialize (Hn ltac:(lia) eq_refl). apply IH; lia. }
  clearbody next. destruct (i =? 0); [by case_if; eauto|]. destruct (_ || _); [|done].
  destruct (Z.ltb_spec (zlen o) 2); [by eexists|].
  destruct (load_in panicked o 1) as (b1 & -> & _); [lia|]. cbn [res_bind]. case_if; by eexists.
Qed.

(** [IsAV1KeyFrame] returns on every payload, without an index or slice out
    of range and within its fuel: at most four OBUs are looked at, and the
    reading of a size ends after four bytes. *)
Lemma IsAV1KeyFrame_total payload : bytes payload -> exists b, IsAV1KeyFrame payload = Ok b.
Proof.
  intros Hb. unfold IsAV1KeyFrame. destruct (Z.ltb_spec (zlen payload) 2); [by eexists|].
  destruct (load_in panicked payload 0) as (h & -> & Hl); [lia|]. cbn [res_bind]. case_if; [by eexists|].
  assert (byte h) as Hh by (by eapply (Forall_lookup_1 _ _ _ _ Hb)).
  pose proof (zseq_all 256 (fun h => (0 <=? Z.shiftr (Z.land h 0x30) 4) && (Z.shiftr (Z.land h 0x30) 4 <? 4)) eq_refl h Hh) as Hq.
  cbv beta in Hq. bool_prop. apply av1Obus_total; lia.
Qed.

(** A packet whose header leaves the number of its OBUs open (each has a size)
    is never taken for a key frame: the loop gives up behind the first OBU. *)
Lemma av1_open_count_missed payload : bytes payload ->
  (forall h, payload !! 0%nat = Some h -> Z.land h 0x30 = 0) -> IsAV1KeyFrame payload = Ok false.
Proof.
  intros Hb H0. unfold IsAV1KeyFrame. destruct (Z.ltb_spec (zlen payload) 2); [done|].
  destruct (load_in panicked payload 0) as (h & -> & Hl); [lia|]. cbn [res_bind]. rewrite (H0 h Hl). case_if; [done|].
  change (Z.shiftr 0 4) with 0. generalize 4%nat as fuel. intros fuel. cbn [av1Obus]. rewrite sliceFrom_ok by lia. cbn [res_bind].
  destruct (getObu_total (zdrop 1 payload) (0 =? 0 + 1)) as (o & n & tr & -> & _). cbn [res_bind].
  destruct (Z.ltb_spec (zlen o) 1); [done|].
  destruct (load_in panicked o 0) as (b & -> & _); [lia|]. cbn [res_bind].
  change (0 >=? 0) with true. rewrite orb_true_r. change (0 =? 0) with true. cbv iota. 
  by case_if.
Qed.

Lemma av1_open_count_missed_example :
  IsAV1KeyFrame [0x08; 2; 0x08; 0; 3; 0x30; 0x10; 0] = Ok false /\
  IsAV1KeyFrame [0x28; 2; 0x08; 0; 0x30; 0x10; 0] = Ok true.
Proof. split; reflexivity. Qed.

(** ** VP9 *)

(** [IsVP9KeyFrame] guards the payload only when it parses the header itself: a
    caller's header of a frame start with nothing behind it is indexed out of
    range, and nothing else is. *)
Lemma IsVP9KeyFrame_panics_iff unmarshal vp9 payload :
  IsVP9KeyFrame unmarshal vp9 payload = Err panicked <->
  exists h, vp9 = Some h /\ vp9_B h = true /\ vp9_Payload h = [].
Proof.
  assert (forall h, vp9FrameIsKey h = Err panicked <-> vp9_B h = true /\ vp9_Payload h = []) as Hk.
  { intros [[] [|b p]]; unfold vp9FrameIsKey; cbn [vp9_B vp9_Payload negb].
    - by split.
    - change (at_ (b :: p) 0) with (Ok b : res stop Z). cbn [res_bind].
      split; [repeat case_if; done|by intros [_ ?]].
    - by split; [|intros [? _]].
    - by split; [|intros [? _]]. }
  unfold IsVP9KeyFrame. destruct vp9 as [h|].
  { rewrite Hk. split; [by exists h|]. by intros (? & [= ->] & ?). }
  split; [|by intros (? & ? & _)]. destruct (unmarshal payload) as [h|]; [|done].
  destruct (Z.ltb_spec (zlen (vp9_Payload h)) 1) as [|Hl]; [done|]. rewrite Hk. intros [_ E].
  rewrite E, zlen_nil in Hl. lia.
Qed.

Lemma IsVP9KeyFrame_total unmarshal vp9 payload : (forall h, vp9 = Some h -> vp9_B h = true -> vp9_Payload h <> []) ->
  exists b, IsVP9KeyFrame unmarshal vp9 payload = Ok b.
Proof.
  intros Hh. assert (forall h, (vp9_B h = true -> vp9_Payload h <> []) -> exists b, vp9FrameIsKey h = Ok b) as Hk.
  { intros [[] [|b p]] Hne; unfold vp9FrameIsKey; cbn [vp9_B vp9_Payload negb] in *; [by destruct Hne| |by eexists..].
    change (at_ (b :: p) 0) with (Ok b : res stop Z). cbn [res_bind]. repeat case_if; by eexists. }
  unfold IsVP9KeyFrame. destruct vp9 as [h|]; [by apply Hk, Hh|].
  destruct (unmarshal payload) as [h|]; [|by eexists]. destruct (Z.ltb_spec (zlen (vp9_Payload h)) 1) as [|Hl]; [by eexists|].
  apply Hk. intros _ E. rewrite E, zlen_nil in Hl. lia.
Qed.

(** ** VP8 *)

(** The bytes of a VP8 key frame header: frame tag, start code, width and
    height with their scaling bits. *)
Definition vp8FrameHeader (t0 t1 t2 w sw h sh : Z) : list Z :=
  [t0; t1; t2; 0x9D; 0x01; 0x2A; w mod 256; w / 256 + 64 * sw; h mod 256; h / 256 + 64 * sh].

Lemma vp8_dimension d s : 0 <= d < 2 ^ 14 -> 0 <= s < 4 ->
  Z.land (Z.lor (d mod 256) (u32 (Z.shiftl (d / 256 + 64 * s) 8))) 0x3FFF = d.
Proof.
  intros Hd Hs. rewrite Z.shiftl_mul_pow2, u32_small by dlia.
  rewrite Z.lor_comm, lor_disjoint by dlia. change 0x3FFF with (Z.ones 14). rewrite Z.land_ones by lia.
  replace ((d / 256 + 64 * s) * 2 ^ 8 + d mod 256) with (d + s * 2 ^ 14) by dlia.
  rewrite Z.mod_add, Z.mod_small by lia. done.
Qed.

(** From a key frame behind a VP8 payload descriptor [ExtractVP8VideoSize]
    reads the width and height of its frame header, whatever the scaling bits
    are; and on every packet it stays within the payload. *)
Lemma ExtractVP8VideoSize_spec v pre t0 t1 t2 w sw h sh rest :
  IsKeyFrame v = true -> HeaderSize v = zlen pre ->
  0 <= w < 2 ^ 14 -> 0 <= h < 2 ^ 14 -> 0 <= sw < 4 -> 0 <= sh < 4 ->
  ExtractVP8VideoSize v (pre ++ vp8FrameHeader t0 t1 t2 w sw h sh ++ rest) = Ok (mkVideoSize w h) /\
  forall payload, exists sz, ExtractVP8VideoSize v payload = Ok sz.
Proof.
  intros Hk Hs Hw Hh Hsw Hsh. pose proof (zlen_nonneg pre). unfold ExtractVP8VideoSize. rewrite Hk, Hs. split.
  - pose proof (zlen_nonneg rest). rewrite sliceFrom_app. cbn [negb orb res_bind].
    rewrite !zlen_app. change (zlen (vp8FrameHeader _ _ _ _ _ _ _)) with 10.
    rewrite !(proj2 (Z.ltb_ge _ _)) by lia. unfold vp8FrameHeader. cbn [app].
    change (at_ ?l 3) with (Ok 0x9D : res stop Z). change (at_ ?l 4) with (Ok 0x01 : res stop Z).
    change (at_ ?l 5) with (Ok 0x2A : res stop Z). change (at_ ?l 6) with (Ok (w mod 256) : res stop Z).
    change (at_ ?l 7) with (Ok (w / 256 + 64 * sw) : res stop Z). change (at_ ?l 8) with (Ok (h mod 256) : res stop Z).
    change (at_ ?l 9) with (Ok (h / 256 + 64 * sh) : res stop Z). cbn [res_bind Z.eqb Pos.eqb negb orb].
    by rewrite !vp8_dimension by done.
  - intros payload. cbn [negb orb]. destruct (Z.ltb_spec (zlen payload) (zlen pre + 10)); [by eexists|].
    rewrite sliceFrom_ok by lia. cbn [res_bind]. rewrite zlen_zdrop by lia.
    destruct (Z.ltb_spec (zlen payload - zlen pre) 10); [by eexists|].
    assert (forall k, 0 <= k < 10 -> exists b, at_ (zdrop (zlen pre) payload) k = Ok b) as Hat.
    { intros k Hk10. destruct (load_in panicked (zdrop (zlen pre) payload) k) as (b & -> & _); [rewrite zlen_zdrop; lia|].
      by eexists. }
    repeat match goal with |- context [at_ _ ?k] => destruct (Hat k ltac:(lia)) as [? ->]; cbn [res_bind]; try (case_if; [by eexists|]) end.
    by eexists.
Qed.


Lemma bytes_forallb l : forallb (fun b => (0 <=? b) && (b <? 256)) l = true -> bytes l.
Proof.
  intros H. apply Forall_forall. intros b Hb. rewrite forallb_forall in H.
  apply list_elem_of_In in Hb. specialize (H b Hb). unfold byte. bool_prop. lia.
Qed.

(** A STAP-A of a delimiter, an SPS and a slice, an aggregation of H.265 with a
    parameter set, and the header of a VP9 frame that the caller has parsed. *)
Definition ex_stap : list Z := [0x18; 0; 2; 9; 0x10; 0; 3; 0x67; 0x42; 0; 0; 1; 0x65].
Definition ex_ap : list Z := [0x60; 1; 0; 2; 0x46; 1; 0; 3; 0x42; 1; 1].
Definition ex_vp9 : VP9Header := mkVP9Header true [0x82; 0x49; 0x83].


(** Three OBUs in a packet: a sequence header, a tile list and a shown key
    frame. *)
Lemma IsAV1KeyFrame_obus_witness :
  Forall obu_ok [[0x08; 0; 0]; [0x40]; [0x30; 0x10; 0]] /\
  IsAV1KeyFrame (0x38 :: av1_body [[0x08; 0; 0]; [0x40]; [0x30; 0x10; 0]]) = Ok true.
Proof.
  assert (Forall obu_ok [[0x08; 0; 0]; [0x40]; [0x30; 0x10; 0]]) as Ho.
  { repeat (constructor; [split; [by apply bytes_forallb|vm_compute; split; reflexivity]|]). constructor. }
  split; [exact Ho|].
  exact (IsAV1KeyFrame_obus 0x38 [[0x08; 0; 0]; [0x40]; [0x30; 0x10; 0]] ltac:(unfold byte; lia) eq_refl eq_refl ltac:(cbn; lia) Ho).
Defined.
