(* ===== verification/H26x.v ===== *)
(** * Sequence parameter sets of H.264 and H.265

    Models [src/SERVER/pkg/sfu/buffer/h26xhelper.go]: a bit reader with
    Exp-Golomb codes, the removal of start codes and emulation prevention
    bytes, the two SPS parsers and the extraction of the picture size from an
    RTP payload.  A Go error ends an H.265 parse and is ignored in an H.264
    one; a run-time panic ([fault]) ends both. *)

From S2P Require Import Prelude DdBits.
From S2P Require Import KeyFrames.

Inductive h26x_error :=
| notEnoughBits
| emptySPS
| notSPS (nalType : Z)
| fault (s : stop).

Record SPSInfo := mkSPSInfo {
  ChromaFormatIDC : Z;
  PicWidthInLumaSamples : Z;
  PicHeightInLumaSamples : Z;
  ConformanceWindowFlag : bool;
  ConfWinLeftOffset : Z;
  ConfWinRightOffset : Z;
  ConfWinTopOffset : Z;
  ConfWinBottomOffset : Z;
  CodedWidth : Z;
  CodedHeight : Z;
  DisplayWidth : Z;
  DisplayHeight : Z;
}.

(** ** The bit reader *)

Record BitReader := mkBitReader { br_data : list Z; br_pos : Z }.
#[export] Instance eta_BitReader : Eta BitReader := fun b => mkBitReader (br_data b) (br_pos b).

Definition NewBitReader (data : list Z) : BitReader := mkBitReader data 0.

Definition left (br : BitReader) : Z := zlen (br_data br) * 8 - br_pos br.

#[local] Abbreviation R := (M BitReader h26x_error).

(** [br.data[bytePos]] *)
Definition byteAt (bytePos : Z) : R Z :=
  fun br => (br, load (fault panicked) (br_data br) bytePos).

(** [for range n { .. }] *)
Fixpoint readLoop (n : nat) (v : Z) : R Z :=
  match n with
  | O => mret v
  | S n =>
    let* br := mget in
    let bytePos := Z.quot (br_pos br) 8 in
    let bitPos := 7 - Z.rem (br_pos br) 8 in
    let* b := byteAt bytePos in
    let bit := Z.land (Z.shiftr b bitPos) 1 in
    let v := Z.lor (u64 (Z.shiftl v 1)) bit in
    mmodify (fun br => br <| br_pos := br_pos br + 1 |>) ;;*
    readLoop n v
  end.

Definition ReadBits (n : Z) : R Z :=
  let* br := mget in
  if (n <? 0) || (left br <? n) then mfail notEnoughBits
  else readLoop (Z.to_nat n) 0.

Definition ReadFlag : R bool :=
  let* b := ReadBits 1 in
  mret (b =? 1).

(** The loop over the leading zeros; a round takes a bit. *)
Fixpoint leadingZeros (fuel : nat) (zeros : Z) : R Z :=
  match fuel with
  | O => mfail (fault unfinished)
  | S fuel =>
    let* bit := ReadBits 1 in
    if bit =? 0 then leadingZeros fuel (zeros + 1) else mret zeros
  end.

Definition ReadUE : R Z :=
  let* br := mget in
  let* zeros := leadingZeros (S (Z.to_nat (left br))) 0 in
  if zeros =? 0 then mret 0
  else
    let* info := ReadBits zeros in
    mret (u64 (u64 (u64 (Z.shiftl 1 zeros) - 1) + info)).

Definition ReadSE : R Z :=
  let* ueVal := ReadUE in
  let k := i64 ueVal in
  if Z.rem k 2 =? 0 then mret (i64 (- Z.quot k 2))
  else mret (Z.quot (i64 (k + 1)) 2).

(** [v, _ := m]: a Go error leaves the zero value behind. *)
Definition orZero {A} (zero : A) (m : R A) : R A := fun br =>
  match m br with
  | (br', Err (fault s)) => (br', Err (fault s))
  | (br', Err _) => (br', Ok zero)
  | (br', Ok a) => (br', Ok a)
  end.

(** ** Bytes of a NAL unit *)

Definition stripStartCode (b : list Z) : list Z :=
  match b with
  | 0 :: 0 :: 0 :: 1 :: b4 => b4
  | 0 :: 0 :: 1 :: b3 => b3
  | _ => b
  end.

(** The loop of [removeEmulationPreventionBytes]; [p2] and [p1] are
    [data[i-2]] and [data[i-1]], where they exist. *)
Fixpoint unescape (p2 p1 : option Z) (data : list Z) : list Z :=
  match data with
  | [] => []
  | b :: data' =>
    if (b =? 3) && bool_decide (p1 = Some 0) && bool_decide (p2 = Some 0)
    then unescape p1 (Some b) data'
    else b :: unescape p1 (Some b) data'
  end.

Definition removeEmulationPreventionBytes (data : list Z) : list Z := unescape None None data.

Definition getSubWidthC (chromaFormatIDC : Z) : Z :=
  if (chromaFormatIDC =? 1) || (chromaFormatIDC =? 2) then 2 else 1.
Definition getSubHeightC (chromaFormatIDC : Z) : Z :=
  if chromaFormatIDC =? 1 then 2 else 1.

(** ** H.265 *)

(** The NAL header, up to the check of its type. *)
Definition h265Header : R unit :=
  ReadBits 1 ;;*
  let* nalUnitType := ReadBits 6 in
  ReadBits 6 ;;*
  ReadBits 3 ;;*
  mcheck (nalUnitType =? 33) (notSPS nalUnitType).

(** [profile_tier_level] *)
Definition profileTierLevel (maxSubLayersMinus1 : Z) : R unit :=
  ReadBits (2 + 1 + 5) ;;*
  ReadBits 32 ;;*
  ReadBits 16 ;;*
  ReadBits 32 ;;*
  ReadBits 8 ;;*
  let* present := mmap (fun _ : Z =>
      let* f1 := ReadFlag in
      let* f2 := ReadFlag in
      mret (f1, f2)) (zrange 0 (maxSubLayersMinus1 - 1)) in
  (if maxSubLayersMinus1 >? 0
   then mforeach (fun _ : Z => ReadBits 2 ;;* mret tt) (zrange maxSubLayersMinus1 7)
   else mret tt) ;;*
  mforeach (fun f : bool * bool =>
      (if fst f then ReadBits (2 + 1 + 5) ;;* ReadBits 32 ;;* ReadBits 48 ;;* mret tt else mret tt) ;;*
      (if snd f then ReadBits 8 ;;* mret tt else mret tt)) present.

(** The conformance window: left, right, top and bottom. *)
Definition confWindow (confFlag : bool) : R (Z * Z * Z * Z) :=
  if confFlag then
    let* l := ReadUE in
    let* r := ReadUE in
    let* t := ReadUE in
    let* b := ReadUE in
    mret (l, r, t, b)
  else mret (0, 0, 0, 0).

(** [int(size) - int(lo+hi)*int(unit)], no less than zero *)
Definition cropped (size lo hi unit : Z) : Z :=
  let w := i64 (i64 size - i64 (i64 (u64 (lo + hi)) * i64 unit)) in
  u64 (if w <? 0 then 0 else w).

(** The rest of the SPS. *)
Definition h265Core : R SPSInfo :=
  ReadUE ;;*
  let* chromaFormatIDC := ReadUE in
  (if chromaFormatIDC =? 3 then ReadFlag ;;* mret tt else mret tt) ;;*
  let* picW := ReadUE in
  let* picH := ReadUE in
  let* confFlag := ReadFlag in
  let* (l, r, t, b) := confWindow confFlag in
  let subWidthC := getSubWidthC chromaFormatIDC in
  let subHeightC := getSubHeightC chromaFormatIDC in
  mret (mkSPSInfo chromaFormatIDC picW picH confFlag l r t b picW picH
    (if confFlag then cropped picW l r subWidthC else picW)
    (if confFlag then cropped picH t b subHeightC else picH)).

Definition parseH265SPS (nal : list Z) : res h26x_error SPSInfo :=
  let nal := stripStartCode nal in
  let rbsp := removeEmulationPreventionBytes nal in
  let br := NewBitReader rbsp in
  snd ((h265Header ;;*
        ReadBits 4 ;;*
        let* maxSubLayersMinus1 := ReadBits 3 in
        ReadBits 1 ;;*
        profileTierLevel maxSubLayersMinus1 ;;*
        h265Core) br).

(** The first byte of a unit taken from the payload. *)
Definition firstByte (unit : list Z) : res stop Z := load panicked unit 0.

(** [for i+2 <= len(payload)]: the first SPS among the units, empty if there is
    none. *)
Fixpoint findSps (isSps : Z -> bool) (fuel : nat) (payload : list Z) (i : Z) : res stop (list Z) :=
  match fuel with
  | O => Err unfinished
  | S fuel =>
    if i + 2 <=? zlen payload then
      let! b0 := load panicked payload i in
      let! b1 := load panicked payload (i + 1) in
      let nalSize := Z.lor (Z.shiftl b0 8) b1 in
      let i := i + 2 in
      if i + nalSize >? zlen payload then Ok []
      else
        let nalUnit := ztake nalSize (zdrop i payload) in
        let! b := firstByte nalUnit in
        if isSps b then Ok nalUnit
        else findSps isSps fuel payload (i + nalSize)
    else Ok []
  end.

(** [VideoSize{Width: uint32(..), Height: uint32(..)}], empty on a Go error *)
Definition sizeOf (info : res h26x_error SPSInfo) : res stop VideoSize :=
  match info with
  | Ok info => Ok (mkVideoSize (u32 (DisplayWidth info)) (u32 (DisplayHeight info)))
  | Err (fault s) => Err s
  | Err _ => Ok noSize
  end.

(** [(b >> 1) & 0x3F] *)
Definition h265NalType (b : Z) : Z := Z.land (Z.shiftr b 1) 0x3F.

Definition ExtractH265VideoSize (payload : list Z) : res stop VideoSize :=
  if zlen payload <? 2 then Ok noSize
  else
    let! b0 := load panicked payload 0 in
    let nalType := h265NalType b0 in
    let! spsNalu :=
      if nalType =? 33 then Ok payload
      else if nalType =? 48 then findSps (fun b => h265NalType b =? 33) (S (length payload)) payload 2
      else Ok [] in
    if zlen spsNalu >? 0 then sizeOf (parseH265SPS spsNalu) else Ok noSize.

(** ** H.264 *)

#[local] Abbreviation ue := (orZero 0 ReadUE).
#[local] Abbreviation flag := (orZero false ReadFlag).
#[local] Abbreviation bits n := (orZero 0 (ReadBits n)).

(** The profiles whose SPS has the fields of the chroma format. *)
Definition highProfile (profileIDC : Z) : bool :=
  bool_decide (profileIDC ∈ [100; 110; 122; 244; 44; 83; 86; 118; 128]).

(** [chromaFormatIDC] and the fields behind it. *)
Definition chromaFields (profileIDC : Z) : R Z :=
  if highProfile profileIDC then
    let* chromaFormatIDC := ue in
    (if chromaFormatIDC =? 3 then flag ;;* mret tt else mret tt) ;;*
    ue ;;*
    ue ;;*
    flag ;;*
    let* v := flag in
    (if v then mforeach (fun _ : Z => flag ;;* mret tt) (zrange 0 7) else mret tt) ;;*
    mret chromaFormatIDC
  else mret 1.

(** [for range cnt { br.ReadSE() }] *)
Fixpoint skipSE (cnt : nat) : R unit :=
  match cnt with
  | O => mret tt
  | S cnt => orZero 0 ReadSE ;;* skipSE cnt
  end.

(** The picture order count. *)
Definition pocFields : R unit :=
  let* pocType := ue in
  if pocType =? 0 then ue ;;* mret tt
  else if pocType =? 1 then
    flag ;;*
    orZero 0 ReadSE ;;*
    orZero 0 ReadSE ;;*
    let* cnt := ue in
    skipSE (Z.to_nat cnt)
  else mret tt.

Definition cropFields : R (Z * Z * Z * Z) :=
  let* frameCropping := flag in
  if frameCropping then
    let* cropLeft := ue in
    let* cropRight := ue in
    let* cropTop := ue in
    let* cropBottom := ue in
    mret (cropLeft, cropRight, cropTop, cropBottom)
  else mret (0, 0, 0, 0).

(** [cropUnitX], [cropUnitY] *)
Definition cropUnits (chromaFormatIDC : Z) (frameMbsOnly : bool) : Z * Z :=
  let cropUnitX := getSubWidthC chromaFormatIDC in
  let cropUnitY := getSubHeightC chromaFormatIDC in
  if chromaFormatIDC =? 0 then (1, if negb frameMbsOnly then 2 else 1)
  else (cropUnitX, if negb frameMbsOnly then cropUnitY * 2 else cropUnitY).

(** The fields read and what is computed of them. *)
Definition h264Fields : R SPSInfo :=
  let* profileIDC := bits 8 in
  bits 8 ;;*
  bits 8 ;;*
  ue ;;*
  let* chromaFormatIDC := chromaFields profileIDC in
  ue ;;*
  pocFields ;;*
  ue ;;*
  flag ;;*
  let* wMbs := ue in
  let* hMapUnits := ue in
  let* frameMbsOnly := flag in
  (if negb frameMbsOnly then flag ;;* mret tt else mret tt) ;;*
  flag ;;*
  let* (cropLeft, cropRight, cropTop, cropBottom) := cropFields in
  let width := u64 (u64 (wMbs + 1) * 16) in
  let height := u64 (u64 (hMapUnits + 1) * 16) in
  let height := if negb frameMbsOnly then u64 (height * 2) else height in
  let (cropUnitX, cropUnitY) := cropUnits chromaFormatIDC frameMbsOnly in
  mret (mkSPSInfo chromaFormatIDC width height
    (u64 (cropLeft + cropRight + cropTop + cropBottom) >? 0)
    cropLeft cropRight cropTop cropBottom width height
    (u64 (width - u64 (u64 (cropLeft + cropRight) * cropUnitX)))
    (u64 (height - u64 (u64 (cropTop + cropBottom) * cropUnitY)))).

Definition parseH264SPS (nal : list Z) : res h26x_error SPSInfo :=
  if zlen nal <? 1 then Err emptySPS
  else
    let nal := stripStartCode nal in
    let! b0 := load (fault panicked) nal 0 in
    let nalType := Z.land b0 0x1F in
    if negb (nalType =? 7) then Err (notSPS nalType)
    else
      let rbsp := removeEmulationPreventionBytes (zdrop 1 nal) in
      snd (h264Fields (NewBitReader rbsp)).

Definition ExtractH264VideoSize (payload : list Z) : res stop VideoSize :=
  if zlen payload <? 1 then Ok noSize
  else
    let parseNAL (nal : list Z) := sizeOf (parseH264SPS nal) in
    let! b0 := load panicked payload 0 in
    let nalType := Z.land b0 0x1F in
    if nalType =? 7 then parseNAL payload
    else if nalType =? 28 then
      if zlen payload <? 2 then Ok noSize
      else
        let! b1 := load panicked payload 1 in
        if Z.land b1 0x80 =? 0 then Ok noSize
        else
          let nalHeader := Z.lor (Z.land b0 0xE0) (Z.land b1 0x1F) in
          parseNAL (nalHeader :: zdrop 2 payload)
    else if (nalType =? 24) || (nalType =? 25) || (nalType =? 26) || (nalType =? 27) then
      let offset := 1 in
      let offset := if nalType =? 25 then offset + 2
                    else if nalType =? 26 then offset + 3
                    else if nalType =? 27 then offset + 4 else offset in
      let! nalu := findSps isSps (S (length payload)) payload offset in
      if zlen nalu >? 0 then parseNAL nalu else Ok noSize
    else Ok noSize.
