(* ===== verification/H26xSpec.v ===== *)
(** * Parameter sets: the reader refines the bit string

    What the readers of [H26x] promise.  [takes m l a]: on a stream that starts
    with the bits [l], [m] takes exactly them and returns [a].  From the fixed
    and the Exp-Golomb codes this goes up to both SPS parsers, which give back
    the picture size that was written, through emulation prevention and
    aggregation; the end of the file has the inputs on which the extraction
    fails. *)

From S2P Require Import Prelude DdBits.
From S2P Require Import KeyFrames H26x.

#[local] Abbreviation ReadBits := H26x.ReadBits.
#[local] Abbreviation R := (M BitReader h26x_error).

(** ** The bits ahead *)

Definition ahead (br : BitReader) : list bool := zdrop (br_pos br) (bits_of_bytes (br_data br)).

Record bok (br : BitReader) : Prop := {
  bok_bytes : bytes (br_data br);
  bok_pos : 0 <= br_pos br <= 8 * zlen (br_data br);
}.

Definition skip (n : Z) (br : BitReader) : BitReader := br <| br_pos := br_pos br + n |>.

Lemma zlen_ahead br : bok br -> zlen (ahead br) = left br.
Proof.
  intros [_ Hp]. unfold ahead, left. rewrite zlen_zdrop, zlen_bits_of_bytes by (rewrite zlen_bits_of_bytes; lia). lia.
Qed.

Lemma skip_bok n br : bok br -> 0 <= n <= left br ->
  bok (skip n br) /\ ahead (skip n br) = zdrop n (ahead br).
Proof.
  intros [Hb Hp] Hn. unfold left in Hn. split; [constructor; cbn; [done|lia]|].
  unfold ahead, skip. cbn. by rewrite zdrop_zdrop by lia.
Qed.

Lemma skip_skip m n br : skip n (skip m br) = skip (m + n) br.
Proof. unfold skip. cbn. f_equal. lia. Qed.

Lemma skip_0 br : skip 0 br = br.
Proof. unfold skip. cbn. rewrite Z.add_0_r. by destruct br. Qed.

Lemma bits_of_bytes_lookup data p x : 0 <= p -> data !! Z.to_nat (p / 8) = Some x ->
  bits_of_bytes data !! Z.to_nat p = Some (Z.testbit x (7 - p mod 8)).
Proof.
  revert p. induction data as [|y data IH]; intros p Hp Hx; [done|]. rewrite bits_of_bytes_cons.
  destruct (Z.lt_ge_cases p 8) as [Hlt|Hge].
  - rewrite Z.div_small in Hx by lia. injection Hx as ->.
    rewrite lookup_app_l by (rewrite length_bits_of; lia). rewrite bits_of_lookup by lia.
    rewrite Z.mod_small by lia. do 2 f_equal. lia.
  - rewrite lookup_app_r by (rewrite length_bits_of; lia). rewrite length_bits_of.
    replace (Z.to_nat p - 8)%nat with (Z.to_nat (p - 8)) by lia.
    assert ((p - 8) / 8 = p / 8 - 1) as E by dlia. assert ((p - 8) mod 8 = p mod 8) as <- by dlia.
    apply IH; [lia|]. rewrite E. replace (Z.to_nat (p / 8)) with (S (Z.to_nat (p / 8 - 1))) in Hx by dlia. done.
Qed.

(** ** Reading bits *)

Definition takes {A} (m : R A) (l : list bool) (a : A) : Prop :=
  forall br rest, bok br -> ahead br = l ++ rest -> m br = (skip (zlen l) br, Ok a).

Lemma takes_next {A} (m : R A) l br rest : bok br -> ahead br = l ++ rest ->
  bok (skip (zlen l) br) /\ ahead (skip (zlen l) br) = rest.
Proof.
  intros Hb Hs. pose proof (zlen_ahead br Hb) as Hz. rewrite Hs, zlen_app in Hz.
  pose proof (zlen_nonneg rest). pose proof (zlen_nonneg l).
  destruct (skip_bok (zlen l) br Hb ltac:(lia)) as [H1 H2]. split; [done|].
  rewrite H2, Hs. unfold zdrop, zlen. by rewrite drop_app_length' by lia.
Qed.

Lemma takes_ret {A} (a : A) : takes (mret a) [] a.
Proof. intros br rest _ _. change (@zlen bool []) with 0. by rewrite skip_0. Qed.

Lemma takes_bind {A B} (m : R A) (k : A -> R B) l1 l2 a c :
  takes m l1 a -> takes (k a) l2 c -> takes (mbind m k) (l1 ++ l2) c.
Proof.
  intros Hm Hk br rest Hb Hs. rewrite <- app_assoc in Hs.
  destruct (takes_next m l1 br _ Hb Hs) as [Hb1 Hs1].
  rewrite (mbind_eq _ _ _ _ _ (Hm br _ Hb Hs)), (Hk _ _ Hb1 Hs1), skip_skip, zlen_app. done.
Qed.

Lemma takes_map {A B} (m : R A) (f : A -> B) l a : takes m l a -> takes (let* x := m in mret (f x)) l (f a).
Proof. intros Hm. rewrite <- (app_nil_r l). apply (takes_bind _ _ _ _ a); [done|apply takes_ret]. Qed.

Lemma takes_orZero {A} (z a : A) m l : takes m l a -> takes (orZero z m) l a.
Proof. intros Hm br rest Hb Hs. unfold orZero. by rewrite (Hm br rest Hb Hs). Qed.

Lemma takes_foreach {A} (f : A -> R unit) (enc : A -> list bool) xs :
  Forall (fun x => takes (f x) (enc x) tt) xs -> takes (mforeach f xs) (mjoin (enc <$> xs)) tt.
Proof.
  induction 1 as [|x xs Hx _ IH]; [apply takes_ret|]. exact (takes_bind _ _ _ _ _ _ Hx IH).
Qed.

Lemma takes_mmap {A B} (f : A -> R B) (enc : B -> list bool) xs ys :
  Forall2 (fun x y => takes (f x) (enc y) y) xs ys -> takes (mmap f xs) (mjoin (enc <$> ys)) ys.
Proof.
  induction 1 as [|x y xs ys Hxy _ IH]; [apply takes_ret|].
  apply (takes_bind (f x) _ (enc y) _ y); [exact Hxy|]. exact (takes_map (mmap f xs) (cons y) _ ys IH).
Qed.

(** One round of the reading loop. *)
Lemma readLoop_bit n v br b rest : bok br -> ahead br = b :: rest ->
  readLoop (S n) v br = readLoop n (Z.lor (u64 (Z.shiftl v 1)) (Z.b2z b)) (skip 1 br).
Proof.
  intros Hb Hs. pose proof (zlen_ahead br Hb) as Hl. rewrite Hs, zlen_cons in Hl. pose proof (zlen_nonneg rest).
  destruct Hb as [Hby Hp]. unfold left in Hl. cbn [readLoop]. unfold mget at 1, mbind at 1.
  rewrite Z.quot_div_nonneg, Z.rem_mod_nonneg by lia.
  destruct (load_in (fault panicked) (br_data br) (br_pos br / 8)) as (x & Hx & Hlk); [dlia|].
  unfold byteAt, mbind at 1. rewrite Hx. unfold mmodify, mbind.
  assert (b = Z.testbit x (7 - br_pos br mod 8)) as ->.
  { pose proof (bits_of_bytes_lookup _ _ _ (proj1 Hp) Hlk) as Hbit.
    assert (ahead br !! 0%nat = Some b) as H0 by (by rewrite Hs). unfold ahead, zdrop in H0.
    rewrite lookup_drop, Nat.add_0_r, Hbit in H0. congruence. }
  assert (Z.land (Z.shiftr x (7 - br_pos br mod 8)) 1 = Z.b2z (Z.testbit x (7 - br_pos br mod 8))) as ->.
  { rewrite Z.testbit_spec', Z.shiftr_div_pow2 by dlia. by apply (Z.land_ones _ 1). }
  done.
Qed.

Lemma readLoop_ok l : forall br v rest, bok br -> ahead br = l ++ rest -> 0 <= v ->
  readLoop (length l) v br = (skip (zlen l) br, Ok (if zlen l =? 0 then v else u64 (v * 2 ^ zlen l + Z_of_bits l))).
Proof.
  induction l as [|b l IH]; intros br v rest Hb Hs Hv.
  { cbn [length readLoop]. change (@zlen bool []) with 0. by rewrite skip_0. }
  cbn [length]. rewrite (readLoop_bit _ _ _ b (l ++ rest)) by done.
  destruct (takes_next (mret tt) [b] br (l ++ rest) Hb Hs) as [Hb1 Hs1]. change (zlen [b]) with 1 in *.
  assert (Z.lor (u64 (Z.shiftl v 1)) (Z.b2z b) = u64 (v * 2 + Z.b2z b)) as ->.
  { rewrite Z.shiftl_mul_pow2 by lia. change (2 ^ 1) with 2.
    assert (u64 (v * 2) = v mod 2 ^ 63 * 2 ^ 1) as ->.
    { unfold u64. change 18446744073709551616 with (2 ^ 63 * 2). by rewrite Z.mul_mod_distr_r by lia. }
    rewrite lor_disjoint by (destruct b; cbn; lia). unfold u64. change (2 ^ 1) with 2. destruct b; cbn [Z.b2z]; dlia. }
  rewrite (IH _ _ rest Hb1 Hs1) by apply u64_range. rewrite skip_skip, zlen_cons. f_equal. f_equal.
  pose proof (zlen_nonneg l). cbn [Z_of_bits]. rewrite (proj2 (Z.eqb_neq (1 + zlen l) 0)) by lia.
  rewrite Z.pow_add_r by lia. change (2 ^ 1) with 2. destruct (Z.eqb_spec (zlen l) 0) as [E|_].
  - destruct l; [|rewrite zlen_cons in E; pose proof (zlen_nonneg l); lia]. cbn [Z_of_bits]. change (@zlen bool []) with 0. f_equal. lia.
  - unfold u64. rewrite <- Zplus_mod_idemp_l, Zmult_mod_idemp_l, Zplus_mod_idemp_l. f_equal. ring.
Qed.

(** [ReadBits n] takes the next [n] bits; of more than 64 it keeps the last. *)
Lemma takes_bits_u64 l : takes (ReadBits (zlen l)) l (u64 (Z_of_bits l)).
Proof.
  intros br rest Hb Hs. pose proof (zlen_ahead br Hb) as Hl. rewrite Hs, zlen_app in Hl.
  pose proof (zlen_nonneg rest). pose proof (zlen_nonneg l). unfold ReadBits, mget, mbind.
  rewrite !(proj2 (Z.ltb_ge _ _)) by lia. cbn [orb]. unfold zlen at 1. rewrite Nat2Z.id.
  rewrite (readLoop_ok l br 0 rest Hb Hs) by lia. do 2 f_equal.
  destruct (Z.eqb_spec (zlen l) 0) as [E|_]; [|f_equal; lia].
  destruct l; [done|]. rewrite zlen_cons in E. pose proof (zlen_nonneg l). lia.
Qed.

Lemma takes_bits n l : zlen l = n -> n <= 64 -> takes (ReadBits n) l (Z_of_bits l).
Proof.
  intros <- Hn. pose proof (takes_bits_u64 l) as H. rewrite u64_small in H; [done|].
  pose proof (Z_of_bits_range l). assert (2 ^ zlen l <= 2 ^ 64) by (apply Z.pow_le_mono_r; lia). lia.
Qed.

Lemma takes_value n v : 0 <= v < 2 ^ Z.of_nat n -> (n <= 64)%nat -> takes (ReadBits (Z.of_nat n)) (bits_of n v) v.
Proof.
  intros Hv Hn. pose proof (takes_bits (Z.of_nat n) (bits_of n v) (zlen_bits_of n v) ltac:(lia)) as H.
  by rewrite Z_of_bits_of, Z.mod_small in H.
Qed.

(** Bits that are read over. *)
Lemma takes_skip {B} n l (k : R B) l2 c : zlen l = n -> n <= 64 -> takes k l2 c ->
  takes (ReadBits n ;;* k) (l ++ l2) c.
Proof. intros Hl Hn Hk. exact (takes_bind _ _ _ _ _ _ (takes_bits n l Hl Hn) Hk). Qed.

Lemma takes_flag b : takes ReadFlag [b] b.
Proof.
  assert (takes ReadFlag [b] (Z_of_bits [b] =? 1)) as H
    by (apply (takes_map (ReadBits 1) (fun x => x =? 1)); by apply takes_bits).
  by destruct b.
Qed.

(** ** Exp-Golomb codes *)

Definition ue_bits (v : Z) : list bool :=
  let k := Z.to_nat (Z.log2 (v + 1)) in repeat false k ++ bits_of (S k) (v + 1).

Lemma takes_leadingZeros k fuel z : (k < fuel)%nat -> takes (leadingZeros fuel z) (repeat false k ++ [true]) (z + Z.of_nat k).
Proof.
  revert fuel z. induction k as [|k IH]; intros fuel z Hf; (destruct fuel as [|fuel]; [lia|]); cbn [leadingZeros repeat app].
  - rewrite <- (app_nil_r [true]). apply (takes_bind _ _ [true] [] 1); [by apply takes_bits|].
    rewrite Z.add_0_r. apply takes_ret.
  - apply (takes_bind _ _ [false] (repeat false k ++ [true]) 0); [by apply takes_bits|]. cbn [Z.eqb].
    replace (z + Z.of_nat (S k)) with (z + 1 + Z.of_nat k) by lia. apply IH. lia.
Qed.

Lemma log2_code v : 0 <= v < 2 ^ 64 - 1 -> exists k,
  Z.log2 (v + 1) = Z.of_nat k /\ (k < 64)%nat /\ 2 ^ Z.of_nat k <= v + 1 < 2 * 2 ^ Z.of_nat k.
Proof.
  intros Hv. pose proof (Z.log2_spec (v + 1) ltac:(lia)) as Hl. pose proof (Z.log2_nonneg (v + 1)).
  exists (Z.to_nat (Z.log2 (v + 1))). rewrite Z2Nat.id by done. rewrite Z.pow_succ_r in Hl by done.
  split; [done|]. split; [|done].
  assert (Z.log2 (v + 1) < 64) by (apply Z.log2_lt_pow2; lia). lia.
Qed.

Lemma takes_UE v : 0 <= v < 2 ^ 64 - 1 -> takes ReadUE (ue_bits v) v.
Proof.
  intros Hv br rest Hb Hs. destruct (log2_code v Hv) as (k & Ek & Hk & Hr).
  unfold ue_bits in *. rewrite Ek, Nat2Z.id in *. unfold ReadUE, mget, mbind at 1.
  assert (bits_of (S k) (v + 1) = true :: bits_of k (v + 1 - 2 ^ Z.of_nat k)) as Ebits.
  { cbn [bits_of]. f_equal.
    - apply Z.b2z_inj. rewrite Z.testbit_spec' by lia. cbn [Z.b2z].
      replace ((v + 1) / 2 ^ Z.of_nat k) with 1; [done|]. apply (Z.div_unique _ _ _ (v + 1 - 2 ^ Z.of_nat k)); lia.
    - apply bits_of_ext. rewrite <- (Z.mod_add (v + 1 - 2 ^ Z.of_nat k) 1) by lia. f_equal. lia. }
  rewrite Ebits in *. set (low := bits_of k (v + 1 - 2 ^ Z.of_nat k)) in *.
  assert (forall l : list bool, repeat false k ++ true :: l = (repeat false k ++ [true]) ++ l) as Eapp
    by (intros; by rewrite <- app_assoc).
  rewrite Eapp in *. revert br rest Hb Hs.
  assert (forall n, (k < n)%nat -> takes (let* zeros := leadingZeros n 0 in
    if zeros =? 0 then mret 0 else let* info := ReadBits zeros in mret (u64 (u64 (u64 (Z.shiftl 1 zeros) - 1) + info)))
    ((repeat false k ++ [true]) ++ low) v) as H.
  { intros n Hn. apply (takes_bind _ _ _ _ (Z.of_nat k)); [by apply (takes_leadingZeros k n 0)|].
    destruct (Z.eqb_spec (Z.of_nat k) 0) as [E0|Hne].
    - assert (k = 0%nat) as -> by lia. unfold low. cbn [bits_of]. change (2 ^ Z.of_nat 0) with 1 in Hr.
      replace v with 0 by lia. apply takes_ret.
    - assert (2 ^ Z.of_nat k < 2 ^ 64) by (apply Z.pow_lt_mono_r; lia).
      assert (u64 (u64 (u64 (Z.shiftl 1 (Z.of_nat k)) - 1) + (v + 1 - 2 ^ Z.of_nat k)) = v) as <-.
      { rewrite Z.shiftl_mul_pow2, Z.mul_1_l by lia. rewrite (u64_small (2 ^ Z.of_nat k)), (u64_small (2 ^ Z.of_nat k - 1)), u64_small; lia. }
      apply (takes_map _ (fun info => u64 (u64 (u64 (Z.shiftl 1 (Z.of_nat k)) - 1) + info))). apply takes_value; lia. }
  intros br rest Hb Hs. apply (H (S (Z.to_nat (left br)))) with (rest := rest); [|done|done].
  pose proof (zlen_ahead br Hb) as Hl. rewrite Hs, !zlen_app in Hl.
  pose proof (zlen_nonneg rest). pose proof (zlen_nonneg low). unfold zlen at 1 in Hl. rewrite repeat_length in Hl.
  change (zlen [true]) with 1 in Hl. lia.
Qed.

(** A signed value as the code number of its Exp-Golomb code. *)
Definition se_code (v : Z) : Z := if 0 <? v then 2 * v - 1 else - 2 * v.
Definition se_bits (v : Z) : list bool := ue_bits (se_code v).

Lemma takes_SE v : - 2 ^ 62 < v < 2 ^ 62 -> takes ReadSE (se_bits v) v.
Proof.
  intros Hv. assert (0 <= se_code v < 2 ^ 63 - 1) as Hc by (unfold se_code; case_if; bool_prop; lia).
  unfold ReadSE. rewrite <- (app_nil_r (se_bits v)).
  apply (takes_bind _ _ _ _ (se_code v)); [apply takes_UE; lia|].
  assert (i64 (se_code v) = se_code v) as -> by (unfold i64; rewrite Z.mod_small; lia).
  rewrite Z.rem_mod_nonneg, !Z.quot_div_nonneg by lia.
  destruct (Z.ltb_spec 0 v) as [Hpos|Hneg]; unfold se_code in *.
  - rewrite (proj2 (Z.ltb_lt 0 v)) in * by done.
    rewrite (proj2 (Z.eqb_neq _ _)) by dlia. cbn [negb].
    assert (i64 (2 * v - 1 + 1) = 2 * v) as -> by (unfold i64; rewrite Z.mod_small; lia).
    rewrite Z.quot_div_nonneg by lia. replace (2 * v / 2) with v by dlia. apply takes_ret.
  - rewrite (proj2 (Z.ltb_ge 0 v)) in * by done. rewrite (proj2 (Z.eqb_eq _ _)) by dlia.
    replace (-2 * v / 2) with (- v) by dlia.
    assert (i64 (- - v) = v) as -> by (unfold i64; rewrite Z.mod_small; lia). apply takes_ret.
Qed.

(** ** Emulation prevention *)

(** The encoder's side: a 3 goes in front of a byte up to 3 behind two zeros;
    [zeros] counts the zeros before. *)
Fixpoint escape (zeros : nat) (data : list Z) : list Z :=
  match data with
  | [] => []
  | b :: data =>
    if bool_decide (zeros = 2%nat) && (b <=? 3) then 3 :: b :: escape (if b =? 0 then 1 else 0) data
    else b :: escape (if b =? 0 then S zeros else 0) data
  end.

Definition zeros_before (zeros : nat) (p2 p1 : option Z) : Prop :=
  match zeros with
  | 0%nat => p1 <> Some 0
  | 1%nat => p1 = Some 0 /\ p2 <> Some 0
  | _ => zeros = 2%nat /\ p1 = Some 0 /\ p2 = Some 0
  end.

Lemma unescape_keep p2 p1 b data : ~ (b = 3 /\ p1 = Some 0 /\ p2 = Some 0) ->
  unescape p2 p1 (b :: data) = b :: unescape p1 (Some b) data.
Proof.
  intros Hn. cbn [unescape]. destruct (Z.eqb_spec b 3); [|done].
  destruct (bool_decide_reflect (p1 = Some 0)), (bool_decide_reflect (p2 = Some 0)); [tauto|done..].
Qed.

Lemma unescape_escape data : bytes data -> forall zeros p2 p1, zeros_before zeros p2 p1 ->
  unescape p2 p1 (escape zeros data) = data.
Proof.
  induction 1 as [|b data Hb _ IH]; intros zeros p2 p1 Hz; [done|]. cbn [escape]. unfold byte in Hb.
  destruct (bool_decide_reflect (zeros = 2%nat)) as [->|Hz2]; cbn [andb].
  - destruct Hz as (_ & -> & ->). destruct (Z.leb_spec b 3).
    + change (unescape (Some 0) (Some 0) (3 :: ?l)) with (unescape (Some 0) (Some 3) l).
      rewrite unescape_keep by (intros (_ & ? & _); done).
      f_equal. apply IH. destruct (Z.eqb_spec b 0) as [->|]; cbn; [by split|congruence].
    + rewrite unescape_keep by lia. f_equal. apply IH. rewrite (proj2 (Z.eqb_neq b 0)) by lia. cbn. intros [= ->]. lia.
  - rewrite unescape_keep.
    + f_equal. apply IH. destruct (Z.eqb_spec b 0) as [->|]; [|cbn; congruence].
      destruct zeros as [|[|[|]]]; cbn in *; [by split|by destruct Hz|by destruct Hz|lia].
    + intros (-> & -> & ->). destruct zeros as [|[|[|]]]; cbn in Hz; [done|by destruct Hz|done|lia].
Qed.

(** The removal of emulation prevention bytes undoes their insertion, on
    every byte string. *)
Lemma removeEmulationPrevention_roundtrip data : bytes data ->
  removeEmulationPreventionBytes (escape 0 data) = data.
Proof. intros Hb. by apply unescape_escape. Qed.

Lemma stripStartCode_id b data : b <> 0 -> stripStartCode (b :: data) = b :: data.
Proof. intros Hb. by destruct b. Qed.

(** ** The SPS of H.265 *)

(** The syntax elements in front of the picture size are bits the parser reads
    over; a sub-layer has a profile, a level, both or neither. *)
Record h265_sps := mkH265 {
  h_layer : list bool;            (** nuh_layer_id *)
  h_tid : list bool;              (** nuh_temporal_id_plus1 *)
  h_vps : list bool;
  h_nesting : bool;
  h_profile : list bool;
  h_compat : list bool;
  h_constraint1 : list bool;
  h_constraint2 : list bool;
  h_level : list bool;
  h_subs : list (option (list bool) * option (list bool));
  h_reserved : list bool;
  h_id : Z;
  h_chroma : Z;
  h_separate : bool;
  h_width : Z;
  h_height : Z;
  h_window : option (Z * Z * Z * Z);
}.

Definition opt_bits (n : Z) (o : option (list bool)) : Prop :=
  match o with Some l => zlen l = n | None => True end.
Definition size_code (v : Z) : Prop := 0 <= v < 2 ^ 32.
Definition window_ok (o : option (Z * Z * Z * Z)) : Prop :=
  match o with
  | Some (l, r, t, b) => size_code l /\ size_code r /\ size_code t /\ size_code b
  | None => True
  end.

Record h265_wf (s : h265_sps) : Prop := {
  hw_layer : zlen (h_layer s) = 6;
  hw_tid : zlen (h_tid s) = 3;
  hw_vps : zlen (h_vps s) = 4;
  hw_profile : zlen (h_profile s) = 8;
  hw_compat : zlen (h_compat s) = 32;
  hw_constraint1 : zlen (h_constraint1 s) = 16;
  hw_constraint2 : zlen (h_constraint2 s) = 32;
  hw_level : zlen (h_level s) = 8;
  hw_subs : zlen (h_subs s) < 8 /\ Forall (fun f => opt_bits 88 (fst f) /\ opt_bits 8 (snd f)) (h_subs s);
  hw_reserved : zlen (h_reserved s) = if zlen (h_subs s) =? 0 then 0 else 2 * (8 - zlen (h_subs s));
  hw_codes : size_code (h_id s) /\ size_code (h_chroma s) /\ size_code (h_width s) /\ size_code (h_height s);
  hw_window : window_ok (h_window s);
}.

Definition window_bits (o : option (Z * Z * Z * Z)) : list bool :=
  match o with
  | Some (l, r, t, b) => true :: ue_bits l ++ ue_bits r ++ ue_bits t ++ ue_bits b
  | None => [false]
  end.

Definition present_bits (f : option (list bool) * option (list bool)) : list bool :=
  [bool_decide (is_Some (fst f)); bool_decide (is_Some (snd f))].
Definition sub_bits (f : option (list bool) * option (list bool)) : list bool :=
  default [] (fst f) ++ default [] (snd f).

Definition ptl_bits (s : h265_sps) : list bool :=
  h_profile s ++ h_compat s ++ h_constraint1 s ++ h_constraint2 s ++ h_level s ++
  mjoin (present_bits <$> h_subs s) ++ h_reserved s ++ mjoin (sub_bits <$> h_subs s).

Definition core_bits (s : h265_sps) : list bool :=
  ue_bits (h_id s) ++ ue_bits (h_chroma s) ++ (if h_chroma s =? 3 then [h_separate s] else []) ++
  ue_bits (h_width s) ++ ue_bits (h_height s) ++ window_bits (h_window s).

(** The SPS as a bit string, with its NAL header. *)
Definition h265_bits (s : h265_sps) : list bool :=
  ([false] ++ bits_of 6 33 ++ h_layer s ++ h_tid s) ++
  h_vps s ++ bits_of 3 (zlen (h_subs s)) ++ [h_nesting s] ++ ptl_bits s ++ core_bits s.

(** The size left by the conformance window. *)
Definition window_size (size lo hi unit : Z) : Z := Z.max 0 (size - (lo + hi) * unit).

Definition h265_info (s : h265_sps) : SPSInfo :=
  let '(l, r, t, b) := default (0, 0, 0, 0) (h_window s) in
  mkSPSInfo (h_chroma s) (h_width s) (h_height s) (bool_decide (is_Some (h_window s)))
    l r t b (h_width s) (h_height s)
    (window_size (h_width s) l r (getSubWidthC (h_chroma s)))
    (window_size (h_height s) t b (getSubHeightC (h_chroma s))).

Lemma takes_eq {A} (m : R A) l k a b : takes m l a -> l = k -> a = b -> takes m k b.
Proof. by intros H <- <-. Qed.

(** The steps of a parser, on the parts of an encoding. *)
Ltac take_step :=
  match goal with
  | |- takes (mret _) [] _ => apply takes_ret
  | |- takes (mbind (H26x.ReadBits _) (fun _ => _)) (_ ++ _) _ => apply takes_skip; [done|lia|]
  | |- takes (mbind ReadUE _) (ue_bits ?v ++ _) _ =>
    apply (takes_bind _ _ _ _ v); [apply takes_UE; unfold size_code in *; lia|]
  | |- takes (mbind ReadFlag _) ([?b] ++ _) _ => apply (takes_bind _ _ _ _ b); [apply takes_flag|]
  end.

Lemma takes_h265Header s : h265_wf s ->
  takes h265Header ([false] ++ bits_of 6 33 ++ h_layer s ++ h_tid s) tt.
Proof.
  intros W. unfold h265Header. take_step.
  apply (takes_bind _ _ _ _ 33); [apply (takes_value 6 33); lia|].
  apply takes_skip; [apply W|lia|]. rewrite <- (app_nil_r (h_tid s)). apply takes_skip; [apply W|lia|].
  apply takes_ret.
Qed.

Lemma takes_present f : takes (let* f1 := ReadFlag in let* f2 := ReadFlag in mret (f1, f2))
  (present_bits f) (bool_decide (is_Some (fst f)), bool_decide (is_Some (snd f))).
Proof.
  unfold present_bits. apply (takes_bind _ _ [_] [_] (bool_decide (is_Some (fst f)))); [apply takes_flag|].
  exact (takes_map ReadFlag (pair _) _ _ (takes_flag _)).
Qed.

Lemma takes_sub f : opt_bits 88 (fst f) -> opt_bits 8 (snd f) ->
  takes ((if bool_decide (is_Some (fst f)) then ReadBits (2 + 1 + 5) ;;* ReadBits 32 ;;* ReadBits 48 ;;* mret tt else mret tt) ;;*
    (if bool_decide (is_Some (snd f)) then ReadBits 8 ;;* mret tt else mret tt)) (sub_bits f) tt.
Proof.
  intros H1 H2. unfold sub_bits. apply (takes_bind _ _ _ _ tt).
  - destruct (fst f) as [l|]; [|apply takes_ret]. cbn in H1 |- *.
    destruct (zdrop_split 8 l ltac:(lia)) as [E Hl]. destruct (zdrop_split 32 (zdrop 8 l)) as [E2 Hl2];
      [rewrite zlen_zdrop; lia|]. rewrite E, E2.
    apply takes_skip; [done|lia|]. apply takes_skip; [done|lia|].
    rewrite <- (app_nil_r (zdrop 32 _)). apply takes_skip; [rewrite !zlen_zdrop by (rewrite ?zlen_zdrop; lia); lia|lia|].
    apply takes_ret.
  - destruct (snd f) as [l|]; [|apply takes_ret]. cbn in H2 |- *. rewrite <- (app_nil_r l).
    apply takes_skip; [done|lia|]. apply takes_ret.
Qed.

Lemma zlen_zrange lo hi : 0 <= hi - lo + 1 -> zlen (zrange lo hi) = hi - lo + 1.
Proof. intros H. unfold zlen, zrange. rewrite length_map, length_seq. lia. Qed.

Definition present (f : option (list bool) * option (list bool)) : bool * bool :=
  (bool_decide (is_Some (fst f)), bool_decide (is_Some (snd f))).

Lemma takes_presents subs : takes (mmap (fun _ : Z =>
    let* f1 := ReadFlag in let* f2 := ReadFlag in mret (f1, f2)) (zrange 0 (zlen subs - 1)))
  (mjoin (present_bits <$> subs)) (present <$> subs).
Proof.
  set (f := fun _ : Z => _). set (enc := fun y : bool * bool => [fst y; snd y]).
  assert (mjoin (present_bits <$> subs) = mjoin (enc <$> (present <$> subs))) as ->.
  { by rewrite <- list_fmap_compose. }
  apply takes_mmap. pose proof (zlen_zrange 0 (zlen subs - 1)) as Hl. pose proof (zlen_nonneg subs).
  assert (length (zrange 0 (zlen subs - 1)) = length subs) as Hlen by (unfold zlen in *; lia).
  clear -Hlen. revert Hlen. generalize (zrange 0 (zlen subs - 1)) as xs.
  intros xs. revert subs. induction xs as [|x xs IH]; intros [|s subs] Hl; try done.
  constructor; [exact (takes_present s)|]. apply IH. by injection Hl.
Qed.

Lemma takes_reserved xs : forall l, zlen l = 2 * zlen xs ->
  takes (mforeach (fun _ : Z => ReadBits 2 ;;* mret tt) xs) l tt.
Proof.
  induction xs as [|x xs IH]; intros l Hl.
  { change (@zlen Z []) with 0 in Hl. destruct l; [apply takes_ret|rewrite zlen_cons in Hl; pose proof (zlen_nonneg l); lia]. }
  rewrite zlen_cons in Hl. pose proof (zlen_nonneg xs). cbn [mforeach].
  destruct (zdrop_split 2 l ltac:(lia)) as [E H2]. rewrite E. apply (takes_bind _ _ _ _ tt).
  - rewrite <- (app_nil_r (ztake 2 l)). apply takes_skip; [done|lia|apply takes_ret].
  - apply IH. rewrite zlen_zdrop; lia.
Qed.

Lemma takes_subs subs : Forall (fun f => opt_bits 88 (fst f) /\ opt_bits 8 (snd f)) subs ->
  takes (mforeach (fun f : bool * bool =>
      (if fst f then ReadBits (2 + 1 + 5) ;;* ReadBits 32 ;;* ReadBits 48 ;;* mret tt else mret tt) ;;*
      (if snd f then ReadBits 8 ;;* mret tt else mret tt)) (present <$> subs))
    (mjoin (sub_bits <$> subs)) tt.
Proof.
  induction 1 as [|f subs [H1 H2] _ IH]; [apply takes_ret|].
  exact (takes_bind _ _ _ _ _ _ (takes_sub f H1 H2) IH).
Qed.

Lemma takes_ptl s : h265_wf s -> takes (profileTierLevel (zlen (h_subs s))) (ptl_bits s) tt.
Proof.
  intros W. unfold profileTierLevel, ptl_bits. destruct (hw_subs s W) as [H8 Hsubs].
  pose proof (hw_reserved s W) as Hr. pose proof (zlen_nonneg (h_subs s)).
  do 5 (apply takes_skip; [apply W|lia|]).
  apply (takes_bind _ _ _ _ (present <$> h_subs s)); [apply takes_presents|].
  apply (takes_bind _ _ _ _ tt); [|by apply takes_subs].
  destruct (zlen (h_subs s) >? 0) eqn:E; rewrite Z.gtb_ltb in E; bool_prop.
  - rewrite (proj2 (Z.eqb_neq _ _)) in Hr by lia. apply takes_reserved. rewrite zlen_zrange; lia.
  - rewrite (proj2 (Z.eqb_eq _ _)) in Hr by lia. destruct (h_reserved s); [apply takes_ret|].
    rewrite zlen_cons in Hr. pose proof (zlen_nonneg l). lia.
Qed.

Lemma takes_window o : window_ok o ->
  takes (let* confFlag := ReadFlag in let* w := confWindow confFlag in mret (confFlag, w)) (window_bits o)
    (bool_decide (is_Some o), default (0, 0, 0, 0) o).
Proof.
  destruct o as [[[[l r] t] b]|]; cbn [window_ok window_bits].
  - intros (Hl & Hr & Ht & Hb). change (true :: ?x) with ([true] ++ x). take_step.
    rewrite <- (app_nil_r (_ ++ _ ++ _ ++ _)). apply (takes_bind _ _ _ _ (l, r, t, b)); [|apply takes_ret].
    cbn [confWindow]. do 3 take_step. rewrite <- (app_nil_r (ue_bits b)). take_step. apply takes_ret.
  - intros _. change [false] with ([false] ++ []). take_step. apply (takes_bind _ _ [] [] (0, 0, 0, 0)); apply takes_ret.
Qed.

Lemma cropped_window size lo hi unit : size_code size -> size_code lo -> size_code hi -> 1 <= unit <= 2 ->
  cropped size lo hi unit = window_size size lo hi unit.
Proof.
  unfold size_code, cropped, window_size. intros Hs Hl Hh Hu. rewrite (u64_small (lo + hi)) by lia.
  assert (forall x, - 2 ^ 62 < x < 2 ^ 62 -> i64 x = x) as Hi by (intros; unfold i64; rewrite Z.mod_small; lia).
  rewrite (Hi size), (Hi (lo + hi)), (Hi unit) by lia. assert (0 <= (lo + hi) * unit < 2 ^ 35) by nia.
  rewrite (Hi ((lo + hi) * unit)), Hi by lia. destruct (Z.ltb_spec (size - (lo + hi) * unit) 0); rewrite u64_small; lia.
Qed.

Lemma h265Core_eq br : h265Core br =
  (ReadUE ;;*
   let* chromaFormatIDC := ReadUE in
   (if chromaFormatIDC =? 3 then ReadFlag ;;* mret tt else mret tt) ;;*
   let* picW := ReadUE in
   let* picH := ReadUE in
   let* cw := (let* confFlag := ReadFlag in let* w := confWindow confFlag in mret (confFlag, w)) in
   let '(confFlag, (l, r, t, b)) := cw in
   mret (mkSPSInfo chromaFormatIDC picW picH confFlag l r t b picW picH
    (if confFlag then cropped picW l r (getSubWidthC chromaFormatIDC) else picW)
    (if confFlag then cropped picH t b (getSubHeightC chromaFormatIDC) else picH))) br.
Proof.
  unfold h265Core, mbind. destruct (ReadUE br) as [b1 [x|]]; [|done].
  destruct (ReadUE b1) as [b2 [c|]]; [|done]. 
  match goal with |- context [match ?m b2 with _ => _ end] => destruct (m b2) as [b3 [y|]] end; [|done].
  destruct (ReadUE b3) as [b4 [w|]]; [|done]. destruct (ReadUE b4) as [b5 [h|]]; [|done].
  destruct (ReadFlag b5) as [b6 [f|]]; [|done]. by destruct (confWindow f b6) as [b7 [[[[l r] t] b]|]].
Qed.

Lemma takes_ext {A} (m m' : R A) l a : (forall br, m br = m' br) -> takes m' l a -> takes m l a.
Proof. intros E H br rest Hb Hs. rewrite E. by eapply H. Qed.

Lemma takes_core s : h265_wf s -> takes h265Core (core_bits s) (h265_info s).
Proof.
  intros W. apply (takes_ext _ _ _ _ h265Core_eq). unfold core_bits.
  destruct (hw_codes s W) as (Hid & Hc & Hw & Hh). pose proof (hw_window s W) as Hwin.
  do 2 take_step. apply (takes_bind _ _ _ _ tt).
  { destruct (h_chroma s =? 3); [|apply takes_ret]. change [h_separate s] with ([h_separate s] ++ []).
    take_step. apply takes_ret. }
  do 2 take_step. rewrite <- (app_nil_r (window_bits _)).
  apply (takes_bind _ _ _ _ (bool_decide (is_Some (h_window s)), default (0, 0, 0, 0) (h_window s)));
    [by apply takes_window|].
  unfold h265_info. assert (forall c, 1 <= getSubWidthC c <= 2 /\ 1 <= getSubHeightC c <= 2) as Hunit.
  { intros c. unfold getSubWidthC, getSubHeightC. split; case_if; lia. }
  destruct (Hunit (h_chroma s)). unfold size_code in *.
  destruct (h_window s) as [[[[l r] t] b]|]; cbn [default from_option id].
  - destruct Hwin as (? & ? & ? & ?). rewrite bool_decide_eq_true_2 by done.
    rewrite !cropped_window by done. apply takes_ret.
  - rewrite bool_decide_eq_false_2 by (intros [? ?]; done). unfold window_size.
    rewrite !Z.max_r by lia. rewrite !Z.sub_0_r. apply takes_ret.
Qed.

(** A start code in front of a NAL unit, or none. *)
Definition start_code (c : list Z) : Prop := c = [] \/ c = [0; 0; 1] \/ c = [0; 0; 0; 1].

Lemma stripStartCode_ok c b nal : start_code c -> b <> 0 -> stripStartCode (c ++ b :: nal) = b :: nal.
Proof. intros [->|[->| ->]] Hb; [by apply stripStartCode_id|done..]. Qed.

(** A NAL unit whose bits start as the header of its type. *)
Lemma header_byte data l rest : bytes data -> zlen l = 8 -> bits_of_bytes data = l ++ rest ->
  exists data', data = Z_of_bits l :: data' /\ bits_of_bytes data' = rest.
Proof.
  intros Hb Hl E. assert (length l = 8%nat) as Hl8 by (unfold zlen in Hl; lia).
  destruct data as [|x data].
  { apply (f_equal length) in E. rewrite length_app in E. cbn in E. lia. }
  exists data. rewrite bits_of_bytes_cons in E. apply app_inj_1 in E as [<- E]; [|by rewrite length_bits_of].
  apply Forall_cons in Hb as [Hx _]. unfold byte in Hx. rewrite Z_of_bits_of, Z.mod_small by lia. done.
Qed.

Lemma NewBitReader_takes {A} (m : R A) l a data rest : bytes data -> takes m l a ->
  bits_of_bytes data = l ++ rest -> snd (m (NewBitReader data)) = Ok a.
Proof.
  intros Hb Hm E. rewrite (Hm (NewBitReader data) rest); [done| |].
  - constructor; [done|]. cbn. pose proof (zlen_nonneg data). lia.
  - unfold ahead, zdrop. cbn [br_pos NewBitReader br_data]. change (Z.to_nat 0) with 0%nat. by rewrite drop_0.
Qed.

Lemma h265_header s rest data : h265_wf s -> bytes data -> bits_of_bytes data = h265_bits s ++ rest ->
  exists b data', data = b :: data' /\ h265NalType b = 33 /\ b <> 0.
Proof.
  intros W Hb E. pose proof (hw_layer s W) as Hl. destruct (h_layer s) as [|x layer] eqn:El; [done|].
  unfold h265_bits in E. rewrite El in E.
  destruct (header_byte data ([false] ++ bits_of 6 33 ++ [x])
    (layer ++ h_tid s ++ h_vps s ++ bits_of 3 (zlen (h_subs s)) ++ [h_nesting s] ++ ptl_bits s ++ core_bits s ++ rest)
    Hb eq_refl) as (data' & -> & _).
  { rewrite E, <- !app_assoc. done. }
  exists (Z_of_bits ([false] ++ bits_of 6 33 ++ [x])), data'. destruct x; by vm_compute.
Qed.

(** Whatever the fields around it, an H.265 sequence parameter set that was
    written, escaped and put behind a start code or none, parses to its picture
    size, chroma format and conformance window, and to the size that the window
    leaves. *)
Lemma parseH265SPS_roundtrip s c data rest : h265_wf s -> start_code c -> bytes data ->
  bits_of_bytes data = h265_bits s ++ rest -> parseH265SPS (c ++ escape 0 data) = Ok (h265_info s).
Proof.
  intros W Hc Hb E. unfold parseH265SPS.
  destruct (h265_header s rest data W Hb E) as (b & data' & Ed & _ & Hb0).
  assert (escape 0 data = b :: escape (if b =? 0 then 1 else 0) data') as Ee by (by rewrite Ed).
  rewrite Ee, stripStartCode_ok, <- Ee by done. unfold removeEmulationPreventionBytes.
  rewrite unescape_escape by done. apply (NewBitReader_takes _ (h265_bits s) _ _ rest); [done| |done].
  destruct (hw_subs s W) as [H8 _]. pose proof (zlen_nonneg (h_subs s)). unfold h265_bits.
  apply (takes_bind _ _ _ _ tt); [by apply takes_h265Header|].
  apply takes_skip; [apply W|lia|].
  apply (takes_bind _ _ _ _ (zlen (h_subs s))); [apply (takes_value 3); lia|].
  apply takes_skip; [done|lia|]. apply (takes_bind _ _ _ _ tt); [by apply takes_ptl|by apply takes_core].
Qed.

(** ** Units of an aggregation packet *)

(** The loop comes to an empty unit before a unit that [hit]s: it then reads the
    first byte of nothing. *)
Inductive empty_unit (hit : Z -> bool) : list Z -> Prop :=
| empty_here rest : empty_unit hit (0 :: 0 :: rest)
| empty_later b0 b1 u rest :
    zlen u = be16 b0 b1 -> u <> [] -> unitHit hit 0 u = false -> empty_unit hit rest ->
    empty_unit hit (b0 :: b1 :: u ++ rest).

Lemma be16_zero b0 b1 : byte b0 -> byte b1 -> be16 b0 b1 = 0 -> b0 = 0 /\ b1 = 0.
Proof. intros H0 H1. rewrite be16_eq by done. unfold byte in *. lia. Qed.

Lemma empty_unit_inv hit b0 b1 rest : byte b0 -> byte b1 ->
  let n := be16 b0 b1 in
  empty_unit hit (b0 :: b1 :: rest) <->
  n = 0 \/ 0 < n <= zlen rest /\ unitHit hit 0 (ztake n rest) = false /\ empty_unit hit (zdrop n rest).
Proof.
  intros H0 H1 n. pose proof (be16_range b0 b1 H0 H1) as Hr. fold n in Hr. split.
  - intros He. inversion He as [|c0 c1 u r Hl Hne Hh Hr']; subst; [left; reflexivity|]. fold n in Hl. right.
    rewrite zlen_app. pose proof (zlen_nonneg r).
    assert (ztake n (u ++ r) = u /\ zdrop n (u ++ r) = r) as [-> ->].
    { unfold ztake, zdrop, zlen in *. rewrite take_app_length', drop_app_length' by lia. done. }
    split_and!; [|lia|done..]. destruct u; [done|]. rewrite zlen_cons in Hl. pose proof (zlen_nonneg u). lia.
  - intros [E|(Hn & Hh & He)].
    + apply be16_zero in E as [-> ->]; [constructor|done..].
    + destruct (zdrop_split n rest ltac:(lia)) as [Es Hl]. rewrite Es. apply empty_later; try done.
      intros E. rewrite E, zlen_nil in Hl. lia.
Qed.

(** The first unit that [hit]s, in a well-formed aggregation. *)
Definition firstHit (hit : Z -> bool) (us : list (list Z)) : list Z := default [] (find (unitHit hit 0) us).

Lemma be16_nowrap b0 b1 : byte b0 -> byte b1 -> Z.lor (Z.shiftl b0 8) b1 = be16 b0 b1.
Proof. intros H0 _. unfold be16, byte in *. rewrite u16_small; [done|]. rewrite Z.shiftl_mul_pow2; lia. Qed.

(** One round of [findSps], on the bytes from [i] on. *)
Lemma findSps_round hit fuel payload i b0 b1 rest : 0 <= i -> zdrop i payload = b0 :: b1 :: rest ->
  byte b0 -> byte b1 ->
  let n := be16 b0 b1 in
  findSps hit (S fuel) payload i =
  if n >? zlen rest then Ok []
  else let! b := firstByte (ztake n rest) in
       if hit b then Ok (ztake n rest) else findSps hit fuel payload (i + 2 + n).
Proof.
  intros Hi E H0 H1 n. cbn [findSps].
  assert (zlen payload = i + 2 + zlen rest) as Hl.
  { destruct (Z.le_gt_cases (zlen payload) i) as [Hle|]; [by rewrite zdrop_ge in E|].
    apply (f_equal zlen) in E. rewrite zlen_zdrop, !zlen_cons in E by lia. lia. }
  pose proof (zlen_nonneg rest). rewrite (proj2 (Z.leb_le _ _)) by lia.
  rewrite (load_zdrop_0 _ _ i), load_zdrop, E by lia.
  change (load panicked (b0 :: b1 :: rest) 0) with (Ok b0 : res stop Z).
  change (load panicked (b0 :: b1 :: rest) 1) with (Ok b1 : res stop Z). cbn [res_bind].
  rewrite be16_nowrap by done. fold n.
  assert (i + 2 + n >? zlen payload = (n >? zlen rest)) as -> by (rewrite !Z.gtb_ltb; lia).
  rewrite <- (zdrop_zdrop i 2), E by lia. done.
Qed.

Lemma zdrop_cases payload i : bytes payload -> 0 <= i ->
  (zlen payload < i + 2 /\ (length (zdrop i payload) < 2)%nat) \/
  exists b0 b1 rest, zdrop i payload = b0 :: b1 :: rest /\ byte b0 /\ byte b1 /\
    zlen payload = i + 2 + zlen rest.
Proof.
  intros Hb Hi. destruct (Z.lt_ge_cases (zlen payload) (i + 2)) as [Hlt|Hge].
  { left. split; [done|]. unfold zdrop. rewrite length_drop. unfold zlen in Hlt. lia. }
  right. assert (bytes (zdrop i payload)) as Hbd by by apply Forall_drop.
  pose proof (zlen_zdrop i payload ltac:(lia)) as Hl.
  destruct (zdrop i payload) as [|b0 [|b1 rest]]; rewrite ?zlen_cons in Hl;
    [change (@zlen Z []) with 0 in Hl; lia..|].
  apply Forall_cons in Hbd as [H0 Hbd]. apply Forall_cons in Hbd as [H1 _]. exists b0, b1, rest.
  split_and!; [done..|lia].
Qed.

(** On every payload the loop ends within its fuel; it fails exactly where it
    comes to an empty unit, and a unit it returns is not empty and [hit]s. *)
Lemma findSps_spec hit fuel payload i : bytes payload -> 0 <= i -> zlen payload - i < Z.of_nat fuel ->
  (0 < fuel)%nat ->
  (findSps hit fuel payload i = Err panicked <-> empty_unit hit (zdrop i payload)) /\
  (empty_unit hit (zdrop i payload) \/ exists u, findSps hit fuel payload i = Ok u /\
     (u = [] \/ bytes u /\ unitHit hit 0 u = true)).
Proof.
  revert i. induction fuel as [|fuel IH]; intros i Hb Hi Hf Hpos; [lia|].
  destruct (zdrop_cases payload i Hb Hi) as [[Hlt Hs]|(b0 & b1 & rest & E & H0 & H1 & Hl)].
  { cbn [findSps]. rewrite (proj2 (Z.leb_gt _ _)) by lia. split; [|right; exists []; tauto].
    split; [done|]. intros He. inversion He as [? E|? ? ? ? ? ? ? ? E]; rewrite <- E in Hs; cbn in Hs; lia. }
  rewrite (findSps_round hit fuel payload i b0 b1 rest), E by done.
  pose proof (empty_unit_inv hit b0 b1 rest H0 H1) as Hinv. cbv zeta in *.
  pose proof (be16_range b0 b1 H0 H1) as Hr. set (n := be16 b0 b1) in *.
  destruct (n >? zlen rest) eqn:En; rewrite Z.gtb_ltb in En; bool_prop.
  { split; [|right; exists []; tauto]. split; [done|]. rewrite Hinv. pose proof (zlen_nonneg rest). intros [|[]]; lia. }
  destruct (ztake n rest) as [|b u] eqn:Eu.
  { assert (n = 0) as E0 by (destruct (zdrop_split n rest ltac:(lia)) as [_ Hz]; rewrite Eu in Hz; exact (eq_sym Hz)).
    change (firstByte []) with (Err panicked : res stop Z). cbn [res_bind]. rewrite Hinv. tauto. }
  assert (zlen (b :: u) = n) as Hlu by (destruct (zdrop_split n rest ltac:(lia)) as [_ Hz]; by rewrite Eu in Hz).
  rewrite zlen_cons in Hlu. pose proof (zlen_nonneg u).
  change (firstByte (b :: u)) with (Ok b : res stop Z). cbn [res_bind].
  change (unitHit hit 0 (b :: u)) with (hit b) in Hinv. destruct (hit b) eqn:Eh.
  - split; [split; [done|]; rewrite Hinv; intros [|(_ & ? & _)]; [lia|done]|].
    right. exists (b :: u). split; [done|]. right. split; [|exact Eh]. rewrite <- Eu.
    assert (bytes (zdrop i payload)) as Hbd by by apply Forall_drop. rewrite E in Hbd.
    apply Forall_take. by do 2 apply Forall_inv_tail in Hbd.
  - destruct (IH (i + 2 + n)) as [H2 H3]; [done|lia..|].
    rewrite <- zdrop_zdrop, <- (zdrop_zdrop i 2), E in H2, H3 by lia.
    change (zdrop 2 (b0 :: b1 :: rest)) with rest in *. rewrite H2, Hinv.
    split; [split; [|intros [|(_ & _ & ?)]; [lia|done]]|].
    + intros. right. split_and!; [lia..|done|done].
    + destruct H3 as [|H3]; [left; right|by right]. split_and!; [lia..|done|done].
Qed.

Lemma findSps_framed hit us : Forall (unit_ok 0) us -> forall fuel payload i, bytes payload -> 0 <= i ->
  zdrop i payload = framed us -> zlen payload - i < Z.of_nat fuel -> (0 < fuel)%nat ->
  findSps hit fuel payload i = Ok (firstHit hit us).
Proof.
  induction 1 as [|u us [Hb Hl] Hus IH]; intros fuel payload i Hp Hi E Hf Hpos;
    (destruct fuel as [|fuel]; [lia|]).
  { destruct (zdrop_cases payload i Hp Hi) as [[Hlt _]|(b0 & b1 & rest & E2 & _)]; [|by rewrite E in E2].
    cbn [findSps]. by rewrite (proj2 (Z.leb_gt _ _)) by lia. }
  rewrite framed_cons in E. destruct (be16_frame (zlen u)) as (H0 & H1 & En); [lia|].
  rewrite (findSps_round hit fuel payload i _ _ _ Hi E H0 H1). cbv zeta. rewrite En, zlen_app.
  pose proof (zlen_nonneg (framed us)).
  assert (zlen u >? zlen u + zlen (framed us) = false) as -> by (rewrite Z.gtb_ltb; lia).
  assert (ztake (zlen u) (u ++ framed us) = u) as ->
    by (unfold ztake, zlen; by rewrite take_app_length' by lia).
  destruct u as [|b u]; [rewrite (@zlen_nil Z) in Hl; lia|].
  change (firstByte (b :: u)) with (Ok b : res stop Z). cbn [res_bind]. unfold firstHit. cbn [find].
  change (unitHit hit 0 (b :: u)) with (hit b). destruct (hit b); [done|].
  assert (2 <= zlen payload - i).
  { destruct (zdrop_cases payload i Hp Hi) as [[_ Hs]|(? & ? & r & _ & _ & _ & ?)].
    - rewrite E in Hs. cbn in Hs. lia.
    - pose proof (zlen_nonneg r). lia. }
  apply (IH fuel payload (i + 2 + zlen (b :: u))); [done|lia| |lia|lia].
  rewrite <- zdrop_zdrop, <- (zdrop_zdrop i 2), E by lia.
  change (zdrop 2 (?x :: ?y :: ?l)) with l. unfold zdrop, zlen. by rewrite drop_app_length' by lia.
Qed.

(** ** The parsers do not fail on their own *)

(** Started within its data, [m] stays there and does not panic. *)
Definition safe_at {A} (m : R A) (br : BitReader) : Prop :=
  bok (fst (m br)) /\ forall s, snd (m br) <> Err (fault s).
Definition safe {A} (m : R A) : Prop := forall br, bok br -> safe_at m br.

Lemma parse_safe_ret {A} (a : A) : safe (mret a).
Proof. by intros br Hb. Qed.

Lemma safe_at_bind {A B} (m : R A) (k : A -> R B) br : safe_at m br -> (forall a, safe (k a)) -> safe_at (mbind m k) br.
Proof.
  intros [H1 H2] Hk. unfold safe_at, mbind.
  destruct (m br) as [br1 [a|e]]; cbn in *; [by apply Hk|]. split; [done|]. intros s [= ->]. by apply (H2 s).
Qed.

Lemma parse_safe_bind {A B} (m : R A) (k : A -> R B) : safe m -> (forall a, safe (k a)) -> safe (mbind m k).
Proof. intros Hm Hk br Hb. by apply safe_at_bind; [apply Hm|]. Qed.

Lemma safe_orZero {A} (z : A) m : safe m -> safe (orZero z m).
Proof.
  intros Hm br Hb. destruct (Hm br Hb) as [H1 H2]. unfold safe_at, orZero.
  destruct (m br) as [br1 [a|[| |t|s]]]; cbn in *; done.
Qed.

Lemma safe_ReadBits n : safe (ReadBits n).
Proof.
  intros br Hb. unfold safe_at, ReadBits, mget, mbind. pose proof (zlen_ahead br Hb) as Hl.
  destruct ((n <? 0) || (left br <? n)) eqn:E; [by split|]. bool_prop.
  destruct (zdrop_split n (ahead br) ltac:(lia)) as [Es Hz].
  assert (Z.to_nat n = length (ztake n (ahead br))) as -> by (unfold zlen in Hz; lia).
  rewrite (readLoop_ok _ br 0 _ Hb Es), Hz by lia. cbn. split; [|done]. apply (skip_bok n br Hb). lia.
Qed.

Lemma safe_flag : safe ReadFlag.
Proof. apply parse_safe_bind; [apply safe_ReadBits|intros; apply parse_safe_ret]. Qed.

Lemma safe_leadingZeros fuel : forall br zeros, bok br -> left br < Z.of_nat fuel ->
  safe_at (leadingZeros fuel zeros) br.
Proof.
  unfold safe_at. induction fuel as [|fuel IH]; intros br zeros Hb Hf; cbn [leadingZeros].
  { pose proof (zlen_ahead br Hb). pose proof (zlen_nonneg (ahead br)). lia. }
  destruct (Z.lt_ge_cases (left br) 1) as [Hlt|Hge].
  { unfold mbind, ReadBits, mget, mbind. rewrite (proj2 (Z.ltb_lt (left br) 1)) by lia. rewrite orb_true_r. by split. }
  pose proof (zlen_ahead br Hb) as Hl. destruct (ahead br) as [|b rest] eqn:E; [change (@zlen bool []) with 0 in Hl; lia|].
  rewrite (mbind_eq _ _ _ _ _ (takes_bits 1 [b] eq_refl ltac:(lia) br rest Hb E)).
  destruct (skip_bok 1 br Hb ltac:(lia)) as [Hb1 _]. change (zlen [b]) with 1.
  destruct (Z_of_bits [b] =? 0); [|by split]. apply IH; [done|]. unfold left, skip in *. cbn. lia.
Qed.

Lemma safe_UE : safe ReadUE.
Proof.
  intros br Hb. unfold ReadUE, mget, mbind at 1. unfold safe_at. apply safe_at_bind.
  - apply safe_leadingZeros; [done|]. lia.
  - intros z. case_if; [apply parse_safe_ret|]. apply parse_safe_bind; [apply safe_ReadBits|intros; apply parse_safe_ret].
Qed.

Lemma safe_SE : safe ReadSE.
Proof. apply parse_safe_bind; [apply safe_UE|]. intros v. cbv zeta. case_if; apply parse_safe_ret. Qed.

Lemma safe_foreach {A} (f : A -> R unit) l : (forall x, safe (f x)) -> safe (mforeach f l).
Proof. intros Hf. induction l; [apply parse_safe_ret|]. by apply parse_safe_bind. Qed.

Lemma parse_safe_mmap {A B} (f : A -> R B) l : (forall x, safe (f x)) -> safe (mmap f l).
Proof.
  intros Hf. induction l; [apply parse_safe_ret|]. apply parse_safe_bind; [done|]. intros. by apply parse_safe_bind; [|intros; apply parse_safe_ret].
Qed.

Lemma parse_safe_check b e : (forall s, e <> fault s) -> safe (mcheck b e : R unit).
Proof. intros He br Hb. unfold safe_at, mcheck. case_if; split; cbn; try done. intros s [= E2]. by apply (He s). Qed.

Lemma safe_skipSE n : safe (skipSE n).
Proof. induction n; [apply parse_safe_ret|]. apply parse_safe_bind; [apply safe_orZero, safe_SE|done]. Qed.

Create HintDb bitreader.
#[local] Hint Resolve parse_safe_ret parse_safe_bind safe_orZero safe_ReadBits safe_flag safe_UE safe_SE safe_foreach
  parse_safe_mmap safe_skipSE : bitreader.

(** Safety by the structure of the program. *)
Ltac safely :=
  cbv zeta;
  repeat match goal with
  | |- safe (mbind _ _) => apply parse_safe_bind; [|intros]
  | |- safe (if _ then _ else _) => case_if
  | |- safe (let '_ := ?x in _) => destruct x
  | |- safe (mforeach _ _) => apply safe_foreach; intros
  | |- safe (mmap _ _) => apply parse_safe_mmap; intros
  | |- safe _ => solve [auto with bitreader]
  end.

Lemma safe_h265 : safe (h265Header ;;* ReadBits 4 ;;* let* n := ReadBits 3 in ReadBits 1 ;;* profileTierLevel n ;;* h265Core).
Proof.
  unfold h265Header, profileTierLevel, h265Core, confWindow. safely. by apply parse_safe_check.
Qed.

Lemma safe_h264 : safe h264Fields.
Proof. unfold h264Fields, chromaFields, pocFields, cropFields. safely. Qed.

(** ** The SPS of H.264 *)

Inductive poc_type :=
| Poc0 (log2_lsb : Z)
| Poc1 (zero : bool) (non_ref top_bottom : Z) (offsets : list Z)
| Poc2.

Record h264_sps := mkH264 {
  s_profile : Z;
  s_constraints : list bool;
  s_level : list bool;
  s_id : Z;
  s_chroma : Z;                (** of the high profiles, with the next four *)
  s_separate : bool;
  s_depth_luma : Z;
  s_depth_chroma : Z;
  s_bypass : bool;
  s_frame_num : Z;
  s_poc : poc_type;
  s_refs : Z;
  s_gaps : bool;
  s_width_mbs : Z;             (** less one, as is the next *)
  s_height_units : Z;
  s_frame_mbs_only : bool;
  s_adaptive : bool;
  s_direct8x8 : bool;
  s_crop : option (Z * Z * Z * Z);
}.

(** The chroma format that counts: the profiles without the field are 4:2:0. *)
Definition s_format (s : h264_sps) : Z := if highProfile (s_profile s) then s_chroma s else 1.

Definition chroma_bits (s : h264_sps) : list bool :=
  if highProfile (s_profile s) then
    ue_bits (s_chroma s) ++ (if s_chroma s =? 3 then [s_separate s] else []) ++
    ue_bits (s_depth_luma s) ++ ue_bits (s_depth_chroma s) ++ [s_bypass s] ++ [false]
  else [].

Definition poc_bits (p : poc_type) : list bool :=
  match p with
  | Poc0 n => ue_bits 0 ++ ue_bits n
  | Poc1 z a b vs =>
    ue_bits 1 ++ [z] ++ se_bits a ++ se_bits b ++ ue_bits (zlen vs) ++ mjoin (se_bits <$> vs)
  | Poc2 => ue_bits 2
  end.

(** The SPS behind its NAL header; there is no scaling matrix. *)
Definition h264_bits (s : h264_sps) : list bool :=
  bits_of 8 (s_profile s) ++ s_constraints s ++ s_level s ++ ue_bits (s_id s) ++ chroma_bits s ++
  ue_bits (s_frame_num s) ++ poc_bits (s_poc s) ++ ue_bits (s_refs s) ++ [s_gaps s] ++
  ue_bits (s_width_mbs s) ++ ue_bits (s_height_units s) ++ [s_frame_mbs_only s] ++
  (if s_frame_mbs_only s then [] else [s_adaptive s]) ++ [s_direct8x8 s] ++ window_bits (s_crop s).

Definition s_width (s : h264_sps) : Z := (s_width_mbs s + 1) * 16.
Definition s_height (s : h264_sps) : Z := (s_height_units s + 1) * 16 * (if s_frame_mbs_only s then 1 else 2).

(** What a cropping offset counts: samples of the chroma grid, and pairs of
    lines where fields are coded. *)
Definition crop_x (s : h264_sps) : Z := if s_format s =? 0 then 1 else getSubWidthC (s_format s).
Definition crop_y (s : h264_sps) : Z :=
  (if s_format s =? 0 then 1 else getSubHeightC (s_format s)) * (if s_frame_mbs_only s then 1 else 2).

Definition poc_ok (p : poc_type) : Prop :=
  match p with
  | Poc0 n => size_code n
  | Poc1 _ a b vs => Forall (fun v => - 2 ^ 62 < v < 2 ^ 62) (a :: b :: vs) /\ size_code (zlen vs)
  | Poc2 => True
  end.

Record h264_wf (s : h264_sps) : Prop := {
  sw_profile : 0 <= s_profile s < 256;
  sw_constraints : zlen (s_constraints s) = 8;
  sw_level : zlen (s_level s) = 8;
  sw_codes : Forall size_code [s_id s; s_chroma s; s_depth_luma s; s_depth_chroma s; s_frame_num s; s_refs s;
                               s_width_mbs s; s_height_units s];
  sw_poc : poc_ok (s_poc s);
  sw_crop : window_ok (s_crop s);
  sw_fits : let '(l, r, t, b) := default (0, 0, 0, 0) (s_crop s) in
            (l + r) * crop_x s <= s_width s /\ (t + b) * crop_y s <= s_height s;
}.

Definition h264_info (s : h264_sps) : SPSInfo :=
  let '(l, r, t, b) := default (0, 0, 0, 0) (s_crop s) in
  mkSPSInfo (s_format s) (s_width s) (s_height s) (l + r + t + b >? 0) l r t b (s_width s) (s_height s)
    (s_width s - (l + r) * crop_x s) (s_height s - (t + b) * crop_y s).

Lemma takes_ue v : 0 <= v < 2 ^ 64 - 1 -> takes (orZero 0 ReadUE) (ue_bits v) v.
Proof. intros Hv. by apply takes_orZero, takes_UE. Qed.

Lemma takes_fl b : takes (orZero false ReadFlag) [b] b.
Proof. apply takes_orZero, takes_flag. Qed.

Lemma takes_se v : - 2 ^ 62 < v < 2 ^ 62 -> takes (orZero 0 ReadSE) (se_bits v) v.
Proof. intros Hv. by apply takes_orZero, takes_SE. Qed.

Ltac take_ignoring :=
  match goal with
  | |- takes (mret _) [] _ => apply takes_ret
  | |- takes (mbind (orZero 0 ReadUE) _) (ue_bits ?v ++ _) _ =>
    apply (takes_bind _ _ _ _ v); [apply takes_ue; unfold size_code in *; lia|]
  | |- takes (mbind (orZero 0 ReadSE) _) (se_bits ?v ++ _) _ =>
    apply (takes_bind _ _ _ _ v); [apply takes_se; lia|]
  | |- takes (mbind (orZero false ReadFlag) _) ([?b] ++ _) _ => apply (takes_bind _ _ _ _ b); [apply takes_fl|]
  end.

Lemma takes_skipSE vs : Forall (fun v => - 2 ^ 62 < v < 2 ^ 62) vs ->
  takes (skipSE (length vs)) (mjoin (se_bits <$> vs)) tt.
Proof.
  induction 1 as [|v vs Hv _ IH]; [apply takes_ret|]. cbn [length skipSE].
  exact (takes_bind _ _ _ _ _ _ (takes_se v Hv) IH).
Qed.

Lemma takes_poc p : poc_ok p -> takes pocFields (poc_bits p) tt.
Proof.
  unfold pocFields. destruct p as [n|z a b vs|]; cbn [poc_ok poc_bits].
  - intros Hn. take_ignoring. cbn [Z.eqb]. rewrite <- (app_nil_r (ue_bits n)). do 2 take_ignoring.
  - intros [Hf Hl]. apply Forall_cons in Hf as [Ha Hf]. apply Forall_cons in Hf as [Hb Hf].
    take_ignoring. cbn [Z.eqb Pos.eqb]. do 4 take_ignoring.
    assert (Z.to_nat (zlen vs) = length vs) as -> by (unfold zlen; lia). by apply takes_skipSE.
  - intros _. rewrite <- (app_nil_r (ue_bits 2)). take_ignoring. cbn [Z.eqb Pos.eqb]. take_ignoring.
Qed.

Lemma takes_chroma s : h264_wf s -> takes (chromaFields (s_profile s)) (chroma_bits s) (s_format s).
Proof.
  intros W. pose proof (sw_codes s W) as Hc. rewrite !Forall_cons in Hc. destruct Hc as (_ & Hc & Hdl & Hdc & _).
  unfold chromaFields, chroma_bits, s_format. destruct (highProfile (s_profile s)); [|apply takes_ret].
  take_ignoring. apply (takes_bind _ _ _ _ tt).
  { destruct (s_chroma s =? 3); [|apply takes_ret]. change [s_separate s] with ([s_separate s] ++ []). do 2 take_ignoring. }
  do 3 take_ignoring. rewrite <- (app_nil_r [false]). take_ignoring.
  apply (takes_bind _ _ [] [] tt); take_ignoring.
Qed.

Lemma takes_crop o : window_ok o -> takes cropFields (window_bits o) (default (0, 0, 0, 0) o).
Proof.
  unfold cropFields. destruct o as [[[[l r] t] b]|]; cbn [window_ok window_bits default from_option id].
  - intros (Hl & Hr & Ht & Hb). change (true :: ?x) with ([true] ++ x). rewrite <- (app_nil_r (ue_bits b)).
    do 6 take_ignoring.
  - intros _. rewrite <- (app_nil_r [false]). do 2 take_ignoring.
Qed.

Lemma cropUnits_eq s : cropUnits (s_format s) (s_frame_mbs_only s) = (crop_x s, crop_y s).
Proof.
  unfold cropUnits, crop_x, crop_y. destruct (s_format s =? 0), (s_frame_mbs_only s); cbn [negb]; f_equal; lia.
Qed.

Lemma crop_range s : 1 <= crop_x s <= 2 /\ 1 <= crop_y s <= 4.
Proof.
  unfold crop_x, crop_y, getSubWidthC, getSubHeightC. repeat case_if; lia.
Qed.

(** The arithmetic on the fields does not wrap. *)
Lemma h264_info_eq s l r t b : h264_wf s -> default (0, 0, 0, 0) (s_crop s) = (l, r, t, b) ->
  let width := u64 (u64 (s_width_mbs s + 1) * 16) in
  let height := u64 (u64 (s_height_units s + 1) * 16) in
  let height := if negb (s_frame_mbs_only s) then u64 (height * 2) else height in
  mkSPSInfo (s_format s) width height (u64 (l + r + t + b) >? 0) l r t b width height
    (u64 (width - u64 (u64 (l + r) * crop_x s))) (u64 (height - u64 (u64 (t + b) * crop_y s))) = h264_info s.
Proof.
  intros W E. pose proof (sw_codes s W) as Hc. rewrite !Forall_cons in Hc. unfold size_code in Hc.
  destruct Hc as (_ & _ & _ & _ & _ & _ & Hw & Hh & _). pose proof (sw_fits s W) as Hfit. rewrite E in Hfit.
  assert (size_code l /\ size_code r /\ size_code t /\ size_code b) as (Hl & Hr & Ht & Hb).
  { pose proof (sw_crop s W) as Hcr. destruct (s_crop s) as [[[[? ?] ?] ?]|]; cbn in E, Hcr; [by injection E as -> -> -> ->|].
    injection E as <- <- <- <-. unfold size_code. lia. }
  unfold size_code in *. cbv zeta. unfold h264_info. rewrite E.
  rewrite (u64_small (s_width_mbs s + 1)), (u64_small (s_height_units s + 1)) by lia.
  assert (u64 ((s_width_mbs s + 1) * 16) = s_width s) as -> by (unfold s_width; rewrite u64_small; lia).
  assert ((if negb (s_frame_mbs_only s) then u64 (u64 ((s_height_units s + 1) * 16) * 2)
           else u64 ((s_height_units s + 1) * 16)) = s_height s) as ->.
  { unfold s_height. rewrite (u64_small ((s_height_units s + 1) * 16)) by lia.
    destruct (s_frame_mbs_only s); cbn [negb]; [lia|]. rewrite u64_small; lia. }
  assert (0 <= s_width s < 2 ^ 40 /\ 0 <= s_height s < 2 ^ 40) as [Hsw Hsh]
    by (unfold s_width, s_height; case_if; lia).
  destruct (crop_range s). destruct Hfit as [Hfx Hfy].
  assert (0 <= (l + r) * crop_x s) by nia. assert (0 <= (t + b) * crop_y s) by nia.
  rewrite (u64_small (l + r)), (u64_small (t + b)), (u64_small (l + r + t + b)) by lia.
  by rewrite (u64_small ((l + r) * crop_x s)), (u64_small ((t + b) * crop_y s)), !u64_small by lia.
Qed.

Lemma takes_h264 s : h264_wf s -> takes h264Fields (h264_bits s) (h264_info s).
Proof.
  intros W. pose proof (sw_codes s W) as Hc. rewrite !Forall_cons in Hc.
  destruct Hc as (Hid & _ & _ & _ & Hfn & Hrefs & Hw & Hh & _). unfold h264Fields, h264_bits.
  pose proof (fun A (k : Z -> R A) n l l2 c (Hl : zlen l = n) (Hn : n <= 64) =>
    takes_bind (orZero 0 (ReadBits n)) k l l2 (Z_of_bits l) c (takes_orZero 0 _ _ _ (takes_bits n l Hl Hn))) as Hbits.
  apply (takes_bind _ _ _ _ (s_profile s)).
  { apply takes_orZero, (takes_value 8); [apply W|lia]. }
  apply Hbits; [apply W|lia|]. apply Hbits; [apply W|lia|]. take_ignoring.
  apply (takes_bind _ _ _ _ (s_format s)); [by apply takes_chroma|]. take_ignoring.
  apply (takes_bind _ _ _ _ tt); [apply takes_poc, W|]. do 5 take_ignoring.
  apply (takes_bind _ _ _ _ tt).
  { destruct (s_frame_mbs_only s); cbn [negb]; [apply takes_ret|].
    change [s_adaptive s] with ([s_adaptive s] ++ []). do 2 take_ignoring. }
  take_ignoring. rewrite <- (app_nil_r (window_bits _)).
  apply (takes_bind _ _ _ _ (default (0, 0, 0, 0) (s_crop s))); [apply takes_crop, W|].
  destruct (default (0, 0, 0, 0) (s_crop s)) as [[[l r] t] b] eqn:E. rewrite cropUnits_eq.
  rewrite <- (h264_info_eq s l r t b W E). apply takes_ret.
Qed.

(** C28: an H.264 sequence parameter set that was written without a scaling
    matrix and with a cropping window inside the picture ([h264_wf]), escaped
    and put behind a start code or none, parses to its size in macroblocks and
    to the size that the frame cropping leaves, for every profile, chroma
    format and field coding and whatever the fields around them.  A scaling
    matrix is not skipped ([h264_scaling_list_misread]), and a window larger
    than the picture wraps around ([h264_window_wraps]). *)
Theorem parseH264SPS_roundtrip s c h data rest : h264_wf s -> start_code c -> Z.land h 0x1F = 7 -> bytes data ->
  bits_of_bytes data = h264_bits s ++ rest -> parseH264SPS (c ++ h :: escape 0 data) = Ok (h264_info s).
Proof.
  intros W Hc Hh Hb E. unfold parseH264SPS.
  assert (h <> 0) as Hh0 by (intros ->; done).
  rewrite zlen_app, zlen_cons. pose proof (zlen_nonneg c). pose proof (zlen_nonneg (escape 0 data)).
  rewrite (proj2 (Z.ltb_ge _ 1)), stripStartCode_ok by done || lia.
  change (load (fault panicked) (h :: escape 0 data) 0) with (Ok h : res h26x_error Z). cbn [res_bind].
  rewrite Hh. cbn [Z.eqb Pos.eqb negb]. change (zdrop 1 (h :: ?l)) with l.
  unfold removeEmulationPreventionBytes. rewrite unescape_escape by done.
  by apply (NewBitReader_takes _ (h264_bits s) _ _ rest); [|apply takes_h264|].
Qed.

(** ** What the extraction promises *)

Lemma unescape_bytes data : bytes data -> forall p2 p1, bytes (unescape p2 p1 data).
Proof.
  induction 1 as [|b data Hb _ IH]; intros p2 p1; [constructor|]. cbn [unescape]. case_if; [apply IH|].
  constructor; [done|apply IH].
Qed.

Lemma stripStartCode_bytes nal : bytes nal -> bytes (stripStartCode nal).
Proof.
  intros Hb. unfold stripStartCode.
  destruct nal as [|[] nal]; try done. destruct nal as [|[] nal]; try done.
  destruct nal as [|[|[]|] nal]; try done; [destruct nal as [|[|[]|] nal]; try done|];
    repeat (apply Forall_inv_tail in Hb); done.
Qed.

Lemma NewBitReader_bok data : bytes data -> bok (NewBitReader data).
Proof. intros Hb. constructor; [done|]. cbn. pose proof (zlen_nonneg data). lia. Qed.

Lemma sizeOf_ok r : (forall s, r <> Err (fault s)) -> exists sz, sizeOf r = Ok sz.
Proof. intros H. destruct r as [i|[]]; cbn; [by eexists..|]. by destruct (H s). Qed.

Lemma parseH265SPS_safe nal : bytes nal -> forall s, parseH265SPS nal <> Err (fault s).
Proof.
  intros Hb. apply (safe_h265 (NewBitReader (removeEmulationPreventionBytes (stripStartCode nal)))).
  by apply NewBitReader_bok, unescape_bytes, stripStartCode_bytes.
Qed.

Lemma parseH264SPS_safe nal : bytes nal -> stripStartCode nal <> [] -> forall s, parseH264SPS nal <> Err (fault s).
Proof.
  intros Hb Hne s. unfold parseH264SPS. case_if; [done|].
  pose proof (stripStartCode_bytes nal Hb) as Hbs. destruct (stripStartCode nal) as [|b0 nal'] eqn:E0; [done|].
  change (load (fault panicked) (b0 :: nal') 0) with (Ok b0 : res h26x_error Z). cbn [res_bind].
  destruct (negb _); [done|]. apply (safe_h264 (NewBitReader (removeEmulationPreventionBytes (zdrop 1 (b0 :: nal'))))).
  apply NewBitReader_bok, unescape_bytes. by apply Forall_inv_tail in Hbs.
Qed.

(** C18: [ExtractH265VideoSize] ends on every payload and, whatever the bytes,
    panics exactly on an aggregation packet in which a unit of size zero comes
    before the first sequence parameter set. *)
Theorem ExtractH265VideoSize_panics_iff payload : bytes payload ->
  ExtractH265VideoSize payload <> Err unfinished /\
  (ExtractH265VideoSize payload = Err panicked <->
   exists h h1 rest, payload = h :: h1 :: rest /\ h265NalType h = 48 /\
     empty_unit (fun b => h265NalType b =? 33) rest).
Proof.
  intros Hb. unfold ExtractH265VideoSize. destruct payload as [|h [|h1 rest]].
  1,2: split; [done|]; split; [done|]; by intros (? & ? & ? & ? & _).
  rewrite !zlen_cons. pose proof (zlen_nonneg rest). rewrite (proj2 (Z.ltb_ge _ 2)) by lia.
  change (load panicked (h :: h1 :: rest) 0) with (Ok h : res stop Z). cbn [res_bind].
  assert (forall nal, bytes nal -> exists sz, (if zlen nal >? 0 then sizeOf (parseH265SPS nal) else Ok noSize) = Ok sz) as Hsz.
  { intros nal Hn. case_if; [|by eexists]. by apply sizeOf_ok, parseH265SPS_safe. }
  destruct (Z.eqb_spec (h265NalType h) 33) as [E|_].
  { destruct (Hsz _ Hb) as [sz Esz]. cbn [res_bind]. rewrite Esz. split; [done|]. split; [done|].
    intros (? & ? & ? & [= <- <- <-] & ? & _). congruence. }
  destruct (Z.eqb_spec (h265NalType h) 48) as [E|Hne].
  2: { split; [done|]. split; [done|]. by intros (? & ? & ? & [= <- <- <-] & ? & _). }
  set (hit := fun b => h265NalType b =? 33).
  destruct (findSps_spec hit (S (length (h :: h1 :: rest))) (h :: h1 :: rest) 2) as [Hiff Hor];
    [done|lia|unfold zlen; lia|lia|]. change (zdrop 2 (h :: h1 :: rest)) with rest in *.
  assert ((exists h' h1' rest', h :: h1 :: rest = h' :: h1' :: rest' /\ h265NalType h' = 48 /\ empty_unit hit rest')
          <-> empty_unit hit rest) as ->.
  { split; [by intros (? & ? & ? & [= <- <- <-] & _ & ?)|]. by exists h, h1, rest. }
  rewrite <- Hiff. destruct Hor as [He|(u & Eu & Hu)].
  - rewrite (proj2 Hiff He). by split.
  - rewrite Eu. cbn [res_bind]. destruct (Hsz u) as [sz ->]; [destruct Hu as [->|[? _]]; [constructor|done]|].
    by split.
Qed.

(** Where the key frame test finds a parameter set, the loop of the extraction
    does not come to an empty unit first: the test gives up at one. *)
Lemma sps_ahead_no_empty l : bytes l -> sps_ahead 0 l -> ~ empty_unit isSps l.
Proof.
  intros Hb Hs. revert Hb.
  assert (forall u rest : list Z, ztake (zlen u) (u ++ rest) = u /\ zdrop (zlen u) (u ++ rest) = rest) as Hsp.
  { intros u rest. unfold ztake, zdrop, zlen. rewrite take_app_length', drop_app_length' by lia. done. }
  induction Hs as [b0 b1 u rest Hl Hh|b0 b1 u rest Hl Ho Hh Hs IH]; intros Hb He;
    apply Forall_cons in Hb as [H0 Hb]; apply Forall_cons in Hb as [H1 Hb];
    apply Forall_app in Hb as [_ Hb]; (apply empty_unit_inv in He; [|done|done]);
    cbv zeta in He; rewrite <- Hl in He; destruct (Hsp u rest) as [E1 E2]; rewrite E1, E2 in He.
  - destruct He as [E|(_ & ? & _)]; [|congruence]. destruct u; [done|]. rewrite zlen_cons in E. pose proof (zlen_nonneg u). lia.
  - destruct He as [E|(_ & _ & ?)]; [unfold zlen in E; lia|by apply IH].
Qed.

Lemma stripStartCode_header b nal : Z.land b 0x1F = 7 -> stripStartCode (b :: nal) <> [].
Proof. intros Hb. rewrite stripStartCode_id; [done|]. by intros ->. Qed.

(** On a packet that [IsH264KeyFrame] lets through, [ExtractH264VideoSize]
    returns a size for every payload but those of the two multi-time
    aggregations: the guard makes up for the missing checks of the
    extraction. *)
Theorem ExtractH264VideoSize_guarded payload : bytes payload -> IsH264KeyFrame payload = Ok true ->
  (forall h rest, payload = h :: rest -> Z.land h 0x1F <> 26 /\ Z.land h 0x1F <> 27) ->
  exists sz, ExtractH264VideoSize payload = Ok sz.
Proof.
  intros Hb Hk Ht. destruct (IsH264KeyFrame_spec payload Hb) as (b & Eb & Hiff).
  rewrite Hk in Eb. injection Eb as <-. pose proof (proj1 Hiff eq_refl) as Hkey. clear Hk Hiff.
  destruct payload as [|h rest]; [done|]. destruct (Ht h rest eq_refl) as [H26 H27]. clear Ht.
  unfold h264_key in Hkey. unfold ExtractH264VideoSize. rewrite zlen_cons. pose proof (zlen_nonneg rest).
  rewrite (proj2 (Z.ltb_ge _ 1)) by lia.
  change (load panicked (h :: rest) 0) with (Ok h : res stop Z). cbn [res_bind].
  set (t := Z.land h 31) in *.
  assert (forall b nal, bytes (b :: nal) -> isSps b = true -> exists sz, sizeOf (parseH264SPS (b :: nal)) = Ok sz) as Hsz.
  { intros b nal Hn Hs. apply sizeOf_ok, parseH264SPS_safe; [done|]. by apply stripStartCode_header, Z.eqb_eq. }
  assert (forall i, 0 <= i -> sps_ahead 0 (zdrop i (h :: rest)) -> exists sz, (let! nalu := findSps isSps
    (S (length (h :: rest))) (h :: rest) i in if zlen nalu >? 0 then sizeOf (parseH264SPS nalu) else Ok noSize) = Ok sz) as Hagg.
  { intros i Hi Hs. destruct (findSps_spec isSps (S (length (h :: rest))) (h :: rest) i) as [_ Hor];
      [done|lia|unfold zlen; lia|lia|].
    destruct Hor as [He|(u & -> & Hu)].
    { destruct (sps_ahead_no_empty _ (Forall_drop _ _ _ Hb) Hs He). }
    cbn [res_bind]. case_if; [|by eexists]. destruct Hu as [->|[Hub Hu]]; [done|].
    destruct u as [|b u]; [done|]. by apply Hsz. }
  destruct (Z.eqb_spec t 7) as [E7|_]; [apply Hsz; [done|by apply Z.eqb_eq]|].
  destruct (Z.eqb_spec t 24) as [E|_]; [rewrite E in *; by apply (Hagg 1)|].
  rewrite (proj2 (Z.eqb_neq t 26)), (proj2 (Z.eqb_neq t 27)) in * by done. cbn [orb] in *.
  destruct (Z.eqb_spec t 25) as [E|_]; [rewrite E in *; by apply (Hagg 3)|]. cbn [orb] in *.
  destruct (Z.eqb_spec t 28); [|by eexists]. destruct rest as [|fu rest]; [done|].
  rewrite zlen_cons. pose proof (zlen_nonneg rest). rewrite (proj2 (Z.ltb_ge _ 2)) by lia.
  change (load panicked (h :: fu :: rest) 1) with (Ok fu : res stop Z). cbn [res_bind].
  apply andb_true_iff in Hkey as [Hst Hsps]. apply negb_true_iff in Hst. rewrite Hst.
  apply Forall_cons in Hb as [Hh Hb]. apply Forall_cons in Hb as [Hfu Hb].
  change (zdrop 2 (h :: fu :: rest)) with rest. unfold isSps in Hsps. apply Z.eqb_eq in Hsps. rewrite Hsps.
  pose proof (zseq_all 256 (fun h => (0 <=? Z.lor (Z.land h 0xE0) 7) && (Z.lor (Z.land h 0xE0) 7 <? 256) &&
    isSps (Z.lor (Z.land h 0xE0) 7)) eq_refl h Hh) as Hq. cbv beta in Hq. bool_prop.
  apply Hsz; [|done]. constructor; [unfold byte; lia|done].
Qed.

(** ** The size that arrives *)

(** The packet carries the NAL unit [nal]: alone, or as the first SPS among the
    units of an aggregation. *)
Definition h265_carries (nal payload : list Z) : Prop :=
  payload = nal \/
  exists h h1 us, payload = h :: h1 :: framed us /\ byte h /\ byte h1 /\ h265NalType h = 48 /\
    Forall (unit_ok 0) us /\ firstHit (fun b => h265NalType b =? 33) us = nal.

Lemma escape_bytes data : bytes data -> forall z, bytes (escape z data).
Proof.
  induction 1 as [|b data Hb _ IH]; intros z; [constructor|]. cbn [escape].
  case_if; repeat (constructor; [unfold byte in *; lia|]); apply IH.
Qed.

Lemma zlen_escape data : forall z, zlen data <= zlen (escape z data).
Proof.
  induction data as [|b data IH]; intros z; [done|]. cbn [escape].
  pose proof (IH (if b =? 0 then 1%nat else 0%nat)). pose proof (IH (if b =? 0 then S z else 0%nat)).
  case_if; rewrite !zlen_cons; lia.
Qed.

(** The picture size that an encoder wrote into the sequence parameter set
    of an H.265 packet, single or aggregated, is the size that
    [ExtractH265VideoSize] reports. *)
Theorem ExtractH265VideoSize_size s data rest payload : h265_wf s -> bytes data ->
  bits_of_bytes data = h265_bits s ++ rest -> 2 <= zlen data -> h265_carries (escape 0 data) payload ->
  ExtractH265VideoSize payload =
  Ok (mkVideoSize (DisplayWidth (h265_info s)) (DisplayHeight (h265_info s))).
Proof.
  intros W Hb E H2 Hc. destruct (h265_header s rest data W Hb E) as (b & data' & -> & Hty & Hb0).
  pose proof (parseH265SPS_roundtrip s [] (b :: data') rest W (or_introl eq_refl) Hb E) as Hp.
  assert (forall sz, 0 <= DisplayWidth (h265_info s) < 2 ^ 32 /\ 0 <= DisplayHeight (h265_info s) < 2 ^ 32 ->
    sizeOf (Ok (h265_info s)) = Ok sz ->
    sz = mkVideoSize (DisplayWidth (h265_info s)) (DisplayHeight (h265_info s))) as Hsz.
  { intros sz Hr [= <-]. unfold u32. by rewrite !Z.mod_small by lia. }
  assert (0 <= DisplayWidth (h265_info s) < 2 ^ 32 /\ 0 <= DisplayHeight (h265_info s) < 2 ^ 32) as Hr.
  { destruct (hw_codes s W) as (_ & _ & Hw & Hh). pose proof (hw_window s W) as Hwin. unfold h265_info, window_size, size_code in *.
    assert (forall c, 1 <= getSubWidthC c <= 2 /\ 1 <= getSubHeightC c <= 2) as Hu
      by (intros c; unfold getSubWidthC, getSubHeightC; split; case_if; lia). destruct (Hu (h_chroma s)).
    destruct (h_window s) as [[[[l r] t] bt]|]; cbn [default from_option id DisplayWidth DisplayHeight]; [|lia].
    cbn [window_ok] in Hwin. unfold size_code in Hwin. split; split; try lia; apply Z.max_lub_lt; nia. }
  specialize (Hsz _ Hr eq_refl). cbn [app] in Hp.
  set (nal := escape 0 (b :: data')) in *.
  assert (nal = b :: escape (if b =? 0 then 1 else 0) data') as En by reflexivity. unfold ExtractH265VideoSize.
  destruct Hc as [->|(h & h1 & us & -> & Hh & Hh1 & Hty' & Hus & Hf)].
  - rewrite En, zlen_cons. pose proof (zlen_nonneg (escape (if b =? 0 then 1 else 0) data')) as Hnn.
    assert (1 <= zlen (escape (if b =? 0 then 1 else 0) data')).
    { rewrite zlen_cons in H2. pose proof (zlen_escape data' (if b =? 0 then 1%nat else 0%nat)). lia. }
    rewrite (proj2 (Z.ltb_ge _ 2)) by lia.
    change (load panicked (b :: ?l) 0) with (Ok b : res stop Z). cbn [res_bind]. rewrite Hty. cbn [Z.eqb Pos.eqb res_bind].
    rewrite <- En, Hp, En, zlen_cons.
    assert (1 + zlen (escape (if b =? 0 then 1 else 0) data') >? 0 = true) as -> by (rewrite Z.gtb_ltb; lia).
    cbn [sizeOf]. by f_equal.
  - rewrite !zlen_cons. pose proof (zlen_nonneg (framed us)). rewrite (proj2 (Z.ltb_ge _ 2)) by lia.
    change (load panicked (h :: ?l) 0) with (Ok h : res stop Z). cbn [res_bind]. rewrite Hty'. cbn [Z.eqb Pos.eqb].
    rewrite (findSps_framed _ us Hus) by first [done | lia | unfold zlen; cbn [length]; lia |
      do 2 (constructor; [done|]); by eapply framed_bytes].
    rewrite Hf. cbn [res_bind]. rewrite Hp, En, zlen_cons.
    pose proof (zlen_nonneg (escape (if b =? 0 then 1 else 0) data')).
    assert (1 + zlen (escape (if b =? 0 then 1 else 0) data') >? 0 = true) as -> by (rewrite Z.gtb_ltb; lia).
    cbn [sizeOf]. by f_equal.
Qed.
