(* ===== verification/H26xExamples.v ===== *)
(** * Parameter sets: runs

    Concrete packets: witnesses of the theorems of [H26xSpec], and inputs on
    which the extraction of the picture size panics, wraps around or reads past
    the syntax. *)

From S2P Require Import Prelude DdBits.
From S2P Require Import KeyFrames H26x H26xSpec.

#[local] Abbreviation zeros n := (repeat false n%nat).

(** A 1920x1080 main profile SPS with one sub-layer. *)
Definition sps265 : h265_sps :=
  mkH265 (zeros 6) [false; false; true] (zeros 4) true (zeros 8) (zeros 32) (zeros 16) (zeros 32) (zeros 8)
    [(None, Some (zeros 8))] (zeros 14) 0 1 false 1920 1088 (Some (0, 0, 0, 4)).

Definition sps265_bytes : list Z :=
  [66; 1; 3; 0; 0; 0; 0; 0; 0; 0; 0; 0; 0; 0; 0; 64; 0; 0; 160; 3; 192; 128; 17; 7; 202].

Lemma sps265_wf : h265_wf sps265.
Proof.
  constructor; try reflexivity; cbn; unfold size_code; try lia.
  split; [reflexivity|]. by repeat constructor.
Qed.

(** Behind a video parameter set in an aggregation packet; the emulation
    prevention adds eight bytes. *)
Lemma ExtractH265VideoSize_size_witness :
  ExtractH265VideoSize (0x60 :: 1 :: framed [[0x40; 1; 12]; escape 0 sps265_bytes]) = Ok (mkVideoSize 1920 1080).
Proof.
  assert (bytes sps265_bytes) as Hb by (by apply bytes_forallb).
  assert (bytes (escape 0 sps265_bytes)) as He by (by apply bytes_forallb).
  assert (h265_carries (escape 0 sps265_bytes) (0x60 :: 1 :: framed [[0x40; 1; 12]; escape 0 sps265_bytes])) as Hc.
  { right. exists 0x60, 1, [[0x40; 1; 12]; escape 0 sps265_bytes].
    split_and!; [reflexivity|unfold byte; lia|unfold byte; lia|reflexivity| |vm_compute; reflexivity].
    repeat (constructor; [split; [by apply bytes_forallb|vm_compute; split; reflexivity]|]). constructor. }
  exact (ExtractH265VideoSize_size sps265 sps265_bytes [false] _ sps265_wf Hb
    ltac:(vm_compute; reflexivity) ltac:(vm_compute; discriminate) Hc).
Defined.

(** A 1280x720 high profile SPS coded in fields, with cropping. *)
Definition sps264 : h264_sps :=
  mkH264 100 (zeros 8) (zeros 8) 0 1 false 0 0 false 0 (Poc1 false (-2) 3 [1; -1]) 4 false 79 22 false true true
    (Some (0, 0, 0, 4)).

Definition sps264_bytes : list Z := [100; 0; 0; 172; 161; 76; 211; 40; 10; 1; 119; 229].

Lemma sps264_wf : h264_wf sps264.
Proof.
  constructor; cbn; try reflexivity; unfold size_code; try lia.
  - repeat (apply Forall_cons_2; [lia|]). apply Forall_nil_2.
  - split; [|vm_compute; split; [discriminate|reflexivity]]. repeat (apply Forall_cons_2; [lia|]). apply Forall_nil_2.
  - vm_compute. split; discriminate.
Qed.

Lemma parseH264SPS_roundtrip_witness :
  parseH264SPS ([0; 0; 1] ++ 0x67 :: escape 0 sps264_bytes) = Ok (h264_info sps264) /\
  DisplayWidth (h264_info sps264) = 1280 /\ DisplayHeight (h264_info sps264) = 720.
Proof.
  split; [|split; reflexivity].
  exact (parseH264SPS_roundtrip sps264 [0; 0; 1] 0x67 sps264_bytes [] sps264_wf
    (or_intror (or_introl eq_refl)) eq_refl (bytes_forallb sps264_bytes eq_refl) ltac:(vm_compute; reflexivity)).
Defined.

(** The same SPS in a STAP-A behind a delimiter. *)
Lemma ExtractH264VideoSize_guarded_witness :
  IsH264KeyFrame (0x18 :: framed [[9; 16]; 0x67 :: sps264_bytes]) = Ok true /\
  exists sz, ExtractH264VideoSize (0x18 :: framed [[9; 16]; 0x67 :: sps264_bytes]) = Ok sz.
Proof.
  assert (IsH264KeyFrame (0x18 :: framed [[9; 16]; 0x67 :: sps264_bytes]) = Ok true) as Hk by reflexivity.
  split; [exact Hk|].
  assert (bytes (0x18 :: framed [[9; 16]; 0x67 :: sps264_bytes])) as Hb by (apply bytes_forallb; reflexivity).
  apply (ExtractH264VideoSize_guarded _ Hb Hk).
  intros h rest [= <- _]. split; discriminate.
Defined.

(** The packet that stops the server: the key frame test accepts it, the
    extraction reads the first byte of its empty unit. *)
Definition h265_empty_unit : list Z := [0x60; 1; 0; 0; 0x42].

Lemma ExtractH265VideoSize_panics_iff_witness :
  IsH265KeyFrame h265_empty_unit = Ok true /\ ExtractH265VideoSize h265_empty_unit = Err panicked.
Proof.
  assert (bytes h265_empty_unit) as Hb by (apply bytes_forallb; reflexivity). split; [reflexivity|].
  apply (proj2 (ExtractH265VideoSize_panics_iff h265_empty_unit Hb)).
  exists 0x60, 1, [0; 0; 0x42]. split_and!; [reflexivity..|constructor].
Defined.

(** In an MTAP16 the test skips two bytes in front of the first size, the
    extraction three: behind the test's only unit, of 256 bytes with an SPS, the
    extraction finds a size of zero. *)
Definition mtap16 : list Z := [26; 0; 0; 1; 0; 0; 0; 0; 7] ++ repeat 0 252%nat.

Lemma h264_multi_time_panics :
  IsH264KeyFrame mtap16 = Ok true /\ ExtractH264VideoSize mtap16 = Err panicked.
Proof. split; vm_compute; reflexivity. Qed.

(** Without the test in front, a fragment whose header and start give a bare
    start code panics as well. *)
Lemma h264_bare_start_code_panics :
  IsH264KeyFrame [0x1C; 0x80; 0; 1] = Ok false /\ ExtractH264VideoSize [0x1C; 0x80; 0; 1] = Err panicked.
Proof. split; vm_compute; reflexivity. Qed.

(** A window larger than the picture: H.265 answers zero, H.264 wraps around
    ([pic_width] is 16 here and the window 40 wide). *)
Definition small264 : h264_sps :=
  mkH264 66 (zeros 8) (zeros 8) 0 1 false 0 0 false 0 (Poc0 0) 1 false 0 0 true false false (Some (20, 0, 0, 0)).

Lemma h264_window_wraps :
  bits_of_bytes [66; 0; 0; 244; 232; 87; 128] = h264_bits small264 ++ zeros 7 /\
  snd (h264Fields (NewBitReader [66; 0; 0; 244; 232; 87; 128])) =
  Ok (mkSPSInfo 1 16 16 true 20 0 0 0 16 16 (2 ^ 64 - 24) 16) /\
  cropped 16 20 0 2 = 0.
Proof. split_and!; vm_compute; reflexivity. Qed.

(** A scaling matrix is not skipped: of a list only its flag is read, and the
    rest of the SPS is read from within the list.  Here is a 1280x720 SPS with
    one flat list (sixteen times [se(0)]), which comes out as 16x16. *)
Definition scaled264 : list bool :=
  bits_of 8 100 ++ zeros 8 ++ zeros 8 ++ ue_bits 0 ++ ue_bits 1 ++ ue_bits 0 ++ ue_bits 0 ++ [false] ++ [true] ++
  ([true] ++ mjoin (se_bits <$> repeat 0 16%nat) ++ zeros 7) ++
  ue_bits 0 ++ ue_bits 0 ++ ue_bits 0 ++ ue_bits 4 ++ [false] ++ ue_bits 79 ++ ue_bits 44 ++ [true] ++ [true] ++ [false].

Lemma h264_scaling_list_misread :
  bits_of_bytes [100; 0; 0; 173; 255; 255; 128; 229; 1; 64; 22; 224] = scaled264 ++ zeros 4 /\
  exists info, parseH264SPS [0x67; 100; 0; 0; 173; 255; 255; 128; 229; 1; 64; 22; 224] = Ok info /\
    DisplayWidth info = 16 /\ DisplayHeight info = 16.
Proof. split; [vm_compute; reflexivity|]. eexists. split; [vm_compute; reflexivity|]. by split. Qed.

(** The loop over the reference frame offsets runs as often as the packet says.
    Behind the end of the data a round changes nothing, and sixteen bytes are
    enough for a count of 2^63 - 1. *)
Lemma skipSE_idle n br : bok br -> left br = 0 -> skipSE n br = (br, Ok tt).
Proof.
  intros Hb Hl. induction n as [|n IH]; [done|]. cbn [skipSE].
  assert (orZero 0 ReadSE br = (br, Ok 0)) as E; [|by rewrite (mbind_eq _ _ _ _ _ E)].
  unfold orZero, ReadSE, ReadUE, mget, mbind. rewrite Hl. cbn [Z.to_nat leadingZeros].
  unfold mbind, H26x.ReadBits, mget, mbind. by rewrite Hl.
Qed.

Lemma h264_count_unbounded :
  snd (ReadUE (NewBitReader ([0; 0; 0; 0; 0; 0; 0; 1] ++ repeat 0 8%nat))) = Ok (2 ^ 63 - 1) /\
  left (fst (ReadUE (NewBitReader ([0; 0; 0; 0; 0; 0; 0; 1] ++ repeat 0 8%nat)))) = 1.
Proof. split; vm_compute; reflexivity. Qed.
