(* ===== verification/StreamTracker.v ===== *)
(** * Stream trackers

    Models [src/SERVER/pkg/sfu/streamtracker]: [StreamTracker]
    (streamtracker.go) over an implementation that judges the packets seen,
    the interface [StreamTrackerImpl] (interfaces.go) and its implementations
    by packets (streamtracker_packet.go) and by frames (streamtracker_frame.go).

    A tracker is shared by the goroutine that observes packets, the callers
    that pause and reset it and the workers it starts.  Each section under its
    lock is one step here; what a goroutine does between two sections is a step
    of its own: a worker compares the generation before it takes the lock, and
    a status is chosen under the lock and handed to the callback after the lock
    was given back, so that two goroutines may call in either order.  A run of a
    [System] is any interleaving of these steps. *)

From S2P Require Import Prelude DdTypes.
From S2P Require Import Packet Bitrates.

Inductive StreamStatus := StreamStatusStopped | StreamStatusActive.
Inductive StreamStatusChange := StreamStatusChangeNone | StreamStatusChangeStopped | StreamStatusChangeActive.

#[export] Instance StreamStatus_eq_dec : EqDecision StreamStatus.
Proof. solve_decision. Defined.
#[export] Instance StreamStatusChange_eq_dec : EqDecision StreamStatusChange.
Proof. solve_decision. Defined.

(** ** The interface

    [now] is the reading of the clock, in nanoseconds. *)

Class StreamTrackerImpl (I : Type) := {
  implReset : I -> I;
  GetCheckInterval : I -> Z;
  implObserve : Z -> bool -> Z -> I -> I * StreamStatusChange;
  implCheckStatus : Z -> I -> I * StreamStatusChange;
}.

(** What the tracker relies on: an implementation is started by the first packet
    it observes, which it answers with active, and only by that. *)
Class StreamTrackerImplLaws (I : Type) `{StreamTrackerImpl I} := {
  started : I -> bool;
  started_Reset : forall i, started (implReset i) = false;
  started_Observe : forall now marker ts i, started (fst (implObserve now marker ts i)) = true;
  Observe_change : forall now marker ts i, snd (implObserve now marker ts i) =
    if started i then StreamStatusChangeNone else StreamStatusChangeActive;
  started_Check : forall now i, started (fst (implCheckStatus now i)) = started i;
  Check_idle : forall now i, started i = false -> implCheckStatus now i = (i, StreamStatusChangeNone);
}.

(** ** Durations as floating point numbers *)

Definition nsPerSecond : Z := 1000000000.

(** [int64(f)], towards zero; what is out of range gives the smallest value, as
    on amd64. *)
Definition int64_of_float (f : spec_float) : Z :=
  match f with
  | S754_zero _ => 0
  | S754_finite s m e =>
    let t := Z.shiftl (Z.pos m) e in
    let t := if s then - t else t in
    if (-9223372036854775808 <=? t) && (t <=? 9223372036854775807) then t else -9223372036854775808
  | _ => -9223372036854775808
  end.

(** [d.Seconds()] *)
Definition Seconds (d : Z) : spec_float :=
  SFadd 53 1024 (float64_of_int (Z.quot d nsPerSecond))
    (float64_div (float64_of_int (Z.rem d nsPerSecond)) (float64_of_int nsPerSecond)).

(** ** The tracker *)

Section Tracker.
Context {I : Type} `{StreamTrackerImpl I}.

Record StreamTracker := mkStreamTracker {
  impl : I;
  paused : bool;
  generation : Z;
  status : StreamStatus;
  lastNotifiedStatus : StreamStatus;
  lastBitrateReport : Z;
  bytesForBitrate : list Z;
  bitrate : list Z;
  isStopped : bool;
}.
#[global] Instance eta_StreamTracker : Eta StreamTracker := fun s =>
  mkStreamTracker (impl s) (paused s) (generation s) (status s) (lastNotifiedStatus s)
    (lastBitrateReport s) (bytesForBitrate s) (bitrate s) (isStopped s).

(** [buffer.DefaultMaxLayerTemporal + 1] *)
Definition numTemporal : Z := DefaultMaxLayerTemporal + 1.

Definition NewStreamTracker (i : I) : StreamTracker :=
  mkStreamTracker i false 0 StreamStatusStopped StreamStatusStopped 0
    (repeat 0 (Z.to_nat numTemporal)) (repeat 0 (Z.to_nat numTemporal)) false.

Definition setStatusLocked (st : StreamStatus) (s : StreamTracker) : StreamTracker := s <| status := st |>.

(** The locked part: the status to call with, if any. *)
Definition maybeNotifyStatus (s : StreamTracker) : StreamTracker * option StreamStatus :=
  if decide (status s = lastNotifiedStatus s) then (s, None)
  else (s <| lastNotifiedStatus := status s |>, Some (status s)).

Definition bumpGeneration (s : StreamTracker) : StreamTracker := s <| generation := u32 (generation s + 1) |>.

Definition Stop (s : StreamTracker) : StreamTracker :=
  if isStopped s then s else bumpGeneration (s <| isStopped := true |>).

Definition resetLocked (s : StreamTracker) : StreamTracker :=
  let s := setStatusLocked StreamStatusStopped (bumpGeneration s) in
  let s := s <| bytesForBitrate := map (fun _ => 0) (bytesForBitrate s) |> in
  let s := s <| bitrate := map (fun _ => 0) (bitrate s) |> in
  s <| impl := implReset (impl s) |>.

(** The locked part of [Reset], and whether the status is notified behind it. *)
Definition Reset (s : StreamTracker) : StreamTracker * bool :=
  if isStopped s then (s, false) else (resetLocked s, true).

Definition SetPaused (p : bool) (s : StreamTracker) : StreamTracker :=
  let s := s <| paused := p |> in
  if negb p then resetLocked s else setStatusLocked StreamStatusStopped (bumpGeneration s).

(** [s.bytesForBitrate[temporalLayer] += int64(pktSize)], where there is such a
    layer. *)
Definition countBytes (temporalLayer pktSize : Z) (s : StreamTracker) : StreamTracker :=
  if (temporalLayer >=? 0) && (temporalLayer <? zlen (bytesForBitrate s)) then
    s <| bytesForBitrate := zset temporalLayer
           (i64 (default 0 (zlookup (bytesForBitrate s) temporalLayer) + pktSize)) (bytesForBitrate s) |>
  else s.

(** The locked part of [Observe]: whether the status is notified behind it, and
    the generation of a worker to start. *)
Definition Observe (now temporalLayer pktSize payloadSize : Z) (hasMarker : bool) (ts : Z) (s : StreamTracker)
  : StreamTracker * bool * option Z :=
  if isStopped s || paused s || (payloadSize =? 0) then (s, false, None)
  else
    let (i, statusChange) := implObserve now hasMarker ts (impl s) in
    let s := s <| impl := i |> in
    let active := bool_decide (statusChange = StreamStatusChangeActive) in
    let s := if active then (setStatusLocked StreamStatusActive s) <| lastBitrateReport := now |> else s in
    let worker := if active then Some (generation s) else None in
    let s := countBytes temporalLayer pktSize s in
    (s, negb (bool_decide (statusChange = StreamStatusChangeNone)), worker).

(** The locked part of [updateStatus]. *)
Definition updateStatus (now : Z) (s : StreamTracker) : StreamTracker :=
  let (i, change) := implCheckStatus now (impl s) in
  let s := s <| impl := i |> in
  match change with
  | StreamStatusChangeStopped => setStatusLocked StreamStatusStopped s
  | StreamStatusChangeActive => setStatusLocked StreamStatusActive s
  | StreamStatusChangeNone => s
  end.

(** [int64(float64(bytes*8) / diff.Seconds())] *)
Definition rateOf (diff bytes : Z) : Z :=
  int64_of_float (float64_div (float64_of_int (i64 (bytes * 8))) (Seconds diff)).

(** [bitrateReport], and whether the availability callback is made. *)
Definition bitrateReport (now : Z) (s : StreamTracker) : StreamTracker * bool :=
  let diff := now - lastBitrateReport s in
  let s := s <| lastBitrateReport := now |> in
  let rates := map (rateOf diff) (bytesForBitrate s) in
  let changed := existsb (fun ob => let '(old, new) := ob in
      ((old =? 0) && (new >? 0)) || ((old >? 0) && (new =? 0))) (combine (bitrate s) rates) in
  (s <| bitrate := rates |> <| bytesForBitrate := map (fun _ => 0) (bytesForBitrate s) |>, changed).

(** ** Bit rates, accumulated over the temporal layers *)

(** [x += y] on [int64] *)
Definition add64 (x y : Z) : Z := i64 (x + y).

(** [for j := i-1; j >= 0; j-- { brs[i] += brs[j] }] *)
Definition addLower (brs : list Z) (i : Z) : list Z :=
  fold_left (fun brs j => zset i (add64 (default 0 (zlookup brs i)) (default 0 (zlookup brs j))) brs)
    (zdown (i - 1)) brs.

(** [for j := i+1; j < len(brs); j++ { brs[j] = 0 }] *)
Definition clearAbove (brs : list Z) (i : Z) : list Z :=
  fold_left (fun brs j => zset j 0 brs) (zrange (i + 1) (zlen brs - 1)) brs.

Definition cumulate (brs : list Z) : list Z :=
  let brs := fold_left (fun brs i =>
      if negb (default 0 (zlookup brs i) =? 0) then addLower brs i else brs)
      (rev (zrange 1 (zlen brs - 1))) brs in
  fold_left (fun brs i =>
      if default 0 (zlookup brs i) =? 0 then clearAbove brs i else brs)
      (zrange 0 (zlen brs - 1)) brs.

Definition BitrateTemporalCumulative (s : StreamTracker) : list Z := cumulate (bitrate s).

(** ** Goroutines

    A worker waits for a tick or has passed the comparison of generations and
    goes on to its locked section. *)

Inductive tick := TickStatus | TickBitrate.
Record worker := mkWorker { w_generation : Z; w_checked : option tick }.

Record System := mkSystem {
  tracker : StreamTracker;
  workers : list worker;
  pendingNotify : nat;            (** goroutines on their way to [maybeNotifyStatus] *)
  chosen : list StreamStatus;     (** the statuses chosen under the lock, the last first *)
  inFlight : list StreamStatus;   (** those whose callback is still to be made, the oldest first *)
  notified : list StreamStatus;   (** those whose callback was made, the last first *)
}.
#[global] Instance eta_System : Eta System := fun s =>
  mkSystem (tracker s) (workers s) (pendingNotify s) (chosen s) (inFlight s) (notified s).

Inductive event :=
| EvStop
| EvReset
| EvSetPaused (p : bool)
| EvObserve (now temporalLayer pktSize payloadSize : Z) (hasMarker : bool) (ts : Z)
| EvTick (w : nat) (k : tick)     (** a ticker of worker [w] fires *)
| EvWork (w : nat) (now : Z)      (** worker [w] takes the lock *)
| EvNotify                        (** one of the pending notifications takes the lock *)
| EvCallback (c : nat).           (** the goroutine of the [c]-th status in flight calls *)

Definition pend (b : bool) (y : System) : System :=
  if b then y <| pendingNotify := S (pendingNotify y) |> else y.

(** [case <-ticker.C: if generation != s.generation.Load() { return }] *)
Definition workerTick (w : nat) (k : tick) (y : System) : System :=
  match workers y !! w with
  | Some (mkWorker g None) =>
    if negb (g =? generation (tracker y)) then y <| workers := delete w (workers y) |>
    else y <| workers := <[w := mkWorker g (Some k)]> (workers y) |>
  | _ => y
  end.

Definition workerRun (w : nat) (now : Z) (y : System) : System :=
  match workers y !! w with
  | Some (mkWorker g (Some k)) =>
    let y := y <| workers := <[w := mkWorker g None]> (workers y) |> in
    match k with
    | TickStatus => pend true (y <| tracker := updateStatus now (tracker y) |>)
    | TickBitrate => y <| tracker := fst (bitrateReport now (tracker y)) |>
    end
  | _ => y
  end.

Definition step (e : event) (y : System) : System :=
  match e with
  | EvStop => y <| tracker := Stop (tracker y) |>
  | EvReset => let (s, n) := Reset (tracker y) in pend n (y <| tracker := s |>)
  | EvSetPaused p => pend true (y <| tracker := SetPaused p (tracker y) |>)
  | EvObserve now tl sz pl m ts =>
    let '(s, n, w) := Observe now tl sz pl m ts (tracker y) in
    let y := pend n (y <| tracker := s |>) in
    match w with
    | Some g => y <| workers := workers y ++ [mkWorker g None] |>
    | None => y
    end
  | EvTick w k => workerTick w k y
  | EvWork w now => workerRun w now y
  | EvNotify =>
    match pendingNotify y with
    | O => y
    | S n =>
      let (s, cb) := maybeNotifyStatus (tracker y) in
      let y := y <| tracker := s |> <| pendingNotify := n |> in
      match cb with
      | Some st => y <| chosen := st :: chosen y |> <| inFlight := inFlight y ++ [st] |>
      | None => y
      end
    end
  | EvCallback c =>
    match inFlight y !! c with
    | Some st => y <| inFlight := delete c (inFlight y) |> <| notified := st :: notified y |>
    | None => y
    end
  end.

Definition NewSystem (i : I) : System := mkSystem (NewStreamTracker i) [] 0 [] [] [].

Fixpoint run (es : list event) (y : System) : System :=
  match es with
  | [] => y
  | e :: es => run es (step e y)
  end.

End Tracker.

(** ** By packets *)

Record StreamTrackerPacketConfig := mkPacketConfig {
  SamplesRequired : Z;
  CyclesRequired : Z;
  CycleDuration : Z;
}.

Record StreamTrackerPacket := mkTrackerPacket {
  p_config : StreamTrackerPacketConfig;
  countSinceLast : Z;
  p_initialized : bool;
  cycleCount : Z;
}.
#[export] Instance eta_StreamTrackerPacket : Eta StreamTrackerPacket := fun s =>
  mkTrackerPacket (p_config s) (countSinceLast s) (p_initialized s) (cycleCount s).

Definition NewStreamTrackerPacket (c : StreamTrackerPacketConfig) : StreamTrackerPacket :=
  mkTrackerPacket c 0 false 0.

Definition PacketReset (s : StreamTrackerPacket) : StreamTrackerPacket :=
  s <| countSinceLast := 0 |> <| cycleCount := 0 |> <| p_initialized := false |>.

Definition PacketObserve (s : StreamTrackerPacket) : StreamTrackerPacket * StreamStatusChange :=
  if negb (p_initialized s) then
    (s <| p_initialized := true |> <| countSinceLast := 1 |>, StreamStatusChangeActive)
  else (s <| countSinceLast := u32 (countSinceLast s + 1) |>, StreamStatusChangeNone).

Definition PacketCheckStatus (s : StreamTrackerPacket) : StreamTrackerPacket * StreamStatusChange :=
  if negb (p_initialized s) then (s, StreamStatusChangeNone)
  else
    let s := if countSinceLast s >=? SamplesRequired (p_config s)
             then s <| cycleCount := u32 (cycleCount s + 1) |>
             else s <| cycleCount := 0 |> in
    let statusChange :=
      if cycleCount s =? 0 then StreamStatusChangeStopped
      else if cycleCount s >=? CyclesRequired (p_config s) then StreamStatusChangeActive
      else StreamStatusChangeNone in
    (s <| countSinceLast := 0 |>, statusChange).

#[export] Instance impl_packet : StreamTrackerImpl StreamTrackerPacket := {
  implReset := PacketReset;
  GetCheckInterval s := CycleDuration (p_config s);
  implObserve _ _ _ s := PacketObserve s;
  implCheckStatus _ s := PacketCheckStatus s;
}.

(** ** By frames *)

(** The constants of streamtracker_frame.go: 0.98, 0.01, 0.6 and 0.9 to the
    nearest [float64]. *)
Definition float64_ratio (n d : Z) : spec_float := float64_div (float64_of_int n) (float64_of_int d).
Definition checkInterval : Z := 500000000.
Definition statusCheckTolerance : spec_float := float64_ratio 98 100.
Definition frameRateResolution : spec_float := float64_ratio 1 100.
Definition frameRateIncreaseFactor : spec_float := float64_ratio 6 10.
Definition frameRateDecreaseFactor : spec_float := float64_ratio 9 10.

#[local] Abbreviation float_mul := (SFmul 53 1024).
#[local] Abbreviation float_add := (SFadd 53 1024).
#[local] Abbreviation float_sub := (SFsub 53 1024).

(** [math.Round]: to the nearest integer, halves away from zero. *)
Definition math_Round (f : spec_float) : spec_float :=
  match f with
  | S754_finite s m e =>
    if e >=? 0 then f
    else
      let r := Z.shiftr (Z.pos m + Z.shiftl 1 (- e - 1)) (- e) in
      if r =? 0 then S754_zero s else binary_normalize 53 1024 (if s then - r else r) 0 s
  | _ => f
  end.

Definition roundFrameRate (frameRate : spec_float) : spec_float :=
  float_mul (math_Round (float64_div frameRate frameRateResolution)) frameRateResolution.

Record StreamTrackerFrame := mkTrackerFrame {
  MinFPS : spec_float;
  f_ClockRate : Z;
  f_initialized : bool;
  tsInitialized : bool;
  oldestTS : Z;
  newestTS : Z;
  numFrames : Z;
  estimatedFrameRate : spec_float;
  evalInterval : Z;
  lastStatusCheckAt : option Z;   (** [None] is the zero time *)
}.
#[export] Instance eta_StreamTrackerFrame : Eta StreamTrackerFrame := fun s =>
  mkTrackerFrame (MinFPS s) (f_ClockRate s) (f_initialized s) (tsInitialized s) (oldestTS s) (newestTS s)
    (numFrames s) (estimatedFrameRate s) (evalInterval s) (lastStatusCheckAt s).

#[local] Abbreviation float_zero := (S754_zero false).

(** [time.Duration(float64(time.Second) / fps)] *)
Definition frameInterval (fps : spec_float) : Z :=
  int64_of_float (float64_div (float64_of_int nsPerSecond) fps).

(** The interval of a positive frame rate, where it is the longer one. *)
Definition lengthen (fps : spec_float) (s : StreamTrackerFrame) : StreamTrackerFrame :=
  if SFltb float_zero fps && (frameInterval fps >? evalInterval s)
  then s <| evalInterval := frameInterval fps |> else s.

Definition updateEvalInterval (s : StreamTrackerFrame) : StreamTrackerFrame :=
  let s := s <| evalInterval := checkInterval |> in
  let s := lengthen (estimatedFrameRate s) s in
  lengthen (MinFPS s) s.

Definition resetFPSCalculator (s : StreamTrackerFrame) : StreamTrackerFrame :=
  let s := s <| tsInitialized := false |> <| oldestTS := 0 |> <| newestTS := 0 |> <| numFrames := 0 |> in
  updateEvalInterval (s <| estimatedFrameRate := float_zero |>).

Definition FrameReset (s : StreamTrackerFrame) : StreamTrackerFrame :=
  (resetFPSCalculator (s <| f_initialized := false |>)) <| lastStatusCheckAt := None |>.

Definition NewStreamTrackerFrame (minFPS : spec_float) (clockRate : Z) : StreamTrackerFrame :=
  FrameReset (mkTrackerFrame minFPS clockRate false false 0 0 0 float_zero 0 None).

(** [if hasMarker { .. }] *)
Definition countFrame (ts : Z) (s : StreamTrackerFrame) : StreamTrackerFrame :=
  if negb (tsInitialized s) then
    s <| tsInitialized := true |> <| oldestTS := ts |> <| newestTS := ts |> <| numFrames := 1 |>
  else
    let s := if u32 (ts - oldestTS s) >? 2147483648 then s <| oldestTS := ts |> else s in
    let s := if u32 (ts - newestTS s) <? 2147483648 then s <| newestTS := ts |> else s in
    s <| numFrames := i64 (numFrames s + 1) |>.

Definition FrameObserve (now : Z) (hasMarker : bool) (ts : Z) (s : StreamTrackerFrame)
  : StreamTrackerFrame * StreamStatusChange :=
  let s := if hasMarker then countFrame ts s else s in
  if negb (f_initialized s) then
    (s <| f_initialized := true |> <| lastStatusCheckAt := Some now |>, StreamStatusChangeActive)
  else (s, StreamStatusChangeNone).

(** All readings of the clock in one call are the same here. *)
Definition updateStatusCheckTime (now : Z) (s : StreamTrackerFrame) : StreamTrackerFrame * bool :=
  let s := match lastStatusCheckAt s with None => s <| lastStatusCheckAt := Some now |> | Some _ => s end in
  let since := now - default 0 (lastStatusCheckAt s) in
  if since <? int64_of_float (float_mul statusCheckTolerance (float64_of_int (evalInterval s))) then (s, false)
  else (s <| lastStatusCheckAt := Some now |>, true).

Definition updateEstimatedFrameRate (s : StreamTrackerFrame) : StreamTrackerFrame * spec_float :=
  let diff := u32 (newestTS s - oldestTS s) in
  if (diff =? 0) || (numFrames s <? 2) then (s, float_zero)
  else
    let frameRate := roundFrameRate (float_mul
      (float64_div (float64_of_int (f_ClockRate s)) (float64_of_int diff)) (float64_of_int (numFrames s - 1))) in
    let s := s <| oldestTS := newestTS s |> <| numFrames := 1 |> in
    let factor :=
      if SFltb (estimatedFrameRate s) frameRate then frameRateIncreaseFactor
      else if SFltb frameRate (estimatedFrameRate s) then frameRateDecreaseFactor
      else float64_of_int 1 in
    let estimated := roundFrameRate (float_add (float_mul frameRate factor)
      (float_mul (estimatedFrameRate s) (float_sub (float64_of_int 1) factor))) in
    let s := if negb (SFeqb (estimatedFrameRate s) estimated)
             then updateEvalInterval (s <| estimatedFrameRate := estimated |>) else s in
    (s, frameRate).

Definition FrameCheckStatus (now : Z) (s : StreamTrackerFrame) : StreamTrackerFrame * StreamStatusChange :=
  if negb (f_initialized s) then (s, StreamStatusChangeNone)
  else
    let (s, due) := updateStatusCheckTime now s in
    if negb due then (s, StreamStatusChangeNone)
    else
      let (s, frameRate) := updateEstimatedFrameRate s in
      if SFeqb frameRate float_zero then (resetFPSCalculator s, StreamStatusChangeStopped)
      else (s, StreamStatusChangeActive).

#[export] Instance impl_frame : StreamTrackerImpl StreamTrackerFrame := {
  implReset := FrameReset;
  GetCheckInterval _ := checkInterval;
  implObserve := FrameObserve;
  implCheckStatus := FrameCheckStatus;
}.

(** * Proofs *)

(** ** The interface is implemented *)

#[export] Instance impl_packet_laws : StreamTrackerImplLaws StreamTrackerPacket.
Proof.
  refine {| started := p_initialized |}.
  - done.
  - intros now m ts i. cbn. unfold PacketObserve. by destruct (p_initialized i) eqn:E; cbn.
  - intros now m ts i. cbn. unfold PacketObserve. by destruct (p_initialized i).
  - intros now i. cbn. unfold PacketCheckStatus. destruct (p_initialized i) eqn:E; cbn; [|done].
    case_if; done.
  - intros now i E. cbn. unfold PacketCheckStatus. by rewrite E.
Defined.

Lemma lengthen_initialized fps s : f_initialized (lengthen fps s) = f_initialized s.
Proof. unfold lengthen. by destruct (_ && _). Qed.

Lemma updateEvalInterval_initialized s : f_initialized (updateEvalInterval s) = f_initialized s.
Proof. unfold updateEvalInterval. by rewrite !lengthen_initialized. Qed.

Lemma countFrame_initialized ts s : f_initialized (countFrame ts s) = f_initialized s.
Proof. unfold countFrame. destruct (negb _); [done|]. cbv zeta. by repeat case_if. Qed.

Lemma resetFPSCalculator_initialized s : f_initialized (resetFPSCalculator s) = f_initialized s.
Proof. unfold resetFPSCalculator. by rewrite updateEvalInterval_initialized. Qed.

Lemma updateStatusCheckTime_initialized now s : f_initialized (fst (updateStatusCheckTime now s)) = f_initialized s.
Proof. unfold updateStatusCheckTime. destruct (lastStatusCheckAt s); cbv zeta; by destruct (_ <? _). Qed.

Lemma updateEstimatedFrameRate_initialized s : f_initialized (fst (updateEstimatedFrameRate s)) = f_initialized s.
Proof.
  unfold updateEstimatedFrameRate. case_if; [done|]. cbv zeta. cbn [fst].
  match goal with |- f_initialized (if ?b then _ else _) = _ => destruct b; [|done] end.
  by rewrite updateEvalInterval_initialized.
Qed.

#[export] Instance impl_frame_laws : StreamTrackerImplLaws StreamTrackerFrame.
Proof.
  refine {| started := f_initialized |}.
  - intros i. cbn. unfold FrameReset. cbn [f_initialized field_upd]. by rewrite resetFPSCalculator_initialized.
  - intros now m ts i. cbn. unfold FrameObserve.
    set (s := if m then _ else _). clearbody s. by destruct (f_initialized s) eqn:E.
  - intros now m ts i. cbn. unfold FrameObserve.
    assert (f_initialized (if m then countFrame ts i else i) = f_initialized i) as ->
      by (destruct m; [apply countFrame_initialized|done]).
    by destruct (f_initialized i).
  - intros now i. cbn. unfold FrameCheckStatus. case_if; [done|].
    pose proof (updateStatusCheckTime_initialized now i) as H1. destruct (updateStatusCheckTime now i) as [s1 due].
    case_if; [done|]. pose proof (updateEstimatedFrameRate_initialized s1) as H2.
    destruct (updateEstimatedFrameRate s1) as [s2 fr]. cbn [fst] in *.
    case_if; cbn [fst]; [rewrite resetFPSCalculator_initialized|]; congruence.
  - intros now i E. cbn. unfold FrameCheckStatus. by rewrite E.
Defined.

(** ** Notifications *)

Section TrackerProofs.
Context {I : Type} `{IL : StreamTrackerImplLaws I}.

Implicit Types (s : @StreamTracker I) (y : @System I).

(** Newest first; before the first one stands for the status of a new tracker. *)
Fixpoint alternating (l : list StreamStatus) : Prop :=
  match l with
  | [] => True
  | x :: l => x <> hd StreamStatusStopped l /\ alternating l
  end.

Record notify_inv y : Prop := {
  ni_pending : status (tracker y) <> lastNotifiedStatus (tracker y) -> (0 < pendingNotify y)%nat;
  ni_last : lastNotifiedStatus (tracker y) = hd StreamStatusStopped (chosen y);
  ni_alternating : alternating (chosen y);
  ni_once : notified y ++ inFlight y ≡ₚ chosen y;
}.

Lemma updateStatus_last now s : lastNotifiedStatus (updateStatus now s) = lastNotifiedStatus s.
Proof. unfold updateStatus. destruct (implCheckStatus now (impl s)) as [i []]; done. Qed.

Lemma SetPaused_last p s : lastNotifiedStatus (SetPaused p s) = lastNotifiedStatus s.
Proof. by destruct p. Qed.

Lemma countBytes_fields tl sz s :
  impl (countBytes tl sz s) = impl s /\ paused (countBytes tl sz s) = paused s /\
  generation (countBytes tl sz s) = generation s /\ status (countBytes tl sz s) = status s /\
  lastNotifiedStatus (countBytes tl sz s) = lastNotifiedStatus s /\ isStopped (countBytes tl sz s) = isStopped s.
Proof. unfold countBytes. by destruct (_ && _). Qed.

Lemma Observe_status now tl sz pl m ts s : let '(s', n, w) := Observe now tl sz pl m ts s in
  lastNotifiedStatus s' = lastNotifiedStatus s /\ (n = false -> status s' = status s).
Proof.
  unfold Observe. case_if; [done|]. pose proof (Observe_change now m ts (impl s)) as Hc.
  destruct (implObserve now m ts (impl s)) as [i ch]. cbn [snd] in Hc. rewrite Hc.
  match goal with |- context [countBytes tl sz ?x] => pose proof (countBytes_fields tl sz x) as Hf end.
  destruct (started (impl s)); cbn in *; naive_solver.
Qed.

Lemma pend_tracker b y : tracker (pend b y) = tracker y.
Proof. by destruct b. Qed.
Lemma pend_workers b y : workers (pend b y) = workers y.
Proof. by destruct b. Qed.
Lemma pend_pending b y : pendingNotify (pend b y) = if b then S (pendingNotify y) else pendingNotify y.
Proof. by destruct b. Qed.

(** A step that notifies nothing itself, and announces a notification when it
    changes the status. *)
Lemma notify_inv_quiet y y' : notify_inv y ->
  lastNotifiedStatus (tracker y') = lastNotifiedStatus (tracker y) ->
  (chosen y', inFlight y', notified y') = (chosen y, inFlight y, notified y) ->
  ((0 < pendingNotify y')%nat \/ pendingNotify y' = pendingNotify y /\ status (tracker y') = status (tracker y)) ->
  notify_inv y'.
Proof.
  intros [H1 H2 H3 H4] E1 [= E2 E3 E4] Hp. constructor; rewrite ?E2, ?E3, ?E4; [|congruence|done|done].
  destruct Hp as [Hp|[-> ->]]; [done|]. by rewrite E1.
Qed.

Lemma step_notify e y : notify_inv y -> notify_inv (step e y).
Proof.
  intros Hi. destruct e as [| |p|now tl sz pl m ts|w k|w now| |c]; cbn [step].
  - apply (notify_inv_quiet y); [done| |done|right]; cbn; unfold Stop; by case_if.
  - unfold Reset. destruct (isStopped (tracker y)); apply (notify_inv_quiet y); try done; [by right|by left; cbn; lia].
  - apply (notify_inv_quiet y); [done|apply SetPaused_last|done|left; cbn; lia].
  - pose proof (Observe_status now tl sz pl m ts (tracker y)) as Ho.
    destruct (Observe now tl sz pl m ts (tracker y)) as [[s' n] w]. destruct Ho as [Hl Hs].
    apply (notify_inv_quiet y); [done|destruct w, n; apply Hl|by destruct w, n|].
    destruct n; [left; destruct w; cbn; lia|right]. split; [by destruct w|]. destruct w; cbn; by apply Hs.
  - unfold workerTick. destruct (workers y !! w) as [[g [|]]|]; [done| |done].
    case_if; apply (notify_inv_quiet y); by try right.
  - unfold workerRun. destruct (workers y !! w) as [[g [[]|]]|]; try done.
    + apply (notify_inv_quiet y); [done|apply updateStatus_last|done|left; cbn; lia].
    + apply (notify_inv_quiet y); by try right.
  - destruct (pendingNotify y) as [|n] eqn:Ep; [done|]. unfold maybeNotifyStatus.
    destruct Hi as [H1 H2 H3 H4]. case_decide as E; constructor; cbn; try done.
    + split; [|done]. by rewrite <- H2.
    + rewrite app_assoc, H4. symmetry. apply Permutation_cons_append.
  - destruct (inFlight y !! c) as [st|] eqn:Ec; [|done]. destruct Hi as [H1 H2 H3 H4]. constructor; cbn; try done.
    rewrite <- H4. rewrite (delete_Permutation _ _ _ Ec) at 2. apply Permutation_middle.
Qed.

(** Where the callbacks are made in the order in which the statuses were chosen. *)
Definition in_order (es : list event) : Prop := Forall (fun e => forall c, e = EvCallback c -> c = 0%nat) es.

Lemma step_order e y : (forall c, e = EvCallback c -> c = 0%nat) -> rev (inFlight y) ++ notified y = chosen y ->
  rev (inFlight (step e y)) ++ notified (step e y) = chosen (step e y).
Proof.
  intros He Hy. destruct e as [| |p|now tl sz pl m ts|w k|w now| |c]; cbn [step]; try done.
  - unfold Reset. by case_if.
  - destruct (Observe now tl sz pl m ts (tracker y)) as [[s' []] []]; done.
  - unfold workerTick. by repeat case_match.
  - unfold workerRun. by repeat case_match.
  - destruct (pendingNotify y); [done|]. unfold maybeNotifyStatus. case_decide; [done|]. cbn. rewrite rev_unit. cbn. by f_equal.
  - rewrite (He c eq_refl). destruct (inFlight y) as [|st l] eqn:El; cbn; [by rewrite El|].
    cbn in Hy. by rewrite <- app_assoc in Hy.
Qed.

Lemma alternating_app l k : alternating (l ++ k) -> alternating k.
Proof. induction l as [|x l IH]; [done|]. cbn. intros [_ Hl]. by apply IH. Qed.

Lemma run_preserves (P : @System I -> Prop) es : (forall e y, P y -> P (step e y)) -> forall y, P y -> P (run es y).
Proof. intros Hs. induction es as [|e es IH]; intros y Hy; [done|]. by apply IH, Hs. Qed.

(** C26: however the goroutines of a tracker interleave, the statuses chosen
    to be reported alternate, beginning with active, and each is reported exactly
    once; when no goroutine is on its way to choose one, the last chosen is the
    current status.  Callbacks are made without the lock: where they are made in
    the order of the choices, the reported statuses alternate, and when nothing
    is under way the last reported is the current one. *)
Theorem notifications_alternate es i :
  let y := run es (NewSystem i) in
  alternating (chosen y) /\ notified y ++ inFlight y ≡ₚ chosen y /\
  (pendingNotify y = 0%nat -> status (tracker y) = hd StreamStatusStopped (chosen y)) /\
  (in_order es -> alternating (notified y) /\
     (pendingNotify y = 0%nat -> inFlight y = [] -> status (tracker y) = hd StreamStatusStopped (notified y))).
Proof.
  intros y. assert (notify_inv y) as [H1 H2 H3 H4] by (apply run_preserves; [apply step_notify|by constructor]).
  assert (pendingNotify y = 0%nat -> status (tracker y) = hd StreamStatusStopped (chosen y)) as Hst.
  { intros Hp. rewrite <- H2. destruct (decide (status (tracker y) = lastNotifiedStatus (tracker y))); [done|].
    specialize (H1 n). lia. }
  split_and!; [done|done|done|]. intros Ho. assert (rev (inFlight y) ++ notified y = chosen y) as Hn.
  { assert (forall y0, rev (inFlight y0) ++ notified y0 = chosen y0 ->
      rev (inFlight (run es y0)) ++ notified (run es y0) = chosen (run es y0)) as G; [|by apply G].
    clear -Ho. induction Ho as [|e es He _ IH]; intros y0 H0; [done|]. by apply IH, step_order. }
  rewrite <- Hn in H3, Hst. split; [by eapply alternating_app|]. intros Hp Hf. rewrite Hf in Hst. by apply Hst.
Qed.

(** ** Workers *)

(** The workers that will find their generation to be the current one. *)
Definition live y : list Z := filter (fun g => g = generation (tracker y)) (map w_generation (workers y)).

(** The tracker watches a stream: it has seen a packet since it was last reset
    and is neither paused nor stopped. *)
Definition watching s : bool := negb (isStopped s) && negb (paused s) && started (impl s).

Record worker_inv (n : Z) y : Prop := {
  wi_gen : 0 <= generation (tracker y) <= n;
  wi_old : Forall (fun w => w_generation w <= generation (tracker y)) (workers y);
  wi_live : length (live y) = if watching (tracker y) then 1%nat else 0%nat;
}.

Lemma no_live (ws : list worker) g : Forall (fun w => w_generation w <= g) ws ->
  filter (fun x => x = g + 1) (map w_generation ws) = [].
Proof.
  induction 1 as [|w ws Hw _ IH]; [done|]. cbn [map]. rewrite filter_cons_False by lia. done.
Qed.

Lemma old_generations (ws ws' : list worker) g : map w_generation ws' = map w_generation ws ->
  Forall (fun w => w_generation w <= g) ws -> Forall (fun w => w_generation w <= g) ws'.
Proof.
  intros Ew Hold. rewrite Forall_forall in Hold |- *. intros w Hw.
  assert (w_generation w ∈ map w_generation ws') as Hin by by apply list_elem_of_fmap_2.
  rewrite Ew in Hin. apply list_elem_of_fmap_1 in Hin as (w' & -> & Hw'). by apply Hold.
Qed.

(** The workers and the generation stay. *)
Lemma worker_inv_same n y y' : worker_inv n y -> map w_generation (workers y') = map w_generation (workers y) ->
  generation (tracker y') = generation (tracker y) -> watching (tracker y') = watching (tracker y) ->
  worker_inv (n + 1) y'.
Proof.
  intros [H1 H2 H3] Ew Eg Et. constructor; rewrite ?Eg; [lia| |unfold live; by rewrite Ew, Eg, Et].
  by apply (old_generations (workers y)).
Qed.

(** The generation is bumped and the tracker watches nothing. *)
Lemma worker_inv_bump n y y' : worker_inv n y -> n < 2 ^ 32 - 1 -> workers y' = workers y ->
  generation (tracker y') = u32 (generation (tracker y) + 1) -> watching (tracker y') = false ->
  worker_inv (n + 1) y'.
Proof.
  intros [H1 H2 H3] Hn Ew Eg Et. rewrite u32_small in Eg by lia. constructor; rewrite ?Eg, ?Ew.
  - lia.
  - eapply Forall_impl; [exact H2|]. cbn. lia.
  - unfold live. rewrite Eg, Ew, Et, no_live by done. done.
Qed.

Lemma resetLocked_watching s : watching (resetLocked s) = false.
Proof. unfold watching. cbn. by rewrite started_Reset, andb_false_r. Qed.

Lemma map_generation_insert ws w g k k' : ws !! w = Some (mkWorker g k) ->
  map w_generation (<[w := mkWorker g k']> ws) = map w_generation ws.
Proof.
  intros E. change (map w_generation) with (fmap (M := list) w_generation). rewrite list_fmap_insert.
  apply list_insert_id. by rewrite list_lookup_fmap, E.
Qed.

Lemma filter_delete_other ws w g k cur : ws !! w = Some (mkWorker g k) -> g <> cur ->
  filter (fun x => x = cur) (map w_generation (delete w ws)) = filter (fun x => x = cur) (map w_generation ws).
Proof.
  revert w. induction ws as [|a ws IH]; intros [|w] E Hne; try done.
  - injection E as ->. change (delete 0%nat (?a :: ?l)) with l. cbn [map w_generation].
    by rewrite filter_cons_False.
  - change (delete (S w) (a :: ws)) with (a :: delete w ws). cbn [map].
    destruct (decide (w_generation a = cur)); [rewrite !filter_cons_True by done|rewrite !filter_cons_False by done];
      [f_equal|]; by apply IH.
Qed.

Lemma updateStatus_watching now s :
  generation (updateStatus now s) = generation s /\ watching (updateStatus now s) = watching s.
Proof.
  unfold updateStatus. pose proof (started_Check now (impl s)) as Hs.
  destruct (implCheckStatus now (impl s)) as [i ch]. unfold watching. cbn [fst] in Hs. destruct ch; cbn; by rewrite Hs.
Qed.

Lemma step_workers e n y : n < 2 ^ 32 - 1 -> worker_inv n y -> worker_inv (n + 1) (step e y).
Proof.
  intros Hn Hi. destruct e as [| |p|now tl sz pl m ts|w k|w now| |c]; cbn [step].
  - unfold Stop. destruct (isStopped (tracker y)); [by apply (worker_inv_same n y)|].
    by apply (worker_inv_bump n y).
  - unfold Reset. destruct (isStopped (tracker y)); [by apply (worker_inv_same n y)|].
    apply (worker_inv_bump n y); try done. apply resetLocked_watching.
  - apply (worker_inv_bump n y); try done; [by destruct p|]. destruct p.
    + unfold watching. cbn. by rewrite andb_false_r.
    + apply resetLocked_watching.
  - unfold Observe. destruct (_ || _ || _) eqn:E; [by apply (worker_inv_same n y)|]. bool_prop.
    pose proof (Observe_change now m ts (impl (tracker y))) as Hc. pose proof (started_Observe now m ts (impl (tracker y))) as Hs.
    destruct (implObserve now m ts (impl (tracker y))) as [i ch]. cbn [fst snd] in Hc, Hs.
    assert (watching (tracker y) = started (impl (tracker y))) as Ew
      by (unfold watching; replace (isStopped (tracker y)) with false; by replace (paused (tracker y)) with false).
    match goal with |- context [countBytes tl sz ?x] =>
      destruct (countBytes_fields tl sz x) as (Fi & Fp & Fg & _ & _ & Fs); set (s' := countBytes tl sz x) in * end.
    rewrite Hc in *. clear Hc. assert (watching s' = true) as Ew'.
    { unfold watching. rewrite Fi, Fp, Fs.
      trans (negb (isStopped (tracker y)) && negb (paused (tracker y)) && started i);
        [by destruct (started (impl (tracker y)))|].
      rewrite Hs. replace (isStopped (tracker y)) with false. by replace (paused (tracker y)) with false. }
    assert (generation s' = generation (tracker y)) as Eg by (rewrite Fg; by destruct (started (impl (tracker y)))).
    clear Fi Fp Fg Fs. clearbody s'. destruct (started (impl (tracker y))); cbn.
    + apply (worker_inv_same n y); [done|done|done|by rewrite Ew].
    + destruct Hi as [G1 G2 G3]. rewrite Ew in G3.
      rewrite !(bool_decide_eq_true_2 (StreamStatusChangeActive = StreamStatusChangeActive)) by done.
      rewrite !(bool_decide_eq_false_2 (StreamStatusChangeActive = StreamStatusChangeNone)) by done.
      constructor; cbn; rewrite ?Eg; [lia| |].
      * apply Forall_app. by split; [|constructor].
      * unfold live in G3 |- *. cbn. rewrite ?Eg, Ew', map_app, filter_app, length_app, G3. cbn [map w_generation].
        by rewrite filter_cons_True.
  - unfold workerTick. destruct (workers y !! w) as [[g [|]]|] eqn:E; try by apply (worker_inv_same n y).
    case_if; bool_prop.
    + destruct Hi as [H1 H2 H3]. constructor; cbn; [lia| |].
      * by apply Forall_delete.
      * unfold live in *. cbn. by rewrite (filter_delete_other _ _ g None).
    + apply (worker_inv_same n y); try done. cbn. by eapply map_generation_insert.
  - unfold workerRun. destruct (workers y !! w) as [[g [[]|]]|] eqn:E; try by apply (worker_inv_same n y).
    + destruct (updateStatus_watching now (tracker y)). apply (worker_inv_same n y); try done.
      cbn. by eapply map_generation_insert.
    + apply (worker_inv_same n y); try done. cbn. by eapply map_generation_insert.
  - destruct (pendingNotify y) as [|k]; [by apply (worker_inv_same n y)|]. unfold maybeNotifyStatus.
    case_decide; by apply (worker_inv_same n y).
  - destruct (inFlight y !! c); by apply (worker_inv_same n y).
Qed.

Lemma run_workers es : forall n y, 0 <= n -> n + zlen es < 2 ^ 32 -> worker_inv n y -> worker_inv (n + zlen es) (run es y).
Proof.
  induction es as [|e es IH]; intros n y Hn Hb Hi; [change (@zlen event []) with 0; by rewrite Z.add_0_r|].
  assert (zlen (e :: es) = 1 + zlen es) as E by (unfold zlen; cbn [length]; lia). rewrite E in *.
  cbn [run]. replace (n + (1 + zlen es)) with (n + 1 + zlen es) by lia. pose proof (zlen_nonneg es).
  apply IH; [lia|lia|]. apply step_workers; [lia|done].
Qed.

(** C27: in every interleaving of fewer than 2^32 steps, a tracker that watches a
    stream has exactly one worker with the current generation, so that its
    status keeps being checked, and one that does not has none: every other
    worker ends at its next tick. *)
Theorem one_live_worker es i : zlen es < 2 ^ 32 -> started i = false ->
  let y := run es (NewSystem i) in
  length (live y) = if watching (tracker y) then 1%nat else 0%nat.
Proof.
  intros Hb Hi y. assert (worker_inv 0 (NewSystem i)) as H0.
  { constructor; [done|constructor|]. unfold watching. cbn. by rewrite Hi. }
  by destruct (run_workers es 0 _ ltac:(lia) ltac:(lia) H0).
Qed.

End TrackerProofs.

(** ** Accumulated bit rates *)

(** Each layer with the ones below it, up to the first layer without a rate. *)
Fixpoint running (acc : Z) (l : list Z) : list Z :=
  match l with
  | [] => []
  | x :: l => if x =? 0 then 0 :: map (fun _ => 0) l else acc + x :: running (acc + x) l
  end.

Section FourLayers.
Context (a b c d : Z).
#[local] Abbreviation l := [a; b; c; d].
Lemma downward : rev (zrange 1 (zlen l - 1)) = [3; 2; 1]. Proof. done. Qed.
Lemma upward : zrange 0 (zlen l - 1) = [0; 1; 2; 3]. Proof. done. Qed.
Lemma lookup0 : default 0 (zlookup l 0) = a. Proof. done. Qed.
Lemma lookup1 : default 0 (zlookup l 1) = b. Proof. done. Qed.
Lemma lookup2 : default 0 (zlookup l 2) = c. Proof. done. Qed.
Lemma lookup3 : default 0 (zlookup l 3) = d. Proof. done. Qed.
Lemma addLower1 : addLower l 1 = [a; add64 b a; c; d]. Proof. done. Qed.
Lemma addLower2 : addLower l 2 = [a; b; add64 (add64 c b) a; d]. Proof. done. Qed.
Lemma addLower3 : addLower l 3 = [a; b; c; add64 (add64 (add64 d c) b) a]. Proof. done. Qed.
Lemma clearAbove0 : clearAbove l 0 = [a; 0; 0; 0]. Proof. done. Qed.
Lemma clearAbove1 : clearAbove l 1 = [a; b; 0; 0]. Proof. done. Qed.
Lemma clearAbove2 : clearAbove l 2 = [a; b; c; 0]. Proof. done. Qed.
Lemma clearAbove3 : clearAbove l 3 = [a; b; c; d]. Proof. done. Qed.
End FourLayers.

(** For the rates of the four temporal layers, the two nested loops of
    [BitrateTemporalCumulative] give each layer the sum of itself and the layers
    below it, and nothing to the layers from the first gap on. *)
Theorem cumulate_running a b c d : 0 <= a -> 0 <= b -> 0 <= c -> 0 <= d -> a + b + c + d < 2 ^ 63 ->
  cumulate [a; b; c; d] = running 0 [a; b; c; d].
Proof.
  intros Ha Hb Hc Hd Hsum.
  assert (forall x y, 0 <= x + y < 2 ^ 63 -> add64 x y = x + y) as Hadd by (intros; apply i64_small; lia).
  pose proof (Hadd b a ltac:(lia)) as E1.
  pose proof (Hadd c b ltac:(lia)) as E2. pose proof (Hadd (add64 c b) a ltac:(lia)) as E3.
  pose proof (Hadd d c ltac:(lia)) as E4. pose proof (Hadd (add64 d c) b ltac:(lia)) as E5.
  pose proof (Hadd (add64 (add64 d c) b) a ltac:(lia)) as E6. clear Hadd.
  pose proof (Z.eqb_neq a 0) as [_ Pa]. pose proof (Z.eqb_neq b 0) as [_ Pb].
  pose proof (Z.eqb_neq c 0) as [_ Pc]. pose proof (Z.eqb_neq d 0) as [_ Pd].
  pose proof (Z.eqb_neq (add64 b a) 0) as [_ Pab]. pose proof (Z.eqb_neq (add64 (add64 c b) a) 0) as [_ Pabc].
  pose proof (Z.eqb_neq (add64 (add64 (add64 d c) b) a) 0) as [_ Pabcd]. cbn [running map].
  destruct (decide (a = 0)) as [->|], (decide (b = 0)) as [->|], (decide (c = 0)) as [->|], (decide (d = 0)) as [->|];
  unfold cumulate; rewrite downward; cbn [fold_left];
  repeat (first [ rewrite (Z.eqb_refl 0) | rewrite Pa by lia | rewrite Pb by lia | rewrite Pc by lia
                | rewrite Pd by lia | rewrite Pab by lia | rewrite Pabc by lia | rewrite Pabcd by lia | rewrite lookup3 | rewrite lookup2 | rewrite lookup1
                | rewrite lookup0 | rewrite addLower3 | rewrite addLower2 | rewrite addLower1 | rewrite clearAbove3
                | rewrite clearAbove2 | rewrite clearAbove1 | rewrite clearAbove0 | rewrite upward ];
          cbn [negb fold_left]);
  repeat (apply f_equal2; [lia|]); reflexivity.
Qed.

(** ** Activity by packets *)

(** A cycle: [n] packets, then the check. *)
Definition cycle (n : Z) (s : StreamTrackerPacket) : StreamTrackerPacket * StreamStatusChange :=
  PacketCheckStatus (Nat.iter (Z.to_nat n) (fun s => fst (PacketObserve s)) s).

Fixpoint cycles (ns : list Z) (s : StreamTrackerPacket) (ch : StreamStatusChange) : StreamTrackerPacket * StreamStatusChange :=
  match ns with
  | [] => (s, ch)
  | n :: ns => let (s, ch) := cycle n s in cycles ns s ch
  end.

(** The number of cycles with enough packets at the end of the list. *)
Definition streak (required : Z) (ns : list Z) : Z :=
  fold_left (fun k n => if n >=? required then k + 1 else 0) ns 0.

Definition verdict (c : StreamTrackerPacketConfig) (k : Z) : StreamStatusChange :=
  if k =? 0 then StreamStatusChangeStopped
  else if k >=? CyclesRequired c then StreamStatusChangeActive else StreamStatusChangeNone.

Lemma PacketObserve_iter n c k m : 0 <= m -> m + Z.of_nat n < 2 ^ 32 ->
  Nat.iter n (fun s => fst (PacketObserve s)) (mkTrackerPacket c m true k) =
  mkTrackerPacket c (m + Z.of_nat n) true k.
Proof.
  intros Hm Hn. induction n as [|n IH]; [by rewrite Z.add_0_r|]. rewrite Nat.iter_succ, IH by lia.
  unfold PacketObserve. cbn. f_equal. rewrite u32_small; lia.
Qed.

Lemma cycle_eq n c k : 0 <= n < 2 ^ 32 -> 0 <= k < 2 ^ 32 - 1 ->
  let k' := if n >=? SamplesRequired c then k + 1 else 0 in
  cycle n (mkTrackerPacket c 0 true k) = (mkTrackerPacket c 0 true k', verdict c k').
Proof.
  intros Hn Hk. unfold cycle. rewrite PacketObserve_iter by lia. rewrite Z2Nat.id, Z.add_0_l by lia.
  unfold PacketCheckStatus, verdict. cbn. destruct (n >=? SamplesRequired c); cbn; [|done].
  by rewrite u32_small by lia.
Qed.

Lemma cycles_from ns c k ch : Forall (fun n => 0 <= n < 2 ^ 32) ns -> 0 <= k -> k + zlen ns < 2 ^ 32 -> ns <> [] ->
  let k' := fold_left (fun k n => if n >=? SamplesRequired c then k + 1 else 0) ns k in
  cycles ns (mkTrackerPacket c 0 true k) ch = (mkTrackerPacket c 0 true k', verdict c k').
Proof.
  intros Hall. revert k ch. induction Hall as [|n ns Hn Hall IH]; intros k ch Hk Hb Hne; [done|].
  assert (zlen (n :: ns) = 1 + zlen ns) as E by (unfold zlen; cbn [length]; lia). rewrite E in Hb.
  pose proof (zlen_nonneg ns). cbn [cycles fold_left]. rewrite cycle_eq by lia. cbv zeta.
  destruct ns as [|n2 ns]; [done|]. apply IH; [case_if; lia|case_if; lia|done].
Qed.

(** Of a running tracker by packets, whatever came before, the check stops
    the stream exactly when the last cycle fell short of its packets, declares
    it active when enough cycles in a row did not, and says nothing in between. *)
Theorem packet_hysteresis ns c ch : Forall (fun n => 0 <= n < 2 ^ 32) ns -> zlen ns < 2 ^ 32 -> ns <> [] ->
  let k := streak (SamplesRequired c) ns in
  cycles ns (mkTrackerPacket c 0 true 0) ch =
  (mkTrackerPacket c 0 true k,
   if k =? 0 then StreamStatusChangeStopped
   else if k >=? CyclesRequired c then StreamStatusChangeActive else StreamStatusChangeNone).
Proof. intros Hall Hb Hne. by apply cycles_from. Qed.

(** * Runs *)

Definition lenient : StreamTrackerPacketConfig := mkPacketConfig 1 1 2000000000.

(** A stream starts, is checked, falls silent and is reported; the old worker of
    a reset ends at its tick. *)
Definition ex_events : list event :=
  [EvObserve 0 0 1200 1100 true 90000; EvNotify; EvCallback 0; EvTick 0 TickStatus; EvWork 0 2000000000; EvNotify;
   EvTick 0 TickStatus; EvWork 0 4000000000; EvNotify; EvCallback 0;
   EvReset; EvObserve 5000000000 1 900 800 false 93000; EvNotify; EvNotify; EvTick 0 TickBitrate; EvCallback 0].

Lemma one_live_worker_witness :
  watching (tracker (run ex_events (NewSystem (NewStreamTrackerPacket lenient)))) = true /\
  length (live (run ex_events (NewSystem (NewStreamTrackerPacket lenient)))) = 1%nat.
Proof.
  assert (watching (tracker (run ex_events (NewSystem (NewStreamTrackerPacket lenient)))) = true) as Hw by reflexivity.
  split; [exact Hw|].
  pose proof (one_live_worker ex_events (NewStreamTrackerPacket lenient) eq_refl eq_refl) as H1.
  cbv zeta in H1. rewrite Hw in H1. exact H1.
Defined.

Lemma notified_example :
  notified (run ex_events (NewSystem (NewStreamTrackerPacket lenient))) =
  [StreamStatusActive; StreamStatusStopped; StreamStatusActive].
Proof. vm_compute. reflexivity. Qed.

Lemma cumulate_running_witness : cumulate [300; 200; 0; 100] = [300; 500; 0; 0].
Proof. rewrite (cumulate_running 300 200 0 100) by lia. reflexivity. Defined.

Lemma packet_hysteresis_witness :
  snd (cycles [7; 0; 6; 5] (mkTrackerPacket (mkPacketConfig 5 2 500000000) 0 true 0) StreamStatusChangeNone) =
  StreamStatusChangeActive.
Proof.
  rewrite (packet_hysteresis [7; 0; 6; 5] (mkPacketConfig 5 2 500000000)); [reflexivity| |reflexivity|discriminate].
  repeat (apply Forall_cons_2; [lia|]). apply Forall_nil_2.
Defined.

(** The worker compares the generation, the tracker is paused, and the worker
    goes on to its check: the paused tracker is active again, is reported so,
    and no worker is left to stop it. *)
Lemma late_check_activates_paused :
  let y := run [EvObserve 0 0 1200 1100 true 90000; EvNotify; EvCallback 0; EvTick 0 TickStatus; EvSetPaused true;
                EvNotify; EvCallback 0; EvWork 0 2000000000; EvNotify; EvCallback 0; EvTick 0 TickStatus] (NewSystem (NewStreamTrackerPacket lenient)) in
  paused (tracker y) = true /\ status (tracker y) = StreamStatusActive /\ workers y = [] /\
  notified y = [StreamStatusActive; StreamStatusStopped; StreamStatusActive].
Proof. vm_compute. by split_and!. Qed.

(** A stream starts and is paused while the callback of its start has not been
    made yet: the pause is reported before the start, and the tracker that is
    stopped stays reported as active. *)
Lemma callbacks_swapped :
  let y := run [EvObserve 0 0 1200 1100 true 90000; EvNotify; EvSetPaused true; EvNotify; EvCallback 1; EvCallback 0]
               (NewSystem (NewStreamTrackerPacket lenient)) in
  status (tracker y) = StreamStatusStopped /\ pendingNotify y = 0%nat /\ inFlight y = [] /\
  notified y = [StreamStatusActive; StreamStatusStopped].
Proof. vm_compute. by split_and!. Qed.

Lemma notifications_alternate_witness :
  let y := run ex_events (NewSystem (NewStreamTrackerPacket lenient)) in
  alternating (notified y) /\ status (tracker y) = StreamStatusActive /\ hd StreamStatusStopped (notified y) = StreamStatusActive.
Proof.
  destruct (notifications_alternate ex_events (NewStreamTrackerPacket lenient)) as (_ & _ & _ & H4).
  assert (in_order ex_events) as Ho by (unfold in_order, ex_events; repeat (apply Forall_cons; split; [by intros c [=]|]); constructor).
  destruct (H4 Ho) as [Ha Hs]. split; [exact Ha|].
  assert (hd StreamStatusStopped (notified (run ex_events (NewSystem (NewStreamTrackerPacket lenient)))) = StreamStatusActive) as Hh
    by reflexivity.
  split; [rewrite <- Hh; exact (Hs eq_refl eq_refl)|exact Hh].
Defined.

(** The frame tracker on twenty frames of 30 per second: active, with an
    estimate of 18 frames per second after the slow increase from none. *)
Lemma frame_tracker_example :
  let obs := fold_left (fun s k => fst (FrameObserve (k * 33333333) true (k * 3000) s)) (zseq 20)
    (NewStreamTrackerFrame (float64_of_int 5) 90000) in
  let (s, ch) := FrameCheckStatus 700000000 obs in
  ch = StreamStatusChangeActive /\ int64_of_float (estimatedFrameRate s) = 18.
Proof. vm_compute. by split. Qed.
