(* ===== verification/StreamTrackerDD.v ===== *)
(** * The stream tracker of the dependency descriptor

    Models [src/SERVER/pkg/sfu/streamtracker/streamtracker_dd.go]: one tracker
    for all layers of a stream that carries dependency descriptors.  The mask of
    active decode targets says which spatial layers are active; every packet
    counts for the layer of each decode target its frame belongs to.

    As in [StreamTracker], a section under the lock is one step and a [System]
    interleaves those of all goroutines; here the callbacks and the status to
    pass are picked under the lock and called behind it.  An index out of range
    or a nil dereference ends the process ([panicked]). *)

From stdpp Require Import sorting.
From S2P Require Import Prelude DdTypes DdCodec.
From S2P Require Import Packet DdParser KeyFrames Bitrates.
From S2P Require Import StreamTracker.

Record DDTracker := mkDDTracker {
  dd_paused : bool;
  dd_generation : Z;
  maxSpatialLayer : Z;
  maxTemporalLayer : Z;
  onStatusChanged : list bool;      (** is there a callback, by layer *)
  onBitrateAvailable : list bool;
  dd_lastBitrateReport : Z;
  dd_bytesForBitrate : list (list Z);
  dd_bitrate : list (list Z);
  dd_isStopped : bool;
}.
#[export] Instance eta_DDTracker : Eta DDTracker := fun s =>
  mkDDTracker (dd_paused s) (dd_generation s) (maxSpatialLayer s) (maxTemporalLayer s) (onStatusChanged s)
    (onBitrateAvailable s) (dd_lastBitrateReport s) (dd_bytesForBitrate s) (dd_bitrate s) (dd_isStopped s).

(** [buffer.DefaultMaxLayerSpatial + 1] *)
Definition numSpatial : Z := DefaultMaxLayerSpatial + 1.

(** The arrays by spatial and temporal layer. *)
Definition zeroLayers : list (list Z) := repeat (repeat 0 (Z.to_nat numTemporal)) (Z.to_nat numSpatial).

Definition NewStreamTrackerDependencyDescriptor : DDTracker :=
  mkDDTracker false 0 InvalidLayerSpatial InvalidLayerTemporal
    (repeat false (Z.to_nat numSpatial)) (repeat false (Z.to_nat numSpatial)) 0 zeroLayers zeroLayers false.

Definition bumpDDGeneration (s : DDTracker) : DDTracker := s <| dd_generation := u32 (dd_generation s + 1) |>.

Definition StopDD (s : DDTracker) : DDTracker :=
  if dd_isStopped s then s else bumpDDGeneration (s <| dd_isStopped := true |>).

Definition OnStatusChanged (layer : Z) (s : DDTracker) : res stop DDTracker :=
  let! fs := store panicked (onStatusChanged s) layer true in
  Ok (s <| onStatusChanged := fs |>).

Definition OnBitrateAvailable (layer : Z) (s : DDTracker) : res stop DDTracker :=
  let! fs := store panicked (onBitrateAvailable s) layer true in
  Ok (s <| onBitrateAvailable := fs |>).

Definition StatusDD (layer : Z) (s : DDTracker) : StreamStatus :=
  if layer >? maxSpatialLayer s then StreamStatusStopped else StreamStatusActive.

Definition BitrateTemporalCumulativeDD (layer : Z) (s : DDTracker) : res stop (list Z) :=
  if layer >? maxSpatialLayer s then
    let! first := load panicked (dd_bitrate s) 0 in
    Ok (repeat 0 (length first))
  else load panicked (dd_bitrate s) layer.

Definition resetDDLocked (s : DDTracker) : DDTracker :=
  let s := bumpDDGeneration s in
  let s := s <| dd_bytesForBitrate := map (map (fun _ => 0)) (dd_bytesForBitrate s) |> in
  let s := s <| dd_bitrate := map (map (fun _ => 0)) (dd_bitrate s) |> in
  s <| maxSpatialLayer := InvalidLayerSpatial |> <| maxTemporalLayer := InvalidLayerTemporal |>.

(** A callback to make: the layer it was registered for and the status. *)
Definition notification : Type := Z * StreamStatus.

(** The callbacks [s.onStatusChanged[i]] of the layers given, those that are
    nil left out. *)
Definition callbacks (layers : list Z) (st : StreamStatus) (s : DDTracker) : res stop (list notification) :=
  fold_right (fun i rest =>
    let! fn := load panicked (onStatusChanged s) i in
    let! rest := rest in
    Ok (if fn : bool then (i, st) :: rest else rest)) (Ok []) layers.

(** What a section under the lock leaves to do: the callbacks, and the
    generation of a worker to start. *)
Definition outcome : Type := DDTracker * list notification * option Z.

Definition SetPausedDD (now : Z) (paused : bool) (s : DDTracker) : res stop outcome :=
  if Bool.eqb (dd_paused s) paused then Ok (s, [], None)
  else
    let s := s <| dd_paused := paused |> in
    if negb paused then
      let s := resetDDLocked s in
      let! notifyFns := callbacks (zrange 0 (zlen (onStatusChanged s) - 1)) StreamStatusStopped s in
      Ok (s, notifyFns, None)
    else
      let s := bumpDDGeneration (s <| dd_lastBitrateReport := now |>) in
      Ok (s, [], Some (dd_generation s)).

(** The active layers of a new mask. *)
Definition capLayers (m : Z * Z) : Z * Z :=
  (if m.1 >? DefaultMaxLayerSpatial then DefaultMaxLayerSpatial else m.1,
   if m.2 >? DefaultMaxLayerTemporal then DefaultMaxLayerTemporal else m.2).

Definition updateLayers (now : Z) (ddVal : ExtDependencyDescriptor) (s : DDTracker) : res stop outcome :=
  match ActiveDecodeTargetsBitmask (Descriptor ddVal), ActiveDecodeTargetsUpdated ddVal with
  | Some mask, true =>
    let (maxSpatial, maxTemporal) := capLayers (maxLayers mask (DecodeTargets ddVal)) in
    let oldMaxSpatial := maxSpatialLayer s in
    let s := s <| maxSpatialLayer := maxSpatial |> <| maxTemporalLayer := maxTemporal |> in
    let start := oldMaxSpatial =? -1 in
    let s := if start then bumpDDGeneration (s <| dd_lastBitrateReport := now |>) else s in
    let worker := if start then Some (dd_generation s) else None in
    let! notifyFns :=
      if oldMaxSpatial >? maxSpatial then callbacks (zrange (maxSpatial + 1) oldMaxSpatial) StreamStatusStopped s
      else if oldMaxSpatial <? maxSpatial then callbacks (zrange (oldMaxSpatial + 1) maxSpatial) StreamStatusActive s
      else Ok [] in
    Ok (s, notifyFns, worker)
  | _, _ => Ok (s, [], None)
  end.

(** [s.bytesForBitrate[dt.Layer.Spatial][dt.Layer.Temporal] += int64(pktSize)] *)
Definition addBytes (layer : VideoLayer) (pktSize : Z) (counts : list (list Z)) : res stop (list (list Z)) :=
  let! row := load panicked counts (Spatial layer) in
  let! n := load panicked row (Temporal layer) in
  let! row := store panicked row (Temporal layer) (i64 (n + pktSize)) in
  store panicked counts (Spatial layer) row.

(** The loop over the decode targets of the packet. *)
Fixpoint countTargets (dtis : list DecodeTargetIndication) (pktSize : Z) (targets : list DecodeTargetLayer)
  (counts : list (list Z)) : res stop (list (list Z)) :=
  match targets with
  | [] => Ok counts
  | dt :: targets =>
    if zlen dtis <=? Target dt then countTargets dtis pktSize targets counts
    else
      let! dti := load panicked dtis (Target dt) in
      if decide (dti = DecodeTargetNotPresent) then countTargets dtis pktSize targets counts
      else
        let! counts := addBytes (Layer dt) pktSize counts in
        countTargets dtis pktSize targets counts
  end.

(** [ddVal] is nil for a packet without a descriptor. *)
Definition ObserveDD (now pktSize payloadSize : Z) (ddVal : option ExtDependencyDescriptor) (s : DDTracker)
  : res stop outcome :=
  match ddVal with
  | Some ddVal =>
    if dd_isStopped s || dd_paused s || (payloadSize =? 0) then Ok (s, [], None)
    else
      let! (s, notifyFns, worker) := updateLayers now ddVal s in
      match FrameDependencies (Descriptor ddVal) with
      | None => Err panicked
      | Some f =>
        let dtis := elems (DecodeTargetIndications f) in
        let! counts := countTargets dtis pktSize (DecodeTargets ddVal) (dd_bytesForBitrate s) in
        Ok (s <| dd_bytesForBitrate := counts |>, notifyFns, worker)
      end
  | None => Ok (s, [], None)
  end.

(** A row of [bitrateReport]: the new rates, and whether one appeared or went. *)
Definition rowReport (diff : Z) (bytesForBitrate bitrates : list Z) : list Z * bool :=
  let rates := map (rateOf diff) bytesForBitrate in
  (rates, existsb (fun ob => let '(old, new) := ob in
      ((old =? 0) && (new >? 0)) || ((old >? 0) && (new =? 0))) (combine bitrates rates)).

(** [bitrateReport], with the layers whose availability callback is made. *)
Definition bitrateReportDD (now : Z) (s : DDTracker) : DDTracker * list Z :=
  let diff := now - dd_lastBitrateReport s in
  let s := s <| dd_lastBitrateReport := now |> in
  let rows := map (fun r => rowReport diff r.1 r.2) (combine (dd_bytesForBitrate s) (dd_bitrate s)) in
  let available := omap (fun c => let '(i, (changed, fn)) := c in if (changed : bool) && (fn : bool) then Some i else None)
    (combine (zrange 0 (zlen rows - 1)) (combine (map snd rows) (onBitrateAvailable s))) in
  (s <| dd_bitrate := map fst rows |> <| dd_bytesForBitrate := map (map (fun _ => 0)) (dd_bytesForBitrate s) |>, available).

(** ** Goroutines

    Workers are those of [StreamTracker] with the bit rate ticker alone. *)
Record DDSystem := mkDDSystem {
  dd_tracker : DDTracker;
  dd_workers : list worker;
  pending : list (list notification);   (** goroutines behind their section, with callbacks to make *)
  heard : list notification;            (** the callbacks made, in order *)
}.
#[export] Instance eta_DDSystem : Eta DDSystem := fun y =>
  mkDDSystem (dd_tracker y) (dd_workers y) (pending y) (heard y).

Inductive dd_event :=
| DStop
| DSetPaused (now : Z) (p : bool)
| DObserve (now pktSize payloadSize : Z) (ddVal : option ExtDependencyDescriptor)
| DTick (w : nat)              (** the ticker of worker [w] fires *)
| DWork (w : nat) (now : Z)    (** worker [w] takes the lock *)
| DDeliver (g : nat).          (** pending goroutine [g] makes its next callback *)

(** The section is left: the worker is started and the callbacks follow. *)
Definition leave (o : outcome) (y : DDSystem) : DDSystem :=
  let '(s, fns, worker) := o in
  y <| dd_tracker := s |>
    <| dd_workers := match worker with Some g => dd_workers y ++ [mkWorker g None] | None => dd_workers y end |>
    <| pending := match fns with [] => pending y | _ => pending y ++ [fns] end |>.

(** [<-tickerBitrate.C; if generation != s.generation.Load() { return }] *)
Definition tickDD (w : nat) (y : DDSystem) : DDSystem :=
  match dd_workers y !! w with
  | Some (mkWorker g None) =>
    if negb (g =? dd_generation (dd_tracker y)) then y <| dd_workers := delete w (dd_workers y) |>
    else y <| dd_workers := <[w := mkWorker g (Some TickBitrate)]> (dd_workers y) |>
  | _ => y
  end.

Definition workDD (w : nat) (now : Z) (y : DDSystem) : DDSystem :=
  match dd_workers y !! w with
  | Some (mkWorker g (Some _)) =>
    y <| dd_workers := <[w := mkWorker g None]> (dd_workers y) |>
      <| dd_tracker := fst (bitrateReportDD now (dd_tracker y)) |>
  | _ => y
  end.

(** [for _, fn := range notifyFns { fn(notifyStatus) }] *)
Definition deliver (g : nat) (y : DDSystem) : DDSystem :=
  match pending y !! g with
  | Some (n :: fns) =>
    y <| heard := heard y ++ [n] |>
      <| pending := match fns with [] => delete g (pending y) | _ => <[g := fns]> (pending y) end |>
  | _ => y
  end.

Definition stepDD (e : dd_event) (y : DDSystem) : res stop DDSystem :=
  match e with
  | DStop => Ok (y <| dd_tracker := StopDD (dd_tracker y) |>)
  | DSetPaused now p => let! o := SetPausedDD now p (dd_tracker y) in Ok (leave o y)
  | DObserve now sz pl dv => let! o := ObserveDD now sz pl dv (dd_tracker y) in Ok (leave o y)
  | DTick w => Ok (tickDD w y)
  | DWork w now => Ok (workDD w now y)
  | DDeliver g => Ok (deliver g y)
  end.

Fixpoint runDD (es : list dd_event) (y : DDSystem) : res stop DDSystem :=
  match es with
  | [] => Ok y
  | e :: es => let! y := stepDD e y in runDD es y
  end.

(** * Proofs

    ** Which packets end the process *)

Definition shaped (l : list (list Z)) : Prop := zlen l = numSpatial /\ Forall (fun r => zlen r = numTemporal) l.

Record dd_ok (s : DDTracker) : Prop := {
  ok_status : zlen (onStatusChanged s) = numSpatial;
  ok_max : -1 <= maxSpatialLayer s <= DefaultMaxLayerSpatial;
  ok_bytes : shaped (dd_bytesForBitrate s);
  ok_rates : shaped (dd_bitrate s);
}.

(** The frame of the packet belongs to the decode target. *)
Definition counted (dtis : list DecodeTargetIndication) (dt : DecodeTargetLayer) : bool :=
  match zlookup dtis (Target dt) with
  | Some dti => negb (bool_decide (dti = DecodeTargetNotPresent))
  | None => false
  end.

(** The layer of the target has no place in the arrays. *)
Definition outside (dt : DecodeTargetLayer) : bool :=
  (Spatial (Layer dt) >? DefaultMaxLayerSpatial) || (Temporal (Layer dt) >? DefaultMaxLayerTemporal).

Definition frameDtis (e : ExtDependencyDescriptor) : list DecodeTargetIndication :=
  match FrameDependencies (Descriptor e) with Some f => elems (DecodeTargetIndications f) | None => [] end.

(** Some target of the packet is counted and has no place. *)
Definition overruns (e : ExtDependencyDescriptor) : bool :=
  existsb (fun dt => counted (frameDtis e) dt && outside dt) (DecodeTargets e).

Definition target_nonneg (dt : DecodeTargetLayer) : Prop :=
  0 <= Target dt /\ 0 <= Spatial (Layer dt) /\ 0 <= Temporal (Layer dt).

Lemma load_some {E A} (e : E) (l : list A) i x : zlookup l i = Some x -> load e l i = Ok x.
Proof. unfold load. by intros ->. Qed.

Lemma load_beyond {E A} (e : E) (l : list A) i : zlen l <= i -> load e l i = Err e.
Proof.
  intros Hi. unfold load, zlookup, zlen in *. rewrite (proj2 (Z.leb_le 0 i)) by lia.
  by rewrite lookup_ge_None_2 by lia.
Qed.

Lemma store_in {E A} (e : E) (l : list A) i x : 0 <= i < zlen l -> store e l i x = Ok (zset i x l).
Proof. intros Hi. unfold store. rewrite (proj2 (Z.leb_le _ _)), (proj2 (Z.ltb_lt _ _)) by lia. done. Qed.

Lemma shaped_row l i : shaped l -> 0 <= i < numSpatial -> exists r, zlookup l i = Some r /\ zlen r = numTemporal.
Proof.
  intros [Hl Hr] Hi. destruct (zlookup_lt l i ltac:(lia)) as [r Er]. exists r. split; [done|].
  apply zlookup_Some in Er as [_ Er]. by eapply Forall_lookup_1 in Hr.
Qed.

Lemma addBytes_spec layer sz counts : shaped counts -> 0 <= Spatial layer -> 0 <= Temporal layer ->
  if (Spatial layer >? DefaultMaxLayerSpatial) || (Temporal layer >? DefaultMaxLayerTemporal)
  then addBytes layer sz counts = Err panicked
  else exists counts', addBytes layer sz counts = Ok counts' /\ shaped counts'.
Proof.
  intros Hs H0 H1. unfold addBytes. rewrite !Z.gtb_ltb.
  assert (numSpatial = DefaultMaxLayerSpatial + 1) as En by done.
  assert (numTemporal = DefaultMaxLayerTemporal + 1) as Et by done.
  destruct (Z.ltb_spec DefaultMaxLayerSpatial (Spatial layer)); cbn [orb].
  { rewrite load_beyond; [done|]. destruct Hs. lia. }
  destruct (shaped_row counts (Spatial layer) Hs ltac:(lia)) as (r & Er & Hr).
  rewrite (load_some _ _ _ _ Er). cbn [res_bind].
  destruct (Z.ltb_spec DefaultMaxLayerTemporal (Temporal layer)).
  { rewrite load_beyond by lia. done. }
  destruct (zlookup_lt r (Temporal layer) ltac:(lia)) as [n En']. rewrite (load_some _ _ _ _ En'). cbn [res_bind].
  rewrite store_in by lia. cbn [res_bind]. destruct Hs as [Hl Hf]. rewrite store_in by lia.
  eexists. split; [done|]. split; [by rewrite zlen_zset|]. apply Forall_insert; [done|]. by rewrite zlen_zset.
Qed.

Lemma countTargets_spec dtis sz targets : Forall target_nonneg targets -> forall counts, shaped counts ->
  if existsb (fun dt => counted dtis dt && outside dt) targets
  then countTargets dtis sz targets counts = Err panicked
  else exists counts', countTargets dtis sz targets counts = Ok counts' /\ shaped counts'.
Proof.
  induction 1 as [|dt targets (Ht & H0 & H1) _ IH]; intros counts Hs; cbn [existsb countTargets]; [by eexists|].
  destruct (Z.leb_spec (zlen dtis) (Target dt)) as [Hl|Hl].
  - assert (counted dtis dt = false) as ->; [|by apply IH]. unfold counted.
    destruct (zlookup dtis (Target dt)) eqn:E; [|done]. apply zlookup_Some in E. lia.
  - destruct (zlookup_lt dtis (Target dt) ltac:(lia)) as [dti E]. rewrite (load_some _ _ _ _ E). cbn [res_bind].
    unfold counted at 1. rewrite E. case_decide as Hd.
    + rewrite bool_decide_eq_true_2 by done. by apply IH.
    + rewrite bool_decide_eq_false_2 by done. cbn [negb andb]. unfold outside at 1.
      pose proof (addBytes_spec (Layer dt) sz counts Hs H0 H1) as Ha. destruct (_ || _); cbn [orb].
      * by rewrite Ha.
      * destruct Ha as (counts' & -> & Hs'). cbn [res_bind]. by apply IH.
Qed.

(** ** Callbacks *)

Definition registered (s : DDTracker) (i : Z) : bool := default false (zlookup (onStatusChanged s) i).

Lemma callbacks_eq layers st s : Forall (fun i => 0 <= i < zlen (onStatusChanged s)) layers ->
  callbacks layers st s = Ok (map (fun i => (i, st)) (filter (fun i => registered s i = true) layers)).
Proof.
  induction 1 as [|i layers Hi _ IH]; [done|]. unfold callbacks in *. cbn [fold_right]. rewrite IH.
  destruct (zlookup_lt _ i Hi) as [fn E]. rewrite (load_some _ _ _ _ E). cbn [res_bind].
  assert (registered s i = fn) as Er by (unfold registered; by rewrite E).
  rewrite filter_cons, Er. destruct fn; [by rewrite decide_True by done|by rewrite decide_False by done].
Qed.

(** The last status reported for a layer, [st] if there was none. *)
Definition lastHeard (st : StreamStatus) (layer : Z) (log : list notification) : StreamStatus :=
  fold_left (fun st n => if fst n =? layer then snd n else st) log st.

Lemma lastHeard_app st layer l k : lastHeard st layer (l ++ k) = lastHeard (lastHeard st layer l) layer k.
Proof. apply fold_left_app. Qed.

Lemma lastHeard_map st st' layer (l : list Z) :
  lastHeard st layer (map (fun i => (i, st')) l) = if decide (layer ∈ l) then st' else st.
Proof.
  unfold lastHeard. revert st. induction l as [|i l IH]; intros st.
  { rewrite decide_False by apply not_elem_of_nil. done. }
  cbn [map fold_left fst snd]. rewrite IH. destruct (Z.eqb_spec i layer) as [->|Hne].
  - rewrite (decide_True (P := layer ∈ layer :: l)) by apply list_elem_of_here. by case_decide.
  - destruct (decide (layer ∈ l)) as [Hin|Hni]; [by rewrite decide_True by by apply list_elem_of_further|].
    rewrite decide_False; [done|]. intros [E|Hin]%elem_of_cons; [by subst|done].
Qed.

Lemma lastHeard_callbacks st st' layer s lo hi fns : 0 <= lo -> hi < zlen (onStatusChanged s) ->
  registered s layer = true -> callbacks (zrange lo hi) st' s = Ok fns ->
  lastHeard st layer fns = if decide (lo <= layer <= hi) then st' else st.
Proof.
  intros Hlo Hhi Hr. rewrite callbacks_eq.
  2: { apply Forall_forall. intros i Hi%elem_of_zrange. lia. }
  intros E%Ok_inj. rewrite <- E, lastHeard_map.
  assert (layer ∈ filter (fun i => registered s i = true) (zrange lo hi) <-> lo <= layer <= hi) as Hiff.
  { rewrite list_elem_of_filter, elem_of_zrange. tauto. }
  destruct (decide (lo <= layer <= hi)); [by rewrite decide_True by by apply Hiff|].
  rewrite decide_False by by rewrite Hiff. done.
Qed.

(** ** What a section under the lock does *)

(** A worker is wanted: to drain the rates of a paused stream, or to measure
    one whose layers are known. *)
Definition wanted (s : DDTracker) : bool := dd_paused s || negb (maxSpatialLayer s =? -1).

Definition worker_effect (s s' : DDTracker) (w : option Z) : Prop :=
  match w with
  | None => dd_generation s' = dd_generation s /\ wanted s' = wanted s \/
            dd_generation s' = u32 (dd_generation s + 1) /\ wanted s' = false
  | Some g => g = dd_generation s' /\ dd_generation s' = u32 (dd_generation s + 1) /\ wanted s' = true
  end.

Record section_ok (s : DDTracker) (o : outcome) : Prop := {
  so_ok : dd_ok (fst (fst o));
  so_callbacks : onStatusChanged (fst (fst o)) = onStatusChanged s;
  so_heard : forall layer, 0 <= layer -> registered s layer = true ->
    lastHeard (StatusDD layer s) layer (snd (fst o)) = StatusDD layer (fst (fst o));
  so_stopped : dd_isStopped (fst (fst o)) = dd_isStopped s;
  so_worker : worker_effect s (fst (fst o)) (snd o);
}.

Lemma section_idle s : dd_ok s -> section_ok s (s, [], None).
Proof. intros Hs. constructor; [done|done|done|done|by left]. Qed.

Lemma maxLayers_nonneg mask l : 0 <= fst (maxLayers mask l).
Proof.
  unfold maxLayers. generalize (Z.le_refl 0). change 0 with (fst (0, 0)) at 2. generalize (0, 0).
  induction l as [|dt l IH]; intros m Hm; [done|]. cbn [foldl]. apply IH. repeat case_if; cbn; bool_prop; lia.
Qed.

Lemma registered_range s layer : registered s layer = true -> 0 <= layer < zlen (onStatusChanged s).
Proof.
  unfold registered. destruct (zlookup _ _) eqn:E; [|done]. intros _. exact (proj1 (zlookup_Some _ _ _ E)).
Qed.

Lemma updateLayers_ok now e s : dd_ok s -> dd_paused s = false ->
  exists o, updateLayers now e s = Ok o /\ section_ok s o /\
    dd_bytesForBitrate (fst (fst o)) = dd_bytesForBitrate s.
Proof.
  intros Hs Hp. unfold updateLayers.
  destruct (ActiveDecodeTargetsBitmask (Descriptor e)) as [mask|]; [|by exists (s, [], None); eauto using section_idle].
  destruct (ActiveDecodeTargetsUpdated e); [|by exists (s, [], None); eauto using section_idle].
  pose proof (maxLayers_nonneg mask (DecodeTargets e)) as Hm.
  assert (0 <= fst (capLayers (maxLayers mask (DecodeTargets e))) <= DefaultMaxLayerSpatial) as Hcap.
  { unfold capLayers. cbn [fst]. case_if; bool_prop; [done|lia]. }
  destruct (capLayers _) as [ms mt]. cbn [fst] in Hcap. clear Hm. destruct Hs as [O1 O2 O3 O4].
  set (s1 := s <| maxSpatialLayer := ms |> <| maxTemporalLayer := mt |>).
  set (s2 := if maxSpatialLayer s =? -1 then bumpDDGeneration (s1 <| dd_lastBitrateReport := now |>) else s1).
  assert (onStatusChanged s2 = onStatusChanged s /\ maxSpatialLayer s2 = ms /\ dd_isStopped s2 = dd_isStopped s /\
    dd_paused s2 = dd_paused s /\ dd_bytesForBitrate s2 = dd_bytesForBitrate s /\ dd_bitrate s2 = dd_bitrate s /\
    dd_generation s2 = if maxSpatialLayer s =? -1 then u32 (dd_generation s + 1) else dd_generation s)
    as (F1 & F2 & F3 & F4 & F5 & F6 & F7) by (unfold s2; by case_if).
  clearbody s2. clear s1.
  assert (numSpatial = DefaultMaxLayerSpatial + 1) as En by done.
  match goal with |- context [res_bind ?m _] => assert (exists fns, m = Ok fns /\
    forall layer, 0 <= layer -> registered s layer = true ->
      lastHeard (StatusDD layer s) layer fns = StatusDD layer s2) as (fns & Efns & Hh) end.
  { assert (forall lo hi st, 0 <= lo -> hi < zlen (onStatusChanged s2) ->
      exists fns, callbacks (zrange lo hi) st s2 = Ok fns) as Hc.
    { intros lo hi st Hlo Hhi. eexists. apply callbacks_eq. apply Forall_forall. intros i Hi%elem_of_zrange. lia. }
    assert (forall layer, registered s2 layer = registered s layer) as Hreg by (intros; unfold registered; by rewrite F1).
    unfold StatusDD. rewrite F2. repeat case_if; bool_prop.
    - destruct (Hc (ms + 1) (maxSpatialLayer s) StreamStatusStopped ltac:(lia) ltac:(rewrite F1; lia)) as [fns Ec].
      exists fns. split; [done|]. intros layer Hl Hr.
      rewrite (lastHeard_callbacks _ _ _ _ (ms + 1) (maxSpatialLayer s) _ ltac:(lia) ltac:(rewrite F1; lia) ltac:(by rewrite Hreg) Ec).
      repeat case_match; bool_prop; try done; lia.
    - destruct (Hc (maxSpatialLayer s + 1) ms StreamStatusActive ltac:(lia) ltac:(rewrite F1; lia)) as [fns Ec].
      exists fns. split; [done|]. intros layer Hl Hr.
      rewrite (lastHeard_callbacks _ _ _ _ (maxSpatialLayer s + 1) ms _ ltac:(lia) ltac:(rewrite F1; lia) ltac:(by rewrite Hreg) Ec).
      repeat case_match; bool_prop; try done; lia.
    - exists []. split; [done|]. intros layer Hl Hr. cbn [lastHeard fold_left].
      repeat case_match; bool_prop; try done; lia. }
  rewrite Efns. cbn [res_bind]. eexists. split; [done|]. split; [|done].
  constructor; cbn [fst snd]; [by constructor; rewrite ?F1, ?F2, ?F5, ?F6; try lia| done|exact Hh|done|].
  unfold worker_effect, wanted. rewrite F4, Hp, F2. destruct (Z.eqb_spec (maxSpatialLayer s) (-1)) as [E|E].
  - split; [done|]. split; [done|]. rewrite (proj2 (Z.eqb_neq _ _)) by lia. done.
  - left. split; [done|]. rewrite (proj2 (Z.eqb_neq ms _)) by lia. done.
Qed.

Lemma ext_targets e : ext_ok e -> Forall target_nonneg (DecodeTargets e) /\ is_Some (FrameDependencies (Descriptor e)).
Proof.
  intros [(st & f & Hst & Hd & _ & Ht) _ _ _ _]. split; [|exists f; exact (d_frame _ _ _ Hd)].
  destruct Ht as [Ht|[-> _]]; [|constructor]. eapply Forall_impl; [exact (tl_ok _ _ Ht)|].
  assert (forall t, t ∈ Templates st -> 0 <= SpatialId t /\ 0 <= TemporalId t) as Hpos.
  { intros t Hin. pose proof (proj1 (Forall_forall _ _) (s_template_ok _ Hst) t Hin) as [Hsp Htm _ _ _ _ _]. lia. }
  intros dt [Hr _ Hsp Htm]. split; [lia|]. split.
  - destruct Hsp as [->|(t & Hin & _ & <-)]; [lia|]. by apply Hpos.
  - destruct Htm as [->|(t & Hin & _ & <-)]; [lia|]. by apply Hpos.
Qed.

Lemma ObserveDD_spec now sz pl dv s : dd_ok s -> (forall e, dv = Some e -> ext_ok e) ->
  if negb (dd_isStopped s) && negb (dd_paused s) && negb (pl =? 0) && from_option overruns false dv
  then ObserveDD now sz pl dv s = Err panicked
  else exists o, ObserveDD now sz pl dv s = Ok o /\ section_ok s o.
Proof.
  intros Hs He. unfold ObserveDD. destruct dv as [e|]; cbn [from_option].
  2: { rewrite andb_false_r. eexists. split; [done|]. by apply section_idle. }
  destruct (dd_isStopped s) eqn:Est; cbn [negb andb orb]; [eexists; split; [done|]; by apply section_idle|].
  destruct (dd_paused s) eqn:Ep; cbn [negb andb orb]; [eexists; split; [done|]; by apply section_idle|].
  destruct (pl =? 0); cbn [negb andb]; [eexists; split; [done|]; by apply section_idle|].
  destruct (updateLayers_ok now e s Hs Ep) as ([[s1 fns] w] & -> & H1 & Hb). cbn [res_bind fst] in *.
  destruct (ext_targets e (He e eq_refl)) as [Ht [f Ef]]. unfold overruns, frameDtis. rewrite Ef.
  pose proof (so_ok _ _ H1) as Hs1. cbn [fst] in Hs1.
  pose proof (countTargets_spec (elems (DecodeTargetIndications f)) sz _ Ht _ (ok_bytes _ Hs1)) as Hc.
  destruct (existsb _ _); [by rewrite Hc|]. destruct Hc as (counts & -> & Hsh). cbn [res_bind].
  eexists. split; [done|]. destruct H1 as [A1 A2 A3 A4 A5], Hs1 as [O1 O2 O3 O4]. by constructor.
Qed.

Lemma SetPausedDD_ok now p s : dd_ok s -> exists o, SetPausedDD now p s = Ok o /\ section_ok s o.
Proof.
  intros Hs. unfold SetPausedDD. destruct (Bool.eqb_spec (dd_paused s) p) as [|Hne].
  { eexists. split; [done|]. by apply section_idle. }
  destruct p; cbn [negb].
  - eexists. split; [done|]. destruct Hs as [O1 O2 O3 O4]. by constructor.
  - match goal with |- context [callbacks _ _ ?x] => set (s' := x) end.
    assert (zlen (onStatusChanged s') = numSpatial) as El by exact (ok_status _ Hs).
    destruct (callbacks (zrange 0 (zlen (onStatusChanged s') - 1)) StreamStatusStopped s') as [fns|] eqn:E.
    2: { rewrite callbacks_eq in E; [done|]. apply Forall_forall. intros i Hi%elem_of_zrange. lia. }
    cbn [res_bind]. eexists. split; [done|]. assert (shaped (map (map (fun _ : Z => 0)) (dd_bytesForBitrate s)) /\
      shaped (map (map (fun _ : Z => 0)) (dd_bitrate s))) as [B1 B2].
    { destruct Hs as [_ _ [Lb Fb] [Lr Fr]]. unfold shaped, zlen in *. rewrite !length_map.
      split; (split; [done|]); apply Forall_fmap; (eapply Forall_impl; [eassumption|]); intros r Hr; cbn; by rewrite length_map. }
    constructor; cbn [fst snd]; [constructor; [done| |exact B1|exact B2]; unfold s'; cbn; done|done| |done|by right].
    intros layer Hl Hr. change (registered s layer) with (registered s' layer) in Hr.
    rewrite (lastHeard_callbacks _ _ _ s' 0 (zlen (onStatusChanged s') - 1) _ ltac:(lia) ltac:(lia) Hr E).
    pose proof (registered_range _ _ Hr). rewrite decide_True by lia. unfold StatusDD.
    change (maxSpatialLayer s') with (-1). by rewrite (proj2 (Z.gtb_lt _ _)) by lia.
Qed.

(** C19: on a descriptor that the parser emits, [Observe] ends the process exactly
    when a tracker at work gets a packet with a payload whose frame belongs to a
    decode target of a spatial layer above 2 or a temporal layer above 3: the
    layers of the mask are capped, those that index the counters are not. *)
Theorem ObserveDD_panics_iff now sz pl e s : dd_ok s -> ext_ok e ->
  ObserveDD now sz pl (Some e) s <> Err unfinished /\
  (ObserveDD now sz pl (Some e) s = Err panicked <->
   dd_isStopped s = false /\ dd_paused s = false /\ pl <> 0 /\
   exists dt, dt ∈ DecodeTargets e /\ counted (frameDtis e) dt = true /\
     (DefaultMaxLayerSpatial < Spatial (Layer dt) \/ DefaultMaxLayerTemporal < Temporal (Layer dt))).
Proof.
  intros Hs He. pose proof (ObserveDD_spec now sz pl (Some e) s Hs ltac:(by intros ? [= <-])) as H.
  cbn [from_option] in H. destruct (negb _ && _ && _ && _) eqn:E.
  - rewrite H. bool_prop. split; [done|]. split; [intros _|done]. split_and!; [done|done|lia|].
    match goal with Hx : overruns e = true |- _ => unfold overruns in Hx; apply existsb_exists in Hx as (dt & Hin & Hx) end.
    exists dt. apply list_elem_of_In in Hin. unfold outside in *. bool_prop. split_and!; [done|done|]. lia.
  - destruct H as (o & -> & _). split; [done|]. split; [done|]. intros (H1 & H2 & H3 & dt & Hin & Hc & Ho).
    rewrite H1, H2, (proj2 (Z.eqb_neq _ _)) in E by done. cbn [negb andb] in E. exfalso.
    assert (overruns e = true) as Ht; [|by rewrite E in Ht]. apply existsb_exists. exists dt.
    split; [by apply list_elem_of_In|]. rewrite Hc. unfold outside. rewrite !Z.gtb_ltb.
    destruct Ho; [by rewrite (proj2 (Z.ltb_lt _ _))|]. by rewrite (proj2 (Z.ltb_lt _ (Temporal _))), orb_true_r.
Qed.

(** ** Runs *)

Definition event_ok (e : dd_event) : Prop :=
  match e with DObserve _ _ _ (Some dv) => ext_ok dv /\ overruns dv = false | _ => True end.

(** The goroutine of a section has made its callbacks before the next section. *)
Fixpoint orderly (es : list dd_event) (y : DDSystem) : bool :=
  match es with
  | [] => true
  | e :: es =>
    (match e with DSetPaused _ _ | DObserve _ _ _ _ => match pending y with [] => true | _ => false end | _ => true end) &&
    match stepDD e y with Ok y => orderly es y | Err _ => true end
  end.

Definition NewDDSystem (fs : list bool) : DDSystem :=
  mkDDSystem (NewStreamTrackerDependencyDescriptor <| onStatusChanged := fs |>) [] [] [].

Lemma New_ok fs : zlen fs = numSpatial -> dd_ok (dd_tracker (NewDDSystem fs)).
Proof. intros Hf. constructor; [done|by vm_compute| |]; (split; [done|]); repeat constructor. Qed.

(** A section keeps what a step of the worker keeps. *)
Lemma bitrateReportDD_fields now s : let s' := fst (bitrateReportDD now s) in
  onStatusChanged s' = onStatusChanged s /\ maxSpatialLayer s' = maxSpatialLayer s /\
  dd_isStopped s' = dd_isStopped s /\ dd_paused s' = dd_paused s /\ dd_generation s' = dd_generation s.
Proof. done. Qed.

Lemma bitrateReportDD_ok now s : dd_ok s -> dd_ok (fst (bitrateReportDD now s)).
Proof.
  intros [O1 O2 [Lb Fb] [Lr Fr]]. constructor; [done|done| |].
  - split; cbn; [unfold zlen in *; by rewrite length_map|]. apply Forall_fmap. eapply Forall_impl; [exact Fb|].
    intros r Hr. cbn. unfold zlen in *. by rewrite length_map.
  - split; cbn; [unfold zlen in *; rewrite !length_map, length_combine; lia|].
    apply Forall_fmap, Forall_fmap. apply Forall_forall. intros [b r] Hin. cbn.
    apply list_elem_of_In, in_combine_l, list_elem_of_In in Hin.
    pose proof (proj1 (Forall_forall _ _) Fb b Hin) as Hb. cbn in Hb. unfold zlen in *. by rewrite length_map.
Qed.

(** A step runs a section or none, or fails where [Observe] does. *)
Lemma stepDD_cases e y : dd_ok (dd_tracker y) -> event_ok e -> exists y', stepDD e y = Ok y' /\
  match e with
  | DSetPaused _ _ | DObserve _ _ _ _ => exists o, y' = leave o y /\ section_ok (dd_tracker y) o
  | _ => True
  end.
Proof.
  intros Hs He. destruct e as [|now p|now sz pl dv| | |]; cbn [stepDD]; try (by eexists).
  - destruct (SetPausedDD_ok now p _ Hs) as (o & -> & Ho). cbn [res_bind]. eauto.
  - pose proof (ObserveDD_spec now sz pl dv _ Hs) as H. destruct dv as [dv|]; cbn [from_option] in H.
    + destruct He as [He Hov]. rewrite Hov, andb_false_r in H.
      destruct H as (o & -> & Ho); [by intros ? [= <-]|]. cbn [res_bind]. eauto.
    + rewrite andb_false_r in H. destruct H as (o & -> & Ho); [done|]. cbn [res_bind]. eauto.
Qed.

Section Heard.
Context (fs : list bool).

Record heard_inv (y : DDSystem) : Prop := {
  hi_ok : dd_ok (dd_tracker y);
  hi_callbacks : onStatusChanged (dd_tracker y) = fs;
  hi_one : (length (pending y) <= 1)%nat;
  hi_heard : forall layer, 0 <= layer -> zlookup fs layer = Some true ->
    lastHeard StreamStatusStopped layer (heard y ++ mjoin (pending y)) = StatusDD layer (dd_tracker y);
}.

Lemma leave_heard o y : heard_inv y -> pending y = [] -> section_ok (dd_tracker y) o -> heard_inv (leave o y).
Proof.
  intros [H1 H2 H3 H4] Hp [A1 A2 A3 _ _]. destruct o as [[s fns] w]. cbn [fst snd] in *. rewrite Hp in H4. constructor.
  - done.
  - cbn. by rewrite A2.
  - cbn. rewrite Hp. destruct fns; cbn; lia.
  - intros layer Hl Hr. cbn [leave heard pending field_upd dd_tracker]. rewrite Hp.
    assert (registered (dd_tracker y) layer = true) as Hreg by (unfold registered; by rewrite H2, Hr).
    specialize (H4 layer Hl Hr). cbn [mjoin list_join] in H4. rewrite app_nil_r in H4.
    assert (mjoin (match fns with [] => [] | _ => [] ++ [fns] end) = fns) as ->
      by (destruct fns; cbn; by rewrite ?app_nil_r).
    rewrite lastHeard_app, H4. by apply A3.
Qed.

Lemma deliver_heard g y : heard_inv y -> heard_inv (deliver g y).
Proof.
  intros H. unfold deliver. destruct (pending y !! g) as [[|n fns]|] eqn:E; [done| |done].
  destruct H as [H1 H2 H3 H4]. destruct (pending y) as [|p [|p2 ps]] eqn:Ep; [done| |cbn in H3; lia].
  destruct g as [|g]; [|done]. injection E as ->. constructor; [done|done|destruct fns; cbn; lia|].
  intros layer Hl Hr. cbn [heard pending field_upd dd_tracker]. rewrite <- (H4 layer Hl Hr). f_equal.
  rewrite <- app_assoc. f_equal. destruct fns; cbn; by rewrite ?app_nil_r.
Qed.

Lemma stepDD_heard e y : heard_inv y -> event_ok e ->
  (match e with DSetPaused _ _ | DObserve _ _ _ _ => match pending y with [] => true | _ => false end | _ => true end) = true ->
  exists y', stepDD e y = Ok y' /\ heard_inv y'.
Proof.
  intros Hi He Ho. destruct (stepDD_cases e y (hi_ok _ Hi) He) as (y' & Ey & Hc). exists y'. split; [done|].
  destruct e as [|now p|now sz pl dv|w|w now|g]; cbn [stepDD] in Ey.
  - injection Ey as <-. destruct Hi as [[O1 O2 O3 O4] H2 H3 H4]. unfold StopDD. by case_if.
  - destruct Hc as (o & -> & Hs). apply leave_heard; [done|by destruct (pending y)|done].
  - destruct Hc as (o & -> & Hs). apply leave_heard; [done|by destruct (pending y)|done].
  - injection Ey as <-. unfold tickDD. destruct (dd_workers y !! w) as [[g [|]]|]; try done.
    destruct Hi as [H1 H2 H3 H4]. by case_if.
  - injection Ey as <-. unfold workDD. destruct (dd_workers y !! w) as [[g [|]]|]; try done.
    destruct Hi as [H1 H2 H3 H4]. constructor; [by apply bitrateReportDD_ok|done|done|done].
  - injection Ey as <-. by apply deliver_heard.
Qed.

Lemma runDD_heard es : forall y, heard_inv y -> Forall event_ok es -> orderly es y = true ->
  exists y', runDD es y = Ok y' /\ heard_inv y'.
Proof.
  induction es as [|e es IH]; intros y Hi He Ho; [by exists y|]. cbn [orderly] in Ho. bool_prop.
  apply Forall_cons in He as [He Hes]. destruct (stepDD_heard e y Hi He ltac:(done)) as (y' & Ey & Hi').
  cbn [runDD]. rewrite Ey in *. cbn [res_bind]. by apply IH.
Qed.
End Heard.

(** C40: a tracker whose packets stay within the layers it counts runs without a
    panic, and when every goroutine makes its callbacks before the next section
    is entered, the last status that a layer's callback was given is the status
    of the layer, through new masks, pauses and resets. *)
Theorem heard_is_status es fs : zlen fs = numSpatial -> Forall event_ok es ->
  orderly es (NewDDSystem fs) = true ->
  exists y, runDD es (NewDDSystem fs) = Ok y /\
    forall layer, zlookup fs layer = Some true -> pending y = [] ->
      lastHeard StreamStatusStopped layer (heard y) = StatusDD layer (dd_tracker y).
Proof.
  intros Hf He Ho. assert (heard_inv fs (NewDDSystem fs)) as H0.
  { constructor; [by apply New_ok|done|cbn; lia|]. intros layer Hl _. unfold StatusDD.
    change (maxSpatialLayer _) with (-1). by rewrite (proj2 (Z.gtb_lt _ _)) by lia. }
  destruct (runDD_heard fs es _ H0 He Ho) as (y & Ey & [_ _ _ Hy]). exists y. split; [done|].
  intros layer Hr Hp. specialize (Hy layer ltac:(apply zlookup_Some in Hr; lia) Hr).
  rewrite Hp in Hy. cbn [mjoin list_join] in Hy. by rewrite app_nil_r in Hy.
Qed.

(** ** Workers *)

Definition liveDD (y : DDSystem) : list Z :=
  filter (fun g => g = dd_generation (dd_tracker y)) (map w_generation (dd_workers y)).

Record dd_worker_inv (n : Z) (y : DDSystem) : Prop := {
  dwi_ok : dd_ok (dd_tracker y);
  dwi_gen : 0 <= dd_generation (dd_tracker y) <= n;
  dwi_old : Forall (fun w => w_generation w <= dd_generation (dd_tracker y)) (dd_workers y);
  dwi_live : dd_isStopped (dd_tracker y) = false ->
    length (liveDD y) = if wanted (dd_tracker y) then 1%nat else 0%nat;
}.

Lemma leave_workers o n y : n < 2 ^ 32 - 1 -> dd_worker_inv n y -> section_ok (dd_tracker y) o ->
  dd_worker_inv (n + 1) (leave o y).
Proof.
  intros Hn [H1 H2 H3 H4] [A1 A2 _ A4 A5]. destruct o as [[s fns] w]. cbn [fst snd] in *. unfold worker_effect in A5.
  assert (u32 (dd_generation (dd_tracker y) + 1) = dd_generation (dd_tracker y) + 1) as Eu by (apply u32_small; lia).
  destruct w as [g|].
  - destruct A5 as (-> & Eg & Ew). rewrite Eu in Eg. constructor; cbn; [done|lia| |].
    + apply Forall_app. split; [|by constructor]. eapply Forall_impl; [exact H3|]. cbn. lia.
    + intros _. unfold liveDD. cbn. rewrite map_app, filter_app, Ew, Eg, no_live by done. cbn [map w_generation].
      by rewrite filter_cons_True.
  - destruct A5 as [[Eg Ew]|[Eg Ew]].
    + constructor; cbn; rewrite ?Eg; [done|lia|done|]. intros Hst. unfold liveDD in *. cbn. rewrite ?Eg, ?Ew. apply H4. by rewrite <- A4.
    + rewrite Eu in Eg. constructor; cbn; rewrite ?Eg; [done|lia| |].
      * eapply Forall_impl; [exact H3|]. cbn. lia.
      * intros _. unfold liveDD. cbn. by rewrite ?Eg, ?Ew, no_live.
Qed.

Lemma dd_worker_inv_same n y y' : dd_worker_inv n y -> dd_ok (dd_tracker y') ->
  map w_generation (dd_workers y') = map w_generation (dd_workers y) ->
  dd_generation (dd_tracker y') = dd_generation (dd_tracker y) -> wanted (dd_tracker y') = wanted (dd_tracker y) ->
  dd_isStopped (dd_tracker y') = dd_isStopped (dd_tracker y) -> dd_worker_inv (n + 1) y'.
Proof.
  intros [H1 H2 H3 H4] Hok Ew Eg Et Es. constructor; rewrite ?Eg; [done|lia| |].
  - by apply (old_generations (dd_workers y)).
  - rewrite Es, Et. unfold liveDD. by rewrite Ew, Eg.
Qed.

Lemma stepDD_workers e n y y' : n < 2 ^ 32 - 1 -> dd_worker_inv n y -> event_ok e -> stepDD e y = Ok y' ->
  dd_worker_inv (n + 1) y'.
Proof.
  intros Hn Hi He Ey. destruct (stepDD_cases e y (dwi_ok _ _ Hi) He) as (y1 & Ey1 & Hc).
  rewrite Ey in Ey1. injection Ey1 as <-.
  destruct e as [|now p|now sz pl dv|w|w now|g]; cbn [stepDD] in Ey.
  - injection Ey as <-. unfold StopDD. destruct (dd_isStopped (dd_tracker y)) eqn:E.
    + apply (dd_worker_inv_same n y); try done. exact (dwi_ok _ _ Hi).
    + destruct Hi as [[O1 O2 O3 O4] H2 H3 H4]. constructor; cbn; [by constructor| | |done]; rewrite u32_small by lia; [lia|].
      eapply Forall_impl; [exact H3|]. cbn. lia.
  - destruct Hc as (o & -> & Hs). by apply leave_workers.
  - destruct Hc as (o & -> & Hs). by apply leave_workers.
  - injection Ey as <-. unfold tickDD. destruct (dd_workers y !! w) as [[g [|]]|] eqn:E;
      try (by apply (dd_worker_inv_same n y); try done; exact (dwi_ok _ _ Hi)).
    case_if; bool_prop.
    + destruct Hi as [H1 H2 H3 H4]. constructor; cbn; [done|lia|by apply Forall_delete|].
      intros Hst. unfold liveDD in *. cbn. rewrite (filter_delete_other _ _ g None) by done. by apply H4.
    + apply (dd_worker_inv_same n y); try done; [exact (dwi_ok _ _ Hi)|]. cbn. by eapply map_generation_insert.
  - injection Ey as <-. unfold workDD. destruct (dd_workers y !! w) as [[g [k|]]|] eqn:E;
      try (by apply (dd_worker_inv_same n y); try done; exact (dwi_ok _ _ Hi)).
    apply (dd_worker_inv_same n y); try done; [apply bitrateReportDD_ok; exact (dwi_ok _ _ Hi)|].
    cbn. by eapply map_generation_insert.
  - injection Ey as <-. unfold deliver. destruct (pending y !! g) as [[|m fns]|];
      (by apply (dd_worker_inv_same n y); try done; exact (dwi_ok _ _ Hi)).
Qed.

(** In every interleaving of fewer than 2^32 steps that has not stopped the
    tracker, it has exactly one live worker when it is paused or knows its
    layers, and none before. *)
Theorem dd_one_live_worker es fs y : zlen fs = numSpatial -> Forall event_ok es -> zlen es < 2 ^ 32 ->
  runDD es (NewDDSystem fs) = Ok y -> dd_isStopped (dd_tracker y) = false ->
  length (liveDD y) = if wanted (dd_tracker y) then 1%nat else 0%nat.
Proof.
  intros Hf He Hb Hr. assert (dd_worker_inv 0 (NewDDSystem fs)) as H0.
  { constructor; [by apply New_ok|done|constructor|done]. }
  assert (forall n x, 0 <= n -> n + zlen es < 2 ^ 32 -> dd_worker_inv n x -> runDD es x = Ok y ->
    dd_worker_inv (n + zlen es) y) as Hrun.
  { clear H0 Hr Hb. induction He as [|e es He Hes IH]; intros n x Hn Hb Hi Hr.
    - injection Hr as <-. change (zlen []) with 0. by rewrite Z.add_0_r.
    - assert (zlen (e :: es) = 1 + zlen es) as E by (unfold zlen; cbn [length]; lia). rewrite E in *.
      cbn [runDD] in Hr. destruct (stepDD e x) as [x'|] eqn:Ex; [|done]. cbn [res_bind] in Hr.
      pose proof (zlen_nonneg es). replace (n + (1 + zlen es)) with (n + 1 + zlen es) by lia.
      apply (IH (n + 1) x'); [lia|lia| |done]. by apply (stepDD_workers e n x x'); [lia|..]. }
  by apply (dwi_live _ _ (Hrun 0 _ ltac:(lia) ltac:(lia) H0 Hr)).
Qed.

(** * Runs *)

(** A first packet with the extension [buf], parsed. *)
Definition parsed (buf : list Z) : option ExtDependencyDescriptor :=
  match ParsePacket (merge_sort not_below) plain_seq plain_frame 0 1 (Some buf) (NewDependencyDescriptorParser tt true) with
  | (_, _, Ok e) => Some e
  | _ => None
  end.

Lemma parsed_ok buf e : bytes buf -> parsed buf = Some e -> ext_ok e.
Proof.
  intros Hb E. unfold parsed in E.
  pose proof (ParsePacket_ok (merge_sort not_below) plain_seq plain_frame 0 1 (Some buf)
    (NewDependencyDescriptorParser tt true) eq_refl ltac:(by intros ? [= <-])) as H.
  destruct (ParsePacket _ _ _ _ _ _ _) as [[r l] [x|]]; [|done]. injection E as ->. by destruct H as (_ & _ & Ho & _).
Qed.

(** A key frame of four spatial layers, as many as the format has; its frame is
    in the first layer, which every target needs. *)
Definition ex_key4 : list Z := [192; 0; 1; 128; 3; 171; 170; 42; 10; 2; 0].

Definition ex_tracker : DDTracker := dd_tracker (NewDDSystem [true; true; true]).

Lemma ObserveDD_panics_iff_witness :
  match parsed ex_key4 with Some e => ObserveDD 0 1200 1100 (Some e) ex_tracker = Err panicked | None => False end.
Proof.
  destruct (parsed ex_key4) as [e|] eqn:E; [|vm_compute in E; discriminate E].
  assert (ext_ok e) as He.
  { refine (parsed_ok ex_key4 e _ E). repeat (apply Forall_cons; split; [unfold byte; lia|]). constructor. }
  vm_compute in E. injection E as <-.
  match goal with |- ObserveDD _ _ _ (Some ?e) _ = _ =>
    apply (ObserveDD_panics_iff 0 1200 1100 e ex_tracker (New_ok [true; true; true] eq_refl) He) end.
  split_and!; [reflexivity|reflexivity|discriminate|].
  exists (mkDecodeTargetLayer 3 (mkLayer 3 0)).
  split_and!; [apply list_elem_of_here|vm_compute; reflexivity|left; reflexivity].
Defined.

(** A stream of two spatial layers is paused and goes on. *)
Definition ex_pause (e : ExtDependencyDescriptor) : list dd_event :=
  [DObserve 0 1200 1100 (Some e); DDeliver 0; DDeliver 0; DSetPaused 5 true; DTick 0; DTick 0; DWork 0 7;
   DSetPaused 9 false; DDeliver 0; DDeliver 0; DDeliver 0].

Lemma heard_is_status_witness :
  match parsed ex_key1 with
  | Some e => exists y, runDD (ex_pause e) (NewDDSystem [true; true; true]) = Ok y /\ forall layer,
      zlookup [true; true; true] layer = Some true -> pending y = [] ->
      lastHeard StreamStatusStopped layer (heard y) = StatusDD layer (dd_tracker y)
  | None => False
  end.
Proof.
  destruct (parsed ex_key1) as [e|] eqn:E; [|vm_compute in E; discriminate E].
  assert (ext_ok e) as He.
  { refine (parsed_ok ex_key1 e _ E). repeat (apply Forall_cons; split; [unfold byte; lia|]). constructor. }
  apply heard_is_status; [reflexivity| |vm_compute in E; injection E as <-; vm_compute; reflexivity].
  repeat (apply Forall_cons; split; [|]); try exact Logic.I; [|constructor].
  split; [exact He|]. vm_compute in E. injection E as <-. vm_compute. reflexivity.
Defined.

Lemma ex_pause_heard :
  match parsed ex_key1 with
  | Some e => match runDD (ex_pause e) (NewDDSystem [true; true; true]) with Ok y => heard y | Err _ => [] end
  | None => []
  end = [(0, StreamStatusActive); (1, StreamStatusActive);
         (0, StreamStatusStopped); (1, StreamStatusStopped); (2, StreamStatusStopped)].
Proof. vm_compute. reflexivity. Qed.

(** The callbacks picked on resume are made after those of the packet that
    followed: the layers are active and reported stopped, for good. *)
Lemma late_stop_hides_active :
  match parsed ex_key1 with
  | Some e =>
    match runDD [DSetPaused 5 true; DSetPaused 9 false; DObserve 10 1200 1100 (Some e);
                 DDeliver 1; DDeliver 1; DDeliver 0; DDeliver 0; DDeliver 0] (NewDDSystem [true; true; true]) with
    | Ok y => pending y = [] /\ StatusDD 0 (dd_tracker y) = StreamStatusActive /\
              lastHeard StreamStatusStopped 0 (heard y) = StreamStatusStopped
    | Err _ => False
    end
  | None => False
  end.
Proof. vm_compute. by split_and!. Qed.

(** Pausing a stopped tracker starts a worker, which nothing stops. *)
Lemma pause_after_stop_starts_worker :
  match runDD [DStop; DSetPaused 0 true; DTick 0; DWork 0 1; DStop; DTick 0] (NewDDSystem [true; true; true]) with
  | Ok y => dd_isStopped (dd_tracker y) = true /\ liveDD y = [2]
  | Err _ => False
  end.
Proof. vm_compute. by split. Qed.
