(* ===== verification/Red.v ===== *)
(** * Redundant audio

    Models [src/SERVER/pkg/sfu/redreceiver.go] and
    [src/SERVER/pkg/sfu/redprimaryreceiver.go]: the receiver that adds the last
    two packets to every audio packet (RFC 2198), and the one that takes the
    audio out of such packets and recovers those that were lost.

    A payload is a slice of the buffer that its packet was read into, and the
    history of the encoder keeps slices, not copies; so buffers are in a [heap]
    that is read when a packet is encoded.  The buffer of the encoded payload is
    written from its start and handed on up to the last byte written: it is the
    list of these bytes. *)

From S2P Require Import Prelude.
From S2P Require Import KeyFrames.

Inductive red_error :=
| ErrIncompleteRedHeader
| ErrIncompleteRedBlock
| errRedSpace
| redPanic (s : stop).

(** What the code reads and sets of the header of an RTP packet. *)
Record RTPHeader := mkHeader {
  SequenceNumber : Z;
  Timestamp : Z;
  PayloadType : Z;
}.
#[export] Instance eta_RTPHeader : Eta RTPHeader := fun h => mkHeader (SequenceNumber h) (Timestamp h) (PayloadType h).

Record packet (P : Type) := mkPacket { Header : RTPHeader; Payload : P }.
Arguments mkPacket {P}.
Arguments Header {P}.
Arguments Payload {P}.

(** [buf[from:from+len]] *)
Record slice_ref := mkRef { ref_buf : nat; ref_from : Z; ref_len : Z }.

#[local] Abbreviation heap := (gmap nat (list Z)).

Definition view (m : heap) (r : slice_ref) : list Z :=
  ztake (ref_len r) (zdrop (ref_from r) (default [] (m !! ref_buf r))).

Definition load_payload (m : heap) (p : packet slice_ref) : packet (list Z) :=
  mkPacket (Header p) (view m (Payload p)).

Definition maxRedCount : Z := 2.
Definition mtuSize : Z := 1500.
Definition maxRedPayload : Z := 1024.
Definition opusPT : Z := 111.
Definition opusRedPT : Z := 63.

(** ** The encoder *)

Definition blockHeader (primaryTS ts len : Z) : Z :=
  let header := u32 (Z.lor 0x80 opusPT) in
  let header := u32 (Z.shiftl header 14) in
  let header := Z.lor header (Z.land (u32 (primaryTS - ts)) 0x3FFF) in
  let header := u32 (Z.shiftl header 10) in
  Z.lor header (Z.land (u32 len) 0x3FF).

(** [binary.BigEndian.PutUint32(redPayload[index:], ..)] and
    [redPayload[index] = ..], where [index] is the length of [out]. *)
Definition put (cap : Z) (out bs : list Z) : res red_error (list Z) :=
  if zlen out + zlen bs <=? cap then Ok (out ++ bs) else Err (redPanic panicked).

Fixpoint putHeaders (cap primaryTS : Z) (redPkts : list (packet (list Z))) (out : list Z) : res red_error (list Z) :=
  match redPkts with
  | [] => Ok out
  | p :: redPkts =>
    let! out := put cap out (bytes32 (blockHeader primaryTS (Timestamp (Header p)) (zlen (Payload p)))) in
    putHeaders cap primaryTS redPkts out
  end.

(** [copy(redPayload[index:], p.Payload)] copies what there is room for. *)
Fixpoint putBlocks (cap : Z) (redPkts : list (packet (list Z))) (out : list Z) : res red_error (list Z) :=
  match redPkts with
  | [] => Ok out
  | p :: redPkts =>
    if zlen out >? cap then Err (redPanic panicked)
    else if Z.min (cap - zlen out) (zlen (Payload p)) <? zlen (Payload p) then Err errRedSpace
    else putBlocks cap redPkts (out ++ Payload p)
  end.

Definition encodeRedForPrimary (redPkts : list (packet (list Z))) (primary : packet (list Z)) (cap : Z)
  : res red_error (list Z) :=
  let payloadSize := fold_left (fun n p => n + (zlen (Payload p) + 4)) redPkts (zlen (Payload primary) + 1) in
  let redPkts := if payloadSize >? cap then [] else redPkts in
  let! out := putHeaders cap (Timestamp (Header primary)) redPkts [] in
  let! out := put cap out [opusPT] in
  putBlocks cap (redPkts ++ [primary]) out.

(** [r.pktBuff] *)
Record RedReceiver := mkRedReceiver { pktBuff : list (option (packet slice_ref)) }.

Definition NewRedReceiver : RedReceiver := mkRedReceiver (repeat None (Z.to_nat maxRedCount)).

(** [r.pktBuff[lastNilPkt+1:]] *)
Definition afterLastNil {A} (buf : list (option A)) : list A :=
  fold_left (fun acc o => match o with None => [] | Some p => acc ++ [p] end) buf [].

(** A packet of the history that goes along. *)
Definition redundant {P} (pkt prev : packet P) : bool :=
  negb ((SequenceNumber (Header pkt) =? SequenceNumber (Header prev)) ||
        (u16 (SequenceNumber (Header pkt) - SequenceNumber (Header prev)) >? maxRedCount) ||
        (u32 (Timestamp (Header pkt) - Timestamp (Header prev)) >=? 16384)).

(** [for j := 0; j < i; j++ { r.pktBuff[j] = r.pktBuff[j+1] }] *)
Definition ageOut {A} (i : Z) (buf : list (option A)) : list (option A) :=
  fold_left (fun b j => zset j (default None (zlookup b (j + 1))) b) (zrange 0 (i - 1)) buf.

Fixpoint insertHistory {P} (pkt : packet P) (idxs : list Z) (buf : list (option (packet P))) : list (option (packet P)) :=
  match idxs with
  | [] => buf
  | i :: idxs =>
    let newer :=
      match default None (zlookup buf i) with
      | None => true
      | Some p => u16 (SequenceNumber (Header pkt) - SequenceNumber (Header p)) <? 32768
      end in
    if newer then zset i (Some pkt) (ageOut i buf) else insertHistory pkt idxs buf
  end.

(** The method: the packets that go along, and the history. *)
Definition encodeRed (m : heap) (pkt : packet slice_ref) (r : RedReceiver) : RedReceiver * res red_error (list Z) :=
  let redPkts := List.filter (redundant pkt) (afterLastNil (pktBuff r)) in
  let r := mkRedReceiver (insertHistory pkt (zdown (zlen (pktBuff r) - 1)) (pktBuff r)) in
  (r, encodeRedForPrimary (map (load_payload m) redPkts) (load_payload m pkt) mtuSize).

(** What a down track is given. *)
Inductive sent :=
| SentNothing
| Sent (p : packet (list Z)).

Definition ForwardRed (downTracks : Z) (m : heap) (pkt : packet slice_ref) (r : RedReceiver)
  : res stop (RedReceiver * sent) :=
  if downTracks =? 0 then Ok (r, SentNothing)
  else if ref_len (Payload pkt) >=? maxRedPayload then Ok (r, Sent (load_payload m pkt))
  else
    let (r, red) := encodeRed m pkt r in
    match red with
    | Ok payload => Ok (r, Sent (mkPacket ((Header pkt) <| PayloadType := opusRedPT |>) payload))
    | Err (redPanic s) => Err s
    | Err _ => Ok (r, SentNothing)
    end.

(** ** The decoder *)

Record block := mkBlock { tsOffset : Z; blk_length : Z; pt : Z; primary : bool }.

(** The loop over the block headers: the blocks, the total length of the
    redundant ones, and the rest of the payload. *)
Fixpoint redBlocks (fuel : nat) (payload : list Z) (blocks : list block) (blockLength : Z)
  : res red_error (list block * Z * list Z) :=
  match fuel with
  | O => Err (redPanic unfinished)
  | S fuel =>
    if zlen payload <? 1 then Err ErrIncompleteRedHeader
    else
      let! b0 := load (redPanic panicked) payload 0 in
      if Z.land b0 0x80 =? 0 then
        Ok (blocks ++ [mkBlock 0 0 (Z.land b0 0x7F) true], blockLength, zdrop 1 payload)
      else if zlen payload <? 4 then Err ErrIncompleteRedHeader
      else
        let! b1 := load (redPanic panicked) payload 1 in
        let! b2 := load (redPanic panicked) payload 2 in
        let! b3 := load (redPanic panicked) payload 3 in
        let blockHead := be32 b0 b1 b2 b3 in
        let length := Z.land blockHead 0x3FF in
        let blockHead := Z.shiftr blockHead 10 in
        let tsOffset := Z.land blockHead 0x3FFF in
        let blockHead := Z.shiftr blockHead 14 in
        let pt := Z.land blockHead 0x7F in
        redBlocks fuel (zdrop 4 payload) (blocks ++ [mkBlock tsOffset length pt false]) (blockLength + length)
  end.

(** [payload[:n]] and [payload[n:]] *)
Definition splitAt (n : Z) (payload : list Z) : res red_error (list Z * list Z) :=
  if (0 <=? n) && (n <=? zlen payload) then Ok (ztake n payload, zdrop n payload) else Err (redPanic panicked).

(** The loop over the blocks; the last argument but one counts those that are
    left. *)
Fixpoint recoverBlocks (header : RTPHeader) (recoverBits : Z) (blocks : list block) (payload : list Z)
  : res red_error (list (packet (list Z))) :=
  match blocks with
  | [] => Ok []
  | b :: blocks =>
    if primary b then Ok [mkPacket (header <| PayloadType := pt b |>) payload]
    else
      let recoverIndex := zlen blocks in
      let! (data, rest) := splitAt (blk_length b) payload in
      if (recoverIndex <? 1) || (Z.land recoverBits (u8 (Z.shiftl 1 (recoverIndex - 1))) =? 0) then
        recoverBlocks header recoverBits blocks rest
      else
        let h := header <| SequenceNumber := u16 (SequenceNumber header - u16 recoverIndex) |>
                        <| Timestamp := u32 (Timestamp header - tsOffset b) |>
                        <| PayloadType := pt b |> in
        let! pkts := recoverBlocks header recoverBits blocks rest in
        Ok (mkPacket h data :: pkts)
  end.

Definition extractPktsFromRed (redPkt : packet (list Z)) (recoverBits : Z) : res red_error (list (packet (list Z))) :=
  let! (blocks, blockLength, payload) := redBlocks (S (length (Payload redPkt))) (Payload redPkt) [] 0 in
  if zlen payload <? blockLength then Err ErrIncompleteRedBlock
  else recoverBlocks (Header redPkt) recoverBits blocks payload.

(** The loop of [extractPrimaryEncodingForRED]. *)
Fixpoint skipHeaders (fuel : nat) (payload : list Z) (blockLength : Z) : res red_error (Z * list Z) :=
  match fuel with
  | O => Err (redPanic unfinished)
  | S fuel =>
    if zlen payload <? 1 then Err ErrIncompleteRedHeader
    else
      let! b0 := load (redPanic panicked) payload 0 in
      if Z.land b0 0x80 =? 0 then Ok (blockLength, zdrop 1 payload)
      else if zlen payload <? 4 then Err ErrIncompleteRedHeader
      else
        let! b2 := load (redPanic panicked) payload 2 in
        let! b3 := load (redPanic panicked) payload 3 in
        skipHeaders fuel (zdrop 4 payload) (blockLength + Z.land (be16 b2 b3) 0x3FF)
  end.

Definition extractPrimaryEncodingForRED (payload : list Z) : res red_error (list Z) :=
  let! (blockLength, payload) := skipHeaders (S (length payload)) payload 0 in
  if zlen payload <? blockLength then Err ErrIncompleteRedBlock
  else
    let! (_, rest) := splitAt blockLength payload in
    Ok rest.

Record RedPrimaryReceiver := mkRedPrimaryReceiver {
  redPT : Z;
  firstPktReceived : bool;
  lastSeq : Z;
  pktHistory : Z;   (** bit [i]: packet [lastSeq-1-i] was received *)
}.
#[export] Instance eta_RedPrimaryReceiver : Eta RedPrimaryReceiver := fun r =>
  mkRedPrimaryReceiver (redPT r) (firstPktReceived r) (lastSeq r) (pktHistory r).

Definition NewRedPrimaryReceiver (pt : Z) : RedPrimaryReceiver := mkRedPrimaryReceiver pt false 0 0.

(** The history, and whether to look for lost packets. *)
Definition updateHistory (seq : Z) (r : RedPrimaryReceiver) : RedPrimaryReceiver * bool :=
  if negb (firstPktReceived r) then
    (r <| lastSeq := seq |> <| pktHistory := 0 |> <| firstPktReceived := true |>, false)
  else
    let diff := u16 (seq - lastSeq r) in
    if diff =? 0 then (r, false)
    else if diff >? 0x8000 then
      if 65535 - diff <? 8 then (r <| pktHistory := Z.lor (pktHistory r) (Z.shiftl 1 (65535 - diff)) |>, true)
      else (r, false)
    else if diff >? 8 then (r <| lastSeq := seq |> <| pktHistory := 0 |>, true)
    else
      (r <| lastSeq := seq |>
         <| pktHistory := Z.lor (u8 (Z.shiftl (pktHistory r) diff)) (u8 (Z.shiftl 1 (diff - 1))) |>, true).

(** [for i := range maxRedCount] *)
Fixpoint missingBits (idxs : list Z) (history bitIndex bits : Z) : Z :=
  match idxs with
  | [] => bits
  | i :: idxs =>
    if bitIndex >? 7 then bits
    else
      let bits := if Z.land history (u8 (Z.shiftl 1 bitIndex)) =? 0 then Z.lor bits (u8 (Z.shiftl 1 i)) else bits in
      missingBits idxs history (u16 (bitIndex + 1)) bits
  end.

Definition getSendPktsFromRed (p : packet (list Z)) (r : RedPrimaryReceiver)
  : RedPrimaryReceiver * res red_error (list (packet (list Z))) :=
  let seq := SequenceNumber (Header p) in
  let (r, needRecover) := updateHistory seq r in
  let recoverBits :=
    if needRecover then missingBits (zrange 0 (maxRedCount - 1)) (pktHistory r) (u16 (lastSeq r - seq)) 0 else 0 in
  (r, extractPktsFromRed p recoverBits).

(** A packet for the down tracks with its extended number and timestamp. *)
Definition ext_pkt : Type := packet (list Z) * Z * Z.

Definition patchExt (extSN extTS : Z) (last p : packet (list Z)) : ext_pkt :=
  (p, u64 (extSN - u16 (SequenceNumber (Header last) - SequenceNumber (Header p))),
      u64 (extTS - u32 (Timestamp (Header last) - Timestamp (Header p)))).

Definition ForwardPrimary (downTracks extSN extTS : Z) (p : packet (list Z)) (r : RedPrimaryReceiver)
  : res stop (RedPrimaryReceiver * list ext_pkt) :=
  if downTracks =? 0 then Ok (r, [])
  else if negb (PayloadType (Header p) =? redPT r) then Ok (r, [(p, extSN, extTS)])
  else
    let (r, pkts) := getSendPktsFromRed p r in
    match pkts with
    | Ok pkts =>
      match last pkts with
      | Some l => Ok (r, map (patchExt extSN extTS l) (removelast pkts) ++ [(l, extSN, extTS)])
      | None => Ok (r, [])
      end
    | Err (redPanic s) => Err s
    | Err _ => Ok (r, [])
    end.
