(* ===== verification/RedSpec.v ===== *)
(** * Redundant audio: recovery of losses

    The theorems of [Red]: what the encoder writes is what the decoder reads,
    two parsers of one payload agree, and a stream that loses at most two packets
    in a row is delivered whole, the bytes of the recovered packets apart, which
    are right when every packet was read into a buffer of its own. *)

From S2P Require Import Prelude.
From S2P Require Import KeyFrames.
From S2P Require Import Red.

#[local] Abbreviation heap := (gmap nat (list Z)).

(** ** Block headers *)

Lemma blockHeader_eq pts ts len : u32 (pts - ts) < 16384 -> 0 <= len < 1024 ->
  blockHeader pts ts len = 239 * 16777216 + u32 (pts - ts) * 1024 + len.
Proof.
  intros Ho Hl. pose proof (u32_range (pts - ts)). unfold blockHeader.
  change (u32 (Z.shiftl (u32 (Z.lor 128 opusPT)) 14)) with (239 * 2 ^ 14).
  change 0x3FFF with (2 ^ 14 - 1). rewrite land_mask, Z.mod_small by lia.
  rewrite (lor_disjoint 239 (u32 (pts - ts)) 14) by lia.
  rewrite Z.shiftl_mul_pow2, (u32_small ((239 * 2 ^ 14 + u32 (pts - ts)) * 2 ^ 10)), (u32_small len) by lia.
  change 0x3FF with (2 ^ 10 - 1). rewrite land_mask, (Z.mod_small len) by lia.
  rewrite (lor_disjoint (239 * 2 ^ 14 + u32 (pts - ts)) len 10) by lia. lia.
Qed.

(** ** What is written is read *)

(** A packet of the source, with its extended number and timestamp. *)
Record source := mkSource { s_esn : Z; s_ets : Z; s_pt : Z; s_data : list Z }.

Definition src_packet (q : source) : packet (list Z) :=
  mkPacket (mkHeader (u16 (s_esn q)) (u32 (s_ets q)) (s_pt q)) (s_data q).

Definition red_header (p q : source) : list Z :=
  bytes32 (blockHeader (u32 (s_ets p)) (u32 (s_ets q)) (zlen (s_data q))).

(** The payload with the packets [hist] in front of [p]. *)
Definition encoded (hist : list source) (p : source) : list Z :=
  mjoin (map (red_header p) hist) ++ opusPT :: mjoin (map s_data hist) ++ s_data p.

(** [q] comes [k] packets before [p] and at most 16383 ticks. *)
Definition near (p : source) (k : Z) (q : source) : Prop :=
  s_esn p = s_esn q + k /\ s_ets q <= s_ets p < s_ets q + 16384.

Definition src_ok (q : source) : Prop :=
  0 <= s_esn q < 2 ^ 63 /\ 0 <= s_ets q < 2 ^ 63 /\ zlen (s_data q) <= 497.

Definition red_block (p q : source) : block := mkBlock (s_ets p - s_ets q) (zlen (s_data q)) opusPT false.

Lemma u32_diff a b : 0 <= a - b < 4294967296 -> u32 (u32 a - u32 b) = a - b.
Proof. intros H. unfold u32. rewrite <- Zminus_mod. by apply Z.mod_small. Qed.

Lemma u16_diff a b : 0 <= a - b < 65536 -> u16 (u16 a - u16 b) = a - b.
Proof. intros H. unfold u16. rewrite <- Zminus_mod. by apply Z.mod_small. Qed.

Lemma redBlocks_header p q k fuel rest blocks n : near p k q -> src_ok q ->
  redBlocks (S fuel) (red_header p q ++ rest) blocks n =
  redBlocks fuel rest (blocks ++ [red_block p q]) (n + zlen (s_data q)).
Proof.
  intros [_ Hts] (_ & _ & Hl). pose proof (zlen_nonneg (s_data q)).
  assert (u32 (u32 (s_ets p) - u32 (s_ets q)) = s_ets p - s_ets q) as Eo by (apply u32_diff; lia).
  unfold red_header. rewrite blockHeader_eq, Eo by lia.
  set (x := 239 * 16777216 + (s_ets p - s_ets q) * 1024 + zlen (s_data q)). rewrite bytes32_eq.
  assert (x = 239 * 16777216 + ((s_ets p - s_ets q) * 1024 + zlen (s_data q))) as Ex by (unfold x; lia).
  clearbody x. assert (x / 16777216 = 239) as E0 by (symmetry; apply (Z.div_unique _ _ _ ((s_ets p - s_ets q) * 1024 + zlen (s_data q))); lia). rewrite E0. change (239 mod 256) with 239.
  cbn [redBlocks app]. rewrite !zlen_cons. pose proof (zlen_nonneg rest). rewrite !(proj2 (Z.ltb_ge _ _)) by lia.
  change (load (redPanic panicked) (239 :: ?l) 0) with (Ok 239 : res red_error Z). cbn [res_bind].
  change (Z.land 239 128 =? 0) with false. cbv iota.
  change (load (redPanic panicked) (?a :: ?b :: ?l) 1) with (Ok b : res red_error Z).
  change (load (redPanic panicked) (?a :: ?b :: ?c :: ?l) 2) with (Ok c : res red_error Z).
  change (load (redPanic panicked) (?a :: ?b :: ?c :: ?d :: ?l) 3) with (Ok d : res red_error Z). cbn [res_bind].
  rewrite be32_eq by (apply byte_mod || by unfold byte).
  assert (239 * 16777216 + x / 65536 mod 256 * 65536 + x / 256 mod 256 * 256 + x mod 256 = x) as -> by dlia.
  change (zdrop 4 (?a :: ?b :: ?c :: ?d :: rest)) with rest. unfold red_block.
  rewrite !Z.shiftr_div_pow2 by lia. change 0x3FF with (2 ^ 10 - 1). change 0x3FFF with (2 ^ 14 - 1). change 0x7F with (2 ^ 7 - 1).
  rewrite !land_mask by lia. f_equal; [|dlia].
  f_equal. f_equal. unfold opusPT. f_equal; dlia.
Qed.

Lemma redBlocks_encoded p hist : Forall (fun q => exists k, near p k q /\ src_ok q) hist ->
  forall fuel blocks n body, (length hist < fuel)%nat ->
  redBlocks fuel (mjoin (map (red_header p) hist) ++ opusPT :: body) blocks n =
  Ok (blocks ++ map (red_block p) hist ++ [mkBlock 0 0 opusPT true],
      n + fold_right (fun q s => zlen (s_data q) + s) 0 hist, body).
Proof.
  induction 1 as [|q hist (k & Hn & Hq) _ IH]; intros fuel blocks n body Hf; (destruct fuel as [|fuel]; [cbn in Hf; lia|]).
  - cbn [map mjoin list_join app fold_right redBlocks]. rewrite zlen_cons. pose proof (zlen_nonneg body).
    rewrite (proj2 (Z.ltb_ge _ _)) by lia. change (load _ (opusPT :: body) 0) with (Ok opusPT : res red_error Z).
    cbn [res_bind]. change (Z.land opusPT 128 =? 0) with true. cbv iota. by rewrite Z.add_0_r.
  - cbn [map fold_right]. change (mjoin (?a :: ?l)) with (a ++ mjoin l). rewrite <- app_assoc.
    rewrite (redBlocks_header p q k), IH by (done || (cbn in Hf; lia)).
    rewrite <- app_assoc. cbn [app]. by rewrite Z.add_assoc.
Qed.

(** What the recovery flags pick of the packets in front. *)
Definition flagged (bits recoverIndex : Z) : bool :=
  negb ((recoverIndex <? 1) || (Z.land bits (u8 (Z.shiftl 1 (recoverIndex - 1))) =? 0)).

Fixpoint recovered (p : source) (bits : Z) (hist : list source) : list (packet (list Z)) :=
  match hist with
  | [] => []
  | q :: hist' =>
    let h := mkHeader (u16 (u16 (s_esn p) - u16 (zlen hist))) (u32 (u32 (s_ets p) - (s_ets p - s_ets q))) opusPT in
    (if flagged bits (zlen hist) then [mkPacket h (s_data q)] else []) ++ recovered p bits hist'
  end.

(** The packet as it is forwarded. *)
Definition opus (q : source) : packet (list Z) := mkPacket (mkHeader (u16 (s_esn q)) (u32 (s_ets q)) opusPT) (s_data q).

Lemma splitAt_app a b : splitAt (zlen a) (a ++ b) = Ok (a, b).
Proof.
  unfold splitAt. rewrite zlen_app. pose proof (zlen_nonneg a). pose proof (zlen_nonneg b).
  rewrite !(proj2 (Z.leb_le _ _)) by lia. unfold ztake, zdrop, zlen. rewrite Nat2Z.id, take_app_length, drop_app_length. done.
Qed.

Lemma recoverBlocks_encoded p bits hist pt :
  recoverBlocks (mkHeader (u16 (s_esn p)) (u32 (s_ets p)) pt) bits (map (red_block p) hist ++ [mkBlock 0 0 opusPT true])
    (mjoin (map s_data hist) ++ s_data p) = Ok (recovered p bits hist ++ [opus p]).
Proof.
  induction hist as [|q hist IH]; [done|]. cbn [map app recovered]. change (mjoin (?a :: ?l)) with (a ++ mjoin l).
  rewrite <- app_assoc. cbn [recoverBlocks red_block primary blk_length]. rewrite splitAt_app. cbn [res_bind].
  assert (zlen (map (red_block p) hist ++ [mkBlock 0 0 opusPT true]) = zlen (q :: hist)) as ->.
  { unfold zlen. rewrite length_app, length_map. cbn [length]. lia. }
  unfold flagged. destruct (_ || _); cbn [negb]; rewrite IH; cbn [res_bind app]; [done|].
  unfold red_block. reflexivity.
Qed.

Lemma zlen_headers p hist : zlen (mjoin (map (red_header p) hist)) = 4 * zlen hist.
Proof.
  induction hist as [|q hist IH]; [done|]. cbn [map]. change (mjoin (?a :: ?l)) with (a ++ mjoin l).
  rewrite zlen_app, IH, zlen_cons. unfold red_header, bytes32. change (zlen [_; _; _; _]) with 4. lia.
Qed.

Lemma zlen_blocks hist : zlen (mjoin (map s_data hist)) = fold_right (fun q s => zlen (s_data q) + s) 0 hist.
Proof.
  induction hist as [|q hist IH]; [done|]. cbn [map fold_right]. change (mjoin (?a :: ?l)) with (a ++ mjoin l).
  by rewrite zlen_app, IH.
Qed.

Lemma extract_encoded p bits hist pt : Forall (fun q => exists k, near p k q /\ src_ok q) hist ->
  extractPktsFromRed (mkPacket (mkHeader (u16 (s_esn p)) (u32 (s_ets p)) pt) (encoded hist p)) bits =
  Ok (recovered p bits hist ++ [opus p]).
Proof.
  intros Hh. unfold extractPktsFromRed. cbn [Payload Header]. unfold encoded.
  rewrite (redBlocks_encoded p hist Hh). 2: { pose proof (zlen_headers p hist) as E. unfold zlen in E.
    rewrite length_app. lia. }
  cbn [res_bind app]. rewrite zlen_app, zlen_blocks. pose proof (zlen_nonneg (s_data p)).
  rewrite (proj2 (Z.ltb_ge _ _)) by lia. apply recoverBlocks_encoded.
Qed.

(** ** The stream of the encoder *)

(** What the encoder does to the packets of a reader: each is copied, header and
    payload, to the start of a buffer, and encoded. *)
Definition readInto (b : nat) (raw : list Z) (m : heap) : heap :=
  <[b := raw ++ zdrop (zlen raw) (default [] (m !! b))]> m.

Record arrival := mkArrival { a_buf : nat; a_header : list Z; a_source : source }.

Definition arrived (a : arrival) : packet slice_ref :=
  mkPacket (Header (src_packet (a_source a))) (mkRef (a_buf a) (zlen (a_header a)) (zlen (s_data (a_source a)))).

Fixpoint sendRun (l : list arrival) (m : heap) (r : RedReceiver) : res stop (list sent) :=
  match l with
  | [] => Ok []
  | a :: l =>
    let m := readInto (a_buf a) (a_header a ++ s_data (a_source a)) m in
    let! (r, s) := ForwardRed 1 m (arrived a) r in
    let! rest := sendRun l m r in
    Ok (s :: rest)
  end.

(** The last two packets, the older one first. *)
Definition history (o2 o1 : option source) : list source := option_list o2 ++ option_list o1.

(** Every packet directly follows the one before, and is near the last two. *)
Fixpoint stream_ok (o2 o1 : option source) (l : list source) : Prop :=
  match l with
  | [] => True
  | p :: l =>
    src_ok p /\ (forall q, o1 = Some q -> near p 1 q /\ src_ok q) /\ (forall q, o2 = Some q -> near p 2 q /\ src_ok q) /\
    stream_ok o1 (Some p) l
  end.

Definition red_packet (hist : list source) (p : source) : packet (list Z) :=
  mkPacket (mkHeader (u16 (s_esn p)) (u32 (s_ets p)) opusRedPT) (encoded hist p).

Fixpoint red_stream (o2 o1 : option source) (l : list source) : list (packet (list Z)) :=
  match l with
  | [] => []
  | p :: l => red_packet (history o2 o1) p :: red_stream o1 (Some p) l
  end.

Lemma putHeaders_ok cap p hist : forall out, zlen out + 4 * zlen hist <= cap ->
  putHeaders cap (u32 (s_ets p)) (map src_packet hist) out = Ok (out ++ mjoin (map (red_header p) hist)).
Proof.
  induction hist as [|q hist IH]; intros out Hc; cbn [map putHeaders]; [by rewrite app_nil_r|].
  rewrite zlen_cons in Hc. pose proof (zlen_nonneg hist). unfold put. change (zlen (bytes32 _)) with 4.
  rewrite (proj2 (Z.leb_le _ _)) by lia. cbn [res_bind].
  rewrite IH by (rewrite zlen_app; change (zlen (bytes32 _)) with 4; lia).
  change (mjoin (?a :: ?l)) with (a ++ mjoin l). by rewrite <- app_assoc.
Qed.

Lemma putBlocks_ok cap l : forall out, zlen out + fold_right (fun q s => zlen (s_data q) + s) 0 l <= cap ->
  putBlocks cap (map src_packet l) out = Ok (out ++ mjoin (map s_data l)).
Proof.
  induction l as [|q l IH]; intros out Hc; cbn [map putBlocks fold_right] in *; [by rewrite app_nil_r|].
  assert (0 <= fold_right (fun q s => zlen (s_data q) + s) 0 l) by (rewrite <- zlen_blocks; apply zlen_nonneg).
  pose proof (zlen_nonneg (s_data q)). change (Payload (src_packet q)) with (s_data q).
  rewrite Z.gtb_ltb, (proj2 (Z.ltb_ge _ _)), (proj2 (Z.ltb_ge _ _)) by lia.
  rewrite IH by (rewrite zlen_app; lia). change (mjoin (?a :: ?l)) with (a ++ mjoin l). by rewrite <- app_assoc.
Qed.

Lemma encode_ok hist p : (length hist <= 2)%nat -> Forall src_ok hist -> src_ok p ->
  encodeRedForPrimary (map src_packet hist) (src_packet p) mtuSize = Ok (encoded hist p).
Proof.
  intros Hl Hh Hp. unfold encodeRedForPrimary.
  assert (forall n, fold_left (fun n q => n + (zlen (Payload q) + 4)) (map src_packet hist) n =
    n + fold_right (fun q s => zlen (s_data q) + s) 0 hist + 4 * zlen hist) as Hs.
  { clear Hl Hh. induction hist as [|q hist IH]; intros n; [change (@zlen source []) with 0; cbn; lia|]. cbn [map fold_left fold_right].
    rewrite IH, zlen_cons. change (Payload (src_packet q)) with (s_data q). lia. }
  rewrite Hs. change (Payload (src_packet p)) with (s_data p).
  assert (fold_right (fun q s => zlen (s_data q) + s) 0 hist <= 497 * zlen hist) as Hb.
  { clear Hl Hs. induction Hh as [|q hist (_ & _ & Hq) _ IH]; [done|]. cbn [fold_right]. rewrite zlen_cons. lia. }
  assert (zlen hist <= 2) by (unfold zlen; lia). destruct Hp as (_ & _ & Hd). pose proof (zlen_nonneg (s_data p)).
  pose proof (zlen_nonneg hist).
  assert (0 <= fold_right (fun q s => zlen (s_data q) + s) 0 hist) by (rewrite <- zlen_blocks; apply zlen_nonneg).
  unfold mtuSize. rewrite Z.gtb_ltb, (proj2 (Z.ltb_ge _ _)) by lia.
  change (Timestamp (Header (src_packet p))) with (u32 (s_ets p)).
  rewrite putHeaders_ok by (change (@zlen Z []) with 0; lia). cbn [res_bind app]. unfold put.
  rewrite zlen_headers. change (zlen [opusPT]) with 1. rewrite (proj2 (Z.leb_le _ _)) by lia. cbn [res_bind].
  change ([src_packet p]) with (map src_packet [p]). rewrite <- map_app, putBlocks_ok.
  - unfold encoded. rewrite <- app_assoc, map_app, join_app. cbn [app map]. change (mjoin [s_data p]) with (s_data p ++ []).
    by rewrite app_nil_r.
  - rewrite zlen_app, zlen_headers, fold_right_app. change (zlen [opusPT]) with 1. cbn [fold_right].
    assert (forall x, fold_right (fun q s => zlen (s_data q) + s) x hist =
      fold_right (fun q s => zlen (s_data q) + s) 0 hist + x) as ->; [|lia].
    intros x. clear. induction hist as [|q hist IH]; cbn [fold_right]; lia.
Qed.

(** The history refers to the last two packets. *)
Definition refers (m : heap) (o : option (packet slice_ref)) (q : option source) : Prop :=
  match o, q with
  | Some r, Some q => load_payload m r = src_packet q
  | None, None => True
  | _, _ => False
  end.

Definition buf_of (o : option (packet slice_ref)) : list nat :=
  match o with Some r => [ref_buf (Payload r)] | None => [] end.

Lemma refers_readInto m b raw o q : b ∉ buf_of o -> refers m o q -> refers (readInto b raw m) o q.
Proof.
  intros Hb. destruct o as [r|], q as [q|]; try done. cbn [refers]. intros <-. unfold load_payload, view, readInto.
  rewrite lookup_insert_ne; [done|]. intros ->. apply Hb. by apply list_elem_of_here.
Qed.

Lemma load_arrived a m : load_payload (readInto (a_buf a) (a_header a ++ s_data (a_source a)) m) (arrived a) =
  src_packet (a_source a).
Proof.
  unfold load_payload, view, arrived, readInto. cbn [Header Payload ref_buf ref_from ref_len].
  rewrite lookup_insert_eq. cbn [default from_option]. unfold zdrop at 1, ztake, zlen. rewrite !Nat2Z.id.
  rewrite <- app_assoc. cbn [id]. rewrite drop_app_length, take_app_length. by destruct (a_source a).
Qed.

Lemma redundant_near {P} (p q : source) (x y : packet P) k : near p k q -> 1 <= k <= 2 ->
  Header x = Header (src_packet p) -> Header y = Header (src_packet q) -> redundant x y = true.
Proof.
  intros [Hn Ht] Hk Ex Ey. unfold redundant. rewrite Ex, Ey. cbn [src_packet Header SequenceNumber Timestamp].
  rewrite u16_diff, u32_diff by lia. rewrite Z.gtb_ltb, Z.geb_leb, (proj2 (Z.ltb_ge _ _)), (proj2 (Z.leb_gt _ _)) by (unfold maxRedCount; lia).
  rewrite (proj2 (Z.eqb_neq _ _)); [done|]. intros E. pose proof (u16_diff (s_esn p) (s_esn q) ltac:(lia)) as Hd.
  rewrite E, Z.sub_diag in Hd. change (u16 0) with 0 in Hd. lia.
Qed.

Lemma load_header m (r : packet slice_ref) q : load_payload m r = src_packet q -> Header r = Header (src_packet q).
Proof. by intros <-. Qed.

(** One packet, when the history shows [o2] and [o1] once it has been read. *)
Lemma send_step m a r2 r1 o2 o1 l : let m' := readInto (a_buf a) (a_header a ++ s_data (a_source a)) m in
  refers m' r2 o2 -> refers m' r1 o1 -> (r1 = None -> r2 = None) ->
  stream_ok o2 o1 (a_source a :: l) ->
  ForwardRed 1 m' (arrived a) (mkRedReceiver [r2; r1]) =
  Ok (mkRedReceiver [r1; Some (arrived a)], Sent (red_packet (history o2 o1) (a_source a))).
Proof.
  intros m' H2 H1 Hn (Hp & N1 & N2 & _).
  pose proof (load_arrived a m) as Ea. fold m' in Ea. clearbody m'.
  unfold ForwardRed. change (1 =? 0) with false. cbv iota.
  assert (ref_len (Payload (arrived a)) <= 497) as Hl by apply Hp. unfold maxRedPayload.
  rewrite Z.geb_leb, (proj2 (Z.leb_gt _ _)) by lia. unfold encodeRed. cbn [pktBuff].
  change (zdown (zlen [r2; r1] - 1)) with [1; 0].
  assert (insertHistory (arrived a) [1; 0] [r2; r1] = [r1; Some (arrived a)]) as ->.
  { cbn [insertHistory]. change (default None (zlookup [r2; r1] 1)) with r1.
    destruct r1 as [x|], o1 as [q|]; try done. cbn [refers] in H1. destruct (N1 q eq_refl) as [[Hq _] _].
    rewrite (load_header _ _ _ H1). cbn [arrived src_packet Header SequenceNumber]. rewrite u16_diff by lia.
    by rewrite (proj2 (Z.ltb_lt _ _)) by lia. }
  assert (map (load_payload m') (List.filter (redundant (arrived a)) (afterLastNil [r2; r1])) =
          map src_packet (history o2 o1)) as ->.
  { destruct r1 as [x|], o1 as [q|]; try done.
    2: { rewrite (Hn eq_refl) in H2 |- *. by destruct o2. }
    cbn [refers] in H1. destruct (N1 q eq_refl) as [Hq _].
    assert (redundant (arrived a) x = true) as Rx by (eapply (redundant_near _ _ _ _ 1); eauto using load_header; lia).
    destruct r2 as [y|], o2 as [q2|]; try done; cbn [afterLastNil fold_left app List.filter].
    - cbn [refers] in H2. destruct (N2 q2 eq_refl) as [Hq2 _].
      assert (redundant (arrived a) y = true) as Ry by (eapply (redundant_near _ _ _ _ 2); eauto using load_header; lia).
      rewrite Ry, Rx. cbn [map history option_list app]. by rewrite H1, H2.
    - rewrite Rx. cbn [map history option_list app]. by rewrite H1. }
  rewrite Ea, encode_ok; [done| | |done].
  - by destruct o1, o2; cbn; lia.
  - apply Forall_app. split.
    + destruct o2 as [q|]; [|constructor]. apply Forall_singleton. exact (proj2 (N2 q eq_refl)).
    + destruct o1 as [q|]; [|constructor]. apply Forall_singleton. exact (proj2 (N1 q eq_refl)).
Qed.

Lemma sendRun_eq l : forall m r2 r1 o2 o1, NoDup (map a_buf l) ->
  (forall b, b ∈ map a_buf l -> b ∉ buf_of r2 ++ buf_of r1) -> refers m r2 o2 -> refers m r1 o1 ->
  (r1 = None -> r2 = None) -> stream_ok o2 o1 (map a_source l) ->
  sendRun l m (mkRedReceiver [r2; r1]) = Ok (map Sent (red_stream o2 o1 (map a_source l))).
Proof.
  induction l as [|a l IH]; intros m r2 r1 o2 o1 Hd Hb H2 H1 Hn Hs; [done|].
  cbn [map] in *. apply NoDup_cons in Hd as [Ha Hd].
  pose proof (Hb _ (list_elem_of_here _ _)) as Hba. cbn [sendRun].
  apply not_elem_of_app in Hba as [B2 B1].
  rewrite (send_step m a r2 r1 o2 o1 (map a_source l) (refers_readInto _ _ _ _ _ B2 H2) (refers_readInto _ _ _ _ _ B1 H1) Hn Hs).
  cbn [res_bind]. destruct Hs as (Hp & N1 & N2 & Hs).
  rewrite (IH _ _ _ o1 (Some (a_source a))); [done|done| | | |done|done].
  - intros b Hin. specialize (Hb b (list_elem_of_further _ _ _ Hin)). apply not_elem_of_app in Hb as [_ Hb1].
    apply not_elem_of_app. split; [done|]. cbn. intros ->%list_elem_of_singleton. done.
  - by apply refers_readInto.
  - cbn [refers]. apply load_arrived.
Qed.

(** *** Buffers that are used again *)

(** The same packet, but for the bytes of the payload. *)
Definition like (q q' : source) : Prop :=
  s_esn q' = s_esn q /\ s_ets q' = s_ets q /\ s_pt q' = s_pt q /\ zlen (s_data q') = zlen (s_data q).

Lemma like_refl q : like q q.
Proof. done. Qed.

(** Every packet of the stream is encoded after packets that are [R] to the last
    two. *)
Fixpoint red_like (R : source -> source -> Prop) (o2 o1 : option source) (l : list source)
  (xs : list (packet (list Z))) : Prop :=
  match l, xs with
  | [], [] => True
  | p :: l, x :: xs =>
    (exists o2' o1', option_Forall2 R o2 o2' /\ option_Forall2 R o1 o1' /\ x = red_packet (history o2' o1') p) /\
    red_like R o1 (Some p) l xs
  | _, _ => False
  end.

Lemma red_stream_like l : forall o2 o1, red_like eq o2 o1 l (red_stream o2 o1 l).
Proof.
  induction l as [|p l IH]; intros o2 o1; [done|]. split; [|apply IH]. exists o2, o1.
  split_and!; [..|done]; apply option_Forall2_refl; intros x; done.
Qed.

Lemma near_like p k q q' : like q q' -> near p k q /\ src_ok q -> near p k q' /\ src_ok q'.
Proof. intros (E1 & E2 & _ & E3). unfold near, src_ok. by rewrite E1, E2, E3. Qed.

Lemma stream_ok_like p l o2 o1 o2' o1' : stream_ok o2 o1 (p :: l) -> option_Forall2 like o2 o2' ->
  option_Forall2 like o1 o1' -> stream_ok o2' o1' [p].
Proof.
  intros (Hp & N1 & N2 & _) H2 H1. split; [done|]. split_and!; [..|done].
  - intros q' ->. inversion H1 as [q ? Hq|]; subst. by eapply near_like, N1.
  - intros q' ->. inversion H2 as [q ? Hq|]; subst. by eapply near_like, N2.
Qed.

(** The history refers to the last two packets, whose payloads have room where
    they were: a buffer never shrinks. *)
Definition fits (m : heap) (o : option (packet slice_ref)) (q : option source) : Prop :=
  match o, q with
  | Some r, Some q =>
    Header r = Header (src_packet q) /\ 0 <= ref_from (Payload r) /\ ref_len (Payload r) = zlen (s_data q) /\
    ref_from (Payload r) + ref_len (Payload r) <= zlen (default [] (m !! ref_buf (Payload r)))
  | None, None => True
  | _, _ => False
  end.

Lemma fits_readInto m b raw o q : fits m o q -> fits (readInto b raw m) o q.
Proof.
  destruct o as [r|], q as [q|]; try done. intros (H1 & H2 & H3 & H4). split_and!; [done..|].
  unfold readInto. destruct (decide (ref_buf (Payload r) = b)) as [<-|Hb]; [|by rewrite lookup_insert_ne by congruence].
  rewrite lookup_insert_eq. cbn [default from_option id]. rewrite zlen_app. pose proof (zlen_nonneg raw).
  unfold zdrop, zlen in *. rewrite length_drop, Nat2Z.id. cbn [id]. lia.
Qed.

Lemma fits_arrived a m : fits (readInto (a_buf a) (a_header a ++ s_data (a_source a)) m) (Some (arrived a)) (Some (a_source a)).
Proof.
  unfold fits, arrived, readInto. cbn [Header Payload ref_buf ref_from ref_len].
  split_and!; [done|apply zlen_nonneg|done|]. rewrite lookup_insert_eq. cbn [default from_option id].
  unfold zlen. rewrite !length_app. lia.
Qed.

(** What the history shows: the last two packets, with the bytes that are in
    their place now. *)
Lemma fits_refers m o q : fits m o q -> exists q', option_Forall2 like q q' /\ refers m o q'.
Proof.
  destruct o as [r|], q as [q|]; try done; [|intros _; exists None; split; [constructor|done]].
  intros (H1 & H2 & H3 & H4). exists (Some (mkSource (s_esn q) (s_ets q) (s_pt q) (view m (Payload r)))).
  split; [constructor; split_and!; try done|].
  - cbn [s_data]. unfold view, ztake, zdrop. set (buf := default [] _) in *. clearbody buf. rewrite <- H3.
    pose proof (zlen_nonneg (s_data q)). unfold zlen in *. rewrite length_take, length_drop. lia.
  - cbn [refers]. unfold load_payload. by rewrite H1.
Qed.

Lemma sendRun_like l : forall m r2 r1 o2 o1, fits m r2 o2 -> fits m r1 o1 -> (r1 = None -> r2 = None) ->
  stream_ok o2 o1 (map a_source l) ->
  exists xs, sendRun l m (mkRedReceiver [r2; r1]) = Ok (map Sent xs) /\ red_like like o2 o1 (map a_source l) xs.
Proof.
  induction l as [|a l IH]; intros m r2 r1 o2 o1 H2 H1 Hn Hs; [by exists []|]. cbn [map] in *. cbn [sendRun].
  apply (fits_readInto _ (a_buf a) (a_header a ++ s_data (a_source a))) in H2, H1.
  destruct (fits_refers _ _ _ H2) as (o2' & L2 & R2), (fits_refers _ _ _ H1) as (o1' & L1 & R1).
  rewrite (send_step m a r2 r1 o2' o1' [] R2 R1 Hn (stream_ok_like _ _ _ _ _ _ Hs L2 L1)). cbn [res_bind].
  destruct Hs as (_ & _ & _ & Hs).
  destruct (IH _ r1 (Some (arrived a)) o1 (Some (a_source a)) H1 (fits_arrived a m) ltac:(done) Hs) as (xs & -> & Hx).
  exists (red_packet (history o2' o1') (a_source a) :: xs). split; [done|]. split; [by exists o2', o1'|done].
Qed.

(** ** Losses *)

(** The network: the packets that are kept, with the extended numbers that the
    receiving buffer gives them. *)
Fixpoint transmit (keep : list bool) (l : list source) (outs : list sent) : list ext_pkt :=
  match keep, l, outs with
  | k :: keep, p :: l, o :: outs =>
    match k, o with
    | true, Sent x => (x, s_esn p, s_ets p) :: transmit keep l outs
    | _, _ => transmit keep l outs
    end
  | _, _, _ => []
  end.

Fixpoint receiveRun (l : list ext_pkt) (r : RedPrimaryReceiver) : res stop (list ext_pkt) :=
  match l with
  | [] => Ok []
  | (p, extSN, extTS) :: l =>
    let! (r, out) := ForwardPrimary 1 extSN extTS p r in
    let! rest := receiveRun l r in
    Ok (out ++ rest)
  end.

(** At most two packets in a row are lost, and none at the end; [g] were lost
    just before. *)
Fixpoint loss_ok (g : nat) (keep : list bool) : bool :=
  match keep with
  | [] => bool_decide (g = 0%nat)
  | true :: keep => loss_ok 0 keep
  | false :: keep => bool_decide (g < 2)%nat && loss_ok (S g) keep
  end.

(** The packet as it is forwarded, with its own extended numbers. *)
Definition forwarded (q : source) : ext_pkt := (opus q, s_esn q, s_ets q).

(** The history after a gap of [g] packets, and the packets looked for. *)
Lemma history_after_gap h g : 0 <= h < 256 -> (g <= 2)%nat ->
  let h' := Z.lor (u8 (Z.shiftl h (Z.of_nat g + 1))) (u8 (Z.shiftl 1 (Z.of_nat g))) in
  0 <= h' < 256 /\
  match g with
  | 0%nat => missingBits [0; 1] h' 0 0 = 0 \/ missingBits [0; 1] h' 0 0 = 2
  | 1%nat => missingBits [0; 1] h' 0 0 = 1
  | _ => missingBits [0; 1] h' 0 0 = 3
  end.
Proof.
  intros Hh Hg. set (f := fun h => let h' := Z.lor (u8 (Z.shiftl h (Z.of_nat g + 1))) (u8 (Z.shiftl 1 (Z.of_nat g))) in
    (0 <=? h') && (h' <? 256) && let m := missingBits [0; 1] h' 0 0 in
    match g with 0%nat => (m =? 0) || (m =? 2) | 1%nat => m =? 1 | _ => m =? 3 end).
  assert (f h = true) as H.
  { assert (zseq_ok : forallb f (zseq 256) = true) by (destruct g as [|[|[|g]]]; [vm_compute; reflexivity..|lia]).
    exact (zseq_all 256 f zseq_ok h Hh). }
  unfold f in H. clear f. cbv zeta in *. bool_prop. split; [lia|].
  destruct g as [|[|g]]; bool_prop; [|done|done]. apply orb_true_iff in H0 as [?|?]; bool_prop; auto.
Qed.

Lemma u16_succ_back e g : u16 (u16 e - u16 (e - 1 - g)) = u16 (g + 1).
Proof. unfold u16. rewrite <- Zminus_mod. f_equal. lia. Qed.

(** One packet that arrives after a gap of [g]. *)
Lemma updateHistory_gap e g r : firstPktReceived r = true -> 0 <= pktHistory r < 256 -> (g <= 2)%nat ->
  lastSeq r = u16 (e - 1 - Z.of_nat g) ->
  exists h, updateHistory (u16 e) r = (mkRedPrimaryReceiver (redPT r) true (u16 e) h, true) /\ 0 <= h < 256 /\
  match g with
  | 0%nat => missingBits [0; 1] h 0 0 = 0 \/ missingBits [0; 1] h 0 0 = 2
  | 1%nat => missingBits [0; 1] h 0 0 = 1
  | _ => missingBits [0; 1] h 0 0 = 3
  end.
Proof.
  intros Hf Hh Hg Hl. destruct (history_after_gap (pktHistory r) g Hh Hg) as [Hr Hm].
  eexists. split; [|by split]. unfold updateHistory. rewrite Hf, Hl, u16_succ_back. cbn [negb].
  rewrite u16_small by lia. rewrite (proj2 (Z.eqb_neq _ 0)) by lia. rewrite !Z.gtb_ltb, !(proj2 (Z.ltb_ge _ _)) by lia.
  replace (Z.of_nat g + 1 - 1) with (Z.of_nat g) by lia. destruct r; cbn in *; by subst.
Qed.

Lemma forwarded_recovered p k q : near p k q -> 1 <= k <= 2 -> src_ok q -> src_ok p ->
  patchExt (s_esn p) (s_ets p) (opus p)
    (mkPacket (mkHeader (u16 (u16 (s_esn p) - u16 k)) (u32 (u32 (s_ets p) - (s_ets p - s_ets q))) opusPT) (s_data q)) =
  forwarded q.
Proof.
  intros [Hn Ht] Hk (Q1 & Q2 & _) (P1 & P2 & _). unfold forwarded, patchExt.
  assert (u16 (u16 (s_esn p) - u16 k) = u16 (s_esn q)) as ->.
  { unfold u16. rewrite <- Zminus_mod. f_equal. lia. }
  assert (u32 (u32 (s_ets p) - (s_ets p - s_ets q)) = u32 (s_ets q)) as ->.
  { unfold u32. rewrite Zminus_mod_idemp_l. f_equal. lia. }
  unfold opus. cbn [Header SequenceNumber Timestamp]. rewrite u16_diff, u32_diff by lia.
  rewrite !u64_small by lia. f_equal; [f_equal|]; lia.
Qed.

(** What is forwarded for the red packet of [p]. *)
Definition picked (bits : Z) (o2 o1 : option source) : list source :=
  match o2, o1 with
  | Some q2, Some q1 => (if flagged bits 2 then [q2] else []) ++ (if flagged bits 1 then [q1] else [])
  | None, Some q1 => if flagged bits 1 then [q1] else []
  | _, _ => []
  end.

Lemma forward_red bits o2 o1 p l : stream_ok o2 o1 (p :: l) -> (o1 = None -> o2 = None) ->
  exists pkts, extractPktsFromRed (red_packet (history o2 o1) p) bits = Ok (pkts ++ [opus p]) /\
    map (patchExt (s_esn p) (s_ets p) (opus p)) pkts = map forwarded (picked bits o2 o1).
Proof.
  intros (Hp & N1 & N2 & _) Ho. exists (recovered p bits (history o2 o1)). split.
  { apply extract_encoded. apply Forall_app. split.
    - destruct o2 as [q|]; [|constructor]. apply Forall_singleton. exists 2. by apply N2.
    - destruct o1 as [q|]; [|constructor]. apply Forall_singleton. exists 1. by apply N1. }
  destruct o1 as [q1|]; [|by rewrite (Ho eq_refl)]. destruct (N1 q1 eq_refl) as [H1 O1].
  pose proof (forwarded_recovered p 1 q1 H1 ltac:(lia) O1 Hp) as E1.
  destruct o2 as [q2|]; cbn [picked].
  - change (history (Some q2) (Some q1)) with [q2; q1]. destruct (N2 q2 eq_refl) as [H2 O2]. pose proof (forwarded_recovered p 2 q2 H2 ltac:(lia) O2 Hp) as E2.
    cbn [recovered]. change (zlen [q2; q1]) with 2. change (zlen [q1]) with 1.
    destruct (flagged bits 2), (flagged bits 1); cbn [app map]; by rewrite ?E1, ?E2.
  - change (history None (Some q1)) with [q1]. cbn [recovered]. change (zlen [q1]) with 1. destruct (flagged bits 1); cbn [app map]; by rewrite ?E1.
Qed.

Lemma ForwardPrimary_red bits o2 o1 p l r r' : stream_ok o2 o1 (p :: l) -> (o1 = None -> o2 = None) ->
  redPT r = opusRedPT -> getSendPktsFromRed (red_packet (history o2 o1) p) r =
    (r', extractPktsFromRed (red_packet (history o2 o1) p) bits) ->
  ForwardPrimary 1 (s_esn p) (s_ets p) (red_packet (history o2 o1) p) r =
  Ok (r', map forwarded (picked bits o2 o1 ++ [p])).
Proof.
  intros Hs Ho Hpt Hg. destruct (forward_red bits o2 o1 p l Hs Ho) as (pkts & E & Em).
  unfold ForwardPrimary. change (1 =? 0) with false. rewrite Hpt. cbn [red_packet Header PayloadType Z.eqb Pos.eqb negb].
  change (63 =? opusRedPT) with true. cbn [negb].
  change (mkPacket (mkHeader (u16 (s_esn p)) (u32 (s_ets p)) opusRedPT) (encoded (history o2 o1) p))
    with (red_packet (history o2 o1) p).
  rewrite Hg, E, last_snoc, removelast_last, Em, map_app. done.
Qed.

Lemma elem_of_history q o2 o1 : q ∈ history o2 o1 <-> o2 = Some q \/ o1 = Some q.
Proof.
  unfold history. rewrite elem_of_app. destruct o2, o1; cbn; rewrite ?list_elem_of_singleton, ?elem_of_nil; naive_solver.
Qed.

Lemma picked_history bits o2 o1 q : q ∈ picked bits o2 o1 -> q ∈ history o2 o1.
Proof.
  rewrite elem_of_history. destruct o2 as [q2|], o1 as [q1|]; cbn [picked]; rewrite ?elem_of_app;
    repeat case_match; rewrite ?list_elem_of_singleton, ?elem_of_nil; naive_solver.
Qed.

(** The packets lost before the next. *)
Definition gap (g : nat) (o2 o1 : option source) : list source :=
  match g with 0%nat => [] | 1%nat => option_list o1 | _ => history o2 o1 end.

Lemma pass_on o2 o1 p l q : q ∈ history o1 (Some p) ++ l -> q ∈ history o2 o1 ++ p :: l.
Proof. rewrite !elem_of_app, elem_of_cons, !elem_of_history. naive_solver. Qed.

Lemma picked_gap R g bits o2 o1 o2' o1' : (o1 = None -> o2 = None) -> (g = 1%nat -> is_Some o1) -> (g = 2%nat -> is_Some o2) ->
  match g with 0%nat => bits = 0 \/ bits = 2 | 1%nat => bits = 1 | _ => bits = 3 end -> (g <= 2)%nat ->
  option_Forall2 R o2 o2' -> option_Forall2 R o1 o1' ->
  forall q, q ∈ gap g o2 o1 -> exists q', R q q' /\ q' ∈ picked bits o2' o1'.
Proof.
  intros Ho G1 G2 Hm Hg H2 H1 q Hq. destruct g as [|[|[|g]]]; [by apply not_elem_of_nil in Hq| | |lia]; subst bits.
  - destruct (G1 eq_refl) as [q1 ->]. inversion H1 as [x q1' Hx|]; subst. cbn [gap option_list] in Hq.
    apply list_elem_of_singleton in Hq as ->. exists q1'. split; [done|].
    destruct o2' as [q2'|]; cbn [picked]; change (flagged 1 1) with true; change (flagged 1 2) with false; by left.
  - destruct (G2 eq_refl) as [q2 ->]. destruct o1 as [q1|]; [|by specialize (Ho eq_refl)].
    inversion H2 as [x q2' Hx2|]; subst. inversion H1 as [x q1' Hx1|]; subst. change (gap 2 (Some q2) (Some q1)) with [q2; q1] in Hq.
    assert (picked 3 (Some q2') (Some q1') = [q2'; q1']) as -> by done.
    apply elem_of_cons in Hq as [->|Hq%list_elem_of_singleton]; [|subst q]; [exists q2'|exists q1']; (split; [done|]); set_solver.
Qed.

Lemma history_like R o2 o1 o2' o1' q' : option_Forall2 R o2 o2' -> option_Forall2 R o1 o1' -> q' ∈ history o2' o1' ->
  exists q, q ∈ history o2 o1 /\ R q q'.
Proof.
  intros H2 H1 [-> | ->]%elem_of_history; [inversion H2|inversion H1]; subst; eexists; (split; [|eassumption]);
    apply elem_of_history; auto.
Qed.

Lemma receive_stream (R : source -> source -> Prop) (Rrefl : forall q, R q q) (Rlike : forall q q', R q q' -> like q q') l :
  forall xs keep g o2 o1 r, length keep = length l -> loss_ok g keep = true -> (g <= 2)%nat ->
  stream_ok o2 o1 l -> red_like R o2 o1 l xs ->
  (o1 = None -> o2 = None) -> (g = 1%nat -> is_Some o1) -> (g = 2%nat -> is_Some o2) ->
  redPT r = opusRedPT -> firstPktReceived r = true -> 0 <= pktHistory r < 256 ->
  (forall p l', l = p :: l' -> lastSeq r = u16 (s_esn p - 1 - Z.of_nat g)) ->
  exists fw, receiveRun (transmit keep l (map Sent xs)) r = Ok fw /\
    (forall q, (true, q) ∈ zip keep l -> forwarded q ∈ fw) /\
    (forall q, q ∈ gap g o2 o1 ++ l -> exists q', R q q' /\ forwarded q' ∈ fw) /\
    (forall x, x ∈ fw -> exists q q', q ∈ history o2 o1 ++ l /\ R q q' /\ x = forwarded q').
Proof.
  induction l as [|p l IH]; intros xs keep g o2 o1 r Hlen Hloss Hg Hs Hx Ho G1 G2 Hpt Hf Hh Hl.
  { destruct keep, xs; try done. cbn in Hloss. bool_prop. apply bool_decide_eq_true_1 in Hloss as ->.
    exists []. split; [done|]. split_and!; intros x Hq; by apply not_elem_of_nil in Hq. }
  destruct keep as [|k keep]; [done|]. destruct xs as [|x xs]; [done|]. injection Hlen as Hlen. specialize (Hl p l eq_refl).
  destruct Hx as ((o2' & o1' & L2 & L1 & ->) & Hx). pose proof Hs as (_ & _ & _ & Hs'). cbn [map transmit]. destruct k.
  - cbn [loss_ok] in Hloss.
    destruct (updateHistory_gap (s_esn p) g r Hf Hh Hg Hl) as (h & Eu & Hh' & Hm).
    set (bits := missingBits [0; 1] h 0 0) in *.
    assert (stream_ok o2' o1' [p]) as Hsl.
    { eapply stream_ok_like; [exact Hs|..]; [destruct L2|destruct L1]; constructor; by apply Rlike. }
    assert (o1' = None -> o2' = None) as Ho'.
    { intros ->. inversion L1; subst. specialize (Ho eq_refl) as ->. by inversion L2. }
    assert (getSendPktsFromRed (red_packet (history o2' o1') p) r =
      (mkRedPrimaryReceiver (redPT r) true (u16 (s_esn p)) h, extractPktsFromRed (red_packet (history o2' o1') p) bits)) as Eg.
    { unfold getSendPktsFromRed. cbn [red_packet Header SequenceNumber]. rewrite Eu. cbn [pktHistory lastSeq].
      rewrite Z.sub_diag. done. }
    cbn [receiveRun]. rewrite (ForwardPrimary_red bits o2' o1' p [] r _ Hsl Ho' Hpt Eg). cbn [res_bind].
    destruct (IH xs keep 0%nat o1 (Some p) (mkRedPrimaryReceiver (redPT r) true (u16 (s_esn p)) h) Hlen Hloss
      ltac:(lia) Hs' Hx ltac:(done) ltac:(done) ltac:(done) Hpt eq_refl Hh') as (fw & E & F0 & F1 & F2).
    { intros p' l' ->. destruct Hs' as (_ & Hn & _). destruct (Hn p eq_refl) as [[Hn' _] _]. cbn [lastSeq].
      f_equal. lia. }
    rewrite E. cbn [res_bind]. eexists. split; [done|].
    assert (forwarded p ∈ map forwarded (picked bits o2' o1' ++ [p])) as Hp.
    { apply list_elem_of_fmap. exists p. split; [done|]. apply elem_of_app. right. by apply list_elem_of_singleton. }
    split_and!.
    + cbn [zip zip_with]. intros q [[= ->]|Hq]%elem_of_cons; apply elem_of_app; [by left|right; by apply F0].
    + intros q [Hq|[->|Hq]%elem_of_cons]%elem_of_app.
      * destruct (picked_gap R g bits o2 o1 o2' o1' Ho G1 G2 Hm Hg L2 L1 q Hq) as (q' & Hqq & Hin). exists q'.
        split; [done|]. apply elem_of_app. left. apply list_elem_of_fmap. exists q'. split; [done|]. apply elem_of_app. by left.
      * exists p. split; [done|]. apply elem_of_app. by left.
      * destruct (F1 q) as (q' & Hqq & Hin); [by apply elem_of_app; right|]. exists q'. split; [done|]. apply elem_of_app. by right.
    + intros x [Hin|Hin]%elem_of_app.
      * apply list_elem_of_fmap in Hin as (q' & -> & Hq).
        apply elem_of_app in Hq as [Hq|Hq%list_elem_of_singleton].
        -- destruct (history_like R o2 o1 o2' o1' q' L2 L1 (picked_history _ _ _ _ Hq)) as (q & Hq1 & Hq2).
           exists q, q'. split; [|done]. apply elem_of_app. by left.
        -- subst. exists p, p. split; [apply elem_of_app; right; by left|done].
      * destruct (F2 x Hin) as (q & q' & Hq & Hr & ->). exists q, q'. split; [|done]. by apply (pass_on o2 o1 p l).
  - cbn [loss_ok] in Hloss. bool_prop. match goal with H : bool_decide _ = true |- _ => apply bool_decide_eq_true_1 in H end.
    destruct (IH xs keep (S g) o1 (Some p) r Hlen ltac:(done) ltac:(lia) Hs' Hx ltac:(done)) as (fw & E & F0 & F1 & F2); try done.
    { intros [= ->]. destruct (G1 eq_refl) as [? ->]. done. }
    { intros p' l' ->. destruct Hs' as (_ & Hn & _). destruct (Hn p eq_refl) as [[Hn' _] _]. rewrite Hl. f_equal. lia. }
    exists fw. split; [done|]. split_and!.
    + cbn [zip zip_with]. intros q [[=]|Hq]%elem_of_cons. by apply F0.
    + intros q Hq. apply F1. destruct g as [|[|g]]; [| |lia]; cbn [gap] in *.
      * by apply Hq.
      * rewrite elem_of_app, elem_of_history. rewrite elem_of_app, elem_of_cons in Hq.
        destruct (G1 eq_refl) as [q1 E1]. rewrite E1 in Hq |- *. cbn in Hq. rewrite list_elem_of_singleton in Hq. naive_solver.
    + intros x Hin. destruct (F2 x Hin) as (q & q' & Hq & Hr & ->). exists q, q'. split; [|done]. by apply (pass_on o2 o1 p l).
Qed.

(** The whole stream, whose first packet arrives. *)
Lemma receive_all (R : source -> source -> Prop) (Rrefl : forall q, R q q) (Rlike : forall q q', R q q' -> like q q') p l keep xs :
  stream_ok None None (p :: l) -> red_like R None None (p :: l) xs -> length keep = length l -> loss_ok 0 keep = true ->
  exists fw, receiveRun (transmit (true :: keep) (p :: l) (map Sent xs)) (NewRedPrimaryReceiver opusRedPT) = Ok fw /\
    (forall q, (true, q) ∈ zip (true :: keep) (p :: l) -> forwarded q ∈ fw) /\
    (forall q, q ∈ p :: l -> exists q', R q q' /\ forwarded q' ∈ fw) /\
    (forall x, x ∈ fw -> exists q q', q ∈ p :: l /\ R q q' /\ x = forwarded q').
Proof.
  intros Hs Hx Hlen Hloss. destruct xs as [|x xs]; [done|].
  destruct Hx as ((o2' & o1' & L2 & L1 & ->) & Hx). inversion L2; subst. inversion L1; subst.
  cbn [map transmit receiveRun].
  assert (getSendPktsFromRed (red_packet (history None None) p) (NewRedPrimaryReceiver opusRedPT) =
    (mkRedPrimaryReceiver opusRedPT true (u16 (s_esn p)) 0, extractPktsFromRed (red_packet (history None None) p) 0)) as Eg by done.
  rewrite (ForwardPrimary_red 0 None None p l (NewRedPrimaryReceiver opusRedPT) _ Hs (fun _ => eq_refl) eq_refl Eg). cbn [res_bind picked app map].
  destruct Hs as (Hp & _ & _ & Hs).
  destruct (receive_stream R Rrefl Rlike l xs keep 0 None (Some p) (mkRedPrimaryReceiver opusRedPT true (u16 (s_esn p)) 0))
    as (fw & E & F0 & F1 & F2); try done.
  { lia. }
  { intros p' l' El. rewrite El in Hs. destruct Hs as (_ & Hn & _). destruct (Hn p eq_refl) as [[Hn' _] _].
    cbn [lastSeq]. f_equal. lia. }
  rewrite E. cbn [res_bind]. eexists. split; [done|]. split_and!.
  - cbn [zip zip_with]. intros q [[= ->]|Hq]%elem_of_cons; [by left|]. right. by apply F0.
  - intros q [->|Hq]%elem_of_cons; [exists p; split; [done|by left]|].
    destruct (F1 q) as (q' & Hqq & Hin); [done|]. exists q'. split; [done|by right].
  - intros x [->|Hin]%elem_of_cons; [exists p, p; split; [by left|done]|]. exact (F2 x Hin).
Qed.

(** C20: over a channel that loses at most two packets in a row, and neither the
    first nor the last, the encoder and the decoder together deliver a stream of
    consecutive numbers, whose payloads have at most 497 bytes and whose
    timestamps grow by less than 16384 over any two packets: every packet is
    forwarded with its own number, timestamp and length, every packet that
    arrives with its own bytes, and nothing else is forwarded, though a recovered
    packet can come twice ([recovered_twice]).  This holds
    whatever buffers the packets were read into, one for all included, as in the
    receiver's reader.  The packets that are recovered have their own bytes too
    when each was read into a buffer of its own ([shared_buffer_corrupts]
    otherwise). *)
Theorem red_recovers_losses l a keep : let stream := map a_source (a :: l) in
  stream_ok None None stream -> length keep = length l -> loss_ok 0 keep = true ->
  exists outs fw, sendRun (a :: l) ∅ NewRedReceiver = Ok outs /\
    receiveRun (transmit (true :: keep) stream outs) (NewRedPrimaryReceiver opusRedPT) = Ok fw /\
    (forall q, (true, q) ∈ zip (true :: keep) stream -> forwarded q ∈ fw) /\
    (forall q, q ∈ stream -> exists q', like q q' /\ forwarded q' ∈ fw) /\
    (forall x, x ∈ fw -> exists q q', q ∈ stream /\ like q q' /\ x = forwarded q') /\
    (NoDup (map a_buf (a :: l)) -> forall x, x ∈ fw <-> exists q, q ∈ stream /\ x = forwarded q).
Proof.
  intros stream Hs Hlen Hloss. unfold stream in *. clear stream.
  change NewRedReceiver with (mkRedReceiver [None; None]).
  destruct (sendRun_like (a :: l) ∅ None None None None I I ltac:(done) Hs) as (xs & Es & Hx).
  assert (length keep = length (map a_source l)) as Hlen' by (by rewrite length_map).
  destruct (receive_all like like_refl ltac:(done) (a_source a) (map a_source l) keep xs Hs Hx Hlen' Hloss)
    as (fw & E & F0 & F1 & F2).
  exists (map Sent xs), fw. split_and!; try done. intros Hd.
  pose proof (sendRun_eq (a :: l) ∅ None None None None Hd ltac:(intros b _ Hb; by apply not_elem_of_nil in Hb) I I ltac:(done) Hs) as Ex.
  rewrite Es in Ex. apply Ok_inj in Ex.
  destruct (receive_all eq ltac:(done) ltac:(intros q ? <-; apply like_refl) (a_source a) (map a_source l) keep _ Hs
    (red_stream_like _ _ _) Hlen' Hloss) as (fw' & E' & _ & K1 & K2).
  change (map a_source (a :: l)) with (a_source a :: map a_source l) in *. rewrite <- Ex, E in E'. injection E' as <-. intros x. split.
  - intros (q & ? & Hq & <- & ->)%K2. by exists q.
  - intros (q & Hq & ->). by destruct (K1 q Hq) as (? & <- & ?).
Qed.

(** ** The primary encoding *)

Definition red_fault (e : red_error) : bool := match e with redPanic _ => true | _ => false end.

Definition blocks_len (l : list block) : Z := fold_right (fun b n => blk_length b + n) 0 l.

Definition in_front (b : block) : Prop := primary b = false /\ 0 <= blk_length b.

Lemma low_length b0 b1 b2 b3 : Z.land (be32 b0 b1 b2 b3) 0x3FF = Z.land (be16 b2 b3) 0x3FF.
Proof.
  unfold be32, be16. apply Z.bits_inj. intros n. rewrite !Z.land_spec, !Z.lor_spec.
  change 0x3FF with (Z.ones 10). destruct (Z.ltb_spec n 0) as [Hn|Hn]; [by rewrite !(Z.testbit_neg_r _ n Hn)|].
  destruct (Z.ltb_spec n 10); [|by rewrite Z.ones_spec_high, !andb_false_r by lia].
  rewrite !Z.shiftl_spec by lia. rewrite (Z.testbit_neg_r b1 (n - 16)), (Z.testbit_neg_r b0 (n - 24)) by lia.
  rewrite !orb_false_r. unfold u16. change 65536 with (2 ^ 16). rewrite Z.mod_pow2_bits_low, Z.shiftl_spec by lia.
  by rewrite (orb_comm (Z.testbit b3 n)).
Qed.

(** Both loops read the same headers. *)
Lemma headers_agree fuel : forall payload blocks n, (length payload < fuel)%nat ->
  match redBlocks fuel payload blocks n with
  | Ok (bs, len, rest) => skipHeaders fuel payload n = Ok (len, rest) /\
      exists front k, bs = blocks ++ front ++ [mkBlock 0 0 k true] /\ Forall in_front front /\ len = n + blocks_len front
  | Err e => skipHeaders fuel payload n = Err e /\ red_fault e = false
  end.
Proof.
  induction fuel as [|fuel IH]; intros payload blocks n Hf; [lia|]. cbn [redBlocks skipHeaders].
  destruct (Z.ltb_spec (zlen payload) 1) as [|Hl]; [done|].
  destruct (load_in (redPanic panicked) payload 0 ltac:(lia)) as (b0 & -> & _). cbn [res_bind]. destruct (Z.land b0 128 =? 0).
  { split; [done|]. exists [], (Z.land b0 127). split_and!; [done|constructor|cbn; lia]. }
  destruct (Z.ltb_spec (zlen payload) 4) as [|Hl4]; [done|].
  destruct (load_in (redPanic panicked) payload 1 ltac:(lia)) as (b1 & -> & _),
    (load_in (redPanic panicked) payload 2 ltac:(lia)) as (b2 & -> & _),
    (load_in (redPanic panicked) payload 3 ltac:(lia)) as (b3 & -> & _). cbn [res_bind]. rewrite <- (low_length b0 b1).
  set (h := be32 b0 b1 b2 b3). match goal with |- context [redBlocks fuel ?p ?bs ?m] => specialize (IH p bs m) end.
  assert (length (zdrop 4 payload) < fuel)%nat as Hd by (unfold zdrop; rewrite length_drop; unfold zlen in *; lia).
  specialize (IH Hd). destruct (redBlocks _ _ _ _) as [[[bs len] rest]|e]; [|done].
  destruct IH as (E & front & k & -> & Hfr & ->). split; [done|]. eexists (_ :: front), k. split_and!.
  - by rewrite <- app_assoc.
  - constructor; [|done]. split; [done|]. cbn [blk_length]. apply Z.land_nonneg. lia.
  - cbn [blocks_len fold_right blk_length]. change (fold_right _ 0 front) with (blocks_len front). lia.
Qed.

Lemma blocks_len_nonneg front : Forall in_front front -> 0 <= blocks_len front.
Proof. induction 1 as [|b l [_ Hb] _ IH]; [done|]. cbn. change (fold_right _ 0 l) with (blocks_len l). lia. Qed.

(** The blocks in front are skipped, whichever of them are recovered. *)
Lemma recover_primary header bits k front : forall payload, Forall in_front front -> blocks_len front <= zlen payload ->
  exists pkts, recoverBlocks header bits (front ++ [mkBlock 0 0 k true]) payload =
    Ok (pkts ++ [mkPacket (header <| PayloadType := k |>) (zdrop (blocks_len front) payload)]).
Proof.
  induction front as [|b front IH]; intros payload Hf Hl; [by exists []|].
  apply Forall_cons in Hf as [[Hp Hb] Hf]. pose proof (blocks_len_nonneg front Hf).
  cbn [blocks_len fold_right] in Hl. change (fold_right _ 0 front) with (blocks_len front) in Hl.
  cbn [app recoverBlocks]. rewrite Hp. unfold splitAt. rewrite !(proj2 (Z.leb_le _ _)) by lia. cbn [andb res_bind].
  destruct (IH (zdrop (blk_length b) payload) Hf ltac:(rewrite zlen_zdrop; lia)) as [pkts E].
  rewrite zdrop_zdrop in E by lia. rewrite E. cbn [res_bind]. destruct (_ || _); [by exists pkts|].
  by eexists (_ :: pkts).
Qed.

(** C21: the two parsers of a redundant payload agree on every input and on
    every choice of packets to recover: either both report the same error, or
    the last packet of the one has the bytes the other returns, under the number
    and the timestamp of the packet itself; no input makes either read or slice
    out of range. *)
Theorem primary_encoding_agrees p bits :
  match extractPktsFromRed p bits with
  | Ok pkts => exists front k primary, pkts = front ++ [mkPacket ((Header p) <| PayloadType := k |>) primary] /\
      extractPrimaryEncodingForRED (Payload p) = Ok primary
  | Err e => extractPrimaryEncodingForRED (Payload p) = Err e /\ red_fault e = false
  end.
Proof.
  unfold extractPktsFromRed, extractPrimaryEncodingForRED.
  pose proof (headers_agree (S (length (Payload p))) (Payload p) [] 0 ltac:(lia)) as H.
  destruct (redBlocks _ _ _ _) as [[[bs len] rest]|e]; cbn [res_bind].
  2: { destruct H as [-> He]. done. }
  destruct H as (-> & front & k & -> & Hf & ->). cbn [res_bind app]. rewrite Z.add_0_l.
  pose proof (blocks_len_nonneg front Hf).
  destruct (Z.ltb_spec (zlen rest) (blocks_len front)); [done|].
  destruct (recover_primary (Header p) bits k front rest Hf ltac:(lia)) as [pkts ->].
  unfold splitAt. rewrite !(proj2 (Z.leb_le _ _)) by lia. cbn [andb res_bind]. by eexists pkts, k, _.
Qed.

(** ** Concrete runs *)

(** Packets of 960 ticks, each with its own payload byte. *)
Definition ex_source (i : Z) : source := mkSource (65534 + i) (4294966000 + 960 * i) opusPT [i; i + 1].

Definition ex_arrival (b : nat) (i : Z) : arrival := mkArrival b [128] (ex_source i).

(** All read into one buffer, two lost. *)
Lemma red_recovers_losses_witness :
  let l := [ex_arrival 1 1; ex_arrival 1 2; ex_arrival 1 3; ex_arrival 1 4] in
  let stream := map a_source (ex_arrival 1 0 :: l) in
  exists outs fw, sendRun (ex_arrival 1 0 :: l) ∅ NewRedReceiver = Ok outs /\
    receiveRun (transmit [true; false; false; true; true] stream outs) (NewRedPrimaryReceiver opusRedPT) = Ok fw /\
    forwarded (ex_source 3) ∈ fw /\ (exists q', like (ex_source 1) q' /\ forwarded q' ∈ fw) /\
    (forall x, x ∈ fw -> exists q q', q ∈ stream /\ like q q' /\ x = forwarded q').
Proof.
  destruct (red_recovers_losses [ex_arrival 1 1; ex_arrival 1 2; ex_arrival 1 3; ex_arrival 1 4] (ex_arrival 1 0)
    [false; false; true; true]) as (outs & fw & H1 & H2 & H3 & H4 & H5 & _).
  - cbn. repeat split; unfold src_ok, near; cbn; try lia; intros; simplify_eq; cbn; try lia; done.
  - reflexivity.
  - reflexivity.
  - exists outs, fw. split; [exact H1|]. split; [exact H2|]. split; [|split; [|exact H5]].
    + apply H3. cbn. set_solver.
    + apply H4. cbn. set_solver.
Defined.

(** The same stream with a buffer for each packet: nothing is corrupted; a
    packet that was recovered comes again with the next one that arrives. *)
Example own_buffers :
  let l := [ex_arrival 2 1; ex_arrival 3 2; ex_arrival 4 3; ex_arrival 5 4] in
  let stream := map a_source (ex_arrival 1 0 :: l) in
  exists outs fw, sendRun (ex_arrival 1 0 :: l) ∅ NewRedReceiver = Ok outs /\
    receiveRun (transmit [true; false; false; true; true] stream outs) (NewRedPrimaryReceiver opusRedPT) = Ok fw /\
    map (fun x => Payload (fst (fst x))) fw = [[0; 1]; [1; 2]; [2; 3]; [3; 4]; [2; 3]; [4; 5]].
Proof. eexists _, _. split; [vm_compute; reflexivity|]. split; vm_compute; reflexivity. Qed.

(** The receiver's own reader uses one buffer for every packet: the payloads of
    the history are then the current one. *)
Example shared_buffer_corrupts :
  let l := [ex_arrival 1 0; ex_arrival 1 1; ex_arrival 1 2] in
  match sendRun l ∅ NewRedReceiver with
  | Ok [_; _; Sent x] => extractPktsFromRed x 3 =
      Ok [mkPacket (Header (opus (ex_source 0))) [2; 3]; mkPacket (Header (opus (ex_source 1))) [2; 3]; opus (ex_source 2)]
  | _ => False
  end.
Proof. vm_compute. reflexivity. Qed.

(** A packet that was recovered and then arrives with the next redundant packet
    as well is forwarded again: the history does not record it. *)
Example recovered_twice :
  let stream := map ex_source [0; 1; 2; 3] in
  let outs := map Sent (red_stream None None stream) in
  receiveRun (transmit [true; false; true; true] stream outs) (NewRedPrimaryReceiver opusRedPT) =
  Ok (map forwarded (map ex_source [0; 1; 2; 1; 3])).
Proof. vm_compute. reflexivity. Qed.
