(* ===== verification/DataPacket.v ===== *)
(** * Data track packets

    Models [src/SERVER/pkg/rtc/datatrack/packet.go] and
    [extension_participant_sid.go]: the header of a data packet with its
    extensions, parsing and marshalling.

    A slice of a buffer may not reach behind its end: that is a panic.  (Go
    allows slicing up to the capacity with an explicit upper bound; the one
    place of the code where the two differ is the size of the extensions in a
    buffer of 12 or 13 bytes, and the next statement panics there anyhow.)
    [MarshalTo] changes the buffer in place: it returns the buffer. *)

From S2P Require Import Prelude.
From S2P Require Import KeyFrames.

Inductive data_error :=
| errHeaderSizeInsufficient
| errBufferSizeInsufficient
| errExtensionSizeInsufficient
| errExtensionNotFound
| errExtensionSizeTooBig
| errParticipantIDTooLong
| errInvalidExtensionID
| errEmptyExtensionData
| dataPanic (s : stop).

Definition headerLength : Z := 12.
Definition extensionsSizeLength : Z := 2.
Definition extensionIDLength : Z := 1.
Definition extensionSizeLength : Z := 1.
Definition extensionHeaderSize : Z := extensionIDLength + extensionSizeLength.

Record Extension := mkExtension { ext_id : Z; ext_data : list Z }.

Record Header := mkHeader {
  Version : Z;
  IsStartOfFrame : bool;
  IsFinalOfFrame : bool;
  HasExtensions : bool;
  Handle : Z;
  SequenceNumber : Z;
  FrameNumber : Z;
  Timestamp : Z;
  ExtensionsSize : Z;
  Extensions : list Extension;
}.
#[export] Instance eta_Header : Eta Header := fun h =>
  mkHeader (Version h) (IsStartOfFrame h) (IsFinalOfFrame h) (HasExtensions h) (Handle h) (SequenceNumber h)
    (FrameNumber h) (Timestamp h) (ExtensionsSize h) (Extensions h).

Definition zeroHeader : Header := mkHeader 0 false false false 0 0 0 0 0 [].

(** ** Parsing *)

(** [buf[lo:hi]] *)
Definition between (buf : list Z) (lo hi : Z) : res data_error (list Z) :=
  if (0 <=? lo) && (lo <=? hi) && (hi <=? zlen buf) then Ok (ztake (hi - lo) (zdrop lo buf))
  else Err (dataPanic panicked).

Definition at_ (buf : list Z) (i : Z) : res data_error Z := load (dataPanic panicked) buf i.

(** [binary.BigEndian.Uint16(buf[i:i+2])] and [Uint32]. *)
Definition uint16At (buf : list Z) (i : Z) : res data_error Z :=
  let! b0 := at_ buf i in
  let! b1 := at_ buf (i + 1) in
  Ok (be16 b0 b1).

Definition uint32At (buf : list Z) (i : Z) : res data_error Z :=
  let! b0 := at_ buf i in
  let! b1 := at_ buf (i + 1) in
  let! b2 := at_ buf (i + 2) in
  let! b3 := at_ buf (i + 3) in
  Ok (be32 b0 b1 b2 b3).

(** The loop over the extensions: what remains of their size, the size of the
    header, the extensions. *)
Fixpoint readExtensions (fuel : nat) (buf : list Z) (remainingSize idx hdrSize : Z) (exts : list Extension)
  : res data_error (Z * Z * list Extension) :=
  match fuel with
  | O => Err (dataPanic unfinished)
  | S fuel =>
    if remainingSize =? 0 then Ok (remainingSize, hdrSize, exts)
    else
      let! rest := between buf idx (zlen buf) in
      if (zlen rest <? extensionIDLength) || (remainingSize <? extensionIDLength) then Err errExtensionSizeInsufficient
      else
        let! id := at_ buf idx in
        if id =? 0 then Ok (remainingSize, hdrSize + remainingSize, exts)
        else
          let! rest := between buf (idx + 1) (zlen buf) in
          if (zlen rest <? extensionSizeLength) || (remainingSize <? extensionSizeLength) then
            Err errExtensionSizeInsufficient
          else
            let! size := at_ buf (idx + 1) in
            let remainingSize := remainingSize - extensionHeaderSize in
            let idx := idx + extensionHeaderSize in
            let hdrSize := hdrSize + extensionHeaderSize in
            let! rest := between buf idx (zlen buf) in
            if (zlen rest <? size) || (remainingSize <? size) then Err errExtensionSizeInsufficient
            else
              let! data := between buf idx (idx + size) in
              readExtensions fuel buf (remainingSize - size) (idx + size) (hdrSize + size)
                (exts ++ [mkExtension id data])
  end.

Definition flag (b0 shift : Z) : bool := Z.land (Z.shiftr b0 shift) 1 >? 0.

Definition extensionsArea (x : Z) : Z := u16 (u16 (u16 (x + 1) * 4) - extensionsSizeLength).

(** [Header.Unmarshal]; the header keeps the extensions that it had. *)
Definition Header_Unmarshal (buf : list Z) (h : Header) : res data_error (Header * Z) :=
  if zlen buf <? headerLength then Err errHeaderSizeInsufficient
  else
    let! b0 := at_ buf 0 in
    let! handle := uint16At buf 2 in
    let! seqNum := uint16At buf 4 in
    let! frameNum := uint16At buf 6 in
    let! timestamp := uint32At buf 8 in
    let h := h <| Version := Z.land (Z.shiftr b0 5) 7 |>
               <| IsStartOfFrame := flag b0 4 |>
               <| IsFinalOfFrame := flag b0 3 |>
               <| HasExtensions := flag b0 2 |>
               <| Handle := handle |>
               <| SequenceNumber := seqNum |>
               <| FrameNumber := frameNum |>
               <| Timestamp := timestamp |> in
    if HasExtensions h then
      let! x := uint16At buf headerLength in
      let extensionsSize := extensionsArea x in
      let! (remainingSize, hdrSize, exts) :=
        readExtensions (S (length buf)) buf extensionsSize (headerLength + extensionsSizeLength)
          (headerLength + extensionsSizeLength) (Extensions h) in
      Ok (h <| Extensions := exts |> <| ExtensionsSize := u16 (extensionsSize - u16 remainingSize) |>, hdrSize)
    else Ok (h, headerLength).

(** ** Marshalling *)

Definition ext_size (ext : Extension) : Z := zlen (ext_data ext) + extensionIDLength + extensionSizeLength.

Definition Header_MarshalSize (h : Header) : Z :=
  let extensionsSize :=
    if HasExtensions h then fold_left (fun n ext => n + ext_size ext) (Extensions h) extensionsSizeLength else 0 in
  headerLength + (extensionsSize + 3) / 4 * 4.

(** [bs] written over [buf[i:]]. *)
Definition overwrite (buf : list Z) (i : Z) (bs : list Z) : list Z :=
  ztake i buf ++ bs ++ zdrop (i + zlen bs) buf.

(** [binary.BigEndian.PutUint16(buf[i:i+2], x)] and the like. *)
Definition putAt (buf : list Z) (i : Z) (bs : list Z) : res data_error (list Z) :=
  if (0 <=? i) && (i + zlen bs <=? zlen buf) then Ok (overwrite buf i bs) else Err (dataPanic panicked).

(** [copy(buf[i:], data)] *)
Definition copyAt (buf : list Z) (i : Z) (data : list Z) : res data_error (list Z) :=
  if (0 <=? i) && (i <=? zlen buf) then Ok (overwrite buf i (ztake (zlen buf - i) data))
  else Err (dataPanic panicked).

Fixpoint writeExtensions (exts : list Extension) (buf : list Z) (idx hdrSize addedSize : Z)
  : res data_error (list Z * Z * Z * Z) :=
  match exts with
  | [] => Ok (buf, idx, hdrSize, addedSize)
  | ext :: exts =>
    let! buf := putAt buf idx [ext_id ext] in
    if zlen (ext_data ext) >? 255 then Err errExtensionSizeTooBig
    else
      let! buf := putAt buf (idx + extensionIDLength) [u8 (zlen (ext_data ext))] in
      let! buf := copyAt buf (idx + extensionIDLength + extensionSizeLength) (ext_data ext) in
      let extSize := ext_size ext in
      writeExtensions exts buf (idx + extSize) (hdrSize + extSize) (addedSize + extSize)
  end.

(** [for i := range paddingSize { buf[idx+int(i)] = 0 }] *)
Fixpoint zeroFrom (n : nat) (idx : Z) (buf : list Z) : res data_error (list Z) :=
  match n with
  | O => Ok buf
  | S n =>
    let! buf := putAt buf idx [0] in
    zeroFrom n (idx + 1) buf
  end.

Definition firstByte (h : Header) : Z :=
  let b := u8 (Z.shiftl (Version h) 5) in
  let b := if IsStartOfFrame h then Z.lor b 16 else b in
  let b := if IsFinalOfFrame h then Z.lor b 8 else b in
  if HasExtensions h then Z.lor b 4 else b.

Definition paddedSize (ExtensionsSize : Z) : Z := u16 (u16 (extensionsSizeLength + ExtensionsSize + 3) / 4 * 4).

(** The first twelve bytes. *)
Definition writeFixed (h : Header) (buf : list Z) : res data_error (list Z) :=
  let! buf := putAt buf 0 [firstByte h] in
  let! buf := putAt buf 2 (bytes16 (Handle h)) in
  let! buf := putAt buf 4 (bytes16 (SequenceNumber h)) in
  let! buf := putAt buf 6 (bytes16 (FrameNumber h)) in
  putAt buf 8 (bytes32 (Timestamp h)).

(** [Header.MarshalTo]: the buffer, and the size of the header. *)
Definition Header_MarshalTo (h : Header) (buf : list Z) : res data_error (list Z * Z) :=
  if zlen buf <? headerLength then Err errHeaderSizeInsufficient
  else
    let! buf := writeFixed h buf in
    if HasExtensions h then
      let extensionsSize := paddedSize (ExtensionsSize h) in
      let! buf := putAt buf headerLength (bytes16 (u16 (extensionsSize / 4 - 1))) in
      let! (buf, idx, hdrSize, addedSize) :=
        writeExtensions (Extensions h) buf (headerLength + extensionsSizeLength)
          (headerLength + extensionsSizeLength) 0 in
      let paddingSize := u16 (extensionsSize - extensionsSizeLength - u16 addedSize) in
      let! buf := zeroFrom (Z.to_nat paddingSize) idx buf in
      Ok (buf, hdrSize + paddingSize)
    else Ok (buf, headerLength).

Fixpoint addExtension (ext : Extension) (exts : list Extension) (size : Z) : option (list Extension * Z) :=
  match exts with
  | [] => None
  | e :: exts =>
    if ext_id e =? ext_id ext then
      let size := u16 (size - u16 (ext_size e)) in
      let e := mkExtension (ext_id e) (ext_data ext) in
      Some (e :: exts, u16 (size + u16 (ext_size e)))
    else
      match addExtension ext exts size with
      | Some (exts, size) => Some (e :: exts, size)
      | None => None
      end
  end.

Definition AddExtension (ext : Extension) (h : Header) : Header :=
  match addExtension ext (Extensions h) (ExtensionsSize h) with
  | Some (exts, size) => h <| Extensions := exts |> <| ExtensionsSize := size |>
  | None =>
    h <| Extensions := Extensions h ++ [ext] |>
      <| ExtensionsSize := u16 (ExtensionsSize h + u16 (ext_size ext)) |>
      <| HasExtensions := true |>
  end.

Definition GetExtension (id : Z) (h : Header) : res data_error Extension :=
  match find (fun ext => ext_id ext =? id) (Extensions h) with
  | Some ext => Ok ext
  | None => Err errExtensionNotFound
  end.

(** ** Packets *)

Record Packet := mkPacket { header : Header; Payload : list Z }.
#[export] Instance eta_Packet : Eta Packet := fun p => mkPacket (header p) (Payload p).

Definition zeroPacket : Packet := mkPacket zeroHeader [].

Definition Packet_Unmarshal (buf : list Z) (p : Packet) : res data_error Packet :=
  let! (h, hdrSize) := Header_Unmarshal buf (header p) in
  let! payload := between buf hdrSize (zlen buf) in
  Ok (mkPacket h payload).

Definition Packet_MarshalTo (p : Packet) (buf : list Z) : res data_error (list Z) :=
  let size := Header_MarshalSize (header p) + zlen (Payload p) in
  if zlen buf <? size then Err errBufferSizeInsufficient
  else
    let! (buf, hdrSize) := Header_MarshalTo (header p) buf in
    copyAt buf hdrSize (Payload p).

Definition Packet_Marshal (p : Packet) : res data_error (list Z) :=
  Packet_MarshalTo p (repeat 0 (Z.to_nat (Header_MarshalSize (header p) + zlen (Payload p)))).

(** ** The participant extension *)

Section ParticipantSid.
(** The number of the extension is in the protocol package. *)
Context (DTEI_PARTICIPANT_SID : Z).

Definition NewExtensionParticipantSid (participantID : list Z) : res data_error (list Z) :=
  if zlen participantID >=? 256 then Err errParticipantIDTooLong else Ok participantID.

Definition Sid_Marshal (participantID : list Z) : Extension :=
  mkExtension (u8 DTEI_PARTICIPANT_SID) participantID.

Definition Sid_Unmarshal (ext : Extension) : res data_error (list Z) :=
  if negb (ext_id ext =? u8 DTEI_PARTICIPANT_SID) then Err errInvalidExtensionID
  else if zlen (ext_data ext) =? 0 then Err errEmptyExtensionData
  else Ok (ext_data ext).
End ParticipantSid.

(** * Proofs

    ** Writing *)

Lemma overwrite_app pre rest bs : zlen bs <= zlen rest ->
  overwrite (pre ++ rest) (zlen pre) bs = pre ++ bs ++ zdrop (zlen bs) rest.
Proof.
  intros Hl. pose proof (zlen_nonneg bs). unfold overwrite, ztake, zdrop, zlen in *. f_equal.
  - rewrite Nat2Z.id. apply take_app_length.
  - f_equal. rewrite Z2Nat.inj_add, !Nat2Z.id by lia. rewrite <- drop_drop. by rewrite drop_app_length.
Qed.

Lemma put_app pre rest bs i : i = zlen pre -> zlen bs <= zlen rest ->
  putAt (pre ++ rest) i bs = Ok (pre ++ bs ++ zdrop (zlen bs) rest).
Proof.
  intros -> Hl. unfold putAt. rewrite zlen_app. pose proof (zlen_nonneg pre).
  rewrite !(proj2 (Z.leb_le _ _)) by lia. cbn [andb]. by rewrite overwrite_app.
Qed.

Lemma copy_app pre rest bs i : i = zlen pre -> zlen bs <= zlen rest ->
  copyAt (pre ++ rest) i bs = Ok (pre ++ bs ++ zdrop (zlen bs) rest).
Proof.
  intros -> Hl. unfold copyAt. rewrite zlen_app. pose proof (zlen_nonneg pre). pose proof (zlen_nonneg rest).
  rewrite !(proj2 (Z.leb_le _ _)) by lia. cbn [andb].
  assert (ztake (zlen pre + zlen rest - zlen pre) bs = bs) as ->.
  { unfold ztake. apply take_ge. unfold zlen in *. lia. }
  by rewrite overwrite_app.
Qed.

Definition ext_bytes (ext : Extension) : list Z := ext_id ext :: zlen (ext_data ext) :: ext_data ext.
Definition exts_bytes (exts : list Extension) : list Z := mjoin (map ext_bytes exts).

Record ext_ok (ext : Extension) : Prop := {
  ok_id : 1 <= ext_id ext < 256;
  ok_data : bytes (ext_data ext);
  ok_size : zlen (ext_data ext) <= 255;
}.

Lemma zlen_ext_bytes e : zlen (ext_bytes e) = ext_size e.
Proof. unfold ext_bytes, ext_size, extensionIDLength, extensionSizeLength. rewrite !zlen_cons. lia. Qed.

Lemma exts_bytes_cons e l : exts_bytes (e :: l) = ext_bytes e ++ exts_bytes l.
Proof. done. Qed.

Lemma exts_size l n : fold_left (fun n ext => n + ext_size ext) l n = n + zlen (exts_bytes l).
Proof.
  revert n. induction l as [|e l IH]; intros n; [change (zlen (exts_bytes [])) with 0; cbn [fold_left]; lia|]. cbn [fold_left].
  rewrite IH, exts_bytes_cons, zlen_app, zlen_ext_bytes. lia.
Qed.

Lemma zlen_zdrop_le {A} i (l : list A) n : 0 <= i -> i + n <= zlen l -> n <= zlen (zdrop i l).
Proof. intros Hi Hn. destruct (Z.ltb_spec n 0); [pose proof (zlen_nonneg (zdrop i l)); lia|]. rewrite zlen_zdrop; lia. Qed.

Lemma write_exts exts : forall pre rest hs added, Forall ext_ok exts -> zlen (exts_bytes exts) <= zlen rest ->
  writeExtensions exts (pre ++ rest) (zlen pre) hs added =
  Ok (pre ++ exts_bytes exts ++ zdrop (zlen (exts_bytes exts)) rest, zlen pre + zlen (exts_bytes exts),
      hs + zlen (exts_bytes exts), added + zlen (exts_bytes exts)).
Proof.
  induction exts as [|e exts IH]; intros pre rest hs added Hok Hl.
  { cbn [writeExtensions]. change (zlen (exts_bytes [])) with 0. rewrite !Z.add_0_r. done. }
  apply Forall_cons in Hok as [[Hid Hdata Hsize] Hok].
  rewrite exts_bytes_cons, zlen_app in Hl |- *. pose proof (zlen_nonneg (exts_bytes exts)).
  assert (zlen (ext_bytes e) = 2 + zlen (ext_data e)) as Eb.
  { rewrite zlen_ext_bytes. unfold ext_size, extensionIDLength, extensionSizeLength. lia. }
  pose proof (zlen_nonneg (ext_data e)). rewrite Eb in Hl. cbn [writeExtensions].
  rewrite (put_app pre rest [ext_id e]) by (done || (change (zlen [_]) with 1; lia)). change (zlen [ext_id e]) with 1.
  cbn [res_bind]. rewrite Z.gtb_ltb, (proj2 (Z.ltb_ge _ _)) by lia. rewrite u8_small by lia. rewrite app_assoc.
  rewrite put_app. 2: { rewrite zlen_app. change (zlen [_]) with 1. done. }
  2: { apply zlen_zdrop_le; change (zlen [_]) with 1; lia. }
  change (zlen [zlen (ext_data e)]) with 1. cbn [res_bind]. rewrite zdrop_zdrop by lia. rewrite app_assoc.
  rewrite copy_app.
  2: { rewrite !zlen_app. change (zlen [_]) with 1. unfold extensionIDLength, extensionSizeLength. lia. }
  2: { apply zlen_zdrop_le; lia. }
  cbn [res_bind]. rewrite zdrop_zdrop by lia.
  specialize (IH (pre ++ ext_bytes e) (zdrop (2 + zlen (ext_data e)) rest) (hs + ext_size e) (added + ext_size e) Hok).
  rewrite zlen_app, zlen_ext_bytes, zdrop_zdrop in IH by lia.
  replace (((pre ++ [ext_id e]) ++ [zlen (ext_data e)]) ++ ext_data e ++ zdrop (1 + 1 + zlen (ext_data e)) rest)
    with ((pre ++ ext_bytes e) ++ zdrop (2 + zlen (ext_data e)) rest) by (unfold ext_bytes; by rewrite <- !app_assoc).
  rewrite IH by (apply zlen_zdrop_le; lia). rewrite Eb, <- !app_assoc.
  assert (ext_size e = 2 + zlen (ext_data e)) as -> by (unfold ext_size, extensionIDLength, extensionSizeLength; lia).
  by rewrite !Z.add_assoc.
Qed.

Lemma zero_app n : forall pre rest, Z.of_nat n <= zlen rest ->
  zeroFrom n (zlen pre) (pre ++ rest) = Ok (pre ++ repeat 0 n ++ zdrop (Z.of_nat n) rest).
Proof.
  induction n as [|n IH]; intros pre rest Hl; [done|]. cbn [zeroFrom].
  rewrite put_app by (done || (change (zlen [0]) with 1; lia)). change (zlen [0]) with 1. cbn [res_bind]. rewrite app_assoc.
  specialize (IH (pre ++ [0]) (zdrop 1 rest)). rewrite zlen_app in IH. change (zlen [0]) with 1 in IH.
  rewrite IH by (apply zlen_zdrop_le; lia). rewrite zdrop_zdrop by lia.
  replace (1 + Z.of_nat n) with (Z.of_nat (S n)) by lia. cbn [repeat]. by rewrite <- !app_assoc.
Qed.

(** ** The format *)

Record header_ok (h : Header) : Prop := {
  ok_version : 0 <= Version h < 8;
  ok_handle : 0 <= Handle h < 65536;
  ok_seq : 0 <= SequenceNumber h < 65536;
  ok_frame : 0 <= FrameNumber h < 65536;
  ok_ts : 0 <= Timestamp h < 4294967296;
  ok_exts : Forall ext_ok (Extensions h);
  ok_exts_size : ExtensionsSize h = zlen (exts_bytes (Extensions h));
  ok_fits : ExtensionsSize h <= 65534;
  ok_none : HasExtensions h = false -> Extensions h = [];
}.

Definition fixed_bytes (h : Header) (reserved : Z) : list Z :=
  firstByte h :: reserved :: bytes16 (Handle h) ++ bytes16 (SequenceNumber h) ++ bytes16 (FrameNumber h) ++ bytes32 (Timestamp h).

(** The size of the extensions with their own size field, padded. *)
Definition area (size : Z) : Z := (size + 5) / 4 * 4.

Definition area_bytes (h : Header) : list Z :=
  if HasExtensions h then
    bytes16 (u16 (paddedSize (ExtensionsSize h) / 4 - 1)) ++ exts_bytes (Extensions h) ++
      repeat 0 (Z.to_nat (area (ExtensionsSize h) - 2 - ExtensionsSize h))
  else [].

Lemma area_sizes s : 0 <= s <= 65534 ->
  u16 (paddedSize s - 2 - u16 s) = area s - 2 - s /\ 0 <= area s - 2 - s <= 3 /\
  extensionsArea (u16 (paddedSize s / 4 - 1)) = area s - 2.
Proof.
  intros Hs. unfold paddedSize, area, extensionsArea, extensionsSizeLength. replace (2 + s + 3) with (s + 5) by lia.
  rewrite (u16_small s) by lia. destruct (Z.ltb_spec s 65531) as [Hlt|Hge].
  - rewrite (u16_small (s + 5)) by lia. rewrite (u16_small ((s + 5) / 4 * 4)) by dlia.
    set (q := (s + 5) / 4). assert (4 * q <= s + 5 < 4 * q + 4) by (unfold q; dlia). rewrite Z.div_mul by lia.
    rewrite (u16_small (q * 4 - 2 - s)), (u16_small (q - 1)), (u16_small (q - 1 + 1)), (u16_small ((q - 1 + 1) * 4)) by lia.
    rewrite u16_small by lia. lia.
  - assert (u16 (s + 5) = s + 5 - 65536) as -> by (unfold u16; dlia).
    assert ((s + 5 - 65536) / 4 = 0) as -> by dlia. assert ((s + 5) / 4 = 16384) as -> by dlia.
    change (u16 (0 * 4)) with 0. change (u16 (0 / 4 - 1)) with 65535. change (u16 (u16 (u16 (65535 + 1) * 4) - 2)) with 65534.
    split; [unfold u16; dlia|lia].
Qed.

Lemma zlen_repeat {A} (x : A) n : zlen (repeat x n) = Z.of_nat n.
Proof. unfold zlen. by rewrite repeat_length. Qed.

Lemma writeFixed_eq h buf : 12 <= zlen buf ->
  exists r, zlookup buf 1 = Some r /\ writeFixed h buf = Ok (fixed_bytes h r ++ zdrop 12 buf).
Proof.
  intros H12. do 12 (destruct buf as [|? buf]; [by cbn in H12|]).
  match goal with |- context [zlookup (_ :: ?r :: _) 1] => exists r; split; [done|] end.
  unfold writeFixed. pose proof (zlen_nonneg buf).
  match goal with |- context [putAt (?a :: ?b) 0 ?bs] => change (a :: b) with ([] ++ a :: b) end.
  rewrite (put_app []) by (done || (change (zlen [_]) with 1; rewrite !zlen_cons; lia)). cbn [res_bind app].
  change (zdrop (zlen [_]) (?a :: ?l)) with l.
  match goal with |- context [putAt (?a :: ?b :: ?l) 2 ?bs] => change (a :: b :: l) with ([a; b] ++ l) end.
  rewrite (put_app [_; _]) by (done || (change (zlen (bytes16 _)) with 2; rewrite !zlen_cons; lia)). cbn [res_bind].
  change (zdrop (zlen (bytes16 _)) (?a :: ?b :: ?l)) with l. rewrite (app_assoc [_; _]).
  rewrite put_app by (done || (change (zlen (bytes16 _)) with 2; rewrite !zlen_cons; lia)). cbn [res_bind].
  change (zdrop (zlen (bytes16 _)) (?a :: ?b :: ?l)) with l. rewrite (app_assoc ([_; _] ++ _)).
  rewrite put_app by (done || (change (zlen (bytes16 _)) with 2; rewrite !zlen_cons; lia)). cbn [res_bind].
  change (zdrop (zlen (bytes16 _)) (?a :: ?b :: ?l)) with l. rewrite (app_assoc (([_; _] ++ _) ++ _)).
  by rewrite put_app by (done || (change (zlen (bytes32 _)) with 4; rewrite !zlen_cons; lia)).
Qed.

Lemma Header_MarshalSize_eq h : header_ok h ->
  Header_MarshalSize h = 12 + (if HasExtensions h then area (ExtensionsSize h) else 0).
Proof.
  intros [_ _ _ _ _ _ Hs _ _]. unfold Header_MarshalSize, headerLength, extensionsSizeLength, area. rewrite exts_size.
  destruct (HasExtensions h); [|done]. rewrite Hs. do 3 f_equal. lia.
Qed.

Lemma Header_MarshalTo_eq h buf : header_ok h -> Header_MarshalSize h <= zlen buf ->
  exists r, zlookup buf 1 = Some r /\
  Header_MarshalTo h buf = Ok (fixed_bytes h r ++ area_bytes h ++ zdrop (Header_MarshalSize h) buf, Header_MarshalSize h).
Proof.
  intros Hok Hl. rewrite Header_MarshalSize_eq in * by done. destruct Hok as [_ _ _ _ _ Hexts Hsize Hfits _].
  pose proof (zlen_nonneg (exts_bytes (Extensions h))) as Hnn. rewrite <- Hsize in Hnn.
  destruct (area_sizes (ExtensionsSize h) ltac:(lia)) as (Ep & Hp & _).
  destruct (writeFixed_eq h buf) as (r & Hr & E); [destruct (HasExtensions h); lia|]. exists r. split; [done|].
  unfold Header_MarshalTo, headerLength, extensionsSizeLength.
  rewrite (proj2 (Z.ltb_ge _ _)) by (destruct (HasExtensions h); lia). rewrite E. cbn [res_bind].
  unfold area_bytes. destruct (HasExtensions h); [|done]. set (s := ExtensionsSize h) in *. set (F := fixed_bytes h r).
  assert (zlen F = 12) as EF by done. clearbody F.
  rewrite put_app by (done || (change (zlen (bytes16 _)) with 2; apply zlen_zdrop_le; lia)). cbn [res_bind].
  change (zlen (bytes16 _)) with 2. rewrite zdrop_zdrop, app_assoc by lia. set (x := bytes16 _).
  change (zdrop (12 + 2) buf) with (zdrop 14 buf). replace (12 + 2) with (zlen (F ++ x)) by (rewrite zlen_app, EF; done).
  rewrite write_exts by (done || (apply zlen_zdrop_le; lia)). cbn [res_bind]. rewrite Z.add_0_l, <- Hsize, Ep, zdrop_zdrop by lia.
  rewrite app_assoc. replace (zlen (F ++ x) + s) with (zlen ((F ++ x) ++ exts_bytes (Extensions h))) by (rewrite zlen_app; lia).
  rewrite zero_app by (rewrite Z2Nat.id by lia; apply zlen_zdrop_le; lia). cbn [res_bind].
  rewrite zdrop_zdrop, Z2Nat.id, <- !app_assoc by lia.
  assert (zlen (F ++ x ++ exts_bytes (Extensions h)) = 14 + s) as -> by (rewrite !zlen_app, EF; change (zlen x) with 2; lia).
  by replace (14 + s + (area s - 2 - s)) with (12 + area s) by lia.
Qed.

(** ** Reading *)

Lemma between_end buf lo : 0 <= lo <= zlen buf -> between buf lo (zlen buf) = Ok (zdrop lo buf).
Proof.
  intros Hl. unfold between. rewrite !(proj2 (Z.leb_le _ _)) by lia. cbn [andb]. f_equal. unfold ztake, zdrop.
  apply take_ge. rewrite length_drop. unfold zlen in *. lia.
Qed.

Lemma between_in buf lo n : 0 <= lo -> 0 <= n <= zlen (zdrop lo buf) -> lo <= zlen buf ->
  between buf lo (lo + n) = Ok (ztake n (zdrop lo buf)).
Proof.
  intros Hl Hn Hb. rewrite zlen_zdrop in Hn by lia. unfold between. rewrite !(proj2 (Z.leb_le _ _)) by lia. cbn [andb].
  by replace (lo + n - lo) with n by lia.
Qed.

Lemma at_drop buf i k : 0 <= i -> 0 <= k -> at_ buf (i + k) = at_ (zdrop i buf) k.
Proof.
  intros Hi Hk. unfold at_, load, zlookup, zdrop. rewrite !(proj2 (Z.leb_le _ _)) by lia.
  rewrite lookup_drop. by rewrite Z2Nat.inj_add by lia.
Qed.

(** The loop as a parser of the bytes from the index on. *)
Fixpoint parseExts (fuel : nat) (l : list Z) (remaining hs : Z) (exts : list Extension)
  : res data_error (Z * Z * list Extension) :=
  match fuel with
  | O => Err (dataPanic unfinished)
  | S fuel =>
    if remaining =? 0 then Ok (remaining, hs, exts)
    else if remaining <? 1 then Err errExtensionSizeInsufficient
    else match l with
    | [] => Err errExtensionSizeInsufficient
    | id :: l =>
      if id =? 0 then Ok (remaining, hs + remaining, exts)
      else match l with
      | [] => Err errExtensionSizeInsufficient
      | size :: l =>
        if (zlen l <? size) || (remaining - 2 <? size) then Err errExtensionSizeInsufficient
        else parseExts fuel (zdrop size l) (remaining - 2 - size) (hs + 2 + size) (exts ++ [mkExtension id (ztake size l)])
      end
    end
  end.

Lemma zdrop_cons {A} i (l k : list A) x : 0 <= i -> zdrop i l = x :: k -> zdrop (i + 1) l = k.
Proof. intros Hi E. rewrite <- zdrop_zdrop, E by lia. done. Qed.

Lemma zdrop_len {A} i (l k : list A) : 0 <= i -> k <> [] -> zdrop i l = k -> i + zlen k = zlen l.
Proof.
  intros Hi Hk E. assert (0 < zlen k) by (destruct k; [done|rewrite zlen_cons; pose proof (zlen_nonneg k); lia]).
  destruct (Z.leb_spec (zlen l) i); [by rewrite zdrop_ge in E by lia; subst|].
  rewrite <- E, zlen_zdrop by lia. lia.
Qed.

Lemma readExtensions_parse fuel : forall buf remaining idx hs exts, bytes buf -> 0 <= idx <= zlen buf ->
  readExtensions fuel buf remaining idx hs exts = parseExts fuel (zdrop idx buf) remaining hs exts.
Proof.
  induction fuel as [|fuel IH]; intros buf remaining idx hs exts Hb Hi; [done|]. cbn [readExtensions parseExts].
  destruct (Z.eqb_spec remaining 0); [done|]. rewrite between_end by done. cbn [res_bind].
  unfold extensionIDLength, extensionSizeLength, extensionHeaderSize, extensionIDLength, extensionSizeLength.
  assert (bytes (zdrop idx buf)) as Hbd by by apply Forall_drop.
  destruct (zdrop idx buf) as [|id l] eqn:El; [by destruct (remaining <? 1)|].
  rewrite zlen_cons. pose proof (zlen_nonneg l). rewrite (proj2 (Z.ltb_ge (1 + zlen l) _)) by lia. cbn [orb].
  pose proof (zdrop_len idx buf (id :: l) ltac:(lia) ltac:(done) El) as Hlen. rewrite zlen_cons in Hlen.
  destruct (Z.ltb_spec remaining 1); [done|].
  rewrite <- (Z.add_0_r idx) at 1. rewrite at_drop, El by lia. change (at_ (id :: l) 0) with (Ok id : res data_error Z).
  cbn [res_bind]. destruct (id =? 0); [done|]. pose proof (zdrop_cons _ _ _ _ (proj1 Hi) El) as El1.
  rewrite between_end by lia. cbn [res_bind]. rewrite El1. destruct l as [|size l]; [done|].
  rewrite zlen_cons in *. pose proof (zlen_nonneg l). rewrite !(proj2 (Z.ltb_ge _ 1)) by lia. cbn [orb].
  rewrite <- (Z.add_0_r (idx + 1)), at_drop, El1 by lia. change (at_ (size :: l) 0) with (Ok size : res data_error Z). cbn [res_bind].
  pose proof (zdrop_cons (idx + 1) _ _ _ ltac:(lia) El1) as El2. replace (idx + (1 + 1)) with (idx + 1 + 1) by lia.
  rewrite between_end, El2 by lia. cbn [res_bind]. change (1 + 1) with 2.
  destruct (Z.ltb_spec (zlen l) size); [done|]. destruct (Z.ltb_spec (remaining - 2) size); [done|]. cbn [orb].
  apply Forall_cons in Hbd as [_ [Hs _]%Forall_cons]. unfold byte in Hs.
  rewrite between_in by (rewrite ?El2; lia). cbn [res_bind]. rewrite El2, IH by (done || lia).
  by rewrite <- zdrop_zdrop, El2 by lia.
Qed.

(** It reads what is written. *)
Lemma parse_written exts : forall fuel rest remaining hs exts0, (length exts < fuel)%nat -> Forall ext_ok exts ->
  zlen (exts_bytes exts) <= remaining -> exists fuel',
  parseExts fuel (exts_bytes exts ++ rest) remaining hs exts0 =
  parseExts (S fuel') rest (remaining - zlen (exts_bytes exts)) (hs + zlen (exts_bytes exts)) (exts0 ++ exts).
Proof.
  induction exts as [|e exts IH]; intros fuel rest remaining hs exts0 Hf Hok Hr;
    (destruct fuel as [|fuel]; [cbn in Hf; lia|]).
  { exists fuel. change (exts_bytes []) with (@nil Z). by rewrite zlen_nil, Z.sub_0_r, Z.add_0_r, app_nil_r. }
  apply Forall_cons in Hok as [[Hid Hdata Hsize] Hok].
  rewrite exts_bytes_cons, zlen_app, zlen_ext_bytes in *. set (d := ext_data e) in *.
  assert (ext_size e = 2 + zlen d) as Es by (unfold ext_size, extensionIDLength, extensionSizeLength, d; lia).
  pose proof (zlen_nonneg d). pose proof (zlen_nonneg (exts_bytes exts)). pose proof (zlen_nonneg rest).
  destruct (IH fuel rest (remaining - ext_size e) (hs + ext_size e) (exts0 ++ [e])
    ltac:(cbn in Hf; lia) Hok ltac:(lia)) as [fuel' E]. exists fuel'.
  cbn [parseExts]. rewrite (proj2 (Z.eqb_neq remaining _)), (proj2 (Z.ltb_ge _ _)) by lia. unfold ext_bytes. cbn [app].
  rewrite (proj2 (Z.eqb_neq (ext_id e) _)) by lia. fold d. rewrite <- app_assoc, !zlen_app, !(proj2 (Z.ltb_ge _ _)) by lia.
  cbn [orb]. assert (zdrop (zlen d) (d ++ exts_bytes exts ++ rest) = exts_bytes exts ++ rest) as ->
    by (unfold zdrop, zlen; by rewrite Nat2Z.id, drop_app_length).
  assert (ztake (zlen d) (d ++ exts_bytes exts ++ rest) = d) as ->
    by (unfold ztake, zlen; by rewrite Nat2Z.id, take_app_length).
  replace (remaining - 2 - zlen d) with (remaining - ext_size e) by lia.
  replace (hs + 2 + zlen d) with (hs + ext_size e) by lia.
  assert (mkExtension (ext_id e) d = e) as -> by by destruct e. rewrite E, <- app_assoc.
  by rewrite Z.sub_add_distr, Z.add_assoc.
Qed.

(** What it reads was written. *)
Lemma parse_inv fuel : forall l remaining hs exts0, bytes l -> (length l < fuel)%nat -> 0 <= remaining ->
  match parseExts fuel l remaining hs exts0 with
  | Ok (remaining', hs', exts) => exists new rest, exts = exts0 ++ new /\ Forall ext_ok new /\ l = exts_bytes new ++ rest /\
      remaining' = remaining - zlen (exts_bytes new) /\ 0 <= remaining' /\
      ((remaining' = 0 /\ hs' = hs + zlen (exts_bytes new)) \/
       (0 < remaining' /\ (exists tail, rest = 0 :: tail) /\ hs' = hs + remaining))
  | Err e => e = errExtensionSizeInsufficient
  end.
Proof.
  induction fuel as [|fuel IH]; intros l remaining hs exts0 Hb Hf Hr; [lia|]. cbn [parseExts].
  destruct (Z.eqb_spec remaining 0) as [->|Hne].
  { exists [], l. change (zlen (exts_bytes [])) with 0. split_and!; [by rewrite app_nil_r|done..|left; split; [done|lia]]. }
  destruct (Z.ltb_spec remaining 1); [lia|]. destruct l as [|id l]; [done|]. apply Forall_cons in Hb as [Hid Hb].
  destruct (Z.eqb_spec id 0) as [->|Hi].
  { exists [], (0 :: l). change (zlen (exts_bytes [])) with 0. split_and!; [by rewrite app_nil_r|done|done|lia|lia|].
    right. split_and!; [lia|by exists l|lia]. }
  destruct l as [|size l]; [done|]. apply Forall_cons in Hb as [Hs Hb]. unfold byte in Hid, Hs.
  destruct (Z.ltb_spec (zlen l) size); [done|]. destruct (Z.ltb_spec (remaining - 2) size); [done|]. cbn [orb].
  assert (zlen (ztake size l) = size) as Et by (unfold ztake, zlen in *; rewrite length_take; lia).
  specialize (IH (zdrop size l) (remaining - 2 - size) (hs + 2 + size) (exts0 ++ [mkExtension id (ztake size l)])).
  destruct (parseExts _ _ _ _ _) as [[[rem' hs'] exts]|e].
  2: { apply IH; [by apply Forall_drop| |lia]. unfold zdrop. rewrite length_drop. cbn in Hf. lia. }
  destruct IH as (new & rest & -> & Hok & El & -> & Hr' & Hend);
    [by apply Forall_drop|unfold zdrop; rewrite length_drop; cbn in Hf; lia|lia|].
  exists (mkExtension id (ztake size l) :: new), rest. rewrite exts_bytes_cons, zlen_app, zlen_ext_bytes.
  unfold ext_size, extensionIDLength, extensionSizeLength. cbn [ext_data]. rewrite Et. split_and!.
  - by rewrite <- app_assoc.
  - constructor; [|done]. split; cbn [ext_id ext_data]; [lia|by apply Forall_take|lia].
  - unfold ext_bytes. cbn [ext_id ext_data app]. rewrite Et, <- app_assoc, <- El. unfold ztake, zdrop. by rewrite take_drop.
  - lia.
  - lia.
  - destruct Hend as [[??]|(? & ? & ?)]; [left|right]; split_and!; try done; lia.
Qed.

(** ** Headers *)

Lemma firstByte_bits h : 0 <= Version h < 8 ->
  byte (firstByte h) /\ Z.land (Z.shiftr (firstByte h) 5) 7 = Version h /\ flag (firstByte h) 4 = IsStartOfFrame h /\
  flag (firstByte h) 3 = IsFinalOfFrame h /\ flag (firstByte h) 2 = HasExtensions h.
Proof.
  intros Hv. unfold firstByte, byte. set (v := Version h) in *. clearbody v.
  assert (v = 0 \/ v = 1 \/ v = 2 \/ v = 3 \/ v = 4 \/ v = 5 \/ v = 6 \/ v = 7) as Hc by lia.
  destruct (IsStartOfFrame h), (IsFinalOfFrame h), (HasExtensions h);
    destruct Hc as [->|[->|[->|[->|[->|[->|[->| ->]]]]]]]; vm_compute; repeat split; discriminate.
Qed.

Lemma be16_bytes16 x : 0 <= x < 65536 -> be16 (x / 256 mod 256) (x mod 256) = x.
Proof. intros Hx. rewrite be16_eq by apply byte_mod. dlia. Qed.

Lemma be32_bytes32 x : 0 <= x < 4294967296 ->
  be32 (x / 16777216 mod 256) (x / 65536 mod 256) (x / 256 mod 256) (x mod 256) = x.
Proof. intros Hx. rewrite be32_eq by apply byte_mod. dlia. Qed.

Definition parsed (b0 b2 b3 b4 b5 b6 b7 b8 b9 b10 b11 : Z) (h : Header) : Header :=
  mkHeader (Z.land (Z.shiftr b0 5) 7) (flag b0 4) (flag b0 3) (flag b0 2) (be16 b2 b3) (be16 b4 b5) (be16 b6 b7)
    (be32 b8 b9 b10 b11) (ExtensionsSize h) (Extensions h).

Definition readArea (buf : list Z) (h : Header) : res data_error (Header * Z) :=
  let! x := uint16At buf 12 in
  let! (remainingSize, hdrSize, exts) := readExtensions (S (length buf)) buf (extensionsArea x) 14 14 (Extensions h) in
  Ok (h <| Extensions := exts |> <| ExtensionsSize := u16 (extensionsArea x - u16 remainingSize) |>, hdrSize).

Lemma Header_Unmarshal_eq b0 b1 b2 b3 b4 b5 b6 b7 b8 b9 b10 b11 l h :
  Header_Unmarshal (b0 :: b1 :: b2 :: b3 :: b4 :: b5 :: b6 :: b7 :: b8 :: b9 :: b10 :: b11 :: l) h =
  let h := parsed b0 b2 b3 b4 b5 b6 b7 b8 b9 b10 b11 h in
  if HasExtensions h then
    readArea (b0 :: b1 :: b2 :: b3 :: b4 :: b5 :: b6 :: b7 :: b8 :: b9 :: b10 :: b11 :: l) h
  else Ok (h, 12).
Proof.
  unfold Header_Unmarshal, headerLength. rewrite !zlen_cons. pose proof (zlen_nonneg l).
  rewrite (proj2 (Z.ltb_ge _ _)) by lia. reflexivity.
Qed.

Lemma bytes_exts exts : Forall ext_ok exts -> bytes (exts_bytes exts).
Proof.
  induction 1 as [|e l [Hid Hd Hs] _ IH]; [constructor|]. rewrite exts_bytes_cons. unfold ext_bytes.
  pose proof (zlen_nonneg (ext_data e)). repeat constructor; [lia..|]. by apply Forall_app.
Qed.

Lemma bytes16_bytes x : bytes (bytes16 x).
Proof. rewrite bytes16_eq. repeat constructor; apply byte_mod. Qed.

Lemma bytes32_bytes x : bytes (bytes32 x).
Proof. rewrite bytes32_eq. repeat constructor; apply byte_mod. Qed.

Lemma repeat_bytes n : bytes (repeat 0 n).
Proof. induction n; constructor; [done|done]. Qed.

Lemma header_bytes h r tail : header_ok h -> byte r -> bytes tail -> bytes (fixed_bytes h r ++ area_bytes h ++ tail).
Proof.
  intros Hok Hr Ht. destruct (firstByte_bits h (ok_version h Hok)) as [Hf _]. apply Forall_app. split.
  - unfold fixed_bytes. constructor; [done|]. constructor; [done|].
    repeat (apply Forall_app; split); try apply bytes16_bytes. apply bytes32_bytes.
  - apply Forall_app. split; [|done]. unfold area_bytes. destruct (HasExtensions h); [|constructor].
    apply Forall_app. split; [apply bytes16_bytes|]. apply Forall_app. split; [apply bytes_exts, Hok|apply repeat_bytes].
Qed.

Lemma length_exts exts : Z.of_nat (length exts) <= zlen (exts_bytes exts).
Proof.
  induction exts as [|e l IH]; [done|]. rewrite exts_bytes_cons, zlen_app, zlen_ext_bytes.
  unfold ext_size, extensionIDLength, extensionSizeLength. pose proof (zlen_nonneg (ext_data e)). cbn [length]. lia.
Qed.

(** What is written is read. *)
Lemma Header_Unmarshal_written h r tail : header_ok h -> byte r -> bytes tail ->
  Header_Unmarshal (fixed_bytes h r ++ area_bytes h ++ tail) zeroHeader = Ok (h, Header_MarshalSize h).
Proof.
  intros Hok Hr Ht. pose proof (header_bytes h r tail Hok Hr Ht) as Hb. rewrite Header_MarshalSize_eq by done.
  set (buf := fixed_bytes h r ++ area_bytes h ++ tail) in *.
  assert (Header_Unmarshal buf zeroHeader =
    let h0 := h <| ExtensionsSize := 0 |> <| Extensions := [] |> in
    if HasExtensions h then readArea buf h0 else Ok (h0, 12)) as E.
  { unfold buf, fixed_bytes. rewrite !bytes16_eq, bytes32_eq. cbn [app]. rewrite Header_Unmarshal_eq. cbv zeta. unfold parsed.
    destruct (firstByte_bits h (ok_version h Hok)) as (_ & -> & -> & -> & ->).
    rewrite !be16_bytes16, be32_bytes32 by apply Hok. done. }
  rewrite E. clear E. cbv zeta. destruct Hok as [_ _ _ _ _ Hexts Hs Hfits Hnone].
  pose proof (zlen_nonneg (exts_bytes (Extensions h))) as Hnn. rewrite <- Hs in Hnn.
  destruct (HasExtensions h) eqn:Hx.
  2: { rewrite Z.add_0_r. destruct h; cbn in *. rewrite (Hnone eq_refl) in *. cbn in Hs. rewrite Hs. done. }
  destruct (area_sizes (ExtensionsSize h) ltac:(lia)) as (_ & Hp & Ea). set (s := ExtensionsSize h) in *.
  set (x := u16 (paddedSize s / 4 - 1)) in *.
  assert (buf = fixed_bytes h r ++ (bytes16 x ++ exts_bytes (Extensions h) ++ repeat 0 (Z.to_nat (area s - 2 - s))) ++ tail) as Eb
    by (unfold buf, area_bytes; by rewrite Hx). clearbody buf. subst buf.
  set (buf := fixed_bytes h r ++ _) in *.
  assert (0 <= x < 65536) as Hxr by apply u16_range.
  assert (uint16At buf 12 = Ok x) as Eu.
  { unfold buf. rewrite bytes16_eq. transitivity (Ok (be16 (x / 256 mod 256) (x mod 256)) : res data_error Z); [reflexivity|]. rewrite (be16_bytes16 x Hxr). reflexivity. }
  unfold readArea. rewrite Eu. cbn [res_bind]. rewrite Ea.
  assert (zdrop 14 buf = exts_bytes (Extensions h) ++ repeat 0 (Z.to_nat (area s - 2 - s)) ++ tail) as Ed
    by (unfold buf; rewrite <- !app_assoc; done).
  assert (14 <= zlen buf) as Hlen by (unfold buf; rewrite !zlen_app; change (zlen (fixed_bytes h r)) with 12;
    change (zlen (bytes16 x)) with 2; pose proof (zlen_nonneg (exts_bytes (Extensions h)));
    pose proof (zlen_nonneg (repeat 0 (Z.to_nat (area s - 2 - s)))); pose proof (zlen_nonneg tail); lia).
  rewrite readExtensions_parse, Ed by (done || lia). pose proof (length_exts (Extensions h)) as Hle.
  pose proof (zlen_zdrop 14 buf ltac:(lia)) as Hz. rewrite Ed, zlen_app in Hz.
  pose proof (zlen_nonneg (repeat 0 (Z.to_nat (area s - 2 - s)) ++ tail)).
  destruct (parse_written (Extensions h) (S (length buf)) (repeat 0 (Z.to_nat (area s - 2 - s)) ++ tail)
    (area s - 2) 14 [] ltac:(unfold zlen in *; lia) Hexts ltac:(lia)) as [fuel' E].
  match goal with |- context [parseExts _ _ _ _ ?e] => change e with (@nil Extension) end. rewrite E, <- Hs. cbn [parseExts app].
  assert (forall rem, 0 <= rem -> rem = area s - 2 - s -> u16 (area s - 2 - u16 rem) = s) as Eback.
  { intros rem H0 ->. rewrite (u16_small (area s - 2 - s)), u16_small by lia. lia. }
  destruct (Z.eqb_spec (area s - 2 - s) 0) as [E0|Hne].
  - cbn [res_bind]. rewrite E0, (Eback 0) by lia. f_equal. f_equal; [|lia]. by destruct h.
  - rewrite (proj2 (Z.ltb_ge _ _)) by lia. destruct (Z.to_nat (area s - 2 - s)) as [|n] eqn:En; [lia|]. cbn [repeat app].
    change (0 =? 0) with true. cbn [res_bind]. rewrite Eback by lia. f_equal. f_equal; [|lia]. by destruct h.
Qed.

(** ** Packets *)

Lemma zlen_marshalled h : header_ok h -> zlen (fixed_bytes h 0 ++ area_bytes h) = Header_MarshalSize h.
Proof.
  intros Hok. rewrite zlen_app, Header_MarshalSize_eq by done. change (zlen (fixed_bytes h 0)) with 12. f_equal.
  unfold area_bytes. destruct (HasExtensions h); [|done]. pose proof (zlen_nonneg (exts_bytes (Extensions h))).
  pose proof (ok_exts_size h Hok). pose proof (ok_fits h Hok).
  destruct (area_sizes (ExtensionsSize h) ltac:(lia)) as (_ & Hp & _).
  rewrite !zlen_app, zlen_repeat. change (zlen (bytes16 _)) with 2. lia.
Qed.

Lemma Packet_Marshal_eq p : header_ok (header p) ->
  Packet_Marshal p = Ok (fixed_bytes (header p) 0 ++ area_bytes (header p) ++ Payload p).
Proof.
  intros Hok. unfold Packet_Marshal, Packet_MarshalTo. set (h := header p) in *.
  assert (12 <= Header_MarshalSize h) as Hs.
  { rewrite Header_MarshalSize_eq by done. destruct (HasExtensions h); [|lia]. pose proof (ok_exts_size h Hok) as E.
    pose proof (zlen_nonneg (exts_bytes (Extensions h))). unfold area. dlia. }
  pose proof (zlen_nonneg (Payload p)). set (n := Z.to_nat (Header_MarshalSize h + zlen (Payload p))).
  rewrite zlen_repeat. unfold n. rewrite Z2Nat.id, Z.ltb_irrefl by lia. fold n.
  destruct (Header_MarshalTo_eq h (repeat 0 n) Hok) as (r & Hr & E); [rewrite zlen_repeat; lia|].
  assert (r = 0) as ->.
  { apply zlookup_Some in Hr as [_ Hr]. apply list_elem_of_lookup_2 in Hr. apply list_elem_of_In, repeat_spec in Hr. done. }
  rewrite E. cbn [res_bind].
  pose proof (zlen_marshalled h Hok) as El.
  rewrite app_assoc. rewrite copy_app; [|done|].
  - rewrite zdrop_zdrop, zdrop_ge by (rewrite ?zlen_repeat; lia). by rewrite app_nil_r, <- app_assoc.
  - rewrite zlen_zdrop by (rewrite zlen_repeat; lia). rewrite zlen_repeat. lia.
Qed.

(** What is marshalled is unmarshalled. *)
Lemma marshal_unmarshal p : header_ok (header p) -> bytes (Payload p) ->
  exists out, Packet_Marshal p = Ok out /\ Packet_Unmarshal out zeroPacket = Ok p.
Proof.
  intros Hok Hp. eexists. split; [by apply Packet_Marshal_eq|]. unfold Packet_Unmarshal. cbn [header zeroPacket].
  rewrite Header_Unmarshal_written by done. cbn [res_bind]. pose proof (zlen_marshalled _ Hok) as El.
  rewrite app_assoc. rewrite between_end.
  2: { rewrite zlen_app. pose proof (zlen_nonneg (Payload p)). pose proof (zlen_nonneg (fixed_bytes (header p) 0 ++ area_bytes (header p))). lia. }
  cbn [res_bind]. rewrite <- El. unfold zdrop, zlen. rewrite Nat2Z.id, drop_app_length. by destruct p.
Qed.

Lemma extensionsArea_range x : 0 <= extensionsArea x < 65536.
Proof. apply u16_range. Qed.

(** What [readArea] does on arbitrary bytes. *)
Lemma readArea_inv buf h x : bytes buf -> 14 <= zlen buf -> uint16At buf 12 = Ok x ->
  match readArea buf h with
  | Ok (h', hs) => exists new rest, h' = h <| Extensions := Extensions h ++ new |> <| ExtensionsSize := zlen (exts_bytes new) |> /\
      Forall ext_ok new /\ zdrop 14 buf = exts_bytes new ++ rest /\ zlen (exts_bytes new) <= extensionsArea x /\
      ((zlen (exts_bytes new) = extensionsArea x /\ hs = 14 + extensionsArea x) \/
       (zlen (exts_bytes new) < extensionsArea x /\ (exists tail, rest = 0 :: tail) /\ hs = 14 + extensionsArea x))
  | Err e => e = errExtensionSizeInsufficient
  end.
Proof.
  intros Hb Hl Hx. unfold readArea. rewrite Hx. cbn [res_bind]. rewrite readExtensions_parse by (done || lia).
  pose proof (extensionsArea_range x). set (a := extensionsArea x) in *.
  pose proof (parse_inv (S (length buf)) (zdrop 14 buf) a 14 (Extensions h)) as P.
  destruct (parseExts _ _ _ _ _) as [[[rem hs] exts]|e]; cbn [res_bind].
  2: { apply P; [by apply Forall_drop|unfold zdrop; rewrite length_drop; lia|lia]. }
  destruct P as (new & rest & -> & Hok & El & -> & Hr & Hend);
    [by apply Forall_drop|unfold zdrop; rewrite length_drop; lia|lia|].
  exists new, rest. pose proof (zlen_nonneg (exts_bytes new)).
  rewrite (u16_small (a - zlen (exts_bytes new))), u16_small by lia.
  replace (a - (a - zlen (exts_bytes new))) with (zlen (exts_bytes new)) by lia.
  split_and!; [done|done|done|lia|]. destruct Hend as [[??]|(? & ? & ?)]; [left|right]; split_and!; try done; lia.
Qed.

Lemma be32_range b0 b1 b2 b3 : byte b0 -> byte b1 -> byte b2 -> byte b3 -> 0 <= be32 b0 b1 b2 b3 < 4294967296.
Proof. intros. rewrite be32_eq by done. unfold byte in *. lia. Qed.

Lemma parsed_header_ok b0 b2 b3 b4 b5 b6 b7 b8 b9 b10 b11 : Forall byte [b0; b2; b3; b4; b5; b6; b7; b8; b9; b10; b11] ->
  let h := parsed b0 b2 b3 b4 b5 b6 b7 b8 b9 b10 b11 zeroHeader in
  forall exts, Forall ext_ok exts -> zlen (exts_bytes exts) <= 65534 -> (HasExtensions h = false -> exts = []) ->
  header_ok (h <| Extensions := exts |> <| ExtensionsSize := zlen (exts_bytes exts) |>).
Proof.
  intros Hb h exts He Hf Hn. repeat (apply Forall_cons in Hb as [? Hb]). split; cbn; try done;
    try (by apply be16_range); try (by apply be32_range).
  change 7 with (2 ^ 3 - 1). rewrite land_mask by lia. pose proof (Z.mod_pos_bound (Z.shiftr b0 5) (2 ^ 3) eq_refl). lia.
Qed.

Lemma extensionsArea_odd x : extensionsArea x <> 65535.
Proof.
  unfold extensionsArea, extensionsSizeLength. set (a := u16 (x + 1)). unfold u16.
  pose proof (Z.div_mod (a * 4) 65536 ltac:(lia)). pose proof (Z.div_mod ((a * 4) mod 65536 - 2) 65536 ltac:(lia)). lia.
Qed.

(** What the parser gives is well formed, and can be marshalled again. *)
Lemma Packet_Unmarshal_ok buf p : bytes buf -> Packet_Unmarshal buf zeroPacket = Ok p ->
  header_ok (header p) /\ bytes (Payload p).
Proof.
  intros Hb. unfold Packet_Unmarshal. cbn [header zeroPacket]. destruct (Header_Unmarshal buf zeroHeader) as [[h hs]|e] eqn:E; [|done].
  cbn [res_bind]. unfold between. destruct (_ && _) eqn:Eb; [|done]. cbn [res_bind]. intros [= <-]. cbn [header Payload].
  split; [|by apply Forall_take, Forall_drop]. clear Eb. revert E.
  destruct (Z.ltb_spec (zlen buf) 12) as [|Hl]; [unfold Header_Unmarshal, headerLength; by rewrite (proj2 (Z.ltb_lt _ _)) by done|].
  pose proof Hb as Hb'. do 12 (destruct buf as [|? buf]; [by cbn in Hl|]).
  rewrite Header_Unmarshal_eq. cbv zeta. repeat (apply Forall_cons in Hb' as [? Hb']).
  match goal with |- context [parsed ?b0 ?b2 ?b3 ?b4 ?b5 ?b6 ?b7 ?b8 ?b9 ?b10 ?b11 zeroHeader] =>
    pose proof (parsed_header_ok b0 b2 b3 b4 b5 b6 b7 b8 b9 b10 b11 ltac:(by rewrite !Forall_cons)) as Hok;
    set (h0 := parsed b0 b2 b3 b4 b5 b6 b7 b8 b9 b10 b11 zeroHeader) in * end.
  cbv zeta in Hok. destruct (HasExtensions h0) eqn:Hx.
  2: { intros [= <- <-]. exact (Hok [] ltac:(constructor) ltac:(done) ltac:(done)). }
  match goal with |- context [readArea ?b h0] => destruct (uint16At b 12) as [x|e] eqn:Eu; [|unfold readArea; rewrite Eu; discriminate] end.
  destruct buf as [|? [|? buf]]; [discriminate..|].
  match goal with |- context [readArea ?b h0] => pose proof (readArea_inv b h0 x Hb) as R end.
  intros E. rewrite E in R. destruct R as (new & rest & -> & He & _ & Hle & _); [rewrite !zlen_cons; pose proof (zlen_nonneg buf); lia|done|].
  pose proof (extensionsArea_range x). apply (Hok new); [done| |done].
  pose proof (extensionsArea_odd x). lia.
Qed.

(** The header has extensions. *)
Definition extended (buf : list Z) : Prop := exists b0, at_ buf 0 = Ok b0 /\ flag b0 2 = true.

(** The padding after some complete extensions reaches behind the buffer. *)
Definition truncated_padding (buf : list Z) : Prop := exists x exts tail, uint16At buf 12 = Ok x /\ Forall ext_ok exts /\
  zdrop 14 buf = exts_bytes exts ++ 0 :: tail /\ zlen (exts_bytes exts) < extensionsArea x /\
  zlen buf < 14 + extensionsArea x.

Lemma readArea_padding buf h x exts tail : bytes buf -> 14 <= zlen buf -> uint16At buf 12 = Ok x -> Forall ext_ok exts ->
  zdrop 14 buf = exts_bytes exts ++ 0 :: tail -> zlen (exts_bytes exts) < extensionsArea x ->
  exists h', readArea buf h = Ok (h', 14 + extensionsArea x).
Proof.
  intros Hb H14 Hx He Hd Hl. pose proof (length_exts exts) as Hle. pose proof (zlen_zdrop 14 buf ltac:(lia)) as Hz.
  rewrite Hd, zlen_app, zlen_cons in Hz. pose proof (zlen_nonneg tail).
  unfold readArea. rewrite Hx. cbn [res_bind]. rewrite readExtensions_parse, Hd by (done || lia).
  destruct (parse_written exts (S (length buf)) (0 :: tail) (extensionsArea x) 14 (Extensions h)
    ltac:(unfold zlen in *; lia) He ltac:(lia)) as [fuel' E].
  rewrite E. cbn [parseExts]. rewrite (proj2 (Z.eqb_neq _ _)), (proj2 (Z.ltb_ge _ _)) by lia.
  change (0 =? 0) with true. cbn [res_bind]. eexists. f_equal. f_equal. lia.
Qed.

Lemma between_panics buf lo : 0 <= lo -> zlen buf < lo -> between buf lo (zlen buf) = Err (dataPanic panicked).
Proof. intros H0 Hl. unfold between. by rewrite (proj2 (Z.leb_gt lo _)), andb_false_r by done. Qed.

Lemma area_panics_iff buf h s : bytes buf -> 12 <= zlen buf ->
  (let! (_, hdrSize) := readArea buf h in between buf hdrSize (zlen buf)) = Err (dataPanic s) <->
  s = panicked /\ (zlen buf < 14 \/ truncated_padding buf).
Proof.
  intros Hb H12. destruct (Z.ltb_spec (zlen buf) 14) as [Hlt|Hge].
  { do 12 (destruct buf as [|? buf]; [by cbn in H12|]). destruct buf as [|? [|? buf]].
    1,2: split; [by intros [= <-]; split; [|left]|by intros [-> _]].
    rewrite !zlen_cons in Hlt. pose proof (zlen_nonneg buf). lia. }
  destruct (uint16At buf 12) as [x|e] eqn:Ex.
  2: { do 14 (destruct buf as [|? buf]; [by cbn in Hge|]). discriminate. }
  pose proof (readArea_inv buf h x Hb Hge Ex) as R. pose proof (extensionsArea_range x).
  split.
  - intros E. destruct (readArea buf h) as [[h' hs]|e]; [|rewrite R in E; discriminate]. cbn [res_bind] in E.
    destruct R as (new & rest & _ & He & Hd & _ & Hend).
    assert (zlen buf < 14 + extensionsArea x /\ hs = 14 + extensionsArea x) as [Hlt ->].
    { destruct (Z.leb_spec hs (zlen buf)) as [Hle|]; [|destruct Hend as [[??]|(? & ? & ?)]; lia].
      rewrite between_end in E; [discriminate|]. destruct Hend as [[??]|(? & ? & ?)]; lia. }
    rewrite between_panics in E by lia. injection E as <-. split; [done|]. right. exists x, new.
    destruct Hend as [[Hz _]|(Hlt' & (tail & ->) & _)]; [|by exists tail].
    pose proof (zlen_zdrop 14 buf ltac:(lia)) as Hl. rewrite Hd, zlen_app in Hl. pose proof (zlen_nonneg rest). lia.
  - intros (-> & [?|(x' & exts & tail & Ex' & He & Hd & Hl & Hlt)]); [lia|]. rewrite Ex in Ex'. injection Ex' as <-.
    destruct (readArea_padding buf h x exts tail Hb Hge Ex He Hd Hl) as [h' ->]. cbn [res_bind]. apply between_panics; lia.
Qed.

(** C23: parsing a data packet reads or slices out of range exactly when a
    packet that announces extensions is 12 or 13 bytes long, or has a padding
    that reaches behind the end of the packet after complete extensions. *)
Theorem Unmarshal_panics_iff buf p s : bytes buf ->
  Packet_Unmarshal buf p = Err (dataPanic s) <->
  s = panicked /\ 12 <= zlen buf /\ extended buf /\ (zlen buf < 14 \/ truncated_padding buf).
Proof.
  intros Hb. unfold Packet_Unmarshal. destruct (Z.ltb_spec (zlen buf) 12) as [|H12].
  { unfold Header_Unmarshal, headerLength. rewrite (proj2 (Z.ltb_lt _ _)) by done. split; [done|lia]. }
  pose proof H12 as H. do 12 (destruct buf as [|? buf]; [by cbn in H|]). clear H. rewrite Header_Unmarshal_eq. cbv zeta.
  set (h0 := parsed _ _ _ _ _ _ _ _ _ _ _ _). set (b := z :: _) in *.
  assert (extended b <-> HasExtensions h0 = true) as Hx.
  { split; [intros (b0 & [= <-] & Hf); exact Hf|intros Hf; by exists z]. }
  destruct (HasExtensions h0).
  - pose proof (area_panics_iff b h0 s Hb H12) as A. destruct (readArea b h0) as [[h' hs]|e]; cbn [res_bind] in *.
    + destruct (between b hs (zlen b)) as [pl|e]; cbn [res_bind]; [split; [done|]; intros (-> & _ & _ & Hc)|].
      * destruct A as [_ A]. specialize (A (conj eq_refl Hc)). discriminate.
      * split; [intros [= ->]; destruct A as [A _]; specialize (A eq_refl); tauto|].
        intros (-> & _ & _ & Hc). destruct A as [_ A]. specialize (A (conj eq_refl Hc)). congruence.
    + split; [intros [= ->]; destruct A as [A _]; specialize (A eq_refl); tauto|].
      intros (-> & _ & _ & Hc). destruct A as [_ A]. specialize (A (conj eq_refl Hc)). congruence.
  - cbn [res_bind]. rewrite between_end by lia. cbn [res_bind]. split; [done|]. intros (_ & _ & Hf & _). by apply Hx in Hf.
Qed.

(** A packet of 17 bytes whose extensions are announced to take 22: one, and
    then padding. *)
Definition ex_truncated : list Z := [4; 0; 0; 1; 0; 1; 0; 1; 0; 0; 0; 1; 0; 5; 1; 0; 0].

Lemma Unmarshal_panics_iff_witness : bytes ex_truncated /\
  (Packet_Unmarshal ex_truncated zeroPacket = Err (dataPanic panicked) <->
   panicked = panicked /\ 12 <= zlen ex_truncated /\ extended ex_truncated /\
   (zlen ex_truncated < 14 \/ truncated_padding ex_truncated)) /\
  Packet_Unmarshal ex_truncated zeroPacket = Err (dataPanic panicked).
Proof.
  split; [|split; [|vm_compute; reflexivity]].
  - repeat constructor; unfold byte; lia.
  - apply (Unmarshal_panics_iff ex_truncated zeroPacket panicked). repeat constructor; unfold byte; lia.
Defined.
