(* ===== verification/DataTracks.v ===== *)
(** * Data tracks

    Models the data tracks of a participant ([src/SERVER/pkg/rtc]:
    [datatrack.go], [datadowntrack.go], [updatatrackmanager.go],
    [participant_data_track.go]) over the packets of [DataPacket], and the
    spreader of packets to down tracks ([src/SERVER/pkg/sfu/utils/downtrackspreader.go])
    with the registration of down tracks at a redundancy transformer.

    Data tracks are objects: they are in a list, a reference is an index, and the
    map of published tracks holds references.  What is sent is the list of the
    subscribers with the bytes that their transports are given.  The order of a
    Go map is a parameter, and so is the order in which the parallel loop of
    [Broadcast] calls; both are given by [map_values]. *)

From stdpp Require Import strings.
From S2P Require Import Prelude.
From S2P Require Import KeyFrames.
From S2P Require Import DataPacket.

Class GoMaps := { map_values {K A : Type} `{Countable K} : gmap K A -> list A }.

(** A range over a map visits every entry once. *)
Class GoMapsLaws `{GoMaps} := {
  map_values_perm {K A : Type} `{Countable K} (m : gmap K A) : map_values m ≡ₚ (map_to_list m).*2;
}.

#[export] Instance some_order : GoMaps := { map_values := fun _ _ _ _ m => (map_to_list m).*2 }.
#[export] Instance some_order_laws : GoMapsLaws.
Proof. by constructor. Qed.

(** ** The spreader *)

Record DownTrackSpreader (K T : Type) `{Countable K} := mkSpreader {
  downTracks : gmap K T;
  downTracksShadow : list T;
}.
Arguments mkSpreader {K T _ _}.
Arguments downTracks {K T _ _}.
Arguments downTracksShadow {K T _ _}.

Section Spreader.
Context `{GoMaps} {K T : Type} `{Countable K}.

Definition NewDownTrackSpreader : DownTrackSpreader K T := mkSpreader ∅ [].

Definition shadowDownTracks (m : gmap K T) : DownTrackSpreader K T := mkSpreader m (map_values m).

Definition GetDownTracks (d : DownTrackSpreader K T) : list T := downTracksShadow d.

Definition ResetAndGetDownTracks (d : DownTrackSpreader K T) : DownTrackSpreader K T * list T :=
  (mkSpreader ∅ [], downTracksShadow d).

(** The key is what [SubscriberID] of the sender returns. *)
Definition Store (key : K) (sender : T) (d : DownTrackSpreader K T) : DownTrackSpreader K T :=
  shadowDownTracks (<[key := sender]> (downTracks d)).

Definition Free (key : K) (d : DownTrackSpreader K T) : DownTrackSpreader K T :=
  shadowDownTracks (delete key (downTracks d)).

Definition HasDownTrack (key : K) (d : DownTrackSpreader K T) : bool := bool_decide (is_Some (downTracks d !! key)).

Definition Broadcast {B : Type} (writer : T -> B) (d : DownTrackSpreader K T) : list B := map writer (GetDownTracks d).

Definition DownTrackCount (d : DownTrackSpreader K T) : Z := zlen (downTracksShadow d).
End Spreader.

(** ** Registration at a redundancy transformer (both receivers have the same) *)

Inductive registration_error := ErrReceiverClosed.

Record REDTransformer (T : Type) := mkTransformer {
  rt_closed : bool;
  rt_spreader : DownTrackSpreader string T;
}.
Arguments mkTransformer {T}.
Arguments rt_closed {T}.
Arguments rt_spreader {T}.

Section REDTransformer.
Context `{GoMaps} {T : Type}.

Definition NewREDTransformer : REDTransformer T := mkTransformer false NewDownTrackSpreader.

Definition AddDownTrack (id : string) (track : T) (r : REDTransformer T) : REDTransformer T * option registration_error :=
  if rt_closed r then (r, Some ErrReceiverClosed)
  else (mkTransformer (rt_closed r) (Store id track (rt_spreader r)), None).

Definition DeleteDownTrack (id : string) (r : REDTransformer T) : REDTransformer T :=
  if rt_closed r then r else mkTransformer (rt_closed r) (Free id (rt_spreader r)).

Definition CanClose (r : REDTransformer T) : bool := rt_closed r || (DownTrackCount (rt_spreader r) =? 0).

(** The tracks that are closed. *)
Definition CloseTransformer (r : REDTransformer T) : REDTransformer T * list T :=
  let (d, tracks) := ResetAndGetDownTracks (rt_spreader r) in
  (mkTransformer true d, tracks).
End REDTransformer.

(** ** Data down tracks *)

(** [SubscriberID] is the id and the time of creation, printed with a colon in
    between: the pair. *)
Record DataDownTrack := mkDataDownTrack { dd_subscriber : string; dd_createdAt : Z; dd_handle : Z }.

Definition dd_key (dt : DataDownTrack) : string * Z := (dd_subscriber dt, dd_createdAt dt).

(** What the transport of the subscriber is given. *)
Definition WritePacket (p : Packet) (dt : DataDownTrack) : option (string * list Z) :=
  match Packet_Marshal (p <| header := (header p) <| Handle := dd_handle dt |> |>) with
  | Ok buf => Some (dd_subscriber dt, buf)
  | Err _ => None
  end.

(** ** Data tracks *)

Record DataTrackInfo := mkInfo { PubHandle : Z; Sid : string; Name : string; Encryption : Z }.

Record DataTrack := mkDataTrack {
  dti : DataTrackInfo;
  subscribedTracks : gmap string DataDownTrack;
  spreader : DownTrackSpreader (string * Z) DataDownTrack;
  closed : bool;
}.
#[export] Instance eta_DataTrack : Eta DataTrack := fun d => mkDataTrack (dti d) (subscribedTracks d) (spreader d) (closed d).

Inductive track_error := errAlreadySubscribed | errReceiverClosed.

Section DataTracks.
Context `{GoMaps}.

Definition NewDataTrack (dti : DataTrackInfo) : DataTrack := mkDataTrack dti ∅ NewDownTrackSpreader false.

Definition CloseDataTrack (d : DataTrack) : DataTrack := d <| closed := true |>.

Definition AddDataDownTrack (dts : DataDownTrack) (d : DataTrack) : res track_error DataTrack :=
  if closed d then Err errReceiverClosed
  else Ok (d <| spreader := Store (dd_key dts) dts (spreader d) |>).

Definition DeleteDataDownTrack (key : string * Z) (d : DataTrack) : DataTrack :=
  d <| spreader := Free key (spreader d) |>.

(** [GetNextSubscribedDataTrackHandle]: the counter of the subscriber, which is
    also the result. *)
Definition GetNextSubscribedDataTrackHandle (next : Z) : Z :=
  let next := u16 (next + 1) in
  if next =? 0 then u16 (next + 1) else next.

(** The track, the counter of the subscriber and the down track. *)
Definition AddSubscriber (sub : string) (now next : Z) (d : DataTrack) : DataTrack * Z * res track_error DataDownTrack :=
  match subscribedTracks d !! sub with
  | Some _ => (d, next, Err errAlreadySubscribed)
  | None =>
    let next := GetNextSubscribedDataTrackHandle next in
    let dt := mkDataDownTrack sub now next in
    match AddDataDownTrack dt d with
    | Err e => (d, next, Err e)
    | Ok d => (d <| subscribedTracks := <[sub := dt]> (subscribedTracks d) |>, next, Ok dt)
    end
  end.

Definition RemoveSubscriber (sub : string) (d : DataTrack) : DataTrack :=
  match subscribedTracks d !! sub with
  | Some dt => DeleteDataDownTrack (dd_key dt) (d <| subscribedTracks := delete sub (subscribedTracks d) |>)
  | None => d
  end.

Definition IsSubscriber (sub : string) (d : DataTrack) : bool := bool_decide (is_Some (subscribedTracks d !! sub)).

Definition HandlePacket (p : Packet) (d : DataTrack) : list (string * list Z) :=
  omap id (Broadcast (WritePacket p) (spreader d)).

(** ** The participant that publishes *)

Record Participant := mkParticipant {
  CanPublishData : bool;
  EnableDataTracks : bool;
  dataTracks : gmap Z nat;
  objects : list DataTrack;
}.
#[local] Instance eta_Participant : Eta Participant := fun p =>
  mkParticipant (CanPublishData p) (EnableDataTracks p) (dataTracks p) (objects p).

Record PublishDataTrackRequest := mkRequest { req_PubHandle : Z; req_Name : string; req_Encryption : Z }.

Inductive response :=
| NOT_ALLOWED
| INVALID_HANDLE
| INVALID_NAME
| DUPLICATE_HANDLE
| DUPLICATE_NAME
| NOT_FOUND
| Published (info : DataTrackInfo)
| Unpublished (info : DataTrackInfo).

Definition AddPublishedDataTrack (d : DataTrack) (p : Participant) : Participant :=
  p <| dataTracks := <[u16 (PubHandle (dti d)) := length (objects p)]> (dataTracks p) |>
    <| objects := objects p ++ [d] |>.

(** [RemovePublishedDataTrack] compares objects. *)
Definition RemovePublishedDataTrack (ref : nat) (d : DataTrack) (p : Participant) : Participant :=
  let pubHandle := u16 (PubHandle (dti d)) in
  if bool_decide (dataTracks p !! pubHandle = Some ref) then
    p <| dataTracks := delete pubHandle (dataTracks p) |>
      <| objects := <[ref := CloseDataTrack d]> (objects p) |>
  else p.

(** The loop over the published tracks: the first with the handle or the name. *)
Fixpoint findDuplicate (req : PublishDataTrackRequest) (tracks : list DataTrack) : option response :=
  match tracks with
  | [] => None
  | dt :: tracks =>
    if u16 (PubHandle (dti dt)) =? u16 (req_PubHandle req) then Some DUPLICATE_HANDLE
    else if bool_decide (Name (dti dt) = req_Name req) then Some DUPLICATE_NAME
    else findDuplicate req tracks
  end.

Definition GetPublishedDataTracks (p : Participant) : list DataTrack :=
  omap (fun ref => objects p !! ref) (map_values (dataTracks p)).

Definition string_len (s : string) : Z := Z.of_nat (String.length s).

(** [sid] is the generated id of the track. *)
Definition HandlePublishDataTrackRequest (sid : string) (req : PublishDataTrackRequest) (p : Participant)
  : Participant * response :=
  if negb (CanPublishData p) || negb (EnableDataTracks p) then (p, NOT_ALLOWED)
  else if (req_PubHandle req =? 0) || (req_PubHandle req >? 65535) then (p, INVALID_HANDLE)
  else if (string_len (req_Name req) =? 0) || (string_len (req_Name req) >? 256) then (p, INVALID_NAME)
  else
    match findDuplicate req (GetPublishedDataTracks p) with
    | Some r => (p, r)
    | None =>
      let info := mkInfo (req_PubHandle req) sid (req_Name req) (req_Encryption req) in
      (AddPublishedDataTrack (NewDataTrack info) p, Published info)
    end.

Definition HandleUnpublishDataTrackRequest (handle : Z) (p : Participant) : Participant * response :=
  match dataTracks p !! u16 handle with
  | None => (p, NOT_FOUND)
  | Some ref =>
    match objects p !! ref with
    | None => (p, NOT_FOUND)
    | Some d => (RemovePublishedDataTrack ref d p, Unpublished (dti d))
    end
  end.

Definition HandleReceivedDataTrackMessage (packet : Packet) (p : Participant) : list (string * list Z) :=
  match dataTracks p !! Handle (header packet) with
  | None => []
  | Some ref =>
    match objects p !! ref with
    | None => []
    | Some d => HandlePacket packet d
    end
  end.

(** A message with an error is logged and ignored. *)
Definition onReceivedDataTrackMessage (data : list Z) (p : Participant) : res stop (list (string * list Z)) :=
  match Packet_Unmarshal data zeroPacket with
  | Ok packet => Ok (HandleReceivedDataTrackMessage packet p)
  | Err (dataPanic s) => Err s
  | Err _ => Ok []
  end.

(** Requests of the publisher, subscriptions to any track ever published. *)
Inductive step : Participant -> Participant -> Prop :=
| step_publish sid req p : 0 <= req_PubHandle req -> step p (fst (HandlePublishDataTrackRequest sid req p))
| step_unpublish handle p : step p (fst (HandleUnpublishDataTrackRequest handle p))
| step_subscribe ref d sub now next p : objects p !! ref = Some d ->
    step p (p <| objects := <[ref := fst (fst (AddSubscriber sub now next d))]> (objects p) |>)
| step_unsubscribe ref d sub p : objects p !! ref = Some d ->
    step p (p <| objects := <[ref := RemoveSubscriber sub d]> (objects p) |>).

Inductive reachable (canPublish enabled : bool) : Participant -> Prop :=
| reach_start : reachable canPublish enabled (mkParticipant canPublish enabled ∅ [])
| reach_step p p' : reachable canPublish enabled p -> step p p' -> reachable canPublish enabled p'.
End DataTracks.

(** * Proofs

    ** The spreader *)

Section SpreaderProofs.
Context `{GoMapsLaws} {K T : Type} `{Countable K}.

(** The shadow holds the senders of the map. *)
Definition shadowed (d : DownTrackSpreader K T) : Prop := downTracksShadow d ≡ₚ (map_to_list (downTracks d)).*2.

Lemma New_shadowed : shadowed NewDownTrackSpreader.
Proof. unfold shadowed. cbn. by rewrite map_to_list_empty. Qed.

Lemma Store_shadowed key x d : shadowed (Store key x d).
Proof. apply map_values_perm. Qed.

Lemma Free_shadowed key d : shadowed (Free key d).
Proof. apply map_values_perm. Qed.

(** Where the value determines the key, no value is there twice. *)
Lemma values_NoDup {A} (m : gmap K A) (key : A -> K) : (forall k x, m !! k = Some x -> k = key x) ->
  NoDup (map_to_list m).*2.
Proof.
  intros Hk. apply NoDup_fmap_2_strong; [|apply NoDup_map_to_list].
  intros [k1 x1] [k2 x2] L1%elem_of_map_to_list L2%elem_of_map_to_list E. cbn in E. subst.
  by rewrite (Hk _ _ L1), (Hk _ _ L2).
Qed.

Lemma elem_of_values {A} (m : gmap K A) x : x ∈ (map_to_list m).*2 <-> exists k, m !! k = Some x.
Proof.
  rewrite list_elem_of_fmap. split.
  - intros ([k y] & -> & Hk%elem_of_map_to_list). by exists k.
  - intros [k Hk]. exists (k, x). split; [done|]. by apply elem_of_map_to_list.
Qed.
End SpreaderProofs.

(** ** Invariants *)

Section DataTrackProofs.
Context `{GoMapsLaws}.

Record track_ok (d : DataTrack) : Prop := {
  tok_shadow : shadowed (spreader d);
  tok_spread key dt : downTracks (spreader d) !! key = Some dt <->
    key = dd_key dt /\ subscribedTracks d !! dd_subscriber dt = Some dt;
  tok_subs sub dt : subscribedTracks d !! sub = Some dt -> dd_subscriber dt = sub /\ 0 < dd_handle dt < 65536;
}.

Definition subscribers (d : DataTrack) : list DataDownTrack := (map_to_list (subscribedTracks d)).*2.

(** The down tracks of the spreader are the subscribers. *)
Lemma track_spread d : track_ok d -> downTracksShadow (spreader d) ≡ₚ subscribers d.
Proof.
  intros [Hs Hd Hu]. etransitivity; [exact Hs|]. apply NoDup_Permutation.
  - apply (values_NoDup _ dd_key). intros k x Hk. by apply Hd in Hk as [-> _].
  - apply (values_NoDup _ dd_subscriber). intros k x Hk. by apply Hu in Hk as [-> _].
  - intros dt. unfold subscribers. rewrite !elem_of_values. split.
    + intros [k Hk]. apply Hd in Hk as [_ Hk]. by eexists.
    + intros [sub Hsub]. exists (dd_key dt). apply Hd. split; [done|]. by destruct (Hu _ _ Hsub) as [-> _].
Qed.

Lemma NewDataTrack_ok info : track_ok (NewDataTrack info).
Proof.
  split; [apply New_shadowed|intros key dt; cbn; rewrite !lookup_empty; naive_solver|intros sub dt; cbn; by rewrite lookup_empty].
Qed.

Lemma CloseDataTrack_ok d : track_ok d -> track_ok (CloseDataTrack d).
Proof. by intros [? ? ?]. Qed.

Lemma handle_range next : 0 < GetNextSubscribedDataTrackHandle next < 65536.
Proof.
  unfold GetNextSubscribedDataTrackHandle. pose proof (u16_range (next + 1)). set (n := u16 (next + 1)) in *.
  destruct (Z.eqb_spec n 0) as [->|]; [done|lia].
Qed.

Lemma AddSubscriber_ok sub now next d : track_ok d -> track_ok (fst (fst (AddSubscriber sub now next d))).
Proof.
  intros Hok. pose proof Hok as [Hs Hd Hu]. unfold AddSubscriber. destruct (subscribedTracks d !! sub) eqn:Es; [done|].
  unfold AddDataDownTrack. destruct (closed d); [done|]. cbn [fst]. set (n := GetNextSubscribedDataTrackHandle next).
  pose proof (handle_range next) as Hn. fold n in Hn. clearbody n. set (new := mkDataDownTrack sub now n).
  split; cbn.
  - apply Store_shadowed.
  - intros key dt. rewrite lookup_insert_Some, Hd, lookup_insert_Some. unfold dd_key.
    split.
    + intros [[<- <-]|(Hne & -> & Hdt)]; [split; [done|by left]|]. split; [done|]. right. split; [|done].
      intros E. cbn in E. rewrite <- E, Es in Hdt. done.
    + intros [-> [[E <-]|[Hne Hdt]]]; [by left|]. right. split; [|done]. cbn. intros [= E _]. done.
  - intros sub' dt. rewrite lookup_insert_Some. intros [[<- <-]|[_ Hdt]]; [done|]. by apply Hu.
Qed.

Lemma RemoveSubscriber_ok sub d : track_ok d -> track_ok (RemoveSubscriber sub d).
Proof.
  intros Hok. pose proof Hok as [Hs Hd Hu]. unfold RemoveSubscriber. destruct (subscribedTracks d !! sub) as [old|] eqn:Es; [|done].
  destruct (Hu _ _ Es) as [Eo _]. split; cbn.
  - apply Free_shadowed.
  - intros key dt. rewrite lookup_delete_Some, Hd, lookup_delete_Some. split.
    + intros (Hne & -> & Hdt). split; [done|]. split; [|done]. intros E. rewrite <- E, Es in Hdt. congruence.
    + intros (-> & Hne & Hdt). split; [|done]. intros [= E _]. congruence.
  - intros sub' dt. rewrite lookup_delete_Some. intros [_ Hdt]. by apply Hu.
Qed.

(** The track published under a handle. *)
Definition published (p : Participant) (handle : Z) : option DataTrack := dataTracks p !! handle ≫= fun ref => objects p !! ref.

Record participant_ok (p : Participant) : Prop := {
  pok_tracks : Forall track_ok (objects p);
  pok_handles handle ref : dataTracks p !! handle = Some ref ->
    exists d, objects p !! ref = Some d /\ PubHandle (dti d) = handle /\ 0 < handle < 65536;
  pok_names h1 h2 d1 d2 : published p h1 = Some d1 -> published p h2 = Some d2 -> Name (dti d1) = Name (dti d2) -> h1 = h2;
}.

(** Changes of an object that keep its description. *)
Lemma update_object_ok p ref d d' : participant_ok p -> objects p !! ref = Some d -> track_ok d' -> dti d' = dti d ->
  participant_ok (mkParticipant (CanPublishData p) (EnableDataTracks p) (dataTracks p) (<[ref := d']> (objects p))).
Proof.
  intros [Ht Hh Hn] Hd Hok Hi.
  assert (forall h e', published (mkParticipant (CanPublishData p) (EnableDataTracks p) (dataTracks p) (<[ref := d']> (objects p))) h = Some e' ->
    exists e, published p h = Some e /\ dti e = dti e') as Hp.
  { unfold published. cbn. intros h e' He. apply bind_Some in He as (r & Hr & Hr'). rewrite Hr. cbn.
    destruct (decide (ref = r)) as [->|Hne].
    - rewrite list_lookup_insert_eq in Hr' by (by eapply lookup_lt_Some). injection Hr' as <-. by exists d.
    - rewrite list_lookup_insert_ne in Hr' by done. by exists e'. }
  split; cbn.
  - by apply Forall_insert.
  - intros h r Hr. destruct (Hh _ _ Hr) as (e & He & Hpe & Hrange). destruct (decide (ref = r)) as [->|Hne].
    + exists d'. rewrite list_lookup_insert_eq by (by eapply lookup_lt_Some). rewrite Hd in He. injection He as <-. by rewrite Hi.
    + exists e. by rewrite list_lookup_insert_ne.
  - intros h1 h2 d1 d2 P1 P2 E. destruct (Hp _ _ P1) as (e1 & He1 & E1), (Hp _ _ P2) as (e2 & He2 & E2).
    apply (Hn h1 h2 e1 e2 He1 He2). by rewrite E1, E2.
Qed.

Lemma findDuplicate_None req tracks : findDuplicate req tracks = None ->
  Forall (fun dt => u16 (PubHandle (dti dt)) <> u16 (req_PubHandle req) /\ Name (dti dt) <> req_Name req) tracks.
Proof.
  induction tracks as [|dt tracks IH]; [constructor|]. cbn. destruct (Z.eqb_spec (u16 (PubHandle (dti dt))) (u16 (req_PubHandle req))); [done|].
  case_bool_decide; [done|]. intros E. constructor; [done|]. by apply IH.
Qed.

Lemma elem_of_published p d : d ∈ GetPublishedDataTracks p <-> exists h, published p h = Some d.
Proof.
  unfold GetPublishedDataTracks, published. rewrite list_elem_of_omap. split.
  - intros (r & Hr & Hd). rewrite (map_values_perm (dataTracks p)) in Hr. apply elem_of_values in Hr as [h Hh].
    exists h. by rewrite Hh.
  - intros [h Hh]. apply bind_Some in Hh as (r & Hr & Hd). exists r. split; [|done].
    rewrite (map_values_perm (dataTracks p)). apply elem_of_values. by exists h.
Qed.

Lemma publish_ok sid req p : 0 <= req_PubHandle req -> participant_ok p ->
  participant_ok (fst (HandlePublishDataTrackRequest sid req p)).
Proof.
  intros Hreq Hok. pose proof Hok as [Ht Hh Hn]. unfold HandlePublishDataTrackRequest. destruct (_ || _); [done|].
  destruct (_ || _) eqn:Er; [done|]. apply orb_false_iff in Er as [E0 E1]. rewrite Z.gtb_ltb in E1.
  apply Z.eqb_neq in E0. apply Z.ltb_ge in E1. destruct (_ || _); [done|].
  destruct (findDuplicate _ _) eqn:Ed; [done|]. apply findDuplicate_None in Ed. rewrite Forall_forall in Ed.
  cbn [fst]. set (new := NewDataTrack _). unfold AddPublishedDataTrack. cbn [new NewDataTrack dti PubHandle].
  rewrite u16_small by lia.
  assert (forall h, h <> req_PubHandle req -> published (mkParticipant (CanPublishData p) (EnableDataTracks p)
    (<[req_PubHandle req := length (objects p)]> (dataTracks p)) (objects p ++ [new])) h = published p h) as Hold.
  { intros h Hne. unfold published. cbn. rewrite lookup_insert_ne by done. destruct (dataTracks p !! h) as [r|] eqn:Er; [|done].
    destruct (Hh _ _ Er) as (d & Hd & _). cbn. rewrite lookup_app_l by (by eapply lookup_lt_Some). done. }
  assert (published (mkParticipant (CanPublishData p) (EnableDataTracks p)
    (<[req_PubHandle req := length (objects p)]> (dataTracks p)) (objects p ++ [new])) (req_PubHandle req) = Some new) as Hnew.
  { unfold published. cbn. rewrite lookup_insert_eq. cbn. by rewrite list_lookup_middle. }
  split; cbn.
  - apply Forall_app. split; [done|]. apply Forall_singleton, NewDataTrack_ok.
  - intros h r. rewrite lookup_insert_Some. intros [[<- <-]|[_ Hr]].
    + exists new. rewrite list_lookup_middle by done. split_and!; [done|done|lia..].
    + destruct (Hh _ _ Hr) as (d & Hd & ?). exists d. by rewrite lookup_app_l by (by eapply lookup_lt_Some).
  - assert (forall h d, published p h = Some d -> Name (dti d) <> req_Name req) as Hdup.
    { intros h d Hp. apply Ed. apply elem_of_published. by exists h. }
    intros h1 h2 d1 d2 P1 P2 E.
    destruct (decide (h1 = req_PubHandle req)) as [->|N1], (decide (h2 = req_PubHandle req)) as [->|N2]; try done.
    + setoid_rewrite Hnew in P1. setoid_rewrite (Hold _ N2) in P2. injection P1 as <-. by destruct (Hdup _ _ P2).
    + setoid_rewrite Hnew in P2. setoid_rewrite (Hold _ N1) in P1. injection P2 as <-. by destruct (Hdup _ _ P1).
    + setoid_rewrite (Hold _ N1) in P1. setoid_rewrite (Hold _ N2) in P2. by eapply Hn.
Qed.

Lemma unpublish_ok handle p : participant_ok p -> participant_ok (fst (HandleUnpublishDataTrackRequest handle p)).
Proof.
  intros Hok. unfold HandleUnpublishDataTrackRequest. destruct (dataTracks p !! u16 handle) as [ref|] eqn:Er; [|done].
  destruct (objects p !! ref) as [d|] eqn:Ed; [|done]. cbn [fst]. unfold RemovePublishedDataTrack.
  case_bool_decide; [|done]. set (h := u16 (PubHandle (dti d))) in *.
  pose proof (update_object_ok p ref d (CloseDataTrack d) Hok Ed) as [Ht Hh Hn].
  { apply CloseDataTrack_ok. destruct Hok as [Ht _ _]. rewrite Forall_forall in Ht. apply Ht. by eapply list_elem_of_lookup_2. }
  { done. }
  split; cbn in *; [done| |].
  - intros h' r [_ Hr]%lookup_delete_Some. by apply Hh.
  - intros h1 h2 d1 d2 P1 P2. apply bind_Some in P1 as (r1 & Q1 & P1'), P2 as (r2 & Q2 & P2'). cbn in Q1, Q2.
    apply lookup_delete_Some in Q1 as [_ Q1], Q2 as [_ Q2]. apply (Hn h1 h2 d1 d2); unfold published; cbn.
    + by rewrite Q1.
    + by rewrite Q2.
Qed.

Lemma step_ok p p' : participant_ok p -> step p p' -> participant_ok p'.
Proof.
  intros Hok Hs. assert (forall ref d, objects p !! ref = Some d -> track_ok d) as Ht.
  { intros ref d Hd. destruct Hok as [Ht _ _]. rewrite Forall_forall in Ht. apply Ht. by eapply list_elem_of_lookup_2. }
  destruct Hs as [sid req p|handle p|ref d sub now next p Hd|ref d sub p Hd].
  - by apply publish_ok.
  - by apply unpublish_ok.
  - apply (update_object_ok p ref d); [done|done|by apply AddSubscriber_ok, (Ht ref)|].
    unfold AddSubscriber, AddDataDownTrack. by repeat case_match; simplify_eq.
  - apply (update_object_ok p ref d); [done|done|by apply RemoveSubscriber_ok, (Ht ref)|].
    unfold RemoveSubscriber. by case_match.
Qed.

Lemma reachable_ok c e p : reachable c e p -> participant_ok p.
Proof.
  induction 1 as [|p p' _ IH Hs]; [|by eapply step_ok]. split; cbn; [constructor|..].
  - intros h r. by rewrite lookup_empty.
  - intros h1 h2 d1 d2. unfold published. cbn. by rewrite lookup_empty.
Qed.
End DataTrackProofs.

(** ** What subscribers receive *)

Section Delivery.
Context `{GoMapsLaws}.

(** The packet as a down track sends it. *)
Definition with_handle (h : Z) (p : Packet) : Packet := p <| header := (header p) <| Handle := h |> |>.

Lemma with_handle_ok h p : 0 <= h < 65536 -> header_ok (header p) -> header_ok (header (with_handle h p)).
Proof. by intros Hh [? ? ? ? ? ? ? ? ?]. Qed.

Definition sent_bytes (p : Packet) (dt : DataDownTrack) : list Z :=
  match Packet_Marshal (with_handle (dd_handle dt) p) with Ok out => out | Err _ => [] end.

Lemma WritePacket_ok p dt : header_ok (header p) -> bytes (Payload p) -> 0 < dd_handle dt < 65536 ->
  WritePacket p dt = Some (dd_subscriber dt, sent_bytes p dt) /\
  Packet_Unmarshal (sent_bytes p dt) zeroPacket = Ok (with_handle (dd_handle dt) p).
Proof.
  intros Hh Hp Hd. unfold WritePacket, sent_bytes, with_handle.
  destruct (marshal_unmarshal (with_handle (dd_handle dt) p) (with_handle_ok (dd_handle dt) p ltac:(lia) Hh) Hp) as (out & E & Eu).
  unfold with_handle in E, Eu. by rewrite E.
Qed.

Lemma omap_all {A B C} (f : A -> option B) (g : A -> C) (c : C -> B) l : Forall (fun x => f x = Some (c (g x))) l ->
  omap id (map f l) = map (fun x => c (g x)) l.
Proof. induction 1 as [|x l E _ IH]; [done|]. cbn. by rewrite E, IH. Qed.

(** C22: a participant that anything was published, unpublished and subscribed
    to delivers a data packet to each subscriber of the track published under
    the handle of the packet, once, and to no one else: what a subscriber parses
    is the packet with the handle of its own subscription, every other field,
    the extensions and the payload unchanged; and a packet for another handle
    goes nowhere. *)
Theorem data_packet_delivered c e st data packet : reachable c e st -> bytes data ->
  Packet_Unmarshal data zeroPacket = Ok packet ->
  match published st (Handle (header packet)) with
  | None => onReceivedDataTrackMessage data st = Ok []
  | Some d => exists (out : DataDownTrack -> list Z) sent, onReceivedDataTrackMessage data st = Ok sent /\
      sent ≡ₚ map (fun dt => (dd_subscriber dt, out dt)) (subscribers d) /\
      Forall (fun dt => Packet_Unmarshal (out dt) zeroPacket = Ok (with_handle (dd_handle dt) packet)) (subscribers d)
  end.
Proof.
  intros Hr Hb Hu. destruct (Packet_Unmarshal_ok _ _ Hb Hu) as [Hh Hp]. destruct (reachable_ok _ _ _ Hr) as [Ht _ _].
  unfold onReceivedDataTrackMessage, HandleReceivedDataTrackMessage, published. rewrite Hu.
  destruct (dataTracks st !! Handle (header packet)) as [ref|]; [|done]. cbn. destruct (objects st !! ref) as [d|] eqn:Ed; [|done].
  assert (track_ok d) as Hd by (rewrite Forall_forall in Ht; apply Ht; by eapply list_elem_of_lookup_2).
  assert (Forall (fun dt => 0 < dd_handle dt < 65536) (subscribers d)) as Hs.
  { apply Forall_forall. intros dt Hdt. apply elem_of_values in Hdt as [sub Hsub]. by apply (tok_subs d Hd sub). }
  exists (sent_bytes packet), (map (fun dt => (dd_subscriber dt, sent_bytes packet dt)) (downTracksShadow (spreader d))).
  pose proof (track_spread d Hd) as Hperm. split_and!.
  - unfold HandlePacket, Broadcast, GetDownTracks. f_equal. apply (omap_all _ id (fun dt => (dd_subscriber dt, sent_bytes packet dt))).
    rewrite Hperm. eapply Forall_impl; [exact Hs|]. intros dt Hdt. by apply WritePacket_ok.
  - by apply fmap_Permutation.
  - eapply Forall_impl; [exact Hs|]. intros dt Hdt. by apply WritePacket_ok.
Qed.

(** C24: the published data tracks have handles between 1 and 65535 of their own,
    and different names: whatever is requested, and in whatever order. *)
Theorem published_tracks_distinct c e st : reachable c e st ->
  (forall h d, published st h = Some d -> PubHandle (dti d) = h /\ 0 < h < 65536) /\
  (forall h1 h2 d1 d2, published st h1 = Some d1 -> published st h2 = Some d2 -> Name (dti d1) = Name (dti d2) -> h1 = h2).
Proof.
  intros Hr. destruct (reachable_ok _ _ _ Hr) as [_ Hh Hn]. split; [|exact Hn].
  intros h d Hp. apply bind_Some in Hp as (ref & Hr' & Hd). destruct (Hh _ _ Hr') as (d' & Hd' & ?). by simplify_eq.
Qed.
End Delivery.

(** ** The handles of a subscriber *)

Fixpoint handles (n : nat) (next : Z) : list Z :=
  match n with
  | O => []
  | S n => let next := GetNextSubscribedDataTrackHandle next in next :: handles n next
  end.

(** Handles are counted from 1 to 65535 and over again. *)
Lemma handle_count next : 0 <= next < 65536 ->
  GetNextSubscribedDataTrackHandle next = next mod 65535 + 1.
Proof.
  intros Hn. unfold GetNextSubscribedDataTrackHandle, u16. destruct (Z.eqb_spec ((next + 1) mod 65536) 0) as [E|E].
  - assert (next = 65535) as -> by dlia. reflexivity.
  - dlia.
Qed.

Lemma handles_lookup n : forall next i, 0 <= next < 65536 -> (i < n)%nat ->
  handles n next !! i = Some ((next + Z.of_nat i) mod 65535 + 1).
Proof.
  induction n as [|n IH]; intros next i Hn Hi; [lia|]. cbn [handles]. rewrite handle_count by done. destruct i as [|i].
  - cbn. by rewrite Z.add_0_r.
  - cbn [lookup list_lookup]. rewrite IH by (dlia || lia). f_equal. f_equal. rewrite <- Z.add_assoc, Zplus_mod_idemp_l. f_equal. lia.
Qed.

(** Any 65535 handles in a row are different. *)
Lemma handles_distinct n next : 0 <= next < 65536 -> Z.of_nat n <= 65535 -> NoDup (handles n next).
Proof.
  intros Hn Hle. apply NoDup_alt. intros i j h Hi Hj.
  assert (length (handles n next) = n) as El by (clear; revert next; induction n; cbn; auto).
  pose proof (lookup_lt_Some _ _ _ Hi). pose proof (lookup_lt_Some _ _ _ Hj). rewrite El in *.
  rewrite handles_lookup in Hi, Hj by done.
  injection Hi as <-. injection Hj as E. pose proof (Z.div_mod (next + Z.of_nat i) 65535 ltac:(lia)).
  pose proof (Z.div_mod (next + Z.of_nat j) 65535 ltac:(lia)). lia.
Qed.

(** ** Concrete runs *)

#[local] Open Scope string_scope.

Definition ex_request (h : Z) (name : string) : PublishDataTrackRequest := mkRequest h name 0.

Definition ex_published : Participant :=
  fst (HandlePublishDataTrackRequest "TR_1" (ex_request 7 "pose") (mkParticipant true true ∅ [])).

Definition subscribe (ref : nat) (sub : string) (now next : Z) (p : Participant) : Participant :=
  match objects p !! ref with
  | Some d => mkParticipant (CanPublishData p) (EnableDataTracks p) (dataTracks p)
      (<[ref := fst (fst (AddSubscriber sub now next d))]> (objects p))
  | None => p
  end.

Definition ex_subscribed : Participant := subscribe 0 "alice" 1 0 (subscribe 0 "bob" 2 40 ex_published).

Lemma ex_subscribed_reachable : reachable true true ex_subscribed.
Proof.
  assert (reachable true true ex_published) as Hp.
  { eapply reach_step; [apply reach_start|]. by apply step_publish. }
  assert (reachable true true (subscribe 0 "bob" 2 40 ex_published)) as Hb.
  { eapply reach_step; [exact Hp|]. exact (step_subscribe 0 _ "bob" 2 40 ex_published eq_refl). }
  eapply reach_step; [exact Hb|]. exact (step_subscribe 0 _ "alice" 1 0 (subscribe 0 "bob" 2 40 ex_published) eq_refl).
Qed.

(** A packet with an extension and a payload of three bytes. *)
Definition ex_data : list Z := [28; 0; 0; 7; 1; 2; 0; 9; 0; 0; 1; 0; 0; 1; 5; 2; 8; 9; 0; 0; 42; 43; 44].

Definition ex_packet : Packet :=
  mkPacket (mkHeader 0 true true true 7 258 9 256 4 [mkExtension 5 [8; 9]]) [42; 43; 44].

Example ex_data_parsed : Packet_Unmarshal ex_data zeroPacket = Ok ex_packet.
Proof. vm_compute. reflexivity. Qed.

Definition ex_alice : DataDownTrack := mkDataDownTrack "alice" 1 1.
Definition ex_bob : DataDownTrack := mkDataDownTrack "bob" 2 41.

Example ex_subscribers : option_map subscribers (published ex_subscribed 7) = Some [ex_alice; ex_bob].
Proof. vm_compute. reflexivity. Qed.

Lemma data_packet_delivered_witness : bytes ex_data /\
  exists (out : DataDownTrack -> list Z) sent, onReceivedDataTrackMessage ex_data ex_subscribed = Ok sent /\
    sent ≡ₚ [("alice", out ex_alice); ("bob", out ex_bob)] /\
    Packet_Unmarshal (out ex_bob) zeroPacket = Ok (with_handle 41 ex_packet).
Proof.
  assert (bytes ex_data) as Hb by (apply (bool_decide_unpack _); vm_compute; reflexivity). split; [done|].
  pose proof (data_packet_delivered (H:=some_order) true true ex_subscribed ex_data ex_packet ex_subscribed_reachable Hb ex_data_parsed) as D.
  pose proof ex_subscribers as Hs. change (Handle (header ex_packet)) with 7 in D. revert D Hs.
  generalize (published ex_subscribed 7). intros [d|]; [|discriminate]. cbn [option_map]. intros D [= Hs].
  rewrite Hs in D. destruct D as (out & sent & Es & Ep & Ef). exists out, sent. split; [exact Es|].
  split; [exact Ep|]. apply Forall_cons in Ef as [_ [Ef _]%Forall_cons]. exact Ef.
Defined.

Lemma published_tracks_distinct_witness : reachable true true ex_subscribed /\
  (forall h d, published ex_subscribed h = Some d -> PubHandle (dti d) = h /\ 0 < h < 65536).
Proof.
  split; [exact ex_subscribed_reachable|]. exact (proj1 (published_tracks_distinct (H:=some_order) true true ex_subscribed ex_subscribed_reachable)).
Defined.

(** The handle of a request to unpublish is cut to 16 bits and not checked:
    unpublishing 65543 takes away the track 7. *)
Example unpublish_wraps : snd (HandleUnpublishDataTrackRequest 65543 ex_published) = Unpublished (mkInfo 7 "TR_1" "pose" 0).
Proof. vm_compute. reflexivity. Qed.

(** A data packet of 17 bytes from the publisher ends the process. *)
Example data_packet_panics : onReceivedDataTrackMessage ex_truncated ex_subscribed = Err panicked.
Proof. vm_compute. reflexivity. Qed.

(** A name of 256 characters of two bytes each is refused as too long. *)
Definition ex_name : string := String.concat EmptyString (repeat "é" 129).

Example name_counted_in_bytes :
  snd (HandlePublishDataTrackRequest "TR_1" (ex_request 7 ex_name) (mkParticipant true true ∅ [])) = INVALID_NAME.
Proof. vm_compute. reflexivity. Qed.

(** ** Closing a transformer *)

Lemma transformer_count {T : Type} (r : REDTransformer T) : shadowed (rt_spreader r) ->
  DownTrackCount (rt_spreader r) = Z.of_nat (size (downTracks (rt_spreader r))).
Proof.
  intros Hs. unfold DownTrackCount, zlen. f_equal. rewrite (Permutation_length Hs), length_fmap. apply length_map_to_list.
Qed.

(** A down track that is stored after its check that the transformer is open,
    with a [Close] in between, stays in a closed transformer. *)
Example add_close_race :
  let r := fst (CloseTransformer NewREDTransformer) in
  let r := mkTransformer (rt_closed r) (Store "alice" tt (rt_spreader r)) in
  rt_closed r = true /\ GetDownTracks (rt_spreader r) = [tt] /\ snd (AddDownTrack "bob" tt r) = Some ErrReceiverClosed.
Proof. vm_compute. done. Qed.
