(* ===== verification/Extensions.v ===== *)
(** * Small header extensions and the packet trailer

    Models [rtpextension/playoutdelay], [rtpextension/abscapturetime] and
    [packettrailer] of [src/SERVER/pkg/sfu]: what they write, what they read,
    and that the one is the other. *)

From S2P Require Import Prelude.
From S2P Require Import KeyFrames.

Inductive extension_error :=
| errPlayoutDelayOverflow
| errTooSmall
| errInvalidData
| extPanic.

(** ** Playout delay *)

Definition PlayoutDelayMaxValue : Z := 10 * (2 ^ 12 - 1).
Definition playoutDelayExtensionSize : Z := 3.

(** Milliseconds, as [uint16]. *)
Record PlayOutDelay := mkDelay { Min : Z; Max : Z }.

Definition PlayoutDelayFromValue (min max : Z) : PlayOutDelay :=
  let min := if min >? PlayoutDelayMaxValue then PlayoutDelayMaxValue else min in
  let max := if max >? PlayoutDelayMaxValue then PlayoutDelayMaxValue else max in
  mkDelay min max.

Definition Delay_Marshal (p : PlayOutDelay) : res extension_error (list Z) :=
  let min := Min p / 10 in
  let max := Max p / 10 in
  if (min >=? 2 ^ 12) || (max >=? 2 ^ 12) then Err errPlayoutDelayOverflow
  else Ok [u8 (Z.shiftr min 4); Z.lor (u8 (u16 (Z.shiftl min 4))) (u8 (Z.shiftr max 8)); u8 max].

Definition Delay_Unmarshal (rawData : list Z) (p : PlayOutDelay) : res extension_error PlayOutDelay :=
  if zlen rawData <? playoutDelayExtensionSize then Err errTooSmall
  else
    let! b0 := load extPanic rawData 0 in
    let! b1 := load extPanic rawData 1 in
    let! b2 := load extPanic rawData 2 in
    Ok (mkDelay (u16 (Z.shiftr (be16 b0 b1) 4 * 10)) (u16 (Z.land (be16 b1 b2) 0x0FFF * 10))).

(** ** Absolute capture time *)

(** [NtpTime] is a [uint64]; the offset is an [int64]. *)
Record AbsCaptureTime := mkCapture { absoluteCaptureTimestamp : Z; estimatedCaptureClockOffset : Z }.

Definition AbsCaptureTimeFromValue (ts offset : Z) : AbsCaptureTime := mkCapture ts offset.

Section Rewrite.
(** The conversions of the third-party package, composed with the addition of
    the offset. *)
Context (addToNtp : Z -> Z -> Z).

Definition Rewrite (offset : Z) (a : AbsCaptureTime) : res extension_error AbsCaptureTime :=
  if absoluteCaptureTimestamp a =? 0 then Err errInvalidData
  else Ok (mkCapture (addToNtp (absoluteCaptureTimestamp a) offset) 0).
End Rewrite.

Definition bytes64 (x : Z) : list Z := bytes32 (x / 4294967296) ++ bytes32 x.

Definition Capture_Marshal (a : AbsCaptureTime) : res extension_error (list Z) :=
  if absoluteCaptureTimestamp a =? 0 then Err errInvalidData
  else
    Ok (bytes64 (absoluteCaptureTimestamp a) ++
        if negb (estimatedCaptureClockOffset a =? 0) then bytes64 (u64 (estimatedCaptureClockOffset a)) else []).

(** [binary.BigEndian.Uint64(b[i:])] *)
Definition uint64At (b : list Z) (i : Z) : res extension_error Z :=
  let at_ k := load extPanic b (i + k) in
  let! b0 := at_ 0 in let! b1 := at_ 1 in let! b2 := at_ 2 in let! b3 := at_ 3 in
  let! b4 := at_ 4 in let! b5 := at_ 5 in let! b6 := at_ 6 in let! b7 := at_ 7 in
  Ok (Z.lor (Z.shiftl (be32 b0 b1 b2 b3) 32) (be32 b4 b5 b6 b7)).

(** The offset is kept where the short form has none. *)
Definition Capture_Unmarshal (marshalled : list Z) (a : AbsCaptureTime) : res extension_error AbsCaptureTime :=
  if zlen marshalled <? 8 then Err errTooSmall
  else
    let! ts := uint64At marshalled 0 in
    if zlen marshalled >=? 16 then
      let! offset := uint64At marshalled 8 in
      Ok (mkCapture ts (i64 offset))
    else Ok (mkCapture ts (estimatedCaptureClockOffset a)).

(** ** Packet trailer *)

Definition Magic : list Z := [76; 75; 84; 83].
Definition xorByte : Z := 0xFF.
Definition envelopeSize : Z := 5.

Definition StripTrailer (payload : list Z) (marker : bool) : res extension_error Z :=
  if negb marker || (zlen payload <? envelopeSize) then Ok 0
  else
    let n := zlen payload in
    let! t0 := load extPanic payload (n - 4) in
    let! t1 := load extPanic payload (n - 3) in
    let! t2 := load extPanic payload (n - 2) in
    let! t3 := load extPanic payload (n - 1) in
    if negb (bool_decide ([t0; t1; t2; t3] = Magic)) then Ok 0
    else
      let! l := load extPanic payload (n - 5) in
      let trailerLen := Z.lxor l xorByte in
      if (trailerLen <? envelopeSize) || (trailerLen >? n) then Ok 0 else Ok trailerLen.

(** * Proofs *)

(** A delay is sent in steps of ten milliseconds, rounded down; those made by
    [PlayoutDelayFromValue] can always be sent. *)
Lemma Delay_roundtrip min max p0 : 0 <= min < 65536 -> 0 <= max < 65536 ->
  let p := PlayoutDelayFromValue min max in
  exists out, Delay_Marshal p = Ok out /\ zlen out = 3 /\
    Delay_Unmarshal out p0 = Ok (mkDelay (Min p / 10 * 10) (Max p / 10 * 10)).
Proof.
  intros Hmin Hmax p.
  assert (0 <= Min p <= 40950 /\ 0 <= Max p <= 40950) as [Ha Hb].
  { unfold p, PlayoutDelayFromValue, PlayoutDelayMaxValue. cbn [Min Max]. rewrite !Z.gtb_ltb.
    repeat case_match; bool_prop; lia. }
  clearbody p. unfold Delay_Marshal, Delay_Unmarshal. set (a := Min p / 10). set (b := Max p / 10).
  assert (0 <= a <= 4095 /\ 0 <= b <= 4095) as [Ra Rb] by (unfold a, b; dlia). clearbody a b.
  rewrite !Z.geb_leb, !(proj2 (Z.leb_gt _ _)) by lia. cbn [orb]. eexists. split; [done|]. split; [done|].
  change (load extPanic [?x; ?y; ?z] 0) with (Ok x : res extension_error Z).
  change (load extPanic [?x; ?y; ?z] 1) with (Ok y : res extension_error Z).
  change (load extPanic [?x; ?y; ?z] 2) with (Ok z : res extension_error Z).
  change (zlen [_; _; _] <? playoutDelayExtensionSize) with false. cbn [res_bind].
  rewrite !Z.shiftr_div_pow2, Z.shiftl_mul_pow2 by lia. rewrite (u16_small (a * 2 ^ 4)) by lia.
  rewrite (u8_small (a / 2 ^ 4)), (u8_small (b / 2 ^ 8)) by dlia.
  assert (u8 (a * 2 ^ 4) = a mod 16 * 2 ^ 4) as -> by (unfold u8; dlia).
  rewrite lor_disjoint by dlia. rewrite !be16_eq by (unfold byte, u8; dlia).
  change 4095 with (2 ^ 12 - 1). rewrite land_mask by lia. f_equal. f_equal.
  - assert ((256 * (a / 2 ^ 4) + (a mod 16 * 2 ^ 4 + b / 2 ^ 8)) / 2 ^ 4 = a) as -> by dlia. apply u16_small. lia.
  - assert ((256 * (a mod 16 * 2 ^ 4 + b / 2 ^ 8) + u8 b) mod 2 ^ 12 = b) as -> by (unfold u8; dlia). apply u16_small. lia.
Qed.

Lemma uint64At_app pre x rest : 0 <= x < 2 ^ 64 -> uint64At (pre ++ bytes64 x ++ rest) (zlen pre) = Ok x.
Proof.
  intros Hx. unfold uint64At. rewrite !load_app_r by lia. unfold bytes64. rewrite !bytes32_eq. cbn [app].
  match goal with |- context [load extPanic ?l 0] =>
    change (load extPanic (?a :: ?t) 0) with (Ok a : res extension_error Z) end.
  change (load extPanic (?a :: ?b :: ?t) 1) with (Ok b : res extension_error Z).
  change (load extPanic (?a :: ?b :: ?c :: ?t) 2) with (Ok c : res extension_error Z).
  change (load extPanic (?a :: ?b :: ?c :: ?d :: ?t) 3) with (Ok d : res extension_error Z).
  change (load extPanic (?a :: ?b :: ?c :: ?d :: ?e :: ?t) 4) with (Ok e : res extension_error Z).
  change (load extPanic (?a :: ?b :: ?c :: ?d :: ?e :: ?f :: ?t) 5) with (Ok f : res extension_error Z).
  change (load extPanic (?a :: ?b :: ?c :: ?d :: ?e :: ?f :: ?g :: ?t) 6) with (Ok g : res extension_error Z).
  change (load extPanic (?a :: ?b :: ?c :: ?d :: ?e :: ?f :: ?g :: ?h :: ?t) 7) with (Ok h : res extension_error Z).
  cbn [res_bind]. rewrite !be32_eq by apply byte_mod. rewrite Z.shiftl_mul_pow2, lor_disjoint by dlia. f_equal. dlia.
Qed.

(** What was written is read, the long and the short form. *)
Lemma Capture_roundtrip a p0 : 0 < absoluteCaptureTimestamp a < 2 ^ 64 ->
  - 2 ^ 63 <= estimatedCaptureClockOffset a < 2 ^ 63 -> estimatedCaptureClockOffset p0 = 0 ->
  exists out, Capture_Marshal a = Ok out /\ Capture_Unmarshal out p0 = Ok a.
Proof.
  intros Ht Ho Hp. unfold Capture_Marshal. rewrite (proj2 (Z.eqb_neq _ _)) by lia. eexists. split; [done|].
  unfold Capture_Unmarshal. set (ts := absoluteCaptureTimestamp a) in *. set (o := estimatedCaptureClockOffset a) in *.
  assert (forall l, uint64At (bytes64 ts ++ l) 0 = Ok ts) as E by (intros l; exact (uint64At_app [] ts l ltac:(lia))).
  rewrite E, zlen_app. change (zlen (bytes64 ts)) with 8. destruct (Z.eqb_spec o 0) as [Hz|Hz]; cbn [negb].
  - rewrite zlen_nil. cbn [res_bind]. change (8 + 0 <? 8) with false. change (8 + 0 >=? 16) with false. cbv iota.
    rewrite Hp, <- Hz. by destruct a.
  - change (zlen (bytes64 _)) with 8. change (8 + 8 <? 8) with false. change (8 + 8 >=? 16) with true. cbn [res_bind].
    pose proof (uint64At_app (bytes64 ts) (u64 o) [] (u64_range o)) as E8.
    change (zlen (bytes64 ts)) with 8 in E8. rewrite app_nil_r in E8. rewrite E8.
    cbn [res_bind]. assert (i64 (u64 o) = o) as -> by (unfold i64, u64; dlia). by destruct a.
Qed.

(** A trailer is found whole, whatever is in front of it; what is stripped is
    never more than the payload, and nothing is read out of range. *)
Definition trailer (body : list Z) : list Z :=
  body ++ Z.lxor (zlen body + envelopeSize) xorByte :: Magic.

Lemma StripTrailer_trailer video body : zlen body <= 250 -> StripTrailer (video ++ trailer body) true = Ok (zlen (trailer body)).
Proof.
  intros Hl. unfold StripTrailer, trailer. pose proof (zlen_nonneg video). pose proof (zlen_nonneg body).
  rewrite (app_assoc video). set (x := Z.lxor (zlen body + envelopeSize) xorByte). rewrite !zlen_app, zlen_cons.
  change (zlen Magic) with 4. unfold envelopeSize at 1. rewrite (proj2 (Z.ltb_ge _ _)) by lia. cbn [negb orb].
  assert (forall k, 0 <= k -> load extPanic ((video ++ body) ++ x :: Magic) (zlen video + zlen body + (1 + 4) - (5 - k)) =
    load extPanic (x :: Magic) k) as Hat.
  { intros k Hk. rewrite <- (load_app_r extPanic (video ++ body) (x :: Magic) k) by done. rewrite zlen_app. f_equal. lia. }
  pose proof (Hat 0 ltac:(lia)) as H0'. pose proof (Hat 1 ltac:(lia)) as H1'. pose proof (Hat 2 ltac:(lia)) as H2'.
  pose proof (Hat 3 ltac:(lia)) as H3'. pose proof (Hat 4 ltac:(lia)) as H4'.
  change (5 - 0) with 5 in H0'. change (5 - 1) with 4 in H1'. change (5 - 2) with 3 in H2'. change (5 - 3) with 2 in H3'.
  change (5 - 4) with 1 in H4'. rewrite H0', H1', H2', H3', H4'.
  change (load extPanic (x :: Magic) 0) with (Ok x : res extension_error Z).
  change (load extPanic (x :: Magic) 1) with (Ok 76 : res extension_error Z).
  change (load extPanic (x :: Magic) 2) with (Ok 75 : res extension_error Z).
  change (load extPanic (x :: Magic) 3) with (Ok 84 : res extension_error Z).
  change (load extPanic (x :: Magic) 4) with (Ok 83 : res extension_error Z). cbn [res_bind].
  rewrite bool_decide_eq_true_2 by done. cbn [negb]. unfold x. rewrite Z.lxor_assoc, Z.lxor_nilpotent, Z.lxor_0_r.
  unfold envelopeSize. rewrite Z.gtb_ltb, !(proj2 (Z.ltb_ge _ _)) by lia. cbn [orb]. f_equal; lia.
Qed.

Lemma StripTrailer_bounds payload marker : exists n, StripTrailer payload marker = Ok n /\ (n = 0 \/ 5 <= n <= zlen payload).
Proof.
  unfold StripTrailer. destruct (_ || _) eqn:E; [exists 0; auto|]. apply orb_false_iff in E as [_ E]. apply Z.ltb_ge in E.
  unfold envelopeSize in *. set (n := zlen payload) in *.
  destruct (load_in extPanic payload (n - 4) ltac:(lia)) as (t0 & -> & _), (load_in extPanic payload (n - 3) ltac:(lia)) as (t1 & -> & _),
    (load_in extPanic payload (n - 2) ltac:(lia)) as (t2 & -> & _), (load_in extPanic payload (n - 1) ltac:(lia)) as (t3 & -> & _),
    (load_in extPanic payload (n - 5) ltac:(lia)) as (l & -> & _). cbn [res_bind].
  destruct (negb _); [exists 0; auto|]. destruct (_ || _) eqn:E'; [exists 0; auto|]. apply orb_false_iff in E' as [E1 E2].
  rewrite Z.gtb_ltb in E2. apply Z.ltb_ge in E1, E2. eexists. split; [done|]. right. lia.
Qed.

(** The small header extensions read what they write: a delay in whole
    tens of milliseconds, a capture time with and without its offset; and a
    trailer behind any payload is found with its exact length. *)
Theorem extensions_roundtrip :
  (forall min max p0, 0 <= min < 65536 -> 0 <= max < 65536 -> exists out,
     Delay_Marshal (PlayoutDelayFromValue min max) = Ok out /\
     Delay_Unmarshal out p0 = Ok (mkDelay (Z.min min 40950 / 10 * 10) (Z.min max 40950 / 10 * 10))) /\
  (forall a p0, 0 < absoluteCaptureTimestamp a < 2 ^ 64 -> - 2 ^ 63 <= estimatedCaptureClockOffset a < 2 ^ 63 ->
     estimatedCaptureClockOffset p0 = 0 ->
     exists out, Capture_Marshal a = Ok out /\ Capture_Unmarshal out p0 = Ok a) /\
  (forall video body, zlen body <= 250 -> StripTrailer (video ++ trailer body) true = Ok (zlen (trailer body))).
Proof.
  split_and!; [|exact Capture_roundtrip|exact StripTrailer_trailer].
  intros min max p0 Hmin Hmax. destruct (Delay_roundtrip min max p0 Hmin Hmax) as (out & E & _ & Eu). exists out.
  split; [done|]. rewrite Eu. unfold PlayoutDelayFromValue, PlayoutDelayMaxValue. cbn [Min Max]. rewrite !Z.gtb_ltb.
  do 4 f_equal; case_match; bool_prop; lia.
Qed.

(** A short form read into a value that had an offset keeps the old offset. *)
Example stale_offset : Capture_Unmarshal [0; 0; 0; 1; 0; 0; 0; 2] (mkCapture 5 77) = Ok (mkCapture 4294967298 77).
Proof. vm_compute. reflexivity. Qed.

Lemma extensions_roundtrip_witness :
  (exists out, Delay_Marshal (PlayoutDelayFromValue 105 65535) = Ok out /\
     Delay_Unmarshal out (mkDelay 0 0) = Ok (mkDelay 100 40950)) /\
  (exists out, Capture_Marshal (mkCapture 4294967298 (-7)) = Ok out /\
     Capture_Unmarshal out (mkCapture 0 0) = Ok (mkCapture 4294967298 (-7))) /\
  StripTrailer ([1; 2; 3] ++ trailer [9; 9]) true = Ok 7.
Proof.
  destruct extensions_roundtrip as (Hd & Hc & Ht). split_and!.
  - apply (Hd 105 65535 (mkDelay 0 0)); lia.
  - apply (Hc (mkCapture 4294967298 (-7)) (mkCapture 0 0)); [cbn; lia|cbn; lia|reflexivity].
  - apply (Ht [1; 2; 3] [9; 9]). vm_compute. discriminate.
Defined.
