(* ===== verification/Deduper.v ===== *)
(** * Duplicate data packets

    Models [src/SERVER/pkg/rtc/user_packet_deduper.go]: the nonces of the last
    user packets, as a map from each to the next.  It refines a window of the
    last hundred nonces that the zero value is in at the start. *)

From S2P Require Import Prelude.

(** [uuid.UUID] and [uuid.FromBytes] are third-party: a type with a zero value,
    and a partial function. *)
Class Uuid (UUID : Type) `{Countable UUID} := {
  zeroUUID : UUID;
  FromBytes : list Z -> option UUID;
}.

Definition maxSize : Z := 100.

Record UserPacketDeduper (UUID : Type) `{Countable UUID} := mkDeduper {
  seen : gmap UUID UUID;
  head : UUID;
  tail : UUID;
}.
Arguments mkDeduper {UUID _ _}.
Arguments seen {UUID _ _}.
Arguments head {UUID _ _}.
Arguments tail {UUID _ _}.

Section Deduper.
Context `{Uuid UUID}.

Definition NewUserPacketDeduper : UserPacketDeduper UUID := mkDeduper ∅ zeroUUID zeroUUID.

(** [IsDuplicate], for a nonce that is a UUID. *)
Definition seenBefore (id : UUID) (u : UserPacketDeduper UUID) : UserPacketDeduper UUID * bool :=
  if bool_decide (head u = id) then (u, true)
  else if bool_decide (is_Some (seen u !! id)) then (u, true)
  else
    let u := mkDeduper (<[head u := id]> (seen u)) id (tail u) in
    if Z.of_nat (size (seen u)) =? maxSize then
      let t := tail u in
      (mkDeduper (delete t (seen u)) (head u) (default zeroUUID (seen u !! t)), false)
    else (u, false).

Definition IsDuplicate (nonce : list Z) (u : UserPacketDeduper UUID) : UserPacketDeduper UUID * bool :=
  match FromBytes nonce with
  | None => (u, false)
  | Some id => seenBefore id u
  end.

(** ** The window *)

(** The last nonces, the oldest first; the zero value is there at the start. *)
Definition window_step (id : UUID) (w : list UUID) : list UUID * bool :=
  if bool_decide (id ∈ w) then (w, true)
  else if Z.of_nat (length w) =? maxSize then (drop 1 w ++ [id], false)
  else (w ++ [id], false).

(** Each nonce of the window leads to the next. *)
Definition chained (m : gmap UUID UUID) (w : list UUID) : Prop :=
  (forall i a, w !! i = Some a -> m !! a = w !! S i) /\ (forall a, a ∉ w -> m !! a = None).

Definition represents (u : UserPacketDeduper UUID) (w : list UUID) : Prop :=
  NoDup w /\ (length w <= 100)%nat /\ last w = Some (head u) /\ w !! 0%nat = Some (tail u) /\
  size (seen u) = Nat.pred (length w) /\ chained (seen u) w.

Lemma start_represents : represents NewUserPacketDeduper [zeroUUID].
Proof.
  split_and!; [apply NoDup_singleton|cbn; lia|done|done|done|].
  split; [|done]. intros [|i] a; [|done]. intros [= <-]. done.
Qed.

Lemma last_index (w : list UUID) a : last w = Some a -> w !! Nat.pred (length w) = Some a.
Proof. by rewrite last_lookup. Qed.

Lemma chained_snoc m w x id : NoDup w -> last w = Some x -> id ∉ w -> chained m w -> chained (<[x := id]> m) (w ++ [id]).
Proof.
  intros Hd Hl Hid [Hc Hn]. pose proof (last_index _ _ Hl) as Hx. pose proof (lookup_lt_Some _ _ _ Hx) as Hlt. split.
  - intros i a Ha. destruct (decide (i = Nat.pred (length w))) as [->|Hi].
    + rewrite lookup_app_l, Hx in Ha by done. injection Ha as <-. rewrite lookup_insert_eq.
      replace (S (Nat.pred (length w))) with (length w) by lia. by rewrite list_lookup_middle.
    + apply lookup_app_Some in Ha as [Ha|[Hge Ha]].
      * pose proof (lookup_lt_Some _ _ _ Ha). rewrite lookup_insert_ne, (Hc i a Ha), lookup_app_l by (lia || (intros ->; apply Hi; by eapply NoDup_lookup)). done.
      * apply list_lookup_singleton_Some in Ha as [Hz <-].
        rewrite lookup_insert_ne by (intros ->; apply Hid; by eapply list_elem_of_lookup_2).
        rewrite (Hn _ Hid). symmetry. apply lookup_ge_None_2. rewrite length_app. cbn. lia.
  - intros a Ha. rewrite not_elem_of_app in Ha. destruct Ha as [Ha _].
    rewrite lookup_insert_ne by (intros ->; apply Ha; by eapply list_elem_of_lookup_2). by apply Hn.
Qed.

Lemma chained_tail m x w : NoDup (x :: w) -> chained m (x :: w) -> chained (delete x m) w.
Proof.
  intros [Hx _]%NoDup_cons [Hc Hn]. split.
  - intros i a Ha. rewrite lookup_delete_ne by (intros ->; apply Hx; by eapply list_elem_of_lookup_2). by apply (Hc (S i)).
  - intros a Ha. destruct (decide (a = x)) as [->|Hne]; [apply lookup_delete_eq|].
    rewrite lookup_delete_ne by done. apply Hn. by rewrite not_elem_of_cons.
Qed.

Lemma not_in_window u w id : represents u w -> id ∉ w -> head u <> id /\ seen u !! id = None.
Proof.
  intros (_ & _ & Hl & _ & _ & _ & Hn) Hid. split; [|by apply Hn]. intros <-. apply Hid.
  by eapply list_elem_of_lookup_2, last_index.
Qed.

Lemma seenBefore_window u w id : represents u w ->
  snd (seenBefore id u) = snd (window_step id w) /\ represents (fst (seenBefore id u)) (fst (window_step id w)).
Proof.
  intros Hr. pose proof Hr as (Hd & Hlen & Hl & H0' & Hs & Hc). unfold seenBefore, window_step.
  destruct (decide (id ∈ w)) as [Hin|Hin].
  { rewrite (bool_decide_eq_true_2 (id ∈ w)) by done.
    destruct (decide (head u = id)) as [Hh|Hh]; [rewrite bool_decide_eq_true_2 by done; by split|].
    rewrite bool_decide_eq_false_2 by done. rewrite bool_decide_eq_true_2; [by split|].
    apply list_elem_of_lookup in Hin as [i Hi]. destruct Hc as [Hc _]. rewrite (Hc i id Hi). apply lookup_lt_is_Some_2.
    pose proof (lookup_lt_Some _ _ _ Hi). destruct (decide (S i = length w)) as [E|]; [|lia].
    apply last_index in Hl. rewrite <- E in Hl. cbn in Hl. congruence. }
  destruct (not_in_window u w id Hr Hin) as [Hh Hnone].
  rewrite (bool_decide_eq_false_2 (head u = id)), (bool_decide_eq_false_2 (is_Some _)), (bool_decide_eq_false_2 (id ∈ w))
    by (done || (rewrite Hnone; by intros [? ?])). cbn [seen head tail].
  destruct w as [|x w]; [done|]. injection H0' as ->. set (w' := tail u :: w) in *.
  assert (seen u !! head u = None) as Hhead.
  { destruct Hc as [Hc _]. rewrite (Hc _ _ (last_index _ _ Hl)). apply lookup_ge_None_2. cbn. lia. }
  assert (size (<[head u := id]> (seen u)) = length w') as Hsize by (rewrite map_size_insert_None, Hs by done; done).
  pose proof (chained_snoc _ _ _ _ Hd Hl Hin Hc) as Hc'.
  assert (NoDup (w' ++ [id])) as Hd'.
  { apply NoDup_app. split_and!; [done| |apply NoDup_singleton]. intros y Hy ->%list_elem_of_singleton. done. }
  rewrite Hsize. destruct (Z.eqb_spec (Z.of_nat (length w')) maxSize) as [Hfull|Hfull]; (split; [done|]); cbn [fst].
  - unfold maxSize in Hfull. assert (<[head u := id]> (seen u) !! tail u = (w ++ [id]) !! 0%nat) as Ht by exact (proj1 Hc' 0%nat (tail u) eq_refl).
    assert (exists y, (w ++ [id]) !! 0%nat = Some y) as [y Hy] by (destruct w; by eexists). rewrite Ht, Hy. cbn [default from_option].
    change (drop 1 w') with w. change (w' ++ [id]) with (tail u :: (w ++ [id])) in Hc', Hd'. split_and!.
    + by apply NoDup_cons in Hd' as [_ Hd'].
    + rewrite length_app. cbn in *. lia.
    + apply last_snoc.
    + exact Hy.
    + cbn [seen]. rewrite map_size_delete_Some by (rewrite Ht, Hy; by eexists). rewrite Hsize, length_app. cbn. lia.
    + by apply chained_tail.
  - unfold maxSize in Hfull. split_and!; [done| |apply last_snoc|done| |done].
    + rewrite length_app. cbn in *. lia.
    + cbn [seen]. rewrite Hsize, length_app. cbn. lia.
Qed.

(** ** Runs *)

Fixpoint dedup (l : list (list Z)) (u : UserPacketDeduper UUID) : list bool :=
  match l with
  | [] => []
  | nonce :: l => let (u, d) := IsDuplicate nonce u in d :: dedup l u
  end.

Fixpoint window_run (l : list (list Z)) (w : list UUID) : list bool :=
  match l with
  | [] => []
  | nonce :: l =>
    match FromBytes nonce with
    | None => false :: window_run l w
    | Some id => let (w, d) := window_step id w in d :: window_run l w
    end
  end.

Lemma dedup_window l : forall u w, represents u w -> dedup l u = window_run l w.
Proof.
  induction l as [|nonce l IH]; intros u w Hr; [done|]. cbn [dedup window_run]. unfold IsDuplicate.
  destruct (FromBytes nonce) as [id|]; [|f_equal; by apply IH].
  destruct (seenBefore_window u w id Hr) as [Ed Hr']. destruct (seenBefore id u), (window_step id w). cbn in *.
  rewrite Ed. f_equal. by apply IH.
Qed.

(** A window with the zero value in front, which takes the place of one nonce,
    answers as the plain one while no nonce is the zero value. *)
Lemma window_run_zero l : (forall nonce, nonce ∈ l -> FromBytes nonce <> Some zeroUUID) ->
  forall w, (length w < 100)%nat -> window_run l (zeroUUID :: w) = window_run l w.
Proof.
  induction l as [|nonce l IH]; intros Hl w Hw; [done|]. cbn [window_run].
  assert (forall n, n ∈ l -> FromBytes n <> Some zeroUUID) as Hl' by (intros n Hn; apply Hl; by right).
  destruct (FromBytes nonce) as [id|] eqn:E; [|f_equal; by apply IH].
  assert (id <> zeroUUID) as Hid by (intros ->; by apply (Hl nonce (list_elem_of_here _ _))).
  unfold window_step. rewrite (bool_decide_ext (id ∈ zeroUUID :: w) (id ∈ w)) by (rewrite elem_of_cons; naive_solver).
  case_bool_decide; [f_equal; by apply IH|]. unfold maxSize. rewrite (proj2 (Z.eqb_neq (Z.of_nat (length w)) 100)) by lia.
  destruct (Z.eqb_spec (Z.of_nat (length (zeroUUID :: w))) 100) as [|Hf]; [done|]. f_equal.
  apply (IH Hl' (w ++ [id])). rewrite length_app. cbn [length] in *. lia.
Qed.

(** C25: over every sequence of packets none of which has the zero value as its
    nonce, the linked map answers as a window of the last hundred nonces does:
    a packet is reported as a duplicate exactly when its nonce is in the
    window.  With nonces of zero too it answers as the window that the zero
    value is in from the start ([zero_nonce_dropped]). *)
Theorem dedup_refines_window l :
  dedup l NewUserPacketDeduper = window_run l [zeroUUID] /\
  ((forall nonce, nonce ∈ l -> FromBytes nonce <> Some zeroUUID) -> dedup l NewUserPacketDeduper = window_run l []).
Proof.
  pose proof (dedup_window l _ _ start_represents) as E. split; [exact E|]. intros Hl. rewrite E.
  by apply window_run_zero; [|cbn; lia].
Qed.
End Deduper.

(** Nonces of 16 bytes. *)
#[local] Instance bytes16_uuid : Uuid (list Z) := {
  zeroUUID := repeat 0 16;
  FromBytes := fun b => if Nat.eqb (length b) 16 then Some b else None;
}.

Definition ex_nonce (i : nat) : list Z := Z.of_nat i :: repeat 1 15.

(** Three nonces, of which the first comes twice. *)
Lemma dedup_refines_window_witness :
  dedup [ex_nonce 5; ex_nonce 6; ex_nonce 5] NewUserPacketDeduper = window_run [ex_nonce 5; ex_nonce 6; ex_nonce 5] [] /\
  dedup [ex_nonce 5; ex_nonce 6; ex_nonce 5] NewUserPacketDeduper = [false; false; true].
Proof.
  split; [|vm_compute; reflexivity].
  destruct (dedup_refines_window [ex_nonce 5; ex_nonce 6; ex_nonce 5]) as [_ H]. apply H.
  intros nonce Hn. rewrite !elem_of_cons, elem_of_nil in Hn. destruct Hn as [->|[->|[->|[]]]]; discriminate.
Defined.

(** A repeated nonce is a duplicate for 99 others, and not after the hundredth. *)
Example hundred_remembered :
  last (dedup (map ex_nonce (seq 0 100 ++ [0%nat])) NewUserPacketDeduper) = Some true /\
  last (dedup (map ex_nonce (seq 0 101 ++ [0%nat])) NewUserPacketDeduper) = Some false.
Proof. vm_compute. done. Qed.

(** The first packet is reported as a duplicate when its nonce is zero. *)
Example zero_nonce_dropped : dedup [repeat 0 16] NewUserPacketDeduper = [true].
Proof. vm_compute. reflexivity. Qed.
